(* ===== verification/_CoqProject ===== *)
-Q . S2P
Prelude.v
Std.v
Timer.v
Http.v
HttpParserTable.v
HttpParser.v
HttpParserFacts.v
HttpParserSpec.v
HttpParserSplit.v
HttpParserRoundtrip.v
Endian.v
ByteArray.v
ByteArrayViews.v
ByteArrayCodec.v
FdManager.v
Fiber.v
Scheduler.v
SchedulerSpec.v
SchedulerRun.v
IOManager.v
IOManagerSpec.v
Hook.v
HookSpec.v
HookCalls.v
HttpClientTable.v
HttpClientParser.v
HttpClientFacts.v
HttpClientSpec.v
HttpClientRoundtrip.v
Address.v
AddressSpec.v
Socket.v
SocketSpec.v
Stream.v
StreamSpec.v
HttpSession.v
HttpSessionSpec.v
Servlet.v
ServletSpec.v
HttpServer.v
HttpServerSpec.v
Config.v
ConfigSpec.v
Log.v
LogSpec.v
Logger.v
LoggerSpec.v
LoggerSafe.v
LoggerConf.v
Thread.v
ThreadSpec.v
