(* ===== verification/Prelude.v ===== *)
(** * A verification development for sylar

    sylar is a C++ framework for network servers: fibers that are switched in user space, a scheduler of
    fibers over threads, an I/O manager over epoll with timers, system calls that are hooked so that a fiber that would
    block yields, and on top of them sockets, streams, HTTP and a server; with logging and configuration besides.
    This library translates the implementation files of [src/sylar] into Gallina definitions and proves
    what they do. Each definition stands behind a comment [SRC file:lines symbol] that names the code it translates.

    ** How the code is modelled

    This file has what all parts share. An operation on a state [S] is a [M S A]: it
    returns a value and a state ([Ret]), throws a C++ exception ([Exn]), or has no defined result ([UB]: a failed
    assertion, a null or wild pointer, signed overflow, a bad shift, a deadlock). Objects behind pointers are in heaps ([gmap]s
    from addresses), so that aliasing and use after destruction are visible. Unsigned and signed integers are [Z] with
    their wrap-around written out ([wrapu], [wraps]); characters are bytes in [Z]. [Std.v] has the parts of the C and C++
    libraries the sources use: strings, comparisons, [std::map] and [std::set] as sorted lists over the comparator the
    source gives them, [strtol]. Code that is not in the repository (the kernel, yaml-cpp, [boost::lexical_cast],
    [fnmatch], the resolver, [strftime]) is a class or a parameter, with laws where a theorem rests on them, and with
    the instances the witnesses use. What a critical section of a mutex or an atomic operation does is one step; where
    an operation takes a lock twice, or two threads act, it is several, and theorems quantify over the interleavings.

    ** Files

    - [Timer.v]: timer.h/.cpp, the ordered set of timers of the manager: the order is kept and no operation
      goes wrong, expiry fires exactly the due timers, no wake-up is missed.
    - [Http.v]: http/http.h/.cpp, messages, their headers and their printing.
    - [HttpParserTable.v], [HttpParser.v]: http/http11_parser.rl.cpp and the request half of http_parser.cpp, the
      goto automaton state by state. [HttpParserFacts.v] checks finite properties of all transitions by evaluation;
      [HttpParserSpec.v] proves memory safety on any bytes, with the one exception a call that starts
      inside a query can throw; [HttpParserSplit.v] that a request may come in two reads, [HttpParserRoundtrip.v] that the texts of a grammar of requests parse to what they say. [HttpClientTable.v],
      [HttpClientParser.v], [HttpClientFacts.v], [HttpClientSpec.v], [HttpClientRoundtrip.v]: the same for responses.
    - [Endian.v], [ByteArray.v], [ByteArrayViews.v], [ByteArrayCodec.v]: endian1.h and bytearray.h/.cpp. The block list
      refines a flat string with a cursor; messages of fields in the ranges the codec carries survive writing and
      reading, also between hosts of different byte order.
    - [FdManager.v]: fd_manager.h/.cpp, the table of descriptors.
    - [Fiber.v]: fiber.h/.cpp, coroutines over [ucontext]; the saved context is the point of the code to go on at.
    - [Scheduler.v]: scheduler.h/.cpp, the loop of [run] as steps of several threads; [SchedulerSpec.v]: its counters under every
      interleaving; [SchedulerRun.v]: one thread runs the queued callbacks and fibers in the order of the queue, and ends.
    - [IOManager.v], [IOManagerSpec.v]: iomanager.h/.cpp, contexts and epoll refine a table from (descriptor, event) to the waiting task.
    - [Hook.v], [HookSpec.v], [HookCalls.v]: hook.h/.cpp, the hooked calls as user code of fibers on the I/O manager: when
      they pass through, when they wait, what wakes them.
    - [Address.v], [AddressSpec.v]: address.h/.cpp. [Socket.v], [SocketSpec.v]: socket.h/.cpp over the hooked calls.
      [Stream.v], [StreamSpec.v]: stream.h/.cpp and socket_stream.h/.cpp.
    - [HttpSession.v], [HttpSessionSpec.v]: http/http_session.cpp, parser and stream composed. [Servlet.v], [ServletSpec.v]:
      http/servlet.h/.cpp. [HttpServer.v], [HttpServerSpec.v]: tcp_server.h/.cpp and http/http_server.h/.cpp; requests that
      go into the descriptor come out as the responses of their servlets.
    - [Config.v], [ConfigSpec.v]: config.h/.cpp, what the casts of containers read and print, variables with
      listeners and their locks, the registry and the loading of documents.
    - [Log.v], [LogSpec.v]: levels, events and patterns of log.h/.cpp. [Logger.v]: appenders, loggers, their manager and the
      definitions of loggers in the configuration; [LoggerSpec.v]: where events go; [LoggerSafe.v]: every sequence of operations keeps
      the heap well formed; [LoggerConf.v]: what a change of the configuration does.
    - [Thread.v], [ThreadSpec.v]: thread.h/.cpp (guards, the spin lock, semaphores, the start and end of threads) and util.cpp.

    The parts meet at classes. [Virtual] (Scheduler.v) has the virtual functions the scheduler calls, which the I/O manager gives. [EventKernel],
    [FdKernel] and [SysKernel] are the kernel below the I/O manager, the descriptor table and the hooks. [Stream] (Stream.v) is what the session
    needs; a [SocketStream] is an instance. [CallbackLaws] and [ClientCallbackLaws] are what the automata need of the callbacks.
    [Yaml] is what casts need of yaml-cpp.

    ** Fuel

    Loops without a structural measure take fuel and give [OutOfFuel] without. The theorems give the fuel
    that is enough: the length of the data for parsers, [ByteArray] and patterns; the size of the queue for the scheduler; the number of requests
    for [handleClient]; one more than the number of loggers for a chain of loggers, where running out is the deadlock of a cycle.
    Where the code itself does not end (a stream that ends early, a recursive [setsockopt], a dispatcher that finds itself), the theorem says
    that no fuel is enough.

    ** What is not modelled

    Log statements inside the other components (they only print), and [BacktraceToString] of failed assertions: the outcome
    [AssertFailed] ends the run. The switch of machine contexts by [ucontext] and the scheduling of the operating system: control transfer to the saved
    point, and any interleaving. Memory orders of atomics: the spin lock's flag is sequentially consistent. [Mutex], [RWMutex] and [Spinlock] are
    single calls of pthread, and the singletons and [Noncopyable] have no behaviour of their own. The values of [boost::lexical_cast] on
    scalars, the tests (example programs) and the files the build generates are left aside. The body of the automata is
    the generated code in the repository, not the grammars it was generated from. *)

From stdpp Require Export base tactics list strings gmap sets numbers option.
From Stdlib Require Export ZArith Lia.

#[global] Open Scope Z_scope.
Declare Scope sylar_scope.
Delimit Scope sylar_scope with sylar.

(** ** Outcomes and the state monad of the models *)

(** The exceptions of the C++ standard library the sources throw. *)
Inductive exn := out_of_range | logic_error | length_error | invalid_argument | bad_cast.

(** Ways an execution has no defined result: a failed [SYLAR_ASSERT] or
    [assert] (the process aborts) and undefined behaviour of C++. *)
Inductive fault :=
  | NullDeref | OutOfBounds | DivByZero | Indeterminate | SignedOverflow
  | AssertFailed | EraseEnd | BadShift | Deadlock | OutOfFuel.

#[global] Instance exn_eq_dec : EqDecision exn.
Proof. solve_decision. Defined.
#[global] Instance fault_eq_dec : EqDecision fault.
Proof. solve_decision. Defined.

(** The result of running an operation on a state [S]. An exception leaves the
    object in the state it had when it was thrown; a fault leaves none. *)
Inductive res (S A : Type) :=
  | Ret (a : A) (s : S)
  | Exn (e : exn) (s : S)
  | UB (f : fault).
Arguments Ret {S A} _ _.
Arguments Exn {S A} _ _.
Arguments UB {S A} _.

Definition M (S A : Type) : Type := S -> res S A.

Definition ret {S A} (a : A) : M S A := fun s => Ret a s.
Definition throw {S A} (e : exn) : M S A := fun s => Exn e s.
Definition fail_with {S A} (f : fault) : M S A := fun _ => UB f.
Definition bind {S A B} (m : M S A) (k : A -> M S B) : M S B :=
  fun s => match m s with
           | Ret a s' => k a s'
           | Exn e s' => Exn e s'
           | UB f => UB f
           end.
Definition get {S} : M S S := fun s => Ret s s.
Definition gets {S A} (f : S -> A) : M S A := fun s => Ret (f s) s.
Definition modify {S} (f : S -> S) : M S unit := fun s => Ret tt (f s).
(** [SYLAR_ASSERT(b)]: the process aborts when [b] is false. *)
Definition assert_ {S} (b : bool) : M S unit :=
  if b then ret tt else fail_with AssertFailed.

Notation "'let!' x := m 'in' k" := (bind m (fun x => k))
  (at level 200, x pattern, m at level 100, k at level 200,
   format "'[v' 'let!'  x  :=  m  'in' '/' k ']'") : sylar_scope.
Notation "m ;; k" := (bind m (fun _ => k%sylar))
  (at level 100, k at level 200, right associativity,
   format "'[v' m ;; '/' k ']'") : sylar_scope.
#[global] Open Scope sylar_scope.

Definition is_ret {S A} (r : res S A) : bool :=
  match r with Ret _ _ => true | _ => false end.
Definition value_of {S A} (r : res S A) : option A :=
  match r with Ret a _ => Some a | _ => None end.
Definition state_of {S A} (r : res S A) : option S :=
  match r with Ret _ s | Exn _ s => Some s | UB _ => None end.

Section MonadLaws.
Context {S A B C : Type}.

Lemma bind_ret_l (a : A) (k : A -> M S B) s : bind (ret a) k s = k a s.
Proof. done. Qed.

Lemma bind_assoc (m : M S A) (f : A -> M S B) (g : B -> M S C) s :
  bind (bind m f) g s = bind m (fun a => bind (f a) g) s.
Proof. unfold bind. by destruct (m s). Qed.

Lemma bind_Ret (m : M S A) (k : A -> M S B) s a s' :
  m s = Ret a s' -> bind m k s = k a s'.
Proof. unfold bind. by intros ->. Qed.

Lemma bind_Exn (m : M S A) (k : A -> M S B) s e s' :
  m s = Exn e s' -> bind m k s = Exn e s'.
Proof. unfold bind. by intros ->. Qed.

Lemma bind_UB (m : M S A) (k : A -> M S B) s f :
  m s = UB f -> bind m k s = UB f.
Proof. unfold bind. by intros ->. Qed.

Lemma bind_inv_Ret (m : M S A) (k : A -> M S B) s b s' :
  bind m k s = Ret b s' -> exists a s1, m s = Ret a s1 /\ k a s1 = Ret b s'.
Proof. unfold bind. destruct (m s) eqn:E; naive_solver. Qed.
End MonadLaws.

(** ** Operations that keep a relation between the state before and after *)

Definition keeps {S A} (R : S -> S -> Prop) (m : M S A) : Prop :=
  forall s a s', m s = Ret a s' -> R s s'.

Section Keeps.
Context {S : Type} (R : S -> S -> Prop) `{!PreOrder R}.

Lemma keeps_bind {A B} (m : M S A) (k : A -> M S B) :
  keeps R m -> (forall a, keeps R (k a)) -> keeps R (bind m k).
Proof.
  intros Hm Hk s b s' E. apply bind_inv_Ret in E as (a & s1 & E1 & E2).
  transitivity s1; [by eapply Hm|by eapply Hk].
Qed.

Lemma keeps_ret {A} (a : A) : keeps R (ret a).
Proof. intros s b s' E. by injection E as _ <-. Qed.

Lemma keeps_gets {A} (f : S -> A) : keeps R (gets f).
Proof. intros s b s' E. by injection E as _ <-. Qed.

Lemma keeps_get : keeps R get.
Proof. intros s b s' E. by injection E as _ <-. Qed.

Lemma keeps_fail {A} f : keeps R (fail_with f : M S A).
Proof. by intros s b s' E. Qed.

Lemma keeps_modify (f : S -> S) : (forall s, R s (f s)) -> keeps R (modify f).
Proof. intros Hf s b s' E. injection E as _ <-. apply Hf. Qed.

Lemma keeps_assert b : keeps R (assert_ b).
Proof. destruct b; [apply keeps_ret|apply keeps_fail]. Qed.

Lemma keeps_if {A} (b : bool) (m1 m2 : M S A) : keeps R m1 -> keeps R m2 -> keeps R (if b then m1 else m2).
Proof. by destruct b. Qed.
End Keeps.

Create HintDb keeps.
#[export] Hint Resolve keeps_ret keeps_gets keeps_get keeps_fail keeps_assert : keeps.
#[export] Hint Extern 0 (PreOrder _) => typeclasses eauto : keeps.
(** Follow the structure of an operation; what is left are its primitive changes. *)
Ltac keep :=
  repeat first
    [ progress intros
    | solve [eauto with keeps]
    | match goal with
      | |- keeps _ (bind _ _) => apply keeps_bind; [typeclasses eauto|..]
      | |- keeps _ (modify _) => apply keeps_modify; intros
      end
    | case_match ].

(** ** Operations that always return *)

Definition total {S A} (m : M S A) : Prop := forall s, exists a s', m s = Ret a s'.

Section Total.
Context {S : Type}.

Lemma total_bind {A B} (m : M S A) (k : A -> M S B) : total m -> (forall a, total (k a)) -> total (bind m k).
Proof.
  intros Hm Hk s. destruct (Hm s) as (a & s1 & E). destruct (Hk a s1) as (b & s2 & E2).
  exists b, s2. by rewrite (bind_Ret _ _ _ _ _ E).
Qed.

Lemma total_ret {A} (a : A) : total (ret a : M S A).
Proof. intros s. by eexists _, _. Qed.

Lemma total_gets {A} (f : S -> A) : total (gets f).
Proof. intros s. by eexists _, _. Qed.

Lemma total_modify (f : S -> S) : total (modify f).
Proof. intros s. by eexists _, _. Qed.
End Total.

Create HintDb total.
#[export] Hint Resolve total_ret total_gets total_modify : total.
Ltac total :=
  repeat first
    [ progress intros
    | solve [eauto with total]
    | match goal with |- total (bind _ _) => apply total_bind end
    | case_match ].

(** ** Machine integers *)

(** [wrapu w z] is the value of [z] in a [w]-bit unsigned type, [wraps w z] in a
    [w]-bit two's-complement one. *)
Definition wrapu (w z : Z) : Z := z mod 2 ^ w.
Definition wraps (w z : Z) : Z :=
  let r := z mod 2 ^ w in if r <? 2 ^ (w - 1) then r else r - 2 ^ w.

Notation u8 := (wrapu 8).
Notation u16 := (wrapu 16).
Notation u32 := (wrapu 32).
Notation u64 := (wrapu 64).
Notation s8 := (wraps 8).
Notation s16 := (wraps 16).
Notation s32 := (wraps 32).
Notation s64 := (wraps 64).

Definition in_u (w z : Z) : Prop := 0 <= z < 2 ^ w.
Definition in_s (w z : Z) : Prop := - 2 ^ (w - 1) <= z < 2 ^ (w - 1).

Lemma wrapu_small w z : 0 <= z < 2 ^ w -> wrapu w z = z.
Proof. apply Z.mod_small. Qed.

Lemma wrapu_range w z : 0 <= w -> 0 <= wrapu w z < 2 ^ w.
Proof. intros. apply Z.mod_pos_bound. by apply Z.pow_pos_nonneg. Qed.

Lemma pow2_split w : 0 < w -> 2 ^ w = 2 * 2 ^ (w - 1).
Proof. intros. rewrite <- Z.pow_succ_r by lia. f_equal. lia. Qed.

Lemma wraps_range w z : 0 < w -> in_s w (wraps w z).
Proof.
  intros Hw. unfold in_s, wraps.
  pose proof (Z.mod_pos_bound z (2 ^ w) ltac:(by apply Z.pow_pos_nonneg; lia)).
  pose proof (pow2_split w Hw). case_match eqn:E; lia.
Qed.

Lemma wraps_small w z : 0 < w -> in_s w z -> wraps w z = z.
Proof.
  intros Hw [H1 H2]. unfold wraps. pose proof (pow2_split w Hw).
  destruct (decide (0 <= z)).
  - rewrite Z.mod_small by lia. case_match eqn:E; lia.
  - replace (z mod 2 ^ w) with (z + 2 ^ w).
    + case_match eqn:E; lia.
    + apply Z.mod_unique_pos with (-1); lia.
Qed.

(** Reinterpreting a signed value as unsigned and back. *)
Lemma wraps_wrapu w z : 0 < w -> wraps w (wrapu w z) = wraps w z.
Proof. intros. unfold wraps, wrapu. by rewrite Z.mod_mod by lia. Qed.

Lemma wrapu_wraps w z : 0 < w -> wrapu w (wraps w z) = wrapu w z.
Proof.
  intros. unfold wraps, wrapu. case_match.
  - by rewrite Z.mod_mod by lia.
  - rewrite <- (Z.mod_add _ 1) by (pose proof (Z.pow_pos_nonneg 2 w); lia).
    replace (z mod 2 ^ w - 2 ^ w + 1 * 2 ^ w) with (z mod 2 ^ w) by lia.
    by rewrite Z.mod_mod by lia.
Qed.

(** ** Bit operations as arithmetic *)

Lemma testbit_small a n i : 0 <= a < 2 ^ n -> n <= i -> Z.testbit a i = false.
Proof.
  intros Ha Hi. destruct (decide (0 <= n)).
  - rewrite <- (Z.mod_small a (2 ^ n)) by done. by apply Z.mod_pow2_bits_high.
  - rewrite (Z.pow_neg_r 2 n) in Ha by lia. lia.
Qed.

Lemma lor_shiftl_add a x i : 0 <= i -> 0 <= a < 2 ^ i -> Z.lor a (Z.shiftl x i) = a + x * 2 ^ i.
Proof.
  intros Hi Ha. rewrite <- Z.shiftl_mul_pow2 by done.
  assert (Z.land a (Z.shiftl x i) = 0) as Hl.
  { apply Z.bits_inj'. intros n Hn. rewrite Z.land_spec, Z.bits_0.
    destruct (decide (n < i)).
    - by rewrite Z.shiftl_spec_low, andb_false_r by lia.
    - by rewrite (testbit_small a i) by lia. }
  by rewrite Z.add_nocarry_lxor, Z.lxor_lor by done.
Qed.

Lemma land_ones_mod a n : 0 <= n -> Z.land a (2 ^ n - 1) = a mod 2 ^ n.
Proof. intros. rewrite <- Z.land_ones by done. by rewrite Z.ones_equiv, Z.sub_1_r. Qed.

(** Exclusive or with all ones is the complement. *)
Lemma lxor_ones_sub a n : 0 <= n -> 0 <= a < 2 ^ n -> Z.lxor a (2 ^ n - 1) = 2 ^ n - 1 - a.
Proof.
  intros Hn Ha. assert (2 ^ n - 1 = Z.ones n) as -> by (by rewrite Z.ones_equiv, Z.sub_1_r).
  assert (Z.ldiff a (Z.ones n) = 0) as Hd.
  { apply Z.bits_inj'. intros i Hi. rewrite Z.ldiff_spec, Z.bits_0.
    destruct (decide (i < n)).
    - by rewrite Z.ones_spec_low, andb_false_r by lia.
    - by rewrite (testbit_small a n) by lia. }
  rewrite Z.sub_nocarry_ldiff by done. apply Z.bits_inj'. intros i Hi.
  rewrite Z.lxor_spec, Z.ldiff_spec. destruct (decide (i < n)).
  - rewrite Z.ones_spec_low by lia. by destruct (Z.testbit a i).
  - by rewrite Z.ones_spec_high, (testbit_small a n) by lia.
Qed.

(** ** Bytes of an integer *)

Fixpoint le_bytes (n : nat) (z : Z) : list Z :=
  match n with
  | O => []
  | S n' => z mod 256 :: le_bytes n' (z / 256)
  end.
Fixpoint le_value (bs : list Z) : Z :=
  match bs with
  | [] => 0
  | b :: bs' => b + 256 * le_value bs'
  end.

Definition is_byte (b : Z) : Prop := 0 <= b < 256.

Lemma length_le_bytes n z : length (le_bytes n z) = n.
Proof. revert z. induction n; intros; simpl; auto. Qed.

Lemma le_bytes_is_byte n z : Forall is_byte (le_bytes n z).
Proof.
  revert z. induction n; intros; simpl; constructor; auto.
  apply Z.mod_pos_bound. lia.
Qed.

Lemma le_value_bytes n z : le_value (le_bytes n z) = z mod 256 ^ Z.of_nat n.
Proof.
  revert z. induction n; intros; simpl.
  - by rewrite Z.mod_1_r.
  - rewrite IHn. rewrite Nat2Z.inj_succ, Z.pow_succ_r by lia.
    rewrite Z.rem_mul_r; lia.
Qed.

Lemma le_bytes_value bs : Forall is_byte bs -> le_bytes (length bs) (le_value bs) = bs.
Proof.
  induction 1 as [|b bs Hb _ IH]; simpl; [done|]. unfold is_byte in Hb.
  rewrite Z.mul_comm, Z.mod_add, Z.div_add, Z.mod_small, Z.div_small by lia.
  by rewrite Z.add_0_l, IH.
Qed.

Lemma le_value_range bs : Forall is_byte bs -> 0 <= le_value bs < 256 ^ Z.of_nat (length bs).
Proof.
  induction 1 as [|b bs Hb _ IH]; simpl; [lia|]. unfold is_byte in Hb.
  rewrite Nat2Z.inj_succ, Z.pow_succ_r by lia. lia.
Qed.

Lemma le_bytes_mod n z : le_bytes n (z mod 256 ^ Z.of_nat n) = le_bytes n z.
Proof.
  rewrite <- le_value_bytes. rewrite <- (length_le_bytes n z) at 1.
  apply le_bytes_value, le_bytes_is_byte.
Qed.

(** ** Lists *)

(** Overwriting [length bs] elements of [l] from position [k]. *)
Definition splice {A} (l : list A) (k : nat) (bs : list A) : list A :=
  take k l ++ bs ++ drop (k + length bs) l.

(** [slice l k n]: the [n] elements of [l] from position [k]. *)
Definition slice {A} (l : list A) (k n : nat) : list A := take n (drop k l).

Section Splice.
Context {A : Type}.
Implicit Types l bs : list A.

Lemma length_splice l k bs : (k + length bs <= length l)%nat -> length (splice l k bs) = length l.
Proof. intros. unfold splice. rewrite !length_app, length_take, length_drop. lia. Qed.

Lemma splice_nil l k : splice l k [] = l.
Proof. unfold splice. simpl. rewrite Nat.add_0_r. apply take_drop. Qed.

Lemma splice_app_l l1 l2 k bs :
  (k + length bs <= length l1)%nat -> splice (l1 ++ l2) k bs = splice l1 k bs ++ l2.
Proof.
  intros. unfold splice. rewrite take_app_le, drop_app_le by lia.
  by rewrite !app_assoc.
Qed.

Lemma splice_app_r l1 l2 k bs :
  splice (l1 ++ l2) (length l1 + k) bs = l1 ++ splice l2 k bs.
Proof.
  unfold splice. rewrite take_app_add, <- Nat.add_assoc, drop_app_add.
  by rewrite !app_assoc.
Qed.

(** Two consecutive overwrites are one, past the end of the list included. *)
Lemma splice_splice l k b1 b2 : (k <= length l)%nat ->
  splice (splice l k b1) (k + length b1) b2 = splice l k (b1 ++ b2).
Proof.
  intros. unfold splice at 1 2.
  assert (length (take k l ++ b1) = k + length b1)%nat as E.
  { rewrite length_app, length_take. lia. }
  rewrite (app_assoc (take k l)). rewrite take_app_length' by lia.
  rewrite <- E, drop_app_add, drop_drop, E. unfold splice.
  rewrite length_app, <- !app_assoc. do 4 f_equal. lia.
Qed.

Lemma slice_splice l k bs :
  (k <= length l)%nat -> slice (splice l k bs) k (length bs) = bs.
Proof.
  intros. unfold slice, splice. rewrite drop_app_length' by (rewrite length_take; lia).
  by rewrite take_app_length.
Qed.

Lemma length_slice l k n : (k + n <= length l)%nat -> length (slice l k n) = n.
Proof. intros. unfold slice. rewrite length_take, length_drop. lia. Qed.

Lemma slice_app l k n1 n2 : slice l k (n1 + n2) = slice l k n1 ++ slice l (k + n1) n2.
Proof. unfold slice. by rewrite <- drop_drop, take_take_drop. Qed.

Lemma slice_take l k n m : (k + n <= m)%nat -> slice (take m l) k n = slice l k n.
Proof.
  intros. unfold slice. rewrite skipn_firstn_comm, take_take. f_equal. lia.
Qed.

Lemma slice_full l : slice l 0 (length l) = l.
Proof. unfold slice. rewrite drop_0. by apply firstn_all. Qed.

Lemma slice_0 l k : slice l k 0 = [].
Proof. done. Qed.
End Splice.

(** [mapM]-style reading of optional elements. *)
Fixpoint all_some {A} (l : list (option A)) : option (list A) :=
  match l with
  | [] => Some []
  | Some a :: l' => match all_some l' with Some r => Some (a :: r) | None => None end
  | None :: _ => None
  end.

Lemma all_some_map {A} (l : list A) : all_some (map Some l) = Some l.
Proof. induction l as [|a l IH]; simpl; [done|]. by rewrite IH. Qed.

(** The first element with a property, with the elements before and behind it. *)
Fixpoint find_split {A} (P : A -> bool) (l : list A) : option (list A * A * list A) :=
  match l with
  | [] => None
  | x :: l =>
      if P x then Some ([], x, l)
      else match find_split P l with
           | Some (pre, y, post) => Some (x :: pre, y, post)
           | None => None
           end
  end.

Lemma find_split_Some {A} (P : A -> bool) l pre x post : find_split P l = Some (pre, x, post) ->
  l = pre ++ x :: post /\ P x = true /\ Forall (fun y => P y = false) pre.
Proof.
  revert pre. induction l as [|y l IH]; intros pre; simpl; [done|].
  destruct (P y) eqn:Ey; [intros; by simplify_eq|].
  destruct (find_split P l) as [[[pre' z] post']|]; [|done]. intros. simplify_eq.
  destruct (IH pre' eq_refl) as (-> & ? & ?). by repeat constructor.
Qed.

Lemma find_split_None {A} (P : A -> bool) l :
  find_split P l = None -> Forall (fun y => P y = false) l.
Proof.
  induction l as [|y l IH]; simpl; [done|]. destruct (P y) eqn:Ey; [done|].
  destruct (find_split P l) as [[[? ?] ?]|]; [done|]. intros. constructor; auto.
Qed.

(** ** Automation *)

Create HintDb sylar.
#[export] Hint Rewrite @length_app @length_take @length_drop @length_insert
  @length_map @length_replicate @length_rev length_le_bytes : sylar.
#[export] Hint Resolve le_bytes_is_byte : sylar.

(** Reduce the monad's glue once the first operation is known. *)
Ltac run_step :=
  first [ rewrite bind_ret_l | erewrite bind_Ret by eassumption
        | erewrite bind_Exn by eassumption | erewrite bind_UB by eassumption ].
(** Lengths of list expressions as linear arithmetic. *)
Ltac len := autorewrite with sylar in *; simpl in *; try lia.
(** Case analysis on every [if]/[match] condition of the goal, closing by [lia]. *)
Ltac cases := repeat (case_match; simplify_eq/=; try lia).
