(* ===== verification/Std.v ===== *)
(** * Std: the C and C++ library operations the components share

    Character strings ([std::string] and NUL-terminated [char*]) as lists of
    bytes, the [<string.h>] comparisons, and the ordered containers [std::map]
    and [std::set] as sorted lists over the comparator the sources give them. *)

From Stdlib Require Import Sorting.Sorted DecimalPos DecimalN.
From S2P Require Import Prelude.

(** ** Strings *)

(** The bytes of a string literal. *)
Definition str (s : string) : list Z :=
  map (fun a => Z.of_nat (Ascii.nat_of_ascii a)) (String.list_ascii_of_string s).

(** [c_str s]: what a C function reads of [s.c_str()], up to the first NUL. *)
Fixpoint c_str (s : list Z) : list Z :=
  match s with
  | [] => []
  | b :: s' => if b =? 0 then [] else b :: c_str s'
  end.

(** [tolower] of the "C" locale. *)
Definition tolower (b : Z) : Z := if (65 <=? b) && (b <=? 90) then b + 32 else b.

(** Lexicographic comparison of two C strings, as [strcmp] orders them. *)
Fixpoint cmp_bytes (a b : list Z) : comparison :=
  match a, b with
  | [], [] => Eq
  | [], _ :: _ => Lt
  | _ :: _, [] => Gt
  | x :: a', y :: b' => match x ?= y with Eq => cmp_bytes a' b' | c => c end
  end.

Definition fold_case (s : list Z) : list Z := map tolower (c_str s).

Definition strcmp (a b : list Z) : comparison := cmp_bytes (c_str a) (c_str b).
Definition strcasecmp (a b : list Z) : comparison := cmp_bytes (fold_case a) (fold_case b).

(** [strncmp(s, m, n) == 0] where [s] is a string whose bytes are all known and [m] points to
    the bytes [m] followed by memory the program does not own: [None] when the
    comparison has to read past them. *)
Fixpoint strncmp_eq (s m : list Z) (n : nat) {struct n} : option bool :=
  match n with
  | O => Some true
  | S n' =>
      match m with
      | [] => None
      | y :: m' =>
          match s with
          | [] => Some (y =? 0)
          | x :: s' => if x =? y then strncmp_eq s' m' n' else Some false
          end
      end
  end.

Lemma cmp_bytes_refl a : cmp_bytes a a = Eq.
Proof. induction a as [|x a IH]; simpl; [done|]. by rewrite Z.compare_refl. Qed.

Lemma cmp_bytes_eq a b : cmp_bytes a b = Eq <-> a = b.
Proof.
  split; [|intros ->; apply cmp_bytes_refl].
  revert b. induction a as [|x a IH]; intros [|y b]; simpl; try done.
  destruct (Z.compare_spec x y); try done. intros. f_equal; auto.
Qed.

Lemma cmp_bytes_antisym a b : cmp_bytes b a = CompOpp (cmp_bytes a b).
Proof.
  revert b. induction a as [|x a IH]; intros [|y b]; simpl; try done.
  rewrite (Z.compare_antisym x y). by destruct (x ?= y); simpl.
Qed.

Lemma cmp_bytes_trans a b c : cmp_bytes a b = Lt -> cmp_bytes b c = Lt -> cmp_bytes a c = Lt.
Proof.
  revert b c. induction a as [|x a IH]; intros [|y b] [|z c]; simpl; try done.
  destruct (Z.compare_spec x y), (Z.compare_spec y z), (Z.compare_spec x z);
    try done; try lia; eauto.
Qed.

Lemma strncmp_eq_prefix s rest : strncmp_eq s (s ++ rest) (length s) = Some true.
Proof. induction s as [|x s IH]; simpl; [done|]. by rewrite Z.eqb_refl. Qed.

Lemma strncmp_eq_true s m n :
  (n <= length s)%nat -> strncmp_eq s m n = Some true -> take n m = take n s.
Proof.
  revert s m. induction n as [|n IH]; intros s m Hn; [done|].
  destruct m as [|y m]; [done|]. destruct s as [|x s]; simpl in *; [lia|].
  destruct (Z.eqb_spec x y); [|done]. intros. f_equal; [done|]. apply IH; [lia|done].
Qed.

(** ** Filtering by a boolean *)

Lemma filter_none {A} (P : A -> bool) l : (forall a, a ∈ l -> P a = false) -> List.filter P l = [].
Proof.
  induction l as [|a l IH]; simpl; [done|]. intros H. rewrite (H a) by left.
  apply IH. intros b Hb. apply H. by right.
Qed.

Lemma filter_every {A} (P : A -> bool) l : (forall a, a ∈ l -> P a = true) -> List.filter P l = l.
Proof.
  induction l as [|a l IH]; simpl; [done|]. intros H. rewrite (H a) by left. f_equal.
  apply IH. intros b Hb. apply H. by right.
Qed.

Lemma elem_of_filter_b {A} (P : A -> bool) l a : a ∈ List.filter P l <-> a ∈ l /\ P a = true.
Proof. by rewrite !list_elem_of_In, filter_In. Qed.

(** ** Ordered containers *)

(** The requirement [std::map] and [std::set] put on a comparator. *)
Class StrictWeakOrder {A} (less : A -> A -> bool) : Prop := {
  swo_irrefl a : less a a = false;
  swo_trans a b c : less a b = true -> less b c = true -> less a c = true;
  swo_incomp a b c : less a b = false -> less b c = false -> less a c = false
}.

(** Every comparison of keys by a total preorder on an image is one. *)
#[global] Instance swo_of_bytes {A} (f : A -> list Z) :
  StrictWeakOrder (fun a b => match cmp_bytes (f a) (f b) with Lt => true | _ => false end).
Proof.
  split.
  - intros a. by rewrite cmp_bytes_refl.
  - intros a b c. destruct (cmp_bytes (f a) (f b)) eqn:E1; try done.
    destruct (cmp_bytes (f b) (f c)) eqn:E2; try done.
    by rewrite (cmp_bytes_trans _ _ _ E1 E2).
  - intros a b c. destruct (cmp_bytes (f a) (f b)) eqn:E1; try done;
    destruct (cmp_bytes (f b) (f c)) eqn:E2; try done; intros _ _.
    + apply cmp_bytes_eq in E1, E2. by rewrite E1, E2, cmp_bytes_refl.
    + apply cmp_bytes_eq in E1. by rewrite E1, E2.
    + apply cmp_bytes_eq in E2. by rewrite <- E2, E1.
    + rewrite cmp_bytes_antisym in E1, E2.
      assert (cmp_bytes (f c) (f a) = Lt) as E3.
      { eapply cmp_bytes_trans with (f b); [by destruct (cmp_bytes (f c) (f b))|
          by destruct (cmp_bytes (f b) (f a))]. }
      by rewrite cmp_bytes_antisym, E3.
Qed.

Section OrderedMap.
Context {K : Type} (less : K -> K -> bool).
Context {V : Type}.
Implicit Types (k : K) (v : V) (m : list (K * V)).

(** Two keys are the same key of the container. *)
Definition same_key k1 k2 : bool := negb (less k1 k2) && negb (less k2 k1).

(** [m.find(k)], [None] for [m.end()]. *)
Fixpoint map_find k m : option (K * V) :=
  match m with
  | [] => None
  | (k', v) :: m' => if same_key k k' then Some (k', v) else map_find k m'
  end.

(** [m[k] = v]: the key already there is kept. *)
Fixpoint map_assign k v m : list (K * V) :=
  match m with
  | [] => [(k, v)]
  | (k', v') :: m' =>
      if less k k' then (k, v) :: (k', v') :: m'
      else if less k' k then (k', v') :: map_assign k v m'
      else (k', v) :: m'
  end.

(** [m.insert(...)]: nothing happens when the key is there. *)
Fixpoint map_insert k v m : list (K * V) :=
  match m with
  | [] => [(k, v)]
  | (k', v') :: m' =>
      if less k k' then (k, v) :: (k', v') :: m'
      else if less k' k then (k', v') :: map_insert k v m'
      else (k', v') :: m'
  end.

(** [m.erase(k)]. *)
Fixpoint map_erase k m : list (K * V) :=
  match m with
  | [] => []
  | (k', v') :: m' => if same_key k k' then m' else (k', v') :: map_erase k m'
  end.

(** The keys are strictly increasing. *)
Definition key_lt (a b : K * V) : Prop := less a.1 b.1 = true.
Definition map_sorted m : Prop := StronglySorted key_lt m.

Context `{!StrictWeakOrder less}.

Lemma swo_asym a b : less a b = true -> less b a = false.
Proof.
  intros H. destruct (less b a) eqn:E; [|done].
  pose proof (swo_trans a b a H E) as H1. by rewrite swo_irrefl in H1.
Qed.

Lemma same_key_less_l k1 k2 k3 : same_key k1 k2 = true -> less k1 k3 = less k2 k3.
Proof.
  unfold same_key. rewrite andb_true_iff, !negb_true_iff. intros [H1 H2].
  destruct (less k1 k3) eqn:E1, (less k2 k3) eqn:E2; try done.
  - by rewrite (swo_incomp (less := less) k1 k2 k3) in E1.
  - by rewrite (swo_incomp k2 k1 k3) in E2.
Qed.

Lemma same_key_less_r k1 k2 k3 : same_key k1 k2 = true -> less k3 k1 = less k3 k2.
Proof.
  unfold same_key. rewrite andb_true_iff, !negb_true_iff. intros [H1 H2].
  destruct (less k3 k1) eqn:E1, (less k3 k2) eqn:E2; try done.
  - by rewrite (swo_incomp k3 k2 k1) in E1.
  - by rewrite (swo_incomp k3 k1 k2) in E2.
Qed.

Lemma same_key_refl k : same_key k k = true.
Proof. unfold same_key. by rewrite (swo_irrefl (less := less)). Qed.

Lemma same_key_sym k1 k2 : same_key k1 k2 = same_key k2 k1.
Proof. unfold same_key. by rewrite andb_comm. Qed.

Lemma same_key_cong k1 k2 k3 : same_key k1 k2 = true -> same_key k1 k3 = same_key k2 k3.
Proof.
  intros H. unfold same_key. by rewrite (same_key_less_l _ _ _ H), (same_key_less_r _ _ _ H).
Qed.

Lemma less_not_same k1 k2 : less k1 k2 = true -> same_key k1 k2 = false.
Proof. unfold same_key. by intros ->. Qed.

Lemma map_find_below k m : Forall (fun p => less k p.1 = true) m -> map_find k m = None.
Proof.
  induction 1 as [|[k' v] m H _ IH]; simpl; [done|]. by rewrite (less_not_same k k').
Qed.

Lemma map_find_assign k v m k0 :
  map_sorted m ->
  option_map snd (map_find k0 (map_assign k v m))
  = if same_key k k0 then Some v else option_map snd (map_find k0 m).
Proof.
  induction 1 as [|[k' v'] m Hs IH HF]; simpl.
  - rewrite (same_key_sym k0). by destruct (same_key k k0).
  - destruct (less k k') eqn:E1; simpl.
    { rewrite (same_key_sym k0 k). destruct (same_key k k0) eqn:E; done. }
    destruct (less k' k) eqn:E2; simpl.
    + destruct (same_key k0 k') eqn:E3; [|done]. simpl.
      destruct (same_key k k0) eqn:E4; [|done].
      rewrite <- (same_key_cong _ _ k' E4) in E3. unfold same_key in E3.
      by rewrite E2, andb_false_r in E3.
    + assert (same_key k k' = true) as E5 by (unfold same_key; by rewrite E1, E2).
      rewrite (same_key_cong _ _ k0 E5), (same_key_sym k' k0).
      by destruct (same_key k0 k').
Qed.

Lemma map_find_erase k m k0 :
  map_sorted m ->
  map_find k0 (map_erase k m) = if same_key k k0 then None else map_find k0 m.
Proof.
  induction 1 as [|[k' v'] m Hs IH HF]; simpl; [by destruct (same_key k k0)|].
  destruct (same_key k k') eqn:E1.
  - rewrite (same_key_cong _ _ k0 E1), (same_key_sym k' k0).
    destruct (same_key k0 k') eqn:E2; [|done].
    apply map_find_below. eapply List.Forall_impl; [|exact HF]. intros [k2 v2] H; simpl in *.
    by rewrite (same_key_less_l _ _ k2 E2).
  - simpl. destruct (same_key k0 k') eqn:E2; [|done].
    rewrite (same_key_sym k k0), (same_key_cong _ _ k E2), (same_key_sym k' k), E1. done.
Qed.

Lemma map_assign_forall k v m (P : K -> Prop) :
  P k -> Forall (fun p => P p.1) m -> Forall (fun p => P p.1) (map_assign k v m).
Proof.
  intros Hk. induction 1 as [|[k' v'] m H HF IH]; simpl; [by repeat constructor|].
  repeat case_match; repeat constructor; simpl in *; auto.
Qed.

Lemma map_assign_sorted k v m : map_sorted m -> map_sorted (map_assign k v m).
Proof.
  induction 1 as [|[k' v'] m Hs IH HF]; simpl; [by repeat constructor|].
  destruct (less k k') eqn:E1; [|destruct (less k' k) eqn:E2].
  - constructor; [by constructor|]. constructor; [done|].
    eapply List.Forall_impl; [|exact HF]. intros [k2 v2] H. unfold key_lt in *; simpl in *.
    by eapply swo_trans.
  - constructor; [done|]. by apply (map_assign_forall k v m (fun k2 => less k' k2 = true)).
  - by constructor.
Qed.

Lemma map_find_insert k v m k0 :
  map_sorted m ->
  option_map snd (map_find k0 (map_insert k v m))
  = match map_find k0 m with
    | Some p => Some p.2
    | None => if same_key k k0 then Some v else None
    end.
Proof.
  induction 1 as [|[k' v'] m Hs IH HF]; simpl.
  - rewrite (same_key_sym k0). by destruct (same_key k k0).
  - destruct (less k k') eqn:E1; simpl.
    { rewrite (same_key_sym k0 k). destruct (same_key k k0) eqn:E.
      - assert (same_key k0 k' = false) as ->.
        { rewrite <- (same_key_cong _ _ k' E). by apply less_not_same. }
        rewrite map_find_below; [done|]. eapply List.Forall_impl; [|exact HF]. intros [k2 v2] H; simpl in *.
        rewrite <- (same_key_less_l _ _ k2 E). by eapply swo_trans.
      - destruct (same_key k0 k'); [done|]. by destruct (map_find k0 m). }
    destruct (less k' k) eqn:E2; simpl; [by destruct (same_key k0 k')|].
    assert (same_key k k' = true) as E5 by (unfold same_key; by rewrite E1, E2).
    rewrite (same_key_cong _ _ k0 E5), (same_key_sym k' k0).
    destruct (same_key k0 k'); [done|]. by destruct (map_find k0 m).
Qed.

Lemma map_insert_forall k v m (P : K -> Prop) :
  P k -> Forall (fun p => P p.1) m -> Forall (fun p => P p.1) (map_insert k v m).
Proof.
  intros Hk. induction 1 as [|[k' v'] m H HF IH]; simpl; [by repeat constructor|].
  repeat case_match; repeat constructor; simpl in *; auto.
Qed.

Lemma map_insert_sorted k v m : map_sorted m -> map_sorted (map_insert k v m).
Proof.
  induction 1 as [|[k' v'] m Hs IH HF]; simpl; [by repeat constructor|].
  destruct (less k k') eqn:E1; [|destruct (less k' k) eqn:E2].
  - constructor; [by constructor|]. constructor; [done|].
    eapply List.Forall_impl; [|exact HF]. intros [k2 v2] H. unfold key_lt in *; simpl in *.
    by eapply swo_trans.
  - constructor; [done|]. by apply (map_insert_forall k v m (fun k2 => less k' k2 = true)).
  - by constructor.
Qed.

Lemma map_erase_forall k m (P : K * V -> Prop) : Forall P m -> Forall P (map_erase k m).
Proof. induction 1 as [|[k' v'] m H HF IH]; simpl; [done|]. case_match; auto. Qed.

Lemma map_erase_sorted k m : map_sorted m -> map_sorted (map_erase k m).
Proof.
  induction 1 as [|[k' v'] m Hs IH HF]; simpl; [constructor|].
  case_match; [done|]. constructor; [done|]. by apply map_erase_forall.
Qed.
End OrderedMap.

(** [std::set]: the elements are the keys. The functions look an element up by the
    comparator's equivalence, as the tree does; on a list that is sorted for the comparator
    this is what the tree search finds. *)
Section OrderedSet.
Context {K : Type} (less : K -> K -> bool).
Implicit Types (k : K) (l : list K).

(** [s.find(k) != s.end()]. *)
Definition set_mem k l : bool := existsb (same_key less k) l.

(** [s.insert(k)]. *)
Fixpoint set_insert k l : list K :=
  match l with
  | [] => [k]
  | x :: l' =>
      if less k x then k :: x :: l'
      else if less x k then x :: set_insert k l'
      else x :: l'
  end.

(** [s.erase(s.find(k))] for an element that is there. *)
Fixpoint set_erase k l : list K :=
  match l with
  | [] => []
  | x :: l' => if same_key less k x then l' else x :: set_erase k l'
  end.

(** [s.lower_bound(k)]: how many elements are before it. *)
Fixpoint lower_bound k l : nat :=
  match l with
  | [] => 0
  | x :: l' => if less x k then S (lower_bound k l') else 0
  end.

Definition set_sorted l : Prop := StronglySorted (fun a b => less a b = true) l.

Context `{!StrictWeakOrder less}.

Lemma set_insert_in k l x : x ∈ set_insert k l -> x = k \/ x ∈ l.
Proof.
  induction l as [|y l IH]; simpl; [rewrite list_elem_of_singleton; auto|].
  destruct (less k y); [|destruct (less y k)]; rewrite ?elem_of_cons; naive_solver.
Qed.

Lemma set_insert_mono k l x : x ∈ l -> x ∈ set_insert k l.
Proof.
  induction l as [|y l IH]; simpl; [by intros ?%elem_of_nil|].
  destruct (less k y); [|destruct (less y k)]; rewrite ?elem_of_cons; naive_solver.
Qed.

Lemma set_insert_sorted k l : set_sorted l -> set_sorted (set_insert k l).
Proof.
  induction 1 as [|x l Hs IH HF]; simpl; [by repeat constructor|].
  destruct (less k x) eqn:E1; [|destruct (less x k) eqn:E2; [|by constructor]].
  - constructor; [by constructor|]. constructor; [done|].
    eapply List.Forall_impl; [|exact HF]. intros y Hy. by eapply swo_trans.
  - constructor; [done|]. apply list.Forall_forall. intros y [->|Hy]%set_insert_in; [done|].
    rewrite list.Forall_forall in HF. by apply HF.
Qed.

Lemma set_insert_mem k l : exists x, x ∈ set_insert k l /\ same_key less k x = true.
Proof.
  induction l as [|y l (x & Hin & Hs)]; simpl.
  - exists k. split; [by left|by apply same_key_refl].
  - destruct (less k y) eqn:E1; [exists k; split; [by left|by apply same_key_refl]|].
    destruct (less y k) eqn:E2; [exists x; split; [by right|done]|].
    exists y. split; [by left|]. unfold same_key. by rewrite E1, E2.
Qed.

Lemma set_erase_sub k l x : x ∈ set_erase k l -> x ∈ l.
Proof.
  induction l as [|y l IH]; simpl; [done|].
  destruct (same_key less k y); rewrite ?elem_of_cons; naive_solver.
Qed.

Lemma set_erase_sorted k l : set_sorted l -> set_sorted (set_erase k l).
Proof.
  induction 1 as [|x l Hs IH HF]; simpl; [constructor|].
  destruct (same_key less k x); [done|]. constructor; [done|].
  apply list.Forall_forall. intros y Hy%set_erase_sub. rewrite list.Forall_forall in HF. by apply HF.
Qed.
End OrderedSet.

(** ** [strtol]

    The value of the number at the start of a text, saturated to a [long]; [None] when the
    text ends before a character that ends the number is read. *)

Definition isspace (c : Z) : bool := (c =? 32) || ((9 <=? c) && (c <=? 13)).

Definition digit_value (base c : Z) : option Z :=
  let v := if (48 <=? c) && (c <=? 57) then c - 48
           else if (97 <=? c) && (c <=? 122) then c - 87
           else if (65 <=? c) && (c <=? 90) then c - 55 else base in
  if v <? base then Some v else None.

Fixpoint strtol_digits (base acc : Z) (text : list Z) : option Z :=
  match text with
  | [] => None
  | c :: text =>
      match digit_value base c with
      | Some v => strtol_digits base (acc * base + v) text
      | None => Some acc
      end
  end.

(** A prefix [0x] counts only before a digit. *)
Definition strtol_prefix (base : Z) (text : list Z) : list Z :=
  match text with
  | 48 :: x :: d :: text' =>
      if (base =? 16) && ((x =? 120) || (x =? 88)) && bool_decide (is_Some (digit_value 16 d))
      then d :: text' else text
  | _ => text
  end.

Definition clamp_long (z : Z) : Z := Z.max (- 2 ^ 63) (Z.min (2 ^ 63 - 1) z).

Fixpoint strtol (base : Z) (text : list Z) : option Z :=
  match text with
  | [] => None
  | c :: text' =>
      if isspace c then strtol base text'
      else if c =? 45 then (fun v => clamp_long (- v)) <$> strtol_digits base 0 (strtol_prefix base text')
      else if c =? 43 then clamp_long <$> strtol_digits base 0 (strtol_prefix base text')
      else clamp_long <$> strtol_digits base 0 (strtol_prefix base text)
  end.

(** [atoi]: [strtol] in base 10, as an [int]. *)
Definition atoi (text : list Z) : option Z := s32 <$> strtol 10 text.

(** ** Decimal numbers *)

Fixpoint uint_chars (d : Decimal.uint) : list Z :=
  match d with
  | Decimal.Nil => []
  | Decimal.D0 d => 48 :: uint_chars d
  | Decimal.D1 d => 49 :: uint_chars d
  | Decimal.D2 d => 50 :: uint_chars d
  | Decimal.D3 d => 51 :: uint_chars d
  | Decimal.D4 d => 52 :: uint_chars d
  | Decimal.D5 d => 53 :: uint_chars d
  | Decimal.D6 d => 54 :: uint_chars d
  | Decimal.D7 d => 55 :: uint_chars d
  | Decimal.D8 d => 56 :: uint_chars d
  | Decimal.D9 d => 57 :: uint_chars d
  end.

(** [os << n] for an unsigned [n]. *)
Definition decimal (n : Z) : list Z := uint_chars (N.to_uint (Z.to_N n)).

Definition is_digit (c : Z) : bool := (48 <=? c) && (c <=? 57).

(** The number a text of digits spells. *)
Definition digits_from (acc : Z) (ds : list Z) : Z := foldl (fun acc c => acc * 10 + (c - 48)) acc ds.
Notation digits_value := (digits_from 0).

Lemma uint_chars_digits d : forallb is_digit (uint_chars d) = true.
Proof. by induction d. Qed.

Lemma digits_from_uint d p : digits_from (Zpos p) (uint_chars d) = Zpos (Pos.of_uint_acc d p).
Proof.
  revert p. induction d as [|d IH|d IH|d IH|d IH|d IH|d IH|d IH|d IH|d IH|d IH]; intros p;
    [done|..]; cbn [uint_chars digits_from foldl Pos.of_uint_acc]; fold digits_from; rewrite <- IH;
    unfold digits_from; f_equal; lia.
Qed.

Lemma digits_value_uint d : digits_value (uint_chars d) = Z.of_N (N.of_uint d).
Proof.
  unfold N.of_uint. induction d as [|d IH|d IH|d IH|d IH|d IH|d IH|d IH|d IH|d IH|d IH];
    [done|exact IH|..]; cbn [uint_chars Pos.of_uint Z.of_N]; rewrite <- digits_from_uint; done.
Qed.

(** A printed number is read back. *)
Lemma digits_decimal n : 0 <= n -> digits_value (decimal n) = n.
Proof.
  intros Hn. unfold decimal. rewrite digits_value_uint, DecimalN.Unsigned.of_to. lia.
Qed.

Lemma decimal_digits n : forallb is_digit (decimal n) = true.
Proof. apply uint_chars_digits. Qed.

Lemma decimal_nonempty n : decimal n <> [].
Proof.
  unfold decimal. destruct (Z.to_N n) as [|p]; [done|].
  pose proof (DecimalPos.Unsigned.to_uint_nonnil p) as H. simpl. by destruct (Pos.to_uint p).
Qed.
