(* ===== verification/Timer.v ===== *)
(** * Timer: [Timer] and [TimerManager] of [sylar/timer.h] and [timer.cpp]

    Timers are objects on a heap, named by their address; the manager's [std::set] holds
    addresses ordered by [Timer::Comparator] under the current heap. The clock
    [GetCurrentMS()] and the address a [new Timer] gets are arguments. Each operation runs
    under the manager's write lock and is one step; [listExpiredCb] releases the lock
    once, and is two. [onTimerInsertAtFront], which the [IOManager] implements, is
    counted. Callbacks are opaque. *)

From Stdlib Require Import Sorting.Sorted.
From S2P Require Import Prelude Std.

Section Timers.
(** The functions of the user. *)
Context {CB : Type}.

(** A [std::function<void()>]: a function of the user, or the [std::bind] of [OnTimer] to
    a condition and a function. *)
Inductive callback := plain (f : CB) | bound_OnTimer (weak_cond : Z) (f : CB).

(* SRC sylar/timer.h:25-29 Timer *)
Record Timer := mkTimer {
  m_recurring : bool;
  m_ms : Z;
  m_next : Z;
  m_cb : option callback
}.

(* SRC sylar/timer.h:60-64 TimerManager *)
Record TimerManager := mkManager {
  m_heap : gmap Z Timer;
  m_timers : list Z;
  m_tickled : bool;
  m_previousTime : Z;
  front_calls : nat
}.

Definition set_timer (a : Z) (t : Timer) (s : TimerManager) : TimerManager :=
  mkManager (<[a := t]> (m_heap s)) (m_timers s) (m_tickled s) (m_previousTime s) (front_calls s).
Definition set_timers (l : list Z) (s : TimerManager) : TimerManager :=
  mkManager (m_heap s) l (m_tickled s) (m_previousTime s) (front_calls s).
Definition set_tickled (b : bool) (s : TimerManager) : TimerManager :=
  mkManager (m_heap s) (m_timers s) b (m_previousTime s) (front_calls s).
Definition set_previousTime (t : Z) (s : TimerManager) : TimerManager :=
  mkManager (m_heap s) (m_timers s) (m_tickled s) t (front_calls s).
Definition count_front (s : TimerManager) : TimerManager :=
  mkManager (m_heap s) (m_timers s) (m_tickled s) (m_previousTime s) (S (front_calls s)).

(** ** Timers *)

Definition next_of (h : gmap Z Timer) (a : Z) : Z :=
  match h !! a with Some t => m_next t | None => 0 end.

(** The comparator on [Timer::ptr]s, of which some may be null. *)
(* SRC sylar/timer.cpp:9-26 Timer::Comparator::operator() *)
Definition Comparator (h : gmap Z Timer) (lhs rhs : option Z) : bool :=
  match lhs, rhs with
  | None, None => false
  | None, Some _ => true
  | Some _, None => false
  | Some l, Some r =>
      if next_of h l <? next_of h r then true
      else if next_of h r <? next_of h l then false
      else l <? r
  end.

(** The order of the set, which holds no null pointer. *)
Definition before (h : gmap Z Timer) (a b : Z) : bool := Comparator h (Some a) (Some b).

(* SRC sylar/timer.cpp:28-35 Timer::Timer *)
Definition new_Timer (now ms : Z) (cb : option callback) (recurring : bool) : Timer :=
  mkTimer recurring ms (u64 (now + ms)) cb.

(* SRC sylar/timer.cpp:37-38 Timer::Timer *)
Definition new_Timer_at (next : Z) : Timer := mkTimer false 0 next None.

(** Read the object behind a valid pointer. *)
Definition deref (a : Z) : M TimerManager Timer := fun s =>
  match m_heap s !! a with Some t => Ret t s | None => UB NullDeref end.

(** [m_timers.erase(it)]; erasing [end()] is undefined. *)
Definition erase_found (a : Z) : M TimerManager unit := fun s =>
  if set_mem (before (m_heap s)) a (m_timers s)
  then Ret tt (set_timers (set_erase (before (m_heap s)) a (m_timers s)) s)
  else UB EraseEnd.

(* SRC sylar/timer.cpp:40-49 Timer::cancel *)
Definition cancel (a : Z) : M TimerManager bool :=
  let! t := deref a in
  match m_cb t with
  | Some _ =>
      modify (set_timer a (mkTimer (m_recurring t) (m_ms t) (m_next t) None)) ;;
      erase_found a ;;
      ret true
  | None => ret false
  end.

(* SRC sylar/timer.cpp:51-64 Timer::refresh *)
Definition refresh (a now : Z) : M TimerManager bool :=
  let! t := deref a in
  match m_cb t with
  | None => ret false
  | Some _ =>
      let! s := get in
      if set_mem (before (m_heap s)) a (m_timers s) then
        erase_found a ;;
        modify (set_timer a (mkTimer (m_recurring t) (m_ms t) (u64 (now + m_ms t)) (m_cb t))) ;;
        modify (fun s => set_timers (set_insert (before (m_heap s)) a (m_timers s)) s) ;;
        ret true
      else ret false
  end.

(** ** The manager *)

(* SRC sylar/timer.cpp:92-94 TimerManager::TimerManager *)
Definition new_TimerManager (now : Z) : TimerManager := mkManager ∅ [] false now 0.

(** The overload that inserts: [at_front] is computed after the insertion. *)
(* SRC sylar/timer.cpp:175-190 TimerManager::addTimer *)
Definition insertTimer (a : Z) : M TimerManager unit :=
  modify (fun s => set_timers (set_insert (before (m_heap s)) a (m_timers s)) s) ;;
  let! s := get in
  let at_front := bool_decide (head (m_timers s) = Some a) && negb (m_tickled s) in
  (if at_front then modify (set_tickled true) else ret tt) ;;
  if at_front then modify count_front else ret tt.

(** [a] is the address of the new object. *)
(* SRC sylar/timer.cpp:100-106 TimerManager::addTimer *)
Definition addTimer (a now ms : Z) (cb : option callback) (recurring : bool) : M TimerManager Z :=
  modify (set_timer a (new_Timer now ms cb recurring)) ;;
  insertTimer a ;;
  ret a.

(** The functions of the user a callback runs, when [alive] says which conditions exist. *)
(* SRC sylar/timer.cpp:108-113 OnTimer *)
Definition OnTimer (alive : Z -> bool) (weak_cond : Z) (cb : CB) : list CB :=
  if alive weak_cond then [cb] else [].

Definition run_callback (alive : Z -> bool) (c : callback) : list CB :=
  match c with plain f => [f] | bound_OnTimer w f => OnTimer alive w f end.

(* SRC sylar/timer.cpp:115-119 TimerManager::addConditionTimer *)
Definition addConditionTimer (a now ms : Z) (cb : CB) (weak_cond : Z) (recurring : bool)
  : M TimerManager Z := addTimer a now ms (Some (bound_OnTimer weak_cond cb)) recurring.

(* SRC sylar/timer.cpp:67-90 Timer::reset *)
Definition reset (a ms : Z) (from_now : bool) (now : Z) : M TimerManager bool :=
  let! t := deref a in
  if (ms =? m_ms t) && negb from_now then ret true
  else
    match m_cb t with
    | None => ret false
    | Some _ =>
        let! s := get in
        if set_mem (before (m_heap s)) a (m_timers s) then
          erase_found a ;;
          let start := if from_now then now else u64 (m_next t - m_ms t) in
          modify (set_timer a (mkTimer (m_recurring t) ms (u64 (start + ms)) (m_cb t))) ;;
          insertTimer a ;;
          ret true
        else ret false
    end.

(** [~0ull]. *)
Definition no_timer : Z := 2 ^ 64 - 1.

(* SRC sylar/timer.cpp:121-136 TimerManager::getNextTimer *)
Definition getNextTimer (now : Z) : M TimerManager Z :=
  modify (set_tickled false) ;;
  let! s := get in
  match m_timers s with
  | [] => ret no_timer
  | a :: _ =>
      let! next := deref a in
      if now >=? m_next next then ret 0 else ret (u64 (m_next next - now))
  end.

(* SRC sylar/timer.cpp:192-200 TimerManager::detectClockRollover *)
Definition detectClockRollover (now : Z) : M TimerManager bool :=
  let! s := get in
  let rollover := (now <? m_previousTime s) && (now <? u64 (m_previousTime s - 60 * 60 * 1000)) in
  modify (set_previousTime now) ;;
  ret rollover.

(** Take the callback of an expired timer, and arm it again or disarm it. *)
(* SRC sylar/timer.cpp:163-171 TimerManager::listExpiredCb *)
Fixpoint take_expired (now : Z) (expired : list Z) : M TimerManager (list (option callback)) :=
  match expired with
  | [] => ret []
  | a :: expired' =>
      let! timer := deref a in
      (if m_recurring timer then
         modify (set_timer a (mkTimer true (m_ms timer) (u64 (now + m_ms timer)) (m_cb timer))) ;;
         modify (fun s => set_timers (set_insert (before (m_heap s)) a (m_timers s)) s)
       else modify (set_timer a (mkTimer false (m_ms timer) (m_next timer) None))) ;;
      let! cbs := take_expired now expired' in
      ret (m_cb timer :: cbs)
  end.

(** How far [it] advances over timers that are due exactly now. *)
(* SRC sylar/timer.cpp:156-158 TimerManager::listExpiredCb *)
Fixpoint skip_due (h : gmap Z Timer) (now : Z) (l : list Z) : nat :=
  match l with
  | [] => 0
  | a :: l' => if next_of h a =? now then S (skip_due h now l') else 0
  end.

(** The part under the write lock; [na] is the address of [now_timer]. *)
(* SRC sylar/timer.cpp:147-161 TimerManager::listExpiredCb *)
Definition listExpired_locked (na now : Z) : M TimerManager (list (option callback)) :=
  let! rollover := detectClockRollover now in
  let! s := get in
  let! early :=
    (if rollover then ret false
     else match m_timers s with
          | [] => fail_with NullDeref
          | a :: _ => let! t := deref a in ret (m_next t >? now)
          end) in
  if (early : bool) then ret []
  else
    let h := <[na := new_Timer_at now]> (m_heap s) in
    let it := if rollover then length (m_timers s) else lower_bound (before h) na (m_timers s) in
    let it := (it + skip_due h now (drop it (m_timers s)))%nat in
    let expired := take it (m_timers s) in
    modify (set_timers (drop it (m_timers s))) ;;
    take_expired now expired.

(** The first look at the set, under the read lock. *)
Definition listExpired_empty : M TimerManager bool :=
  let! s := get in ret (bool_decide (m_timers s = [])).

(* SRC sylar/timer.cpp:138-146 TimerManager::listExpiredCb *)
Definition listExpiredCb (na now : Z) : M TimerManager (list (option callback)) :=
  let! empty := listExpired_empty in
  if (empty : bool) then ret [] else listExpired_locked na now.

(* SRC sylar/timer.cpp:202-205 TimerManager::hasTimer *)
Definition hasTimer : M TimerManager bool := let! s := get in ret (negb (bool_decide (m_timers s = []))).

(** ** The set under the comparator *)

Implicit Types (h : gmap Z Timer) (l : list Z) (s : TimerManager) (t : Timer).

#[global] Instance before_swo h : StrictWeakOrder (before h).
Proof.
  split; unfold before; simpl.
  - intros a. by rewrite !Z.ltb_irrefl.
  - intros a b c. repeat case_match; intros; try done; lia.
  - intros a b c. repeat case_match; intros; try done; lia.
Qed.

Lemma same_key_before h a b : same_key (before h) a b = bool_decide (a = b).
Proof.
  unfold same_key, before; simpl. case_bool_decide as E.
  - subst. by rewrite !Z.ltb_irrefl.
  - repeat case_match; simpl; try done; lia.
Qed.

Lemma set_mem_before h a l : set_mem (before h) a l = bool_decide (a ∈ l).
Proof.
  unfold set_mem. induction l as [|x l IH]; simpl; [done|].
  rewrite same_key_before, IH. apply eq_true_iff_eq.
  rewrite orb_true_iff, !bool_decide_eq_true, elem_of_cons. done.
Qed.

Lemma sorted_NoDup h l : set_sorted (before h) l -> NoDup l.
Proof.
  induction 1 as [|x l Hs IH HF]; constructor; [|done]. intros Hin.
  rewrite list.Forall_forall in HF. specialize (HF x Hin).
  by rewrite (swo_irrefl (less := before h)) in HF.
Qed.

Lemma elem_of_erase h a x l : set_sorted (before h) l ->
  x ∈ set_erase (before h) a l <-> x ∈ l /\ x <> a.
Proof.
  intros Hs. pose proof (sorted_NoDup _ _ Hs) as Hn. clear Hs.
  induction Hn as [|y l Hy Hn IH]; simpl; [set_solver|].
  rewrite same_key_before. case_bool_decide; subst; set_solver.
Qed.

Lemma elem_of_insert h a x l : x ∈ set_insert (before h) a l <-> x = a \/ x ∈ l.
Proof.
  split; [apply set_insert_in|]. intros [->|H]; [|by apply set_insert_mono].
  induction l as [|y l IH]; simpl; [set_solver|].
  destruct (before h a y) eqn:E1; [set_solver|]. destruct (before h y a) eqn:E2; [set_solver|].
  assert (same_key (before h) a y = true) as H by (unfold same_key; by rewrite E1, E2).
  rewrite same_key_before, bool_decide_eq_true in H. set_solver.
Qed.

(** The order of the set depends on the timers in it only. *)
Lemma before_ext h h' a b :
  next_of h a = next_of h' a -> next_of h b = next_of h' b -> before h a b = before h' a b.
Proof. unfold before; simpl. by intros -> ->. Qed.

Lemma sorted_ext h h' l : (forall a, a ∈ l -> next_of h a = next_of h' a) ->
  set_sorted (before h) l -> set_sorted (before h') l.
Proof.
  intros He. induction 1 as [|x l Hs IH HF]; constructor.
  - apply IH. set_solver.
  - apply list.Forall_forall. intros y Hy. rewrite list.Forall_forall in HF.
    rewrite <- (before_ext h h'); [by apply HF|apply He; set_solver..].
Qed.

Lemma next_of_insert_ne h a b t : a <> b -> next_of (<[a := t]> h) b = next_of h b.
Proof. intros. unfold next_of. by rewrite lookup_insert_ne. Qed.

Lemma next_of_insert h a t : next_of (<[a := t]> h) a = m_next t.
Proof. unfold next_of. by rewrite lookup_insert_eq. Qed.

(** ** The invariant *)

(** The set is ordered and holds live objects; a timer with a callback is in it; times
    are 64-bit. *)
Record wf s : Prop := {
  wf_sorted : set_sorted (before (m_heap s)) (m_timers s);
  wf_alloc a : a ∈ m_timers s -> is_Some (m_heap s !! a);
  wf_armed a t : m_heap s !! a = Some t -> m_cb t <> None -> a ∈ m_timers s;
  wf_range a t : m_heap s !! a = Some t -> in_u 64 (m_next t) /\ in_u 64 (m_ms t)
}.

Lemma deref_ok a t s : m_heap s !! a = Some t -> deref a s = Ret t s.
Proof. unfold deref. by intros ->. Qed.

Lemma erase_found_ok a s : a ∈ m_timers s ->
  erase_found a s = Ret tt (set_timers (set_erase (before (m_heap s)) a (m_timers s)) s).
Proof. intros H. unfold erase_found. by rewrite set_mem_before, bool_decide_eq_true_2. Qed.

Lemma u64_range z : in_u 64 (u64 z).
Proof. apply wrapu_range. lia. Qed.

(** The heap changes at [a], which is outside the set or keeps its time. *)
Lemma wf_set_timer a t s : wf s -> in_u 64 (m_next t) -> in_u 64 (m_ms t) ->
  (a ∈ m_timers s -> next_of (m_heap s) a = m_next t) ->
  (m_cb t <> None -> a ∈ m_timers s) ->
  wf (set_timer a t s).
Proof.
  intros [Hs Ha Hc Hr] Hn Hm Hin Hcb. split; simpl.
  - eapply sorted_ext; [|exact Hs]. intros b Hb. destruct (decide (b = a)) as [->|].
    + rewrite next_of_insert. auto.
    + by rewrite next_of_insert_ne.
  - intros b Hb. destruct (decide (b = a)) as [->|]; [by rewrite lookup_insert_eq|].
    rewrite lookup_insert_ne by done. auto.
  - intros b t' [[-> <-]|[? ?]]%lookup_insert_Some; eauto.
  - intros b t' [[-> <-]|[? ?]]%lookup_insert_Some; eauto.
Qed.

Lemma wf_erase a s : wf s -> (forall t, m_heap s !! a = Some t -> m_cb t = None) ->
  wf (set_timers (set_erase (before (m_heap s)) a (m_timers s)) s).
Proof.
  intros [Hs Ha Hc Hr] Hcb. split; simpl; eauto.
  - by apply set_erase_sorted.
  - intros b [Hb _]%elem_of_erase; eauto.
  - intros b t Hb Hn. apply elem_of_erase; [done|]. split; [eauto|].
    intros ->. apply Hn. eauto.
Qed.

Lemma wf_insert a s : wf s -> is_Some (m_heap s !! a) ->
  wf (set_timers (set_insert (before (m_heap s)) a (m_timers s)) s).
Proof.
  intros [Hs Ha Hc Hr] Hal. split; simpl; eauto.
  - apply set_insert_sorted; [apply _|done].
  - intros b [->|Hb]%elem_of_insert; eauto.
  - intros b t Hb Hn. apply elem_of_insert. eauto.
Qed.

Lemma wf_same s s' : m_heap s = m_heap s' -> m_timers s = m_timers s' -> wf s -> wf s'.
Proof. intros Eh Et [Hs Ha Hc Hr]. rewrite Eh, Et in *. by split. Qed.

(** Taking a timer out, changing it and putting it back, as [refresh], [reset] and the
    insertion of a new timer do. *)
Definition rearmed (a : Z) (t' : Timer) s : TimerManager :=
  set_timers (set_insert (before (<[a := t']> (m_heap s))) a
    (set_erase (before (m_heap s)) a (m_timers s))) (set_timer a t' s).

Lemma rearmed_timers a t' s b : wf s -> b ∈ m_timers (rearmed a t' s) <-> b = a \/ b ∈ m_timers s.
Proof.
  intros Hwf. simpl. rewrite elem_of_insert, elem_of_erase by apply Hwf.
  destruct (decide (b = a)); naive_solver.
Qed.

Lemma wf_rearmed a t' s : wf s -> in_u 64 (m_next t') -> in_u 64 (m_ms t') -> wf (rearmed a t' s).
Proof.
  intros Hwf Hn Hm. pose proof Hwf as [Hs Ha Hc Hr]. split.
  - simpl. apply set_insert_sorted; [apply _|].
    eapply sorted_ext; [|by apply set_erase_sorted].
    intros b [_ Hb]%elem_of_erase; [|done]. by rewrite next_of_insert_ne.
  - intros b [->|Hb]%rearmed_timers; [simpl; by rewrite lookup_insert_eq| |done].
    simpl. destruct (decide (b = a)) as [->|]; [by rewrite lookup_insert_eq|].
    rewrite lookup_insert_ne by done. auto.
  - intros b t Hb Hn'. apply rearmed_timers; [done|]. simpl in Hb.
    apply lookup_insert_Some in Hb as [[-> <-]|[? ?]]; eauto.
  - intros b t Hb. simpl in Hb. apply lookup_insert_Some in Hb as [[-> <-]|[? ?]]; eauto.
Qed.

Lemma set_erase_absent h a l : a ∉ l -> set_erase (before h) a l = l.
Proof.
  induction l as [|x l IH]; simpl; [done|]. intros H. rewrite same_key_before.
  case_bool_decide; [set_solver|]. rewrite IH by set_solver. done.
Qed.

(** What [addTimer] does to the tickle flag once the timer is in the set. *)
Definition tickle_front (a : Z) s : TimerManager :=
  if bool_decide (head (m_timers s) = Some a) && negb (m_tickled s)
  then count_front (set_tickled true s) else s.

Lemma insertTimer_ok a s : insertTimer a s
  = Ret tt (tickle_front a (set_timers (set_insert (before (m_heap s)) a (m_timers s)) s)).
Proof.
  unfold insertTimer, tickle_front, modify, get, bind; simpl.
  by destruct (bool_decide _ && negb _).
Qed.

Lemma tickle_front_same a s :
  m_heap (tickle_front a s) = m_heap s /\ m_timers (tickle_front a s) = m_timers s.
Proof. unfold tickle_front. by destruct (_ && _). Qed.

Lemma wf_tickle a s : wf s -> wf (tickle_front a s).
Proof. destruct (tickle_front_same a s) as [H1 H2]. by apply wf_same. Qed.

(** *** Each operation on a well-formed manager *)

Lemma cancel_ok a t s : wf s -> m_heap s !! a = Some t ->
  cancel a s = match m_cb t with
               | None => Ret false s
               | Some _ =>
                   let t' := mkTimer (m_recurring t) (m_ms t) (m_next t) None in
                   let s1 := set_timer a t' s in
                   Ret true (set_timers (set_erase (before (m_heap s1)) a (m_timers s1)) s1)
               end.
Proof.
  intros Hwf Ht. unfold cancel. erewrite bind_Ret by (by apply deref_ok).
  destruct (m_cb t) eqn:Ec; [|done]. unfold modify, bind at 1.
  erewrite bind_Ret; [done|]. apply erase_found_ok. simpl. eapply wf_armed; eauto. congruence.
Qed.

Lemma refresh_ok a t now s : wf s -> m_heap s !! a = Some t ->
  refresh a now s = match m_cb t with
                    | None => Ret false s
                    | Some _ =>
                        Ret true (rearmed a
                          (mkTimer (m_recurring t) (m_ms t) (u64 (now + m_ms t)) (m_cb t)) s)
                    end.
Proof.
  intros Hwf Ht. unfold refresh. erewrite bind_Ret by (by apply deref_ok).
  destruct (m_cb t) as [c|] eqn:Ec; [|done].
  assert (a ∈ m_timers s) as Hin by (eapply wf_armed; eauto; congruence).
  rewrite (bind_Ret get _ _ _ _ eq_refl), set_mem_before, bool_decide_eq_true_2 by done.
  by erewrite bind_Ret by (by apply erase_found_ok).
Qed.

Definition reset_timer (ms : Z) (from_now : bool) (now : Z) t : Timer :=
  mkTimer (m_recurring t) ms
    (u64 ((if from_now then now else u64 (m_next t - m_ms t)) + ms)) (m_cb t).

Lemma reset_ok a t ms from_now now s : wf s -> m_heap s !! a = Some t ->
  reset a ms from_now now s
  = if (ms =? m_ms t) && negb from_now then Ret true s
    else match m_cb t with
         | None => Ret false s
         | Some _ => Ret true (tickle_front a (rearmed a (reset_timer ms from_now now t) s))
         end.
Proof.
  intros Hwf Ht. unfold reset. erewrite bind_Ret by (by apply deref_ok).
  destruct ((ms =? m_ms t) && negb from_now); [done|].
  destruct (m_cb t) as [c|] eqn:Ec; [|done].
  assert (a ∈ m_timers s) as Hin by (eapply wf_armed; eauto; congruence).
  rewrite (bind_Ret get _ _ _ _ eq_refl), set_mem_before, bool_decide_eq_true_2 by done.
  erewrite bind_Ret by (by apply erase_found_ok). unfold modify, bind at 1.
  erewrite bind_Ret by apply insertTimer_ok. unfold reset_timer. by rewrite Ec.
Qed.

Lemma addTimer_ok a now ms cb recurring s : m_heap s !! a = None -> wf s ->
  addTimer a now ms cb recurring s
  = Ret a (tickle_front a (rearmed a (new_Timer now ms cb recurring) s)).
Proof.
  intros Ha Hwf. unfold addTimer, modify, bind at 1.
  erewrite bind_Ret by apply insertTimer_ok. unfold rearmed. rewrite set_erase_absent; [done|].
  intros Hin. destruct (wf_alloc _ Hwf a Hin) as [? ?]. congruence.
Qed.

Lemma getNextTimer_ok now s : wf s ->
  getNextTimer now s
  = Ret (match m_timers s with
         | [] => no_timer
         | a :: _ => let n := next_of (m_heap s) a in if now >=? n then 0 else u64 (n - now)
         end) (set_tickled false s).
Proof.
  intros Hwf. unfold getNextTimer, modify, bind at 1. rewrite (bind_Ret get _ _ _ _ eq_refl).
  simpl. destruct (m_timers s) as [|a l] eqn:El; [done|].
  destruct (wf_alloc _ Hwf a) as [t Ht]; [rewrite El; left|].
  erewrite bind_Ret by (by apply deref_ok). unfold next_of. rewrite Ht.
  by destruct (now >=? m_next t).
Qed.

(** *** The expired prefix *)

Definition is_due h now a : bool := next_of h a <=? now.

Lemma sorted_next h a b l : set_sorted (before h) (a :: l) -> b ∈ l -> next_of h a <= next_of h b.
Proof.
  intros [_ HF]%StronglySorted_inv Hb. rewrite list.Forall_forall in HF. specialize (HF b Hb).
  unfold before in HF; simpl in HF.
  destruct (Z.ltb_spec (next_of h a) (next_of h b)); [lia|].
  destruct (Z.ltb_spec (next_of h b) (next_of h a)); [done|lia].
Qed.

Definition due h now l : list Z := List.filter (is_due h now) l.
Definition not_due h now l : list Z := List.filter (fun a => negb (is_due h now a)) l.

Lemma skip_due_filter h now l : set_sorted (before h) l ->
  (forall a, a ∈ l -> now <= next_of h a) ->
  take (skip_due h now l) l = due h now l /\ drop (skip_due h now l) l = not_due h now l.
Proof.
  induction l as [|x l IH]; intros Hs Hge; [done|]. simpl.
  pose proof (Hge x ltac:(left)) as Hx. unfold due, not_due; simpl.
  destruct (Z.eqb_spec (next_of h x) now) as [E|E]; simpl.
  - destruct IH as [IH1 IH2]; [by apply StronglySorted_inv in Hs as [? _]|set_solver|].
    assert (is_due h now x = true) as -> by (unfold is_due; lia). by rewrite IH1, IH2.
  - assert (is_due h now x = false) as -> by (unfold is_due; lia). simpl.
    assert (forall a, a ∈ l -> is_due h now a = false) as Hn.
    { intros a Ha. pose proof (sorted_next _ _ _ _ Hs Ha). unfold is_due. lia. }
    rewrite filter_none by done. rewrite filter_every; [done|].
    intros a Ha. by rewrite Hn.
Qed.

(** The iterator of [listExpiredCb] stands after the timers that are due. *)
Lemma expired_prefix h na now l :
  na ∉ l -> set_sorted (before h) l ->
  let h' := <[na := new_Timer_at now]> h in
  let it := lower_bound (before h') na l in
  let n := (it + skip_due h' now (drop it l))%nat in
  take n l = due h now l /\ drop n l = not_due h now l.
Proof.
  intros Hna Hs h'.
  assert (set_sorted (before h') l) as Hs'.
  { eapply sorted_ext; [|exact Hs]. intros a Ha. unfold h'. rewrite next_of_insert_ne; set_solver. }
  assert (forall a, a ∈ l -> next_of h' a = next_of h a) as Hnx.
  { intros a Ha. unfold h'. rewrite next_of_insert_ne; set_solver. }
  clear Hs. revert Hna Hs' Hnx. induction l as [|x l IH]; intros Hna Hs' Hnx; [done|].
  cbn zeta. simpl lower_bound. destruct (before h' x na) eqn:Eb.
  - destruct IH as [IH1 IH2]; [set_solver|by apply StronglySorted_inv in Hs' as [? _]|set_solver|].
    assert (is_due h now x = true) as Hd.
    { unfold is_due. unfold before in Eb; simpl in Eb. unfold h' in Eb at 2 3.
      rewrite next_of_insert in Eb. simpl in Eb. rewrite <- (Hnx x) by left.
      destruct (Z.ltb_spec (next_of h' x) now); [lia|].
      destruct (Z.ltb_spec now (next_of h' x)); [done|lia]. }
    simpl. unfold due, not_due in *. simpl. rewrite Hd. simpl. by rewrite IH1, IH2.
  - cbn [Nat.add drop].
    assert (forall a, a ∈ x :: l -> now <= next_of h' a) as Hge.
    { assert (now <= next_of h' x) as Hx.
      { unfold before in Eb; simpl in Eb. unfold h' in Eb at 2 4.
        rewrite next_of_insert in Eb. simpl in Eb.
        destruct (Z.ltb_spec (next_of h' x) now); [done|lia]. }
      intros a [->|Ha]%elem_of_cons; [done|]. pose proof (sorted_next _ _ _ _ Hs' Ha). lia. }
    destruct (skip_due_filter h' now (x :: l) Hs' Hge) as [-> ->].
    unfold due, not_due. split; apply List.filter_ext_in; intros a Ha%list_elem_of_In;
      unfold is_due; by rewrite Hnx.
Qed.

(** *** Taking the expired timers *)

(** A timer after it fired: armed again from now, or disarmed. *)
Definition fired (now : Z) t : Timer :=
  if m_recurring t then mkTimer true (m_ms t) (u64 (now + m_ms t)) (m_cb t)
  else mkTimer false (m_ms t) (m_next t) None.

Definition cb_of h (a : Z) : option callback := match h !! a with Some t => m_cb t | None => None end.
Definition recurring_of h (a : Z) : bool :=
  match h !! a with Some t => m_recurring t | None => false end.

(** The invariant while the timers [X] are out of the set. *)
Record wf_without (X : list Z) s : Prop := {
  wo_sorted : set_sorted (before (m_heap s)) (m_timers s);
  wo_alloc a : a ∈ m_timers s \/ a ∈ X -> is_Some (m_heap s !! a);
  wo_armed a t : m_heap s !! a = Some t -> m_cb t <> None -> a ∈ m_timers s \/ a ∈ X;
  wo_range a t : m_heap s !! a = Some t -> in_u 64 (m_next t) /\ in_u 64 (m_ms t);
  wo_disjoint a : a ∈ X -> a ∉ m_timers s;
  wo_NoDup : NoDup X
}.

Lemma fired_range now t : in_u 64 (m_next t) /\ in_u 64 (m_ms t) ->
  in_u 64 (m_next (fired now t)) /\ in_u 64 (m_ms (fired now t)).
Proof.
  intros [? ?]. unfold fired. destruct (m_recurring t); simpl; [|done].
  split; [apply u64_range|done].
Qed.

(** The state after the head of [X] fired. *)
Definition fire_one (now : Z) (a : Z) t s : TimerManager :=
  let s1 := set_timer a (fired now t) s in
  if m_recurring t then set_timers (set_insert (before (m_heap s1)) a (m_timers s1)) s1 else s1.

Lemma fire_one_timers now a t s b :
  b ∈ m_timers (fire_one now a t s) <-> b ∈ m_timers s \/ (b = a /\ m_recurring t = true).
Proof.
  unfold fire_one. destruct (m_recurring t); simpl; rewrite ?elem_of_insert; naive_solver.
Qed.

Lemma fire_one_heap now a t s : m_heap (fire_one now a t s) = <[a := fired now t]> (m_heap s).
Proof. unfold fire_one. by destruct (m_recurring t). Qed.

Lemma fire_one_wf now a t X s : wf_without (a :: X) s -> m_heap s !! a = Some t ->
  wf_without X (fire_one now a t s).
Proof.
  intros [Hs Ha Hc Hr Hd Hn] Ht. apply list.NoDup_cons in Hn as [Hna Hn].
  assert (a ∉ m_timers s) as Hat by (apply Hd; left).
  split; [| | | | |done].
  - assert (set_sorted (before (<[a := fired now t]> (m_heap s))) (m_timers s)) as Hs'.
    { eapply sorted_ext; [|exact Hs]. intros b Hb. rewrite next_of_insert_ne; set_solver. }
    unfold fire_one. destruct (m_recurring t); simpl; [|done].
    apply set_insert_sorted; [apply _|done].
  - intros b Hb. rewrite fire_one_heap. destruct (decide (b = a)) as [->|].
    + by rewrite lookup_insert_eq.
    + rewrite lookup_insert_ne by done. apply Ha. rewrite fire_one_timers in Hb. set_solver.
  - intros b t' Hb Hcb. rewrite fire_one_heap in Hb. rewrite fire_one_timers.
    apply lookup_insert_Some in Hb as [[-> <-]|[Hne Hb]].
    + unfold fired in Hcb. destruct (m_recurring t); [by left; right|by destruct Hcb].
    + destruct (Hc b t' Hb Hcb) as [?|?]; set_solver.
  - intros b t' Hb. rewrite fire_one_heap in Hb.
    apply lookup_insert_Some in Hb as [[-> <-]|[Hne Hb]]; [|eauto].
    eapply fired_range, Hr; eauto.
  - intros b Hb. rewrite fire_one_timers. intros [Hb'|[-> _]]; [|done].
    apply (Hd b); [by right|done].
Qed.

(** The flags of the manager, which firing leaves alone. *)
Definition same_flags s s' : Prop :=
  m_tickled s' = m_tickled s /\ m_previousTime s' = m_previousTime s /\ front_calls s' = front_calls s.

Lemma take_expired_ok now X s : wf_without X s ->
  exists s', take_expired now X s = Ret (map (cb_of (m_heap s)) X) s' /\ wf s'
    /\ (forall a, m_heap s' !! a
          = if bool_decide (a ∈ X) then fired now <$> (m_heap s !! a) else m_heap s !! a)
    /\ (forall a, a ∈ m_timers s' <-> a ∈ m_timers s \/ (a ∈ X /\ recurring_of (m_heap s) a = true))
    /\ same_flags s s'.
Proof.
  revert s. induction X as [|a X IH]; intros s Hwf.
  - exists s. split; [done|]. split; [|repeat split; try done; set_solver].
    destruct Hwf as [Hs Ha Hc Hr _ _]. split; try done.
    + intros b Hb. apply Ha. by left.
    + intros b t Hb Hcb. destruct (Hc b t Hb Hcb) as [?|?%elem_of_nil]; done.
  - destruct (wo_alloc _ _ Hwf a) as [t Ht]; [right; left|].
    pose proof (fire_one_wf now a t X s Hwf Ht) as Hwf1.
    destruct (IH _ Hwf1) as (s' & He & Hwf' & Hh & Htm & Hfl).
    pose proof (wo_NoDup _ _ Hwf) as [Hna Hnd]%list.NoDup_cons.
    exists s'. split; [|split; [done|split; [|split]]].
    + cbn [take_expired]. erewrite bind_Ret by (by apply deref_ok).
      assert ((if m_recurring t then
         modify (set_timer a (mkTimer true (m_ms t) (u64 (now + m_ms t)) (m_cb t))) ;;
         modify (fun s => set_timers (set_insert (before (m_heap s)) a (m_timers s)) s)
       else modify (set_timer a (mkTimer false (m_ms t) (m_next t) None))) s
       = Ret tt (fire_one now a t s)) as H1.
      { unfold fire_one, fired. by destruct (m_recurring t). }
      erewrite bind_Ret by exact H1. erewrite bind_Ret by exact He. unfold ret. f_equal.
      simpl. unfold cb_of at 2. rewrite Ht. f_equal. apply map_ext_in. intros b Hb.
      unfold cb_of. rewrite fire_one_heap, lookup_insert_ne; [done|].
      intros <-. apply Hna. by apply list_elem_of_In.
    + intros b. rewrite Hh, fire_one_heap. destruct (decide (b = a)) as [->|Hne].
      * rewrite bool_decide_eq_false_2 by done. rewrite bool_decide_eq_true_2 by left.
        by rewrite lookup_insert_eq, Ht.
      * rewrite lookup_insert_ne by done. erewrite bool_decide_ext; [done|]. set_solver.
    + intros b. rewrite Htm, fire_one_timers. unfold recurring_of. rewrite fire_one_heap.
      destruct (decide (b = a)) as [->|Hne].
      * rewrite Ht. set_solver.
      * rewrite lookup_insert_ne by done. set_solver.
    + unfold same_flags in *. unfold fire_one in Hfl. by destruct (m_recurring t).
Qed.

(** Which timers a call at [now] fires. *)
Definition rollover (now : Z) s : bool :=
  (now <? m_previousTime s) && (now <? u64 (m_previousTime s - 60 * 60 * 1000)).
Definition expired (now : Z) s : list Z :=
  if rollover now s then m_timers s else due (m_heap s) now (m_timers s).

Lemma wf_take_out X Y s : wf s -> m_timers s = X ++ Y -> wf_without X (set_timers Y s).
Proof.
  intros [Hs Ha Hc Hr] E. rewrite E in *. pose proof (sorted_NoDup _ _ Hs) as Hn.
  apply list.NoDup_app in Hn as (Hn1 & Hd & Hn2). split; simpl; try done.
  - clear -Hs. induction X as [|x X IH]; [done|]. apply IH. by apply StronglySorted_inv in Hs as [? _].
  - intros a H. apply Ha. set_solver.
  - intros a t H1 H2. pose proof (Hc a t H1 H2). set_solver.
Qed.

(** What a call at [now] leaves, and returns. *)
Definition expiry_done (now : Z) s (r : res TimerManager (list (option callback))) : Prop :=
  exists s', r = Ret (map (cb_of (m_heap s)) (expired now s)) s' /\ wf s'
    /\ (forall a, m_heap s' !! a
          = if bool_decide (a ∈ expired now s) then fired now <$> (m_heap s !! a)
            else m_heap s !! a)
    /\ (forall a, a ∈ m_timers s' <-> a ∈ m_timers s
          /\ (a ∉ expired now s \/ recurring_of (m_heap s) a = true))
    /\ same_flags (set_previousTime now s) s'.

(** The timers that stay where they are. *)
Definition staying (now : Z) s : list Z := if rollover now s then [] else not_due (m_heap s) now (m_timers s).

Lemma in_staying now s a : a ∈ staying now s <-> a ∈ m_timers s /\ a ∉ expired now s.
Proof.
  unfold staying, expired, due, not_due. destruct (rollover now s).
  - rewrite elem_of_nil. naive_solver.
  - rewrite !elem_of_filter_b, negb_true_iff. destruct (is_due (m_heap s) now a); naive_solver.
Qed.
Lemma expired_in now s a : a ∈ expired now s -> a ∈ m_timers s.
Proof. unfold expired, due. destruct (rollover now s); [done|]. by rewrite elem_of_filter_b; intros [? _]. Qed.

(** The call, with the iterator in place. *)
Lemma expire_rest now s n : wf s -> take n (m_timers s) = expired now s -> drop n (m_timers s) = staying now s ->
  expiry_done now s ((modify (set_timers (drop n (m_timers s))) ;; take_expired now (take n (m_timers s))) (set_previousTime now s)).
Proof.
  intros Hwf H1 H2. rewrite H1, H2. unfold modify. unfold bind at 1.
  destruct (take_expired_ok now (expired now s) (set_timers (staying now s) (set_previousTime now s))) as (s' & He & Hwf' & Hh & Ht & Hfl).
  { apply wf_take_out; [by apply (wf_same s)|]. simpl. by rewrite <- H1, <- H2, take_drop. }
  exists s'. split; [exact He|]. split; [done|]. split; [exact Hh|]. split; [|exact Hfl].
  intros a. rewrite Ht. simpl. rewrite in_staying. pose proof (expired_in now s a).
  destruct (decide (a ∈ expired now s)); naive_solver.
Qed.

Lemma listExpired_locked_ok na now s : wf s -> m_timers s <> [] -> na ∉ m_timers s -> expiry_done now s (listExpired_locked na now s).
Proof.
  intros Hwf Hne Hna. unfold listExpired_locked, detectClockRollover.
  rewrite bind_assoc, (bind_Ret get _ _ _ _ eq_refl), bind_assoc.
  unfold modify at 1. unfold bind at 1. rewrite bind_ret_l.
  rewrite (bind_Ret get _ _ _ _ eq_refl). fold (rollover now s).
  destruct (rollover now s) eqn:Er.
  - rewrite bind_ret_l. cbv iota. rewrite drop_all, Nat.add_0_r.
    apply (expire_rest now s (length (m_timers s))); [done|by unfold expired; rewrite Er, firstn_all|].
    unfold staying. by rewrite Er, drop_all.
  - destruct (expired_prefix (m_heap s) na now (m_timers s) Hna (wf_sorted _ Hwf)) as [H1 H2].
    destruct (m_timers s) as [|x l] eqn:El; [done|]. simpl m_timers at 1. rewrite El.
    destruct (wf_alloc _ Hwf x) as [t Ht]; [rewrite El; left|].
    rewrite bind_assoc. erewrite bind_Ret by (by apply deref_ok). rewrite bind_ret_l.
    destruct (Z.gtb_spec (m_next t) now) as [Hgt|Hle].
    + assert (expired now s = []) as Hnil.
      { unfold expired. rewrite Er, El. apply filter_none. intros a Ha.
        assert (next_of (m_heap s) x = m_next t) as Hx by (unfold next_of; by rewrite Ht).
        assert (next_of (m_heap s) x <= next_of (m_heap s) a) as Hxa.
        { apply elem_of_cons in Ha as [->|Ha]; [lia|]. eapply sorted_next; [|exact Ha].
          rewrite <- El. apply Hwf. }
        unfold is_due. lia. }
      exists (set_previousTime now s). rewrite Hnil. split; [done|]. split; [by apply (wf_same s)|].
      split; [|split; [|done]]; intros a; simpl; [done|]. set_solver.
    + rewrite <- El in *. match type of H1 with take ?n _ = _ => apply (expire_rest now s n Hwf) end;
        [by unfold expired; rewrite Er|by unfold staying; rewrite Er].
Qed.

(** ** Sequences of calls *)

Inductive op :=
  | Add (a now ms : Z) (cb : option callback) (recurring : bool)
  | AddCondition (a now ms : Z) (cb : CB) (weak_cond : Z) (recurring : bool)
  | Cancel (a : Z) | Refresh (a now : Z) | Reset (a ms : Z) (from_now : bool) (now : Z)
  | Next (now : Z) | Expire (na now : Z).

Definition drop_result {A} (m : M TimerManager A) : M TimerManager unit := m ;; ret tt.

Definition run_op (o : op) : M TimerManager unit :=
  match o with
  | Add a now ms cb r => drop_result (addTimer a now ms cb r)
  | AddCondition a now ms cb w r => drop_result (addConditionTimer a now ms cb w r)
  | Cancel a => drop_result (cancel a)
  | Refresh a now => drop_result (refresh a now)
  | Reset a ms f now => drop_result (reset a ms f now)
  | Next now => drop_result (getNextTimer now)
  | Expire na now => drop_result (listExpiredCb na now)
  end.

(** A new object has a new address, periods are 64-bit, and [cancel], [refresh] and [reset] are
    called on timers that exist. *)
Definition op_ok (o : op) s : Prop :=
  match o with
  | Add a _ ms _ _ | AddCondition a _ ms _ _ _ => m_heap s !! a = None /\ in_u 64 ms
  | Cancel a | Refresh a _ => is_Some (m_heap s !! a)
  | Reset a ms _ _ => is_Some (m_heap s !! a) /\ in_u 64 ms
  | Next _ => True
  | Expire na _ => m_heap s !! na = None
  end.

Inductive reachable : TimerManager -> Prop :=
  | reach_new now : reachable (new_TimerManager now)
  | reach_op o s s' : reachable s -> op_ok o s -> run_op o s = Ret tt s' -> reachable s'.

Lemma new_wf now : wf (new_TimerManager now).
Proof. split; simpl; [constructor|by intros a ?%elem_of_nil|done..]. Qed.

Lemma fresh_not_in na s : wf s -> m_heap s !! na = None -> na ∉ m_timers s.
Proof. intros Hwf Hn Hin. destruct (wf_alloc _ Hwf na Hin) as [? ?]. congruence. Qed.

Lemma listExpiredCb_eq na now s : listExpiredCb na now s
  = match m_timers s with [] => Ret [] s | _ => listExpired_locked na now s end.
Proof.
  unfold listExpiredCb, listExpired_empty. rewrite bind_assoc, (bind_Ret get _ _ _ _ eq_refl).
  by destruct (m_timers s).
Qed.

Lemma run_op_ok o s : wf s -> op_ok o s -> exists s', run_op o s = Ret tt s' /\ wf s'.
Proof.
  intros Hwf Hok. destruct o; simpl in *; unfold drop_result.
  - destruct Hok as [Ha Hms]. erewrite bind_Ret by (by apply addTimer_ok).
    eexists. split; [done|]. apply wf_tickle, wf_rearmed; simpl; [done|apply u64_range|done].
  - destruct Hok as [Ha Hms]. erewrite bind_Ret by (by apply addTimer_ok).
    eexists. split; [done|]. apply wf_tickle, wf_rearmed; simpl; [done|apply u64_range|done].
  - destruct Hok as [t Ht]. unfold bind. rewrite (cancel_ok a t) by done.
    destruct (m_cb t); eexists; (split; [done|]); [|done].
    pose proof (wf_range _ Hwf _ _ Ht) as [? ?].
    apply wf_erase; [|by simpl; intros t'; rewrite lookup_insert_eq; intros [= <-]].
    apply wf_set_timer; try done. intros _. unfold next_of. by rewrite Ht.
  - destruct Hok as [t Ht]. unfold bind. rewrite (refresh_ok a t) by done.
    pose proof (wf_range _ Hwf _ _ Ht) as [? ?].
    destruct (m_cb t); eexists; (split; [done|]); [|done].
    apply wf_rearmed; simpl; [done|apply u64_range|done].
  - destruct Hok as [[t Ht] Hms]. unfold bind. rewrite (reset_ok a t) by done.
    destruct ((ms =? m_ms t) && negb from_now); [by eexists|].
    destruct (m_cb t); eexists; (split; [done|]); [|done].
    apply wf_tickle, wf_rearmed; simpl; [done|apply u64_range|done].
  - unfold bind. rewrite getNextTimer_ok by done. eexists. split; [done|]. by apply (wf_same s).
  - unfold bind. rewrite listExpiredCb_eq.
    destruct (m_timers s) as [|x l] eqn:El; [by eexists|].
    destruct (listExpired_locked_ok na now s Hwf) as (s' & -> & Hwf' & _);
      [by rewrite El|by apply fresh_not_in|by exists s'].
Qed.

(** A cancelled timer is disarmed, the others are not touched. *)
Lemma cancel_disarms a s : wf s -> is_Some (m_heap s !! a) ->
  exists b s' t', cancel a s = Ret b s' /\ wf s' /\ m_heap s' !! a = Some t' /\ m_cb t' = None /\
    forall c, c <> a -> m_heap s' !! c = m_heap s !! c.
Proof.
  intros Hwf [t Ht]. rewrite (cancel_ok a t) by done. destruct (m_cb t) eqn:Ec.
  - eexists true, _, _. split; [done|]. split.
    + pose proof (wf_range _ Hwf _ _ Ht) as [? ?].
      apply wf_erase; [|by simpl; intros t'; rewrite lookup_insert_eq; intros [= <-]].
      apply wf_set_timer; try done. intros _. unfold next_of. by rewrite Ht.
    + simpl. rewrite lookup_insert_eq. split; [done|]. split; [done|].
      intros b Hb. by rewrite lookup_insert_ne.
  - by eexists false, s, t.
Qed.

Lemma reachable_ok s : reachable s -> wf s.
Proof.
  induction 1 as [now|o s s' _ IH Hok He]; [apply new_wf|].
  destruct (run_op_ok o s IH Hok) as (s1 & He1 & Hwf). congruence.
Qed.

(** *** Wake-ups *)

(** The calls read a clock that does not go back; times and periods are below [2^63], so that
    no due time wraps around. *)
Definition clock_after (clock : Z) (o : op) : Z :=
  match o with
  | Add _ now _ _ _ | AddCondition _ now _ _ _ _ | Refresh _ now | Reset _ _ _ now
  | Next now | Expire _ now => now
  | Cancel _ => clock
  end.
Definition period_of (o : op) : Z :=
  match o with Add _ _ ms _ _ | AddCondition _ _ ms _ _ _ | Reset _ ms _ _ => ms | _ => 0 end.
Definition op_timely (clock : Z) (o : op) : Prop :=
  clock <= clock_after clock o < 2 ^ 63 /\ period_of o < 2 ^ 63.

(** What the calls made so far leave, with the last time that was read. *)
Inductive history : Z -> TimerManager -> Prop :=
  | history_new now : 0 <= now < 2 ^ 63 -> history now (new_TimerManager now)
  | history_op clock o s s' : history clock s -> op_ok o s -> op_timely clock o ->
      run_op o s = Ret tt s' -> history (clock_after clock o) s'.

(** Any calls at all, from a clock and a manager to the next. *)
Inductive meanwhile : Z -> TimerManager -> TimerManager -> Prop :=
  | meanwhile_nothing clock s : meanwhile clock s s
  | meanwhile_op clock o s s1 s2 : op_ok o s -> op_timely clock o -> run_op o s = Ret tt s1 ->
      meanwhile (clock_after clock o) s1 s2 -> meanwhile clock s s2.

(** A timer is due at most its period from now, and its period did not start before 0. *)
Definition in_time (clock : Z) t : Prop := m_ms t < 2 ^ 63 /\ m_ms t <= m_next t <= clock + m_ms t.
Record timely (clock : Z) s : Prop := {
  tm_clock : 0 <= clock < 2 ^ 63 /\ m_previousTime s <= clock;
  tm_timers a t : m_heap s !! a = Some t -> in_time clock t
}.

Lemma timely_no_rollover clock now s : timely clock s -> clock <= now -> rollover now s = false.
Proof. intros [[_ Hp] _] Hn. unfold rollover. by destruct (Z.ltb_spec now (m_previousTime s)); [lia|]. Qed.

Lemma u64_sum now ms : 0 <= now < 2 ^ 63 -> 0 <= ms < 2 ^ 63 -> u64 (now + ms) = now + ms.
Proof. intros. apply wrapu_small. lia. Qed.

Lemma in_time_later clock clock' t : in_time clock t -> clock <= clock' -> in_time clock' t.
Proof. unfold in_time. lia. Qed.

Lemma timely_rearmed clock clock' a t s : timely clock s -> clock <= clock' < 2 ^ 63 -> in_time clock' t ->
  timely clock' (tickle_front a (rearmed a t s)).
Proof.
  intros [? Ht] Hc Hin. destruct (tickle_front_same a (rearmed a t s)) as [Eh _]. split.
  - unfold tickle_front. destruct (_ && _); simpl; lia.
  - rewrite Eh. simpl. intros b tb [[_ <-]|[_ Hb]]%lookup_insert_Some; [done|].
    eapply in_time_later; [by eapply Ht|lia].
Qed.

Lemma in_time_new now ms r cb : 0 <= now < 2 ^ 63 -> 0 <= ms < 2 ^ 63 ->
  in_time now (mkTimer r ms (u64 (now + ms)) cb).
Proof. intros. unfold in_time. simpl. rewrite u64_sum by done. lia. Qed.

Lemma in_time_reset clock now ms f t : 0 <= clock <= now -> now < 2 ^ 63 -> 0 <= ms < 2 ^ 63 ->
  in_time clock t -> in_time now (reset_timer ms f now t).
Proof.
  intros Hc Hn Hms [Hm Hx]. unfold in_time, reset_timer. simpl. destruct f.
  - rewrite u64_sum by lia. lia.
  - assert (u64 (m_next t - m_ms t) = m_next t - m_ms t) as -> by (apply wrapu_small; lia).
    rewrite u64_sum by lia. lia.
Qed.

(** Either the front was announced since the count was [c], or nothing is due earlier. *)
Definition covered (c : nat) (deadline : Z) s : Prop :=
  (c < front_calls s)%nat
  \/ (c = front_calls s /\ m_tickled s = false
      /\ forall a, a ∈ m_timers s -> deadline <= next_of (m_heap s) a).

Lemma head_least s a b : wf s -> head (m_timers s) = Some b -> a ∈ m_timers s ->
  next_of (m_heap s) b <= next_of (m_heap s) a.
Proof.
  intros Hwf Hh Ha. pose proof (wf_sorted _ Hwf) as Hs.
  destruct (m_timers s) as [|x l]; [done|]. simplify_eq/=.
  apply elem_of_cons in Ha as [->|Ha]; [lia|]. by eapply sorted_next.
Qed.

Lemma covered_rearmed c dl a t s : wf s -> wf (rearmed a t s) -> covered c dl s ->
  covered c dl (tickle_front a (rearmed a t s)).
Proof.
  intros Hwf Hwf' [Hlt|(-> & Ht & Hall)]; unfold tickle_front.
  - left. destruct (_ && _); simpl; lia.
  - simpl m_tickled. rewrite Ht. simpl negb. rewrite andb_true_r.
    case_bool_decide as Hh; [left; simpl; lia|]. right. split; [done|]. split; [done|].
    intros b Hb.
    assert (exists x, head (m_timers (rearmed a t s)) = Some x) as [x Hx].
    { destruct (m_timers (rearmed a t s)); [by apply elem_of_nil in Hb|by eexists]. }
    assert (x <> a) as Hxa by (intros ->; by apply Hh).
    assert (x ∈ m_timers s) as Hxs.
    { assert (x ∈ m_timers (rearmed a t s)) as Hin.
      { destruct (m_timers (rearmed a t s)); [done|]. simplify_eq/=. left. }
      apply rearmed_timers in Hin as [?|?]; [done|done|exact Hwf]. }
    pose proof (head_least _ _ _ Hwf' Hx Hb) as Hle. specialize (Hall x Hxs).
    assert (next_of (m_heap (rearmed a t s)) x = next_of (m_heap s) x) as E
      by (by apply next_of_insert_ne). lia.
Qed.

(** An operation that moves one timer back in time. *)
Lemma covered_later c dl s s' : front_calls s' = front_calls s -> m_tickled s' = m_tickled s ->
  (forall a, a ∈ m_timers s' -> a ∈ m_timers s /\ next_of (m_heap s) a <= next_of (m_heap s') a) ->
  covered c dl s -> covered c dl s'.
Proof.
  intros Hf Ht Hall [?|(-> & Htk & Hdl)]; [left; congruence|right]. split; [done|]. split; [congruence|].
  intros a Ha. destruct (Hall a Ha) as [Hin Hle]. specialize (Hdl a Hin). lia.
Qed.

Lemma next_of_timer h a t : h !! a = Some t -> next_of h a = m_next t.
Proof. unfold next_of. by intros ->. Qed.

Section OneCall.
Context (c : nat) (dl clock : Z).
Implicit Types (r : bool).

(** What every call keeps: [timely] at the new clock, and [covered]. *)
Definition still (now : Z) s s' : Prop := timely now s' /\ (covered c dl s -> covered c dl s').

Lemma still_insert a now t s : wf s -> timely clock s -> clock <= now < 2 ^ 63 ->
  in_u 64 (m_next t) -> in_u 64 (m_ms t) -> in_time now t ->
  still now s (tickle_front a (rearmed a t s)).
Proof.
  intros Hwf Ht Hn Hx Hm Hin. split; [by eapply timely_rearmed|].
  apply covered_rearmed; [done|]. by apply wf_rearmed.
Qed.

Lemma still_same now s : timely clock s -> clock <= now < 2 ^ 63 -> still now s s.
Proof.
  intros [? Ht] Hn. split; [|done]. split; [lia|]. intros a t Ha. eapply in_time_later; [by eapply Ht|lia].
Qed.

Lemma still_add a now ms cb r s : wf s -> timely clock s -> m_heap s !! a = None -> in_u 64 ms ->
  clock <= now < 2 ^ 63 -> ms < 2 ^ 63 ->
  exists s', addTimer a now ms cb r s = Ret a s' /\ still now s s'.
Proof.
  intros Hwf Ht Ha Hms Hn Hp. rewrite addTimer_ok by done. eexists. split; [done|].
  pose proof (tm_clock _ _ Ht). unfold in_u in Hms.
  apply still_insert; simpl; try done; [apply u64_range|by apply in_time_new; lia].
Qed.

Lemma still_cancel a t s : wf s -> timely clock s -> m_heap s !! a = Some t ->
  exists b s', cancel a s = Ret b s' /\ still clock s s'.
Proof.
  intros Hwf Ht Ha. pose proof (tm_clock _ _ Ht). rewrite (cancel_ok a t) by done. destruct (m_cb t).
  2: { eexists _, s. split; [done|]. apply still_same; [done|lia]. }
  do 2 eexists. split; [done|]. split.
  - split; [simpl; lia|]. simpl. intros b tb [[_ <-]|[_ Hb]]%lookup_insert_Some; [|by eapply tm_timers].
    apply (tm_timers _ _ Ht _ _ Ha).
  - apply covered_later; [done..|]. intros b Hb%set_erase_sub. simpl in *. split; [done|].
    destruct (decide (b = a)) as [->|]; [|by rewrite next_of_insert_ne].
    rewrite next_of_insert, (next_of_timer _ _ t) by done. simpl. lia.
Qed.

Lemma still_refresh a now t s : wf s -> timely clock s -> clock <= now < 2 ^ 63 -> m_heap s !! a = Some t ->
  exists b s', refresh a now s = Ret b s' /\ still now s s'.
Proof.
  intros Hwf Ht Hn Ha. pose proof (tm_clock _ _ Ht) as Hc. rewrite (refresh_ok a t) by done.
  destruct (m_cb t) as [f|] eqn:Ef; [|eexists _, s; split; [done|by apply still_same]].
  pose proof (tm_timers _ _ Ht _ _ Ha) as [Hm Hx]. destruct (wf_range _ Hwf _ _ Ha) as [_ Hr]. unfold in_u in Hr.
  pose proof (in_time_new now (m_ms t) (m_recurring t) (Some f) ltac:(lia) ltac:(lia)) as Hin.
  do 2 eexists. split; [done|]. split.
  - split; [simpl; lia|]. simpl. intros b tb [[_ <-]|[_ Hb]]%lookup_insert_Some; [done|].
    eapply in_time_later; [by eapply tm_timers|lia].
  - apply covered_later; [done..|]. intros b [->|Hb]%rearmed_timers; [..|done]; simpl.
    + split; [eapply wf_armed; eauto; congruence|].
      rewrite next_of_insert, (next_of_timer _ _ t) by done. simpl. rewrite u64_sum by lia. lia.
    + split; [done|]. destruct (decide (b = a)) as [->|]; [|by rewrite next_of_insert_ne].
      rewrite next_of_insert, (next_of_timer _ _ t) by done. simpl. rewrite u64_sum by lia. lia.
Qed.

Lemma still_reset a ms r now t s : wf s -> timely clock s -> clock <= now < 2 ^ 63 -> in_u 64 ms ->
  ms < 2 ^ 63 -> m_heap s !! a = Some t -> exists b s', reset a ms r now s = Ret b s' /\ still now s s'.
Proof.
  intros Hwf Ht Hn Hms Hp Ha. pose proof (tm_clock _ _ Ht) as Hc. rewrite (reset_ok a t) by done. unfold in_u in Hms.
  destruct (_ && _); [eexists _, s; split; [done|by apply still_same]|].
  destruct (m_cb t); [|eexists _, s; split; [done|by apply still_same]].
  do 2 eexists. split; [done|]. apply still_insert; simpl; try done; [apply u64_range|].
  apply (in_time_reset clock); try lia. by eapply tm_timers.
Qed.

Lemma still_expire na now s : wf s -> timely clock s -> clock <= now < 2 ^ 63 -> na ∉ m_timers s ->
  exists cbs s', listExpiredCb na now s = Ret cbs s' /\ still now s s'.
Proof.
  intros Hwf Ht Hn Hna. pose proof (tm_clock _ _ Ht) as Hc. rewrite listExpiredCb_eq.
  destruct (decide (m_timers s = [])) as [->|Hne]; [eexists _, s; split; [done|by apply still_same]|].
  destruct (listExpired_locked_ok na now s Hwf Hne Hna) as (s' & E & _ & Hh & Hin & Hp & Htk & Hf).
  simpl in Hp, Htk, Hf. exists (map (cb_of (m_heap s)) (expired now s)), s'.
  split; [by destruct (m_timers s)|].
  assert (forall b t, m_heap s !! b = Some t -> b ∈ expired now s -> m_next t <= now) as Hdue.
  { intros b t Hb. unfold expired, due. rewrite (timely_no_rollover clock) by (done || lia).
    rewrite elem_of_filter_b. unfold is_due. rewrite (next_of_timer _ _ _ Hb). lia. }
  assert (forall b t, m_heap s !! b = Some t -> in_time now (fired now t)) as Hfired.
  { intros b t Hb. pose proof (tm_timers _ _ Ht _ _ Hb) as [? ?].
    destruct (wf_range _ Hwf _ _ Hb) as [_ Hr]. unfold in_u in Hr. unfold fired.
    destruct (m_recurring t); [apply in_time_new; lia|]. unfold in_time. simpl. lia. }
  split.
  - split; [lia|]. intros b t. rewrite Hh. case_bool_decide.
    + destruct (m_heap s !! b) eqn:Eb; [|done]. intros [= <-]. by eapply Hfired.
    + intros Hb. eapply in_time_later; [by eapply tm_timers|lia].
  - apply covered_later; [done..|]. intros b [Hb Hor]%Hin. split; [done|].
    destruct (wf_alloc _ Hwf b Hb) as [t Ebt]. unfold next_of. rewrite Hh, Ebt.
    case_bool_decide as He; [|lia]. destruct Hor as [?|Hrec]; [done|]. simpl.
    specialize (Hdue b t Ebt He). unfold recurring_of in Hrec. rewrite Ebt in Hrec. unfold fired. rewrite Hrec.
    simpl. pose proof (tm_timers _ _ Ht _ _ Ebt) as [? ?]. destruct (wf_range _ Hwf _ _ Ebt) as [_ Hr].
    unfold in_u in Hr. rewrite u64_sum by lia. lia.
Qed.

Lemma run_op_still o s s' : wf s -> timely clock s -> op_ok o s -> op_timely clock o ->
  run_op o s = Ret tt s' -> still (clock_after clock o) s s'.
Proof.
  intros Hwf Ht Hok [Hn Hp]. pose proof (tm_clock _ _ Ht) as Hc.
  destruct o; simpl in *; unfold drop_result, bind, addConditionTimer in *.
  - destruct Hok as [Ha Hms]. destruct (still_add a now ms cb recurring s) as (s1 & -> & Hs); try done. by intros [= <-].
  - destruct Hok as [Ha Hms].
    destruct (still_add a now ms (Some (bound_OnTimer weak_cond cb)) recurring s) as (s1 & -> & Hs); try done. by intros [= <-].
  - destruct Hok as [t Ha]. destruct (still_cancel a t s) as (b & s1 & -> & Hs); try done. by intros [= <-].
  - destruct Hok as [t Ha]. destruct (still_refresh a now t s) as (b & s1 & -> & Hs); try done. by intros [= <-].
  - destruct Hok as [[t Ha] Hms]. destruct (still_reset a ms from_now now t s) as (b & s1 & -> & Hs); try done. by intros [= <-].
  - rewrite getNextTimer_ok by done. intros [= <-]. destruct (still_same now s Ht Hn) as [[? ?] _].
    split; [by split|]. intros [?|(? & ? & ?)]; [by left|by right].
  - destruct (still_expire na now s Hwf Ht Hn) as (cbs & s1 & -> & Hs); [by apply fresh_not_in|]. by intros [= <-].
Qed.
End OneCall.

Lemma history_ok clock s : history clock s -> wf s /\ timely clock s.
Proof.
  induction 1 as [now Hn|clock o s s' _ [Hwf Ht] Hok Hto He].
  - split; [apply new_wf|]. split; [simpl; lia|]. by intros a t.
  - destruct (run_op_ok o s Hwf Hok) as (s1 & He1 & Hwf1). assert (s1 = s') as -> by congruence.
    split; [done|]. exact (proj1 (run_op_still 0 0 clock o s s' Hwf Ht Hok Hto He)).
Qed.

Lemma meanwhile_covered c dl clock s s' : wf s -> timely clock s -> covered c dl s -> meanwhile clock s s' ->
  wf s' /\ covered c dl s'.
Proof.
  intros Hwf Ht Hc Hm. induction Hm as [|clock o s s1 s2 Hok Hto He _ IH]; [done|].
  destruct (run_op_ok o s Hwf Hok) as (s1' & He1 & Hwf1). assert (s1' = s1) as -> by congruence.
  destruct (run_op_still c dl clock o s s1) as [Ht1 Hc1]; try done. apply IH; auto.
Qed.

(** ** Properties *)

(** C16: The timer set is always usable. From the empty manager, after any sequence of
    [addTimer], [addConditionTimer], [cancel], [refresh], [reset], [getNextTimer] and
    [listExpiredCb], the next call returns: in particular [cancel] never erases the
    [end()] iterator it does not check for, and no timer of the set is a dangling pointer;
    the set stays ordered by due time and holds every timer that has a callback. *)
Theorem timers_safe s o : reachable s -> op_ok o s ->
  exists s', run_op o s = Ret tt s' /\ wf s'.
Proof. intros Hr Hok. apply run_op_ok; [by apply reachable_ok|done]. Qed.

(** C17: [listExpiredCb] fires exactly the timers that are due: those whose time is at most
    [now], in the order of their times, or every timer when the clock went back by more than
    an hour. Their callbacks are returned in that order; a recurring one is due again
    [m_ms] later and stays in the set, another one loses its callback and leaves the set;
    all other timers are untouched. The address of the temporary timer it compares with
    does not matter. *)
Theorem listExpiredCb_spec na now s : wf s -> m_heap s !! na = None ->
  exists s', listExpiredCb na now s = Ret (map (cb_of (m_heap s)) (expired now s)) s' /\ wf s'
    /\ (forall a, a ∈ expired now s <->
          a ∈ m_timers s /\ (rollover now s = true \/ next_of (m_heap s) a <= now))
    /\ StronglySorted (fun a b => next_of (m_heap s) a <= next_of (m_heap s) b) (expired now s)
    /\ (forall a, m_heap s' !! a
          = if bool_decide (a ∈ expired now s) then fired now <$> (m_heap s !! a)
            else m_heap s !! a)
    /\ (forall a, a ∈ m_timers s' <-> a ∈ m_timers s
          /\ (a ∉ expired now s \/ recurring_of (m_heap s) a = true)).
Proof.
  intros Hwf Hna. rewrite listExpiredCb_eq.
  assert (forall a, a ∈ expired now s <->
    a ∈ m_timers s /\ (rollover now s = true \/ next_of (m_heap s) a <= now)) as Hin.
  { intros a. unfold expired, due. destruct (rollover now s); [naive_solver|].
    rewrite elem_of_filter_b. unfold is_due. rewrite Z.leb_le. naive_solver. }
  assert (StronglySorted (fun a b => next_of (m_heap s) a <= next_of (m_heap s) b) (expired now s))
    as Hord.
  { assert (StronglySorted (fun a b => next_of (m_heap s) a <= next_of (m_heap s) b) (m_timers s))
      as Hall.
    { pose proof (wf_sorted _ Hwf) as Hs. revert Hs. clear.
      generalize (m_timers s). intros l. induction l as [|x l IH]; intros Hs; constructor.
      - apply IH. by apply StronglySorted_inv in Hs as [? _].
      - apply list.Forall_forall. intros y Hy. by eapply sorted_next. }
    unfold expired, due. destruct (rollover now s); [done|].
    clear Hin. induction Hall as [|x l _ IH HF]; simpl; [constructor|].
    destruct (is_due (m_heap s) now x); [|exact IH]. constructor; [exact IH|].
    rewrite list.Forall_forall in HF. apply list.Forall_forall. intros y.
    rewrite elem_of_filter_b. intros [? _]. by apply HF. }
  destruct (m_timers s) as [|x l] eqn:El.
  - exists s. assert (expired now s = []) as Hnil.
    { unfold expired. rewrite El. by destruct (rollover now s). }
    rewrite Hnil in *. split; [done|]. split; [done|]. split; [exact Hin|].
    split; [done|]. split; [done|]. intros a. rewrite El. set_solver.
  - destruct (listExpired_locked_ok na now s Hwf) as (s' & He & Hwf' & Hh & Ht & _);
      [by rewrite El|by apply fresh_not_in|].
    exists s'. rewrite <- El in *. repeat (split; [done|]). done.
Qed.

(** [getNextTimer] tells how long to sleep: the largest value when there is no timer, 0
    when one is due, and otherwise the time until the earliest. *)
Theorem getNextTimer_spec now s : wf s -> in_u 64 now ->
  exists d, getNextTimer now s = Ret d (set_tickled false s)
    /\ match m_timers s with
       | [] => d = no_timer
       | b :: _ =>
           (forall a, a ∈ m_timers s -> next_of (m_heap s) b <= next_of (m_heap s) a)
           /\ d = Z.max 0 (next_of (m_heap s) b - now)
       end.
Proof.
  intros Hwf Hnow. rewrite getNextTimer_ok by done. eexists. split; [done|].
  destruct (m_timers s) as [|b l] eqn:El; [done|]. split.
  - intros a Ha. rewrite <- El in Ha. apply (head_least s a b Hwf); [by rewrite El|done].
  - destruct (wf_alloc _ Hwf b) as [t Ht]; [rewrite El; left|].
    destruct (wf_range _ Hwf _ _ Ht) as [Hn _]. unfold next_of. rewrite Ht. simpl.
    unfold in_u in *. destruct (Z.geb_spec now (m_next t)); [lia|].
    assert (u64 (m_next t - now) = m_next t - now) as -> by (apply wrapu_small; lia). lia.
Qed.

(** C18: No wake-up is missed. A thread that calls [getNextTimer] at [now] is told to sleep
    [d]. Whatever calls other threads then make ([addTimer], [addConditionTimer], [cancel],
    [refresh], [reset], [getNextTimer], [listExpiredCb], any number in any order), one of
    these holds: [onTimerInsertAtFront] was called since, which interrupts the sleep; [d] is 0
    and there is no sleep; or every timer in the set is due no earlier than [now + d], the
    end of the sleep, and when the thread was told that there is no timer, there is still none.
    The clock the calls read does not go back, and times and periods are below [2^63]. *)
Theorem no_missed_wakeup clock now d s s1 s2 : history clock s -> clock <= now < 2 ^ 63 ->
  getNextTimer now s = Ret d s1 -> meanwhile now s1 s2 ->
  (front_calls s1 < front_calls s2)%nat
  \/ d = 0
  \/ forall a, a ∈ m_timers s2 -> m_timers s <> [] /\ now + d <= next_of (m_heap s2) a.
Proof.
  intros [Hwf Ht]%history_ok Hn Hg Hm. pose proof (tm_clock _ _ Ht) as Hc.
  rewrite getNextTimer_ok in Hg by done. injection Hg as Hd <-.
  set (dl := match m_timers s with [] => 2 ^ 64 | b :: _ => next_of (m_heap s) b end).
  assert (covered (front_calls s) dl (set_tickled false s)) as Hcov.
  { right. split; [done|]. split; [done|]. intros a Hin. unfold dl. simpl in Hin.
    destruct (m_timers s) as [|b l] eqn:El; [by apply elem_of_nil in Hin|].
    apply (head_least s a b Hwf); rewrite El; done. }
  destruct (still_same 0 0 clock now s Ht Hn) as [[Ht1 Ht2] _].
  destruct (meanwhile_covered _ _ now (set_tickled false s) s2 ltac:(by apply (wf_same s)) ltac:(by split) Hcov Hm)
    as [Hwf2 [?|(_ & _ & Hall)]]; [by left|right].
  destruct (m_timers s) as [|b l] eqn:El.
  - right. intros a Ha. specialize (Hall a Ha). destruct (wf_alloc _ Hwf2 a Ha) as [t Eat].
    rewrite (next_of_timer _ _ _ Eat) in Hall. destruct (wf_range _ Hwf2 _ _ Eat) as [Hr _].
    unfold in_u, dl in *. lia.
  - destruct (wf_alloc _ Hwf b) as [t Hb]; [rewrite El; left|].
    destruct (wf_range _ Hwf _ _ Hb) as [Hr _]. unfold in_u in Hr.
    unfold dl in Hall. rewrite (next_of_timer _ _ _ Hb) in *. cbv zeta in Hd.
    destruct (Z.geb_spec now (m_next t)); [by left|right]. intros a Ha. split; [done|].
    specialize (Hall a Ha). assert (u64 (m_next t - now) = m_next t - now) as E by (apply wrapu_small; lia). lia.
Qed.

(** When the clock goes back, [refresh] moves a timer to the front, and [onTimerInsertAtFront]
    is not called: the sleep that was computed goes on past the timer. *)
Lemma refresh_moves_to_front a t now now' s : wf s -> m_timers s = [a] -> m_heap s !! a = Some t ->
  m_cb t <> None -> 0 <= now' -> now' + m_ms t < m_next t -> 0 <= now < m_next t ->
  exists s1 s2, getNextTimer now s = Ret (m_next t - now) s1 /\ refresh a now' s1 = Ret true s2 /\
    front_calls s2 = front_calls s1 /\ a ∈ m_timers s2 /\ next_of (m_heap s2) a = now' + m_ms t.
Proof.
  intros Hwf El Ha Hcb Hn' Hlt Hn. rewrite getNextTimer_ok, El by done. rewrite (next_of_timer _ _ _ Ha).
  destruct (wf_range _ Hwf _ _ Ha) as [Hr Hm]. unfold in_u in *. cbv zeta.
  destruct (Z.geb_spec now (m_next t)); [lia|].
  assert (u64 (m_next t - now) = m_next t - now) as -> by (apply wrapu_small; lia).
  assert (wf (set_tickled false s)) as Hwf1 by (by apply (wf_same s)).
  eexists.
  exists (rearmed a (mkTimer (m_recurring t) (m_ms t) (u64 (now' + m_ms t)) (m_cb t)) (set_tickled false s)).
  split; [done|]. split; [rewrite (refresh_ok a t) by done; by destruct (m_cb t)|].
  split; [done|]. split; [apply rearmed_timers; auto|].
  simpl. rewrite next_of_insert. simpl. apply wrapu_small. lia.
Qed.

(** [cancel], [refresh] and [reset] on every branch. [cancel] disarms an armed timer and
    takes it out of the set; [refresh] makes it due its period from now; [reset] makes it due
    the new period from now, or from where its period started; each answers [false] on a
    timer that is not armed, except that [reset] to the same period answers [true] without
    looking. *)
Theorem timer_ops_spec a t s now ms from_now : wf s -> m_heap s !! a = Some t -> in_u 64 ms ->
  (m_cb t = None ->
     cancel a s = Ret false s /\ refresh a now s = Ret false s
     /\ reset a ms from_now now s = Ret ((ms =? m_ms t) && negb from_now) s)
  /\ (m_cb t <> None ->
     (exists s', cancel a s = Ret true s' /\ a ∉ m_timers s' /\ cb_of (m_heap s') a = None
        /\ forall b, b <> a -> m_heap s' !! b = m_heap s !! b
             /\ (b ∈ m_timers s' <-> b ∈ m_timers s))
     /\ (exists s', refresh a now s = Ret true s' /\ a ∈ m_timers s'
           /\ m_heap s' !! a = Some (mkTimer (m_recurring t) (m_ms t) (u64 (now + m_ms t)) (m_cb t)))
     /\ (exists s', reset a ms from_now now s = Ret true s' /\ a ∈ m_timers s'
           /\ m_heap s' !! a
              = Some (if (ms =? m_ms t) && negb from_now then t
                      else reset_timer ms from_now now t))).
Proof.
  intros Hwf Ht Hms. rewrite (cancel_ok a t), (refresh_ok a t), (reset_ok a t) by done.
  split.
  - intros ->. destruct ((ms =? m_ms t) && negb from_now); done.
  - intros Hcb. assert (a ∈ m_timers s) as Hin by (eapply wf_armed; eauto).
    destruct (m_cb t) as [c|] eqn:Ec; [|done].
    split; [|split].
    + eexists. split; [done|]. simpl.
      assert (set_sorted (before (<[a:=mkTimer (m_recurring t) (m_ms t) (m_next t) None]> (m_heap s)))
        (m_timers s)) as Hs.
      { eapply sorted_ext; [|apply Hwf]. intros b _. destruct (decide (b = a)) as [->|].
        - rewrite next_of_insert. unfold next_of. by rewrite Ht.
        - by rewrite next_of_insert_ne. }
      split; [|split].
      * rewrite elem_of_erase by done. naive_solver.
      * unfold cb_of. by rewrite lookup_insert_eq.
      * intros b Hb. rewrite lookup_insert_ne by done. split; [done|].
        rewrite elem_of_erase by done. naive_solver.
    + eexists. split; [done|]. split; [apply rearmed_timers; auto|].
      simpl. by rewrite lookup_insert_eq.
    + destruct ((ms =? m_ms t) && negb from_now); [by eexists|].
      eexists. split; [done|]. destruct (tickle_front_same a (rearmed a (reset_timer ms from_now now t) s))
        as [-> ->]. split; [apply rearmed_timers; auto|]. simpl. by rewrite lookup_insert_eq.
Qed.

(** [listExpiredCb] looks whether the set is empty, releases the lock and takes it again.
    When another thread cancels the last timer in between, the first element of an empty
    set is read. *)
Theorem listExpired_race na now a t s : wf s -> m_timers s = [a] -> m_heap s !! a = Some t ->
  m_cb t <> None -> rollover now s = false ->
  exists s1, listExpired_empty s = Ret false s /\ cancel a s = Ret true s1
    /\ listExpired_locked na now s1 = UB NullDeref.
Proof.
  intros Hwf El Ht Hcb Hr. rewrite (cancel_ok a t) by done.
  destruct (m_cb t); [|done]. eexists. split; [|split; [done|]].
  - unfold listExpired_empty. rewrite (bind_Ret get _ _ _ _ eq_refl). by rewrite El.
  - unfold listExpired_locked, detectClockRollover.
    rewrite bind_assoc, (bind_Ret get _ _ _ _ eq_refl), bind_assoc.
    unfold modify at 1. unfold bind at 1. rewrite bind_ret_l.
    rewrite (bind_Ret get _ _ _ _ eq_refl). unfold rollover in Hr. simpl m_previousTime.
    rewrite Hr. simpl. rewrite El. simpl. rewrite same_key_before, bool_decide_eq_true_2 by done.
    done.
Qed.
End Timers.

(** ** Witnesses *)

Definition ran (o : op (CB := nat)) (s : TimerManager) : TimerManager :=
  match run_op o s with Ret _ s' => s' | _ => s end.

Lemma reach_ran o s : reachable s -> op_ok o s -> reachable (ran o s).
Proof.
  intros Hr Hok. destruct (run_op_ok o s (reachable_ok s Hr) Hok) as (s' & He & _).
  eapply reach_op; [exact Hr|exact Hok|]. unfold ran. by rewrite He.
Qed.

(** A manager with a one-shot timer due at 10. *)
Definition one_timer : TimerManager := ran (Add 1 0 10 (Some (plain 7%nat)) false) (new_TimerManager 0).
(** And a recurring one due at 5. *)
Definition two_timers : TimerManager := ran (Add 2 0 5 (Some (plain 8%nat)) true) one_timer.

Lemma one_timer_reachable : reachable one_timer.
Proof. apply reach_ran; [apply reach_new|by repeat split]. Qed.
Lemma two_timers_reachable : reachable two_timers.
Proof. apply reach_ran; [apply one_timer_reachable|by repeat split]. Qed.

Lemma timers_safe_witness :
  reachable two_timers /\ exists s', run_op (Cancel 2) two_timers = Ret tt s' /\ wf s'.
Proof.
  split; [apply two_timers_reachable|].
  apply timers_safe; [apply two_timers_reachable|]. by eexists.
Defined.

Lemma listExpiredCb_spec_witness :
  expired 7 two_timers = [2]
  /\ exists s', listExpiredCb 9 7 two_timers = Ret [Some (plain 8%nat)] s' /\ m_timers s' = [1; 2].
Proof.
  split; [by vm_compute|].
  destruct (listExpiredCb_spec 9 7 two_timers) as (s' & He & _);
    [apply reachable_ok, two_timers_reachable|reflexivity|].
  exists s'. split; [exact He|].
  assert (value_of (bind (listExpiredCb 9 7) (fun _ => gets m_timers) two_timers) = Some [1; 2]) as Hv
    by (vm_compute; reflexivity).
  revert Hv. unfold bind. rewrite He. simpl. congruence.
Defined.

Lemma getNextTimer_spec_witness : exists s', getNextTimer 3 two_timers = Ret 2 s'.
Proof.
  destruct (getNextTimer_spec 3 two_timers) as (d & He & Hd);
    [apply reachable_ok, two_timers_reachable|by split|].
  eexists. rewrite He. f_equal. assert (m_timers two_timers = [2; 1]) as E by reflexivity.
  rewrite E in Hd. destruct Hd as [_ ->]. reflexivity.
Defined.

(** A thread that found no timer, and one added while it sleeps; then a thread that was told to
    sleep 7, and a timer due in 9. *)
Lemma no_missed_wakeup_witness :
  (exists s1 s2, getNextTimer 3 (new_TimerManager (CB := nat) 0) = Ret no_timer s1 /\ meanwhile 3 s1 s2 /\
    m_timers s2 = [2] /\ (front_calls s1 < front_calls s2)%nat) /\
  exists s1 s2, getNextTimer 3 one_timer = Ret 7 s1 /\ meanwhile 3 s1 s2 /\
    m_timers s2 = [1; 2] /\ forall a, a ∈ m_timers s2 -> 10 <= next_of (m_heap s2) a.
Proof.
  assert (history 0 (new_TimerManager (CB := nat) 0)) as H0 by (apply history_new; lia). split.
  - pose (s1 := set_tickled false (new_TimerManager (CB := nat) 0)).
    pose (s2 := ran (Add 2 4 5 None false) s1).
    assert (meanwhile 3 s1 s2) as Hm.
    { eapply (meanwhile_op 3 (Add 2 4 5 None false)); [by repeat split|by repeat split|reflexivity|].
      apply meanwhile_nothing. }
    exists s1, s2. split; [reflexivity|]. split; [exact Hm|]. split; [reflexivity|].
    destruct (no_missed_wakeup 0 3 no_timer _ s1 s2 H0 ltac:(lia) eq_refl Hm) as [?|[?|Hall]]; [done|done|].
    exfalso. apply (proj1 (Hall 2 ltac:(by left))). reflexivity.
  - pose (s1 := set_tickled false one_timer). pose (s2 := ran (Add 2 4 8 None false) s1).
    assert (history 0 one_timer) as H1.
    { eapply (history_op 0 (Add 1 0 10 (Some (plain 7%nat)) false)); [exact H0|by repeat split|by repeat split|reflexivity]. }
    assert (meanwhile 3 s1 s2) as Hm.
    { eapply (meanwhile_op 3 (Add 2 4 8 None false)); [by repeat split|by repeat split|reflexivity|].
      apply meanwhile_nothing. }
    exists s1, s2. split; [reflexivity|]. split; [exact Hm|]. split; [reflexivity|].
    destruct (no_missed_wakeup 0 3 7 _ s1 s2 H1 ltac:(lia) eq_refl Hm) as [Hf|[?|Hall]]; [|done|].
    + exfalso. vm_compute in Hf. lia.
    + intros a Ha. exact (proj2 (Hall a Ha)).
Defined.

(** A recurring timer of period 5, set at 100 and refreshed when the clock shows 50. *)
Lemma refresh_moves_to_front_witness :
  let s := ran (Add 1 100 5 (Some (plain 7%nat)) true) (new_TimerManager 0) in
  exists s1 s2, getNextTimer 100 s = Ret 5 s1 /\ refresh 1 50 s1 = Ret true s2 /\
    front_calls s2 = front_calls s1 /\ next_of (m_heap s2) 1 = 55.
Proof.
  intros s. destruct (refresh_moves_to_front 1 (mkTimer true 5 105 (Some (plain 7%nat))) 100 50 s)
    as (s1 & s2 & E1 & E2 & Ef & _ & En); try reflexivity; [|discriminate|lia|split; [lia|reflexivity]|by exists s1, s2].
  apply reachable_ok, reach_ran; [apply reach_new|by repeat split].
Defined.

Lemma timer_ops_spec_witness :
  exists s', cancel 2 two_timers = Ret true s' /\ 2 ∉ m_timers s'.
Proof.
  destruct (timer_ops_spec 2 (mkTimer true 5 5 (Some (plain 8%nat))) two_timers 0 6 true)
    as [_ [(s' & He & Hn & _) _]];
    [apply reachable_ok, two_timers_reachable|reflexivity|by split|discriminate|by exists s'].
Defined.

Lemma listExpired_race_witness :
  exists s1, listExpired_empty one_timer = Ret false one_timer /\ cancel 1 one_timer = Ret true s1
    /\ listExpired_locked 9 20 s1 = UB NullDeref.
Proof.
  apply (listExpired_race 9 20 1 (mkTimer false 10 10 (Some (plain 7%nat))) one_timer);
    [apply reachable_ok, one_timer_reachable|reflexivity|reflexivity|discriminate|reflexivity].
Defined.
