(* ===== verification/Http.v ===== *)
(** * Http: the request and response messages of [sylar/http/http.h] and [http.cpp]

    Methods and status codes are the macro tables of the header. The headers,
    parameters and cookies are [std::map]s ordered by [CaseInsensitiveLess]: the
    sorted lists of [Std] over that comparator. [boost::lexical_cast], which is not
    part of the repository, is a parameter of the operations that use it. *)

From S2P Require Import Prelude Std.

(** ** Methods and status codes *)

(* SRC sylar/http/http.h:125-130 HttpMethod *)
Inductive HttpMethod :=
  | DELETE | GET | HEAD | POST | PUT | CONNECT | OPTIONS
  | TRACE | COPY | LOCK | MKCOL | MOVE | PROPFIND | PROPPATCH
  | SEARCH | UNLOCK | BIND | REBIND | UNBIND | ACL | REPORT
  | MKACTIVITY | CHECKOUT | MERGE | MSEARCH | NOTIFY | SUBSCRIBE | UNSUBSCRIBE
  | PATCH | PURGE | MKCALENDAR | LINK | UNLINK | SOURCE | INVALID_METHOD.

#[global] Instance HttpMethod_eq_dec : EqDecision HttpMethod.
Proof. solve_decision. Defined.

(** The rows [XX(num, name, string)]; [num] is the position. *)
(* SRC sylar/http/http.h:19-61 HTTP_METHOD_MAP *)
Definition HTTP_METHOD_MAP : list (HttpMethod * list Z) := [
  (DELETE, str "DELETE");
  (GET, str "GET");
  (HEAD, str "HEAD");
  (POST, str "POST");
  (PUT, str "PUT");
  (CONNECT, str "CONNECT");
  (OPTIONS, str "OPTIONS");
  (TRACE, str "TRACE");
  (COPY, str "COPY");
  (LOCK, str "LOCK");
  (MKCOL, str "MKCOL");
  (MOVE, str "MOVE");
  (PROPFIND, str "PROPFIND");
  (PROPPATCH, str "PROPPATCH");
  (SEARCH, str "SEARCH");
  (UNLOCK, str "UNLOCK");
  (BIND, str "BIND");
  (REBIND, str "REBIND");
  (UNBIND, str "UNBIND");
  (ACL, str "ACL");
  (REPORT, str "REPORT");
  (MKACTIVITY, str "MKACTIVITY");
  (CHECKOUT, str "CHECKOUT");
  (MERGE, str "MERGE");
  (MSEARCH, str "M-SEARCH");
  (NOTIFY, str "NOTIFY");
  (SUBSCRIBE, str "SUBSCRIBE");
  (UNSUBSCRIBE, str "UNSUBSCRIBE");
  (PATCH, str "PATCH");
  (PURGE, str "PURGE");
  (MKCALENDAR, str "MKCALENDAR");
  (LINK, str "LINK");
  (UNLINK, str "UNLINK");
  (SOURCE, str "SOURCE")].

(** The rows [XX(code, name, desc)] as code and description. *)
(* SRC sylar/http/http.h:64-123 HTTP_STATUS_MAP *)
Definition HTTP_STATUS_MAP : list (Z * list Z) := [
  (100, str "Continue");
  (101, str "Switching Protocols");
  (102, str "Processing");
  (200, str "OK");
  (201, str "Created");
  (202, str "Accepted");
  (203, str "Non-Authoritative Information");
  (204, str "No Content");
  (205, str "Reset Content");
  (206, str "Partial Content");
  (207, str "Multi-Status");
  (208, str "Already Reported");
  (226, str "IM Used");
  (300, str "Multiple Choices");
  (301, str "Moved Permanently");
  (302, str "Found");
  (303, str "See Other");
  (304, str "Not Modified");
  (305, str "Use Proxy");
  (307, str "Temporary Redirect");
  (308, str "Permanent Redirect");
  (400, str "Bad Request");
  (401, str "Unauthorized");
  (402, str "Payment Required");
  (403, str "Forbidden");
  (404, str "Not Found");
  (405, str "Method Not Allowed");
  (406, str "Not Acceptable");
  (407, str "Proxy Authentication Required");
  (408, str "Request Timeout");
  (409, str "Conflict");
  (410, str "Gone");
  (411, str "Length Required");
  (412, str "Precondition Failed");
  (413, str "Payload Too Large");
  (414, str "URI Too Long");
  (415, str "Unsupported Media Type");
  (416, str "Range Not Satisfiable");
  (417, str "Expectation Failed");
  (421, str "Misdirected Request");
  (422, str "Unprocessable Entity");
  (423, str "Locked");
  (424, str "Failed Dependency");
  (426, str "Upgrade Required");
  (428, str "Precondition Required");
  (429, str "Too Many Requests");
  (431, str "Request Header Fields Too Large");
  (451, str "Unavailable For Legal Reasons");
  (500, str "Internal Server Error");
  (501, str "Not Implemented");
  (502, str "Bad Gateway");
  (503, str "Service Unavailable");
  (504, str "Gateway Timeout");
  (505, str "HTTP Version Not Supported");
  (506, str "Variant Also Negotiates");
  (507, str "Insufficient Storage");
  (508, str "Loop Detected");
  (510, str "Not Extended");
  (511, str "Network Authentication Required")].

(** An [HttpStatus] holds any [int]: [on_response_status] casts what [atoi] returns. *)
(* SRC sylar/http/http.h:132-136 HttpStatus *)
Definition HttpStatus : Type := Z.

(* SRC sylar/http/http.cpp:8-16 StringToHttpMethod *)
Definition StringToHttpMethod (m : list Z) : HttpMethod :=
  (fix go (tbl : list (HttpMethod * list Z)) :=
     match tbl with
     | [] => INVALID_METHOD
     | (x, name) :: tbl' => match strcmp name m with Eq => x | _ => go tbl' end
     end) HTTP_METHOD_MAP.

(** [m] is what the program owns from the pointer on; [None] when [strncmp] would
    have to read past it. *)
Fixpoint chars_to_method (tbl : list (HttpMethod * list Z)) (m : list Z) : option HttpMethod :=
  match tbl with
  | [] => Some INVALID_METHOD
  | (x, name) :: tbl' =>
      match strncmp_eq name m (length name) with
      | None => None
      | Some true => Some x
      | Some false => chars_to_method tbl' m
      end
  end.

(* SRC sylar/http/http.cpp:18-26 CharsToHttpMethod *)
Definition CharsToHttpMethod (m : list Z) : option HttpMethod := chars_to_method HTTP_METHOD_MAP m.

(** The number of an enumerator. *)
Fixpoint method_index (tbl : list (HttpMethod * list Z)) (m : HttpMethod) : nat :=
  match tbl with
  | [] => 0
  | (x, _) :: tbl' => if decide (x = m) then 0 else S (method_index tbl' m)
  end.

(* SRC sylar/http/http.cpp:28-32 s_method_string *)
Definition s_method_string : list (list Z) := map snd HTTP_METHOD_MAP.

(* SRC sylar/http/http.cpp:34-40 HttpMethodToString *)
Definition HttpMethodToString (m : HttpMethod) : list Z :=
  let idx := method_index HTTP_METHOD_MAP m in
  match s_method_string !! idx with
  | None => str "<unknown>"
  | Some s => s
  end.

Fixpoint status_desc (tbl : list (Z * list Z)) (s : Z) : list Z :=
  match tbl with
  | [] => str "<unknown>"
  | (code, msg) :: tbl' => if s =? code then msg else status_desc tbl' s
  end.

(* SRC sylar/http/http.cpp:42-52 HttpStatusToString *)
Definition HttpStatusToString (s : HttpStatus) : list Z := status_desc HTTP_STATUS_MAP s.

(** ** Case-insensitive maps *)

(* SRC sylar/http/http.cpp:54-57 CaseInsensitiveLess::operator() *)
Definition CaseInsensitiveLess (lhs rhs : list Z) : bool :=
  match strcasecmp lhs rhs with Lt => true | _ => false end.

#[global] Instance CaseInsensitiveLess_swo : StrictWeakOrder CaseInsensitiveLess.
Proof. apply (swo_of_bytes fold_case). Qed.

(* SRC sylar/http/http.h:197-197 MapType *)
Definition MapType : Type := list (list Z * list Z).

(** The lookups [getHeader], [getParam] and [getCookie] share their body, and so do the
    other accessors of the three maps. *)
Definition get_of (m : MapType) (key def : list Z) : list Z :=
  match map_find CaseInsensitiveLess key m with None => def | Some p => p.2 end.

(** [hasX(key, val)]: the result, and what is stored through a non-null [val]. *)
Definition has_of (m : MapType) (key : list Z) (val : option (list Z)) : bool * option (list Z) :=
  match map_find CaseInsensitiveLess key m with
  | None => (false, val)
  | Some p => (true, match val with None => None | Some _ => Some p.2 end)
  end.

Section LexicalCast.
(** [boost::lexical_cast<T>] of a string, [None] when it throws [bad_lexical_cast]. *)
Context {T : Type} (lexical_cast : list Z -> option T).

(* SRC sylar/http/http.h:180-192 getAs *)
Definition getAs (m : MapType) (key : list Z) (def : T) : T :=
  match map_find CaseInsensitiveLess key m with
  | None => def
  | Some p => match lexical_cast p.2 with Some v => v | None => def end
  end.

(** The result and the final value of [val]. The absent key is not returned on:
    [it->second] is then evaluated at [m.end()]. *)
(* SRC sylar/http/http.h:157-171 checkGetAs *)
Definition checkGetAs (m : MapType) (key : list Z) (def : T) : M T bool :=
  let it := map_find CaseInsensitiveLess key m in
  (match it with None => modify (fun _ => def) | Some _ => ret tt end) ;;
  match it with
  | None => fail_with NullDeref
  | Some p =>
      match lexical_cast p.2 with
      | Some v => modify (fun _ => v) ;; ret true
      | None => modify (fun _ => def) ;; ret false
      end
  end.
End LexicalCast.

Definition crlf : list Z := [13; 10].

(** ** Requests *)

(* SRC sylar/http/http.h:273-286 HttpRequest *)
Record HttpRequest := mkRequest {
  m_method : HttpMethod;
  m_version : Z;
  m_close : bool;
  m_path : list Z;
  m_query : list Z;
  m_fragment : list Z;
  m_body : list Z;
  m_headers : MapType;
  m_params : MapType;
  m_cookies : MapType
}.

(* SRC sylar/http/http.cpp:59-64 HttpRequest::HttpRequest *)
Definition new_HttpRequest (version : Z) (close : bool) : HttpRequest :=
  mkRequest GET (u8 version) close (str "/") [] [] [] [] [] [].

(* SRC sylar/http/http.h:209-209 HttpRequest::setMethod *)
Definition setMethod (v : HttpMethod) (r : HttpRequest) : HttpRequest :=
  mkRequest v (m_version r) (m_close r) (m_path r) (m_query r) (m_fragment r) (m_body r)
    (m_headers r) (m_params r) (m_cookies r).
(* SRC sylar/http/http.h:210-210 HttpRequest::setVersion *)
Definition setVersion (v : Z) (r : HttpRequest) : HttpRequest :=
  mkRequest (m_method r) v (m_close r) (m_path r) (m_query r) (m_fragment r) (m_body r)
    (m_headers r) (m_params r) (m_cookies r).
(* SRC sylar/http/http.h:212-212 HttpRequest::setPath *)
Definition setPath (v : list Z) (r : HttpRequest) : HttpRequest :=
  mkRequest (m_method r) (m_version r) (m_close r) v (m_query r) (m_fragment r) (m_body r)
    (m_headers r) (m_params r) (m_cookies r).
(* SRC sylar/http/http.h:213-213 HttpRequest::setQuery *)
Definition setQuery (v : list Z) (r : HttpRequest) : HttpRequest :=
  mkRequest (m_method r) (m_version r) (m_close r) (m_path r) v (m_fragment r) (m_body r)
    (m_headers r) (m_params r) (m_cookies r).
(* SRC sylar/http/http.h:214-214 HttpRequest::setFragment *)
Definition setFragment (v : list Z) (r : HttpRequest) : HttpRequest :=
  mkRequest (m_method r) (m_version r) (m_close r) (m_path r) (m_query r) v (m_body r)
    (m_headers r) (m_params r) (m_cookies r).
(* SRC sylar/http/http.h:215-215 HttpRequest::setBody *)
Definition setBody (v : list Z) (r : HttpRequest) : HttpRequest :=
  mkRequest (m_method r) (m_version r) (m_close r) (m_path r) (m_query r) (m_fragment r) v
    (m_headers r) (m_params r) (m_cookies r).
(* SRC sylar/http/http.h:218-218 HttpRequest::setClose *)
Definition setClose (v : bool) (r : HttpRequest) : HttpRequest :=
  mkRequest (m_method r) (m_version r) v (m_path r) (m_query r) (m_fragment r) (m_body r)
    (m_headers r) (m_params r) (m_cookies r).
(* SRC sylar/http/http.h:220-220 HttpRequest::setHeaders *)
Definition setHeaders (v : MapType) (r : HttpRequest) : HttpRequest :=
  mkRequest (m_method r) (m_version r) (m_close r) (m_path r) (m_query r) (m_fragment r)
    (m_body r) v (m_params r) (m_cookies r).
(* SRC sylar/http/http.h:221-221 HttpRequest::setParams *)
Definition setParams (v : MapType) (r : HttpRequest) : HttpRequest :=
  mkRequest (m_method r) (m_version r) (m_close r) (m_path r) (m_query r) (m_fragment r)
    (m_body r) (m_headers r) v (m_cookies r).
(* SRC sylar/http/http.h:222-222 HttpRequest::setCookies *)
Definition setCookies (v : MapType) (r : HttpRequest) : HttpRequest :=
  mkRequest (m_method r) (m_version r) (m_close r) (m_path r) (m_query r) (m_fragment r)
    (m_body r) (m_headers r) (m_params r) v.

(* SRC sylar/http/http.cpp:66-69 HttpRequest::getHeader *)
Definition getHeader (r : HttpRequest) (key def : list Z) : list Z := get_of (m_headers r) key def.
(* SRC sylar/http/http.cpp:71-74 HttpRequest::getParam *)
Definition getParam (r : HttpRequest) (key def : list Z) : list Z := get_of (m_params r) key def.
(* SRC sylar/http/http.cpp:76-79 HttpRequest::getCookie *)
Definition getCookie (r : HttpRequest) (key def : list Z) : list Z := get_of (m_cookies r) key def.

(* SRC sylar/http/http.cpp:81-83 HttpRequest::setHeader *)
Definition setHeader (key value : list Z) (r : HttpRequest) : HttpRequest :=
  setHeaders (map_assign CaseInsensitiveLess key value (m_headers r)) r.
(* SRC sylar/http/http.cpp:85-87 HttpRequest::setParam *)
Definition setParam (key value : list Z) (r : HttpRequest) : HttpRequest :=
  setParams (map_assign CaseInsensitiveLess key value (m_params r)) r.
(* SRC sylar/http/http.cpp:89-91 HttpRequest::setCookie *)
Definition setCookie (key value : list Z) (r : HttpRequest) : HttpRequest :=
  setCookies (map_assign CaseInsensitiveLess key value (m_cookies r)) r.

(* SRC sylar/http/http.cpp:93-95 HttpRequest::delHeader *)
Definition delHeader (key : list Z) (r : HttpRequest) : HttpRequest :=
  setHeaders (map_erase CaseInsensitiveLess key (m_headers r)) r.
(* SRC sylar/http/http.cpp:97-99 HttpRequest::delParam *)
Definition delParam (key : list Z) (r : HttpRequest) : HttpRequest :=
  setParams (map_erase CaseInsensitiveLess key (m_params r)) r.
(* SRC sylar/http/http.cpp:101-103 HttpRequest::delCookie *)
Definition delCookie (key : list Z) (r : HttpRequest) : HttpRequest :=
  setCookies (map_erase CaseInsensitiveLess key (m_cookies r)) r.

(* SRC sylar/http/http.cpp:105-114 HttpRequest::hasHeader *)
Definition hasHeader (r : HttpRequest) (key : list Z) (val : option (list Z))
  : bool * option (list Z) := has_of (m_headers r) key val.
(* SRC sylar/http/http.cpp:116-125 HttpRequest::hasParam *)
Definition hasParam (r : HttpRequest) (key : list Z) (val : option (list Z))
  : bool * option (list Z) := has_of (m_params r) key val.
(* SRC sylar/http/http.cpp:127-136 HttpRequest::hasCookie *)
Definition hasCookie (r : HttpRequest) (key : list Z) (val : option (list Z))
  : bool * option (list Z) := has_of (m_cookies r) key val.

(** One header line; "connection" in any case is skipped. *)
Definition header_line (sep : list Z) (p : list Z * list Z) : list Z :=
  match strcasecmp p.1 (str "connection") with
  | Eq => []
  | _ => p.1 ++ sep ++ p.2 ++ crlf
  end.

(** The body with its length line, or the empty line. *)
Definition dump_body (body : list Z) : list Z :=
  if bool_decide (body = []) then crlf
  else str "content-length: " ++ decimal (Z.of_nat (length body)) ++ crlf ++ crlf ++ body.

(* SRC sylar/http/http.cpp:138-170 HttpRequest::dump *)
Definition HttpRequest_dump (r : HttpRequest) : list Z :=
  (HttpMethodToString (m_method r) ++ str " "
   ++ m_path r
   ++ (if bool_decide (m_query r = []) then [] else str "?")
   ++ m_query r
   ++ (if bool_decide (m_fragment r = []) then [] else str "#")
   ++ str " HTTP/"
   ++ decimal (u32 (Z.shiftr (m_version r) 4))
   ++ str "."
   ++ decimal (u32 (Z.shiftr (m_version r) 7))
   ++ crlf)
  ++ (str "connection: " ++ (if m_close r then str "close" else str "keep-alive") ++ crlf)
  ++ concat (map (header_line (str ":")) (m_headers r))
  ++ dump_body (m_body r).

(* SRC sylar/http/http.cpp:172-176 HttpRequest::toString *)
Definition HttpRequest_toString (r : HttpRequest) : list Z := HttpRequest_dump r.

(** ** Responses *)

(* SRC sylar/http/http.h:326-333 HttpResponse *)
Record HttpResponse := mkResponse {
  rsp_status : HttpStatus;
  rsp_version : Z;
  rsp_close : bool;
  rsp_body : list Z;
  rsp_reason : list Z;
  rsp_headers : MapType
}.

(* SRC sylar/http/http.cpp:178-182 HttpResponse::HttpResponse *)
Definition new_HttpResponse (version : Z) (close : bool) : HttpResponse :=
  mkResponse 200 (u8 version) close [] [] [].

(* SRC sylar/http/http.h:301-301 HttpResponse::setStatus *)
Definition rsp_setStatus (v : HttpStatus) (r : HttpResponse) : HttpResponse :=
  mkResponse v (rsp_version r) (rsp_close r) (rsp_body r) (rsp_reason r) (rsp_headers r).
(* SRC sylar/http/http.h:302-302 HttpResponse::setVersion *)
Definition rsp_setVersion (v : Z) (r : HttpResponse) : HttpResponse :=
  mkResponse (rsp_status r) v (rsp_close r) (rsp_body r) (rsp_reason r) (rsp_headers r).
(* SRC sylar/http/http.h:303-303 HttpResponse::setBody *)
Definition rsp_setBody (v : list Z) (r : HttpResponse) : HttpResponse :=
  mkResponse (rsp_status r) (rsp_version r) (rsp_close r) v (rsp_reason r) (rsp_headers r).
(* SRC sylar/http/http.h:304-304 HttpResponse::setReason *)
Definition rsp_setReason (v : list Z) (r : HttpResponse) : HttpResponse :=
  mkResponse (rsp_status r) (rsp_version r) (rsp_close r) (rsp_body r) v (rsp_headers r).
(* SRC sylar/http/http.h:305-305 HttpResponse::setHeaders *)
Definition rsp_setHeaders (v : MapType) (r : HttpResponse) : HttpResponse :=
  mkResponse (rsp_status r) (rsp_version r) (rsp_close r) (rsp_body r) (rsp_reason r) v.
(* SRC sylar/http/http.h:308-308 HttpResponse::setClose *)
Definition rsp_setClose (v : bool) (r : HttpResponse) : HttpResponse :=
  mkResponse (rsp_status r) (rsp_version r) v (rsp_body r) (rsp_reason r) (rsp_headers r).

(* SRC sylar/http/http.cpp:184-187 HttpResponse::getHeader *)
Definition rsp_getHeader (r : HttpResponse) (key def : list Z) : list Z :=
  get_of (rsp_headers r) key def.
(* SRC sylar/http/http.cpp:189-191 HttpResponse::setHeader *)
Definition rsp_setHeader (key value : list Z) (r : HttpResponse) : HttpResponse :=
  rsp_setHeaders (map_assign CaseInsensitiveLess key value (rsp_headers r)) r.
(* SRC sylar/http/http.cpp:193-195 HttpResponse::delHeader *)
Definition rsp_delHeader (key : list Z) (r : HttpResponse) : HttpResponse :=
  rsp_setHeaders (map_erase CaseInsensitiveLess key (rsp_headers r)) r.

(* SRC sylar/http/http.cpp:197-222 HttpResponse::dump *)
Definition HttpResponse_dump (r : HttpResponse) : list Z :=
  (str "HTTP/"
   ++ decimal (u32 (Z.shiftr (rsp_version r) 4))
   ++ str "."
   ++ decimal (u32 (Z.shiftr (rsp_version r) 7))
   ++ str " "
   ++ decimal (u32 (rsp_status r))
   ++ str " "
   ++ (if bool_decide (rsp_reason r = []) then HttpStatusToString (rsp_status r)
       else rsp_reason r)
   ++ crlf)
  ++ concat (map (header_line (str ": ")) (rsp_headers r))
  ++ (str "connection: " ++ (if rsp_close r then str "close" else str "keep-alive") ++ crlf)
  ++ dump_body (rsp_body r).

(* SRC sylar/http/http.cpp:224-228 HttpResponse::toString *)
Definition HttpResponse_toString (r : HttpResponse) : list Z := HttpResponse_dump r.

(** ** Methods *)

Lemma strncmp_eq_app s m n rest b :
  strncmp_eq s m n = Some b -> strncmp_eq s (m ++ rest) n = Some b.
Proof.
  revert s m. induction n as [|n IH]; intros s [|y m] H; simpl in *; try done.
  destruct s as [|x s]; [done|]. destruct (x =? y); auto.
Qed.

Lemma chars_to_method_app tbl m rest x :
  chars_to_method tbl m = Some x -> chars_to_method tbl (m ++ rest) = Some x.
Proof.
  induction tbl as [|[y name] tbl IH]; simpl; [done|].
  destruct (strncmp_eq name m (length name)) as [b|] eqn:E; [|done].
  rewrite (strncmp_eq_app _ _ _ rest _ E). destruct b; auto.
Qed.

Lemma chars_to_method_inv tbl m x :
  chars_to_method tbl m = Some x -> x <> INVALID_METHOD ->
  exists name rest, (x, name) ∈ tbl /\ m = name ++ rest.
Proof.
  induction tbl as [|[y name] tbl IH]; simpl; [naive_solver|].
  destruct (strncmp_eq name m (length name)) as [[]|] eqn:E; [| |done].
  - intros [= ->] _. exists name, (drop (length name) m). split; [left|].
    apply strncmp_eq_true in E; [|done]. rewrite firstn_all in E.
    rewrite <- E at 1. by rewrite take_drop.
  - intros H1 H2. destruct (IH H1 H2) as (n & r & ? & ->). exists n, r. split; [by right|done].
Qed.

Lemma method_name_in x name :
  (x, name) ∈ HTTP_METHOD_MAP -> name = HttpMethodToString x.
Proof.
  assert (Forall (fun p => p.2 = HttpMethodToString p.1) HTTP_METHOD_MAP) as H
    by (repeat (constructor; [vm_compute; reflexivity|]); constructor).
  rewrite List.Forall_forall in H. intros Hx. by apply (H _ (proj1 (list_elem_of_In _ _) Hx)).
Qed.

Lemma HttpMethod_chars m rest :
  m <> INVALID_METHOD -> CharsToHttpMethod (HttpMethodToString m ++ rest) = Some m.
Proof.
  intros Hm. apply chars_to_method_app. destruct m; first [vm_compute; reflexivity | done].
Qed.

(** The method names. Every method is recovered from its printed name, by the string
    lookup and, whatever follows the name, by the prefix lookup of the parser;
    conversely a method that the prefix lookup recognises is one whose name starts the
    text, and a name that is not in the table is [INVALID_METHOD]. *)
Theorem HttpMethod_names m rest text :
  (m <> INVALID_METHOD ->
     StringToHttpMethod (HttpMethodToString m) = m
     /\ CharsToHttpMethod (HttpMethodToString m ++ rest) = Some m)
  /\ (CharsToHttpMethod text = Some m -> m <> INVALID_METHOD ->
      exists rest', text = HttpMethodToString m ++ rest')
  /\ HttpMethodToString INVALID_METHOD = str "<unknown>".
Proof.
  split; [|split; [|by vm_compute]].
  - intros Hm. split; [|by apply HttpMethod_chars].
    destruct m; first [vm_compute; reflexivity | done].
  - intros H1 H2. destruct (chars_to_method_inv _ _ _ H1 H2) as (n & r & Hin & ->).
    exists r. by rewrite (method_name_in _ _ Hin).
Qed.

Lemma HttpMethod_names_witness :
  StringToHttpMethod (str "M-SEARCH") = MSEARCH
  /\ CharsToHttpMethod (str "GETTER") = Some GET.
Proof.
  split.
  - apply (HttpMethod_names MSEARCH [] []). vm_compute. discriminate.
  - change (str "GETTER") with (HttpMethodToString GET ++ str "TER").
    apply (HttpMethod_names GET (str "TER") []). discriminate.
Defined.

(** ** Headers, parameters and cookies *)

(** The same header name, up to the case of its letters. *)
Definition same_name (k1 k2 : list Z) : bool := bool_decide (fold_case k1 = fold_case k2).

Lemma same_key_name k1 k2 : same_key CaseInsensitiveLess k1 k2 = same_name k1 k2.
Proof.
  unfold same_key, same_name, CaseInsensitiveLess, strcasecmp.
  rewrite (cmp_bytes_antisym (fold_case k1) (fold_case k2)).
  destruct (cmp_bytes (fold_case k1) (fold_case k2)) eqn:E; simpl.
  - apply cmp_bytes_eq in E. by rewrite bool_decide_eq_true_2.
  - rewrite bool_decide_eq_false_2; [done|]. intros E1. by rewrite E1, cmp_bytes_refl in E.
  - rewrite bool_decide_eq_false_2; [done|]. intros E1. by rewrite E1, cmp_bytes_refl in E.
Qed.

Lemma get_of_assign m k v k' def :
  map_sorted CaseInsensitiveLess m ->
  get_of (map_assign CaseInsensitiveLess k v m) k' def
  = if same_name k k' then v else get_of m k' def.
Proof.
  intros Hs. pose proof (map_find_assign _ k v m k' Hs) as H. rewrite same_key_name in H.
  unfold get_of. destruct (map_find _ k' (map_assign _ k v m)) as [[? ?]|]; simpl in *;
    destruct (same_name k k'); simplify_eq; try done;
    destruct (map_find _ k' m) as [[? ?]|]; simpl in *; by simplify_eq.
Qed.

Lemma get_of_erase m k k' def :
  map_sorted CaseInsensitiveLess m ->
  get_of (map_erase CaseInsensitiveLess k m) k' def
  = if same_name k k' then def else get_of m k' def.
Proof.
  intros Hs. unfold get_of. rewrite (map_find_erase CaseInsensitiveLess) by done. rewrite same_key_name.
  by destruct (same_name k k').
Qed.

(** The invariant of a message: its maps are ordered, as [std::map] keeps them. *)
Definition request_wf (r : HttpRequest) : Prop :=
  map_sorted CaseInsensitiveLess (m_headers r)
  /\ map_sorted CaseInsensitiveLess (m_params r)
  /\ map_sorted CaseInsensitiveLess (m_cookies r).

Lemma new_HttpRequest_wf v c : request_wf (new_HttpRequest v c).
Proof. repeat split; constructor. Qed.

Lemma setHeader_wf k v r : request_wf r -> request_wf (setHeader k v r).
Proof. intros (? & ? & ?). split; simpl; [by apply map_assign_sorted; [apply _|]|by split]. Qed.

Lemma delHeader_wf k r : request_wf r -> request_wf (delHeader k r).
Proof. intros (? & ? & ?). split; simpl; [by apply map_erase_sorted|by split]. Qed.

(** The header map. Setting a header replaces the value of every spelling of its name
    and of no other name; deleting it removes every spelling and no other; a lookup with
    [hasHeader] agrees with [getHeader]; and the maps stay ordered. *)
Theorem headers_spec r key value key' def :
  request_wf r ->
  getHeader (setHeader key value r) key' def
    = (if same_name key key' then value else getHeader r key' def)
  /\ getHeader (delHeader key r) key' def
    = (if same_name key key' then def else getHeader r key' def)
  /\ hasHeader (setHeader key value r) key (Some def) = (true, Some value)
  /\ hasHeader (delHeader key r) key (Some def) = (false, Some def)
  /\ request_wf (setHeader key value r) /\ request_wf (delHeader key r).
Proof.
  intros Hwf. pose proof Hwf as (Hs & _).
  split; [by apply get_of_assign|]. split; [by apply get_of_erase|].
  split; [|split; [|split; [by apply setHeader_wf|by apply delHeader_wf]]].
  - unfold hasHeader, has_of; simpl.
    pose proof (map_find_assign _ key value (m_headers r) key Hs) as H.
    rewrite (same_key_refl CaseInsensitiveLess) in H.
    destruct (map_find _ key _) as [[? ?]|]; simpl in *; by simplify_eq.
  - unfold hasHeader, has_of; simpl.
    rewrite (map_find_erase CaseInsensitiveLess) by done. by rewrite (same_key_refl CaseInsensitiveLess).
Qed.

Lemma headers_spec_witness :
  let r := setHeader (str "Content-Length") (str "4") (new_HttpRequest 17 true) in
  request_wf r
  /\ getHeader (setHeader (str "content-length") (str "7") r) (str "CONTENT-LENGTH") [] = str "7"
  /\ m_headers (setHeader (str "content-length") (str "7") r)
     = [(str "Content-Length", str "7")].
Proof.
  intros r. assert (request_wf r) as Hr by apply setHeader_wf, new_HttpRequest_wf.
  split; [done|]. split; [|by vm_compute].
  rewrite (proj1 (headers_spec r (str "content-length") (str "7")
                    (str "CONTENT-LENGTH") [] Hr)).
  by vm_compute.
Defined.

(** [checkGetAs] on every branch: a present key gives the converted value, or the default
    and [false] when the conversion throws; an absent key is not returned on, and the
    [end()] iterator is dereferenced. [getAs] returns the default there. *)
Theorem checkGetAs_branches {T} (cast : list Z -> option T) m key def val :
  match map_find CaseInsensitiveLess key m with
  | Some p =>
      match cast p.2 with
      | Some v => checkGetAs cast m key def val = Ret true v
      | None => checkGetAs cast m key def val = Ret false def
      end
      /\ getAs cast m key def = default def (cast p.2)
  | None => checkGetAs cast m key def val = UB NullDeref /\ getAs cast m key def = def
  end.
Proof.
  unfold checkGetAs, getAs.
  destruct (map_find CaseInsensitiveLess key m) as [[k v]|]; simpl; [|done].
  by destruct (cast v).
Qed.

(** ** Printed messages *)

(** The printed version: for each of the versions the parsers produce, 1.0 and 1.1, the
    start line printed for a message names version 1.0. *)
Theorem dump_version r p :
  m_version r = 16 \/ m_version r = 17 ->
  rsp_version p = 16 \/ rsp_version p = 17 ->
  (exists before after, HttpRequest_dump r = before ++ str " HTTP/1.0" ++ crlf ++ after
     /\ before = HttpMethodToString (m_method r) ++ str " " ++ m_path r
          ++ (if bool_decide (m_query r = []) then [] else str "?" ++ m_query r)
          ++ (if bool_decide (m_fragment r = []) then [] else str "#"))
  /\ exists after, HttpResponse_dump p = str "HTTP/1.0 " ++ after.
Proof.
  intros Hr Hp. split.
  - eexists _, _. split; [|reflexivity]. unfold HttpRequest_dump.
    replace (decimal (u32 (Z.shiftr (m_version r) 4)) ) with (str "1")
      by (destruct Hr as [-> | ->]; by vm_compute).
    replace (decimal (u32 (Z.shiftr (m_version r) 7)) ) with (str "0")
      by (destruct Hr as [-> | ->]; by vm_compute).
    change (str " HTTP/1.0") with (str " HTTP/" ++ str "1" ++ str "." ++ str "0").
    rewrite <- !app_assoc. do 3 f_equal.
    destruct (bool_decide (m_query r = [])) eqn:E; [|by rewrite <- !app_assoc].
    apply bool_decide_eq_true in E. by rewrite E.
  - unfold HttpResponse_dump.
    replace (decimal (u32 (Z.shiftr (rsp_version p) 4)) ) with (str "1")
      by (destruct Hp as [-> | ->]; by vm_compute).
    replace (decimal (u32 (Z.shiftr (rsp_version p) 7)) ) with (str "0")
      by (destruct Hp as [-> | ->]; by vm_compute).
    change (str "HTTP/1.0 ") with (str "HTTP/" ++ str "1" ++ str "." ++ str "0" ++ str " ").
    rewrite <- !app_assoc. eexists. reflexivity.
Qed.

Lemma dump_version_witness :
  m_version (new_HttpRequest 17 true) = 17 /\ rsp_version (new_HttpResponse 17 true) = 17
  /\ exists after, HttpResponse_dump (new_HttpResponse 17 true) = str "HTTP/1.0 " ++ after.
Proof.
  split; [done|]. split; [done|].
  apply (dump_version (new_HttpRequest 17 true) (new_HttpResponse 17 true)); right; done.
Defined.
