(* ===== verification/HttpParserTable.v ===== *)
(** * HttpParserTable: the automaton of [sylar/http/http11_parser.rl.cpp]

    The body of [http_parser_execute] between [switch ( cs )] and [_test_eof] is goto
    code. Each label [trN], the actions of a transition followed by [goto stM], is the
    definition [trN]; each [case N], the decision on the next character, is [case_N]; and
    [step] is the [switch]. A character is a [char], signed on the platforms of the
    [Endian.Host] class, so its value is between -128 and 127. *)

From S2P Require Import Prelude.

#[local] Open Scope bool_scope.

(** The action blocks of the transitions, by the names of the grammar. *)
Inductive action :=
  | a_mark | a_start_field | a_write_field | a_http_field
  | a_request_method | a_request_uri | a_fragment | a_start_query | a_query_string
  | a_http_version | a_request_path | a_xml | a_json | a_done.

(** Where a transition goes: its actions, then [goto st<dest>]. *)
Record goto := go { acts : list action; dest : Z }.

Definition st (n : Z) : goto := go [] n.

(** [_widec = (short)(128 + ( *p - -128 )); if (parser->uri_relaxed) _widec += 256;] *)
Definition widen (uri_relaxed : bool) (c : Z) : Z :=
  let w := s16 (128 + (c - -128)) in if uri_relaxed then s16 (w + 256) else w.

(* SRC sylar/http/http11_parser.rl.cpp:131-134 http_parser_execute, label tr0 *)
Definition tr0 : goto := go [a_mark] 2.
(* SRC sylar/http/http11_parser.rl.cpp:3721-3724 http_parser_execute, label tr2 *)
Definition tr2 : goto := go [a_mark] 194.
(* SRC sylar/http/http11_parser.rl.cpp:3835-3838 http_parser_execute, label tr3 *)
Definition tr3 : goto := go [a_mark] 198.
(* SRC sylar/http/http11_parser.rl.cpp:148-154 http_parser_execute, label tr4 *)
Definition tr4 : goto := go [a_request_method] 3.
(* SRC sylar/http/http11_parser.rl.cpp:206-219 http_parser_execute, label tr6 *)
Definition tr6 : goto := go [a_mark; a_request_path; a_request_uri] 4.
(* SRC sylar/http/http11_parser.rl.cpp:629-632 http_parser_execute, label tr7 *)
Definition tr7 : goto := go [a_mark] 19.
(* SRC sylar/http/http11_parser.rl.cpp:683-696 http_parser_execute, label tr8 *)
Definition tr8 : goto := go [a_mark; a_request_path; a_request_uri] 20.
(* SRC sylar/http/http11_parser.rl.cpp:868-871 http_parser_execute, label tr9 *)
Definition tr9 : goto := go [a_mark] 24.
(* SRC sylar/http/http11_parser.rl.cpp:1136-1139 http_parser_execute, label tr10 *)
Definition tr10 : goto := go [a_mark] 33.
(* SRC sylar/http/http11_parser.rl.cpp:985-993 http_parser_execute, label tr11 *)
Definition tr11 : goto := go [a_mark; a_request_path] 29.
(* SRC sylar/http/http11_parser.rl.cpp:3387-3390 http_parser_execute, label tr12 *)
Definition tr12 : goto := go [a_mark] 173.
(* SRC sylar/http/http11_parser.rl.cpp:282-285 http_parser_execute, label tr13 *)
Definition tr13 : goto := go [a_mark] 5.
(* SRC sylar/http/http11_parser.rl.cpp:345-351 http_parser_execute, label tr21 *)
Definition tr21 : goto := go [a_http_version] 13.
(* SRC sylar/http/http11_parser.rl.cpp:485-491 http_parser_execute, label tr22 *)
Definition tr22 : goto := go [a_http_version] 17.
(* SRC sylar/http/http11_parser.rl.cpp:406-409 http_parser_execute, label tr23 *)
Definition tr23 : goto := go [a_start_field] 14.
(* SRC sylar/http/http11_parser.rl.cpp:518-536 http_parser_execute, label tr24 *)
Definition tr24 : goto := go [a_start_field; a_done] 348.
(* SRC sylar/http/http11_parser.rl.cpp:589-592 http_parser_execute, label tr25 *)
Definition tr25 : goto := go [a_start_field] 18.
(* SRC sylar/http/http11_parser.rl.cpp:445-450 http_parser_execute, label tr27 *)
Definition tr27 : goto := go [a_write_field] 15.
(* SRC sylar/http/http11_parser.rl.cpp:469-472 http_parser_execute, label tr28 *)
Definition tr28 : goto := go [a_mark] 16.
(* SRC sylar/http/http11_parser.rl.cpp:451-454 http_parser_execute, label tr29 *)
Definition tr29 : goto := go [a_mark] 15.
(* SRC sylar/http/http11_parser.rl.cpp:352-361 http_parser_execute, label tr30 *)
Definition tr30 : goto := go [a_mark; a_http_field] 13.
(* SRC sylar/http/http11_parser.rl.cpp:492-501 http_parser_execute, label tr31 *)
Definition tr31 : goto := go [a_mark; a_http_field] 17.
(* SRC sylar/http/http11_parser.rl.cpp:362-369 http_parser_execute, label tr33 *)
Definition tr33 : goto := go [a_http_field] 13.
(* SRC sylar/http/http11_parser.rl.cpp:502-509 http_parser_execute, label tr34 *)
Definition tr34 : goto := go [a_http_field] 17.
(* SRC sylar/http/http11_parser.rl.cpp:537-553 http_parser_execute, label tr36 *)
Definition tr36 : goto := go [a_done] 348.
(* SRC sylar/http/http11_parser.rl.cpp:220-231 http_parser_execute, label tr37 *)
Definition tr37 : goto := go [a_request_path; a_request_uri] 4.
(* SRC sylar/http/http11_parser.rl.cpp:697-708 http_parser_execute, label tr39 *)
Definition tr39 : goto := go [a_request_path; a_request_uri] 20.
(* SRC sylar/http/http11_parser.rl.cpp:994-1000 http_parser_execute, label tr42 *)
Definition tr42 : goto := go [a_request_path] 29.
(* SRC sylar/http/http11_parser.rl.cpp:784-787 http_parser_execute, label tr43 *)
Definition tr43 : goto := go [a_mark] 21.
(* SRC sylar/http/http11_parser.rl.cpp:232-240 http_parser_execute, label tr44 *)
Definition tr44 : goto := go [a_mark; a_fragment] 4.
(* SRC sylar/http/http11_parser.rl.cpp:837-840 http_parser_execute, label tr45 *)
Definition tr45 : goto := go [a_mark] 22.
(* SRC sylar/http/http11_parser.rl.cpp:241-247 http_parser_execute, label tr47 *)
Definition tr47 : goto := go [a_fragment] 4.
(* SRC sylar/http/http11_parser.rl.cpp:1051-1054 http_parser_execute, label tr53 *)
Definition tr53 : goto := go [a_start_query] 30.
(* SRC sylar/http/http11_parser.rl.cpp:248-261 http_parser_execute, label tr54 *)
Definition tr54 : goto := go [a_start_query; a_query_string; a_request_uri] 4.
(* SRC sylar/http/http11_parser.rl.cpp:709-722 http_parser_execute, label tr55 *)
Definition tr55 : goto := go [a_start_query; a_query_string; a_request_uri] 20.
(* SRC sylar/http/http11_parser.rl.cpp:1105-1108 http_parser_execute, label tr56 *)
Definition tr56 : goto := go [a_start_query] 31.
(* SRC sylar/http/http11_parser.rl.cpp:262-273 http_parser_execute, label tr58 *)
Definition tr58 : goto := go [a_query_string; a_request_uri] 4.
(* SRC sylar/http/http11_parser.rl.cpp:723-734 http_parser_execute, label tr59 *)
Definition tr59 : goto := go [a_query_string; a_request_uri] 20.
(* SRC sylar/http/http11_parser.rl.cpp:899-902 http_parser_execute, label tr203 *)
Definition tr203 : goto := go [a_mark] 26.
(* SRC sylar/http/http11_parser.rl.cpp:954-957 http_parser_execute, label tr204 *)
Definition tr204 : goto := go [a_mark] 27.
(* SRC sylar/http/http11_parser.rl.cpp:3763-3769 http_parser_execute, label tr224 *)
Definition tr224 : goto := go [a_request_path] 196.
(* SRC sylar/http/http11_parser.rl.cpp:3787-3807 http_parser_execute, label tr227 *)
Definition tr227 : goto := go [a_xml; a_done] 349.
(* SRC sylar/http/http11_parser.rl.cpp:3887-3893 http_parser_execute, label tr228 *)
Definition tr228 : goto := go [a_request_path] 199.
(* SRC sylar/http/http11_parser.rl.cpp:3902-3905 http_parser_execute, label tr232 *)
Definition tr232 : goto := go [a_mark] 200.
(* SRC sylar/http/http11_parser.rl.cpp:3808-3828 http_parser_execute, label tr235 *)
Definition tr235 : goto := go [a_json; a_done] 349.
(* SRC sylar/http/http11_parser.rl.cpp:117-127 http_parser_execute, case 1 *)
Definition case_1 (uri_relaxed : bool) (c : Z) : goto :=
  match c with
  | 60 => tr2
  | 64 => tr3
  | _ =>
  if (c >? 57)
  then if (65 <=? c) && (c <=? 90) then tr0 else st 0
  else if (c >=? 48) then tr0 else st 0
  end.
(* SRC sylar/http/http11_parser.rl.cpp:135-147 http_parser_execute, case 2 *)
Definition case_2 (uri_relaxed : bool) (c : Z) : goto :=
  if (c =? 32)
  then tr4
  else if (c >? 57)
    then if (65 <=? c) && (c <=? 90) then st 175 else st 0
    else if (c >=? 48) then st 175 else st 0.
(* SRC sylar/http/http11_parser.rl.cpp:155-205 http_parser_execute, case 3 *)
Definition case_3 (uri_relaxed : bool) (c : Z) : goto :=
  let _widec := if (c <? 123)
  then if (94 <=? c) && (c <=? 94) then widen uri_relaxed c else c
  else if (c >? 123)
    then if (125 <=? c) && (c <=? 125) then widen uri_relaxed c else c
    else widen uri_relaxed c in
  match _widec with
  | 32 => tr6
  | 33 => tr7
  | 35 => tr8
  | 37 => tr9
  | 47 => tr10
  | 59 => tr7
  | 61 => tr7
  | 63 => tr11
  | 64 => tr7
  | 95 => tr7
  | 126 => tr7
  | 606 => tr7
  | 635 => tr7
  | 637 => tr7
  | _ =>
  if (_widec <? 65)
  then if (36 <=? _widec) && (_widec <=? 57) then tr7 else st 0
  else if (_widec >? 90) then if (97 <=? _widec) && (_widec <=? 122) then tr12 else st 0 else tr12
  end.
(* SRC sylar/http/http11_parser.rl.cpp:274-281 http_parser_execute, case 4 *)
Definition case_4 (uri_relaxed : bool) (c : Z) : goto :=
  if (c =? 72) then tr13 else st 0.
(* SRC sylar/http/http11_parser.rl.cpp:286-293 http_parser_execute, case 5 *)
Definition case_5 (uri_relaxed : bool) (c : Z) : goto :=
  if (c =? 84) then st 6 else st 0.
(* SRC sylar/http/http11_parser.rl.cpp:294-300 http_parser_execute, case 6 *)
Definition case_6 (uri_relaxed : bool) (c : Z) : goto :=
  if (c =? 84) then st 7 else st 0.
(* SRC sylar/http/http11_parser.rl.cpp:301-307 http_parser_execute, case 7 *)
Definition case_7 (uri_relaxed : bool) (c : Z) : goto :=
  if (c =? 80) then st 8 else st 0.
(* SRC sylar/http/http11_parser.rl.cpp:308-314 http_parser_execute, case 8 *)
Definition case_8 (uri_relaxed : bool) (c : Z) : goto :=
  if (c =? 47) then st 9 else st 0.
(* SRC sylar/http/http11_parser.rl.cpp:315-321 http_parser_execute, case 9 *)
Definition case_9 (uri_relaxed : bool) (c : Z) : goto :=
  if (c =? 49) then st 10 else st 0.
(* SRC sylar/http/http11_parser.rl.cpp:322-328 http_parser_execute, case 10 *)
Definition case_10 (uri_relaxed : bool) (c : Z) : goto :=
  if (c =? 46) then st 11 else st 0.
(* SRC sylar/http/http11_parser.rl.cpp:329-335 http_parser_execute, case 11 *)
Definition case_11 (uri_relaxed : bool) (c : Z) : goto :=
  if (48 <=? c) && (c <=? 49) then st 12 else st 0.
(* SRC sylar/http/http11_parser.rl.cpp:336-344 http_parser_execute, case 12 *)
Definition case_12 (uri_relaxed : bool) (c : Z) : goto :=
  match c with
  | 10 => tr21
  | 13 => tr22
  | _ =>
  st 0
  end.
(* SRC sylar/http/http11_parser.rl.cpp:370-405 http_parser_execute, case 13 *)
Definition case_13 (uri_relaxed : bool) (c : Z) : goto :=
  match c with
  | 10 => tr24
  | 13 => tr25
  | 33 => tr23
  | 124 => tr23
  | 126 => tr23
  | _ =>
  if (c <? 42)
  then (if (c <? 11)
    then if (1 <=? c) && (c <=? 8) then tr23 else st 0
    else if (c >? 31) then if (35 <=? c) && (c <=? 39) then tr23 else st 0 else tr23)
  else if (c >? 43)
    then (if (c <? 48)
      then if (45 <=? c) && (c <=? 46) then tr23 else st 0
      else if (c >? 57)
        then (if (c >? 90)
          then if (94 <=? c) && (c <=? 122) then tr23 else st 0
          else if (c >=? 65) then tr23 else st 0)
        else tr23)
    else tr23
  end.
(* SRC sylar/http/http11_parser.rl.cpp:410-444 http_parser_execute, case 14 *)
Definition case_14 (uri_relaxed : bool) (c : Z) : goto :=
  match c with
  | 33 => st 14
  | 58 => tr27
  | 124 => st 14
  | 126 => st 14
  | _ =>
  if (c <? 42)
  then (if (c <? 10)
    then if (1 <=? c) && (c <=? 8) then st 14 else st 0
    else if (c >? 31) then if (35 <=? c) && (c <=? 39) then st 14 else st 0 else st 14)
  else if (c >? 43)
    then (if (c <? 48)
      then if (45 <=? c) && (c <=? 46) then st 14 else st 0
      else if (c >? 57)
        then (if (c >? 90)
          then if (94 <=? c) && (c <=? 122) then st 14 else st 0
          else if (c >=? 65) then st 14 else st 0)
        else st 14)
    else st 14
  end.
(* SRC sylar/http/http11_parser.rl.cpp:455-468 http_parser_execute, case 15 *)
Definition case_15 (uri_relaxed : bool) (c : Z) : goto :=
  match c with
  | 0 => st 0
  | 9 => tr29
  | 10 => tr30
  | 13 => tr31
  | 32 => tr29
  | 127 => st 0
  | _ =>
  tr28
  end.
(* SRC sylar/http/http11_parser.rl.cpp:473-484 http_parser_execute, case 16 *)
Definition case_16 (uri_relaxed : bool) (c : Z) : goto :=
  match c with
  | 0 => st 0
  | 10 => tr33
  | 13 => tr34
  | 127 => st 0
  | _ =>
  st 16
  end.
(* SRC sylar/http/http11_parser.rl.cpp:510-517 http_parser_execute, case 17 *)
Definition case_17 (uri_relaxed : bool) (c : Z) : goto :=
  if (c =? 10) then st 13 else st 0.
(* SRC sylar/http/http11_parser.rl.cpp:593-628 http_parser_execute, case 18 *)
Definition case_18 (uri_relaxed : bool) (c : Z) : goto :=
  match c with
  | 10 => tr36
  | 33 => st 14
  | 58 => tr27
  | 124 => st 14
  | 126 => st 14
  | _ =>
  if (c <? 42)
  then (if (c <? 11)
    then if (1 <=? c) && (c <=? 8) then st 14 else st 0
    else if (c >? 31) then if (35 <=? c) && (c <=? 39) then st 14 else st 0 else st 14)
  else if (c >? 43)
    then (if (c <? 48)
      then if (45 <=? c) && (c <=? 46) then st 14 else st 0
      else if (c >? 57)
        then (if (c >? 90)
          then if (94 <=? c) && (c <=? 122) then st 14 else st 0
          else if (c >=? 65) then st 14 else st 0)
        else st 14)
    else st 14
  end.
(* SRC sylar/http/http11_parser.rl.cpp:633-682 http_parser_execute, case 19 *)
Definition case_19 (uri_relaxed : bool) (c : Z) : goto :=
  let _widec := if (c <? 123)
  then if (94 <=? c) && (c <=? 94) then widen uri_relaxed c else c
  else if (c >? 123)
    then if (125 <=? c) && (c <=? 125) then widen uri_relaxed c else c
    else widen uri_relaxed c in
  match _widec with
  | 32 => tr37
  | 33 => st 19
  | 35 => tr39
  | 37 => st 24
  | 47 => st 26
  | 59 => st 19
  | 61 => st 19
  | 63 => tr42
  | 95 => st 19
  | 126 => st 19
  | 606 => st 19
  | 635 => st 19
  | 637 => st 19
  | _ =>
  if (_widec <? 64)
  then if (36 <=? _widec) && (_widec <=? 57) then st 19 else st 0
  else if (_widec >? 90) then if (97 <=? _widec) && (_widec <=? 122) then st 19 else st 0 else st 19
  end.
(* SRC sylar/http/http11_parser.rl.cpp:735-783 http_parser_execute, case 20 *)
Definition case_20 (uri_relaxed : bool) (c : Z) : goto :=
  let _widec := if (c <? 123)
  then if (94 <=? c) && (c <=? 94) then widen uri_relaxed c else c
  else if (c >? 123)
    then if (125 <=? c) && (c <=? 125) then widen uri_relaxed c else c
    else widen uri_relaxed c in
  match _widec with
  | 32 => tr44
  | 33 => tr43
  | 37 => tr45
  | 61 => tr43
  | 95 => tr43
  | 126 => tr43
  | 606 => tr43
  | 635 => tr43
  | 637 => tr43
  | _ =>
  if (_widec <? 36)
  then if (_widec <=? (-1)) then tr43 else st 0
  else if (_widec >? 59)
    then (if (_widec >? 90)
      then if (97 <=? _widec) && (_widec <=? 122) then tr43 else st 0
      else if (_widec >=? 63) then tr43 else st 0)
    else tr43
  end.
(* SRC sylar/http/http11_parser.rl.cpp:788-836 http_parser_execute, case 21 *)
Definition case_21 (uri_relaxed : bool) (c : Z) : goto :=
  let _widec := if (c <? 123)
  then if (94 <=? c) && (c <=? 94) then widen uri_relaxed c else c
  else if (c >? 123)
    then if (125 <=? c) && (c <=? 125) then widen uri_relaxed c else c
    else widen uri_relaxed c in
  match _widec with
  | 32 => tr47
  | 33 => st 21
  | 37 => st 22
  | 61 => st 21
  | 95 => st 21
  | 126 => st 21
  | 606 => st 21
  | 635 => st 21
  | 637 => st 21
  | _ =>
  if (_widec <? 36)
  then if (_widec <=? (-1)) then st 21 else st 0
  else if (_widec >? 59)
    then (if (_widec >? 90)
      then if (97 <=? _widec) && (_widec <=? 122) then st 21 else st 0
      else if (_widec >=? 63) then st 21 else st 0)
    else st 21
  end.
(* SRC sylar/http/http11_parser.rl.cpp:841-854 http_parser_execute, case 22 *)
Definition case_22 (uri_relaxed : bool) (c : Z) : goto :=
  if (c <? 65)
  then if (48 <=? c) && (c <=? 57) then st 23 else st 0
  else if (c >? 70) then if (97 <=? c) && (c <=? 102) then st 23 else st 0 else st 23.
(* SRC sylar/http/http11_parser.rl.cpp:855-867 http_parser_execute, case 23 *)
Definition case_23 (uri_relaxed : bool) (c : Z) : goto :=
  if (c <? 65)
  then if (48 <=? c) && (c <=? 57) then st 21 else st 0
  else if (c >? 70) then if (97 <=? c) && (c <=? 102) then st 21 else st 0 else st 21.
(* SRC sylar/http/http11_parser.rl.cpp:872-885 http_parser_execute, case 24 *)
Definition case_24 (uri_relaxed : bool) (c : Z) : goto :=
  if (c <? 65)
  then if (48 <=? c) && (c <=? 57) then st 25 else st 0
  else if (c >? 70) then if (97 <=? c) && (c <=? 102) then st 25 else st 0 else st 25.
(* SRC sylar/http/http11_parser.rl.cpp:886-898 http_parser_execute, case 25 *)
Definition case_25 (uri_relaxed : bool) (c : Z) : goto :=
  if (c <? 65)
  then if (48 <=? c) && (c <=? 57) then st 19 else st 0
  else if (c >? 70) then if (97 <=? c) && (c <=? 102) then st 19 else st 0 else st 19.
(* SRC sylar/http/http11_parser.rl.cpp:903-953 http_parser_execute, case 26 *)
Definition case_26 (uri_relaxed : bool) (c : Z) : goto :=
  let _widec := if (c <? 123)
  then if (94 <=? c) && (c <=? 94) then widen uri_relaxed c else c
  else if (c >? 123)
    then if (125 <=? c) && (c <=? 125) then widen uri_relaxed c else c
    else widen uri_relaxed c in
  match _widec with
  | 32 => tr37
  | 33 => st 26
  | 35 => tr39
  | 37 => st 27
  | 61 => st 26
  | 63 => tr42
  | 95 => st 26
  | 126 => st 26
  | 606 => st 26
  | 635 => st 26
  | 637 => st 26
  | _ =>
  if (_widec <? 36)
  then if (_widec <=? (-1)) then st 26 else st 0
  else if (_widec >? 59)
    then (if (_widec >? 90)
      then if (97 <=? _widec) && (_widec <=? 122) then st 26 else st 0
      else if (_widec >=? 64) then st 26 else st 0)
    else st 26
  end.
(* SRC sylar/http/http11_parser.rl.cpp:958-971 http_parser_execute, case 27 *)
Definition case_27 (uri_relaxed : bool) (c : Z) : goto :=
  if (c <? 65)
  then if (48 <=? c) && (c <=? 57) then st 28 else st 0
  else if (c >? 70) then if (97 <=? c) && (c <=? 102) then st 28 else st 0 else st 28.
(* SRC sylar/http/http11_parser.rl.cpp:972-984 http_parser_execute, case 28 *)
Definition case_28 (uri_relaxed : bool) (c : Z) : goto :=
  if (c <? 65)
  then if (48 <=? c) && (c <=? 57) then st 26 else st 0
  else if (c >? 70) then if (97 <=? c) && (c <=? 102) then st 26 else st 0 else st 26.
(* SRC sylar/http/http11_parser.rl.cpp:1001-1050 http_parser_execute, case 29 *)
Definition case_29 (uri_relaxed : bool) (c : Z) : goto :=
  let _widec := if (c <? 123)
  then if (94 <=? c) && (c <=? 94) then widen uri_relaxed c else c
  else if (c >? 123)
    then if (125 <=? c) && (c <=? 125) then widen uri_relaxed c else c
    else widen uri_relaxed c in
  match _widec with
  | 32 => tr54
  | 33 => tr53
  | 35 => tr55
  | 37 => tr56
  | 61 => tr53
  | 95 => tr53
  | 126 => tr53
  | 606 => tr53
  | 635 => tr53
  | 637 => tr53
  | _ =>
  if (_widec <? 36)
  then if (_widec <=? (-1)) then tr53 else st 0
  else if (_widec >? 59)
    then (if (_widec >? 90)
      then if (97 <=? _widec) && (_widec <=? 122) then tr53 else st 0
      else if (_widec >=? 63) then tr53 else st 0)
    else tr53
  end.
(* SRC sylar/http/http11_parser.rl.cpp:1055-1104 http_parser_execute, case 30 *)
Definition case_30 (uri_relaxed : bool) (c : Z) : goto :=
  let _widec := if (c <? 123)
  then if (94 <=? c) && (c <=? 94) then widen uri_relaxed c else c
  else if (c >? 123)
    then if (125 <=? c) && (c <=? 125) then widen uri_relaxed c else c
    else widen uri_relaxed c in
  match _widec with
  | 32 => tr58
  | 33 => st 30
  | 35 => tr59
  | 37 => st 31
  | 61 => st 30
  | 95 => st 30
  | 126 => st 30
  | 606 => st 30
  | 635 => st 30
  | 637 => st 30
  | _ =>
  if (_widec <? 36)
  then if (_widec <=? (-1)) then st 30 else st 0
  else if (_widec >? 59)
    then (if (_widec >? 90)
      then if (97 <=? _widec) && (_widec <=? 122) then st 30 else st 0
      else if (_widec >=? 63) then st 30 else st 0)
    else st 30
  end.
(* SRC sylar/http/http11_parser.rl.cpp:1109-1122 http_parser_execute, case 31 *)
Definition case_31 (uri_relaxed : bool) (c : Z) : goto :=
  if (c <? 65)
  then if (48 <=? c) && (c <=? 57) then st 32 else st 0
  else if (c >? 70) then if (97 <=? c) && (c <=? 102) then st 32 else st 0 else st 32.
(* SRC sylar/http/http11_parser.rl.cpp:1123-1135 http_parser_execute, case 32 *)
Definition case_32 (uri_relaxed : bool) (c : Z) : goto :=
  if (c <? 65)
  then if (48 <=? c) && (c <=? 57) then st 30 else st 0
  else if (c >? 70) then if (97 <=? c) && (c <=? 102) then st 30 else st 0 else st 30.
(* SRC sylar/http/http11_parser.rl.cpp:1140-1191 http_parser_execute, case 33 *)
Definition case_33 (uri_relaxed : bool) (c : Z) : goto :=
  let _widec := if (c <? 123)
  then if (94 <=? c) && (c <=? 94) then widen uri_relaxed c else c
  else if (c >? 123)
    then if (125 <=? c) && (c <=? 125) then widen uri_relaxed c else c
    else widen uri_relaxed c in
  match _widec with
  | 32 => tr37
  | 33 => st 26
  | 35 => tr39
  | 37 => st 27
  | 47 => st 34
  | 61 => st 26
  | 63 => tr42
  | 95 => st 26
  | 126 => st 26
  | 606 => st 26
  | 635 => st 26
  | 637 => st 26
  | _ =>
  if (_widec <? 36)
  then if (_widec <=? (-1)) then st 26 else st 0
  else if (_widec >? 59)
    then (if (_widec >? 90)
      then if (97 <=? _widec) && (_widec <=? 122) then st 26 else st 0
      else if (_widec >=? 64) then st 26 else st 0)
    else st 26
  end.
(* SRC sylar/http/http11_parser.rl.cpp:1192-1242 http_parser_execute, case 34 *)
Definition case_34 (uri_relaxed : bool) (c : Z) : goto :=
  let _widec := if (c <? 123)
  then if (94 <=? c) && (c <=? 94) then widen uri_relaxed c else c
  else if (c >? 123)
    then if (125 <=? c) && (c <=? 125) then widen uri_relaxed c else c
    else widen uri_relaxed c in
  match _widec with
  | 32 => tr37
  | 33 => st 35
  | 35 => tr39
  | 37 => st 36
  | 47 => st 26
  | 58 => st 38
  | 61 => st 35
  | 63 => tr42
  | 64 => st 42
  | 91 => st 47
  | 95 => st 35
  | 126 => st 35
  | 606 => st 35
  | 635 => st 35
  | 637 => st 35
  | _ =>
  if (_widec <? 65)
  then if (36 <=? _widec) && (_widec <=? 59) then st 35 else st 0
  else if (_widec >? 90) then if (97 <=? _widec) && (_widec <=? 122) then st 35 else st 0 else st 35
  end.
(* SRC sylar/http/http11_parser.rl.cpp:1243-1292 http_parser_execute, case 35 *)
Definition case_35 (uri_relaxed : bool) (c : Z) : goto :=
  let _widec := if (c <? 123)
  then if (94 <=? c) && (c <=? 94) then widen uri_relaxed c else c
  else if (c >? 123)
    then if (125 <=? c) && (c <=? 125) then widen uri_relaxed c else c
    else widen uri_relaxed c in
  match _widec with
  | 32 => tr37
  | 33 => st 35
  | 35 => tr39
  | 37 => st 36
  | 47 => st 26
  | 58 => st 38
  | 61 => st 35
  | 63 => tr42
  | 64 => st 42
  | 95 => st 35
  | 126 => st 35
  | 606 => st 35
  | 635 => st 35
  | 637 => st 35
  | _ =>
  if (_widec <? 65)
  then if (36 <=? _widec) && (_widec <=? 59) then st 35 else st 0
  else if (_widec >? 90) then if (97 <=? _widec) && (_widec <=? 122) then st 35 else st 0 else st 35
  end.
(* SRC sylar/http/http11_parser.rl.cpp:1293-1305 http_parser_execute, case 36 *)
Definition case_36 (uri_relaxed : bool) (c : Z) : goto :=
  if (c <? 65)
  then if (48 <=? c) && (c <=? 57) then st 37 else st 0
  else if (c >? 70) then if (97 <=? c) && (c <=? 102) then st 37 else st 0 else st 37.
(* SRC sylar/http/http11_parser.rl.cpp:1306-1318 http_parser_execute, case 37 *)
Definition case_37 (uri_relaxed : bool) (c : Z) : goto :=
  if (c <? 65)
  then if (48 <=? c) && (c <=? 57) then st 35 else st 0
  else if (c >? 70) then if (97 <=? c) && (c <=? 102) then st 35 else st 0 else st 35.
(* SRC sylar/http/http11_parser.rl.cpp:1319-1373 http_parser_execute, case 38 *)
Definition case_38 (uri_relaxed : bool) (c : Z) : goto :=
  let _widec := if (c <? 123)
  then if (94 <=? c) && (c <=? 94) then widen uri_relaxed c else c
  else if (c >? 123)
    then if (125 <=? c) && (c <=? 125) then widen uri_relaxed c else c
    else widen uri_relaxed c in
  match _widec with
  | 32 => tr37
  | 33 => st 39
  | 35 => tr39
  | 37 => st 40
  | 47 => st 26
  | 61 => st 39
  | 63 => tr42
  | 64 => st 42
  | 95 => st 39
  | 126 => st 39
  | 606 => st 39
  | 635 => st 39
  | 637 => st 39
  | _ =>
  if (_widec <? 58)
  then (if (_widec >? 46)
    then if (48 <=? _widec) && (_widec <=? 57) then st 38 else st 0
    else if (_widec >=? 36) then st 39 else st 0)
  else if (_widec >? 59)
    then (if (_widec >? 90)
      then if (97 <=? _widec) && (_widec <=? 122) then st 39 else st 0
      else if (_widec >=? 65) then st 39 else st 0)
    else st 39
  end.
(* SRC sylar/http/http11_parser.rl.cpp:1374-1421 http_parser_execute, case 39 *)
Definition case_39 (uri_relaxed : bool) (c : Z) : goto :=
  let _widec := if (c <? 123)
  then if (94 <=? c) && (c <=? 94) then widen uri_relaxed c else c
  else if (c >? 123)
    then if (125 <=? c) && (c <=? 125) then widen uri_relaxed c else c
    else widen uri_relaxed c in
  match _widec with
  | 33 => st 39
  | 37 => st 40
  | 61 => st 39
  | 64 => st 42
  | 95 => st 39
  | 126 => st 39
  | 606 => st 39
  | 635 => st 39
  | 637 => st 39
  | _ =>
  if (_widec <? 48)
  then if (36 <=? _widec) && (_widec <=? 46) then st 39 else st 0
  else if (_widec >? 59)
    then (if (_widec >? 90)
      then if (97 <=? _widec) && (_widec <=? 122) then st 39 else st 0
      else if (_widec >=? 65) then st 39 else st 0)
    else st 39
  end.
(* SRC sylar/http/http11_parser.rl.cpp:1422-1434 http_parser_execute, case 40 *)
Definition case_40 (uri_relaxed : bool) (c : Z) : goto :=
  if (c <? 65)
  then if (48 <=? c) && (c <=? 57) then st 41 else st 0
  else if (c >? 70) then if (97 <=? c) && (c <=? 102) then st 41 else st 0 else st 41.
(* SRC sylar/http/http11_parser.rl.cpp:1435-1447 http_parser_execute, case 41 *)
Definition case_41 (uri_relaxed : bool) (c : Z) : goto :=
  if (c <? 65)
  then if (48 <=? c) && (c <=? 57) then st 39 else st 0
  else if (c >? 70) then if (97 <=? c) && (c <=? 102) then st 39 else st 0 else st 39.
(* SRC sylar/http/http11_parser.rl.cpp:1448-1497 http_parser_execute, case 42 *)
Definition case_42 (uri_relaxed : bool) (c : Z) : goto :=
  let _widec := if (c <? 123)
  then if (94 <=? c) && (c <=? 94) then widen uri_relaxed c else c
  else if (c >? 123)
    then if (125 <=? c) && (c <=? 125) then widen uri_relaxed c else c
    else widen uri_relaxed c in
  match _widec with
  | 32 => tr37
  | 33 => st 43
  | 35 => tr39
  | 37 => st 44
  | 47 => st 26
  | 58 => st 46
  | 61 => st 43
  | 63 => tr42
  | 91 => st 47
  | 95 => st 43
  | 126 => st 43
  | 606 => st 43
  | 635 => st 43
  | 637 => st 43
  | _ =>
  if (_widec <? 65)
  then if (36 <=? _widec) && (_widec <=? 59) then st 43 else st 0
  else if (_widec >? 90) then if (97 <=? _widec) && (_widec <=? 122) then st 43 else st 0 else st 43
  end.
(* SRC sylar/http/http11_parser.rl.cpp:1498-1546 http_parser_execute, case 43 *)
Definition case_43 (uri_relaxed : bool) (c : Z) : goto :=
  let _widec := if (c <? 123)
  then if (94 <=? c) && (c <=? 94) then widen uri_relaxed c else c
  else if (c >? 123)
    then if (125 <=? c) && (c <=? 125) then widen uri_relaxed c else c
    else widen uri_relaxed c in
  match _widec with
  | 32 => tr37
  | 33 => st 43
  | 35 => tr39
  | 37 => st 44
  | 47 => st 26
  | 58 => st 46
  | 61 => st 43
  | 63 => tr42
  | 95 => st 43
  | 126 => st 43
  | 606 => st 43
  | 635 => st 43
  | 637 => st 43
  | _ =>
  if (_widec <? 65)
  then if (36 <=? _widec) && (_widec <=? 59) then st 43 else st 0
  else if (_widec >? 90) then if (97 <=? _widec) && (_widec <=? 122) then st 43 else st 0 else st 43
  end.
(* SRC sylar/http/http11_parser.rl.cpp:1547-1559 http_parser_execute, case 44 *)
Definition case_44 (uri_relaxed : bool) (c : Z) : goto :=
  if (c <? 65)
  then if (48 <=? c) && (c <=? 57) then st 45 else st 0
  else if (c >? 70) then if (97 <=? c) && (c <=? 102) then st 45 else st 0 else st 45.
(* SRC sylar/http/http11_parser.rl.cpp:1560-1572 http_parser_execute, case 45 *)
Definition case_45 (uri_relaxed : bool) (c : Z) : goto :=
  if (c <? 65)
  then if (48 <=? c) && (c <=? 57) then st 43 else st 0
  else if (c >? 70) then if (97 <=? c) && (c <=? 102) then st 43 else st 0 else st 43.
(* SRC sylar/http/http11_parser.rl.cpp:1573-1585 http_parser_execute, case 46 *)
Definition case_46 (uri_relaxed : bool) (c : Z) : goto :=
  match c with
  | 32 => tr37
  | 35 => tr39
  | 47 => st 26
  | 63 => tr42
  | _ =>
  if (48 <=? c) && (c <=? 57) then st 46 else st 0
  end.
(* SRC sylar/http/http11_parser.rl.cpp:1586-1603 http_parser_execute, case 47 *)
Definition case_47 (uri_relaxed : bool) (c : Z) : goto :=
  match c with
  | 6 => st 48
  | 58 => st 167
  | 118 => st 169
  | _ =>
  if (c <? 65)
  then if (48 <=? c) && (c <=? 57) then st 91 else st 0
  else if (c >? 70) then if (97 <=? c) && (c <=? 102) then st 91 else st 0 else st 91
  end.
(* SRC sylar/http/http11_parser.rl.cpp:1604-1616 http_parser_execute, case 48 *)
Definition case_48 (uri_relaxed : bool) (c : Z) : goto :=
  if (c <? 65)
  then if (48 <=? c) && (c <=? 57) then st 49 else st 0
  else if (c >? 70) then if (97 <=? c) && (c <=? 102) then st 49 else st 0 else st 49.
(* SRC sylar/http/http11_parser.rl.cpp:1617-1631 http_parser_execute, case 49 *)
Definition case_49 (uri_relaxed : bool) (c : Z) : goto :=
  if (c =? 58)
  then st 53
  else if (c <? 65)
    then if (48 <=? c) && (c <=? 57) then st 50 else st 0
    else if (c >? 70) then if (97 <=? c) && (c <=? 102) then st 50 else st 0 else st 50.
(* SRC sylar/http/http11_parser.rl.cpp:1632-1646 http_parser_execute, case 50 *)
Definition case_50 (uri_relaxed : bool) (c : Z) : goto :=
  if (c =? 58)
  then st 53
  else if (c <? 65)
    then if (48 <=? c) && (c <=? 57) then st 51 else st 0
    else if (c >? 70) then if (97 <=? c) && (c <=? 102) then st 51 else st 0 else st 51.
(* SRC sylar/http/http11_parser.rl.cpp:1647-1661 http_parser_execute, case 51 *)
Definition case_51 (uri_relaxed : bool) (c : Z) : goto :=
  if (c =? 58)
  then st 53
  else if (c <? 65)
    then if (48 <=? c) && (c <=? 57) then st 52 else st 0
    else if (c >? 70) then if (97 <=? c) && (c <=? 102) then st 52 else st 0 else st 52.
(* SRC sylar/http/http11_parser.rl.cpp:1662-1668 http_parser_execute, case 52 *)
Definition case_52 (uri_relaxed : bool) (c : Z) : goto :=
  if (c =? 58) then st 53 else st 0.
(* SRC sylar/http/http11_parser.rl.cpp:1669-1685 http_parser_execute, case 53 *)
Definition case_53 (uri_relaxed : bool) (c : Z) : goto :=
  match c with
  | 49 => st 84
  | 50 => st 87
  | _ =>
  if (c <? 65)
  then if (48 <=? c) && (c <=? 57) then st 54 else st 0
  else if (c >? 70) then if (97 <=? c) && (c <=? 102) then st 90 else st 0 else st 90
  end.
(* SRC sylar/http/http11_parser.rl.cpp:1686-1702 http_parser_execute, case 54 *)
Definition case_54 (uri_relaxed : bool) (c : Z) : goto :=
  match c with
  | 46 => st 55
  | 58 => st 80
  | _ =>
  if (c <? 65)
  then if (48 <=? c) && (c <=? 57) then st 77 else st 0
  else if (c >? 70) then if (97 <=? c) && (c <=? 102) then st 77 else st 0 else st 77
  end.
(* SRC sylar/http/http11_parser.rl.cpp:1703-1713 http_parser_execute, case 55 *)
Definition case_55 (uri_relaxed : bool) (c : Z) : goto :=
  match c with
  | 49 => st 72
  | 50 => st 74
  | _ =>
  if (48 <=? c) && (c <=? 57) then st 56 else st 0
  end.
(* SRC sylar/http/http11_parser.rl.cpp:1714-1720 http_parser_execute, case 56 *)
Definition case_56 (uri_relaxed : bool) (c : Z) : goto :=
  if (c =? 46) then st 57 else st 0.
(* SRC sylar/http/http11_parser.rl.cpp:1721-1731 http_parser_execute, case 57 *)
Definition case_57 (uri_relaxed : bool) (c : Z) : goto :=
  match c with
  | 49 => st 67
  | 50 => st 69
  | _ =>
  if (48 <=? c) && (c <=? 57) then st 58 else st 0
  end.
(* SRC sylar/http/http11_parser.rl.cpp:1732-1738 http_parser_execute, case 58 *)
Definition case_58 (uri_relaxed : bool) (c : Z) : goto :=
  if (c =? 46) then st 59 else st 0.
(* SRC sylar/http/http11_parser.rl.cpp:1739-1749 http_parser_execute, case 59 *)
Definition case_59 (uri_relaxed : bool) (c : Z) : goto :=
  match c with
  | 49 => st 62
  | 50 => st 64
  | _ =>
  if (48 <=? c) && (c <=? 57) then st 60 else st 0
  end.
(* SRC sylar/http/http11_parser.rl.cpp:1750-1756 http_parser_execute, case 60 *)
Definition case_60 (uri_relaxed : bool) (c : Z) : goto :=
  if (c =? 93) then st 61 else st 0.
(* SRC sylar/http/http11_parser.rl.cpp:1757-1768 http_parser_execute, case 61 *)
Definition case_61 (uri_relaxed : bool) (c : Z) : goto :=
  match c with
  | 32 => tr37
  | 35 => tr39
  | 47 => st 26
  | 58 => st 46
  | 63 => tr42
  | _ =>
  st 0
  end.
(* SRC sylar/http/http11_parser.rl.cpp:1769-1777 http_parser_execute, case 62 *)
Definition case_62 (uri_relaxed : bool) (c : Z) : goto :=
  if (c =? 93) then st 61 else if (48 <=? c) && (c <=? 57) then st 63 else st 0.
(* SRC sylar/http/http11_parser.rl.cpp:1778-1786 http_parser_execute, case 63 *)
Definition case_63 (uri_relaxed : bool) (c : Z) : goto :=
  if (c =? 93) then st 61 else if (48 <=? c) && (c <=? 57) then st 60 else st 0.
(* SRC sylar/http/http11_parser.rl.cpp:1787-1796 http_parser_execute, case 64 *)
Definition case_64 (uri_relaxed : bool) (c : Z) : goto :=
  match c with
  | 48 => st 65
  | 53 => st 66
  | 93 => st 61
  | _ =>
  st 0
  end.
(* SRC sylar/http/http11_parser.rl.cpp:1797-1803 http_parser_execute, case 65 *)
Definition case_65 (uri_relaxed : bool) (c : Z) : goto :=
  if (48 <=? c) && (c <=? 57) then st 60 else st 0.
(* SRC sylar/http/http11_parser.rl.cpp:1804-1810 http_parser_execute, case 66 *)
Definition case_66 (uri_relaxed : bool) (c : Z) : goto :=
  if (c =? 48) then st 60 else st 0.
(* SRC sylar/http/http11_parser.rl.cpp:1811-1819 http_parser_execute, case 67 *)
Definition case_67 (uri_relaxed : bool) (c : Z) : goto :=
  if (c =? 46) then st 59 else if (48 <=? c) && (c <=? 57) then st 68 else st 0.
(* SRC sylar/http/http11_parser.rl.cpp:1820-1828 http_parser_execute, case 68 *)
Definition case_68 (uri_relaxed : bool) (c : Z) : goto :=
  if (c =? 46) then st 59 else if (48 <=? c) && (c <=? 57) then st 58 else st 0.
(* SRC sylar/http/http11_parser.rl.cpp:1829-1838 http_parser_execute, case 69 *)
Definition case_69 (uri_relaxed : bool) (c : Z) : goto :=
  match c with
  | 46 => st 59
  | 48 => st 70
  | 53 => st 71
  | _ =>
  st 0
  end.
(* SRC sylar/http/http11_parser.rl.cpp:1839-1845 http_parser_execute, case 70 *)
Definition case_70 (uri_relaxed : bool) (c : Z) : goto :=
  if (48 <=? c) && (c <=? 57) then st 58 else st 0.
(* SRC sylar/http/http11_parser.rl.cpp:1846-1852 http_parser_execute, case 71 *)
Definition case_71 (uri_relaxed : bool) (c : Z) : goto :=
  if (c =? 48) then st 58 else st 0.
(* SRC sylar/http/http11_parser.rl.cpp:1853-1861 http_parser_execute, case 72 *)
Definition case_72 (uri_relaxed : bool) (c : Z) : goto :=
  if (c =? 46) then st 57 else if (48 <=? c) && (c <=? 57) then st 73 else st 0.
(* SRC sylar/http/http11_parser.rl.cpp:1862-1870 http_parser_execute, case 73 *)
Definition case_73 (uri_relaxed : bool) (c : Z) : goto :=
  if (c =? 46) then st 57 else if (48 <=? c) && (c <=? 57) then st 56 else st 0.
(* SRC sylar/http/http11_parser.rl.cpp:1871-1880 http_parser_execute, case 74 *)
Definition case_74 (uri_relaxed : bool) (c : Z) : goto :=
  match c with
  | 46 => st 57
  | 48 => st 75
  | 53 => st 76
  | _ =>
  st 0
  end.
(* SRC sylar/http/http11_parser.rl.cpp:1881-1887 http_parser_execute, case 75 *)
Definition case_75 (uri_relaxed : bool) (c : Z) : goto :=
  if (48 <=? c) && (c <=? 57) then st 56 else st 0.
(* SRC sylar/http/http11_parser.rl.cpp:1888-1894 http_parser_execute, case 76 *)
Definition case_76 (uri_relaxed : bool) (c : Z) : goto :=
  if (c =? 48) then st 56 else st 0.
(* SRC sylar/http/http11_parser.rl.cpp:1895-1909 http_parser_execute, case 77 *)
Definition case_77 (uri_relaxed : bool) (c : Z) : goto :=
  if (c =? 58)
  then st 80
  else if (c <? 65)
    then if (48 <=? c) && (c <=? 57) then st 78 else st 0
    else if (c >? 70) then if (97 <=? c) && (c <=? 102) then st 78 else st 0 else st 78.
(* SRC sylar/http/http11_parser.rl.cpp:1910-1924 http_parser_execute, case 78 *)
Definition case_78 (uri_relaxed : bool) (c : Z) : goto :=
  if (c =? 58)
  then st 80
  else if (c <? 65)
    then if (48 <=? c) && (c <=? 57) then st 79 else st 0
    else if (c >? 70) then if (97 <=? c) && (c <=? 102) then st 79 else st 0 else st 79.
(* SRC sylar/http/http11_parser.rl.cpp:1925-1931 http_parser_execute, case 79 *)
Definition case_79 (uri_relaxed : bool) (c : Z) : goto :=
  if (c =? 58) then st 80 else st 0.
(* SRC sylar/http/http11_parser.rl.cpp:1932-1944 http_parser_execute, case 80 *)
Definition case_80 (uri_relaxed : bool) (c : Z) : goto :=
  if (c <? 65)
  then if (48 <=? c) && (c <=? 57) then st 81 else st 0
  else if (c >? 70) then if (97 <=? c) && (c <=? 102) then st 81 else st 0 else st 81.
(* SRC sylar/http/http11_parser.rl.cpp:1945-1959 http_parser_execute, case 81 *)
Definition case_81 (uri_relaxed : bool) (c : Z) : goto :=
  if (c =? 93)
  then st 61
  else if (c <? 65)
    then if (48 <=? c) && (c <=? 57) then st 82 else st 0
    else if (c >? 70) then if (97 <=? c) && (c <=? 102) then st 82 else st 0 else st 82.
(* SRC sylar/http/http11_parser.rl.cpp:1960-1974 http_parser_execute, case 82 *)
Definition case_82 (uri_relaxed : bool) (c : Z) : goto :=
  if (c =? 93)
  then st 61
  else if (c <? 65)
    then if (48 <=? c) && (c <=? 57) then st 83 else st 0
    else if (c >? 70) then if (97 <=? c) && (c <=? 102) then st 83 else st 0 else st 83.
(* SRC sylar/http/http11_parser.rl.cpp:1975-1989 http_parser_execute, case 83 *)
Definition case_83 (uri_relaxed : bool) (c : Z) : goto :=
  if (c =? 93)
  then st 61
  else if (c <? 65)
    then if (48 <=? c) && (c <=? 57) then st 60 else st 0
    else if (c >? 70) then if (97 <=? c) && (c <=? 102) then st 60 else st 0 else st 60.
(* SRC sylar/http/http11_parser.rl.cpp:1990-2006 http_parser_execute, case 84 *)
Definition case_84 (uri_relaxed : bool) (c : Z) : goto :=
  match c with
  | 46 => st 55
  | 58 => st 80
  | _ =>
  if (c <? 65)
  then if (48 <=? c) && (c <=? 57) then st 85 else st 0
  else if (c >? 70) then if (97 <=? c) && (c <=? 102) then st 77 else st 0 else st 77
  end.
(* SRC sylar/http/http11_parser.rl.cpp:2007-2023 http_parser_execute, case 85 *)
Definition case_85 (uri_relaxed : bool) (c : Z) : goto :=
  match c with
  | 46 => st 55
  | 58 => st 80
  | _ =>
  if (c <? 65)
  then if (48 <=? c) && (c <=? 57) then st 86 else st 0
  else if (c >? 70) then if (97 <=? c) && (c <=? 102) then st 78 else st 0 else st 78
  end.
(* SRC sylar/http/http11_parser.rl.cpp:2024-2040 http_parser_execute, case 86 *)
Definition case_86 (uri_relaxed : bool) (c : Z) : goto :=
  match c with
  | 46 => st 55
  | 58 => st 80
  | _ =>
  if (c <? 65)
  then if (48 <=? c) && (c <=? 57) then st 79 else st 0
  else if (c >? 70) then if (97 <=? c) && (c <=? 102) then st 79 else st 0 else st 79
  end.
(* SRC sylar/http/http11_parser.rl.cpp:2041-2059 http_parser_execute, case 87 *)
Definition case_87 (uri_relaxed : bool) (c : Z) : goto :=
  match c with
  | 46 => st 55
  | 48 => st 88
  | 53 => st 89
  | 58 => st 80
  | _ =>
  if (c <? 65)
  then if (49 <=? c) && (c <=? 57) then st 77 else st 0
  else if (c >? 70) then if (97 <=? c) && (c <=? 102) then st 77 else st 0 else st 77
  end.
(* SRC sylar/http/http11_parser.rl.cpp:2060-2074 http_parser_execute, case 88 *)
Definition case_88 (uri_relaxed : bool) (c : Z) : goto :=
  if (c =? 58)
  then st 80
  else if (c <? 65)
    then if (48 <=? c) && (c <=? 57) then st 86 else st 0
    else if (c >? 70) then if (97 <=? c) && (c <=? 102) then st 78 else st 0 else st 78.
(* SRC sylar/http/http11_parser.rl.cpp:2075-2091 http_parser_execute, case 89 *)
Definition case_89 (uri_relaxed : bool) (c : Z) : goto :=
  match c with
  | 48 => st 86
  | 58 => st 80
  | _ =>
  if (c <? 65)
  then if (49 <=? c) && (c <=? 57) then st 78 else st 0
  else if (c >? 70) then if (97 <=? c) && (c <=? 102) then st 78 else st 0 else st 78
  end.
(* SRC sylar/http/http11_parser.rl.cpp:2092-2106 http_parser_execute, case 90 *)
Definition case_90 (uri_relaxed : bool) (c : Z) : goto :=
  if (c =? 58)
  then st 80
  else if (c <? 65)
    then if (48 <=? c) && (c <=? 57) then st 77 else st 0
    else if (c >? 70) then if (97 <=? c) && (c <=? 102) then st 77 else st 0 else st 77.
(* SRC sylar/http/http11_parser.rl.cpp:2107-2121 http_parser_execute, case 91 *)
Definition case_91 (uri_relaxed : bool) (c : Z) : goto :=
  if (c =? 58)
  then st 95
  else if (c <? 65)
    then if (48 <=? c) && (c <=? 57) then st 92 else st 0
    else if (c >? 70) then if (97 <=? c) && (c <=? 102) then st 92 else st 0 else st 92.
(* SRC sylar/http/http11_parser.rl.cpp:2122-2136 http_parser_execute, case 92 *)
Definition case_92 (uri_relaxed : bool) (c : Z) : goto :=
  if (c =? 58)
  then st 95
  else if (c <? 65)
    then if (48 <=? c) && (c <=? 57) then st 93 else st 0
    else if (c >? 70) then if (97 <=? c) && (c <=? 102) then st 93 else st 0 else st 93.
(* SRC sylar/http/http11_parser.rl.cpp:2137-2151 http_parser_execute, case 93 *)
Definition case_93 (uri_relaxed : bool) (c : Z) : goto :=
  if (c =? 58)
  then st 95
  else if (c <? 65)
    then if (48 <=? c) && (c <=? 57) then st 94 else st 0
    else if (c >? 70) then if (97 <=? c) && (c <=? 102) then st 94 else st 0 else st 94.
(* SRC sylar/http/http11_parser.rl.cpp:2152-2158 http_parser_execute, case 94 *)
Definition case_94 (uri_relaxed : bool) (c : Z) : goto :=
  if (c =? 58) then st 95 else st 0.
(* SRC sylar/http/http11_parser.rl.cpp:2159-2173 http_parser_execute, case 95 *)
Definition case_95 (uri_relaxed : bool) (c : Z) : goto :=
  if (c =? 58)
  then st 166
  else if (c <? 65)
    then if (48 <=? c) && (c <=? 57) then st 96 else st 0
    else if (c >? 70) then if (97 <=? c) && (c <=? 102) then st 96 else st 0 else st 96.
(* SRC sylar/http/http11_parser.rl.cpp:2174-2188 http_parser_execute, case 96 *)
Definition case_96 (uri_relaxed : bool) (c : Z) : goto :=
  if (c =? 58)
  then st 100
  else if (c <? 65)
    then if (48 <=? c) && (c <=? 57) then st 97 else st 0
    else if (c >? 70) then if (97 <=? c) && (c <=? 102) then st 97 else st 0 else st 97.
(* SRC sylar/http/http11_parser.rl.cpp:2189-2203 http_parser_execute, case 97 *)
Definition case_97 (uri_relaxed : bool) (c : Z) : goto :=
  if (c =? 58)
  then st 100
  else if (c <? 65)
    then if (48 <=? c) && (c <=? 57) then st 98 else st 0
    else if (c >? 70) then if (97 <=? c) && (c <=? 102) then st 98 else st 0 else st 98.
(* SRC sylar/http/http11_parser.rl.cpp:2204-2218 http_parser_execute, case 98 *)
Definition case_98 (uri_relaxed : bool) (c : Z) : goto :=
  if (c =? 58)
  then st 100
  else if (c <? 65)
    then if (48 <=? c) && (c <=? 57) then st 99 else st 0
    else if (c >? 70) then if (97 <=? c) && (c <=? 102) then st 99 else st 0 else st 99.
(* SRC sylar/http/http11_parser.rl.cpp:2219-2225 http_parser_execute, case 99 *)
Definition case_99 (uri_relaxed : bool) (c : Z) : goto :=
  if (c =? 58) then st 100 else st 0.
(* SRC sylar/http/http11_parser.rl.cpp:2226-2240 http_parser_execute, case 100 *)
Definition case_100 (uri_relaxed : bool) (c : Z) : goto :=
  if (c =? 58)
  then st 165
  else if (c <? 65)
    then if (48 <=? c) && (c <=? 57) then st 101 else st 0
    else if (c >? 70) then if (97 <=? c) && (c <=? 102) then st 101 else st 0 else st 101.
(* SRC sylar/http/http11_parser.rl.cpp:2241-2255 http_parser_execute, case 101 *)
Definition case_101 (uri_relaxed : bool) (c : Z) : goto :=
  if (c =? 58)
  then st 105
  else if (c <? 65)
    then if (48 <=? c) && (c <=? 57) then st 102 else st 0
    else if (c >? 70) then if (97 <=? c) && (c <=? 102) then st 102 else st 0 else st 102.
(* SRC sylar/http/http11_parser.rl.cpp:2256-2270 http_parser_execute, case 102 *)
Definition case_102 (uri_relaxed : bool) (c : Z) : goto :=
  if (c =? 58)
  then st 105
  else if (c <? 65)
    then if (48 <=? c) && (c <=? 57) then st 103 else st 0
    else if (c >? 70) then if (97 <=? c) && (c <=? 102) then st 103 else st 0 else st 103.
(* SRC sylar/http/http11_parser.rl.cpp:2271-2285 http_parser_execute, case 103 *)
Definition case_103 (uri_relaxed : bool) (c : Z) : goto :=
  if (c =? 58)
  then st 105
  else if (c <? 65)
    then if (48 <=? c) && (c <=? 57) then st 104 else st 0
    else if (c >? 70) then if (97 <=? c) && (c <=? 102) then st 104 else st 0 else st 104.
(* SRC sylar/http/http11_parser.rl.cpp:2286-2292 http_parser_execute, case 104 *)
Definition case_104 (uri_relaxed : bool) (c : Z) : goto :=
  if (c =? 58) then st 105 else st 0.
(* SRC sylar/http/http11_parser.rl.cpp:2293-2307 http_parser_execute, case 105 *)
Definition case_105 (uri_relaxed : bool) (c : Z) : goto :=
  if (c =? 58)
  then st 164
  else if (c <? 65)
    then if (48 <=? c) && (c <=? 57) then st 106 else st 0
    else if (c >? 70) then if (97 <=? c) && (c <=? 102) then st 106 else st 0 else st 106.
(* SRC sylar/http/http11_parser.rl.cpp:2308-2322 http_parser_execute, case 106 *)
Definition case_106 (uri_relaxed : bool) (c : Z) : goto :=
  if (c =? 58)
  then st 110
  else if (c <? 65)
    then if (48 <=? c) && (c <=? 57) then st 107 else st 0
    else if (c >? 70) then if (97 <=? c) && (c <=? 102) then st 107 else st 0 else st 107.
(* SRC sylar/http/http11_parser.rl.cpp:2323-2337 http_parser_execute, case 107 *)
Definition case_107 (uri_relaxed : bool) (c : Z) : goto :=
  if (c =? 58)
  then st 110
  else if (c <? 65)
    then if (48 <=? c) && (c <=? 57) then st 108 else st 0
    else if (c >? 70) then if (97 <=? c) && (c <=? 102) then st 108 else st 0 else st 108.
(* SRC sylar/http/http11_parser.rl.cpp:2338-2352 http_parser_execute, case 108 *)
Definition case_108 (uri_relaxed : bool) (c : Z) : goto :=
  if (c =? 58)
  then st 110
  else if (c <? 65)
    then if (48 <=? c) && (c <=? 57) then st 109 else st 0
    else if (c >? 70) then if (97 <=? c) && (c <=? 102) then st 109 else st 0 else st 109.
(* SRC sylar/http/http11_parser.rl.cpp:2353-2359 http_parser_execute, case 109 *)
Definition case_109 (uri_relaxed : bool) (c : Z) : goto :=
  if (c =? 58) then st 110 else st 0.
(* SRC sylar/http/http11_parser.rl.cpp:2360-2374 http_parser_execute, case 110 *)
Definition case_110 (uri_relaxed : bool) (c : Z) : goto :=
  if (c =? 58)
  then st 163
  else if (c <? 65)
    then if (48 <=? c) && (c <=? 57) then st 111 else st 0
    else if (c >? 70) then if (97 <=? c) && (c <=? 102) then st 111 else st 0 else st 111.
(* SRC sylar/http/http11_parser.rl.cpp:2375-2389 http_parser_execute, case 111 *)
Definition case_111 (uri_relaxed : bool) (c : Z) : goto :=
  if (c =? 58)
  then st 115
  else if (c <? 65)
    then if (48 <=? c) && (c <=? 57) then st 112 else st 0
    else if (c >? 70) then if (97 <=? c) && (c <=? 102) then st 112 else st 0 else st 112.
(* SRC sylar/http/http11_parser.rl.cpp:2390-2404 http_parser_execute, case 112 *)
Definition case_112 (uri_relaxed : bool) (c : Z) : goto :=
  if (c =? 58)
  then st 115
  else if (c <? 65)
    then if (48 <=? c) && (c <=? 57) then st 113 else st 0
    else if (c >? 70) then if (97 <=? c) && (c <=? 102) then st 113 else st 0 else st 113.
(* SRC sylar/http/http11_parser.rl.cpp:2405-2419 http_parser_execute, case 113 *)
Definition case_113 (uri_relaxed : bool) (c : Z) : goto :=
  if (c =? 58)
  then st 115
  else if (c <? 65)
    then if (48 <=? c) && (c <=? 57) then st 114 else st 0
    else if (c >? 70) then if (97 <=? c) && (c <=? 102) then st 114 else st 0 else st 114.
(* SRC sylar/http/http11_parser.rl.cpp:2420-2426 http_parser_execute, case 114 *)
Definition case_114 (uri_relaxed : bool) (c : Z) : goto :=
  if (c =? 58) then st 115 else st 0.
(* SRC sylar/http/http11_parser.rl.cpp:2427-2441 http_parser_execute, case 115 *)
Definition case_115 (uri_relaxed : bool) (c : Z) : goto :=
  if (c =? 58)
  then st 151
  else if (c <? 65)
    then if (48 <=? c) && (c <=? 57) then st 116 else st 0
    else if (c >? 70) then if (97 <=? c) && (c <=? 102) then st 116 else st 0 else st 116.
(* SRC sylar/http/http11_parser.rl.cpp:2442-2456 http_parser_execute, case 116 *)
Definition case_116 (uri_relaxed : bool) (c : Z) : goto :=
  if (c =? 58)
  then st 120
  else if (c <? 65)
    then if (48 <=? c) && (c <=? 57) then st 117 else st 0
    else if (c >? 70) then if (97 <=? c) && (c <=? 102) then st 117 else st 0 else st 117.
(* SRC sylar/http/http11_parser.rl.cpp:2457-2471 http_parser_execute, case 117 *)
Definition case_117 (uri_relaxed : bool) (c : Z) : goto :=
  if (c =? 58)
  then st 120
  else if (c <? 65)
    then if (48 <=? c) && (c <=? 57) then st 118 else st 0
    else if (c >? 70) then if (97 <=? c) && (c <=? 102) then st 118 else st 0 else st 118.
(* SRC sylar/http/http11_parser.rl.cpp:2472-2486 http_parser_execute, case 118 *)
Definition case_118 (uri_relaxed : bool) (c : Z) : goto :=
  if (c =? 58)
  then st 120
  else if (c <? 65)
    then if (48 <=? c) && (c <=? 57) then st 119 else st 0
    else if (c >? 70) then if (97 <=? c) && (c <=? 102) then st 119 else st 0 else st 119.
(* SRC sylar/http/http11_parser.rl.cpp:2487-2493 http_parser_execute, case 119 *)
Definition case_119 (uri_relaxed : bool) (c : Z) : goto :=
  if (c =? 58) then st 120 else st 0.
(* SRC sylar/http/http11_parser.rl.cpp:2494-2508 http_parser_execute, case 120 *)
Definition case_120 (uri_relaxed : bool) (c : Z) : goto :=
  if (c =? 58)
  then st 150
  else if (c <? 65)
    then if (48 <=? c) && (c <=? 57) then st 121 else st 0
    else if (c >? 70) then if (97 <=? c) && (c <=? 102) then st 121 else st 0 else st 121.
(* SRC sylar/http/http11_parser.rl.cpp:2509-2523 http_parser_execute, case 121 *)
Definition case_121 (uri_relaxed : bool) (c : Z) : goto :=
  if (c =? 58)
  then st 125
  else if (c <? 65)
    then if (48 <=? c) && (c <=? 57) then st 122 else st 0
    else if (c >? 70) then if (97 <=? c) && (c <=? 102) then st 122 else st 0 else st 122.
(* SRC sylar/http/http11_parser.rl.cpp:2524-2538 http_parser_execute, case 122 *)
Definition case_122 (uri_relaxed : bool) (c : Z) : goto :=
  if (c =? 58)
  then st 125
  else if (c <? 65)
    then if (48 <=? c) && (c <=? 57) then st 123 else st 0
    else if (c >? 70) then if (97 <=? c) && (c <=? 102) then st 123 else st 0 else st 123.
(* SRC sylar/http/http11_parser.rl.cpp:2539-2553 http_parser_execute, case 123 *)
Definition case_123 (uri_relaxed : bool) (c : Z) : goto :=
  if (c =? 58)
  then st 125
  else if (c <? 65)
    then if (48 <=? c) && (c <=? 57) then st 124 else st 0
    else if (c >? 70) then if (97 <=? c) && (c <=? 102) then st 124 else st 0 else st 124.
(* SRC sylar/http/http11_parser.rl.cpp:2554-2560 http_parser_execute, case 124 *)
Definition case_124 (uri_relaxed : bool) (c : Z) : goto :=
  if (c =? 58) then st 125 else st 0.
(* SRC sylar/http/http11_parser.rl.cpp:2561-2575 http_parser_execute, case 125 *)
Definition case_125 (uri_relaxed : bool) (c : Z) : goto :=
  if (c =? 58)
  then st 126
  else if (c <? 65)
    then if (48 <=? c) && (c <=? 57) then st 121 else st 0
    else if (c >? 70) then if (97 <=? c) && (c <=? 102) then st 121 else st 0 else st 121.
(* SRC sylar/http/http11_parser.rl.cpp:2576-2596 http_parser_execute, case 126 *)
Definition case_126 (uri_relaxed : bool) (c : Z) : goto :=
  match c with
  | 49 => st 143
  | 50 => st 146
  | 93 => st 61
  | _ =>
  if (c <? 48)
  then if (2 <=? c) && (c <=? 3) then st 48 else st 0
  else if (c >? 57)
    then (if (c >? 70)
      then if (97 <=? c) && (c <=? 102) then st 149 else st 0
      else if (c >=? 65) then st 149 else st 0)
    else st 127
  end.
(* SRC sylar/http/http11_parser.rl.cpp:2597-2614 http_parser_execute, case 127 *)
Definition case_127 (uri_relaxed : bool) (c : Z) : goto :=
  match c with
  | 46 => st 55
  | 58 => st 131
  | 93 => st 61
  | _ =>
  if (c <? 65)
  then if (48 <=? c) && (c <=? 57) then st 128 else st 0
  else if (c >? 70) then if (97 <=? c) && (c <=? 102) then st 128 else st 0 else st 128
  end.
(* SRC sylar/http/http11_parser.rl.cpp:2615-2631 http_parser_execute, case 128 *)
Definition case_128 (uri_relaxed : bool) (c : Z) : goto :=
  match c with
  | 58 => st 131
  | 93 => st 61
  | _ =>
  if (c <? 65)
  then if (48 <=? c) && (c <=? 57) then st 129 else st 0
  else if (c >? 70) then if (97 <=? c) && (c <=? 102) then st 129 else st 0 else st 129
  end.
(* SRC sylar/http/http11_parser.rl.cpp:2632-2648 http_parser_execute, case 129 *)
Definition case_129 (uri_relaxed : bool) (c : Z) : goto :=
  match c with
  | 58 => st 131
  | 93 => st 61
  | _ =>
  if (c <? 65)
  then if (48 <=? c) && (c <=? 57) then st 130 else st 0
  else if (c >? 70) then if (97 <=? c) && (c <=? 102) then st 130 else st 0 else st 130
  end.
(* SRC sylar/http/http11_parser.rl.cpp:2649-2657 http_parser_execute, case 130 *)
Definition case_130 (uri_relaxed : bool) (c : Z) : goto :=
  match c with
  | 58 => st 131
  | 93 => st 61
  | _ =>
  st 0
  end.
(* SRC sylar/http/http11_parser.rl.cpp:2658-2674 http_parser_execute, case 131 *)
Definition case_131 (uri_relaxed : bool) (c : Z) : goto :=
  match c with
  | 49 => st 136
  | 50 => st 139
  | _ =>
  if (c <? 65)
  then if (48 <=? c) && (c <=? 57) then st 132 else st 0
  else if (c >? 70) then if (97 <=? c) && (c <=? 102) then st 142 else st 0 else st 142
  end.
(* SRC sylar/http/http11_parser.rl.cpp:2675-2692 http_parser_execute, case 132 *)
Definition case_132 (uri_relaxed : bool) (c : Z) : goto :=
  match c with
  | 46 => st 55
  | 58 => st 80
  | 93 => st 61
  | _ =>
  if (c <? 65)
  then if (48 <=? c) && (c <=? 57) then st 133 else st 0
  else if (c >? 70) then if (97 <=? c) && (c <=? 102) then st 133 else st 0 else st 133
  end.
(* SRC sylar/http/http11_parser.rl.cpp:2693-2709 http_parser_execute, case 133 *)
Definition case_133 (uri_relaxed : bool) (c : Z) : goto :=
  match c with
  | 58 => st 80
  | 93 => st 61
  | _ =>
  if (c <? 65)
  then if (48 <=? c) && (c <=? 57) then st 134 else st 0
  else if (c >? 70) then if (97 <=? c) && (c <=? 102) then st 134 else st 0 else st 134
  end.
(* SRC sylar/http/http11_parser.rl.cpp:2710-2726 http_parser_execute, case 134 *)
Definition case_134 (uri_relaxed : bool) (c : Z) : goto :=
  match c with
  | 58 => st 80
  | 93 => st 61
  | _ =>
  if (c <? 65)
  then if (48 <=? c) && (c <=? 57) then st 135 else st 0
  else if (c >? 70) then if (97 <=? c) && (c <=? 102) then st 135 else st 0 else st 135
  end.
(* SRC sylar/http/http11_parser.rl.cpp:2727-2735 http_parser_execute, case 135 *)
Definition case_135 (uri_relaxed : bool) (c : Z) : goto :=
  match c with
  | 58 => st 80
  | 93 => st 61
  | _ =>
  st 0
  end.
(* SRC sylar/http/http11_parser.rl.cpp:2736-2753 http_parser_execute, case 136 *)
Definition case_136 (uri_relaxed : bool) (c : Z) : goto :=
  match c with
  | 46 => st 55
  | 58 => st 80
  | 93 => st 61
  | _ =>
  if (c <? 65)
  then if (48 <=? c) && (c <=? 57) then st 137 else st 0
  else if (c >? 70) then if (97 <=? c) && (c <=? 102) then st 133 else st 0 else st 133
  end.
(* SRC sylar/http/http11_parser.rl.cpp:2754-2771 http_parser_execute, case 137 *)
Definition case_137 (uri_relaxed : bool) (c : Z) : goto :=
  match c with
  | 46 => st 55
  | 58 => st 80
  | 93 => st 61
  | _ =>
  if (c <? 65)
  then if (48 <=? c) && (c <=? 57) then st 138 else st 0
  else if (c >? 70) then if (97 <=? c) && (c <=? 102) then st 134 else st 0 else st 134
  end.
(* SRC sylar/http/http11_parser.rl.cpp:2772-2789 http_parser_execute, case 138 *)
Definition case_138 (uri_relaxed : bool) (c : Z) : goto :=
  match c with
  | 46 => st 55
  | 58 => st 80
  | 93 => st 61
  | _ =>
  if (c <? 65)
  then if (48 <=? c) && (c <=? 57) then st 135 else st 0
  else if (c >? 70) then if (97 <=? c) && (c <=? 102) then st 135 else st 0 else st 135
  end.
(* SRC sylar/http/http11_parser.rl.cpp:2790-2809 http_parser_execute, case 139 *)
Definition case_139 (uri_relaxed : bool) (c : Z) : goto :=
  match c with
  | 46 => st 55
  | 48 => st 140
  | 53 => st 141
  | 58 => st 80
  | 93 => st 61
  | _ =>
  if (c <? 65)
  then if (49 <=? c) && (c <=? 57) then st 133 else st 0
  else if (c >? 70) then if (97 <=? c) && (c <=? 102) then st 133 else st 0 else st 133
  end.
(* SRC sylar/http/http11_parser.rl.cpp:2810-2826 http_parser_execute, case 140 *)
Definition case_140 (uri_relaxed : bool) (c : Z) : goto :=
  match c with
  | 58 => st 80
  | 93 => st 61
  | _ =>
  if (c <? 65)
  then if (48 <=? c) && (c <=? 57) then st 138 else st 0
  else if (c >? 70) then if (97 <=? c) && (c <=? 102) then st 134 else st 0 else st 134
  end.
(* SRC sylar/http/http11_parser.rl.cpp:2827-2844 http_parser_execute, case 141 *)
Definition case_141 (uri_relaxed : bool) (c : Z) : goto :=
  match c with
  | 48 => st 138
  | 58 => st 80
  | 93 => st 61
  | _ =>
  if (c <? 65)
  then if (49 <=? c) && (c <=? 57) then st 134 else st 0
  else if (c >? 70) then if (97 <=? c) && (c <=? 102) then st 134 else st 0 else st 134
  end.
(* SRC sylar/http/http11_parser.rl.cpp:2845-2861 http_parser_execute, case 142 *)
Definition case_142 (uri_relaxed : bool) (c : Z) : goto :=
  match c with
  | 58 => st 80
  | 93 => st 61
  | _ =>
  if (c <? 65)
  then if (48 <=? c) && (c <=? 57) then st 133 else st 0
  else if (c >? 70) then if (97 <=? c) && (c <=? 102) then st 133 else st 0 else st 133
  end.
(* SRC sylar/http/http11_parser.rl.cpp:2862-2879 http_parser_execute, case 143 *)
Definition case_143 (uri_relaxed : bool) (c : Z) : goto :=
  match c with
  | 46 => st 55
  | 58 => st 131
  | 93 => st 61
  | _ =>
  if (c <? 65)
  then if (48 <=? c) && (c <=? 57) then st 144 else st 0
  else if (c >? 70) then if (97 <=? c) && (c <=? 102) then st 128 else st 0 else st 128
  end.
(* SRC sylar/http/http11_parser.rl.cpp:2880-2897 http_parser_execute, case 144 *)
Definition case_144 (uri_relaxed : bool) (c : Z) : goto :=
  match c with
  | 46 => st 55
  | 58 => st 131
  | 93 => st 61
  | _ =>
  if (c <? 65)
  then if (48 <=? c) && (c <=? 57) then st 145 else st 0
  else if (c >? 70) then if (97 <=? c) && (c <=? 102) then st 129 else st 0 else st 129
  end.
(* SRC sylar/http/http11_parser.rl.cpp:2898-2915 http_parser_execute, case 145 *)
Definition case_145 (uri_relaxed : bool) (c : Z) : goto :=
  match c with
  | 46 => st 55
  | 58 => st 131
  | 93 => st 61
  | _ =>
  if (c <? 65)
  then if (48 <=? c) && (c <=? 57) then st 130 else st 0
  else if (c >? 70) then if (97 <=? c) && (c <=? 102) then st 130 else st 0 else st 130
  end.
(* SRC sylar/http/http11_parser.rl.cpp:2916-2935 http_parser_execute, case 146 *)
Definition case_146 (uri_relaxed : bool) (c : Z) : goto :=
  match c with
  | 46 => st 55
  | 48 => st 147
  | 53 => st 148
  | 58 => st 131
  | 93 => st 61
  | _ =>
  if (c <? 65)
  then if (49 <=? c) && (c <=? 57) then st 128 else st 0
  else if (c >? 70) then if (97 <=? c) && (c <=? 102) then st 128 else st 0 else st 128
  end.
(* SRC sylar/http/http11_parser.rl.cpp:2936-2952 http_parser_execute, case 147 *)
Definition case_147 (uri_relaxed : bool) (c : Z) : goto :=
  match c with
  | 58 => st 131
  | 93 => st 61
  | _ =>
  if (c <? 65)
  then if (48 <=? c) && (c <=? 57) then st 145 else st 0
  else if (c >? 70) then if (97 <=? c) && (c <=? 102) then st 129 else st 0 else st 129
  end.
(* SRC sylar/http/http11_parser.rl.cpp:2953-2970 http_parser_execute, case 148 *)
Definition case_148 (uri_relaxed : bool) (c : Z) : goto :=
  match c with
  | 48 => st 145
  | 58 => st 131
  | 93 => st 61
  | _ =>
  if (c <? 65)
  then if (49 <=? c) && (c <=? 57) then st 129 else st 0
  else if (c >? 70) then if (97 <=? c) && (c <=? 102) then st 129 else st 0 else st 129
  end.
(* SRC sylar/http/http11_parser.rl.cpp:2971-2987 http_parser_execute, case 149 *)
Definition case_149 (uri_relaxed : bool) (c : Z) : goto :=
  match c with
  | 58 => st 131
  | 93 => st 61
  | _ =>
  if (c <? 65)
  then if (48 <=? c) && (c <=? 57) then st 128 else st 0
  else if (c >? 70) then if (97 <=? c) && (c <=? 102) then st 128 else st 0 else st 128
  end.
(* SRC sylar/http/http11_parser.rl.cpp:2988-3007 http_parser_execute, case 150 *)
Definition case_150 (uri_relaxed : bool) (c : Z) : goto :=
  match c with
  | 49 => st 143
  | 50 => st 146
  | _ =>
  if (c <? 48)
  then if (2 <=? c) && (c <=? 3) then st 48 else st 0
  else if (c >? 57)
    then (if (c >? 70)
      then if (97 <=? c) && (c <=? 102) then st 149 else st 0
      else if (c >=? 65) then st 149 else st 0)
    else st 127
  end.
(* SRC sylar/http/http11_parser.rl.cpp:3008-3027 http_parser_execute, case 151 *)
Definition case_151 (uri_relaxed : bool) (c : Z) : goto :=
  match c with
  | 49 => st 156
  | 50 => st 159
  | _ =>
  if (c <? 48)
  then if (2 <=? c) && (c <=? 3) then st 48 else st 0
  else if (c >? 57)
    then (if (c >? 70)
      then if (97 <=? c) && (c <=? 102) then st 162 else st 0
      else if (c >=? 65) then st 162 else st 0)
    else st 152
  end.
(* SRC sylar/http/http11_parser.rl.cpp:3028-3044 http_parser_execute, case 152 *)
Definition case_152 (uri_relaxed : bool) (c : Z) : goto :=
  match c with
  | 46 => st 55
  | 58 => st 131
  | _ =>
  if (c <? 65)
  then if (48 <=? c) && (c <=? 57) then st 153 else st 0
  else if (c >? 70) then if (97 <=? c) && (c <=? 102) then st 153 else st 0 else st 153
  end.
(* SRC sylar/http/http11_parser.rl.cpp:3045-3059 http_parser_execute, case 153 *)
Definition case_153 (uri_relaxed : bool) (c : Z) : goto :=
  if (c =? 58)
  then st 131
  else if (c <? 65)
    then if (48 <=? c) && (c <=? 57) then st 154 else st 0
    else if (c >? 70) then if (97 <=? c) && (c <=? 102) then st 154 else st 0 else st 154.
(* SRC sylar/http/http11_parser.rl.cpp:3060-3074 http_parser_execute, case 154 *)
Definition case_154 (uri_relaxed : bool) (c : Z) : goto :=
  if (c =? 58)
  then st 131
  else if (c <? 65)
    then if (48 <=? c) && (c <=? 57) then st 155 else st 0
    else if (c >? 70) then if (97 <=? c) && (c <=? 102) then st 155 else st 0 else st 155.
(* SRC sylar/http/http11_parser.rl.cpp:3075-3081 http_parser_execute, case 155 *)
Definition case_155 (uri_relaxed : bool) (c : Z) : goto :=
  if (c =? 58) then st 131 else st 0.
(* SRC sylar/http/http11_parser.rl.cpp:3082-3098 http_parser_execute, case 156 *)
Definition case_156 (uri_relaxed : bool) (c : Z) : goto :=
  match c with
  | 46 => st 55
  | 58 => st 131
  | _ =>
  if (c <? 65)
  then if (48 <=? c) && (c <=? 57) then st 157 else st 0
  else if (c >? 70) then if (97 <=? c) && (c <=? 102) then st 153 else st 0 else st 153
  end.
(* SRC sylar/http/http11_parser.rl.cpp:3099-3115 http_parser_execute, case 157 *)
Definition case_157 (uri_relaxed : bool) (c : Z) : goto :=
  match c with
  | 46 => st 55
  | 58 => st 131
  | _ =>
  if (c <? 65)
  then if (48 <=? c) && (c <=? 57) then st 158 else st 0
  else if (c >? 70) then if (97 <=? c) && (c <=? 102) then st 154 else st 0 else st 154
  end.
(* SRC sylar/http/http11_parser.rl.cpp:3116-3132 http_parser_execute, case 158 *)
Definition case_158 (uri_relaxed : bool) (c : Z) : goto :=
  match c with
  | 46 => st 55
  | 58 => st 131
  | _ =>
  if (c <? 65)
  then if (48 <=? c) && (c <=? 57) then st 155 else st 0
  else if (c >? 70) then if (97 <=? c) && (c <=? 102) then st 155 else st 0 else st 155
  end.
(* SRC sylar/http/http11_parser.rl.cpp:3133-3151 http_parser_execute, case 159 *)
Definition case_159 (uri_relaxed : bool) (c : Z) : goto :=
  match c with
  | 46 => st 55
  | 48 => st 160
  | 53 => st 161
  | 58 => st 131
  | _ =>
  if (c <? 65)
  then if (49 <=? c) && (c <=? 57) then st 153 else st 0
  else if (c >? 70) then if (97 <=? c) && (c <=? 102) then st 153 else st 0 else st 153
  end.
(* SRC sylar/http/http11_parser.rl.cpp:3152-3166 http_parser_execute, case 160 *)
Definition case_160 (uri_relaxed : bool) (c : Z) : goto :=
  if (c =? 58)
  then st 131
  else if (c <? 65)
    then if (48 <=? c) && (c <=? 57) then st 158 else st 0
    else if (c >? 70) then if (97 <=? c) && (c <=? 102) then st 154 else st 0 else st 154.
(* SRC sylar/http/http11_parser.rl.cpp:3167-3183 http_parser_execute, case 161 *)
Definition case_161 (uri_relaxed : bool) (c : Z) : goto :=
  match c with
  | 48 => st 158
  | 58 => st 131
  | _ =>
  if (c <? 65)
  then if (49 <=? c) && (c <=? 57) then st 154 else st 0
  else if (c >? 70) then if (97 <=? c) && (c <=? 102) then st 154 else st 0 else st 154
  end.
(* SRC sylar/http/http11_parser.rl.cpp:3184-3198 http_parser_execute, case 162 *)
Definition case_162 (uri_relaxed : bool) (c : Z) : goto :=
  if (c =? 58)
  then st 131
  else if (c <? 65)
    then if (48 <=? c) && (c <=? 57) then st 153 else st 0
    else if (c >? 70) then if (97 <=? c) && (c <=? 102) then st 153 else st 0 else st 153.
(* SRC sylar/http/http11_parser.rl.cpp:3199-3214 http_parser_execute, case 163 *)
Definition case_163 (uri_relaxed : bool) (c : Z) : goto :=
  if (c <? 48)
  then if (2 <=? c) && (c <=? 3) then st 48 else st 0
  else if (c >? 57)
    then (if (c >? 70)
      then if (97 <=? c) && (c <=? 102) then st 49 else st 0
      else if (c >=? 65) then st 49 else st 0)
    else st 49.
(* SRC sylar/http/http11_parser.rl.cpp:3215-3221 http_parser_execute, case 164 *)
Definition case_164 (uri_relaxed : bool) (c : Z) : goto :=
  if (2 <=? c) && (c <=? 3) then st 48 else st 0.
(* SRC sylar/http/http11_parser.rl.cpp:3222-3228 http_parser_execute, case 165 *)
Definition case_165 (uri_relaxed : bool) (c : Z) : goto :=
  if (c =? 3) then st 48 else st 0.
(* SRC sylar/http/http11_parser.rl.cpp:3229-3235 http_parser_execute, case 166 *)
Definition case_166 (uri_relaxed : bool) (c : Z) : goto :=
  if (c =? 4) then st 48 else st 0.
(* SRC sylar/http/http11_parser.rl.cpp:3236-3242 http_parser_execute, case 167 *)
Definition case_167 (uri_relaxed : bool) (c : Z) : goto :=
  if (c =? 58) then st 168 else st 0.
(* SRC sylar/http/http11_parser.rl.cpp:3243-3263 http_parser_execute, case 168 *)
Definition case_168 (uri_relaxed : bool) (c : Z) : goto :=
  match c with
  | 49 => st 143
  | 50 => st 146
  | 93 => st 61
  | _ =>
  if (c <? 48)
  then if (2 <=? c) && (c <=? 5) then st 48 else st 0
  else if (c >? 57)
    then (if (c >? 70)
      then if (97 <=? c) && (c <=? 102) then st 149 else st 0
      else if (c >=? 65) then st 149 else st 0)
    else st 127
  end.
(* SRC sylar/http/http11_parser.rl.cpp:3264-3276 http_parser_execute, case 169 *)
Definition case_169 (uri_relaxed : bool) (c : Z) : goto :=
  if (c <? 65)
  then if (48 <=? c) && (c <=? 57) then st 170 else st 0
  else if (c >? 70) then if (97 <=? c) && (c <=? 102) then st 170 else st 0 else st 170.
(* SRC sylar/http/http11_parser.rl.cpp:3277-3291 http_parser_execute, case 170 *)
Definition case_170 (uri_relaxed : bool) (c : Z) : goto :=
  if (c =? 46)
  then st 171
  else if (c <? 65)
    then if (48 <=? c) && (c <=? 57) then st 170 else st 0
    else if (c >? 70) then if (97 <=? c) && (c <=? 102) then st 170 else st 0 else st 170.
(* SRC sylar/http/http11_parser.rl.cpp:3292-3338 http_parser_execute, case 171 *)
Definition case_171 (uri_relaxed : bool) (c : Z) : goto :=
  let _widec := if (c <? 123)
  then if (94 <=? c) && (c <=? 94) then widen uri_relaxed c else c
  else if (c >? 123)
    then if (125 <=? c) && (c <=? 125) then widen uri_relaxed c else c
    else widen uri_relaxed c in
  match _widec with
  | 33 => st 172
  | 36 => st 172
  | 61 => st 172
  | 95 => st 172
  | 126 => st 172
  | 606 => st 172
  | 635 => st 172
  | 637 => st 172
  | _ =>
  if (_widec <? 48)
  then if (38 <=? _widec) && (_widec <=? 46) then st 172 else st 0
  else if (_widec >? 59)
    then (if (_widec >? 90)
      then if (97 <=? _widec) && (_widec <=? 122) then st 172 else st 0
      else if (_widec >=? 65) then st 172 else st 0)
    else st 172
  end.
(* SRC sylar/http/http11_parser.rl.cpp:3339-3386 http_parser_execute, case 172 *)
Definition case_172 (uri_relaxed : bool) (c : Z) : goto :=
  let _widec := if (c <? 123)
  then if (94 <=? c) && (c <=? 94) then widen uri_relaxed c else c
  else if (c >? 123)
    then if (125 <=? c) && (c <=? 125) then widen uri_relaxed c else c
    else widen uri_relaxed c in
  match _widec with
  | 33 => st 172
  | 36 => st 172
  | 61 => st 172
  | 93 => st 61
  | 95 => st 172
  | 126 => st 172
  | 606 => st 172
  | 635 => st 172
  | 637 => st 172
  | _ =>
  if (_widec <? 48)
  then if (38 <=? _widec) && (_widec <=? 46) then st 172 else st 0
  else if (_widec >? 59)
    then (if (_widec >? 90)
      then if (97 <=? _widec) && (_widec <=? 122) then st 172 else st 0
      else if (_widec >=? 65) then st 172 else st 0)
    else st 172
  end.
(* SRC sylar/http/http11_parser.rl.cpp:3391-3446 http_parser_execute, case 173 *)
Definition case_173 (uri_relaxed : bool) (c : Z) : goto :=
  let _widec := if (c <? 123)
  then if (94 <=? c) && (c <=? 94) then widen uri_relaxed c else c
  else if (c >? 123)
    then if (125 <=? c) && (c <=? 125) then widen uri_relaxed c else c
    else widen uri_relaxed c in
  match _widec with
  | 32 => tr37
  | 33 => st 19
  | 35 => tr39
  | 37 => st 24
  | 43 => st 173
  | 47 => st 26
  | 58 => st 174
  | 59 => st 19
  | 61 => st 19
  | 63 => tr42
  | 64 => st 19
  | 95 => st 19
  | 126 => st 19
  | 606 => st 19
  | 635 => st 19
  | 637 => st 19
  | _ =>
  if (_widec <? 45)
  then if (36 <=? _widec) && (_widec <=? 44) then st 19 else st 0
  else if (_widec >? 57)
    then (if (_widec >? 90)
      then if (97 <=? _widec) && (_widec <=? 122) then st 173 else st 0
      else if (_widec >=? 65) then st 173 else st 0)
    else st 173
  end.
(* SRC sylar/http/http11_parser.rl.cpp:3447-3497 http_parser_execute, case 174 *)
Definition case_174 (uri_relaxed : bool) (c : Z) : goto :=
  let _widec := if (c <? 123)
  then if (94 <=? c) && (c <=? 94) then widen uri_relaxed c else c
  else if (c >? 123)
    then if (125 <=? c) && (c <=? 125) then widen uri_relaxed c else c
    else widen uri_relaxed c in
  match _widec with
  | 32 => tr6
  | 33 => tr203
  | 35 => tr8
  | 37 => tr204
  | 47 => tr10
  | 61 => tr203
  | 63 => tr11
  | 95 => tr203
  | 126 => tr203
  | 606 => tr203
  | 635 => tr203
  | 637 => tr203
  | _ =>
  if (_widec <? 36)
  then if (_widec <=? (-1)) then tr203 else st 0
  else if (_widec >? 59)
    then (if (_widec >? 90)
      then if (97 <=? _widec) && (_widec <=? 122) then tr203 else st 0
      else if (_widec >=? 64) then tr203 else st 0)
    else tr203
  end.
(* SRC sylar/http/http11_parser.rl.cpp:3498-3509 http_parser_execute, case 175 *)
Definition case_175 (uri_relaxed : bool) (c : Z) : goto :=
  if (c =? 32)
  then tr4
  else if (c >? 57)
    then if (65 <=? c) && (c <=? 90) then st 176 else st 0
    else if (c >=? 48) then st 176 else st 0.
(* SRC sylar/http/http11_parser.rl.cpp:3510-3521 http_parser_execute, case 176 *)
Definition case_176 (uri_relaxed : bool) (c : Z) : goto :=
  if (c =? 32)
  then tr4
  else if (c >? 57)
    then if (65 <=? c) && (c <=? 90) then st 177 else st 0
    else if (c >=? 48) then st 177 else st 0.
(* SRC sylar/http/http11_parser.rl.cpp:3522-3533 http_parser_execute, case 177 *)
Definition case_177 (uri_relaxed : bool) (c : Z) : goto :=
  if (c =? 32)
  then tr4
  else if (c >? 57)
    then if (65 <=? c) && (c <=? 90) then st 178 else st 0
    else if (c >=? 48) then st 178 else st 0.
(* SRC sylar/http/http11_parser.rl.cpp:3534-3545 http_parser_execute, case 178 *)
Definition case_178 (uri_relaxed : bool) (c : Z) : goto :=
  if (c =? 32)
  then tr4
  else if (c >? 57)
    then if (65 <=? c) && (c <=? 90) then st 179 else st 0
    else if (c >=? 48) then st 179 else st 0.
(* SRC sylar/http/http11_parser.rl.cpp:3546-3557 http_parser_execute, case 179 *)
Definition case_179 (uri_relaxed : bool) (c : Z) : goto :=
  if (c =? 32)
  then tr4
  else if (c >? 57)
    then if (65 <=? c) && (c <=? 90) then st 180 else st 0
    else if (c >=? 48) then st 180 else st 0.
(* SRC sylar/http/http11_parser.rl.cpp:3558-3569 http_parser_execute, case 180 *)
Definition case_180 (uri_relaxed : bool) (c : Z) : goto :=
  if (c =? 32)
  then tr4
  else if (c >? 57)
    then if (65 <=? c) && (c <=? 90) then st 181 else st 0
    else if (c >=? 48) then st 181 else st 0.
(* SRC sylar/http/http11_parser.rl.cpp:3570-3581 http_parser_execute, case 181 *)
Definition case_181 (uri_relaxed : bool) (c : Z) : goto :=
  if (c =? 32)
  then tr4
  else if (c >? 57)
    then if (65 <=? c) && (c <=? 90) then st 182 else st 0
    else if (c >=? 48) then st 182 else st 0.
(* SRC sylar/http/http11_parser.rl.cpp:3582-3593 http_parser_execute, case 182 *)
Definition case_182 (uri_relaxed : bool) (c : Z) : goto :=
  if (c =? 32)
  then tr4
  else if (c >? 57)
    then if (65 <=? c) && (c <=? 90) then st 183 else st 0
    else if (c >=? 48) then st 183 else st 0.
(* SRC sylar/http/http11_parser.rl.cpp:3594-3605 http_parser_execute, case 183 *)
Definition case_183 (uri_relaxed : bool) (c : Z) : goto :=
  if (c =? 32)
  then tr4
  else if (c >? 57)
    then if (65 <=? c) && (c <=? 90) then st 184 else st 0
    else if (c >=? 48) then st 184 else st 0.
(* SRC sylar/http/http11_parser.rl.cpp:3606-3617 http_parser_execute, case 184 *)
Definition case_184 (uri_relaxed : bool) (c : Z) : goto :=
  if (c =? 32)
  then tr4
  else if (c >? 57)
    then if (65 <=? c) && (c <=? 90) then st 185 else st 0
    else if (c >=? 48) then st 185 else st 0.
(* SRC sylar/http/http11_parser.rl.cpp:3618-3629 http_parser_execute, case 185 *)
Definition case_185 (uri_relaxed : bool) (c : Z) : goto :=
  if (c =? 32)
  then tr4
  else if (c >? 57)
    then if (65 <=? c) && (c <=? 90) then st 186 else st 0
    else if (c >=? 48) then st 186 else st 0.
(* SRC sylar/http/http11_parser.rl.cpp:3630-3641 http_parser_execute, case 186 *)
Definition case_186 (uri_relaxed : bool) (c : Z) : goto :=
  if (c =? 32)
  then tr4
  else if (c >? 57)
    then if (65 <=? c) && (c <=? 90) then st 187 else st 0
    else if (c >=? 48) then st 187 else st 0.
(* SRC sylar/http/http11_parser.rl.cpp:3642-3653 http_parser_execute, case 187 *)
Definition case_187 (uri_relaxed : bool) (c : Z) : goto :=
  if (c =? 32)
  then tr4
  else if (c >? 57)
    then if (65 <=? c) && (c <=? 90) then st 188 else st 0
    else if (c >=? 48) then st 188 else st 0.
(* SRC sylar/http/http11_parser.rl.cpp:3654-3665 http_parser_execute, case 188 *)
Definition case_188 (uri_relaxed : bool) (c : Z) : goto :=
  if (c =? 32)
  then tr4
  else if (c >? 57)
    then if (65 <=? c) && (c <=? 90) then st 189 else st 0
    else if (c >=? 48) then st 189 else st 0.
(* SRC sylar/http/http11_parser.rl.cpp:3666-3677 http_parser_execute, case 189 *)
Definition case_189 (uri_relaxed : bool) (c : Z) : goto :=
  if (c =? 32)
  then tr4
  else if (c >? 57)
    then if (65 <=? c) && (c <=? 90) then st 190 else st 0
    else if (c >=? 48) then st 190 else st 0.
(* SRC sylar/http/http11_parser.rl.cpp:3678-3689 http_parser_execute, case 190 *)
Definition case_190 (uri_relaxed : bool) (c : Z) : goto :=
  if (c =? 32)
  then tr4
  else if (c >? 57)
    then if (65 <=? c) && (c <=? 90) then st 191 else st 0
    else if (c >=? 48) then st 191 else st 0.
(* SRC sylar/http/http11_parser.rl.cpp:3690-3701 http_parser_execute, case 191 *)
Definition case_191 (uri_relaxed : bool) (c : Z) : goto :=
  if (c =? 32)
  then tr4
  else if (c >? 57)
    then if (65 <=? c) && (c <=? 90) then st 192 else st 0
    else if (c >=? 48) then st 192 else st 0.
(* SRC sylar/http/http11_parser.rl.cpp:3702-3713 http_parser_execute, case 192 *)
Definition case_192 (uri_relaxed : bool) (c : Z) : goto :=
  if (c =? 32)
  then tr4
  else if (c >? 57)
    then if (65 <=? c) && (c <=? 90) then st 193 else st 0
    else if (c >=? 48) then st 193 else st 0.
(* SRC sylar/http/http11_parser.rl.cpp:3714-3720 http_parser_execute, case 193 *)
Definition case_193 (uri_relaxed : bool) (c : Z) : goto :=
  if (c =? 32) then tr4 else st 0.
(* SRC sylar/http/http11_parser.rl.cpp:3725-3741 http_parser_execute, case 194 *)
Definition case_194 (uri_relaxed : bool) (c : Z) : goto :=
  if (c <? 48)
  then if (45 <=? c) && (c <=? 46) then st 195 else st 0
  else if (c >? 57)
    then (if (c >? 90)
      then if (97 <=? c) && (c <=? 122) then st 195 else st 0
      else if (c >=? 65) then st 195 else st 0)
    else st 195.
(* SRC sylar/http/http11_parser.rl.cpp:3742-3762 http_parser_execute, case 195 *)
Definition case_195 (uri_relaxed : bool) (c : Z) : goto :=
  match c with
  | 32 => tr224
  | 47 => tr224
  | 62 => tr224
  | _ =>
  if (c <? 45)
  then if (9 <=? c) && (c <=? 13) then tr224 else st 0
  else if (c >? 57)
    then (if (c >? 90)
      then if (97 <=? c) && (c <=? 122) then st 195 else st 0
      else if (c >=? 65) then st 195 else st 0)
    else st 195
  end.
(* SRC sylar/http/http11_parser.rl.cpp:3770-3777 http_parser_execute, case 196 *)
Definition case_196 (uri_relaxed : bool) (c : Z) : goto :=
  if (c =? 62) then st 197 else st 196.
(* SRC sylar/http/http11_parser.rl.cpp:3778-3786 http_parser_execute, case 197 *)
Definition case_197 (uri_relaxed : bool) (c : Z) : goto :=
  match c with
  | 0 => tr227
  | 62 => st 197
  | _ =>
  st 196
  end.
(* SRC sylar/http/http11_parser.rl.cpp:3839-3886 http_parser_execute, case 198 *)
Definition case_198 (uri_relaxed : bool) (c : Z) : goto :=
  let _widec := if (c <? 123)
  then if (94 <=? c) && (c <=? 94) then widen uri_relaxed c else c
  else if (c >? 123)
    then if (125 <=? c) && (c <=? 125) then widen uri_relaxed c else c
    else widen uri_relaxed c in
  match _widec with
  | 32 => tr228
  | 33 => st 202
  | 37 => st 203
  | 47 => st 208
  | 59 => st 202
  | 61 => st 202
  | 95 => st 202
  | 126 => st 202
  | 606 => st 202
  | 635 => st 202
  | 637 => st 202
  | _ =>
  if (_widec <? 64)
  then if (36 <=? _widec) && (_widec <=? 57) then st 202 else st 0
  else if (_widec >? 90) then if (97 <=? _widec) && (_widec <=? 122) then st 202 else st 0 else st 202
  end.
(* SRC sylar/http/http11_parser.rl.cpp:3894-3901 http_parser_execute, case 199 *)
Definition case_199 (uri_relaxed : bool) (c : Z) : goto :=
  if (c =? 123) then tr232 else st 0.
(* SRC sylar/http/http11_parser.rl.cpp:3906-3913 http_parser_execute, case 200 *)
Definition case_200 (uri_relaxed : bool) (c : Z) : goto :=
  if (c =? 125) then st 201 else st 200.
(* SRC sylar/http/http11_parser.rl.cpp:3914-3922 http_parser_execute, case 201 *)
Definition case_201 (uri_relaxed : bool) (c : Z) : goto :=
  match c with
  | 0 => tr235
  | 125 => st 201
  | _ =>
  st 200
  end.
(* SRC sylar/http/http11_parser.rl.cpp:3923-3969 http_parser_execute, case 202 *)
Definition case_202 (uri_relaxed : bool) (c : Z) : goto :=
  let _widec := if (c <? 123)
  then if (94 <=? c) && (c <=? 94) then widen uri_relaxed c else c
  else if (c >? 123)
    then if (125 <=? c) && (c <=? 125) then widen uri_relaxed c else c
    else widen uri_relaxed c in
  match _widec with
  | 32 => tr228
  | 33 => st 202
  | 37 => st 203
  | 47 => st 205
  | 59 => st 202
  | 61 => st 202
  | 95 => st 202
  | 126 => st 202
  | 606 => st 202
  | 635 => st 202
  | 637 => st 202
  | _ =>
  if (_widec <? 64)
  then if (36 <=? _widec) && (_widec <=? 57) then st 202 else st 0
  else if (_widec >? 90) then if (97 <=? _widec) && (_widec <=? 122) then st 202 else st 0 else st 202
  end.
(* SRC sylar/http/http11_parser.rl.cpp:3970-3982 http_parser_execute, case 203 *)
Definition case_203 (uri_relaxed : bool) (c : Z) : goto :=
  if (c <? 65)
  then if (48 <=? c) && (c <=? 57) then st 204 else st 0
  else if (c >? 70) then if (97 <=? c) && (c <=? 102) then st 204 else st 0 else st 204.
(* SRC sylar/http/http11_parser.rl.cpp:3983-3995 http_parser_execute, case 204 *)
Definition case_204 (uri_relaxed : bool) (c : Z) : goto :=
  if (c <? 65)
  then if (48 <=? c) && (c <=? 57) then st 202 else st 0
  else if (c >? 70) then if (97 <=? c) && (c <=? 102) then st 202 else st 0 else st 202.
(* SRC sylar/http/http11_parser.rl.cpp:3996-4043 http_parser_execute, case 205 *)
Definition case_205 (uri_relaxed : bool) (c : Z) : goto :=
  let _widec := if (c <? 123)
  then if (94 <=? c) && (c <=? 94) then widen uri_relaxed c else c
  else if (c >? 123)
    then if (125 <=? c) && (c <=? 125) then widen uri_relaxed c else c
    else widen uri_relaxed c in
  match _widec with
  | 32 => tr228
  | 33 => st 205
  | 37 => st 206
  | 61 => st 205
  | 95 => st 205
  | 126 => st 205
  | 606 => st 205
  | 635 => st 205
  | 637 => st 205
  | _ =>
  if (_widec <? 36)
  then if (_widec <=? (-1)) then st 205 else st 0
  else if (_widec >? 59)
    then (if (_widec >? 90)
      then if (97 <=? _widec) && (_widec <=? 122) then st 205 else st 0
      else if (_widec >=? 64) then st 205 else st 0)
    else st 205
  end.
(* SRC sylar/http/http11_parser.rl.cpp:4044-4056 http_parser_execute, case 206 *)
Definition case_206 (uri_relaxed : bool) (c : Z) : goto :=
  if (c <? 65)
  then if (48 <=? c) && (c <=? 57) then st 207 else st 0
  else if (c >? 70) then if (97 <=? c) && (c <=? 102) then st 207 else st 0 else st 207.
(* SRC sylar/http/http11_parser.rl.cpp:4057-4069 http_parser_execute, case 207 *)
Definition case_207 (uri_relaxed : bool) (c : Z) : goto :=
  if (c <? 65)
  then if (48 <=? c) && (c <=? 57) then st 205 else st 0
  else if (c >? 70) then if (97 <=? c) && (c <=? 102) then st 205 else st 0 else st 205.
(* SRC sylar/http/http11_parser.rl.cpp:4070-4118 http_parser_execute, case 208 *)
Definition case_208 (uri_relaxed : bool) (c : Z) : goto :=
  let _widec := if (c <? 123)
  then if (94 <=? c) && (c <=? 94) then widen uri_relaxed c else c
  else if (c >? 123)
    then if (125 <=? c) && (c <=? 125) then widen uri_relaxed c else c
    else widen uri_relaxed c in
  match _widec with
  | 32 => tr228
  | 33 => st 205
  | 37 => st 206
  | 47 => st 209
  | 61 => st 205
  | 95 => st 205
  | 126 => st 205
  | 606 => st 205
  | 635 => st 205
  | 637 => st 205
  | _ =>
  if (_widec <? 36)
  then if (_widec <=? (-1)) then st 205 else st 0
  else if (_widec >? 59)
    then (if (_widec >? 90)
      then if (97 <=? _widec) && (_widec <=? 122) then st 205 else st 0
      else if (_widec >=? 64) then st 205 else st 0)
    else st 205
  end.
(* SRC sylar/http/http11_parser.rl.cpp:4119-4167 http_parser_execute, case 209 *)
Definition case_209 (uri_relaxed : bool) (c : Z) : goto :=
  let _widec := if (c <? 123)
  then if (94 <=? c) && (c <=? 94) then widen uri_relaxed c else c
  else if (c >? 123)
    then if (125 <=? c) && (c <=? 125) then widen uri_relaxed c else c
    else widen uri_relaxed c in
  match _widec with
  | 32 => tr228
  | 33 => st 210
  | 37 => st 211
  | 47 => st 205
  | 58 => st 213
  | 61 => st 210
  | 64 => st 217
  | 91 => st 222
  | 95 => st 210
  | 126 => st 210
  | 606 => st 210
  | 635 => st 210
  | 637 => st 210
  | _ =>
  if (_widec <? 65)
  then if (36 <=? _widec) && (_widec <=? 59) then st 210 else st 0
  else if (_widec >? 90) then if (97 <=? _widec) && (_widec <=? 122) then st 210 else st 0 else st 210
  end.
(* SRC sylar/http/http11_parser.rl.cpp:4168-4215 http_parser_execute, case 210 *)
Definition case_210 (uri_relaxed : bool) (c : Z) : goto :=
  let _widec := if (c <? 123)
  then if (94 <=? c) && (c <=? 94) then widen uri_relaxed c else c
  else if (c >? 123)
    then if (125 <=? c) && (c <=? 125) then widen uri_relaxed c else c
    else widen uri_relaxed c in
  match _widec with
  | 32 => tr228
  | 33 => st 210
  | 37 => st 211
  | 47 => st 205
  | 58 => st 213
  | 61 => st 210
  | 64 => st 217
  | 95 => st 210
  | 126 => st 210
  | 606 => st 210
  | 635 => st 210
  | 637 => st 210
  | _ =>
  if (_widec <? 65)
  then if (36 <=? _widec) && (_widec <=? 59) then st 210 else st 0
  else if (_widec >? 90) then if (97 <=? _widec) && (_widec <=? 122) then st 210 else st 0 else st 210
  end.
(* SRC sylar/http/http11_parser.rl.cpp:4216-4228 http_parser_execute, case 211 *)
Definition case_211 (uri_relaxed : bool) (c : Z) : goto :=
  if (c <? 65)
  then if (48 <=? c) && (c <=? 57) then st 212 else st 0
  else if (c >? 70) then if (97 <=? c) && (c <=? 102) then st 212 else st 0 else st 212.
(* SRC sylar/http/http11_parser.rl.cpp:4229-4241 http_parser_execute, case 212 *)
Definition case_212 (uri_relaxed : bool) (c : Z) : goto :=
  if (c <? 65)
  then if (48 <=? c) && (c <=? 57) then st 210 else st 0
  else if (c >? 70) then if (97 <=? c) && (c <=? 102) then st 210 else st 0 else st 210.
(* SRC sylar/http/http11_parser.rl.cpp:4242-4294 http_parser_execute, case 213 *)
Definition case_213 (uri_relaxed : bool) (c : Z) : goto :=
  let _widec := if (c <? 123)
  then if (94 <=? c) && (c <=? 94) then widen uri_relaxed c else c
  else if (c >? 123)
    then if (125 <=? c) && (c <=? 125) then widen uri_relaxed c else c
    else widen uri_relaxed c in
  match _widec with
  | 32 => tr228
  | 33 => st 214
  | 37 => st 215
  | 47 => st 205
  | 61 => st 214
  | 64 => st 217
  | 95 => st 214
  | 126 => st 214
  | 606 => st 214
  | 635 => st 214
  | 637 => st 214
  | _ =>
  if (_widec <? 58)
  then (if (_widec >? 46)
    then if (48 <=? _widec) && (_widec <=? 57) then st 213 else st 0
    else if (_widec >=? 36) then st 214 else st 0)
  else if (_widec >? 59)
    then (if (_widec >? 90)
      then if (97 <=? _widec) && (_widec <=? 122) then st 214 else st 0
      else if (_widec >=? 65) then st 214 else st 0)
    else st 214
  end.
(* SRC sylar/http/http11_parser.rl.cpp:4295-4342 http_parser_execute, case 214 *)
Definition case_214 (uri_relaxed : bool) (c : Z) : goto :=
  let _widec := if (c <? 123)
  then if (94 <=? c) && (c <=? 94) then widen uri_relaxed c else c
  else if (c >? 123)
    then if (125 <=? c) && (c <=? 125) then widen uri_relaxed c else c
    else widen uri_relaxed c in
  match _widec with
  | 33 => st 214
  | 37 => st 215
  | 61 => st 214
  | 64 => st 217
  | 95 => st 214
  | 126 => st 214
  | 606 => st 214
  | 635 => st 214
  | 637 => st 214
  | _ =>
  if (_widec <? 48)
  then if (36 <=? _widec) && (_widec <=? 46) then st 214 else st 0
  else if (_widec >? 59)
    then (if (_widec >? 90)
      then if (97 <=? _widec) && (_widec <=? 122) then st 214 else st 0
      else if (_widec >=? 65) then st 214 else st 0)
    else st 214
  end.
(* SRC sylar/http/http11_parser.rl.cpp:4343-4355 http_parser_execute, case 215 *)
Definition case_215 (uri_relaxed : bool) (c : Z) : goto :=
  if (c <? 65)
  then if (48 <=? c) && (c <=? 57) then st 216 else st 0
  else if (c >? 70) then if (97 <=? c) && (c <=? 102) then st 216 else st 0 else st 216.
(* SRC sylar/http/http11_parser.rl.cpp:4356-4368 http_parser_execute, case 216 *)
Definition case_216 (uri_relaxed : bool) (c : Z) : goto :=
  if (c <? 65)
  then if (48 <=? c) && (c <=? 57) then st 214 else st 0
  else if (c >? 70) then if (97 <=? c) && (c <=? 102) then st 214 else st 0 else st 214.
(* SRC sylar/http/http11_parser.rl.cpp:4369-4416 http_parser_execute, case 217 *)
Definition case_217 (uri_relaxed : bool) (c : Z) : goto :=
  let _widec := if (c <? 123)
  then if (94 <=? c) && (c <=? 94) then widen uri_relaxed c else c
  else if (c >? 123)
    then if (125 <=? c) && (c <=? 125) then widen uri_relaxed c else c
    else widen uri_relaxed c in
  match _widec with
  | 32 => tr228
  | 33 => st 218
  | 37 => st 219
  | 47 => st 205
  | 58 => st 221
  | 61 => st 218
  | 91 => st 222
  | 95 => st 218
  | 126 => st 218
  | 606 => st 218
  | 635 => st 218
  | 637 => st 218
  | _ =>
  if (_widec <? 65)
  then if (36 <=? _widec) && (_widec <=? 59) then st 218 else st 0
  else if (_widec >? 90) then if (97 <=? _widec) && (_widec <=? 122) then st 218 else st 0 else st 218
  end.
(* SRC sylar/http/http11_parser.rl.cpp:4417-4463 http_parser_execute, case 218 *)
Definition case_218 (uri_relaxed : bool) (c : Z) : goto :=
  let _widec := if (c <? 123)
  then if (94 <=? c) && (c <=? 94) then widen uri_relaxed c else c
  else if (c >? 123)
    then if (125 <=? c) && (c <=? 125) then widen uri_relaxed c else c
    else widen uri_relaxed c in
  match _widec with
  | 32 => tr228
  | 33 => st 218
  | 37 => st 219
  | 47 => st 205
  | 58 => st 221
  | 61 => st 218
  | 95 => st 218
  | 126 => st 218
  | 606 => st 218
  | 635 => st 218
  | 637 => st 218
  | _ =>
  if (_widec <? 65)
  then if (36 <=? _widec) && (_widec <=? 59) then st 218 else st 0
  else if (_widec >? 90) then if (97 <=? _widec) && (_widec <=? 122) then st 218 else st 0 else st 218
  end.
(* SRC sylar/http/http11_parser.rl.cpp:4464-4476 http_parser_execute, case 219 *)
Definition case_219 (uri_relaxed : bool) (c : Z) : goto :=
  if (c <? 65)
  then if (48 <=? c) && (c <=? 57) then st 220 else st 0
  else if (c >? 70) then if (97 <=? c) && (c <=? 102) then st 220 else st 0 else st 220.
(* SRC sylar/http/http11_parser.rl.cpp:4477-4489 http_parser_execute, case 220 *)
Definition case_220 (uri_relaxed : bool) (c : Z) : goto :=
  if (c <? 65)
  then if (48 <=? c) && (c <=? 57) then st 218 else st 0
  else if (c >? 70) then if (97 <=? c) && (c <=? 102) then st 218 else st 0 else st 218.
(* SRC sylar/http/http11_parser.rl.cpp:4490-4500 http_parser_execute, case 221 *)
Definition case_221 (uri_relaxed : bool) (c : Z) : goto :=
  match c with
  | 32 => tr228
  | 47 => st 205
  | _ =>
  if (48 <=? c) && (c <=? 57) then st 221 else st 0
  end.
(* SRC sylar/http/http11_parser.rl.cpp:4501-4518 http_parser_execute, case 222 *)
Definition case_222 (uri_relaxed : bool) (c : Z) : goto :=
  match c with
  | 6 => st 223
  | 58 => st 342
  | 118 => st 344
  | _ =>
  if (c <? 65)
  then if (48 <=? c) && (c <=? 57) then st 266 else st 0
  else if (c >? 70) then if (97 <=? c) && (c <=? 102) then st 266 else st 0 else st 266
  end.
(* SRC sylar/http/http11_parser.rl.cpp:4519-4531 http_parser_execute, case 223 *)
Definition case_223 (uri_relaxed : bool) (c : Z) : goto :=
  if (c <? 65)
  then if (48 <=? c) && (c <=? 57) then st 224 else st 0
  else if (c >? 70) then if (97 <=? c) && (c <=? 102) then st 224 else st 0 else st 224.
(* SRC sylar/http/http11_parser.rl.cpp:4532-4546 http_parser_execute, case 224 *)
Definition case_224 (uri_relaxed : bool) (c : Z) : goto :=
  if (c =? 58)
  then st 228
  else if (c <? 65)
    then if (48 <=? c) && (c <=? 57) then st 225 else st 0
    else if (c >? 70) then if (97 <=? c) && (c <=? 102) then st 225 else st 0 else st 225.
(* SRC sylar/http/http11_parser.rl.cpp:4547-4561 http_parser_execute, case 225 *)
Definition case_225 (uri_relaxed : bool) (c : Z) : goto :=
  if (c =? 58)
  then st 228
  else if (c <? 65)
    then if (48 <=? c) && (c <=? 57) then st 226 else st 0
    else if (c >? 70) then if (97 <=? c) && (c <=? 102) then st 226 else st 0 else st 226.
(* SRC sylar/http/http11_parser.rl.cpp:4562-4576 http_parser_execute, case 226 *)
Definition case_226 (uri_relaxed : bool) (c : Z) : goto :=
  if (c =? 58)
  then st 228
  else if (c <? 65)
    then if (48 <=? c) && (c <=? 57) then st 227 else st 0
    else if (c >? 70) then if (97 <=? c) && (c <=? 102) then st 227 else st 0 else st 227.
(* SRC sylar/http/http11_parser.rl.cpp:4577-4583 http_parser_execute, case 227 *)
Definition case_227 (uri_relaxed : bool) (c : Z) : goto :=
  if (c =? 58) then st 228 else st 0.
(* SRC sylar/http/http11_parser.rl.cpp:4584-4600 http_parser_execute, case 228 *)
Definition case_228 (uri_relaxed : bool) (c : Z) : goto :=
  match c with
  | 49 => st 259
  | 50 => st 262
  | _ =>
  if (c <? 65)
  then if (48 <=? c) && (c <=? 57) then st 229 else st 0
  else if (c >? 70) then if (97 <=? c) && (c <=? 102) then st 265 else st 0 else st 265
  end.
(* SRC sylar/http/http11_parser.rl.cpp:4601-4617 http_parser_execute, case 229 *)
Definition case_229 (uri_relaxed : bool) (c : Z) : goto :=
  match c with
  | 46 => st 230
  | 58 => st 255
  | _ =>
  if (c <? 65)
  then if (48 <=? c) && (c <=? 57) then st 252 else st 0
  else if (c >? 70) then if (97 <=? c) && (c <=? 102) then st 252 else st 0 else st 252
  end.
(* SRC sylar/http/http11_parser.rl.cpp:4618-4628 http_parser_execute, case 230 *)
Definition case_230 (uri_relaxed : bool) (c : Z) : goto :=
  match c with
  | 49 => st 247
  | 50 => st 249
  | _ =>
  if (48 <=? c) && (c <=? 57) then st 231 else st 0
  end.
(* SRC sylar/http/http11_parser.rl.cpp:4629-4635 http_parser_execute, case 231 *)
Definition case_231 (uri_relaxed : bool) (c : Z) : goto :=
  if (c =? 46) then st 232 else st 0.
(* SRC sylar/http/http11_parser.rl.cpp:4636-4646 http_parser_execute, case 232 *)
Definition case_232 (uri_relaxed : bool) (c : Z) : goto :=
  match c with
  | 49 => st 242
  | 50 => st 244
  | _ =>
  if (48 <=? c) && (c <=? 57) then st 233 else st 0
  end.
(* SRC sylar/http/http11_parser.rl.cpp:4647-4653 http_parser_execute, case 233 *)
Definition case_233 (uri_relaxed : bool) (c : Z) : goto :=
  if (c =? 46) then st 234 else st 0.
(* SRC sylar/http/http11_parser.rl.cpp:4654-4664 http_parser_execute, case 234 *)
Definition case_234 (uri_relaxed : bool) (c : Z) : goto :=
  match c with
  | 49 => st 237
  | 50 => st 239
  | _ =>
  if (48 <=? c) && (c <=? 57) then st 235 else st 0
  end.
(* SRC sylar/http/http11_parser.rl.cpp:4665-4671 http_parser_execute, case 235 *)
Definition case_235 (uri_relaxed : bool) (c : Z) : goto :=
  if (c =? 93) then st 236 else st 0.
(* SRC sylar/http/http11_parser.rl.cpp:4672-4681 http_parser_execute, case 236 *)
Definition case_236 (uri_relaxed : bool) (c : Z) : goto :=
  match c with
  | 32 => tr228
  | 47 => st 205
  | 58 => st 221
  | _ =>
  st 0
  end.
(* SRC sylar/http/http11_parser.rl.cpp:4682-4690 http_parser_execute, case 237 *)
Definition case_237 (uri_relaxed : bool) (c : Z) : goto :=
  if (c =? 93) then st 236 else if (48 <=? c) && (c <=? 57) then st 238 else st 0.
(* SRC sylar/http/http11_parser.rl.cpp:4691-4699 http_parser_execute, case 238 *)
Definition case_238 (uri_relaxed : bool) (c : Z) : goto :=
  if (c =? 93) then st 236 else if (48 <=? c) && (c <=? 57) then st 235 else st 0.
(* SRC sylar/http/http11_parser.rl.cpp:4700-4709 http_parser_execute, case 239 *)
Definition case_239 (uri_relaxed : bool) (c : Z) : goto :=
  match c with
  | 48 => st 240
  | 53 => st 241
  | 93 => st 236
  | _ =>
  st 0
  end.
(* SRC sylar/http/http11_parser.rl.cpp:4710-4716 http_parser_execute, case 240 *)
Definition case_240 (uri_relaxed : bool) (c : Z) : goto :=
  if (48 <=? c) && (c <=? 57) then st 235 else st 0.
(* SRC sylar/http/http11_parser.rl.cpp:4717-4723 http_parser_execute, case 241 *)
Definition case_241 (uri_relaxed : bool) (c : Z) : goto :=
  if (c =? 48) then st 235 else st 0.
(* SRC sylar/http/http11_parser.rl.cpp:4724-4732 http_parser_execute, case 242 *)
Definition case_242 (uri_relaxed : bool) (c : Z) : goto :=
  if (c =? 46) then st 234 else if (48 <=? c) && (c <=? 57) then st 243 else st 0.
(* SRC sylar/http/http11_parser.rl.cpp:4733-4741 http_parser_execute, case 243 *)
Definition case_243 (uri_relaxed : bool) (c : Z) : goto :=
  if (c =? 46) then st 234 else if (48 <=? c) && (c <=? 57) then st 233 else st 0.
(* SRC sylar/http/http11_parser.rl.cpp:4742-4751 http_parser_execute, case 244 *)
Definition case_244 (uri_relaxed : bool) (c : Z) : goto :=
  match c with
  | 46 => st 234
  | 48 => st 245
  | 53 => st 246
  | _ =>
  st 0
  end.
(* SRC sylar/http/http11_parser.rl.cpp:4752-4758 http_parser_execute, case 245 *)
Definition case_245 (uri_relaxed : bool) (c : Z) : goto :=
  if (48 <=? c) && (c <=? 57) then st 233 else st 0.
(* SRC sylar/http/http11_parser.rl.cpp:4759-4765 http_parser_execute, case 246 *)
Definition case_246 (uri_relaxed : bool) (c : Z) : goto :=
  if (c =? 48) then st 233 else st 0.
(* SRC sylar/http/http11_parser.rl.cpp:4766-4774 http_parser_execute, case 247 *)
Definition case_247 (uri_relaxed : bool) (c : Z) : goto :=
  if (c =? 46) then st 232 else if (48 <=? c) && (c <=? 57) then st 248 else st 0.
(* SRC sylar/http/http11_parser.rl.cpp:4775-4783 http_parser_execute, case 248 *)
Definition case_248 (uri_relaxed : bool) (c : Z) : goto :=
  if (c =? 46) then st 232 else if (48 <=? c) && (c <=? 57) then st 231 else st 0.
(* SRC sylar/http/http11_parser.rl.cpp:4784-4793 http_parser_execute, case 249 *)
Definition case_249 (uri_relaxed : bool) (c : Z) : goto :=
  match c with
  | 46 => st 232
  | 48 => st 250
  | 53 => st 251
  | _ =>
  st 0
  end.
(* SRC sylar/http/http11_parser.rl.cpp:4794-4800 http_parser_execute, case 250 *)
Definition case_250 (uri_relaxed : bool) (c : Z) : goto :=
  if (48 <=? c) && (c <=? 57) then st 231 else st 0.
(* SRC sylar/http/http11_parser.rl.cpp:4801-4807 http_parser_execute, case 251 *)
Definition case_251 (uri_relaxed : bool) (c : Z) : goto :=
  if (c =? 48) then st 231 else st 0.
(* SRC sylar/http/http11_parser.rl.cpp:4808-4822 http_parser_execute, case 252 *)
Definition case_252 (uri_relaxed : bool) (c : Z) : goto :=
  if (c =? 58)
  then st 255
  else if (c <? 65)
    then if (48 <=? c) && (c <=? 57) then st 253 else st 0
    else if (c >? 70) then if (97 <=? c) && (c <=? 102) then st 253 else st 0 else st 253.
(* SRC sylar/http/http11_parser.rl.cpp:4823-4837 http_parser_execute, case 253 *)
Definition case_253 (uri_relaxed : bool) (c : Z) : goto :=
  if (c =? 58)
  then st 255
  else if (c <? 65)
    then if (48 <=? c) && (c <=? 57) then st 254 else st 0
    else if (c >? 70) then if (97 <=? c) && (c <=? 102) then st 254 else st 0 else st 254.
(* SRC sylar/http/http11_parser.rl.cpp:4838-4844 http_parser_execute, case 254 *)
Definition case_254 (uri_relaxed : bool) (c : Z) : goto :=
  if (c =? 58) then st 255 else st 0.
(* SRC sylar/http/http11_parser.rl.cpp:4845-4857 http_parser_execute, case 255 *)
Definition case_255 (uri_relaxed : bool) (c : Z) : goto :=
  if (c <? 65)
  then if (48 <=? c) && (c <=? 57) then st 256 else st 0
  else if (c >? 70) then if (97 <=? c) && (c <=? 102) then st 256 else st 0 else st 256.
(* SRC sylar/http/http11_parser.rl.cpp:4858-4872 http_parser_execute, case 256 *)
Definition case_256 (uri_relaxed : bool) (c : Z) : goto :=
  if (c =? 93)
  then st 236
  else if (c <? 65)
    then if (48 <=? c) && (c <=? 57) then st 257 else st 0
    else if (c >? 70) then if (97 <=? c) && (c <=? 102) then st 257 else st 0 else st 257.
(* SRC sylar/http/http11_parser.rl.cpp:4873-4887 http_parser_execute, case 257 *)
Definition case_257 (uri_relaxed : bool) (c : Z) : goto :=
  if (c =? 93)
  then st 236
  else if (c <? 65)
    then if (48 <=? c) && (c <=? 57) then st 258 else st 0
    else if (c >? 70) then if (97 <=? c) && (c <=? 102) then st 258 else st 0 else st 258.
(* SRC sylar/http/http11_parser.rl.cpp:4888-4902 http_parser_execute, case 258 *)
Definition case_258 (uri_relaxed : bool) (c : Z) : goto :=
  if (c =? 93)
  then st 236
  else if (c <? 65)
    then if (48 <=? c) && (c <=? 57) then st 235 else st 0
    else if (c >? 70) then if (97 <=? c) && (c <=? 102) then st 235 else st 0 else st 235.
(* SRC sylar/http/http11_parser.rl.cpp:4903-4919 http_parser_execute, case 259 *)
Definition case_259 (uri_relaxed : bool) (c : Z) : goto :=
  match c with
  | 46 => st 230
  | 58 => st 255
  | _ =>
  if (c <? 65)
  then if (48 <=? c) && (c <=? 57) then st 260 else st 0
  else if (c >? 70) then if (97 <=? c) && (c <=? 102) then st 252 else st 0 else st 252
  end.
(* SRC sylar/http/http11_parser.rl.cpp:4920-4936 http_parser_execute, case 260 *)
Definition case_260 (uri_relaxed : bool) (c : Z) : goto :=
  match c with
  | 46 => st 230
  | 58 => st 255
  | _ =>
  if (c <? 65)
  then if (48 <=? c) && (c <=? 57) then st 261 else st 0
  else if (c >? 70) then if (97 <=? c) && (c <=? 102) then st 253 else st 0 else st 253
  end.
(* SRC sylar/http/http11_parser.rl.cpp:4937-4953 http_parser_execute, case 261 *)
Definition case_261 (uri_relaxed : bool) (c : Z) : goto :=
  match c with
  | 46 => st 230
  | 58 => st 255
  | _ =>
  if (c <? 65)
  then if (48 <=? c) && (c <=? 57) then st 254 else st 0
  else if (c >? 70) then if (97 <=? c) && (c <=? 102) then st 254 else st 0 else st 254
  end.
(* SRC sylar/http/http11_parser.rl.cpp:4954-4972 http_parser_execute, case 262 *)
Definition case_262 (uri_relaxed : bool) (c : Z) : goto :=
  match c with
  | 46 => st 230
  | 48 => st 263
  | 53 => st 264
  | 58 => st 255
  | _ =>
  if (c <? 65)
  then if (49 <=? c) && (c <=? 57) then st 252 else st 0
  else if (c >? 70) then if (97 <=? c) && (c <=? 102) then st 252 else st 0 else st 252
  end.
(* SRC sylar/http/http11_parser.rl.cpp:4973-4987 http_parser_execute, case 263 *)
Definition case_263 (uri_relaxed : bool) (c : Z) : goto :=
  if (c =? 58)
  then st 255
  else if (c <? 65)
    then if (48 <=? c) && (c <=? 57) then st 261 else st 0
    else if (c >? 70) then if (97 <=? c) && (c <=? 102) then st 253 else st 0 else st 253.
(* SRC sylar/http/http11_parser.rl.cpp:4988-5004 http_parser_execute, case 264 *)
Definition case_264 (uri_relaxed : bool) (c : Z) : goto :=
  match c with
  | 48 => st 261
  | 58 => st 255
  | _ =>
  if (c <? 65)
  then if (49 <=? c) && (c <=? 57) then st 253 else st 0
  else if (c >? 70) then if (97 <=? c) && (c <=? 102) then st 253 else st 0 else st 253
  end.
(* SRC sylar/http/http11_parser.rl.cpp:5005-5019 http_parser_execute, case 265 *)
Definition case_265 (uri_relaxed : bool) (c : Z) : goto :=
  if (c =? 58)
  then st 255
  else if (c <? 65)
    then if (48 <=? c) && (c <=? 57) then st 252 else st 0
    else if (c >? 70) then if (97 <=? c) && (c <=? 102) then st 252 else st 0 else st 252.
(* SRC sylar/http/http11_parser.rl.cpp:5020-5034 http_parser_execute, case 266 *)
Definition case_266 (uri_relaxed : bool) (c : Z) : goto :=
  if (c =? 58)
  then st 270
  else if (c <? 65)
    then if (48 <=? c) && (c <=? 57) then st 267 else st 0
    else if (c >? 70) then if (97 <=? c) && (c <=? 102) then st 267 else st 0 else st 267.
(* SRC sylar/http/http11_parser.rl.cpp:5035-5049 http_parser_execute, case 267 *)
Definition case_267 (uri_relaxed : bool) (c : Z) : goto :=
  if (c =? 58)
  then st 270
  else if (c <? 65)
    then if (48 <=? c) && (c <=? 57) then st 268 else st 0
    else if (c >? 70) then if (97 <=? c) && (c <=? 102) then st 268 else st 0 else st 268.
(* SRC sylar/http/http11_parser.rl.cpp:5050-5064 http_parser_execute, case 268 *)
Definition case_268 (uri_relaxed : bool) (c : Z) : goto :=
  if (c =? 58)
  then st 270
  else if (c <? 65)
    then if (48 <=? c) && (c <=? 57) then st 269 else st 0
    else if (c >? 70) then if (97 <=? c) && (c <=? 102) then st 269 else st 0 else st 269.
(* SRC sylar/http/http11_parser.rl.cpp:5065-5071 http_parser_execute, case 269 *)
Definition case_269 (uri_relaxed : bool) (c : Z) : goto :=
  if (c =? 58) then st 270 else st 0.
(* SRC sylar/http/http11_parser.rl.cpp:5072-5086 http_parser_execute, case 270 *)
Definition case_270 (uri_relaxed : bool) (c : Z) : goto :=
  if (c =? 58)
  then st 341
  else if (c <? 65)
    then if (48 <=? c) && (c <=? 57) then st 271 else st 0
    else if (c >? 70) then if (97 <=? c) && (c <=? 102) then st 271 else st 0 else st 271.
(* SRC sylar/http/http11_parser.rl.cpp:5087-5101 http_parser_execute, case 271 *)
Definition case_271 (uri_relaxed : bool) (c : Z) : goto :=
  if (c =? 58)
  then st 275
  else if (c <? 65)
    then if (48 <=? c) && (c <=? 57) then st 272 else st 0
    else if (c >? 70) then if (97 <=? c) && (c <=? 102) then st 272 else st 0 else st 272.
(* SRC sylar/http/http11_parser.rl.cpp:5102-5116 http_parser_execute, case 272 *)
Definition case_272 (uri_relaxed : bool) (c : Z) : goto :=
  if (c =? 58)
  then st 275
  else if (c <? 65)
    then if (48 <=? c) && (c <=? 57) then st 273 else st 0
    else if (c >? 70) then if (97 <=? c) && (c <=? 102) then st 273 else st 0 else st 273.
(* SRC sylar/http/http11_parser.rl.cpp:5117-5131 http_parser_execute, case 273 *)
Definition case_273 (uri_relaxed : bool) (c : Z) : goto :=
  if (c =? 58)
  then st 275
  else if (c <? 65)
    then if (48 <=? c) && (c <=? 57) then st 274 else st 0
    else if (c >? 70) then if (97 <=? c) && (c <=? 102) then st 274 else st 0 else st 274.
(* SRC sylar/http/http11_parser.rl.cpp:5132-5138 http_parser_execute, case 274 *)
Definition case_274 (uri_relaxed : bool) (c : Z) : goto :=
  if (c =? 58) then st 275 else st 0.
(* SRC sylar/http/http11_parser.rl.cpp:5139-5153 http_parser_execute, case 275 *)
Definition case_275 (uri_relaxed : bool) (c : Z) : goto :=
  if (c =? 58)
  then st 340
  else if (c <? 65)
    then if (48 <=? c) && (c <=? 57) then st 276 else st 0
    else if (c >? 70) then if (97 <=? c) && (c <=? 102) then st 276 else st 0 else st 276.
(* SRC sylar/http/http11_parser.rl.cpp:5154-5168 http_parser_execute, case 276 *)
Definition case_276 (uri_relaxed : bool) (c : Z) : goto :=
  if (c =? 58)
  then st 280
  else if (c <? 65)
    then if (48 <=? c) && (c <=? 57) then st 277 else st 0
    else if (c >? 70) then if (97 <=? c) && (c <=? 102) then st 277 else st 0 else st 277.
(* SRC sylar/http/http11_parser.rl.cpp:5169-5183 http_parser_execute, case 277 *)
Definition case_277 (uri_relaxed : bool) (c : Z) : goto :=
  if (c =? 58)
  then st 280
  else if (c <? 65)
    then if (48 <=? c) && (c <=? 57) then st 278 else st 0
    else if (c >? 70) then if (97 <=? c) && (c <=? 102) then st 278 else st 0 else st 278.
(* SRC sylar/http/http11_parser.rl.cpp:5184-5198 http_parser_execute, case 278 *)
Definition case_278 (uri_relaxed : bool) (c : Z) : goto :=
  if (c =? 58)
  then st 280
  else if (c <? 65)
    then if (48 <=? c) && (c <=? 57) then st 279 else st 0
    else if (c >? 70) then if (97 <=? c) && (c <=? 102) then st 279 else st 0 else st 279.
(* SRC sylar/http/http11_parser.rl.cpp:5199-5205 http_parser_execute, case 279 *)
Definition case_279 (uri_relaxed : bool) (c : Z) : goto :=
  if (c =? 58) then st 280 else st 0.
(* SRC sylar/http/http11_parser.rl.cpp:5206-5220 http_parser_execute, case 280 *)
Definition case_280 (uri_relaxed : bool) (c : Z) : goto :=
  if (c =? 58)
  then st 339
  else if (c <? 65)
    then if (48 <=? c) && (c <=? 57) then st 281 else st 0
    else if (c >? 70) then if (97 <=? c) && (c <=? 102) then st 281 else st 0 else st 281.
(* SRC sylar/http/http11_parser.rl.cpp:5221-5235 http_parser_execute, case 281 *)
Definition case_281 (uri_relaxed : bool) (c : Z) : goto :=
  if (c =? 58)
  then st 285
  else if (c <? 65)
    then if (48 <=? c) && (c <=? 57) then st 282 else st 0
    else if (c >? 70) then if (97 <=? c) && (c <=? 102) then st 282 else st 0 else st 282.
(* SRC sylar/http/http11_parser.rl.cpp:5236-5250 http_parser_execute, case 282 *)
Definition case_282 (uri_relaxed : bool) (c : Z) : goto :=
  if (c =? 58)
  then st 285
  else if (c <? 65)
    then if (48 <=? c) && (c <=? 57) then st 283 else st 0
    else if (c >? 70) then if (97 <=? c) && (c <=? 102) then st 283 else st 0 else st 283.
(* SRC sylar/http/http11_parser.rl.cpp:5251-5265 http_parser_execute, case 283 *)
Definition case_283 (uri_relaxed : bool) (c : Z) : goto :=
  if (c =? 58)
  then st 285
  else if (c <? 65)
    then if (48 <=? c) && (c <=? 57) then st 284 else st 0
    else if (c >? 70) then if (97 <=? c) && (c <=? 102) then st 284 else st 0 else st 284.
(* SRC sylar/http/http11_parser.rl.cpp:5266-5272 http_parser_execute, case 284 *)
Definition case_284 (uri_relaxed : bool) (c : Z) : goto :=
  if (c =? 58) then st 285 else st 0.
(* SRC sylar/http/http11_parser.rl.cpp:5273-5287 http_parser_execute, case 285 *)
Definition case_285 (uri_relaxed : bool) (c : Z) : goto :=
  if (c =? 58)
  then st 338
  else if (c <? 65)
    then if (48 <=? c) && (c <=? 57) then st 286 else st 0
    else if (c >? 70) then if (97 <=? c) && (c <=? 102) then st 286 else st 0 else st 286.
(* SRC sylar/http/http11_parser.rl.cpp:5288-5302 http_parser_execute, case 286 *)
Definition case_286 (uri_relaxed : bool) (c : Z) : goto :=
  if (c =? 58)
  then st 290
  else if (c <? 65)
    then if (48 <=? c) && (c <=? 57) then st 287 else st 0
    else if (c >? 70) then if (97 <=? c) && (c <=? 102) then st 287 else st 0 else st 287.
(* SRC sylar/http/http11_parser.rl.cpp:5303-5317 http_parser_execute, case 287 *)
Definition case_287 (uri_relaxed : bool) (c : Z) : goto :=
  if (c =? 58)
  then st 290
  else if (c <? 65)
    then if (48 <=? c) && (c <=? 57) then st 288 else st 0
    else if (c >? 70) then if (97 <=? c) && (c <=? 102) then st 288 else st 0 else st 288.
(* SRC sylar/http/http11_parser.rl.cpp:5318-5332 http_parser_execute, case 288 *)
Definition case_288 (uri_relaxed : bool) (c : Z) : goto :=
  if (c =? 58)
  then st 290
  else if (c <? 65)
    then if (48 <=? c) && (c <=? 57) then st 289 else st 0
    else if (c >? 70) then if (97 <=? c) && (c <=? 102) then st 289 else st 0 else st 289.
(* SRC sylar/http/http11_parser.rl.cpp:5333-5339 http_parser_execute, case 289 *)
Definition case_289 (uri_relaxed : bool) (c : Z) : goto :=
  if (c =? 58) then st 290 else st 0.
(* SRC sylar/http/http11_parser.rl.cpp:5340-5354 http_parser_execute, case 290 *)
Definition case_290 (uri_relaxed : bool) (c : Z) : goto :=
  if (c =? 58)
  then st 326
  else if (c <? 65)
    then if (48 <=? c) && (c <=? 57) then st 291 else st 0
    else if (c >? 70) then if (97 <=? c) && (c <=? 102) then st 291 else st 0 else st 291.
(* SRC sylar/http/http11_parser.rl.cpp:5355-5369 http_parser_execute, case 291 *)
Definition case_291 (uri_relaxed : bool) (c : Z) : goto :=
  if (c =? 58)
  then st 295
  else if (c <? 65)
    then if (48 <=? c) && (c <=? 57) then st 292 else st 0
    else if (c >? 70) then if (97 <=? c) && (c <=? 102) then st 292 else st 0 else st 292.
(* SRC sylar/http/http11_parser.rl.cpp:5370-5384 http_parser_execute, case 292 *)
Definition case_292 (uri_relaxed : bool) (c : Z) : goto :=
  if (c =? 58)
  then st 295
  else if (c <? 65)
    then if (48 <=? c) && (c <=? 57) then st 293 else st 0
    else if (c >? 70) then if (97 <=? c) && (c <=? 102) then st 293 else st 0 else st 293.
(* SRC sylar/http/http11_parser.rl.cpp:5385-5399 http_parser_execute, case 293 *)
Definition case_293 (uri_relaxed : bool) (c : Z) : goto :=
  if (c =? 58)
  then st 295
  else if (c <? 65)
    then if (48 <=? c) && (c <=? 57) then st 294 else st 0
    else if (c >? 70) then if (97 <=? c) && (c <=? 102) then st 294 else st 0 else st 294.
(* SRC sylar/http/http11_parser.rl.cpp:5400-5406 http_parser_execute, case 294 *)
Definition case_294 (uri_relaxed : bool) (c : Z) : goto :=
  if (c =? 58) then st 295 else st 0.
(* SRC sylar/http/http11_parser.rl.cpp:5407-5421 http_parser_execute, case 295 *)
Definition case_295 (uri_relaxed : bool) (c : Z) : goto :=
  if (c =? 58)
  then st 325
  else if (c <? 65)
    then if (48 <=? c) && (c <=? 57) then st 296 else st 0
    else if (c >? 70) then if (97 <=? c) && (c <=? 102) then st 296 else st 0 else st 296.
(* SRC sylar/http/http11_parser.rl.cpp:5422-5436 http_parser_execute, case 296 *)
Definition case_296 (uri_relaxed : bool) (c : Z) : goto :=
  if (c =? 58)
  then st 300
  else if (c <? 65)
    then if (48 <=? c) && (c <=? 57) then st 297 else st 0
    else if (c >? 70) then if (97 <=? c) && (c <=? 102) then st 297 else st 0 else st 297.
(* SRC sylar/http/http11_parser.rl.cpp:5437-5451 http_parser_execute, case 297 *)
Definition case_297 (uri_relaxed : bool) (c : Z) : goto :=
  if (c =? 58)
  then st 300
  else if (c <? 65)
    then if (48 <=? c) && (c <=? 57) then st 298 else st 0
    else if (c >? 70) then if (97 <=? c) && (c <=? 102) then st 298 else st 0 else st 298.
(* SRC sylar/http/http11_parser.rl.cpp:5452-5466 http_parser_execute, case 298 *)
Definition case_298 (uri_relaxed : bool) (c : Z) : goto :=
  if (c =? 58)
  then st 300
  else if (c <? 65)
    then if (48 <=? c) && (c <=? 57) then st 299 else st 0
    else if (c >? 70) then if (97 <=? c) && (c <=? 102) then st 299 else st 0 else st 299.
(* SRC sylar/http/http11_parser.rl.cpp:5467-5473 http_parser_execute, case 299 *)
Definition case_299 (uri_relaxed : bool) (c : Z) : goto :=
  if (c =? 58) then st 300 else st 0.
(* SRC sylar/http/http11_parser.rl.cpp:5474-5488 http_parser_execute, case 300 *)
Definition case_300 (uri_relaxed : bool) (c : Z) : goto :=
  if (c =? 58)
  then st 301
  else if (c <? 65)
    then if (48 <=? c) && (c <=? 57) then st 296 else st 0
    else if (c >? 70) then if (97 <=? c) && (c <=? 102) then st 296 else st 0 else st 296.
(* SRC sylar/http/http11_parser.rl.cpp:5489-5509 http_parser_execute, case 301 *)
Definition case_301 (uri_relaxed : bool) (c : Z) : goto :=
  match c with
  | 49 => st 318
  | 50 => st 321
  | 93 => st 236
  | _ =>
  if (c <? 48)
  then if (2 <=? c) && (c <=? 3) then st 223 else st 0
  else if (c >? 57)
    then (if (c >? 70)
      then if (97 <=? c) && (c <=? 102) then st 324 else st 0
      else if (c >=? 65) then st 324 else st 0)
    else st 302
  end.
(* SRC sylar/http/http11_parser.rl.cpp:5510-5527 http_parser_execute, case 302 *)
Definition case_302 (uri_relaxed : bool) (c : Z) : goto :=
  match c with
  | 46 => st 230
  | 58 => st 306
  | 93 => st 236
  | _ =>
  if (c <? 65)
  then if (48 <=? c) && (c <=? 57) then st 303 else st 0
  else if (c >? 70) then if (97 <=? c) && (c <=? 102) then st 303 else st 0 else st 303
  end.
(* SRC sylar/http/http11_parser.rl.cpp:5528-5544 http_parser_execute, case 303 *)
Definition case_303 (uri_relaxed : bool) (c : Z) : goto :=
  match c with
  | 58 => st 306
  | 93 => st 236
  | _ =>
  if (c <? 65)
  then if (48 <=? c) && (c <=? 57) then st 304 else st 0
  else if (c >? 70) then if (97 <=? c) && (c <=? 102) then st 304 else st 0 else st 304
  end.
(* SRC sylar/http/http11_parser.rl.cpp:5545-5561 http_parser_execute, case 304 *)
Definition case_304 (uri_relaxed : bool) (c : Z) : goto :=
  match c with
  | 58 => st 306
  | 93 => st 236
  | _ =>
  if (c <? 65)
  then if (48 <=? c) && (c <=? 57) then st 305 else st 0
  else if (c >? 70) then if (97 <=? c) && (c <=? 102) then st 305 else st 0 else st 305
  end.
(* SRC sylar/http/http11_parser.rl.cpp:5562-5570 http_parser_execute, case 305 *)
Definition case_305 (uri_relaxed : bool) (c : Z) : goto :=
  match c with
  | 58 => st 306
  | 93 => st 236
  | _ =>
  st 0
  end.
(* SRC sylar/http/http11_parser.rl.cpp:5571-5587 http_parser_execute, case 306 *)
Definition case_306 (uri_relaxed : bool) (c : Z) : goto :=
  match c with
  | 49 => st 311
  | 50 => st 314
  | _ =>
  if (c <? 65)
  then if (48 <=? c) && (c <=? 57) then st 307 else st 0
  else if (c >? 70) then if (97 <=? c) && (c <=? 102) then st 317 else st 0 else st 317
  end.
(* SRC sylar/http/http11_parser.rl.cpp:5588-5605 http_parser_execute, case 307 *)
Definition case_307 (uri_relaxed : bool) (c : Z) : goto :=
  match c with
  | 46 => st 230
  | 58 => st 255
  | 93 => st 236
  | _ =>
  if (c <? 65)
  then if (48 <=? c) && (c <=? 57) then st 308 else st 0
  else if (c >? 70) then if (97 <=? c) && (c <=? 102) then st 308 else st 0 else st 308
  end.
(* SRC sylar/http/http11_parser.rl.cpp:5606-5622 http_parser_execute, case 308 *)
Definition case_308 (uri_relaxed : bool) (c : Z) : goto :=
  match c with
  | 58 => st 255
  | 93 => st 236
  | _ =>
  if (c <? 65)
  then if (48 <=? c) && (c <=? 57) then st 309 else st 0
  else if (c >? 70) then if (97 <=? c) && (c <=? 102) then st 309 else st 0 else st 309
  end.
(* SRC sylar/http/http11_parser.rl.cpp:5623-5639 http_parser_execute, case 309 *)
Definition case_309 (uri_relaxed : bool) (c : Z) : goto :=
  match c with
  | 58 => st 255
  | 93 => st 236
  | _ =>
  if (c <? 65)
  then if (48 <=? c) && (c <=? 57) then st 310 else st 0
  else if (c >? 70) then if (97 <=? c) && (c <=? 102) then st 310 else st 0 else st 310
  end.
(* SRC sylar/http/http11_parser.rl.cpp:5640-5648 http_parser_execute, case 310 *)
Definition case_310 (uri_relaxed : bool) (c : Z) : goto :=
  match c with
  | 58 => st 255
  | 93 => st 236
  | _ =>
  st 0
  end.
(* SRC sylar/http/http11_parser.rl.cpp:5649-5666 http_parser_execute, case 311 *)
Definition case_311 (uri_relaxed : bool) (c : Z) : goto :=
  match c with
  | 46 => st 230
  | 58 => st 255
  | 93 => st 236
  | _ =>
  if (c <? 65)
  then if (48 <=? c) && (c <=? 57) then st 312 else st 0
  else if (c >? 70) then if (97 <=? c) && (c <=? 102) then st 308 else st 0 else st 308
  end.
(* SRC sylar/http/http11_parser.rl.cpp:5667-5684 http_parser_execute, case 312 *)
Definition case_312 (uri_relaxed : bool) (c : Z) : goto :=
  match c with
  | 46 => st 230
  | 58 => st 255
  | 93 => st 236
  | _ =>
  if (c <? 65)
  then if (48 <=? c) && (c <=? 57) then st 313 else st 0
  else if (c >? 70) then if (97 <=? c) && (c <=? 102) then st 309 else st 0 else st 309
  end.
(* SRC sylar/http/http11_parser.rl.cpp:5685-5702 http_parser_execute, case 313 *)
Definition case_313 (uri_relaxed : bool) (c : Z) : goto :=
  match c with
  | 46 => st 230
  | 58 => st 255
  | 93 => st 236
  | _ =>
  if (c <? 65)
  then if (48 <=? c) && (c <=? 57) then st 310 else st 0
  else if (c >? 70) then if (97 <=? c) && (c <=? 102) then st 310 else st 0 else st 310
  end.
(* SRC sylar/http/http11_parser.rl.cpp:5703-5722 http_parser_execute, case 314 *)
Definition case_314 (uri_relaxed : bool) (c : Z) : goto :=
  match c with
  | 46 => st 230
  | 48 => st 315
  | 53 => st 316
  | 58 => st 255
  | 93 => st 236
  | _ =>
  if (c <? 65)
  then if (49 <=? c) && (c <=? 57) then st 308 else st 0
  else if (c >? 70) then if (97 <=? c) && (c <=? 102) then st 308 else st 0 else st 308
  end.
(* SRC sylar/http/http11_parser.rl.cpp:5723-5739 http_parser_execute, case 315 *)
Definition case_315 (uri_relaxed : bool) (c : Z) : goto :=
  match c with
  | 58 => st 255
  | 93 => st 236
  | _ =>
  if (c <? 65)
  then if (48 <=? c) && (c <=? 57) then st 313 else st 0
  else if (c >? 70) then if (97 <=? c) && (c <=? 102) then st 309 else st 0 else st 309
  end.
(* SRC sylar/http/http11_parser.rl.cpp:5740-5757 http_parser_execute, case 316 *)
Definition case_316 (uri_relaxed : bool) (c : Z) : goto :=
  match c with
  | 48 => st 313
  | 58 => st 255
  | 93 => st 236
  | _ =>
  if (c <? 65)
  then if (49 <=? c) && (c <=? 57) then st 309 else st 0
  else if (c >? 70) then if (97 <=? c) && (c <=? 102) then st 309 else st 0 else st 309
  end.
(* SRC sylar/http/http11_parser.rl.cpp:5758-5774 http_parser_execute, case 317 *)
Definition case_317 (uri_relaxed : bool) (c : Z) : goto :=
  match c with
  | 58 => st 255
  | 93 => st 236
  | _ =>
  if (c <? 65)
  then if (48 <=? c) && (c <=? 57) then st 308 else st 0
  else if (c >? 70) then if (97 <=? c) && (c <=? 102) then st 308 else st 0 else st 308
  end.
(* SRC sylar/http/http11_parser.rl.cpp:5775-5792 http_parser_execute, case 318 *)
Definition case_318 (uri_relaxed : bool) (c : Z) : goto :=
  match c with
  | 46 => st 230
  | 58 => st 306
  | 93 => st 236
  | _ =>
  if (c <? 65)
  then if (48 <=? c) && (c <=? 57) then st 319 else st 0
  else if (c >? 70) then if (97 <=? c) && (c <=? 102) then st 303 else st 0 else st 303
  end.
(* SRC sylar/http/http11_parser.rl.cpp:5793-5810 http_parser_execute, case 319 *)
Definition case_319 (uri_relaxed : bool) (c : Z) : goto :=
  match c with
  | 46 => st 230
  | 58 => st 306
  | 93 => st 236
  | _ =>
  if (c <? 65)
  then if (48 <=? c) && (c <=? 57) then st 320 else st 0
  else if (c >? 70) then if (97 <=? c) && (c <=? 102) then st 304 else st 0 else st 304
  end.
(* SRC sylar/http/http11_parser.rl.cpp:5811-5828 http_parser_execute, case 320 *)
Definition case_320 (uri_relaxed : bool) (c : Z) : goto :=
  match c with
  | 46 => st 230
  | 58 => st 306
  | 93 => st 236
  | _ =>
  if (c <? 65)
  then if (48 <=? c) && (c <=? 57) then st 305 else st 0
  else if (c >? 70) then if (97 <=? c) && (c <=? 102) then st 305 else st 0 else st 305
  end.
(* SRC sylar/http/http11_parser.rl.cpp:5829-5848 http_parser_execute, case 321 *)
Definition case_321 (uri_relaxed : bool) (c : Z) : goto :=
  match c with
  | 46 => st 230
  | 48 => st 322
  | 53 => st 323
  | 58 => st 306
  | 93 => st 236
  | _ =>
  if (c <? 65)
  then if (49 <=? c) && (c <=? 57) then st 303 else st 0
  else if (c >? 70) then if (97 <=? c) && (c <=? 102) then st 303 else st 0 else st 303
  end.
(* SRC sylar/http/http11_parser.rl.cpp:5849-5865 http_parser_execute, case 322 *)
Definition case_322 (uri_relaxed : bool) (c : Z) : goto :=
  match c with
  | 58 => st 306
  | 93 => st 236
  | _ =>
  if (c <? 65)
  then if (48 <=? c) && (c <=? 57) then st 320 else st 0
  else if (c >? 70) then if (97 <=? c) && (c <=? 102) then st 304 else st 0 else st 304
  end.
(* SRC sylar/http/http11_parser.rl.cpp:5866-5883 http_parser_execute, case 323 *)
Definition case_323 (uri_relaxed : bool) (c : Z) : goto :=
  match c with
  | 48 => st 320
  | 58 => st 306
  | 93 => st 236
  | _ =>
  if (c <? 65)
  then if (49 <=? c) && (c <=? 57) then st 304 else st 0
  else if (c >? 70) then if (97 <=? c) && (c <=? 102) then st 304 else st 0 else st 304
  end.
(* SRC sylar/http/http11_parser.rl.cpp:5884-5900 http_parser_execute, case 324 *)
Definition case_324 (uri_relaxed : bool) (c : Z) : goto :=
  match c with
  | 58 => st 306
  | 93 => st 236
  | _ =>
  if (c <? 65)
  then if (48 <=? c) && (c <=? 57) then st 303 else st 0
  else if (c >? 70) then if (97 <=? c) && (c <=? 102) then st 303 else st 0 else st 303
  end.
(* SRC sylar/http/http11_parser.rl.cpp:5901-5920 http_parser_execute, case 325 *)
Definition case_325 (uri_relaxed : bool) (c : Z) : goto :=
  match c with
  | 49 => st 318
  | 50 => st 321
  | _ =>
  if (c <? 48)
  then if (2 <=? c) && (c <=? 3) then st 223 else st 0
  else if (c >? 57)
    then (if (c >? 70)
      then if (97 <=? c) && (c <=? 102) then st 324 else st 0
      else if (c >=? 65) then st 324 else st 0)
    else st 302
  end.
(* SRC sylar/http/http11_parser.rl.cpp:5921-5940 http_parser_execute, case 326 *)
Definition case_326 (uri_relaxed : bool) (c : Z) : goto :=
  match c with
  | 49 => st 331
  | 50 => st 334
  | _ =>
  if (c <? 48)
  then if (2 <=? c) && (c <=? 3) then st 223 else st 0
  else if (c >? 57)
    then (if (c >? 70)
      then if (97 <=? c) && (c <=? 102) then st 337 else st 0
      else if (c >=? 65) then st 337 else st 0)
    else st 327
  end.
(* SRC sylar/http/http11_parser.rl.cpp:5941-5957 http_parser_execute, case 327 *)
Definition case_327 (uri_relaxed : bool) (c : Z) : goto :=
  match c with
  | 46 => st 230
  | 58 => st 306
  | _ =>
  if (c <? 65)
  then if (48 <=? c) && (c <=? 57) then st 328 else st 0
  else if (c >? 70) then if (97 <=? c) && (c <=? 102) then st 328 else st 0 else st 328
  end.
(* SRC sylar/http/http11_parser.rl.cpp:5958-5972 http_parser_execute, case 328 *)
Definition case_328 (uri_relaxed : bool) (c : Z) : goto :=
  if (c =? 58)
  then st 306
  else if (c <? 65)
    then if (48 <=? c) && (c <=? 57) then st 329 else st 0
    else if (c >? 70) then if (97 <=? c) && (c <=? 102) then st 329 else st 0 else st 329.
(* SRC sylar/http/http11_parser.rl.cpp:5973-5987 http_parser_execute, case 329 *)
Definition case_329 (uri_relaxed : bool) (c : Z) : goto :=
  if (c =? 58)
  then st 306
  else if (c <? 65)
    then if (48 <=? c) && (c <=? 57) then st 330 else st 0
    else if (c >? 70) then if (97 <=? c) && (c <=? 102) then st 330 else st 0 else st 330.
(* SRC sylar/http/http11_parser.rl.cpp:5988-5994 http_parser_execute, case 330 *)
Definition case_330 (uri_relaxed : bool) (c : Z) : goto :=
  if (c =? 58) then st 306 else st 0.
(* SRC sylar/http/http11_parser.rl.cpp:5995-6011 http_parser_execute, case 331 *)
Definition case_331 (uri_relaxed : bool) (c : Z) : goto :=
  match c with
  | 46 => st 230
  | 58 => st 306
  | _ =>
  if (c <? 65)
  then if (48 <=? c) && (c <=? 57) then st 332 else st 0
  else if (c >? 70) then if (97 <=? c) && (c <=? 102) then st 328 else st 0 else st 328
  end.
(* SRC sylar/http/http11_parser.rl.cpp:6012-6028 http_parser_execute, case 332 *)
Definition case_332 (uri_relaxed : bool) (c : Z) : goto :=
  match c with
  | 46 => st 230
  | 58 => st 306
  | _ =>
  if (c <? 65)
  then if (48 <=? c) && (c <=? 57) then st 333 else st 0
  else if (c >? 70) then if (97 <=? c) && (c <=? 102) then st 329 else st 0 else st 329
  end.
(* SRC sylar/http/http11_parser.rl.cpp:6029-6045 http_parser_execute, case 333 *)
Definition case_333 (uri_relaxed : bool) (c : Z) : goto :=
  match c with
  | 46 => st 230
  | 58 => st 306
  | _ =>
  if (c <? 65)
  then if (48 <=? c) && (c <=? 57) then st 330 else st 0
  else if (c >? 70) then if (97 <=? c) && (c <=? 102) then st 330 else st 0 else st 330
  end.
(* SRC sylar/http/http11_parser.rl.cpp:6046-6064 http_parser_execute, case 334 *)
Definition case_334 (uri_relaxed : bool) (c : Z) : goto :=
  match c with
  | 46 => st 230
  | 48 => st 335
  | 53 => st 336
  | 58 => st 306
  | _ =>
  if (c <? 65)
  then if (49 <=? c) && (c <=? 57) then st 328 else st 0
  else if (c >? 70) then if (97 <=? c) && (c <=? 102) then st 328 else st 0 else st 328
  end.
(* SRC sylar/http/http11_parser.rl.cpp:6065-6079 http_parser_execute, case 335 *)
Definition case_335 (uri_relaxed : bool) (c : Z) : goto :=
  if (c =? 58)
  then st 306
  else if (c <? 65)
    then if (48 <=? c) && (c <=? 57) then st 333 else st 0
    else if (c >? 70) then if (97 <=? c) && (c <=? 102) then st 329 else st 0 else st 329.
(* SRC sylar/http/http11_parser.rl.cpp:6080-6096 http_parser_execute, case 336 *)
Definition case_336 (uri_relaxed : bool) (c : Z) : goto :=
  match c with
  | 48 => st 333
  | 58 => st 306
  | _ =>
  if (c <? 65)
  then if (49 <=? c) && (c <=? 57) then st 329 else st 0
  else if (c >? 70) then if (97 <=? c) && (c <=? 102) then st 329 else st 0 else st 329
  end.
(* SRC sylar/http/http11_parser.rl.cpp:6097-6111 http_parser_execute, case 337 *)
Definition case_337 (uri_relaxed : bool) (c : Z) : goto :=
  if (c =? 58)
  then st 306
  else if (c <? 65)
    then if (48 <=? c) && (c <=? 57) then st 328 else st 0
    else if (c >? 70) then if (97 <=? c) && (c <=? 102) then st 328 else st 0 else st 328.
(* SRC sylar/http/http11_parser.rl.cpp:6112-6127 http_parser_execute, case 338 *)
Definition case_338 (uri_relaxed : bool) (c : Z) : goto :=
  if (c <? 48)
  then if (2 <=? c) && (c <=? 3) then st 223 else st 0
  else if (c >? 57)
    then (if (c >? 70)
      then if (97 <=? c) && (c <=? 102) then st 224 else st 0
      else if (c >=? 65) then st 224 else st 0)
    else st 224.
(* SRC sylar/http/http11_parser.rl.cpp:6128-6134 http_parser_execute, case 339 *)
Definition case_339 (uri_relaxed : bool) (c : Z) : goto :=
  if (2 <=? c) && (c <=? 3) then st 223 else st 0.
(* SRC sylar/http/http11_parser.rl.cpp:6135-6141 http_parser_execute, case 340 *)
Definition case_340 (uri_relaxed : bool) (c : Z) : goto :=
  if (c =? 3) then st 223 else st 0.
(* SRC sylar/http/http11_parser.rl.cpp:6142-6148 http_parser_execute, case 341 *)
Definition case_341 (uri_relaxed : bool) (c : Z) : goto :=
  if (c =? 4) then st 223 else st 0.
(* SRC sylar/http/http11_parser.rl.cpp:6149-6155 http_parser_execute, case 342 *)
Definition case_342 (uri_relaxed : bool) (c : Z) : goto :=
  if (c =? 58) then st 343 else st 0.
(* SRC sylar/http/http11_parser.rl.cpp:6156-6176 http_parser_execute, case 343 *)
Definition case_343 (uri_relaxed : bool) (c : Z) : goto :=
  match c with
  | 49 => st 318
  | 50 => st 321
  | 93 => st 236
  | _ =>
  if (c <? 48)
  then if (2 <=? c) && (c <=? 5) then st 223 else st 0
  else if (c >? 57)
    then (if (c >? 70)
      then if (97 <=? c) && (c <=? 102) then st 324 else st 0
      else if (c >=? 65) then st 324 else st 0)
    else st 302
  end.
(* SRC sylar/http/http11_parser.rl.cpp:6177-6189 http_parser_execute, case 344 *)
Definition case_344 (uri_relaxed : bool) (c : Z) : goto :=
  if (c <? 65)
  then if (48 <=? c) && (c <=? 57) then st 345 else st 0
  else if (c >? 70) then if (97 <=? c) && (c <=? 102) then st 345 else st 0 else st 345.
(* SRC sylar/http/http11_parser.rl.cpp:6190-6204 http_parser_execute, case 345 *)
Definition case_345 (uri_relaxed : bool) (c : Z) : goto :=
  if (c =? 46)
  then st 346
  else if (c <? 65)
    then if (48 <=? c) && (c <=? 57) then st 345 else st 0
    else if (c >? 70) then if (97 <=? c) && (c <=? 102) then st 345 else st 0 else st 345.
(* SRC sylar/http/http11_parser.rl.cpp:6205-6251 http_parser_execute, case 346 *)
Definition case_346 (uri_relaxed : bool) (c : Z) : goto :=
  let _widec := if (c <? 123)
  then if (94 <=? c) && (c <=? 94) then widen uri_relaxed c else c
  else if (c >? 123)
    then if (125 <=? c) && (c <=? 125) then widen uri_relaxed c else c
    else widen uri_relaxed c in
  match _widec with
  | 33 => st 347
  | 36 => st 347
  | 61 => st 347
  | 95 => st 347
  | 126 => st 347
  | 606 => st 347
  | 635 => st 347
  | 637 => st 347
  | _ =>
  if (_widec <? 48)
  then if (38 <=? _widec) && (_widec <=? 46) then st 347 else st 0
  else if (_widec >? 59)
    then (if (_widec >? 90)
      then if (97 <=? _widec) && (_widec <=? 122) then st 347 else st 0
      else if (_widec >=? 65) then st 347 else st 0)
    else st 347
  end.
(* SRC sylar/http/http11_parser.rl.cpp:6252-6300 http_parser_execute, case 347 *)
Definition case_347 (uri_relaxed : bool) (c : Z) : goto :=
  let _widec := if (c <? 123)
  then if (94 <=? c) && (c <=? 94) then widen uri_relaxed c else c
  else if (c >? 123)
    then if (125 <=? c) && (c <=? 125) then widen uri_relaxed c else c
    else widen uri_relaxed c in
  match _widec with
  | 33 => st 347
  | 36 => st 347
  | 61 => st 347
  | 93 => st 236
  | 95 => st 347
  | 126 => st 347
  | 606 => st 347
  | 635 => st 347
  | 637 => st 347
  | _ =>
  if (_widec <? 48)
  then if (38 <=? _widec) && (_widec <=? 46) then st 347 else st 0
  else if (_widec >? 59)
    then (if (_widec >? 90)
      then if (97 <=? _widec) && (_widec <=? 122) then st 347 else st 0
      else if (_widec >=? 65) then st 347 else st 0)
    else st 347
  end.
(* SRC sylar/http/http11_parser.rl.cpp:554-588 http_parser_execute, case 348 *)
Definition case_348 (uri_relaxed : bool) (c : Z) : goto :=
  match c with
  | 33 => st 14
  | 58 => tr27
  | 124 => st 14
  | 126 => st 14
  | _ =>
  if (c <? 42)
  then (if (c <? 10)
    then if (1 <=? c) && (c <=? 8) then st 14 else st 0
    else if (c >? 31) then if (35 <=? c) && (c <=? 39) then st 14 else st 0 else st 14)
  else if (c >? 43)
    then (if (c <? 48)
      then if (45 <=? c) && (c <=? 46) then st 14 else st 0
      else if (c >? 57)
        then (if (c >? 90)
          then if (94 <=? c) && (c <=? 122) then st 14 else st 0
          else if (c >=? 65) then st 14 else st 0)
        else st 14)
    else st 14
  end.
(* SRC sylar/http/http11_parser.rl.cpp:3829-3834 http_parser_execute, case 349 *)
Definition case_349 (uri_relaxed : bool) (c : Z) : goto :=
  st 0.
(* SRC sylar/http/http11_parser.rl.cpp:115-115 http_parser_execute, switch ( cs ) *)
Definition step (cs : Z) : option (bool -> Z -> goto) :=
  match cs with
  | 1 => Some case_1
  | 2 => Some case_2
  | 3 => Some case_3
  | 4 => Some case_4
  | 5 => Some case_5
  | 6 => Some case_6
  | 7 => Some case_7
  | 8 => Some case_8
  | 9 => Some case_9
  | 10 => Some case_10
  | 11 => Some case_11
  | 12 => Some case_12
  | 13 => Some case_13
  | 14 => Some case_14
  | 15 => Some case_15
  | 16 => Some case_16
  | 17 => Some case_17
  | 18 => Some case_18
  | 19 => Some case_19
  | 20 => Some case_20
  | 21 => Some case_21
  | 22 => Some case_22
  | 23 => Some case_23
  | 24 => Some case_24
  | 25 => Some case_25
  | 26 => Some case_26
  | 27 => Some case_27
  | 28 => Some case_28
  | 29 => Some case_29
  | 30 => Some case_30
  | 31 => Some case_31
  | 32 => Some case_32
  | 33 => Some case_33
  | 34 => Some case_34
  | 35 => Some case_35
  | 36 => Some case_36
  | 37 => Some case_37
  | 38 => Some case_38
  | 39 => Some case_39
  | 40 => Some case_40
  | 41 => Some case_41
  | 42 => Some case_42
  | 43 => Some case_43
  | 44 => Some case_44
  | 45 => Some case_45
  | 46 => Some case_46
  | 47 => Some case_47
  | 48 => Some case_48
  | 49 => Some case_49
  | 50 => Some case_50
  | 51 => Some case_51
  | 52 => Some case_52
  | 53 => Some case_53
  | 54 => Some case_54
  | 55 => Some case_55
  | 56 => Some case_56
  | 57 => Some case_57
  | 58 => Some case_58
  | 59 => Some case_59
  | 60 => Some case_60
  | 61 => Some case_61
  | 62 => Some case_62
  | 63 => Some case_63
  | 64 => Some case_64
  | 65 => Some case_65
  | 66 => Some case_66
  | 67 => Some case_67
  | 68 => Some case_68
  | 69 => Some case_69
  | 70 => Some case_70
  | 71 => Some case_71
  | 72 => Some case_72
  | 73 => Some case_73
  | 74 => Some case_74
  | 75 => Some case_75
  | 76 => Some case_76
  | 77 => Some case_77
  | 78 => Some case_78
  | 79 => Some case_79
  | 80 => Some case_80
  | 81 => Some case_81
  | 82 => Some case_82
  | 83 => Some case_83
  | 84 => Some case_84
  | 85 => Some case_85
  | 86 => Some case_86
  | 87 => Some case_87
  | 88 => Some case_88
  | 89 => Some case_89
  | 90 => Some case_90
  | 91 => Some case_91
  | 92 => Some case_92
  | 93 => Some case_93
  | 94 => Some case_94
  | 95 => Some case_95
  | 96 => Some case_96
  | 97 => Some case_97
  | 98 => Some case_98
  | 99 => Some case_99
  | 100 => Some case_100
  | 101 => Some case_101
  | 102 => Some case_102
  | 103 => Some case_103
  | 104 => Some case_104
  | 105 => Some case_105
  | 106 => Some case_106
  | 107 => Some case_107
  | 108 => Some case_108
  | 109 => Some case_109
  | 110 => Some case_110
  | 111 => Some case_111
  | 112 => Some case_112
  | 113 => Some case_113
  | 114 => Some case_114
  | 115 => Some case_115
  | 116 => Some case_116
  | 117 => Some case_117
  | 118 => Some case_118
  | 119 => Some case_119
  | 120 => Some case_120
  | 121 => Some case_121
  | 122 => Some case_122
  | 123 => Some case_123
  | 124 => Some case_124
  | 125 => Some case_125
  | 126 => Some case_126
  | 127 => Some case_127
  | 128 => Some case_128
  | 129 => Some case_129
  | 130 => Some case_130
  | 131 => Some case_131
  | 132 => Some case_132
  | 133 => Some case_133
  | 134 => Some case_134
  | 135 => Some case_135
  | 136 => Some case_136
  | 137 => Some case_137
  | 138 => Some case_138
  | 139 => Some case_139
  | 140 => Some case_140
  | 141 => Some case_141
  | 142 => Some case_142
  | 143 => Some case_143
  | 144 => Some case_144
  | 145 => Some case_145
  | 146 => Some case_146
  | 147 => Some case_147
  | 148 => Some case_148
  | 149 => Some case_149
  | 150 => Some case_150
  | 151 => Some case_151
  | 152 => Some case_152
  | 153 => Some case_153
  | 154 => Some case_154
  | 155 => Some case_155
  | 156 => Some case_156
  | 157 => Some case_157
  | 158 => Some case_158
  | 159 => Some case_159
  | 160 => Some case_160
  | 161 => Some case_161
  | 162 => Some case_162
  | 163 => Some case_163
  | 164 => Some case_164
  | 165 => Some case_165
  | 166 => Some case_166
  | 167 => Some case_167
  | 168 => Some case_168
  | 169 => Some case_169
  | 170 => Some case_170
  | 171 => Some case_171
  | 172 => Some case_172
  | 173 => Some case_173
  | 174 => Some case_174
  | 175 => Some case_175
  | 176 => Some case_176
  | 177 => Some case_177
  | 178 => Some case_178
  | 179 => Some case_179
  | 180 => Some case_180
  | 181 => Some case_181
  | 182 => Some case_182
  | 183 => Some case_183
  | 184 => Some case_184
  | 185 => Some case_185
  | 186 => Some case_186
  | 187 => Some case_187
  | 188 => Some case_188
  | 189 => Some case_189
  | 190 => Some case_190
  | 191 => Some case_191
  | 192 => Some case_192
  | 193 => Some case_193
  | 194 => Some case_194
  | 195 => Some case_195
  | 196 => Some case_196
  | 197 => Some case_197
  | 198 => Some case_198
  | 199 => Some case_199
  | 200 => Some case_200
  | 201 => Some case_201
  | 202 => Some case_202
  | 203 => Some case_203
  | 204 => Some case_204
  | 205 => Some case_205
  | 206 => Some case_206
  | 207 => Some case_207
  | 208 => Some case_208
  | 209 => Some case_209
  | 210 => Some case_210
  | 211 => Some case_211
  | 212 => Some case_212
  | 213 => Some case_213
  | 214 => Some case_214
  | 215 => Some case_215
  | 216 => Some case_216
  | 217 => Some case_217
  | 218 => Some case_218
  | 219 => Some case_219
  | 220 => Some case_220
  | 221 => Some case_221
  | 222 => Some case_222
  | 223 => Some case_223
  | 224 => Some case_224
  | 225 => Some case_225
  | 226 => Some case_226
  | 227 => Some case_227
  | 228 => Some case_228
  | 229 => Some case_229
  | 230 => Some case_230
  | 231 => Some case_231
  | 232 => Some case_232
  | 233 => Some case_233
  | 234 => Some case_234
  | 235 => Some case_235
  | 236 => Some case_236
  | 237 => Some case_237
  | 238 => Some case_238
  | 239 => Some case_239
  | 240 => Some case_240
  | 241 => Some case_241
  | 242 => Some case_242
  | 243 => Some case_243
  | 244 => Some case_244
  | 245 => Some case_245
  | 246 => Some case_246
  | 247 => Some case_247
  | 248 => Some case_248
  | 249 => Some case_249
  | 250 => Some case_250
  | 251 => Some case_251
  | 252 => Some case_252
  | 253 => Some case_253
  | 254 => Some case_254
  | 255 => Some case_255
  | 256 => Some case_256
  | 257 => Some case_257
  | 258 => Some case_258
  | 259 => Some case_259
  | 260 => Some case_260
  | 261 => Some case_261
  | 262 => Some case_262
  | 263 => Some case_263
  | 264 => Some case_264
  | 265 => Some case_265
  | 266 => Some case_266
  | 267 => Some case_267
  | 268 => Some case_268
  | 269 => Some case_269
  | 270 => Some case_270
  | 271 => Some case_271
  | 272 => Some case_272
  | 273 => Some case_273
  | 274 => Some case_274
  | 275 => Some case_275
  | 276 => Some case_276
  | 277 => Some case_277
  | 278 => Some case_278
  | 279 => Some case_279
  | 280 => Some case_280
  | 281 => Some case_281
  | 282 => Some case_282
  | 283 => Some case_283
  | 284 => Some case_284
  | 285 => Some case_285
  | 286 => Some case_286
  | 287 => Some case_287
  | 288 => Some case_288
  | 289 => Some case_289
  | 290 => Some case_290
  | 291 => Some case_291
  | 292 => Some case_292
  | 293 => Some case_293
  | 294 => Some case_294
  | 295 => Some case_295
  | 296 => Some case_296
  | 297 => Some case_297
  | 298 => Some case_298
  | 299 => Some case_299
  | 300 => Some case_300
  | 301 => Some case_301
  | 302 => Some case_302
  | 303 => Some case_303
  | 304 => Some case_304
  | 305 => Some case_305
  | 306 => Some case_306
  | 307 => Some case_307
  | 308 => Some case_308
  | 309 => Some case_309
  | 310 => Some case_310
  | 311 => Some case_311
  | 312 => Some case_312
  | 313 => Some case_313
  | 314 => Some case_314
  | 315 => Some case_315
  | 316 => Some case_316
  | 317 => Some case_317
  | 318 => Some case_318
  | 319 => Some case_319
  | 320 => Some case_320
  | 321 => Some case_321
  | 322 => Some case_322
  | 323 => Some case_323
  | 324 => Some case_324
  | 325 => Some case_325
  | 326 => Some case_326
  | 327 => Some case_327
  | 328 => Some case_328
  | 329 => Some case_329
  | 330 => Some case_330
  | 331 => Some case_331
  | 332 => Some case_332
  | 333 => Some case_333
  | 334 => Some case_334
  | 335 => Some case_335
  | 336 => Some case_336
  | 337 => Some case_337
  | 338 => Some case_338
  | 339 => Some case_339
  | 340 => Some case_340
  | 341 => Some case_341
  | 342 => Some case_342
  | 343 => Some case_343
  | 344 => Some case_344
  | 345 => Some case_345
  | 346 => Some case_346
  | 347 => Some case_347
  | 348 => Some case_348
  | 349 => Some case_349
  | _ => None
  end.
