(* ===== verification/HttpParser.v ===== *)
(** * HttpParser: [http_parser_execute] and [HttpRequestParser] of [sylar/http]

    The structure [http_parser] of [http11_parser.h], the machine loop of
    [http11_parser.rl.cpp] over the automaton of [HttpParserTable], the callbacks and
    [HttpRequestParser] of [http_parser.cpp]. Log statements are not modelled. A
    pointer into the buffer is its offset, and a [size_t] difference wraps to 64 bits. *)

From S2P Require Import Prelude Std Http HttpParserTable.

(** ** The C structure *)

(* SRC sylar/http/http11_parser.h:14-38 http_parser *)
Record http_parser := mkParser {
  cs : Z;
  body_start : Z;
  content_len : Z;
  nread : Z;
  mark : Z;
  field_start : Z;
  field_len : Z;
  query_start : Z;
  xml_sent : bool;
  json_sent : bool;
  uri_relaxed : bool
}.

(* SRC sylar/http/http11_parser.rl.cpp:58-58 http_parser_start *)
Definition http_parser_start : Z := 1.
(* SRC sylar/http/http11_parser.rl.cpp:59-59 http_parser_first_final *)
Definition http_parser_first_final : Z := 348.
(* SRC sylar/http/http11_parser.rl.cpp:60-60 http_parser_error *)
Definition http_parser_error : Z := 0.

(** [query_start] and [uri_relaxed] are not set: they keep what the memory held. *)
(* SRC sylar/http/http11_parser.rl.cpp:67-87 http_parser_init *)
Definition http_parser_init (p : http_parser) : http_parser :=
  mkParser http_parser_start 0 0 0 0 0 0 (query_start p) false false (uri_relaxed p).

(* SRC sylar/http/http11_parser.rl.cpp:6684-6686 http_parser_has_error *)
Definition http_parser_has_error (p : http_parser) : bool := cs p =? http_parser_error.
(* SRC sylar/http/http11_parser.rl.cpp:6688-6690 http_parser_is_finished *)
Definition http_parser_is_finished (p : http_parser) : bool := cs p >=? http_parser_first_final.
(* SRC sylar/http/http11_parser.rl.cpp:6673-6682 http_parser_finish *)
Definition http_parser_finish (p : http_parser) : Z :=
  if http_parser_has_error p then -1 else if http_parser_is_finished p then 1 else 0.

Definition set_cs v p := mkParser v (body_start p) (content_len p) (nread p) (mark p)
  (field_start p) (field_len p) (query_start p) (xml_sent p) (json_sent p) (uri_relaxed p).
Definition set_body v n p := mkParser (cs p) v n (nread p) (mark p)
  (field_start p) (field_len p) (query_start p) (xml_sent p) (json_sent p) (uri_relaxed p).
Definition set_nread v p := mkParser (cs p) (body_start p) (content_len p) v (mark p)
  (field_start p) (field_len p) (query_start p) (xml_sent p) (json_sent p) (uri_relaxed p).
Definition set_mark v p := mkParser (cs p) (body_start p) (content_len p) (nread p) v
  (field_start p) (field_len p) (query_start p) (xml_sent p) (json_sent p) (uri_relaxed p).
Definition set_field_start v p := mkParser (cs p) (body_start p) (content_len p) (nread p)
  (mark p) v (field_len p) (query_start p) (xml_sent p) (json_sent p) (uri_relaxed p).
Definition set_field_len v p := mkParser (cs p) (body_start p) (content_len p) (nread p)
  (mark p) (field_start p) v (query_start p) (xml_sent p) (json_sent p) (uri_relaxed p).
Definition set_query_start v p := mkParser (cs p) (body_start p) (content_len p) (nread p)
  (mark p) (field_start p) (field_len p) v (xml_sent p) (json_sent p) (uri_relaxed p).
Definition set_xml p := mkParser (cs p) (body_start p) (content_len p) (nread p)
  (mark p) (field_start p) (field_len p) (query_start p) true (json_sent p) (uri_relaxed p).
Definition set_json p := mkParser (cs p) (body_start p) (content_len p) (nread p)
  (mark p) (field_start p) (field_len p) (query_start p) (xml_sent p) true (uri_relaxed p).

(** The call of [http_parser_execute] starts by clearing the positions. *)
(* SRC sylar/http/http11_parser.rl.cpp:94-97 http_parser_execute *)
Definition reset_marks p := mkParser (cs p) (body_start p) (content_len p) 0 0 0 0
  (query_start p) (xml_sent p) (json_sent p) (uri_relaxed p).

(** [LEN(AT, FPC)], a [size_t]. *)
(* SRC sylar/http/http11_parser.rl.cpp:45-45 LEN *)
Definition LEN (at_ fpc : Z) : Z := u64 (fpc - at_).

(** ** The machine over a set of callbacks *)

(** The callback slots of [http_parser]. *)
Inductive callback :=
  | cb_request_method | cb_request_uri | cb_fragment | cb_request_path
  | cb_query_string | cb_http_version | cb_header_done.

Section Machine.
(** The object the callbacks work on. *)
Context {D : Type}.
Variable on_element : callback -> list Z -> Z -> Z -> M D unit.
Variable on_field : list Z -> Z -> Z -> Z -> Z -> M D unit.

Let S : Type := (http_parser * D)%type.

Definition regs (f : http_parser -> http_parser) : M S unit := modify (fun s => (f s.1, s.2)).
Definition reg (f : http_parser -> Z) : M S Z := gets (fun s => f s.1).
(** Run a callback on the object. *)
Definition call (m : M D unit) : M S unit := fun s =>
  match m s.2 with
  | Ret a d => Ret a (s.1, d)
  | Exn e d => Exn e (s.1, d)
  | UB f => UB f
  end.

(** Call [cb] on the text from position [at_] to [p]. *)
Definition element (cb : callback) (buf : list Z) (at_ : http_parser -> Z) (p : Z) : M S unit :=
  let! a := reg at_ in call (on_element cb buf a (LEN a p)).

(** One action block at position [p] of a buffer of [pe] characters; [true] when the
    block ends with [goto _out]. *)
Definition do_action (buf : list Z) (pe p : Z) (a : action) : M S bool :=
  match a with
  | a_mark => regs (set_mark p) ;; ret false
  | a_start_field => regs (set_field_start p) ;; ret false
  | a_write_field => regs (fun r => set_field_len (LEN (field_start r) p) r) ;; ret false
  | a_http_field =>
      let! fs := reg field_start in let! fl := reg field_len in
      let! m := reg mark in
      call (on_field buf fs fl m (LEN m p)) ;; ret false
  | a_request_method => element cb_request_method buf mark p ;; ret false
  | a_request_uri => element cb_request_uri buf mark p ;; ret false
  | a_fragment => element cb_fragment buf mark p ;; ret false
  | a_start_query => regs (set_query_start p) ;; ret false
  | a_query_string => element cb_query_string buf query_start p ;; ret false
  | a_http_version => element cb_http_version buf mark p ;; ret false
  | a_request_path => element cb_request_path buf mark p ;; ret false
  | a_xml => regs set_xml ;; ret false
  | a_json => regs set_json ;; ret false
  | a_done =>
      let! s := get in
      (if xml_sent s.1 || json_sent s.1
       then regs (fun r => set_body (mark r) (s32 (p - mark r + 1)) r)
       else regs (fun r => set_body (p + 1) (content_len r) r) ;;
            call (on_element cb_header_done buf (p + 1) (u64 (pe - p - 1)))) ;;
      ret true
  end.

Fixpoint do_actions (buf : list Z) (pe p : Z) (l : list action) : M S bool :=
  match l with
  | [] => ret false
  | a :: l' =>
      let! out := do_action buf pe p a in
      if (out : bool) then ret true else do_actions buf pe p l'
  end.

(** The labels [_test_eofN: cs = N; goto _test_eof;]: the end of the input in state [q]. *)
(* SRC sylar/http/http11_parser.rl.cpp:6302-6650 http_parser_execute *)
Definition test_eof (q : Z) : Z := q.

(** The goto code from state [q] at position [p], with [rest] the characters from there
    to [pe]: the position and the state at [_out]. A [cs] that is no case of the
    [switch] falls through to the label [_test_eof2]. *)
(* SRC sylar/http/http11_parser.rl.cpp:112-116 http_parser_execute *)
Fixpoint run (buf : list Z) (pe p q : Z) (rest : list Z) : M S (Z * Z) :=
  match rest with
  | [] => ret (p, test_eof q)
  | b :: rest' =>
      match step q with
      | None => ret (p, test_eof 2)
      | Some case =>
          let! s := get in
          let g := case (uri_relaxed s.1) (s8 b) in
          let! out := do_actions buf pe p (acts g) in
          if (out : bool) then ret (p + 1, dest g)
          else if dest g =? 0 then ret (p, 0)
          else run buf pe (p + 1) (dest g) rest'
      end
  end.

(* SRC sylar/http/http11_parser.rl.cpp:6654-6671 http_parser_execute *)
Definition http_parser_execute (buf : list Z) (len off : Z) : M S Z :=
  if len =? 0 then ret 0
  else
    let! s := get in
    regs reset_marks ;;
    assert_ (off <=? len) ;;
    assert_ (len - off =? s32 len - s32 off) ;;
    let! (p, q) := run buf len off (cs s.1) (slice buf (Z.to_nat off) (Z.to_nat (len - off))) in
    assert_ (p <=? len) ;;
    regs (fun r => if http_parser_has_error r then r else set_cs q r) ;;
    regs (fun r => set_nread (nread r + (p - off)) r) ;;
    let! s' := get in
    let r := s'.1 in
    assert_ (nread r <=? len) ;;
    assert_ (body_start r <=? len) ;;
    assert_ (mark r <? len) ;;
    assert_ (field_len r <=? len) ;;
    assert_ (field_start r <? len) ;;
    ret (nread r).
End Machine.

(** ** [HttpRequestParser] *)

(* SRC sylar/http/http_parser.h:25-31 HttpRequestParser *)
Record HttpRequestParser := mkRequestParser {
  m_parser : http_parser;
  m_data : HttpRequest;
  m_error : Z
}.

(** What the callbacks change: the request and the error code. *)
Record parsed := mkParsed { p_data : HttpRequest; p_error : Z }.

(* SRC sylar/http/http_parser.h:19-19 HttpRequestParser::setError *)
Definition setError (v : Z) : M parsed unit := modify (fun d => mkParsed (p_data d) v).
Definition on_data (f : HttpRequest -> HttpRequest) : M parsed unit :=
  modify (fun d => mkParsed (f (p_data d)) (p_error d)).

(** [max_size()] of a [std::string]; a longer one throws [length_error]. *)
Definition string_max_size : Z := 2 ^ 62 - 1.

(** [std::string(at, length)] for a pointer into the buffer. *)
Definition std_string {S} (buf : list Z) (at_ len : Z) : M S (list Z) :=
  if string_max_size <? len then throw length_error
  else if at_ + len <=? Z.of_nat (length buf)
       then ret (slice buf (Z.to_nat at_) (Z.to_nat len))
       else fail_with OutOfBounds.

(* SRC sylar/http/http_parser.cpp:45-56 on_request_method *)
Definition on_request_method (buf : list Z) (at_ len : Z) : M parsed unit :=
  match CharsToHttpMethod (drop (Z.to_nat at_) buf) with
  | None => fail_with OutOfBounds
  | Some m =>
      if decide (m = INVALID_METHOD) then setError 1000 else on_data (setMethod m)
  end.

(* SRC sylar/http/http_parser.cpp:58-59 on_request_uri *)
Definition on_request_uri (buf : list Z) (at_ len : Z) : M parsed unit := ret tt.

(* SRC sylar/http/http_parser.cpp:61-64 on_request_fragment *)
Definition on_request_fragment (buf : list Z) (at_ len : Z) : M parsed unit :=
  let! v := std_string buf at_ len in on_data (setFragment v).

(* SRC sylar/http/http_parser.cpp:66-69 on_request_path *)
Definition on_request_path (buf : list Z) (at_ len : Z) : M parsed unit :=
  let! v := std_string buf at_ len in on_data (setPath v).

(* SRC sylar/http/http_parser.cpp:71-74 on_request_query *)
Definition on_request_query (buf : list Z) (at_ len : Z) : M parsed unit :=
  let! v := std_string buf at_ len in on_data (setQuery v).

(* SRC sylar/http/http_parser.cpp:76-90 on_request_version *)
Definition on_request_version (buf : list Z) (at_ len : Z) : M parsed unit :=
  let text := drop (Z.to_nat at_) buf in
  match strncmp_eq (str "HTTP/1.1") text (Z.to_nat len) with
  | None => fail_with OutOfBounds
  | Some true => on_data (setVersion 17)
  | Some false =>
      match strncmp_eq (str "HTTP/1.0") text (Z.to_nat len) with
      | None => fail_with OutOfBounds
      | Some true => on_data (setVersion 16)
      | Some false => setError 1001
      end
  end.

(* SRC sylar/http/http_parser.cpp:92-94 on_request_header_done *)
Definition on_request_header_done (buf : list Z) (at_ len : Z) : M parsed unit := ret tt.

(* SRC sylar/http/http_parser.cpp:96-104 on_request_http_field *)
Definition on_request_http_field (buf : list Z) (field flen value vlen : Z) : M parsed unit :=
  if flen =? 0 then setError 1002
  else
    let! k := std_string buf field flen in
    let! v := std_string buf value vlen in
    on_data (setHeader k v).

(** The slots the constructor fills. *)
Definition on_request_element (cb : callback) : list Z -> Z -> Z -> M parsed unit :=
  match cb with
  | cb_request_method => on_request_method
  | cb_request_uri => on_request_uri
  | cb_fragment => on_request_fragment
  | cb_request_path => on_request_path
  | cb_query_string => on_request_query
  | cb_http_version => on_request_version
  | cb_header_done => on_request_header_done
  end.

(** [memory] is what the uninitialised [m_parser] held. *)
(* SRC sylar/http/http_parser.cpp:106-119 HttpRequestParser::HttpRequestParser *)
Definition new_HttpRequestParser (memory : http_parser) : HttpRequestParser :=
  mkRequestParser (http_parser_init memory) (new_HttpRequest 17 true) 0.

(** The machine of the embedded [http_parser], with the callbacks on the rest of the object. *)
Definition machine {A} (m : M (http_parser * parsed) A) : M HttpRequestParser A := fun s =>
  let back '(r, d) := mkRequestParser r (p_data d) (p_error d) in
  match m (m_parser s, mkParsed (m_data s) (m_error s)) with
  | Ret a s' => Ret a (back s')
  | Exn e s' => Exn e (back s')
  | UB f => UB f
  end.

(** The result and the buffer, whose first [len] bytes are [data] on entry. *)
(* SRC sylar/http/http_parser.cpp:136-142 HttpRequestParser::execute *)
Definition execute (data : list Z) (len : Z) : M HttpRequestParser (Z * list Z) :=
  let! offset := machine (http_parser_execute on_request_element on_request_http_field
                            (take (Z.to_nat len) data) len 0) in
  ret (offset, splice data 0 (slice data (Z.to_nat offset) (Z.to_nat (len - offset)))).

(* SRC sylar/http/http_parser.cpp:144-146 HttpRequestParser::isFinished *)
Definition isFinished (s : HttpRequestParser) : bool := http_parser_is_finished (m_parser s).

(* SRC sylar/http/http_parser.cpp:148-150 HttpRequestParser::hasError *)
Definition hasError (s : HttpRequestParser) : bool :=
  negb (m_error s =? 0) || http_parser_has_error (m_parser s).

(* SRC sylar/http/http_parser.cpp:121-123 HttpRequestParser::getContentLength *)
Definition getContentLength (lexical_cast : list Z -> option Z) (s : HttpRequestParser) : Z :=
  getAs lexical_cast (m_headers (m_data s)) (str "content-length") 0.
