(* ===== verification/HttpParserFacts.v ===== *)
(** * HttpParserFacts: what holds of every transition of the automaton

    The automaton is finite: a boolean property of all transitions is checked by
    evaluating it on every state, byte and value of [uri_relaxed], and used through
    [table_all_spec]. The invariants of [HttpParserSpec] rest on the two checks of this file:
    the registers an action reads were set since the call began ([acts_ok]), and the
    registers a state still needs ([live_mark] and the like). *)

From S2P Require Import Prelude Std Http HttpParserTable HttpParser.

#[global] Instance action_eq_dec : EqDecision action.
Proof. solve_decision. Defined.

(** ** Checking all transitions *)

Definition states : list Z := map Z.of_nat (seq 1 349).
Definition bytes : list Z := map Z.of_nat (seq 0 256).

Lemma bytes_all (P : Z -> bool) : forallb P bytes = true -> forall b, is_byte b -> P b = true.
Proof.
  rewrite forallb_forall. intros H b Hb. apply H. unfold bytes. apply in_map_iff.
  exists (Z.to_nat b). unfold is_byte in Hb. split; [lia|]. apply in_seq. lia.
Qed.

(** The states with transitions are 1 to 349. *)
Lemma step_range q : is_Some (step q) -> 1 <= q <= 349.
Proof.
  intros [f H]. destruct q as [|p|p]; try done.
  do 9 (destruct p as [p|p|]; try done; try lia).
Qed.

Lemma step_states q f : step q = Some f -> In q states.
Proof.
  intros H. assert (1 <= q <= 349) by (apply step_range; eauto).
  unfold states. apply in_map_iff. exists (Z.to_nat q). split; [lia|]. apply in_seq. lia.
Qed.

(** Every state but the error state has transitions. *)
Lemma step_some q : 1 <= q < 348 -> is_Some (step q).
Proof.
  intros Hq. assert (forallb (fun q => bool_decide (is_Some (step q))) states = true) as H
    by (vm_compute; done).
  rewrite forallb_forall in H. apply (bool_decide_unpack _), Is_true_true, H.
  unfold states. apply in_map_iff. exists (Z.to_nat q). split; [lia|]. apply in_seq. lia.
Qed.

Definition table_all (P : Z -> Z -> goto -> bool) : bool :=
  forallb (fun q =>
    match step q with
    | None => true
    | Some f => forallb (fun b => P q b (f false (s8 b)) && P q b (f true (s8 b))) bytes
    end) states.

Lemma table_all_spec P q f ur b :
  table_all P = true -> step q = Some f -> is_byte b -> P q b (f ur (s8 b)) = true.
Proof.
  unfold table_all. rewrite forallb_forall. intros H Hs Hb.
  specialize (H q (step_states _ _ Hs)). rewrite Hs in H.
  pose proof (bytes_all _ H b Hb) as [H1 H2]%andb_true_iff. by destruct ur.
Qed.

(** ** One transition *)

(** In state [q] the byte [b] takes the transition with the actions [l] to [q']. *)
Definition goesb (q b : Z) (l : list action) (q' : Z) : bool :=
  match step q with
  | None => false
  | Some f =>
      forallb (fun ur : bool =>
        let g := f ur (s8 b) in bool_decide (acts g = l) && (dest g =? q')) [false; true]
  end.

Lemma goesb_spec q b l q' : goesb q b l q' = true ->
  exists f, step q = Some f /\ forall ur, f ur (s8 b) = go l q'.
Proof.
  unfold goesb. destruct (step q) as [f|]; [|done]. intros H. exists f. split; [done|].
  rewrite forallb_forall in H. intros ur. specialize (H ur).
  assert (In ur [false; true]) as Hin by (destruct ur; simpl; auto).
  apply H, andb_true_iff in Hin as [H1%bool_decide_eq_true H2%Z.eqb_eq].
  destruct (f ur (s8 b)); simpl in *; by subst.
Qed.

Section Run.
Context {D : Type} (on_element : callback -> list Z -> Z -> Z -> M D unit).
Context (on_field : list Z -> Z -> Z -> Z -> Z -> M D unit).
Notation run := (run on_element on_field).
Notation do_actions := (do_actions on_element on_field).

Lemma run_goes buf pe p q b rest l q' s : goesb q b l q' = true ->
  run buf pe p q (b :: rest) s
  = (let! out := do_actions buf pe p l in
     if (out : bool) then ret (p + 1, q')
     else if q' =? 0 then ret (p, 0)
     else run buf pe (p + 1) q' rest) s.
Proof.
  intros (f & Hs & Hf)%goesb_spec. simpl. rewrite Hs. unfold get, bind at 1. simpl.
  by rewrite Hf.
Qed.

(** A transition without actions. *)
Lemma run_silent buf pe p q b rest q' s : goesb q b [] q' = true -> q' <> 0 ->
  run buf pe p q (b :: rest) s = run buf pe (p + 1) q' rest s.
Proof.
  intros H Hq. rewrite (run_goes _ _ _ _ _ _ _ _ _ H). simpl. rewrite bind_ret_l.
  destruct (Z.eqb_spec q' 0); done.
Qed.

(** A state that loops silently on every byte of [l]. *)
Lemma run_loop buf pe p q l rest s :
  forallb (fun b => goesb q b [] q) l = true -> q <> 0 ->
  run buf pe p q (l ++ rest) s = run buf pe (p + Z.of_nat (length l)) q rest s.
Proof.
  intros H Hq. revert p H. induction l as [|b l IH]; intros p H; simpl in H.
  - simpl. f_equal. lia.
  - apply andb_true_iff in H as [H1 H2]. simpl app. rewrite (run_silent _ _ _ _ _ _ q) by done.
    rewrite IH by done. f_equal. simpl length. lia.
Qed.
End Run.

(** ** Which registers are set *)

(** States inside a header name, reached after [start_field] and before [write_field]:
    [field_len] is not the length of the current name. *)
Definition in_name (q : Z) : bool := (q =? 14) || (q =? 18) || (q =? 348).
(** States inside a query: [query_start] is needed by [query_string]. *)
Definition in_query (q : Z) : bool := (30 <=? q) && (q <=? 32).

(** The knowledge about the registers along a block of actions. *)
Record known := mkKnown { k_field : bool; k_query : bool }.

(** One action at byte [b]: [None] when it reads a register that is not known. *)
Definition know (b : Z) (a : action) (k : known) : option known :=
  match a with
  | a_start_field => Some (mkKnown false (k_query k))
  | a_write_field => Some (mkKnown true (k_query k))
  | a_http_field => if k_field k then Some k else None
  | a_request_method => if b =? 32 then Some k else None
  | a_start_query => Some (mkKnown (k_field k) true)
  | a_query_string => if k_query k then Some k else None
  | _ => Some k
  end.

Fixpoint know_all (b : Z) (l : list action) (k : known) : option known :=
  match l with
  | [] => Some k
  | a :: l' =>
      match know b a k with
      | Some k' => if decide (a = a_done) then Some k' else know_all b l' k'
      | None => None
      end
  end.

Definition known_at (q : Z) : known := mkKnown (negb (in_name q)) (in_query q).

Definition final (q : Z) : bool := (q =? 348) || (q =? 349).

(** A transition reads only what is known, leaves known what its target needs, and
    reaches a final state exactly by [done]. *)
Definition acts_ok (q b : Z) (g : goto) : bool :=
  match know_all b (acts g) (known_at q) with
  | None => false
  | Some k =>
      (k_field k || in_name (dest g) || (dest g =? 0))
      && (k_query k || negb (in_query (dest g)))
      && Bool.eqb (bool_decide (a_done ∈ acts g)) (final (dest g))
      && (0 <=? dest g) && (dest g <=? 349)
  end.

Lemma table_acts_ok : table_all acts_ok = true.
Proof. vm_compute. done. Qed.

(** ** Which registers are needed *)

(** The registers whose value at entry to a state may still be read. *)
Record needs := mkNeeds { n_mark : bool; n_start : bool; n_len : bool; n_query : bool }.

Definition needs_before (a : action) (n : needs) : needs :=
  match a with
  | a_mark => mkNeeds false (n_start n) (n_len n) (n_query n)
  | a_start_field => mkNeeds (n_mark n) false (n_len n) (n_query n)
  | a_write_field => mkNeeds (n_mark n) true false (n_query n)
  | a_http_field => mkNeeds true true true (n_query n)
  | a_start_query => mkNeeds (n_mark n) (n_start n) (n_len n) false
  | a_query_string => mkNeeds (n_mark n) (n_start n) (n_len n) true
  | a_request_method | a_request_uri | a_fragment | a_http_version | a_request_path =>
      mkNeeds true (n_start n) (n_len n) (n_query n)
  | a_xml | a_json | a_done => n
  end.

Definition needs_all (l : list action) (n : needs) : needs := foldr needs_before n l.

Definition needs_at (q : Z) : needs :=
  mkNeeds
    ((q =? 2) || (5 <=? q) && (q <=? 12) || (q =? 16) || (q =? 19) || (21 <=? q) && (q <=? 173)
     || (175 <=? q) && (q <=? 195) || (q =? 198) || (202 <=? q) && (q <=? 347))
    ((14 <=? q) && (q <=? 16) || (q =? 18) || (q =? 348))
    ((15 <=? q) && (q <=? 16))
    (in_query q).

Definition needs_le (a b : needs) : bool :=
  implb (n_mark a) (n_mark b) && implb (n_start a) (n_start b)
  && implb (n_len a) (n_len b) && implb (n_query a) (n_query b).

Definition needs_ok (q b : Z) (g : goto) : bool :=
  needs_le (needs_all (acts g) (needs_at (dest g))) (needs_at q).

Lemma table_needs_ok : table_all needs_ok = true.
Proof. vm_compute. done. Qed.

(** The states that need no register: the start, after the method's space, after the URI's
    space, at the start of a header line, between CR and LF, after '#', after a scheme. *)
Definition boundary (q : Z) : bool :=
  (q =? 1) || (q =? 3) || (q =? 4) || (q =? 13) || (q =? 17) || (q =? 20) || (q =? 174).

Lemma boundary_needs q : boundary q = true -> needs_at q = mkNeeds false false false false.
Proof.
  unfold boundary. rewrite !orb_true_iff, !Z.eqb_eq.
  intros [[[[[[-> | ->] | ->] | ->] | ->] | ->] | ->]; done.
Qed.

Lemma boundary_not_final q : boundary q = true -> final q = false.
Proof.
  unfold boundary. rewrite !orb_true_iff, !Z.eqb_eq.
  intros [[[[[[-> | ->] | ->] | ->] | ->] | ->] | ->]; done.
Qed.

Lemma boundary_range q : boundary q = true -> 1 <= q < 348.
Proof. unfold boundary. lia. Qed.

Lemma boundary_not_query q : boundary q = true -> in_query q = false.
Proof. unfold boundary, in_query. lia. Qed.
