(* ===== verification/HttpParserSpec.v ===== *)
(** * HttpParserSpec: what [http_parser_execute] promises

    The machine is verified against an interface of its callbacks ([CallbackLaws]): a callback
    that is given a slice of the buffer returns, and what it does depends on the slice
    only; a query string whose length wrapped around is refused with [length_error]. [HttpRequestParser]'s callbacks are an instance. The theorems are memory safety
    and progress of a call, the behaviour of a request split over two calls, and what
    a stale [query_start] does. *)

From S2P Require Import Prelude Std Http HttpParserTable HttpParser HttpParserFacts.

(** ** The interface of the callbacks *)

(** A buffer holds less than [2^31] characters: [http_parser_execute] compares its length
    with the [int]s it is cast to. *)
Definition max_len : Z := 2 ^ 31.

Class CallbackLaws {D} (on_element : callback -> list Z -> Z -> Z -> M D unit)
    (on_field : list Z -> Z -> Z -> Z -> Z -> M D unit) : Prop := {
  el_safe cb buf a len d :
    0 <= a -> 0 <= len -> a + len <= Z.of_nat (length buf) < max_len ->
    (cb = cb_request_method -> buf !! Z.to_nat (a + len) = Some 32) ->
    exists d', on_element cb buf a len d = Ret tt d';
  field_safe buf f fl v vl d :
    0 <= f -> 0 <= fl -> 0 <= v -> 0 <= vl -> Z.of_nat (length buf) < max_len ->
    f + fl <= Z.of_nat (length buf) -> v + vl <= Z.of_nat (length buf) ->
    exists d', on_field buf f fl v vl d = Ret tt d';
  el_wrapped buf a len d :
    2 ^ 64 - max_len <= len -> on_element cb_query_string buf a len d = Exn length_error d;
  el_shift cb b1 b2 a len :
    0 <= a -> on_element cb (b1 ++ b2) (Z.of_nat (length b1) + a) len = on_element cb b2 a len;
  field_shift b1 b2 f fl v vl :
    0 <= f -> 0 <= v ->
    on_field (b1 ++ b2) (Z.of_nat (length b1) + f) fl (Z.of_nat (length b1) + v) vl
    = on_field b2 f fl v vl;
  el_extend cb b1 b2 a len d d' :
    0 <= a -> on_element cb b1 a len d = Ret tt d' -> on_element cb (b1 ++ b2) a len d = Ret tt d';
  field_extend b1 b2 f fl v vl d d' :
    0 <= f -> 0 <= v ->
    on_field b1 f fl v vl d = Ret tt d' -> on_field (b1 ++ b2) f fl v vl d = Ret tt d'
}.

(** ** The callbacks of [HttpRequestParser] satisfy it *)

Lemma std_string_ok {S} buf a len (s : S) :
  0 <= a -> 0 <= len -> a + len <= Z.of_nat (length buf) < max_len ->
  std_string buf a len s = Ret (slice buf (Z.to_nat a) (Z.to_nat len)) s.
Proof.
  intros Ha Hl Hb. unfold std_string, string_max_size, max_len in *.
  destruct (Z.ltb_spec (2 ^ 62 - 1) len); [lia|]. destruct (Z.leb_spec (a + len) (Z.of_nat (length buf))); [done|lia].
Qed.

Lemma std_string_shift {S} b1 b2 a len : 0 <= a ->
  @std_string S (b1 ++ b2) (Z.of_nat (length b1) + a) len = std_string b2 a len.
Proof.
  intros Ha. unfold std_string. destruct (string_max_size <? len); [done|].
  rewrite length_app. replace (Z.of_nat (length b1) + a + len <=? _)
    with (a + len <=? Z.of_nat (length b2)) by (apply eq_true_iff_eq; rewrite !Z.leb_le; lia).
  destruct (a + len <=? Z.of_nat (length b2)); [|done]. unfold slice.
  replace (Z.to_nat (Z.of_nat (length b1) + a)) with (length b1 + Z.to_nat a)%nat by lia.
  by rewrite drop_app_add.
Qed.

Lemma std_string_extend {S} b1 b2 a len (s : S) v s' : 0 <= a ->
  std_string b1 a len s = Ret v s' -> std_string (b1 ++ b2) a len s = Ret v s'.
Proof.
  intros Ha. unfold std_string. destruct (string_max_size <? len); [done|].
  destruct (Z.leb_spec (a + len) (Z.of_nat (length b1))); [|done].
  rewrite length_app. destruct (Z.leb_spec (a + len) (Z.of_nat (length b1 + length b2))); [|lia].
  intros [= <- <-]. unfold ret. f_equal. unfold slice. destruct (decide (0 <= len)).
  - rewrite drop_app_le by lia. rewrite take_app_le; [done|]. rewrite length_drop. lia.
  - by replace (Z.to_nat len) with 0%nat by lia.
Qed.

(** A comparison stops at a character the name does not have. *)
Lemma strncmp_eq_stops s m n i x :
  m !! i = Some x -> x ∉ s -> (n <= length s)%nat -> is_Some (strncmp_eq s m n).
Proof.
  revert s m i. induction n as [|n IH]; intros s m i Hm Hx Hn; [by eexists|].
  destruct m as [|y m]; [done|]. destruct s as [|z s]; simpl in *; [by eexists|].
  destruct (Z.eqb_spec z y) as [->|]; [|by eexists].
  apply not_elem_of_cons in Hx as [Hx1 Hx2].
  destruct i as [|i]; simpl in Hm; [by simplify_eq|]. eapply IH; eauto. lia.
Qed.

Lemma strncmp_eq_within s m n : (n <= length m)%nat -> is_Some (strncmp_eq s m n).
Proof.
  revert s m. induction n as [|n IH]; intros s m Hn; [by eexists|].
  destruct m as [|y m]; simpl in *; [lia|]. destruct s as [|z s]; [by eexists|].
  destruct (z =? y); [|by eexists]. apply IH. lia.
Qed.

(** No method name has a space. *)
Lemma method_names_no_space : Forall (fun p => 32 ∉ p.2) HTTP_METHOD_MAP.
Proof. apply (bool_decide_unpack _). vm_compute. done. Qed.

Lemma CharsToHttpMethod_stops m i : m !! i = Some 32 -> is_Some (CharsToHttpMethod m).
Proof.
  intros Hm. unfold CharsToHttpMethod. generalize method_names_no_space.
  induction 1 as [|[x name] tbl Hx _ IH]; simpl in *; [by eexists|].
  destruct (strncmp_eq_stops name m (length name) i 32 Hm Hx) as [b ->]; [done|].
  destruct b; [by eexists|done].
Qed.

Lemma drop_shift {A} (b1 b2 : list A) a : 0 <= a ->
  drop (Z.to_nat (Z.of_nat (length b1) + a)) (b1 ++ b2) = drop (Z.to_nat a) b2.
Proof.
  intros. replace (Z.to_nat (Z.of_nat (length b1) + a)) with (length b1 + Z.to_nat a)%nat by lia.
  by rewrite drop_app_add.
Qed.

Lemma strncmp_eq_drop s (b1 b2 : list Z) k n b :
  strncmp_eq s (drop k b1) n = Some b -> strncmp_eq s (drop k (b1 ++ b2)) n = Some b.
Proof. intros H. rewrite drop_app. by apply strncmp_eq_app. Qed.

Lemma on_field_run buf f fl v vl d :
  0 <= f -> 0 <= fl -> 0 <= v -> 0 <= vl -> Z.of_nat (length buf) < max_len ->
  f + fl <= Z.of_nat (length buf) -> v + vl <= Z.of_nat (length buf) ->
  on_request_http_field buf f fl v vl d
  = if fl =? 0 then Ret tt (mkParsed (p_data d) 1002)
    else Ret tt (mkParsed
      (setHeader (slice buf (Z.to_nat f) (Z.to_nat fl)) (slice buf (Z.to_nat v) (Z.to_nat vl))
         (p_data d)) (p_error d)).
Proof.
  intros. unfold on_request_http_field. destruct (Z.eqb_spec fl 0); [done|].
  by do 2 (erewrite bind_Ret by (apply std_string_ok; lia)).
Qed.

Lemma on_method_safe buf a len d :
  0 <= a -> 0 <= len -> buf !! Z.to_nat (a + len) = Some 32 ->
  exists d', on_request_method buf a len d = Ret tt d'.
Proof.
  intros Ha Hl Hm. unfold on_request_method.
  destruct (CharsToHttpMethod_stops (drop (Z.to_nat a) buf) (Z.to_nat len)) as [m ->].
  { by rewrite lookup_drop, <- Z2Nat.inj_add by lia. }
  destruct (decide (m = INVALID_METHOD)); by eexists.
Qed.

Lemma on_version_safe buf a len d :
  0 <= a -> 0 <= len -> a + len <= Z.of_nat (length buf) ->
  exists d', on_request_version buf a len d = Ret tt d'.
Proof.
  intros Ha Hl Hb. unfold on_request_version.
  destruct (strncmp_eq_within (str "HTTP/1.1") (drop (Z.to_nat a) buf) (Z.to_nat len))
    as [[] ->]; [rewrite length_drop; lia|by eexists|].
  destruct (strncmp_eq_within (str "HTTP/1.0") (drop (Z.to_nat a) buf) (Z.to_nat len))
    as [[] ->]; [rewrite length_drop; lia|by eexists..].
Qed.

Lemma on_string_safe f buf a len d :
  0 <= a -> 0 <= len -> a + len <= Z.of_nat (length buf) < max_len ->
  exists d', (let! v := std_string buf a len in on_data (f v)) d = Ret tt d'.
Proof. intros. erewrite bind_Ret by (by apply std_string_ok). by eexists. Qed.

Lemma on_element_safe cb buf a len d :
  0 <= a -> 0 <= len -> a + len <= Z.of_nat (length buf) < max_len ->
  (cb = cb_request_method -> buf !! Z.to_nat (a + len) = Some 32) ->
  exists d', on_request_element cb buf a len d = Ret tt d'.
Proof.
  intros Ha Hl Hb Hm. destruct cb; simpl.
  - apply on_method_safe; auto.
  - by exists d.
  - by apply (on_string_safe setFragment).
  - by apply (on_string_safe setPath).
  - by apply (on_string_safe setQuery).
  - apply on_version_safe; lia.
  - by exists d.
Qed.

(** A length that wrapped around is refused by [std::string]. *)
Lemma query_length_wrapped buf a len d : 2 ^ 64 - max_len <= len ->
  on_request_element cb_query_string buf a len d = Exn length_error d.
Proof.
  intros Hl. simpl. unfold on_request_query, std_string, bind, string_max_size, max_len in *.
  by destruct (Z.ltb_spec (2 ^ 62 - 1) len); [|lia].
Qed.

Lemma on_method_shift b1 b2 a len : 0 <= a ->
  on_request_method (b1 ++ b2) (Z.of_nat (length b1) + a) len = on_request_method b2 a len.
Proof. intros Ha. unfold on_request_method. by rewrite drop_shift. Qed.

Lemma on_version_shift b1 b2 a len : 0 <= a ->
  on_request_version (b1 ++ b2) (Z.of_nat (length b1) + a) len = on_request_version b2 a len.
Proof. intros Ha. unfold on_request_version. by rewrite drop_shift. Qed.

Lemma on_string_shift f b1 b2 a len : 0 <= a ->
  (let! v := std_string (b1 ++ b2) (Z.of_nat (length b1) + a) len in on_data (f v))
  = (let! v := std_string b2 a len in on_data (f v)).
Proof. intros Ha. by rewrite std_string_shift. Qed.

Lemma on_element_shift cb b1 b2 a len : 0 <= a ->
  on_request_element cb (b1 ++ b2) (Z.of_nat (length b1) + a) len
  = on_request_element cb b2 a len.
Proof.
  intros Ha. destruct cb.
  - by apply on_method_shift.
  - reflexivity.
  - by apply (on_string_shift setFragment).
  - by apply (on_string_shift setPath).
  - by apply (on_string_shift setQuery).
  - by apply on_version_shift.
  - reflexivity.
Qed.

Lemma on_method_extend b1 b2 a len d d' :
  on_request_method b1 a len d = Ret tt d' -> on_request_method (b1 ++ b2) a len d = Ret tt d'.
Proof.
  unfold on_request_method. destruct (CharsToHttpMethod (drop _ b1)) as [m|] eqn:E; [|done].
  rewrite drop_app. by rewrite (chars_to_method_app _ _ _ _ E).
Qed.

Lemma on_version_extend b1 b2 a len d d' :
  on_request_version b1 a len d = Ret tt d' -> on_request_version (b1 ++ b2) a len d = Ret tt d'.
Proof.
  unfold on_request_version.
  destruct (strncmp_eq (str "HTTP/1.1") (drop _ b1) _) as [b|] eqn:E; [|done].
  rewrite (strncmp_eq_drop _ _ _ _ _ _ E). destruct b; [done|].
  destruct (strncmp_eq (str "HTTP/1.0") (drop _ b1) _) as [b|] eqn:E2; [|done].
  by rewrite (strncmp_eq_drop _ _ _ _ _ _ E2).
Qed.

Lemma on_string_extend f b1 b2 a len d d' : 0 <= a ->
  (let! v := std_string b1 a len in on_data (f v)) d = Ret tt d' ->
  (let! v := std_string (b1 ++ b2) a len in on_data (f v)) d = Ret tt d'.
Proof.
  intros Ha (v & s' & H1 & H2)%bind_inv_Ret.
  by erewrite bind_Ret by (by eapply std_string_extend).
Qed.

Lemma on_element_extend cb b1 b2 a len d d' : 0 <= a ->
  on_request_element cb b1 a len d = Ret tt d' ->
  on_request_element cb (b1 ++ b2) a len d = Ret tt d'.
Proof.
  intros Ha. destruct cb.
  - apply on_method_extend.
  - exact id.
  - by apply (on_string_extend setFragment).
  - by apply (on_string_extend setPath).
  - by apply (on_string_extend setQuery).
  - apply on_version_extend.
  - exact id.
Qed.

#[global] Instance request_callback_laws :
  CallbackLaws on_request_element on_request_http_field.
Proof.
  split.
  - exact on_element_safe.
  - intros. rewrite on_field_run by done. destruct (fl =? 0); by eexists.
  - exact query_length_wrapped.
  - exact on_element_shift.
  - intros b1 b2 f fl v vl Hf Hv. unfold on_request_http_field.
    by rewrite !std_string_shift by done.
  - exact on_element_extend.
  - intros b1 b2 f fl v vl d d' Hf Hv. unfold on_request_http_field.
    destruct (fl =? 0); [done|].
    intros (k & s' & H1 & (w & s2 & H3 & H4)%bind_inv_Ret)%bind_inv_Ret.
    erewrite bind_Ret by (by eapply std_string_extend).
    by erewrite bind_Ret by (by eapply std_string_extend).
Qed.

(** ** Memory safety of the machine *)

(** The registers at position [p] of a call, with the knowledge [k]: every position lies
    behind [p] and inside the buffer of [pe] characters. *)
Record regs_ok (k : known) (pe p : Z) (r : http_parser) : Prop := {
  ok_mark : 0 <= mark r <= p;
  ok_mark_lt : mark r < pe;
  ok_start : 0 <= field_start r <= p;
  ok_start_lt : field_start r < pe;
  ok_len : 0 <= field_len r <= pe;
  ok_field : k_field k = true -> field_start r + field_len r <= p;
  ok_query : k_query k = true -> 0 <= query_start r <= p;
  ok_qs : 0 <= query_start r
}.

Lemma LEN_sub a p : 0 <= a <= p -> p < max_len -> LEN a p = p - a.
Proof. unfold LEN, max_len. intros. apply wrapu_small. lia. Qed.

(** The parser between two calls: not finished, no body found yet, and not inside a query
    string, whose start is remembered across calls. *)
Definition ready (r : http_parser) : Prop :=
  0 <= cs r < 348 /\ body_start r = 0 /\ in_query (cs r) = false /\ 0 <= query_start r.

(** The parser between two calls, inside a query string or not. A [query_start] that counts
    is a position of an earlier buffer. *)
Definition between_calls (r : http_parser) : Prop :=
  0 <= cs r < 348 /\ body_start r = 0 /\ 0 <= query_start r
  /\ (in_query (cs r) = true -> query_start r < max_len).

(** How a call ends: all input consumed and the request incomplete; a syntax error; or the
    request complete. *)
Definition call_end (len n : Z) (r : http_parser) : Prop :=
  (n = len /\ 1 <= cs r < 348 /\ body_start r = 0 /\ 0 <= query_start r)
  \/ (0 <= n < len /\ http_parser_has_error r = true /\ body_start r = 0)
  \/ (1 <= n <= len /\ http_parser_is_finished r = true /\ 0 <= body_start r <= n).

Section Safety.
Context {D : Type} (on_element : callback -> list Z -> Z -> Z -> M D unit).
Context (on_field : list Z -> Z -> Z -> Z -> Z -> M D unit).
Context `{!CallbackLaws on_element on_field}.
Context (buf : list Z).
Hypothesis Hlen : Z.of_nat (length buf) < max_len.
Notation pe := (Z.of_nat (length buf)).
Notation run := (run on_element on_field buf pe).
Notation do_action := (do_action on_element on_field buf pe).
Notation do_actions := (do_actions on_element on_field buf pe).
Implicit Types (r : http_parser) (d : D).

Lemma element_ok cb at_ p r d : 0 <= at_ r <= p -> p <= pe ->
  (cb = cb_request_method -> buf !! Z.to_nat p = Some 32) ->
  exists d', element on_element cb buf at_ p (r, d) = Ret tt (r, d').
Proof using CallbackLaws0 Hlen.
  intros Ha Hp Hm. unfold element, reg, gets, bind, call; simpl.
  rewrite LEN_sub by (unfold max_len in *; lia).
  edestruct (el_safe (on_field := on_field) cb buf (at_ r) (p - at_ r) d) as [d' ->];
    [lia..| |by eauto].
  intros. replace (at_ r + (p - at_ r)) with p by lia. auto.
Qed.

Lemma field_ok p r d : regs_ok (mkKnown true false) pe p r -> p <= pe ->
  exists d', do_action p a_http_field (r, d) = Ret false (r, d').
Proof using CallbackLaws0 Hlen.
  intros [] Hp. simpl. unfold reg, gets, bind, call; simpl in *.
  rewrite LEN_sub by (unfold max_len in *; lia).
  edestruct (field_safe (on_element := on_element) buf (field_start r) (field_len r) (mark r)
    (p - mark r) d) as [d' ->]; naive_solver lia.
Qed.

(** The state after an action that is not [done]: registers in place, the rest kept. *)
Definition same (r r' : http_parser) : Prop := cs r' = cs r /\ nread r' = nread r.
Definition kept (r r' : http_parser) : Prop :=
  same r r' /\ body_start r' = body_start r.

Lemma do_action_ok b a k k' p r d :
  regs_ok k pe p r -> 0 <= p < pe -> buf !! Z.to_nat p = Some b -> know b a k = Some k' ->
  a <> a_done ->
  exists r' d', do_action p a (r, d) = Ret false (r', d') /\ regs_ok k' pe p r' /\ kept r r'.
Proof using CallbackLaws0 Hlen.
  intros Hok Hp Hb Hk Hd. pose proof Hok as [].
  destruct a; simpl in Hk; try done; repeat case_match; simplify_eq;
    try (eexists _, _; split; [reflexivity|]; split; [|by repeat split];
         split; simpl in *; auto; lia);
    try (edestruct element_ok as [d' He]; [| | |
           eexists r, d'; split; [simpl; unfold bind; by rewrite He|split; [done|by repeat split]]];
         simpl; auto; try lia; try done; fail).
  - eexists _, _; split; [reflexivity|]; split; [|by repeat split].
    split; simpl in *; auto; rewrite LEN_sub by lia; lia.
  - edestruct (field_ok p r d) as [d' He]; [by split; simpl; auto|lia|].
    eexists r, d'. split; [exact He|]. split; [done|by repeat split].
  - edestruct (element_ok cb_request_method mark p r d) as [d' He]; [lia..| |].
    { intros _. apply Z.eqb_eq in H. by subst. }
    eexists r, d'; split; [simpl; unfold bind; by rewrite He|split; [done|by repeat split]].
Qed.

(** [done] sets the body's start and leaves the positions. *)
Lemma do_done_ok k p r d : regs_ok k pe p r -> 0 <= p < pe ->
  exists r' d', do_action p a_done (r, d) = Ret true (r', d') /\ regs_ok k pe p r'
    /\ same r r' /\ 0 <= body_start r' <= p + 1.
Proof using CallbackLaws0 Hlen.
  intros [] Hp. simpl. unfold get, bind, regs, modify, call; simpl.
  destruct (xml_sent r || json_sent r); simpl.
  - eexists _, _. split; [reflexivity|]. split; [by split|]. split; [done|simpl; lia].
  - assert (u64 (pe - p - 1) = pe - p - 1) as ->
      by (apply wrapu_small; unfold max_len in *; lia).
    edestruct (el_safe (on_field := on_field) cb_header_done buf (p + 1) (pe - p - 1) d)
      as [d' ->]; [lia..|done|].
    eexists _, _. split; [reflexivity|]. split; [by split|]. split; [done|simpl; lia].
Qed.

Lemma do_actions_ok b l k k' p r d :
  regs_ok k pe p r -> 0 <= p < pe -> buf !! Z.to_nat p = Some b -> know_all b l k = Some k' ->
  exists out r' d', do_actions p l (r, d) = Ret out (r', d') /\ regs_ok k' pe p r'
    /\ out = bool_decide (a_done ∈ l) /\ same r r'
    /\ if out then 0 <= body_start r' <= p + 1 else body_start r' = body_start r.
Proof using CallbackLaws0 Hlen.
  intros Hok Hp Hb. revert k r d Hok. induction l as [|a l IH]; intros k r d Hok Hk; simpl in Hk.
  - simplify_eq. by exists false, r, d.
  - destruct (know b a k) as [k1|] eqn:Ea; [|done]. simpl.
    destruct (decide (a = a_done)) as [->|Ha].
    + destruct (do_done_ok k p r d Hok Hp) as (r' & d' & He & Hok' & Hcs & Hbs).
      simpl in Ea. simplify_eq. exists true, r', d'. split; [by erewrite bind_Ret by exact He|].
      split; [done|]. split; [|done]. symmetry. apply bool_decide_eq_true. left.
    + destruct (do_action_ok b a k k1 p r d Hok Hp Hb Ea Ha)
        as (r1 & d1 & He & Hok1 & Hcs & Hbs).
      destruct (IH k1 r1 d1 Hok1 Hk) as (out & r' & d' & He' & Hok' & Hout & Hcs' & Hbs').
      exists out, r', d'. split; [by erewrite bind_Ret by exact He|]. split; [done|].
      split; [|split; [unfold same in *; intuition congruence|destruct out; congruence]].
      rewrite Hout. apply bool_decide_ext. rewrite elem_of_cons. naive_solver.
Qed.

(** The three ways a run ends: at the end of the buffer in a state of the automaton, at
    a character with no transition, after [done]. *)
Definition run_end (bs p p' q' : Z) (r' : http_parser) : Prop :=
  (p' = pe /\ 1 <= q' < 348 /\ body_start r' = bs)
  \/ (q' = 0 /\ p' < pe /\ body_start r' = bs)
  \/ (final q' = true /\ p < p' /\ 0 <= body_start r' <= p').

(** The positions after a run, whatever the state. *)
Definition regs_within (r : http_parser) : Prop :=
  0 <= mark r < pe /\ 0 <= field_start r < pe /\ 0 <= field_len r <= pe
  /\ 0 <= query_start r.

Lemma regs_ok_within k p r : regs_ok k pe p r -> regs_within r.
Proof. intros []. repeat split; lia. Qed.

Lemma regs_ok_next k q' p r : regs_ok k pe p r -> q' <> 0 ->
  (k_field k || in_name q') = true -> (k_query k || negb (in_query q')) = true ->
  regs_ok (known_at q') pe (p + 1) r.
Proof.
  intros [] Hq Hf Hqq. split; simpl; try lia.
  - intros Hn. rewrite negb_true_iff in Hn. rewrite Hn, orb_false_r in Hf.
    pose proof (ok_field0 Hf). lia.
  - intros Hn. rewrite Hn, orb_false_r in Hqq. pose proof (ok_query0 Hqq). lia.
Qed.

Lemma run_ok rest p q r d :
  Forall is_byte buf -> regs_ok (known_at q) pe p r -> 0 <= p -> p + Z.of_nat (length rest) = pe ->
  drop (Z.to_nat p) buf = rest -> 1 <= q < 348 ->
  exists p' q' r' d', run p q rest (r, d) = Ret (p', q') (r', d')
    /\ p <= p' <= pe /\ same r r' /\ regs_within r' /\ run_end (body_start r) p p' q' r'.
Proof using CallbackLaws0 Hlen.
  intros Hby. revert p q r d. induction rest as [|b rest IH]; intros p q r d Hok Hp Hpe Hd Hq.
  - simpl in *. exists p, q, r, d. split; [done|]. split; [lia|]. split; [done|].
    split; [by eapply regs_ok_within|]. left. split; [lia|done].
  - assert (buf !! Z.to_nat p = Some b) as Hb.
    { rewrite <- (Nat.add_0_r (Z.to_nat p)), <- lookup_drop, Hd. done. }
    assert (is_byte b) as Hbb by (by eapply Forall_lookup_1).
    simpl length in Hpe. simpl. unfold get, bind at 1; simpl.
    destruct (step q) as [f|] eqn:Es.
    2: { destruct (step_some q Hq) as [? ?]. congruence. }
    pose proof (table_all_spec _ _ _ (uri_relaxed r) b table_acts_ok Es Hbb) as Hok2.
    destruct (f (uri_relaxed r) (s8 b)) as [l q1] eqn:Ef; simpl in *.
    unfold acts_ok in Hok2; simpl in Hok2.
    destruct (know_all b l (known_at q)) as [k'|] eqn:Ek; [|done].
    rewrite !andb_true_iff in Hok2. destruct Hok2 as [[[[H1 H2] H3] H4] H5].
    apply Bool.eqb_prop in H3.
    destruct (do_actions_ok b l _ k' p r d Hok) as
      (out & r1 & d1 & He & Hok1 & -> & Hcs1 & Hbs1); [lia|done..|].
    rewrite Ef. simpl acts. simpl dest. erewrite bind_Ret by exact He. rewrite H3 in *. destruct (final q1) eqn:Efin.
    + exists (p + 1), q1, r1, d1. split; [done|]. split; [lia|]. split; [done|].
      split; [by eapply regs_ok_within|]. right; right. split; [done|lia].
    + destruct (Z.eqb_spec q1 0) as [->|Hq1].
      * exists p, 0, r1, d1. split; [done|]. split; [lia|]. split; [done|].
        split; [by eapply regs_ok_within|]. right; left. split; [done|lia].
      * assert (1 <= q1 < 348) as Hq1' by (unfold final in Efin; lia).
        rewrite orb_false_r in H1.
        destruct (IH (p + 1) q1 r1 d1) as (p' & q' & r' & d' & Hr & ? & ? & ? & Hend);
          [by eapply regs_ok_next|lia|lia| |done|].
        { replace (Z.to_nat (p + 1)) with (Z.to_nat p + 1)%nat by lia.
          by rewrite <- drop_drop, Hd. }
        exists p', q', r', d'. split; [exact Hr|]. split; [lia|].
        split; [unfold same in *; intuition congruence|].
        split; [done|]. rewrite Hbs1 in Hend. unfold run_end in *.
        destruct Hend as [?|[?|(? & ? & ?)]]; [by left|by right; left|].
        right; right. split; [done|lia].
Qed.

(** A call around a run that stays within the buffer: no assertion fails. *)
Lemma execute_run r d p' q' r' d' :
  0 < pe -> cs r <> 0 ->
  run 0 (cs r) buf (reset_marks r, d) = Ret (p', q') (r', d') ->
  0 <= p' <= pe -> same (reset_marks r) r' -> regs_within r' -> body_start r' <= pe ->
  http_parser_execute on_element on_field buf pe 0 (r, d)
  = Ret p' (set_nread p' (set_cs q' r'), d').
Proof using Hlen.
  intros Hpe Hcs Hrun Hp' [Hcs' Hn] (Hm & Hf & Hl & _) Hb. simpl in Hcs', Hn. unfold http_parser_execute.
  destruct (Z.eqb_spec pe 0); [lia|]. unfold get, bind at 1; simpl.
  unfold regs, modify. unfold bind at 1; simpl.
  assert ((0 <=? pe) = true) as -> by lia.
  assert (s32 pe = pe) as -> by (apply wraps_small; unfold in_s, max_len in *; lia).
  change (s32 0) with 0. rewrite Z.eqb_refl. unfold assert_ at 1 2. rewrite !bind_ret_l.
  rewrite Z.sub_0_r, Nat2Z.id, slice_full. erewrite bind_Ret by exact Hrun. simpl.
  assert ((p' <=? pe) = true) as -> by lia. unfold assert_ at 1. rewrite bind_ret_l.
  unfold bind at 1; simpl. unfold http_parser_has_error. rewrite Hcs'.
  destruct (Z.eqb_spec (cs r) http_parser_error); [done|].
  do 2 (unfold bind at 1; simpl). rewrite Hn, Z.sub_0_r, Z.add_0_l.
  assert ((p' <=? pe) = true) as -> by lia.
  assert ((body_start r' <=? pe) = true) as -> by lia.
  assert ((mark r' <? pe) = true) as -> by lia.
  assert ((field_len r' <=? pe) = true) as -> by lia.
  assert ((field_start r' <? pe) = true) as -> by lia.
  done.
Qed.

Lemma reset_marks_ok r : 0 < pe -> in_query (cs r) = false -> 0 <= query_start r ->
  regs_ok (known_at (cs r)) pe 0 (reset_marks r).
Proof. intros Hpe Hq Hqs. split; simpl; try lia. by rewrite Hq. Qed.

(** A call on a parser in the error state does nothing. *)
Lemma execute_error r d : 0 < pe -> cs r = 0 -> body_start r <= pe ->
  http_parser_execute on_element on_field buf pe 0 (r, d) = Ret 0 (reset_marks r, d).
Proof using Hlen.
  intros Hpe Hcs Hb. unfold http_parser_execute.
  destruct (Z.eqb_spec pe 0); [lia|]. unfold get, bind at 1; simpl.
  unfold regs, modify. unfold bind at 1; simpl.
  assert ((0 <=? pe) = true) as -> by lia.
  assert (s32 pe = pe) as -> by (apply wraps_small; unfold in_s, max_len in *; lia).
  change (s32 0) with 0. rewrite Z.eqb_refl. unfold assert_ at 1 2. rewrite !bind_ret_l.
  rewrite Z.sub_0_r, Nat2Z.id, slice_full, Hcs.
  assert (run 0 0 buf (reset_marks r, d) = Ret (0, test_eof (if bool_decide (buf = []) then 0 else 2))
            (reset_marks r, d)) as Hrun by (by destruct buf).
  erewrite bind_Ret by exact Hrun. simpl. assert ((0 <=? pe) = true) as -> by lia.
  unfold assert_ at 1. rewrite bind_ret_l. unfold bind at 1; simpl.
  unfold http_parser_has_error at 1; simpl. rewrite Hcs; simpl.
  unfold assert_, bind, ret; simpl. change (0 + (0 - 0)) with 0.
  assert ((0 <=? pe) = true) as -> by lia.
  assert ((body_start r <=? pe) = true) as -> by lia.
  assert ((0 <? pe) = true) as -> by lia. simpl.
  reflexivity.
Qed.

Lemma run_end_body p p' q' r' : run_end 0 p p' q' r' -> p' <= pe -> body_start r' <= pe.
Proof. unfold run_end. lia. Qed.

Lemma run_call_end p' q' r' : 0 <= p' <= pe -> regs_within r' -> run_end 0 0 p' q' r' ->
  call_end pe p' (set_nread p' (set_cs q' r')).
Proof.
  intros Hp' Hw Hend.
  unfold call_end, run_end, http_parser_has_error, http_parser_is_finished, final in *; simpl.
  destruct Hend as [(? & ? & ?)|[(? & ? & ?)|(? & ? & ?)]].
  + left. unfold regs_within in Hw. lia.
  + right; left. subst. repeat split; try lia.
  + right; right. unfold http_parser_first_final. lia.
Qed.

Lemma execute_ok r d : Forall is_byte buf -> 0 < pe -> ready r ->
  exists n r' d', http_parser_execute on_element on_field buf pe 0 (r, d) = Ret n (r', d')
    /\ call_end pe n r'.
Proof using CallbackLaws0 Hlen.
  intros Hby Hpe (Hcs & Hb & Hq & Hqs). destruct (decide (cs r = 0)) as [H0|H0].
  - exists 0, (reset_marks r), d. split; [apply execute_error; lia|]. right; left.
    split; [lia|]. unfold http_parser_has_error; simpl. by rewrite H0.
  - destruct (run_ok buf 0 (cs r) (reset_marks r) d Hby) as
      (p' & q' & r' & d' & Hrun & Hp' & Hsame & Hw & Hend);
      [by apply reset_marks_ok|lia|lia|done|lia|]. simpl in Hend.
    rewrite Hb in Hend. exists p', (set_nread p' (set_cs q' r')), d'.
    split; [|by apply run_call_end].
    apply execute_run; try done. eapply run_end_body; [done|lia].
Qed.

(** *** A start of a query that is left from an earlier call *)

Definition forget (k : known) : known := mkKnown (k_field k) false.

(** As [regs_ok], when [query_start] may be a position of an earlier buffer. *)
Definition regs_held (k : known) (p : Z) (r : http_parser) : Prop :=
  regs_ok (forget k) pe p r /\ (k_query k = true -> query_start r < max_len).

Lemma regs_ok_forget k p r : regs_ok k pe p r -> regs_ok (forget k) pe p r.
Proof. intros []. by split. Qed.

Lemma know_forget b a k k' : know b a k = Some k' -> a <> a_query_string ->
  exists k1, know b a (forget k) = Some k1 /\ forget k1 = forget k' /\
    (k_query k' = true -> k_query k = true \/ a = a_start_query).
Proof.
  unfold know. intros H Ha. destruct k as [[] []], a; simpl in *; try done; repeat case_match;
    simplify_eq; eexists; split_and!; done || auto.
Qed.

(** Only [start_query] moves [query_start]. *)
Lemma do_action_query_start a p r d r' d' out : do_action p a (r, d) = Ret out (r', d') ->
  a <> a_start_query -> query_start r' = query_start r.
Proof.
  intros H Ha. destruct a; simpl in H; try done; unfold element, reg, regs, call, gets, get, modify, bind, ret in H;
    simpl in H; repeat case_match; simplify_eq/=; done.
Qed.

Lemma query_string_held p r d : 0 <= query_start r < max_len -> 0 <= p < pe ->
  (exists d', do_action p a_query_string (r, d) = Ret false (r, d')) \/
  (exists x, do_action p a_query_string (r, d) = Exn length_error x).
Proof using CallbackLaws0 Hlen.
  intros Hq Hp. destruct (Z.le_gt_cases (query_start r) p) as [Hle|Hgt].
  - destruct (element_ok cb_query_string query_start p r d) as [d' He]; [lia..|done|].
    left. exists d'. simpl. unfold bind. by rewrite He.
  - right. eexists. simpl. unfold element, reg, gets, bind, call; simpl.
    assert (LEN (query_start r) p = p - query_start r + 2 ^ 64) as ->.
    { unfold LEN, u64, wrapu. rewrite <- (Z_mod_plus _ 1), Z.mod_small; unfold max_len in *; lia. }
    by rewrite (el_wrapped (on_field := on_field)) by (unfold max_len in *; lia).
Qed.

Lemma do_action_held b a k k' p r d :
  regs_held k p r -> 0 <= p < pe -> buf !! Z.to_nat p = Some b -> know b a k = Some k' -> a <> a_done ->
  (exists r' d', do_action p a (r, d) = Ret false (r', d') /\ regs_held k' p r' /\ kept r r') \/
  (exists x, do_action p a (r, d) = Exn length_error x).
Proof using CallbackLaws0 Hlen.
  intros [Hok Hq] Hp Hb Hk Hd. destruct (decide (a = a_query_string)) as [->|Ha].
  - simpl in Hk. destruct (k_query k) eqn:Ekq; [|done]. simplify_eq.
    destruct (query_string_held p r d) as [[d' E]|E]; [by split; [eapply ok_qs|apply Hq]|done|left|by right].
    exists r, d'. split; [done|]. split; [|by repeat split]. split; [done|by intros _; apply Hq].
  - destruct (know_forget _ _ _ _ Hk Ha) as (k1 & E1 & E2 & E3). left.
    destruct (do_action_ok b a _ _ p r d Hok Hp Hb E1 Hd) as (r' & d' & E & Hok' & Hkept).
    exists r', d'. split; [done|]. split; [|done]. split; [rewrite <- E2; by apply regs_ok_forget|].
    intros Hk'. destruct (E3 Hk') as [Hkq| ->].
    + destruct (decide (a = a_start_query)) as [->|Has].
      * simpl in E. unfold regs, modify, bind, ret in E. simplify_eq/=. unfold max_len in *; lia.
      * rewrite (do_action_query_start _ _ _ _ _ _ _ E Has). by apply Hq.
    + simpl in E. unfold regs, modify, bind, ret in E. simplify_eq/=. unfold max_len in *; lia.
Qed.

Lemma do_actions_held b l k k' p r d :
  regs_held k p r -> 0 <= p < pe -> buf !! Z.to_nat p = Some b -> know_all b l k = Some k' ->
  (exists out r' d', do_actions p l (r, d) = Ret out (r', d') /\ regs_held k' p r'
    /\ out = bool_decide (a_done ∈ l) /\ same r r'
    /\ if out then 0 <= body_start r' <= p + 1 else body_start r' = body_start r)
  \/ (exists x, do_actions p l (r, d) = Exn length_error x).
Proof using CallbackLaws0 Hlen.
  intros Hok Hp Hb. revert k r d Hok. induction l as [|a l IH]; intros k r d Hok Hk; simpl in Hk.
  - simplify_eq. left. by exists false, r, d.
  - destruct (know b a k) as [k1|] eqn:Ea; [|done]. simpl.
    destruct (decide (a = a_done)) as [->|Ha].
    + destruct Hok as [Hok Hq]. destruct (do_done_ok _ p r d Hok Hp) as (r' & d' & He & Hok' & Hcs & Hbs).
      simpl in Ea. simplify_eq. left. exists true, r', d'. split; [by erewrite bind_Ret by exact He|].
      split; [split; [done|by rewrite (do_action_query_start _ _ _ _ _ _ _ He)]|].
      split; [|done]. symmetry. apply bool_decide_eq_true. left.
    + destruct (do_action_held b a k k1 p r d Hok Hp Hb Ea Ha) as [(r1 & d1 & He & Hok1 & Hcs & Hbs)|[x E]].
      2: { right. exists x. unfold bind. by rewrite E. }
      destruct (IH k1 r1 d1 Hok1 Hk) as [(out & r' & d' & He' & Hok' & Hout & Hcs' & Hbs')|[x E]].
      2: { right. exists x. by erewrite bind_Ret by exact He. }
      left. exists out, r', d'. split; [by erewrite bind_Ret by exact He|]. split; [done|].
      split; [|split; [unfold same in *; intuition congruence|destruct out; congruence]].
      rewrite Hout. apply bool_decide_ext. rewrite elem_of_cons. naive_solver.
Qed.

Lemma regs_held_next k q' p r : regs_held k p r -> 0 <= p < pe -> q' <> 0 ->
  (k_field k || in_name q') = true -> (k_query k || negb (in_query q')) = true ->
  regs_held (known_at q') (p + 1) r.
Proof.
  intros [[] Hq] Hp Hq' Hf Hqq. split; [split; simpl in *; try lia; try done|].
  - intros Hn. rewrite negb_true_iff in Hn. rewrite Hn, orb_false_r in Hf.
    pose proof (ok_field0 Hf). lia.
  - simpl. intros Hn. rewrite Hn, orb_false_r in Hqq. by apply Hq.
Qed.

(** [run_ok] for a parser that may be inside a query of an earlier call. *)
Lemma run_held rest p q r d :
  Forall is_byte buf -> regs_held (known_at q) p r -> 0 <= p -> p + Z.of_nat (length rest) = pe ->
  drop (Z.to_nat p) buf = rest -> 1 <= q < 348 ->
  (exists p' q' r' d', run p q rest (r, d) = Ret (p', q') (r', d')
    /\ p <= p' <= pe /\ same r r' /\ regs_within r' /\ run_end (body_start r) p p' q' r'
    /\ (q' <> 0 -> final q' = false -> in_query q' = true -> query_start r' < max_len))
  \/ (exists x, run p q rest (r, d) = Exn length_error x).
Proof using CallbackLaws0 Hlen.
  intros Hby. revert p q r d. induction rest as [|b rest IH]; intros p q r d Hok Hp Hpe Hd Hq.
  - simpl in *. left. exists p, q, r, d. split; [done|]. split; [lia|]. split; [done|].
    split; [by eapply regs_ok_within, Hok|]. split; [left; split; [lia|done]|]. intros _ _. apply Hok.
  - assert (buf !! Z.to_nat p = Some b) as Hb.
    { rewrite <- (Nat.add_0_r (Z.to_nat p)), <- lookup_drop, Hd. done. }
    assert (is_byte b) as Hbb by (by eapply Forall_lookup_1).
    simpl length in Hpe. simpl. unfold get, bind at 1 3; simpl.
    destruct (step_some q Hq) as [f Es]. rewrite Es.
    pose proof (table_all_spec _ _ _ (uri_relaxed r) b table_acts_ok Es Hbb) as Hok2.
    destruct (f (uri_relaxed r) (s8 b)) as [l q1] eqn:Ef; simpl in *.
    unfold acts_ok in Hok2; simpl in Hok2.
    destruct (know_all b l (known_at q)) as [k'|] eqn:Ek; [|done].
    rewrite !andb_true_iff in Hok2. destruct Hok2 as [[[[H1 H2] H3] H4] H5].
    apply Bool.eqb_prop in H3. rewrite Ef. simpl acts. simpl dest.
    destruct (do_actions_held b l _ k' p r d Hok) as
      [(out & r1 & d1 & He & Hok1 & -> & Hcs1 & Hbs1)|[x E]]; [lia|done..| |].
    2: { right. exists x. unfold bind. by rewrite E. }
    rewrite (bind_Ret _ _ _ _ _ He). rewrite H3 in *. destruct (final q1) eqn:Efin.
    + left. exists (p + 1), q1, r1, d1. split; [done|]. split; [lia|]. split; [done|].
      split; [by eapply regs_ok_within, Hok1|]. split; [|congruence]. right; right. split; [done|lia].
    + destruct (Z.eqb_spec q1 0) as [->|Hq1].
      * left. exists p, 0, r1, d1. split; [done|]. split; [lia|]. split; [done|].
        split; [by eapply regs_ok_within, Hok1|]. split; [|done]. right; left. split; [done|lia].
      * assert (1 <= q1 < 348) as Hq1' by (unfold final in Efin; lia).
        rewrite orb_false_r in H1.
        destruct (IH (p + 1) q1 r1 d1) as [(p' & q' & r' & d' & Hr & ? & ? & ? & Hend & ?)|[x E]];
          [by eapply regs_held_next; [|lia|..]|lia|lia| |done| |right; by exists x].
        { replace (Z.to_nat (p + 1)) with (Z.to_nat p + 1)%nat by lia.
          by rewrite <- drop_drop, Hd. }
        left. exists p', q', r', d'. split; [exact Hr|]. split; [lia|].
        split; [unfold same in *; intuition congruence|].
        split; [done|]. split; [|done]. rewrite Hbs1 in Hend. unfold run_end in *.
        destruct Hend as [?|[?|(? & ? & ?)]]; [by left|by right; left|].
        right; right. split; [done|lia].
Qed.

(** A call whose run throws. *)
Lemma execute_exn r d e x : 0 < pe -> run 0 (cs r) buf (reset_marks r, d) = Exn e x ->
  http_parser_execute on_element on_field buf pe 0 (r, d) = Exn e x.
Proof using Hlen.
  intros Hpe Hrun. unfold http_parser_execute. destruct (Z.eqb_spec pe 0); [lia|].
  rewrite (bind_Ret get _ _ _ _ eq_refl). unfold regs, modify. unfold bind at 1; simpl.
  assert ((0 <=? pe) = true) as -> by lia.
  assert (s32 pe = pe) as -> by (apply wraps_small; unfold in_s, max_len in *; lia).
  change (s32 0) with 0. rewrite Z.eqb_refl. unfold assert_ at 1 2. rewrite !bind_ret_l.
  rewrite Z.sub_0_r, Nat2Z.id, slice_full. by erewrite bind_Exn by exact Hrun.
Qed.

Lemma reset_marks_held r : 0 < pe -> 0 <= query_start r ->
  (in_query (cs r) = true -> query_start r < max_len) ->
  regs_held (known_at (cs r)) 0 (reset_marks r).
Proof. intros Hpe Hqs Hq. split; [|done]. by split; simpl; try lia. Qed.

(** A call on a parser that may be inside a query of an earlier call. *)
Lemma execute_held r d : Forall is_byte buf -> 0 < pe -> between_calls r ->
  (exists n r' d', http_parser_execute on_element on_field buf pe 0 (r, d) = Ret n (r', d')
    /\ call_end pe n r' /\ (http_parser_is_finished r' = false -> between_calls r'))
  \/ (exists x, http_parser_execute on_element on_field buf pe 0 (r, d) = Exn length_error x).
Proof using CallbackLaws0 Hlen.
  intros Hby Hpe (Hcs & Hb & Hqs & Hq). destruct (decide (cs r = 0)) as [H0|H0].
  - left. exists 0, (reset_marks r), d. split; [apply execute_error; lia|]. split; [right; left|done].
    split; [lia|]. unfold http_parser_has_error; simpl. by rewrite H0.
  - destruct (run_held buf 0 (cs r) (reset_marks r) d Hby) as
      [(p' & q' & r' & d' & Hrun & Hp' & Hsame & Hw & Hend & Hq')|[x E]];
      [by apply reset_marks_held|lia|lia|done|lia| |].
    2: { right. exists x. by apply execute_exn. }
    simpl in Hend. rewrite Hb in Hend. left. exists p', (set_nread p' (set_cs q' r')), d'.
    split; [apply execute_run; try done; eapply run_end_body; [done|lia]|].
    split; [by apply run_call_end|]. intros Hfin.
    unfold http_parser_is_finished, http_parser_first_final in Hfin; simpl in Hfin.
    unfold between_calls. simpl. unfold run_end, final in *.
    destruct Hend as [(? & ? & ?)|[(-> & ? & ?)|(? & ? & ?)]].
    + split_and!; [lia..|apply Hw|]. apply Hq'; lia.
    + split_and!; [lia..|apply Hw|done].
    + exfalso. lia.
Qed.
End Safety.

(** [HttpRequestParser::execute] is the call of the machine, then the move. *)
Lemma execute_machine s b n r d :
  http_parser_execute on_request_element on_request_http_field b (Z.of_nat (length b)) 0
    (m_parser s, mkParsed (m_data s) (m_error s)) = Ret n (r, d) ->
  execute b (Z.of_nat (length b)) s
  = Ret (n, splice b 0 (slice b (Z.to_nat n) (Z.to_nat (Z.of_nat (length b) - n))))
      (mkRequestParser r (p_data d) (p_error d)).
Proof.
  intros H. unfold execute, machine. rewrite Nat2Z.id, firstn_all.
  by erewrite bind_Ret by (by rewrite H).
Qed.

(** C3: Memory safety and progress of a call. A parser between two calls (not finished, no
    body found, [query_start] a position of some buffer if it is inside a query string) is
    given [len] bytes, at least one and less than [2^31]. Outside a query string the call
    returns: no assertion of [http_parser_execute] fails, no callback reads outside the
    buffer and nothing is thrown. Inside a query string, whose remembered start counts in
    the buffer of an earlier call, it returns or throws [length_error], and again no
    assertion fails and nothing is read outside. When it returns, either all bytes are
    consumed and the request is incomplete, or the parser stopped at a syntax error, or the
    request is complete and its body starts within what was consumed; the parser is between
    two calls again unless the request is complete; what was not consumed is moved to the
    front of the buffer. *)
Theorem execute_safe s data len :
  Forall is_byte data -> 0 < len <= Z.of_nat (length data) -> len < max_len ->
  between_calls (m_parser s) ->
  (exists n data' s', execute data len s = Ret (n, data') s'
    /\ call_end len n (m_parser s')
    /\ (http_parser_is_finished (m_parser s') = false -> between_calls (m_parser s'))
    /\ length data' = length data
    /\ take (Z.to_nat (len - n)) data' = slice data (Z.to_nat n) (Z.to_nat (len - n)))
  \/ (in_query (cs (m_parser s)) = true /\ exists s', execute data len s = Exn length_error s').
Proof.
  intros Hby Hlen Hmax Hr. pose (b := take (Z.to_nat len) data).
  assert (Z.of_nat (length b) = len) as Hb by (unfold b; rewrite length_take; lia).
  assert (Forall is_byte b) as Hbb by by apply Forall_take.
  destruct (execute_held on_request_element on_request_http_field b ltac:(lia) (m_parser s)
    (mkParsed (m_data s) (m_error s)) Hbb ltac:(lia) Hr) as [(n & r' & d' & He & Hend & Hnext)|[[x1 x2] E]];
    rewrite Hb in *.
  - left. exists n, (splice data 0 (slice data (Z.to_nat n) (Z.to_nat (len - n)))),
      (mkRequestParser r' (p_data d') (p_error d')).
    assert (0 <= n <= len) by (unfold call_end in Hend; lia).
    assert (length (slice data (Z.to_nat n) (Z.to_nat (len - n))) = Z.to_nat (len - n)) as Hs
      by (apply length_slice; lia).
    split; [|split; [done|split; [done|split]]].
    + unfold execute, machine. fold b. by rewrite (bind_Ret _ _ _ n
        (mkRequestParser r' (p_data d') (p_error d'))) by (by rewrite He).
    + apply length_splice. rewrite Hs. lia.
    + unfold splice. rewrite take_0. simpl. by rewrite <- Hs at 1; rewrite take_app_length.
  - right. split.
    + destruct (in_query (cs (m_parser s))) eqn:Eq; [done|]. exfalso.
      destruct Hr as (? & ? & ? & _).
      destruct (execute_ok on_request_element on_request_http_field b ltac:(lia) (m_parser s)
        (mkParsed (m_data s) (m_error s)) Hbb ltac:(lia)) as (n & r' & d' & He & _); [done|].
      rewrite Hb in He. congruence.
    + eexists. unfold execute, machine. fold b. apply bind_Exn. by rewrite E.
Qed.

Definition no_memory : http_parser := mkParser 0 0 0 0 0 0 0 0 false false false.

(** A first call that ends inside the query, and the next one. *)
Lemma execute_safe_witness :
  let s := new_HttpRequestParser no_memory in
  let data := str "GET /index?x=1 HTT" in
  let s1 := match execute data 13 s with Ret _ s1 => s1 | _ => s end in
  between_calls (m_parser s) /\ is_ret (execute data 13 s) = true /\
  exists s', execute (str "2 HTTP/1.1") 10 s1 = Exn length_error s'.
Proof.
  intros s data s1. assert (between_calls (m_parser s)) as Hr by (split_and!; (done || discriminate)).
  assert (Forall is_byte data) as Hd by (apply (bool_decide_unpack _); vm_compute; exact I).
  split; [done|].
  destruct (execute_safe s data 13 Hd) as [(n & d' & s' & E & _ & Hnext & _)|[? _]];
    [by split; vm_compute|reflexivity|done| |done].
  split; [by rewrite E|]. assert (s' = s1) as Es by (unfold s1; by rewrite E).
  destruct (execute_safe s' (str "2 HTTP/1.1") 10) as [(n2 & d2 & s2 & E2 & _)|[_ Ex]]; [| | | |exfalso|by rewrite <- Es].
  - apply (bool_decide_unpack _). vm_compute. exact I.
  - by split; vm_compute.
  - reflexivity.
  - apply Hnext. rewrite Es. vm_compute. reflexivity.
  - rewrite Es in E2. vm_compute in E2. discriminate.
Defined.
