(* ===== verification/HttpParserSplit.v ===== *)
(** * HttpParserSplit: a request that arrives in two reads

    [HttpSession::recvRequest] gives the parser what each read returned, and the positions the
    parser remembers are relative to the buffer of one call. A split in a state that needs
    no register ([boundary]) is harmless: the two calls do what one call on the whole does.
    The theorem is a simulation of the call on the second part by the call on the whole. *)

From S2P Require Import Prelude Std Http HttpParserTable HttpParser HttpParserFacts HttpParserSpec.

Section Split.
Context {D : Type} (on_element : callback -> list Z -> Z -> Z -> M D unit).
Context (on_field : list Z -> Z -> Z -> Z -> Z -> M D unit).
Context `{!CallbackLaws on_element on_field}.
Implicit Types (r : http_parser) (d : D).

(** *** The first part: a longer buffer changes nothing *)

Lemma element_extend b1 b2 cb at_ p r d d' : 0 <= at_ r ->
  element on_element cb b1 at_ p (r, d) = Ret tt (r, d') ->
  element on_element cb (b1 ++ b2) at_ p (r, d) = Ret tt (r, d').
Proof using CallbackLaws0.
  intros Ha. unfold element, reg, gets, bind, call; simpl.
  destruct (on_element cb b1 (at_ r) (LEN (at_ r) p) d) as [[] d1| |] eqn:E; intros; simplify_eq.
  by rewrite (el_extend (on_field := on_field) _ _ b2 _ _ _ _ Ha E).
Qed.

Lemma element_ret b cb at_ p r d s' :
  element on_element cb b at_ p (r, d) = Ret tt s' -> s'.1 = r.
Proof.
  unfold element, reg, gets, bind, call; simpl.
  destruct (on_element _ _ _ _ _); intros; by simplify_eq.
Qed.

Lemma element_act_ret b cb at_ p r d o s' :
  (element on_element cb b at_ p ;; ret false) (r, d) = Ret o s' -> s'.1 = r /\ o = false.
Proof.
  intros ([] & s1 & H1 & H2)%bind_inv_Ret. unfold ret in H2. simplify_eq.
  split; [|done]. by eapply element_ret.
Qed.

Lemma element_act_extend b1 b2 cb at_ p r d s' : 0 <= at_ r ->
  (element on_element cb b1 at_ p ;; ret false) (r, d) = Ret false s' ->
  (element on_element cb (b1 ++ b2) at_ p ;; ret false) (r, d) = Ret false s'.
Proof using CallbackLaws0.
  intros Ha ([] & [r1 d1] & H1 & H2)%bind_inv_Ret. pose proof (element_ret _ _ _ _ _ _ _ H1).
  simpl in *. subst r1. erewrite bind_Ret by (by apply element_extend). done.
Qed.

Definition positive r : Prop := 0 <= mark r /\ 0 <= field_start r /\ 0 <= query_start r.

Lemma do_action_extend b1 b2 pe1 pe2 p a r d s' : positive r -> a <> a_done ->
  do_action on_element on_field b1 pe1 p a (r, d) = Ret false s' ->
  do_action on_element on_field (b1 ++ b2) pe2 p a (r, d) = Ret false s'.
Proof using CallbackLaws0.
  intros (Hm & Hf & Hq) Ha.
  destruct a; simpl; try done; try (by apply element_act_extend).
  unfold reg, gets, bind, call; simpl.
  destruct (on_field b1 _ _ _ _ d) as [[] d1| |] eqn:E; intros; simplify_eq.
  by rewrite (field_extend (on_element := on_element) _ b2 _ _ _ _ _ _ Hf Hm E).
Qed.

(** An action that sets a register sets it to a position. *)
Lemma do_action_positive b pe p a r d s' : 0 <= p -> positive r ->
  do_action on_element on_field b pe p a (r, d) = Ret false s' -> positive s'.1.
Proof.
  intros Hp (Hm & Hf & Hq).
  destruct a; simpl;
    try match goal with |- context [element _ ?cb] =>
      intros H; apply (element_act_ret b cb) in H as [-> _]; by repeat split end;
    try (intros H; injection H as <-; by repeat split).
  - unfold reg, gets, bind, call; simpl.
    destruct (on_field _ _ _ _ _ d); [|done..].
    intros H; injection H as <-. by repeat split.
  - intros ([r1 d1] & s1 & _ & ([] & s2 & _ & H)%bind_inv_Ret)%bind_inv_Ret. done.
Qed.

(** Only [done] leaves the machine. *)
Lemma do_actions_true b pe p l s s' :
  do_actions on_element on_field b pe p l s = Ret true s' -> a_done ∈ l.
Proof.
  revert s. induction l as [|a l IH]; intros s; simpl; [done|].
  intros (out & s1 & H1 & H2)%bind_inv_Ret. destruct out; [|right; eauto].
  destruct s as [r d].
  destruct a; simpl in H1; try done;
    try match type of H1 with context [element _ ?cb] =>
      by apply (element_act_ret b cb) in H1 as [_ ?] end; [|left].
  revert H1. unfold reg, gets, bind, call; simpl. by destruct (on_field _ _ _ _ _ d).
Qed.

Lemma do_actions_extend b1 b2 pe1 pe2 p l r d s' : 0 <= p -> positive r ->
  do_actions on_element on_field b1 pe1 p l (r, d) = Ret false s' ->
  do_actions on_element on_field (b1 ++ b2) pe2 p l (r, d) = Ret false s' /\ positive s'.1.
Proof using CallbackLaws0.
  intros Hp. revert r d. induction l as [|a l IH]; intros r d Hr; simpl.
  - intros [= <-]. done.
  - intros ([] & [r1 d1] & H1 & H2)%bind_inv_Ret; [done|].
    assert (a <> a_done) as Ha.
    { intros ->. simpl in H1.
      by apply bind_inv_Ret in H1 as (? & ? & _ & (? & ? & _ & H)%bind_inv_Ret). }
    pose proof (do_action_positive _ _ _ _ _ _ _ Hp Hr H1) as Hr1. simpl in Hr1.
    erewrite bind_Ret by (by eapply do_action_extend). by apply IH.
Qed.

(** A run over [b1] that ends in a boundary state is the first part of a run over more. *)
Lemma run_extend b1 b2 pe1 pe2 l rest p q q' r d s' :
  Forall is_byte l -> 0 <= p -> positive r -> boundary q' = true ->
  run on_element on_field b1 pe1 p q l (r, d) = Ret (p + Z.of_nat (length l), q') s' ->
  run on_element on_field (b1 ++ b2) pe2 p q (l ++ rest) (r, d)
  = run on_element on_field (b1 ++ b2) pe2 (p + Z.of_nat (length l)) q' rest s'.
Proof using CallbackLaws0.
  intros Hby. revert p q r d. induction Hby as [|b l Hb Hby IH]; intros p q r d Hp Hr Hq'.
  - simpl. unfold test_eof, ret. intros H. injection H as _ <- <-. by rewrite Z.add_0_r.
  - simpl app. simpl. destruct (step q) as [f|] eqn:Es.
    2: { unfold ret. intros H. injection H as _ <- _. done. }
    rewrite !(bind_Ret get _ _ (r, d) (r, d)) by done. simpl.
    destruct (f (uri_relaxed r) (s8 b)) as [acts1 q1] eqn:Ef; simpl.
    intros (out & [r1 d1] & H1 & H2)%bind_inv_Ret. destruct out.
    + unfold ret in H2. injection H2 as _ <- _.
      pose proof (table_all_spec _ _ _ (uri_relaxed r) b table_acts_ok Es Hb) as Hok.
      unfold acts_ok in Hok. rewrite Ef in Hok; simpl in Hok.
      destruct (know_all _ _ _) as [k|]; [|done]. rewrite !andb_true_iff in Hok.
      destruct Hok as [[[_ Hfin%Bool.eqb_prop] _] _].
      rewrite bool_decide_eq_true_2 in Hfin by (by eapply do_actions_true).
      apply boundary_not_final in Hq'. congruence.
    + destruct (do_actions_extend b1 b2 pe1 pe2 p acts1 r d _ Hp Hr H1) as [H3 Hr1].
      erewrite bind_Ret by exact H3. destruct (Z.eqb_spec q1 0) as [->|Hq1].
      { unfold ret in H2. injection H2 as H2 <- _. done. }
      simpl in Hr1. replace (p + Z.of_nat (S (length l)))
        with ((p + 1) + Z.of_nat (length l)) in * by lia.
      apply IH; [lia|done..].
Qed.

(** *** The second part: everything is shifted by the length of the first *)

(** [r] is [r2] with every register that is needed moved by [k]. *)
Record shifted (k : Z) (n : needs) (r r2 : http_parser) : Prop := {
  sh_mark : n_mark n = true -> 0 <= mark r2 /\ mark r = k + mark r2;
  sh_start : n_start n = true -> 0 <= field_start r2 /\ field_start r = k + field_start r2;
  sh_len : n_len n = true -> field_len r = field_len r2;
  sh_query : n_query n = true -> 0 <= query_start r2 /\ query_start r = k + query_start r2;
  sh_xml : xml_sent r = xml_sent r2;
  sh_json : json_sent r = json_sent r2;
  sh_uri : uri_relaxed r = uri_relaxed r2
}.

Lemma shifted_le k n n' r r2 : needs_le n' n = true -> shifted k n r r2 -> shifted k n' r r2.
Proof.
  unfold needs_le. rewrite !andb_true_iff, !implb_true_iff. intros [[[? ?] ?] ?] []. split; auto.
Qed.

Lemma LEN_shift k m p : LEN (k + m) (k + p) = LEN m p.
Proof. unfold LEN. f_equal. lia. Qed.

(** Two runs that agree: the same outcome on the object, the registers shifted. *)
Definition agree {A} (P : A -> A -> http_parser -> http_parser -> Prop)
    (x y : res (http_parser * D) A) : Prop :=
  match x, y with
  | Ret a (r, d), Ret a2 (r2, d2) => d = d2 /\ P a a2 r r2
  | Exn e (_, d), Exn e2 (_, d2) => e = e2 /\ d = d2
  | UB f, UB f2 => f = f2
  | _, _ => False
  end.

Section Shift.
Context (b1 b2 : list Z).
Notation k := (Z.of_nat (length b1)).
Notation pe := (Z.of_nat (length b2)).
Notation B := (b1 ++ b2).

Definition step_agree (n : needs) (o o2 : bool) (r r2 : http_parser) : Prop :=
  o = o2 /\ (o = false -> shifted k n r r2).

Lemma element_agree n cb (at_ : http_parser -> Z) p r r2 d :
  0 <= at_ r2 -> at_ r = k + at_ r2 -> shifted k n r r2 ->
  agree (step_agree n) ((element on_element cb B at_ (k + p) ;; ret false) (r, d))
    ((element on_element cb b2 at_ p ;; ret false) (r2, d)).
Proof using CallbackLaws0.
  intros Ha Hs Hsh. unfold element, reg, gets, bind, call; simpl.
  rewrite Hs, LEN_shift, (el_shift (on_field := on_field) cb b1 b2) by done.
  destruct (on_element cb b2 (at_ r2) _ d); simpl; try done.
Qed.

Lemma do_action_agree n p a r r2 d : 0 <= p ->
  shifted k (needs_before a n) r r2 ->
  agree (step_agree n) (do_action on_element on_field B (k + pe) (k + p) a (r, d))
    (do_action on_element on_field b2 pe p a (r2, d)).
Proof using CallbackLaws0.
  intros Hp Hsh. pose proof Hsh as [Hm Hf Hl Hq Hx Hj Hu].
  destruct a; simpl in *;
    try (apply element_agree; [by apply Hm|by apply Hm|
           apply (shifted_le _ _ n _ _) in Hsh; [done|
             unfold needs_le; simpl; by rewrite ?implb_same, ?implb_true_r]]);
    try (split; [done|]; split; [done|]; split; simpl; intros; auto; try done; split; auto; lia).
  - destruct (Hf eq_refl) as [? ->]. rewrite LEN_shift.
    split; [done|]. split; [done|]. by split; simpl; intros; auto.
  - destruct (Hm eq_refl) as [? Em], (Hf eq_refl) as [? Ef].
    unfold reg, gets, bind, call; simpl. rewrite Em, Ef, LEN_shift, (Hl eq_refl).
    rewrite (field_shift (on_element := on_element)) by done.
    destruct (on_field b2 _ _ _ _ d); simpl; try done.
    split; [done|]. split; [done|]. by split; simpl; intros; auto.
  - apply element_agree; [by apply Hq|by apply Hq|by split; auto].
  - rewrite !(bind_Ret get _ _ _ _ eq_refl). simpl. rewrite Hx, Hj.
    destruct (xml_sent r2 || json_sent r2).
    + split; [done|]. split; [done|]. by split; simpl; auto.
    + unfold regs, modify, bind, call; simpl.
      replace (k + pe - (k + p) - 1) with (pe - p - 1) by lia.
      rewrite <- Z.add_assoc, (el_shift (on_field := on_field)) by lia.
      by destruct (on_element _ b2 _ _ d).
Qed.

Lemma agree_bind {A} (P : A -> A -> http_parser -> http_parser -> Prop) {C} Q
    (m m2 : M (http_parser * D) A) (f f2 : A -> M (http_parser * D) C) s s2 :
  agree P (m s) (m2 s2) ->
  (forall a a2 r r2 d, P a a2 r r2 -> agree Q (f a (r, d)) (f2 a2 (r2, d))) ->
  agree Q (bind m f s) (bind m2 f2 s2).
Proof.
  unfold bind. intros H Hf. destruct (m s) as [a [r d]|e [r d]|],
    (m2 s2) as [a2 [r2 d2]|e2 [r2 d2]|]; simpl in *; try done.
  destruct H as [-> H]. by apply Hf.
Qed.

Lemma do_actions_agree n p l r r2 d : 0 <= p ->
  shifted k (needs_all l n) r r2 ->
  agree (step_agree n) (do_actions on_element on_field B (k + pe) (k + p) l (r, d))
    (do_actions on_element on_field b2 pe p l (r2, d)).
Proof using CallbackLaws0.
  intros Hp. revert r r2 d. induction l as [|a l IH]; intros r r2 d Hsh; simpl in *.
  - split; [done|]. by split.
  - eapply agree_bind; [by apply do_action_agree|].
    intros o o2 r' r2' d' [-> Hsh']. destruct o2; [by repeat split|]. apply IH. auto.
Qed.

Definition ends_agree (x y : Z * Z) (r r2 : http_parser) : Prop :=
  x.1 = k + y.1 /\ x.2 = y.2.

Lemma run_agree l p q r r2 d : Forall is_byte l -> 0 <= p -> shifted k (needs_at q) r r2 ->
  agree ends_agree (run on_element on_field B (k + pe) (k + p) q l (r, d))
    (run on_element on_field b2 pe p q l (r2, d)).
Proof using CallbackLaws0.
  intros Hby. revert p q r r2 d. induction Hby as [|b l Hb _ IH];
    intros p q r r2 d Hp Hsh; simpl; [done|].
  destruct (step q) as [f|] eqn:Es; [|done].
  rewrite !(bind_Ret get _ _ _ _ eq_refl). simpl.
  rewrite (sh_uri _ _ _ _ Hsh).
  pose proof (table_all_spec _ _ _ (uri_relaxed r2) b table_needs_ok Es Hb) as Hn.
  apply (shifted_le _ _ _ _ _ Hn) in Hsh.
  eapply agree_bind; [by apply do_actions_agree|].
  intros o o2 r' r2' d' [-> Hsh']. destruct o2; simpl.
  - split; [done|]. split; simpl; lia.
  - destruct (dest _ =? 0); [done|]. rewrite <- Z.add_assoc. apply IH; [lia|auto].
Qed.
End Shift.

(** A parser between two calls that stopped in a boundary state, after it consumed [b1]:
    going on with [b2] does what [b1 ++ b2] would have done in one call. *)
Lemma execute_split b1 b2 r d r1 d1 :
  Forall is_byte (b1 ++ b2) -> b1 <> [] -> b2 <> [] ->
  Z.of_nat (length (b1 ++ b2)) < max_len -> ready r ->
  http_parser_execute on_element on_field b1 (Z.of_nat (length b1)) 0 (r, d)
    = Ret (Z.of_nat (length b1)) (r1, d1) ->
  boundary (cs r1) = true ->
  exists n r2 r' d',
    http_parser_execute on_element on_field b2 (Z.of_nat (length b2)) 0 (r1, d1)
      = Ret n (r2, d')
    /\ http_parser_execute on_element on_field (b1 ++ b2) (Z.of_nat (length (b1 ++ b2))) 0 (r, d)
      = Ret (Z.of_nat (length b1) + n) (r', d')
    /\ cs r' = cs r2 /\ call_end (Z.of_nat (length b2)) n r2.
Proof using CallbackLaws0.
  intros Hby Hb1 Hb2 Hmax Hr He Hbd. pose proof Hr as (Hcs & Hbs & Hq & Hqs).
  pose proof Hby as [Hby1 Hby2]%Forall_app. rewrite length_app in *.
  assert (0 < Z.of_nat (length b1)) as L1 by (destruct b1; simpl; [done|lia]).
  assert (0 < Z.of_nat (length b2)) as L2 by (destruct b2; simpl; [done|lia]).
  destruct (decide (cs r = 0)) as [H0|H0].
  { rewrite execute_error in He by (done || lia). injection He as He _ _. lia. }
  (* the first call *)
  destruct (run_ok on_element on_field b1 ltac:(lia) b1 0 (cs r) (reset_marks r) d Hby1)
    as (p1 & q1 & r1' & d1' & Hrun1 & Hp1 & Hs1 & Hw1 & Hend1);
    [by apply reset_marks_ok|lia|lia|done|lia|]. simpl in Hend1.
  rewrite (execute_run on_element on_field b1 ltac:(lia) r d p1 q1 r1' d1') in He;
    [|lia|done|done|lia|done|done|rewrite Hbs in Hend1; eapply run_end_body; [done|lia]].
  injection He as -> <- ->. simpl in Hbd. pose proof (boundary_range _ Hbd) as Hq1.
  assert (body_start r1' = 0) as Hb0.
  { apply boundary_not_final in Hbd. unfold run_end in Hend1. rewrite Hbs in Hend1.
    destruct Hend1 as [?|[?|[? _]]]; [lia|lia|congruence]. }
  (* the second call *)
  destruct (run_ok on_element on_field b2 ltac:(lia) b2 0 q1
    (reset_marks (set_nread (Z.of_nat (length b1)) (set_cs q1 r1'))) d1 Hby2)
    as (p2 & q2 & r2 & d2 & Hrun2 & Hp2 & Hs2 & Hw2 & Hend2).
  { apply (reset_marks_ok b2 (set_nread (Z.of_nat (length b1)) (set_cs q1 r1')));
      [done|by apply boundary_not_query|apply Hw1]. }
  { lia. } { lia. } { done. } { done. }
  (* the call on everything *)
  destruct (run_ok on_element on_field (b1 ++ b2) ltac:(rewrite length_app; lia) (b1 ++ b2) 0
    (cs r) (reset_marks r) d Hby) as (p & q & r' & d' & Hrun & Hp & Hs & Hw & Hend);
    [apply reset_marks_ok; [rewrite length_app; lia|done..]|lia|done|done|lia|].
  rewrite length_app in *. simpl in Hend, Hend2.
  rewrite Hb0 in Hend2. rewrite Hbs in Hend.
  assert (agree (ends_agree b1) (Ret (p, q) (r', d')) (Ret (p2, q2) (r2, d2))) as Hag.
  { rewrite <- Hrun, <- Hrun2.
    rewrite (run_extend b1 b2 (Z.of_nat (length b1)) _ b1 b2 0 (cs r) q1 (reset_marks r) d
      (r1', d1)) by (done || lia). rewrite Nat2Z.inj_add, (Z.add_comm 0).
    apply run_agree; [done|lia|]. rewrite boundary_needs by done. by split. }
  destruct Hag as [-> [Hpp Hqq]]; simpl in Hpp, Hqq. subst p q.
  exists p2, (set_nread p2 (set_cs q2 r2)),
    (set_nread (Z.of_nat (length b1) + p2) (set_cs q2 r')), d2.
  split; [|split; [|split; [done|]]].
  - apply execute_run; try done; [lia|simpl; lia|]. eapply run_end_body; [done|lia].
  - rewrite <- length_app.
    apply execute_run; rewrite ?length_app; try done; try lia.
    rewrite <- length_app. eapply run_end_body; [done|rewrite length_app; lia].
  - by apply run_call_end.
Qed.
End Split.

(** Two parsers that cannot be told apart by [HttpSession]. *)
Definition same_outcome (s s' : HttpRequestParser) : Prop :=
  m_data s = m_data s' /\ m_error s = m_error s'
  /\ isFinished s = isFinished s' /\ hasError s = hasError s'.

(** C4: A request that arrives in two reads. When the first call consumed all of [b1] and
    stopped in a state that needs no remembered position (the start, before the URI or the
    version, at the start of a header line, between CR and LF), calling the parser again with
    [b2] gives the same request, error code and state as one call with [b1 ++ b2], and
    consumes the rest of what that call consumes. *)
Theorem execute_two_reads s b1 b2 s1 :
  Forall is_byte (b1 ++ b2) -> b1 <> [] -> b2 <> [] ->
  Z.of_nat (length (b1 ++ b2)) < max_len -> ready (m_parser s) ->
  (exists data', execute b1 (Z.of_nat (length b1)) s = Ret (Z.of_nat (length b1), data') s1) ->
  boundary (cs (m_parser s1)) = true ->
  exists n data2 data12 s2 s12,
    execute b2 (Z.of_nat (length b2)) s1 = Ret (n, data2) s2
    /\ execute (b1 ++ b2) (Z.of_nat (length (b1 ++ b2))) s
       = Ret (Z.of_nat (length b1) + n, data12) s12
    /\ same_outcome s12 s2
    /\ call_end (Z.of_nat (length b2)) n (m_parser s2).
Proof.
  intros Hby Hb1 Hb2 Hmax Hr [data' He] Hbd.
  assert (forall b : list Z, take (Z.to_nat (Z.of_nat (length b))) b = b) as Ht.
  { intros b. rewrite Nat2Z.id. apply firstn_all. }
  unfold execute in He. rewrite Ht in He.
  apply bind_inv_Ret in He as (n1 & s1' & He & Heq). unfold ret in Heq.
  injection Heq as -> _ ->. unfold machine in He.
  destruct (http_parser_execute _ _ b1 _ 0 _) as [n1 [r1 d1]| |] eqn:E1; [|done..].
  injection He as -> <-. simpl in Hbd.
  destruct (execute_split on_request_element on_request_http_field b1 b2 _ _ _ _
    Hby Hb1 Hb2 Hmax Hr E1 Hbd) as (n & r2 & r' & d' & E2 & E12 & Hcs & Hend).
  eexists n, _, _, (mkRequestParser r2 (p_data d') (p_error d')),
    (mkRequestParser r' (p_data d') (p_error d')).
  split; [|split].
  - apply execute_machine. simpl. by destruct d1.
  - by apply execute_machine.
  - split; [|done].
    unfold same_outcome, isFinished, hasError, http_parser_is_finished, http_parser_has_error; simpl.
    by rewrite Hcs.
Qed.

Lemma execute_two_reads_witness :
  let s := new_HttpRequestParser no_memory in
  let b1 := str "GET " in
  let b2 := str "/index?x=1 HTTP/1.1" ++ crlf ++ crlf in
  exists s1 n data2 s2, boundary (cs (m_parser s1)) = true
    /\ execute b2 (Z.of_nat (length b2)) s1 = Ret (n, data2) s2.
Proof.
  intros s b1 b2.
  assert (exists s1, execute b1 4 s = Ret (4, b1) s1 /\ boundary (cs (m_parser s1)) = true)
    as (s1 & E1 & Hb) by (eexists; split; [vm_compute; reflexivity|reflexivity]).
  destruct (execute_two_reads s b1 b2 s1) as (n & data2 & ? & s2 & ? & E2 & _).
  - apply (bool_decide_unpack _). vm_compute. exact I.
  - discriminate.
  - discriminate.
  - vm_compute. reflexivity.
  - repeat split; discriminate.
  - by exists b1.
  - done.
  - by exists s1, n, data2, s2.
Defined.
