(* ===== verification/HttpParserRoundtrip.v ===== *)
(** * HttpParserRoundtrip: a printed request is parsed back

    The text of a request is built by [request_text] from its method, path, query,
    fragment, version and header lines; parsing it in one call gives them back. The
    automaton is followed piece by piece: each lemma [run_X] crosses one element of the
    grammar. Percent-encoded characters and the bytes above 127 the grammar adds are included. *)

From S2P Require Import Prelude Std Http HttpParserTable HttpParser HttpParserFacts HttpParserSpec.

(** ** The texts of the grammar *)

Definition in_range (lo hi b : Z) : bool := (lo <=? b) && (b <=? hi).
Definition is_alnum (b : Z) : bool := in_range 48 57 b || in_range 65 90 b || in_range 97 122 b.
Definition is_xdigit (b : Z) : bool := in_range 48 57 b || in_range 65 70 b || in_range 97 102 b.

(** Characters of a path, percent signs apart: [pchar] of the grammar and '/'. *)
Definition is_path_char (b : Z) : bool :=
  in_range 128 255 b || (b =? 33) || (b =? 36) || in_range 38 59 b || (b =? 61)
  || in_range 64 90 b || (b =? 95) || in_range 97 122 b || (b =? 126).
(** A query or fragment has '?' as well. *)
Definition is_query_char (b : Z) : bool := is_path_char b || (b =? 63).
(** A [token] character of a header name, control characters left out. *)
Definition is_token (b : Z) : bool :=
  (b =? 33) || in_range 35 39 b || in_range 42 43 b || in_range 45 46 b || in_range 48 57 b
  || in_range 65 90 b || in_range 94 122 b || (b =? 124) || (b =? 126).
(** A character inside a header value, and one it can start with. *)
Definition is_value_char (b : Z) : bool :=
  in_range 1 9 b || in_range 11 12 b || in_range 14 126 b || in_range 128 255 b.
Definition is_value_start (b : Z) : bool := is_value_char b && negb (b =? 9) && negb (b =? 32).

(** Text over [ok] and percent-encoded characters. *)
Fixpoint pct_text (ok : Z -> bool) (l : list Z) : bool :=
  match l with
  | [] => true
  | b :: l' =>
      if b =? 37 then
        match l' with
        | x :: y :: l'' => is_xdigit x && is_xdigit y && pct_text ok l''
        | _ => false
        end
      else ok b && pct_text ok l'
  end.

(** An absolute path: '/' alone or followed by something other than another '/'. *)
Definition is_path (l : list Z) : bool :=
  match l with
  | 47 :: t => pct_text is_path_char t && match t with 47 :: _ => false | _ => true end
  | _ => false
  end.

Definition is_name (l : list Z) : bool :=
  match l with [] => false | _ => forallb is_token l end.
Definition is_value (l : list Z) : bool :=
  match l with [] => true | b :: l' => is_value_start b && forallb is_value_char l' end.
Definition is_lws (l : list Z) : bool := forallb (fun b => (b =? 9) || (b =? 32)) l.

(** A header line: name, white space after the colon, value. *)
Record line := mkLine { l_name : list Z; l_lws : list Z; l_value : list Z }.
Definition is_line (h : line) : bool := is_name (l_name h) && is_lws (l_lws h) && is_value (l_value h).
Definition line_text (h : line) : list Z :=
  l_name h ++ [58] ++ l_lws h ++ l_value h ++ crlf.

Definition opt_text (sep : Z) (o : option (list Z)) : list Z :=
  match o with None => [] | Some t => sep :: t end.

(** The request target and the space after it. *)
Definition uri_text (path : list Z) (query frag : option (list Z)) : list Z :=
  path ++ opt_text 63 query ++ opt_text 35 frag ++ [32].

Definition version_text (minor : bool) : list Z :=
  str (if minor then "HTTP/1.1" else "HTTP/1.0").

Definition request_text (m : HttpMethod) (path : list Z) (query frag : option (list Z))
    (minor : bool) (hs : list line) : list Z :=
  (HttpMethodToString m ++ [32]) ++ uri_text path query frag ++ (version_text minor ++ crlf)
  ++ concat (map line_text hs) ++ crlf.

(** A request the grammar covers: its texts are over the characters above, and the method is
    one of the table's, all of which but "M-SEARCH" are letters. *)
Definition request_ok (m : HttpMethod) (path : list Z) (query frag : option (list Z))
    (hs : list line) : bool :=
  negb (bool_decide (m = INVALID_METHOD)) && negb (bool_decide (m = MSEARCH))
  && is_path path && from_option (pct_text is_query_char) true query
  && from_option (pct_text is_query_char) true frag && forallb is_line hs.

(** The request the parser builds from them. *)
Definition opt_set (f : list Z -> HttpRequest -> HttpRequest) (o : option (list Z)) :=
  match o with None => id | Some t => f t end.

Definition request_of (m : HttpMethod) (path : list Z) (query frag : option (list Z))
    (minor : bool) (hs : list line) (r : HttpRequest) : HttpRequest :=
  foldl (fun r h => setHeader (l_name h) (l_value h) r)
    (setVersion (if minor then 17 else 16)
       (opt_set setFragment frag (opt_set setQuery query (setPath path (setMethod m r))))) hs.

(** ** Crossing the automaton *)

(** Follow transitions without actions. *)
Fixpoint silent (q : Z) (l : list Z) : option Z :=
  match l with
  | [] => Some q
  | b :: l' =>
      match step q with
      | Some f =>
          let q' := dest (f false (s8 b)) in
          if goesb q b [] q' && negb (q' =? 0) then silent q' l' else None
      | None => None
      end
  end.

(** The name of a method takes the automaton from the start to the character after it. *)
Definition method_crosses (m : HttpMethod) : bool :=
  match HttpMethodToString m with
  | [] => false
  | b :: t => goesb 1 b [a_mark] 2
      && match silent 2 t with Some q => goesb q 32 [a_request_method] 3 | None => false end
  end.

Lemma slice_mid (pre t rest : list Z) :
  slice (pre ++ t ++ rest) (length pre) (length t) = t.
Proof. unfold slice. by rewrite drop_app_length, take_app_length. Qed.

Section Cross.
Context (buf : list Z).
Hypothesis Hmax : Z.of_nat (length buf) < max_len.
Notation pe := (Z.of_nat (length buf)).
Notation run := (run on_request_element on_request_http_field buf pe).
Notation do_actions := (do_actions on_request_element on_request_http_field buf pe).
Implicit Types (r : http_parser) (d : parsed).

Lemma run_silent_path p q l q' rest s :
  silent q l = Some q' -> run p q (l ++ rest) s = run (p + Z.of_nat (length l)) q' rest s.
Proof.
  revert p q. induction l as [|b l IH]; intros p q H; simpl in H.
  - simplify_eq. by rewrite Z.add_0_r.
  - destruct (step q) as [f|]; [|done].
    destruct (goesb q b [] (dest (f false (s8 b))) && _) eqn:E; [|done].
    apply andb_true_iff in E as [E1 E2]. simpl app.
    rewrite (run_silent _ _ _ _ _ _ _ _ _ _ E1) by (by intros E; rewrite E in E2).
    rewrite (IH _ _ H). f_equal. simpl length. lia.
Qed.

(** Percent-encoded text around a state [q] that loops on [ok]: '%' leads to [q1], the
    digits to [q2] and back. *)
Definition pct_loop (ok : Z -> bool) (q q1 q2 : Z) : bool :=
  goesb q 37 [] q1
  && forallb (fun b => implb (ok b && negb (b =? 37)) (goesb q b [] q)
       && implb (is_xdigit b) (goesb q1 b [] q2 && goesb q2 b [] q)) bytes
  && negb (q =? 0) && negb (q1 =? 0) && negb (q2 =? 0).

Lemma run_pct ok q q1 q2 l rest p s :
  pct_loop ok q q1 q2 = true -> Forall is_byte l -> pct_text ok l = true ->
  run p q (l ++ rest) s = run (p + Z.of_nat (length l)) q rest s.
Proof.
  unfold pct_loop. rewrite !andb_true_iff, !negb_true_iff, !Z.eqb_neq.
  intros [[[[Hp Hall] Hq] Hq1] Hq2] Hby. revert p.
  rewrite forallb_forall in Hall.
  assert (forall b, is_byte b -> In b bytes) as Hin.
  { intros b Hb. unfold bytes. apply in_map_iff. exists (Z.to_nat b). unfold is_byte in Hb.
    split; [lia|]. apply in_seq. lia. }
  revert Hby. induction l as [l IH] using (induction_ltof1 _ (@length Z)). unfold ltof in IH.
  intros Hby p Ht. destruct l as [|b l]; [by rewrite Z.add_0_r|].
  apply Forall_cons_1 in Hby as [Hb Hby]. simpl in Ht.
  pose proof (Hall b (Hin b Hb)) as [H1 _]%andb_true_iff.
  destruct (Z.eqb_spec b 37) as [->|Hne].
  - destruct l as [|x [|y l]]; [done..|]. rewrite !andb_true_iff in Ht.
    destruct Ht as [[Hx Hy] Ht].
    apply Forall_cons_1 in Hby as [Hbx Hby]. apply Forall_cons_1 in Hby as [Hby' Hby].
    pose proof (Hall x (Hin x Hbx)) as [_ H2]%andb_true_iff. rewrite Hx in H2.
    pose proof (Hall y (Hin y Hby')) as [_ H3]%andb_true_iff. rewrite Hy in H3.
    simpl in H2, H3. apply andb_true_iff in H2 as [H2 _], H3 as [_ H3].
    simpl app. do 3 (erewrite run_silent by done). rewrite IH; [|simpl; lia|done|done].
    f_equal. simpl length. lia.
  - apply andb_true_iff in Ht as [Hok Ht]. rewrite Hok in H1.
    assert (goesb q b [] q = true) as Hg by exact H1.
    simpl app. rewrite (run_silent _ _ _ _ _ _ _ _ _ _ Hg) by done.
    rewrite IH; [|simpl; lia|done|done]. f_equal. simpl length. lia.
Qed.

(** *** Callbacks on the text between two positions *)

Lemma element_call cb at_ p r d d' :
  on_request_element cb buf (at_ r) (LEN (at_ r) p) d = Ret tt d' ->
  element on_request_element cb buf at_ p (r, d) = Ret tt (r, d').
Proof. intros H. unfold element, reg, gets, bind, call; simpl. by rewrite H. Qed.

(** A block of one or two callbacks. *)
Lemma do_one_element a cb at_ p r d d' :
  do_action on_request_element on_request_http_field buf pe p a
    = (element on_request_element cb buf at_ p ;; ret false) ->
  element on_request_element cb buf at_ p (r, d) = Ret tt (r, d') ->
  do_actions p [a] (r, d) = Ret false (r, d').
Proof. intros Ha He. cbn [HttpParser.do_actions]. rewrite Ha. unfold bind. by rewrite He. Qed.

Lemma element_text cb f (pre t rest : list Z) at_ r d p :
  buf = pre ++ t ++ rest -> at_ r = Z.of_nat (length pre) ->
  p = Z.of_nat (length pre) + Z.of_nat (length t) ->
  (on_request_element cb = fun buf a len =>
     let! v := std_string buf a len in on_data (f v)) ->
  element on_request_element cb buf at_ p (r, d) = Ret tt (r, mkParsed (f t (p_data d)) (p_error d)).
Proof using Hmax.
  intros Hbuf Hat Hp Hcb.
  assert (length buf = length pre + (length t + length rest))%nat as Hl
    by (rewrite Hbuf, !length_app; done).
  apply element_call. rewrite Hcb, Hat, LEN_sub by (unfold max_len in *; lia).
  replace (p - Z.of_nat (length pre)) with (Z.of_nat (length t)) by lia.
  erewrite bind_Ret by (apply std_string_ok; lia).
  rewrite !Nat2Z.id, Hbuf, slice_mid. done.
Qed.

Lemma element_uri at_ r d p :
  element on_request_element cb_request_uri buf at_ p (r, d) = Ret tt (r, d).
Proof. done. Qed.

(** One transition with actions that stay in the machine. *)
Lemma run_acts p q b rest l q' s s' :
  goesb q b l q' = true -> q' <> 0 -> do_actions p l s = Ret false s' ->
  run p q (b :: rest) s = run (p + 1) q' rest s'.
Proof.
  intros Hg Hq Hd. rewrite (run_goes _ _ _ _ _ _ _ _ _ _ _ Hg).
  erewrite bind_Ret by exact Hd. destruct (Z.eqb_spec q' 0); done.
Qed.

(** *** The request line *)

Lemma run_method m rest r d : m <> INVALID_METHOD -> m <> MSEARCH ->
  buf = HttpMethodToString m ++ [32] ++ rest ->
  run 0 1 buf (r, d)
  = run (Z.of_nat (length (HttpMethodToString m ++ [32]))) 3 rest
      (set_mark 0 r, mkParsed (setMethod m (p_data d)) (p_error d)).
Proof using Hmax.
  intros Hm1 Hm2 Hbuf.
  assert (exists b t q, HttpMethodToString m = b :: t /\ goesb 1 b [a_mark] 2 = true
    /\ silent 2 t = Some q /\ goesb q 32 [a_request_method] 3 = true) as (b & t & q & Ht & H1 & H2 & H3).
  { assert (method_crosses m = true) as Hx
      by (destruct m; first [vm_compute; reflexivity | by destruct Hm1 | by destruct Hm2]).
    unfold method_crosses in Hx. destruct (HttpMethodToString m) as [|b t]; [done|].
    destruct (silent 2 t) as [q|] eqn:Eq; [|by rewrite andb_false_r in Hx].
    exists b, t, q. rewrite !andb_true_iff in Hx. naive_solver. }
  pose proof (HttpMethod_chars m ([32] ++ rest) Hm1) as Hc. rewrite <- Hbuf in Hc.
  replace (Z.of_nat (length (HttpMethodToString m ++ [32])))
    with (0 + 1 + Z.of_nat (length t) + 1) by (rewrite Ht, length_app; simpl; lia).
  rewrite Hbuf at 3. rewrite Ht. simpl app.
  erewrite run_acts by (done || reflexivity).
  rewrite (run_silent_path _ _ _ _ _ _ H2).
  erewrite run_acts; [reflexivity|exact H3|done|].
  eapply do_one_element; [done|]. apply element_call. simpl. unfold on_request_method.
  change (drop (Z.to_nat 0) buf) with buf. rewrite Hc.
  by destruct (decide (m = INVALID_METHOD)).
Qed.

(** Text entered from a state [q0] whose first transition has the actions [l0]. *)
Lemma run_text_head (ok hd : Z -> bool) q0 l0 q q1 q2 t rest p s s' :
  pct_loop ok q q1 q2 = true ->
  goesb q0 37 l0 q1
    && forallb (fun b => implb (hd b && negb (b =? 37)) (goesb q0 b l0 q)) bytes = true ->
  do_actions p l0 s = Ret false s' ->
  Forall is_byte t -> match t with [] => False | b :: _ => b <> 37 -> hd b = true end ->
  pct_text ok t = true ->
  run p q0 (t ++ rest) s = run (p + Z.of_nat (length t)) q rest s'.
Proof.
  intros Hloop [H37 Hall]%andb_true_iff Hd Hby Hne Ht.
  pose proof Hloop as Hl. unfold pct_loop in Hl.
  rewrite !andb_true_iff, !negb_true_iff, !Z.eqb_neq in Hl.
  destruct Hl as [[[[Hp Hall'] Hq] Hq1] Hq2].
  destruct t as [|b t]; [done|]. apply Forall_cons_1 in Hby as [Hb Hby]. simpl in Ht.
  destruct (Z.eqb_spec b 37) as [->|Hn].
  - destruct t as [|x [|y t]]; [done..|]. rewrite !andb_true_iff in Ht.
    destruct Ht as [[Hx Hy] Ht].
    apply Forall_cons_1 in Hby as [Hbx Hby]. apply Forall_cons_1 in Hby as [Hby' Hby].
    pose proof (bytes_all _ Hall' x Hbx) as [_ H2]%andb_true_iff. rewrite Hx in H2.
    pose proof (bytes_all _ Hall' y Hby') as [_ H3]%andb_true_iff. rewrite Hy in H3.
    simpl in H2, H3. apply andb_true_iff in H2 as [H2 _], H3 as [_ H3].
    simpl app. rewrite (run_acts _ _ _ _ _ _ _ _ H37) by done.
    do 2 (erewrite run_silent by done). rewrite (run_pct ok q q1 q2) by done.
    f_equal. simpl length. lia.
  - apply andb_true_iff in Ht as [Hok Ht]. specialize (Hne Hn).
    pose proof (bytes_all _ Hall b Hb) as H1. apply Z.eqb_neq in Hn. simpl in H1.
    rewrite Hne, Hn in H1. simpl app.
    rewrite (run_acts _ _ _ _ _ _ _ _ H1) by done.
    rewrite (run_pct ok q q1 q2) by done. f_equal. simpl length. lia.
Qed.

(** The path, up to the character that ends it. *)
Lemma run_path path rest p r d :
  is_path path = true -> Forall is_byte path ->
  exists q, (q = 26 \/ q = 33)
  /\ run p 3 (path ++ rest) (r, d) = run (p + Z.of_nat (length path)) q rest (set_mark p r, d).
Proof.
  intros Hp Hby. destruct path as [|b t]; [done|]. simpl in Hp.
  assert (b = 47) as ->.
  { destruct b as [|b|]; [done| |done]. by do 6 (destruct b; try done). }
  apply andb_true_iff in Hp as [Ht Hh]. apply Forall_cons_1 in Hby as [_ Hby].
  simpl app. rewrite (run_acts _ 3 47 _ [a_mark] 33 _ (set_mark p r, d)) by done.
  destruct t as [|c t]; [exists 33; split; [by right|done]|].
  exists 26. split; [by left|].
  assert (c <> 47) as Hc by (intros ->; done).
  rewrite (run_text_head is_path_char (fun b => is_path_char b && negb (b =? 47)) 33 [] 26 27 28
    (c :: t) rest (p + 1) _ (set_mark p r, d)); [|by vm_compute|by vm_compute|done|done| |done].
  - f_equal. simpl length. lia.
  - intros H37. simpl in Ht. destruct (Z.eqb_spec c 37); [done|].
    apply andb_true_iff in Ht as [-> _]. by apply Z.eqb_neq in Hc as ->.
Qed.

Lemma do_element_uri a cb at_ p r d d' :
  do_action on_request_element on_request_http_field buf pe p a
    = (element on_request_element cb buf at_ p ;; ret false) ->
  element on_request_element cb buf at_ p (r, d) = Ret tt (r, d') ->
  do_actions p [a; a_request_uri] (r, d) = Ret false (r, d').
Proof. intros Ha He. cbn [HttpParser.do_actions]. rewrite Ha. unfold bind. by rewrite He. Qed.

(** The registers that decide how the request ends. *)
Definition flags r r' : Prop := xml_sent r' = xml_sent r /\ json_sent r' = json_sent r.

Definition upd (f : HttpRequest -> HttpRequest) (d : parsed) : parsed :=
  mkParsed (f (p_data d)) (p_error d).

(** The character that ends a query: a space, or '#' and the fragment's state. *)
Definition uri_sep (sep q : Z) : Prop := (sep = 32 /\ q = 4) \/ (sep = 35 /\ q = 20).

Lemma run_query p pre t sep q rest r d :
  buf = pre ++ t ++ sep :: rest -> p = Z.of_nat (length pre) -> uri_sep sep q ->
  Forall is_byte t -> pct_text is_query_char t = true ->
  exists r', flags r r'
  /\ run p 29 (t ++ sep :: rest) (r, d)
     = run (p + Z.of_nat (length t) + 1) q rest (r', upd (setQuery t) d).
Proof using Hmax.
  intros Hbuf -> Hsep Hby Ht.
  exists (set_query_start (Z.of_nat (length pre)) r). split; [done|].
  assert (element on_request_element cb_query_string buf query_start
    (Z.of_nat (length pre) + Z.of_nat (length t)) (set_query_start (Z.of_nat (length pre)) r, d)
    = Ret tt (set_query_start (Z.of_nat (length pre)) r, upd (setQuery t) d)) as He
    by (by eapply (element_text _ setQuery)).
  destruct t as [|c t].
  - rewrite Z.add_0_r in *. simpl app.
    assert (goesb 29 sep [a_start_query; a_query_string; a_request_uri] q = true) as Hg
      by (destruct Hsep as [[-> ->]|[-> ->]]; by vm_compute).
    eapply run_acts; [exact Hg|by destruct Hsep as [[_ ->]|[_ ->]]|].
    by eapply (do_element_uri a_query_string).
  - rewrite (run_text_head is_query_char is_query_char 29 [a_start_query] 30 31 32 _ _ _ _
      (set_query_start (Z.of_nat (length pre)) r, d));
      [|by vm_compute|by vm_compute|done|done| |done].
    + assert (goesb 30 sep [a_query_string; a_request_uri] q = true) as Hg
        by (destruct Hsep as [[-> ->]|[-> ->]]; by vm_compute).
      eapply run_acts; [exact Hg|by destruct Hsep as [[_ ->]|[_ ->]]|].
      by eapply (do_element_uri a_query_string).
    + intros Hc. simpl in Ht. apply Z.eqb_neq in Hc. rewrite Hc in Ht.
      by apply andb_true_iff in Ht as [-> _].
Qed.

Lemma run_fragment p pre t rest r d :
  buf = pre ++ t ++ 32 :: rest -> p = Z.of_nat (length pre) -> Forall is_byte t -> pct_text is_query_char t = true ->
  exists r', flags r r'
  /\ run p 20 (t ++ 32 :: rest) (r, d)
     = run (p + Z.of_nat (length t) + 1) 4 rest (r', upd (setFragment t) d).
Proof using Hmax.
  intros Hbuf -> Hby Ht.
  exists (set_mark (Z.of_nat (length pre)) r). split; [done|].
  assert (element on_request_element cb_fragment buf mark
    (Z.of_nat (length pre) + Z.of_nat (length t)) (set_mark (Z.of_nat (length pre)) r, d)
    = Ret tt (set_mark (Z.of_nat (length pre)) r, upd (setFragment t) d)) as He
    by (by eapply (element_text _ setFragment)).
  destruct t as [|c t].
  - rewrite Z.add_0_r in *. simpl app.
    eapply (run_acts _ 20 32 _ [a_mark; a_fragment]); [by vm_compute|done|].
    by eapply (do_one_element a_fragment).
  - rewrite (run_text_head is_query_char is_query_char 20 [a_mark] 21 22 23 _ _ _ _
      (set_mark (Z.of_nat (length pre)) r, d));
      [|by vm_compute|by vm_compute|done|done| |done].
    + eapply (run_acts _ 21 32 _ [a_fragment]); [by vm_compute|done|].
      by eapply (do_one_element a_fragment).
    + intros Hc. simpl in Ht. apply Z.eqb_neq in Hc. rewrite Hc in Ht.
      by apply andb_true_iff in Ht as [-> _].
Qed.

(** The path with the character that ends it. *)
Lemma run_path_end p pre path sep l q rest r d :
  buf = pre ++ path ++ sep :: rest -> p = Z.of_nat (length pre) -> is_path path = true -> Forall is_byte path ->
  (sep = 63 /\ l = [a_request_path] /\ q = 29
   \/ l = [a_request_path; a_request_uri] /\ uri_sep sep q) ->
  exists r', flags r r'
  /\ run p 3 (path ++ sep :: rest) (r, d)
     = run (p + Z.of_nat (length path) + 1) q rest (r', upd (setPath path) d).
Proof using Hmax.
  intros Hbuf -> Hpath Hby Hsep.
  exists (set_mark (Z.of_nat (length pre)) r). split; [done|].
  assert (element on_request_element cb_request_path buf mark
    (Z.of_nat (length pre) + Z.of_nat (length path)) (set_mark (Z.of_nat (length pre)) r, d)
    = Ret tt (set_mark (Z.of_nat (length pre)) r, upd (setPath path) d)) as He
    by (by eapply (element_text _ setPath)).
  destruct (run_path path (sep :: rest) (Z.of_nat (length pre)) r d Hpath Hby) as (q0 & Hq0 & ->).
  assert (goesb q0 sep l q = true) as Hg.
  { destruct Hq0 as [-> | ->], Hsep as [(-> & -> & ->)|(-> & [[-> ->]|[-> ->]])]; by vm_compute. }
  eapply run_acts; [exact Hg| |].
  - by destruct Hsep as [(-> & -> & ->)|(-> & [[-> ->]|[-> ->]])].
  - destruct Hsep as [(_ & -> & _)|(-> & _)].
    + by eapply (do_one_element a_request_path).
    + by eapply (do_element_uri a_request_path).
Qed.

Lemma run_uri p pre path query frag rest r d :
  buf = pre ++ uri_text path query frag ++ rest -> p = Z.of_nat (length pre) ->
  is_path path = true -> Forall is_byte path ->
  from_option (pct_text is_query_char) true query = true ->
  from_option (Forall is_byte) True query ->
  from_option (pct_text is_query_char) true frag = true ->
  from_option (Forall is_byte) True frag ->
  exists r', flags r r'
  /\ run p 3 (uri_text path query frag ++ rest) (r, d)
     = run (p + Z.of_nat (length (uri_text path query frag))) 4 rest
         (r', upd (fun x => opt_set setFragment frag (opt_set setQuery query (setPath path x))) d).
Proof using Hmax.
  unfold uri_text. intros Hbuf Hp Hpath Hbp Hq Hbq Hf Hbf.
  assert (forall a b c : list Z, length (a ++ b ++ c) = length a + length b + length c)%nat as Hl.
  { intros. rewrite !length_app. lia. }
  destruct query as [t|], frag as [f|]; cbn [opt_text opt_set from_option] in *;
    repeat (rewrite <- ?app_assoc in *; cbn [app] in * ).
  - destruct (run_path_end p pre path 63 _ 29 (t ++ 35 :: f ++ 32 :: rest) r d Hbuf Hp Hpath Hbp
      ltac:(by left)) as (r1 & Hf1 & ->).
    destruct (run_query (p + Z.of_nat (length path) + 1) (pre ++ path ++ [63]) t 35 20
      (f ++ 32 :: rest) r1 (upd (setPath path) d)) as (r2 & Hf2 & ->);
      [by rewrite Hbuf, <- !app_assoc|rewrite Hl; simpl; lia|by right|done..|].
    destruct (run_fragment (p + Z.of_nat (length path) + 1 + Z.of_nat (length t) + 1)
      (pre ++ (path ++ [63]) ++ (t ++ [35])) f rest r2 (upd (setQuery t) (upd (setPath path) d)))
      as (r3 & Hf3 & ->);
      [by rewrite Hbuf, <- !app_assoc|rewrite Hl, !length_app; simpl; lia|done..|].
    exists r3. split; [unfold flags in *; intuition congruence|].
    unfold upd; simpl. f_equal. repeat (rewrite ?length_app; cbn [length]). lia.
  - destruct (run_path_end p pre path 63 _ 29 (t ++ 32 :: rest) r d Hbuf Hp Hpath Hbp
      ltac:(by left)) as (r1 & Hf1 & ->).
    destruct (run_query (p + Z.of_nat (length path) + 1) (pre ++ path ++ [63]) t 32 4 rest
      r1 (upd (setPath path) d)) as (r2 & Hf2 & ->);
      [by rewrite Hbuf, <- !app_assoc|rewrite Hl; simpl; lia|by left|done..|].
    exists r2. split; [unfold flags in *; intuition congruence|].
    unfold upd; simpl. f_equal. repeat (rewrite ?length_app; cbn [length]). lia.
  - destruct (run_path_end p pre path 35 _ 20 (f ++ 32 :: rest) r d Hbuf Hp Hpath Hbp
      ltac:(right; split; [done|by right])) as (r1 & Hf1 & ->).
    destruct (run_fragment (p + Z.of_nat (length path) + 1) (pre ++ path ++ [35]) f rest
      r1 (upd (setPath path) d)) as (r2 & Hf2 & ->);
      [by rewrite Hbuf, <- !app_assoc|rewrite Hl; simpl; lia|done..|].
    exists r2. split; [unfold flags in *; intuition congruence|].
    unfold upd; simpl. f_equal. repeat (rewrite ?length_app; cbn [length]). lia.
  - destruct (run_path_end p pre path 32 _ 4 rest r d Hbuf Hp Hpath Hbp
      ltac:(right; split; [done|by left])) as (r1 & Hf1 & ->).
    exists r1. split; [done|]. unfold upd; simpl. f_equal. rewrite !length_app. simpl. lia.
Qed.

(** *** The version *)

Lemma on_version_text p pre minor rest d :
  buf = pre ++ version_text minor ++ rest -> p = Z.of_nat (length pre) ->
  on_request_version buf p 8 d = Ret tt (upd (setVersion (if minor then 17 else 16)) d).
Proof.
  intros Hbuf ->. unfold on_request_version. rewrite Nat2Z.id, Hbuf, drop_app_length.
  change (Z.to_nat 8) with 8%nat. destruct minor; unfold version_text.
  - by rewrite (strncmp_eq_app (str "HTTP/1.1") (str "HTTP/1.1") 8 rest true) by (by vm_compute).
  - rewrite (strncmp_eq_app (str "HTTP/1.1") (str "HTTP/1.0") 8 rest false) by (by vm_compute).
    by rewrite (strncmp_eq_app (str "HTTP/1.0") (str "HTTP/1.0") 8 rest true) by (by vm_compute).
Qed.

Lemma run_version p pre minor rest r d :
  buf = pre ++ (version_text minor ++ crlf) ++ rest -> p = Z.of_nat (length pre) ->
  exists r', flags r r'
  /\ run p 4 ((version_text minor ++ crlf) ++ rest) (r, d)
     = run (p + 10) 13 rest (r', upd (setVersion (if minor then 17 else 16)) d).
Proof using Hmax.
  intros Hbuf Hp. exists (set_mark p r). split; [done|].
  assert (version_text minor = 72 :: tail (version_text minor)) as Ev by (by destruct minor).
  rewrite <- !app_assoc. rewrite Ev at 1. simpl app at 1.
  rewrite (run_acts p 4 72 _ [a_mark] 5 _ (set_mark p r, d)) by (done || by vm_compute).
  rewrite (run_silent_path _ 5 (tail (version_text minor)) 12) by (by destruct minor; vm_compute).
  replace (p + 1 + Z.of_nat (length (tail (version_text minor)))) with (p + 8)
    by (destruct minor; simpl; lia).
  simpl app.
  rewrite (run_acts (p + 8) 12 13 _ [a_http_version] 17 _
    (set_mark p r, upd (setVersion (if minor then 17 else 16)) d)); [|by vm_compute|done|].
  - rewrite (run_silent _ _ _ _ _ 17 10 _ 13) by (done || by vm_compute).
    f_equal. lia.
  - eapply (do_one_element a_http_version); [done|]. apply element_call. simpl.
    assert (p + 8 < max_len).
    { rewrite Hbuf, !length_app in Hmax. destruct minor; simpl in Hmax; lia. }
    rewrite LEN_sub by (unfold max_len in *; lia). replace (p + 8 - p) with 8 by lia.
    apply (on_version_text _ pre minor (crlf ++ rest)); [by rewrite Hbuf, <- app_assoc|done].
Qed.

(** *** Header lines *)

Lemma forallb_bytes (P Q : Z -> bool) l :
  forallb (fun b => implb (P b) (Q b)) bytes = true -> Forall is_byte l ->
  forallb P l = true -> forallb Q l = true.
Proof.
  intros Hall Hby. induction Hby as [|b l Hb _ IH]; simpl; [done|].
  rewrite !andb_true_iff. intros [H1 H2]. split; [|auto].
  pose proof (bytes_all _ Hall b Hb) as H. simpl in H. by rewrite H1 in H.
Qed.

Lemma run_name p t rest r d :
  is_name t = true -> Forall is_byte t ->
  run p 13 (t ++ rest) (r, d) = run (p + Z.of_nat (length t)) 14 rest (set_field_start p r, d).
Proof.
  intros Ht Hby. destruct t as [|b t]; [done|]. unfold is_name in Ht.
  apply Forall_cons_1 in Hby as [Hb Hby]. simpl in Ht. apply andb_true_iff in Ht as [H1 H2].
  assert (forallb (fun b => implb (is_token b)
    (goesb 13 b [a_start_field] 14 && goesb 14 b [] 14)) bytes = true) as Hall by (by vm_compute).
  pose proof (bytes_all _ Hall b Hb) as H. simpl in H. rewrite H1 in H.
  apply andb_true_iff in H as [H _]. simpl app.
  rewrite (run_acts _ _ _ _ _ _ _ (set_field_start p r, d) H) by done.
  rewrite run_loop; [f_equal; simpl length; lia| |done].
  eapply forallb_bytes; [|done|exact H2]. by vm_compute.
Qed.

(** White space after the colon only moves the mark. *)
Lemma run_lws p t rest r d :
  is_lws t = true ->
  exists r', (flags r r' /\ field_start r' = field_start r /\ field_len r' = field_len r)
  /\ run p 15 (t ++ rest) (r, d) = run (p + Z.of_nat (length t)) 15 rest (r', d).
Proof.
  revert p r. induction t as [|b t IH]; intros p r Ht.
  - exists r. split; [done|]. by rewrite Z.add_0_r.
  - simpl in Ht. apply andb_true_iff in Ht as [Hb Ht].
    assert (goesb 15 b [a_mark] 15 = true) as Hg.
    { apply orb_true_iff in Hb. rewrite !Z.eqb_eq in Hb. destruct Hb as [-> | ->]; by vm_compute. }
    destruct (IH (p + 1) (set_mark p r) Ht) as (r' & Hr' & E). exists r'. split; [done|].
    simpl app. rewrite (run_acts _ _ _ _ _ _ _ (set_mark p r, d) Hg) by done. rewrite E.
    f_equal. simpl length. lia.
Qed.

(** The field callback on a name and a value in place. *)
Lemma do_field p pre k w v rest r d :
  buf = pre ++ k ++ [58] ++ w ++ v ++ rest -> k <> [] ->
  field_start r = Z.of_nat (length pre) -> field_len r = Z.of_nat (length k) ->
  mark r = Z.of_nat (length pre + length k + 1 + length w) ->
  p = mark r + Z.of_nat (length v) ->
  do_action on_request_element on_request_http_field buf pe p a_http_field (r, d)
  = Ret false (r, upd (setHeader k v) d).
Proof using Hmax.
  intros Hbuf Hk Hfs Hfl Hm Hp.
  assert (length buf = length pre + length k + 1 + length w + length v + length rest)%nat as Hl
    by (rewrite Hbuf, !length_app; simpl; lia).
  assert (length k <> 0)%nat by (by destruct k).
  simpl. unfold reg, gets, bind, call; simpl.
  rewrite LEN_sub by (unfold max_len in *; lia).
  rewrite on_field_run by (unfold max_len in *; lia). rewrite Hfs, Hfl, Hm.
  destruct (Z.eqb_spec (Z.of_nat (length k)) 0); [lia|].
  replace (p - _) with (Z.of_nat (length v)) by lia. rewrite !Nat2Z.id.
  rewrite Hbuf at 1. rewrite slice_mid. rewrite Hbuf.
  replace (pre ++ k ++ [58] ++ w ++ v ++ rest) with ((pre ++ k ++ [58] ++ w) ++ v ++ rest)
    by (by rewrite <- !app_assoc).
  replace (length pre + length k + 1 + length w)%nat with (length (pre ++ k ++ [58] ++ w))
    by (rewrite !length_app; simpl; lia).
  by rewrite slice_mid.
Qed.

Lemma run_value p v rest r d :
  is_value v = true -> Forall is_byte v ->
  run p 15 (v ++ 13 :: rest) (r, d)
  = (let! out := do_actions (p + Z.of_nat (length v)) [a_http_field] in
     if (out : bool) then ret (p + Z.of_nat (length v) + 1, 17)
     else run (p + Z.of_nat (length v) + 1) 17 rest) (set_mark p r, d).
Proof.
  intros Hv Hby. destruct v as [|b t].
  - rewrite Z.add_0_r. simpl app.
    by rewrite (run_goes _ _ _ _ _ 15 13 _ [a_mark; a_http_field] 17) by (by vm_compute).
  - simpl in Hv. apply andb_true_iff in Hv as [H1 H2]. apply Forall_cons_1 in Hby as [Hb Hby].
    assert (forallb (fun b => implb (is_value_start b) (goesb 15 b [a_mark] 16)) bytes = true)
      as Hall by (by vm_compute).
    pose proof (bytes_all _ Hall b Hb) as H. simpl in H. rewrite H1 in H. simpl app.
    rewrite (run_acts _ _ _ _ _ _ _ (set_mark p r, d) H) by done.
    rewrite run_loop; [| |done].
    + rewrite (run_goes _ _ _ _ _ 16 13 _ [a_http_field] 17) by (by vm_compute).
      simpl length. by replace (p + 1 + Z.of_nat (length t)) with (p + Z.of_nat (S (length t))) by lia.
    + eapply forallb_bytes; [|done|exact H2]. by vm_compute.
Qed.

Lemma run_line p pre h rest r d :
  buf = pre ++ line_text h ++ rest -> p = Z.of_nat (length pre) ->
  is_line h = true -> Forall is_byte (line_text h) ->
  exists r', flags r r'
  /\ run p 13 (line_text h ++ rest) (r, d)
     = run (p + Z.of_nat (length (line_text h))) 13 rest
         (r', upd (setHeader (l_name h) (l_value h)) d).
Proof using Hmax.
  destruct h as [k w v]. unfold line_text, is_line; simpl l_name; simpl l_lws; simpl l_value.
  intros Hbuf Hp Hok Hby. rewrite !andb_true_iff in Hok. destruct Hok as [[Hk Hw] Hv].
  rewrite !Forall_app in Hby. destruct Hby as (Hbk & _ & _ & Hbv & _).
  rewrite <- !app_assoc in *. rewrite run_name by done.
  change ([58] ++ w ++ v ++ crlf ++ rest) with (58 :: w ++ v ++ crlf ++ rest).
  assert (length buf = length pre + length k + 1 + length w + length v + 2 + length rest)%nat as Hl
    by (rewrite Hbuf, !length_app; simpl; lia).
  set (r1 := set_field_len (Z.of_nat (length k)) (set_field_start p r)).
  rewrite (run_acts _ 14 58 _ [a_write_field] 15 _ (r1, d)); [|by vm_compute|done|].
  2: { simpl. unfold bind, regs, modify, ret; simpl. unfold r1. do 2 f_equal.
       rewrite LEN_sub by (unfold max_len in *; lia). f_equal. lia. }
  destruct (run_lws (p + Z.of_nat (length k) + 1) w (v ++ crlf ++ rest) r1 d Hw)
    as (r2 & (Hf & Hfs & Hfl) & ->).
  set (p3 := p + Z.of_nat (length k) + 1 + Z.of_nat (length w)).
  change (crlf ++ rest) with (13 :: 10 :: rest). rewrite run_value by done.
  exists (set_mark p3 r2). split; [done|].
  assert (do_actions (p3 + Z.of_nat (length v)) [a_http_field] (set_mark p3 r2, d)
    = Ret false (set_mark p3 r2, upd (setHeader k v) d)) as Hdf.
  { cbn [HttpParser.do_actions]. erewrite bind_Ret;
      [|apply (do_field _ pre k w v (crlf ++ rest)); simpl; try done; unfold p3; try lia;
        [by destruct k|by rewrite Hfs]]. done. }
  rewrite (bind_Ret _ _ _ _ _ Hdf).
  cbv iota. rewrite (run_silent _ _ _ _ _ 17 10 _ 13) by (done || by vm_compute).
  f_equal. unfold p3. repeat (rewrite ?length_app; cbn [length]). simpl. lia.
Qed.

Lemma run_lines p pre hs rest r d :
  buf = pre ++ concat (map line_text hs) ++ rest -> p = Z.of_nat (length pre) ->
  forallb is_line hs = true -> Forall is_byte (concat (map line_text hs)) ->
  exists r', flags r r'
  /\ run p 13 (concat (map line_text hs) ++ rest) (r, d)
     = run (p + Z.of_nat (length (concat (map line_text hs)))) 13 rest
         (r', upd (fun x => foldl (fun x h => setHeader (l_name h) (l_value h) x) x hs) d).
Proof using Hmax.
  revert p pre r d. induction hs as [|h hs IH]; intros p pre r d Hbuf Hp Hok Hby; simpl in *.
  - exists r. split; [done|]. rewrite Z.add_0_r. by destruct d.
  - apply andb_true_iff in Hok as [Hh Hok]. apply Forall_app in Hby as [Hb1 Hb2].
    rewrite <- app_assoc in *.
    destruct (run_line p pre h (concat (map line_text hs) ++ rest) r d Hbuf Hp Hh Hb1)
      as (r1 & Hf1 & ->).
    destruct (IH (p + Z.of_nat (length (line_text h))) (pre ++ line_text h) r1
      (upd (setHeader (l_name h) (l_value h)) d)) as (r2 & Hf2 & ->);
      [by rewrite Hbuf, <- app_assoc|rewrite length_app; lia|done|done|].
    exists r2. split; [unfold flags in *; intuition congruence|].
    f_equal. rewrite length_app. lia.
Qed.

(** The empty line ends the request. *)
Lemma run_last p pre rest r d :
  buf = pre ++ crlf ++ rest -> p = Z.of_nat (length pre) ->
  xml_sent r = false -> json_sent r = false ->
  exists r', run p 13 (crlf ++ rest) (r, d) = Ret (p + 2, 348) (r', d) /\ body_start r' = p + 2.
Proof using Hmax.
  intros Hbuf Hp Hx Hj. simpl app.
  rewrite (run_acts _ 13 13 _ [a_start_field] 18 _ (set_field_start p r, d))
    by (done || by vm_compute).
  rewrite (run_goes _ _ _ _ _ 18 10 _ [a_done] 348) by (by vm_compute).
  eexists. split.
  - simpl. unfold get, bind, regs, modify, call; simpl. rewrite Hx, Hj; simpl.
    unfold on_request_header_done, ret; simpl. f_equal. f_equal. lia.
  - simpl. lia.
Qed.
End Cross.

(** ** Requests *)

Lemma run_request m path query frag minor hs rest r d :
  let text := request_text m path query frag minor hs in
  let buf := text ++ rest in
  request_ok m path query frag hs = true -> Forall is_byte buf ->
  Z.of_nat (length buf) < max_len -> xml_sent r = false -> json_sent r = false ->
  exists r', run on_request_element on_request_http_field buf (Z.of_nat (length buf)) 0 1 buf (r, d)
      = Ret (Z.of_nat (length text), 348) (r', upd (request_of m path query frag minor hs) d)
    /\ body_start r' = Z.of_nat (length text).
Proof.
  intros text buf Hok Hby Hmax Hx Hj. unfold request_ok in Hok.
  rewrite !andb_true_iff, !negb_true_iff, !bool_decide_eq_false in Hok.
  destruct Hok as [[[[[Hm1 Hm2] Hpath] Hq] Hf] Hhs].
  set (t0 := HttpMethodToString m ++ [32]). set (t1 := uri_text path query frag).
  set (t2 := version_text minor ++ crlf). set (t3 := concat (map line_text hs)).
  assert (buf = t0 ++ t1 ++ t2 ++ t3 ++ crlf ++ rest) as Hbuf.
  { unfold buf, text, request_text. fold t0 t1 t2 t3. by rewrite <- !app_assoc. }
  assert (Forall is_byte path /\ from_option (Forall is_byte) True query
    /\ from_option (Forall is_byte) True frag /\ Forall is_byte t3) as (Hb1 & Hb2 & Hb3 & Hb4).
  { rewrite Hbuf in Hby. unfold t1, uri_text in Hby. rewrite !Forall_app in Hby.
    destruct Hby as (_ & (? & Hbq & Hbf & _) & _ & ? & _).
    split; [done|]. split; [|split; [|done]].
    - destruct query; [|done]. by apply Forall_cons_1 in Hbq as [_ ?].
    - destruct frag; [|done]. by apply Forall_cons_1 in Hbf as [_ ?]. }
  rewrite (run_method buf Hmax m (t1 ++ t2 ++ t3 ++ crlf ++ rest)); [|done|done|by rewrite Hbuf; unfold t0; rewrite <- app_assoc].
  destruct (run_uri buf Hmax (Z.of_nat (length t0)) t0 path query frag (t2 ++ t3 ++ crlf ++ rest)
    (set_mark 0 r) (mkParsed (setMethod m (p_data d)) (p_error d))) as (r1 & Hf1 & E1); [done..|].
  fold t0 t1 in E1 |- *. rewrite E1.
  destruct (run_version buf Hmax (Z.of_nat (length t0) + Z.of_nat (length t1)) (t0 ++ t1) minor
    (t3 ++ crlf ++ rest) r1 (upd (fun x => opt_set setFragment frag (opt_set setQuery query
      (setPath path x))) (mkParsed (setMethod m (p_data d)) (p_error d)))) as (r2 & Hf2 & E2);
    [by rewrite Hbuf, <- app_assoc|rewrite length_app; lia|].
  fold t2 in E2. rewrite E2. clear E1 E2.
  assert (length t2 = 10)%nat as L2 by (unfold t2; by destruct minor).
  edestruct (run_lines buf Hmax (Z.of_nat (length t0) + Z.of_nat (length t1) + 10)
    (t0 ++ t1 ++ t2) hs (crlf ++ rest) r2) as (r3 & Hf3 & E3);
    [by rewrite Hbuf, <- !app_assoc|rewrite !length_app; lia|done|done|].
  fold t3 in E3. rewrite E3. clear E3.
  unfold flags in *; simpl in Hf1.
  edestruct (run_last buf Hmax (Z.of_nat (length t0) + Z.of_nat (length t1) + 10
    + Z.of_nat (length t3)) (t0 ++ t1 ++ t2 ++ t3) rest r3) as (r4 & E4 & Hbs);
    [by rewrite Hbuf, <- !app_assoc|rewrite !length_app; lia|intuition congruence..|].
  assert (Z.of_nat (length text) = Z.of_nat (length t0) + Z.of_nat (length t1) + 10
    + Z.of_nat (length t3) + 2) as Lt.
  { unfold text, request_text. fold t0 t1 t2 t3. rewrite !length_app. simpl. lia. }
  exists r4. rewrite E4, Lt. done.
Qed.

Lemma parse_request_ok m path query frag minor hs body memory :
  let text := request_text m path query frag minor hs in
  request_ok m path query frag hs = true -> Forall is_byte (text ++ body) ->
  Z.of_nat (length (text ++ body)) < max_len -> 0 <= query_start memory ->
  exists data s',
    execute (text ++ body) (Z.of_nat (length (text ++ body))) (new_HttpRequestParser memory)
      = Ret (Z.of_nat (length text), data) s'
    /\ isFinished s' = true /\ hasError s' = false
    /\ m_data s' = request_of m path query frag minor hs (new_HttpRequest 17 true)
    /\ take (length body) data = body.
Proof.
  intros text Hok Hby Hmax Hqs. set (buf := text ++ body) in *.
  assert (0 < length text)%nat as Ht.
  { unfold text, request_text. rewrite !length_app. simpl. lia. }
  assert (length buf = length text + length body)%nat as Hl by apply length_app.
  set (r := http_parser_init memory).
  destruct (run_request m path query frag minor hs body (reset_marks r)
    (mkParsed (new_HttpRequest 17 true) 0)) as (r' & Hrun & Hbs); [done..|].
  fold text buf in Hrun, Hbs.
  destruct (run_ok on_request_element on_request_http_field buf ltac:(done) buf 0 1 (reset_marks r)
    (mkParsed (new_HttpRequest 17 true) 0) Hby) as (p2 & q2 & r2 & d2 & Hrun2 & _ & Hs & Hw & _);
    [by apply (reset_marks_ok buf r); [lia|..]|lia|lia|done|lia|].
  rewrite Hrun in Hrun2. injection Hrun2 as <- <- <- <-.
  eexists _, _. split; [apply execute_machine|].
  { apply execute_run; [done|lia|done|exact Hrun|lia|done|done|lia]. }
  split; [done|]. split; [done|]. split; [done|].
  rewrite Nat2Z.id. replace (Z.to_nat _) with (length body) by lia.
  assert (slice buf (length text) (length body) = body) as ->.
  { unfold slice, buf. rewrite drop_app_length. apply firstn_all. }
  unfold splice. simpl. by rewrite take_app_length.
Qed.

(** C2: A printed request is parsed back. For every method of the table but "M-SEARCH" and
    every path, query, fragment and list of header lines over the characters of the grammar,
    a new parser that is given the request's text followed by any bytes consumes exactly
    the text, is finished without error, holds the method, path, query, fragment and version
    of the text and the headers set in the order of their lines, and leaves the bytes that
    follow at the front of the buffer. *)
Theorem parse_request_text m path query frag minor hs body memory :
  let text := request_text m path query frag minor hs in
  request_ok m path query frag hs = true -> Forall is_byte (text ++ body) ->
  Z.of_nat (length (text ++ body)) < max_len -> 0 <= query_start memory ->
  exists data s',
    execute (text ++ body) (Z.of_nat (length (text ++ body))) (new_HttpRequestParser memory)
      = Ret (Z.of_nat (length text), data) s'
    /\ isFinished s' = true /\ hasError s' = false
    /\ m_data s' = request_of m path query frag minor hs (new_HttpRequest 17 true)
    /\ take (length body) data = body.
Proof. apply parse_request_ok. Qed.

Lemma parse_request_text_witness :
  let hs := [mkLine (str "Host") [32] (str "sylar.top"); mkLine (str "content-length") [] (str "3")] in
  let buf := request_text GET (str "/a%20b/c") (Some (str "x=1&y")) None true hs ++ str "abc" in
  exists n data s',
    execute buf (Z.of_nat (length buf)) (new_HttpRequestParser no_memory) = Ret (n, data) s'
    /\ take 3 data = str "abc" /\ m_query (m_data s') = str "x=1&y".
Proof.
  intros hs buf.
  destruct (parse_request_text GET (str "/a%20b/c") (Some (str "x=1&y")) None true hs (str "abc")
    no_memory) as (data & s' & E & _ & _ & Hd & Hb).
  - by vm_compute.
  - apply (bool_decide_unpack _). vm_compute. exact I.
  - by vm_compute.
  - discriminate.
  - eexists _, data, s'. split; [exact E|]. split; [exact Hb|]. rewrite Hd. by vm_compute.
Defined.

(** ** What one sylar peer prints, the other parses *)

(** The header lines [HttpRequest::dump] prints. *)
Definition own_lines (headers : MapType) : list line :=
  concat (map (fun p : list Z * list Z =>
    match strcasecmp p.1 (str "connection") with Eq => [] | _ => [mkLine p.1 [] p.2] end) headers).

Definition dump_lines (r : HttpRequest) : list line :=
  mkLine (str "connection") [32] (if m_close r then str "close" else str "keep-alive")
  :: own_lines (m_headers r)
  ++ if bool_decide (m_body r = []) then []
     else [mkLine (str "content-length") [32] (decimal (Z.of_nat (length (m_body r))))].

Lemma own_lines_text headers :
  concat (map (header_line (str ":")) headers) = concat (map line_text (own_lines headers)).
Proof.
  induction headers as [|[k v] l IH]; simpl; [done|]. rewrite IH. unfold own_lines, header_line.
  simpl. destruct (strcasecmp k (str "connection")); simpl; [done|..];
    unfold line_text; simpl; by rewrite <- !app_assoc.
Qed.

Definition non_empty (l : list Z) : option (list Z) := if bool_decide (l = []) then None else Some l.

Lemma dump_text r :
  m_version r = 16 \/ m_version r = 17 ->
  HttpRequest_toString r
  = request_text (m_method r) (m_path r) (non_empty (m_query r))
      (if bool_decide (m_fragment r = []) then None else Some []) false (dump_lines r)
    ++ m_body r.
Proof.
  intros Hv. unfold HttpRequest_toString, HttpRequest_dump, request_text, uri_text, dump_lines,
    non_empty, dump_body.
  replace (decimal (u32 (Z.shiftr (m_version r) 4)) ) with (str "1")
    by (destruct Hv as [-> | ->]; by vm_compute).
  replace (decimal (u32 (Z.shiftr (m_version r) 7)) ) with (str "0")
    by (destruct Hv as [-> | ->]; by vm_compute).
  cbn [map concat]. rewrite map_app, concat_app, <- own_lines_text.
  destruct (bool_decide (m_query r = [])) eqn:Eq; [apply bool_decide_eq_true in Eq; rewrite Eq|];
  destruct (bool_decide (m_fragment r = [])) eqn:Ef;
  destruct (bool_decide (m_body r = [])) eqn:Eb;
    try (apply bool_decide_eq_true in Eb; rewrite Eb);
  cbn [opt_text]; rewrite <- !app_assoc; do 2 f_equal; cbn [app];
  rewrite <- ?app_assoc; cbn [app]; repeat f_equal; destruct (m_close r); unfold line_text; simpl;
  rewrite <- ?app_assoc; simpl; rewrite ?app_nil_r; try done.
Qed.

(** The value of a header after setting lines in order. *)
Definition last_value (hs : list line) (k def : list Z) : list Z :=
  foldl (fun v h => if same_name (l_name h) k then l_value h else v) def hs.

Lemma getHeader_lines hs r k def : request_wf r ->
  getHeader (foldl (fun r h => setHeader (l_name h) (l_value h) r) r hs) k def
  = last_value hs k (getHeader r k def).
Proof.
  revert r. induction hs as [|h hs IH]; intros r Hwf; simpl; [done|].
  rewrite IH by (by apply setHeader_wf). f_equal. unfold getHeader; simpl.
  apply get_of_assign, Hwf.
Qed.

Lemma same_name_spec a b : same_name a b = true <-> fold_case a = fold_case b.
Proof. apply bool_decide_eq_true. Qed.

Lemma same_name_sym a b : same_name a b = same_name b a.
Proof. unfold same_name. apply bool_decide_ext. naive_solver. Qed.

Lemma last_value_absent hs k def :
  Forall (fun h => same_name (l_name h) k = false) hs -> last_value hs k def = def.
Proof. unfold last_value. induction 1 as [|h hs Hh _ IH]; simpl; [done|]. by rewrite Hh. Qed.

Lemma is_connection k :
  match strcasecmp k (str "connection") with Eq => true | _ => false end
  = same_name k (str "connection").
Proof.
  unfold strcasecmp, same_name. destruct (cmp_bytes _ _) eqn:E; symmetry.
  - by apply bool_decide_eq_true, cmp_bytes_eq.
  - apply bool_decide_eq_false. intros H. by rewrite H, cmp_bytes_refl in E.
  - apply bool_decide_eq_false. intros H. by rewrite H, cmp_bytes_refl in E.
Qed.

Lemma own_lines_cons k v l : own_lines ((k, v) :: l)
  = (if same_name k (str "connection") then [] else [mkLine k [] v]) ++ own_lines l.
Proof. unfold own_lines; simpl. rewrite <- is_connection. by destruct (strcasecmp k _). Qed.

Lemma own_lines_forall (P : list Z -> Prop) l :
  Forall (fun p => P p.1) l -> Forall (fun h => P (l_name h)) (own_lines l).
Proof.
  induction 1 as [|[k v] l Hp _ IH]; [constructor|]. rewrite own_lines_cons.
  destruct (same_name k (str "connection")); simpl; [done|]. by constructor.
Qed.

(** Printing the lines of an ordered map and reading them back is looking the map up. *)
Lemma last_value_own m k def : map_sorted CaseInsensitiveLess m ->
  last_value (own_lines m) k def
  = if same_name k (str "connection") then def else get_of m k def.
Proof.
  induction 1 as [|[k0 v] m Hs IH HF]; [by destruct (same_name k _)|].
  rewrite own_lines_cons. unfold get_of; simpl. rewrite same_key_name.
  destruct (same_name k k0) eqn:Ek.
  - apply same_name_spec in Ek.
    assert (same_name k (str "connection") = same_name k0 (str "connection")) as ->
      by (unfold same_name; by rewrite Ek).
    assert (same_name k0 k = true) as Ek' by (by apply same_name_spec).
    assert (Forall (fun h => same_name (l_name h) k = false) (own_lines m)) as Habs.
    { apply (own_lines_forall (fun n => same_name n k = false)).
      eapply List.Forall_impl; [|exact HF]. intros [k1 v1] Hlt. unfold key_lt in Hlt; simpl in *.
      destruct (same_name k1 k) eqn:E1; [|done]. apply same_name_spec in E1.
      unfold CaseInsensitiveLess, strcasecmp in Hlt. by rewrite <- Ek, <- E1, cmp_bytes_refl in Hlt. }
    destruct (same_name k0 (str "connection")); simpl.
    + by apply last_value_absent.
    + unfold last_value; simpl. rewrite Ek'. by apply (last_value_absent _ k v).
  - assert (same_name k0 k = false) as Ek'.
    { destruct (same_name k0 k) eqn:E; [|done]. apply same_name_spec in E. symmetry in E.
      apply same_name_spec in E. congruence. }
    destruct (same_name k0 (str "connection")); simpl; [exact IH|].
    unfold last_value; simpl. rewrite Ek'. exact IH.
Qed.

(** The headers the receiver sees. *)
Definition received_header (r : HttpRequest) (k def : list Z) : list Z :=
  if same_name (str "content-length") k && negb (bool_decide (m_body r = []))
  then decimal (Z.of_nat (length (m_body r)))
  else if same_name k (str "connection") then if m_close r then str "close" else str "keep-alive"
  else getHeader r k def.

(** A request whose texts the grammar covers, the header values without leading space. *)
Definition printable (r : HttpRequest) : bool :=
  negb (bool_decide (m_method r = INVALID_METHOD)) && negb (bool_decide (m_method r = MSEARCH))
  && is_path (m_path r) && pct_text is_query_char (m_query r)
  && forallb (fun p => is_name p.1 && is_value p.2) (m_headers r).

Lemma uint_chars_value d : forallb (in_range 48 57) (uint_chars d) = true.
Proof. induction d; simpl; auto. Qed.

Lemma is_value_digits l : forallb (in_range 48 57) l = true -> is_value l = true.
Proof.
  assert (forall b, in_range 48 57 b = true -> is_value_char b = true /\ is_value_start b = true)
    as H by (unfold is_value_start, is_value_char, in_range; intros b; lia).
  destruct l as [|b l]; [done|]. simpl. rewrite !andb_true_iff, !forallb_forall.
  intros [Hb Hl]. split; [by apply H|]. intros x Hx. by apply H, Hl.
Qed.

Lemma dump_lines_ok r :
  forallb (fun p => is_name p.1 && is_value p.2) (m_headers r) = true ->
  forallb is_line (dump_lines r) = true.
Proof.
  intros H. unfold dump_lines. cbn [forallb]. rewrite forallb_app, !andb_true_iff. split; [|split].
  - destruct (m_close r); by vm_compute.
  - induction (m_headers r) as [|[k v] l IH]; [done|]. rewrite own_lines_cons.
    simpl in H. apply andb_true_iff in H as [H1 H2]. rewrite forallb_app, (IH H2), andb_true_r.
    destruct (same_name k _); [done|]. simpl. unfold is_line; simpl.
    simpl in H1. by destruct (is_name k), (is_value v).
  - destruct (bool_decide (m_body r = [])); [done|]. simpl. rewrite andb_true_r. unfold is_line.
    simpl. rewrite is_value_digits by apply uint_chars_value. done.
Qed.

Lemma setHeader_lines hs r :
  exists hm, foldl (fun r h => setHeader (l_name h) (l_value h) r) r hs = setHeaders hm r.
Proof.
  revert r. induction hs as [|h hs IH]; intros r; simpl; [by exists (m_headers r); destruct r|].
  destruct (IH (setHeader (l_name h) (l_value h) r)) as [hm ->]. by exists hm.
Qed.

Lemma received_lines r k def : request_wf r ->
  last_value (dump_lines r) k def = received_header r k def.
Proof.
  intros [Hs _]. unfold dump_lines, last_value, received_header. simpl. rewrite foldl_app.
  rewrite same_name_sym.
  change (foldl _ ?v (own_lines (m_headers r))) with (last_value (own_lines (m_headers r)) k v).
  rewrite (last_value_own _ _ _ Hs).
  destruct (bool_decide (m_body r = [])) eqn:Eb; simpl.
  - rewrite andb_false_r. by destruct (same_name k (str "connection")).
  - rewrite andb_true_r. destruct (same_name (str "content-length") k); [done|].
    by destruct (same_name k (str "connection")).
Qed.

(** C35: What one peer prints, the other parses. The text [toString] prints for a request whose
    method, path, query and headers are over the characters of the grammar is accepted by a
    new parser: method, path and query are the sender's, every header has the sender's value,
    with "connection" telling [m_close] and "content-length" the size of a non-empty body, and
    the body is what is left in the buffer. The fragment is lost, and the version of a 1.1
    request has become 1.0. *)
Theorem dump_parse r memory :
  let text := HttpRequest_toString r in
  printable r = true -> request_wf r -> m_version r = 16 \/ m_version r = 17 ->
  Forall is_byte text -> Z.of_nat (length text) < max_len -> 0 <= query_start memory ->
  exists n data s',
    execute text (Z.of_nat (length text)) (new_HttpRequestParser memory) = Ret (n, data) s'
    /\ isFinished s' = true /\ hasError s' = false
    /\ m_method (m_data s') = m_method r /\ m_path (m_data s') = m_path r
    /\ m_query (m_data s') = m_query r
    /\ (forall k def, getHeader (m_data s') k def = received_header r k def)
    /\ take (length (m_body r)) data = m_body r
    /\ n = Z.of_nat (length text) - Z.of_nat (length (m_body r))
    /\ m_fragment (m_data s') = [] /\ m_version (m_data s') = 16.
Proof.
  intros text Hp Hwf Hv Hby Hmax Hqs. unfold printable in Hp.
  rewrite !andb_true_iff, !negb_true_iff in Hp. destruct Hp as [[[[H1 H2] H3] H4] H5].
  unfold text in *. rewrite (dump_text r Hv) in *.
  destruct (parse_request_ok (m_method r) (m_path r) (non_empty (m_query r))
    (if bool_decide (m_fragment r = []) then None else Some []) false (dump_lines r) (m_body r)
    memory) as (data & s' & E & Hfin & Herr & Hd & Hb); [|done..|].
  { unfold request_ok, non_empty. rewrite H1, H2, H3, (dump_lines_ok r H5).
    destruct (bool_decide (m_query r = [])), (bool_decide (m_fragment r = [])); simpl;
      by rewrite ?H4. }
  eexists _, data, s'. split; [exact E|]. split; [done|]. split; [done|].
  rewrite Hd. unfold request_of.
  destruct (setHeader_lines (dump_lines r) (setVersion 16 (opt_set setFragment
    (if bool_decide (m_fragment r = []) then None else Some []) (opt_set setQuery
      (non_empty (m_query r)) (setPath (m_path r) (setMethod (m_method r) (new_HttpRequest 17 true)))))))
    as [hm Ehm].
  assert (forall k def, getHeader (foldl (fun r h => setHeader (l_name h) (l_value h) r)
    (setVersion 16 (opt_set setFragment (if bool_decide (m_fragment r = []) then None else Some [])
      (opt_set setQuery (non_empty (m_query r)) (setPath (m_path r) (setMethod (m_method r)
        (new_HttpRequest 17 true)))))) (dump_lines r)) k def = received_header r k def) as Hh.
  { intros k def. rewrite getHeader_lines.
    - rewrite <- (received_lines r k def Hwf). f_equal.
      unfold non_empty. by destruct (bool_decide (m_query r = [])), (bool_decide (m_fragment r = [])).
    - unfold non_empty. destruct (bool_decide (m_query r = [])), (bool_decide (m_fragment r = []));
        repeat split; constructor. }
  rewrite Ehm in *. clear Ehm.
  unfold non_empty in *.
  destruct (bool_decide (m_query r = [])) eqn:Eq, (bool_decide (m_fragment r = []));
    try (apply bool_decide_eq_true in Eq; rewrite Eq);
    (split; [done|]); (split; [done|]); (split; [done|]); (split; [exact Hh|]); (split; [done|]);
    (split; [rewrite length_app; lia|]); done.
Qed.

Lemma dump_parse_witness :
  let r := setBody (str "abc") (setHeader (str "Host") (str "sylar.top")
    (setQuery (str "x=1") (setMethod POST (new_HttpRequest 17 false)))) in
  exists n data s',
    execute (HttpRequest_toString r) (Z.of_nat (length (HttpRequest_toString r)))
      (new_HttpRequestParser no_memory) = Ret (n, data) s'
    /\ take 3 data = str "abc" /\ m_method (m_data s') = POST
    /\ getHeader (m_data s') (str "Connection") [] = str "keep-alive".
Proof.
  intros r. destruct (dump_parse r no_memory)
    as (n & data & s' & E & _ & _ & Hm & _ & _ & Hh & Hb & _).
  - by vm_compute.
  - apply setHeader_wf, new_HttpRequest_wf.
  - by right.
  - apply (bool_decide_unpack _). vm_compute. exact I.
  - by vm_compute.
  - discriminate.
  - exists n, data, s'. split; [exact E|]. split; [exact Hb|]. split; [exact Hm|].
    rewrite Hh. by vm_compute.
Defined.

(** ** A request whose query is split over two reads *)

Lemma on_query_wrapped buf qs p d : 0 <= p < qs -> qs <= max_len ->
  on_request_query buf qs (LEN qs p) d = Exn length_error d.
Proof.
  intros Hp Hq. unfold on_request_query. apply bind_Exn. unfold std_string.
  assert (LEN qs p = 2 ^ 64 + (p - qs)) as ->.
  { symmetry. apply Z.mod_unique_pos with (-1); unfold max_len in *; lia. }
  destruct (Z.ltb_spec string_max_size (2 ^ 64 + (p - qs))); [done|].
  unfold string_max_size, max_len in *. lia.
Qed.

(** Entering a query whose start is behind: the callback's length wraps around. *)
Lemma stale_query r d v rest :
  let buf := v ++ 32 :: rest in
  cs r = 30 -> Forall is_byte v -> pct_text is_query_char v = true ->
  Z.of_nat (length buf) < max_len ->
  Z.of_nat (length v) < query_start r <= max_len ->
  exists s', http_parser_execute on_request_element on_request_http_field buf
    (Z.of_nat (length buf)) 0 (r, d) = Exn length_error s'.
Proof.
  intros buf Hcs Hby Hv Hmax Hq.
  assert (length buf = length v + S (length rest))%nat as Hl by (unfold buf; by rewrite length_app).
  eexists. apply execute_exn; [lia..|]. rewrite Hcs. unfold buf at 3.
  rewrite (run_pct buf is_query_char 30 31 32) by (done || by vm_compute).
  rewrite (run_goes _ _ _ _ _ 30 32 _ [a_query_string; a_request_uri] 4) by (by vm_compute).
  assert (element on_request_element cb_query_string buf query_start (0 + Z.of_nat (length v))
    (reset_marks r, d) = Exn length_error (reset_marks r, d)) as He.
  { unfold element, reg, gets, call, bind.
    change (query_start (reset_marks r, d).1) with (query_start r).
    change (on_request_element cb_query_string) with on_request_query.
    by rewrite on_query_wrapped by lia. }
  cbn [do_actions do_action]. unfold bind. by rewrite He.
Qed.

Lemma pct_text_app ok u v : pct_text ok u = true -> pct_text ok (u ++ v) = pct_text ok v.
Proof.
  induction u as [u IH] using (induction_ltof1 _ (@length Z)). unfold ltof in IH.
  destruct u as [|b u]; [done|]. simpl. destruct (b =? 37).
  - destruct u as [|x [|y u]]; [done..|]. simpl. rewrite !andb_true_iff. intros [[-> ->] Hu].
    simpl. apply IH; [simpl; lia|done].
  - rewrite andb_true_iff. intros [-> Hu]. simpl. apply IH; [simpl; lia|done].
Qed.

Lemma first_part_of_query u memory :
  let buf := str "GET /?" ++ u in
  Forall is_byte u -> u <> [] -> pct_text is_query_char u = true ->
  Z.of_nat (length buf) < max_len -> 0 <= query_start memory ->
  exists data s1,
    execute buf (Z.of_nat (length buf)) (new_HttpRequestParser memory)
      = Ret (Z.of_nat (length buf), data) s1
    /\ cs (m_parser s1) = 30 /\ query_start (m_parser s1) = 6
    /\ hasError s1 = false /\ isFinished s1 = false.
Proof.
  intros buf Hby Hne Hu Hmax Hqs.
  assert (length buf = 6 + length u)%nat as Hl by (unfold buf; by rewrite length_app).
  set (r := http_parser_init memory).
  assert (exists r' d', run on_request_element on_request_http_field buf (Z.of_nat (length buf)) 0 1 buf
    (reset_marks r, mkParsed (new_HttpRequest 17 true) 0)
    = Ret (Z.of_nat (length buf), 30) (r', mkParsed d' 0) /\ query_start r' = 6) as (r' & d' & Hrun & Hq).
  { rewrite (run_method buf Hmax GET ([47; 63] ++ u)) by done.
    destruct (run_path_end buf Hmax 4 (str "GET ") [47] 63 [a_request_path] 29 u (set_mark 0 (reset_marks r))
      (mkParsed (setMethod GET (new_HttpRequest 17 true)) 0)) as (r1 & _ & E1);
      [done|done|by vm_compute|by repeat constructor|by left|].
    exists (set_query_start 6 r1). eexists. split; [|done]. etransitivity; [exact E1|].
    pose proof (run_text_head buf is_query_char is_query_char 29 [a_start_query] 30 31 32 u [] 6
      (r1, upd (setPath [47]) (mkParsed (setMethod GET (new_HttpRequest 17 true)) 0))
      (set_query_start 6 r1, upd (setPath [47]) (mkParsed (setMethod GET (new_HttpRequest 17 true)) 0)))
      as E2.
    rewrite app_nil_r in E2. etransitivity; [apply E2|]; [by vm_compute|by vm_compute|done|done| |done|].
    2: { simpl. unfold ret, test_eof. f_equal. f_equal. lia. }
    - destruct u as [|c u]; [done|]. intros Hc. simpl in Hu. apply Z.eqb_neq in Hc.
      rewrite Hc in Hu. by apply andb_true_iff in Hu as [-> _]. }
  destruct (run_ok on_request_element on_request_http_field buf ltac:(done) buf 0 1 (reset_marks r)
    (mkParsed (new_HttpRequest 17 true) 0)) as (p2 & q2 & r2 & d2 & Hrun2 & _ & Hs & Hw & Hend);
    [|by apply (reset_marks_ok buf r); [lia|..]|lia|lia|done|lia|].
  { apply Forall_app. split; [|done]. apply (bool_decide_unpack _). vm_compute. exact I. }
  rewrite Hrun in Hrun2. injection Hrun2 as <- <- <- <-.
  eexists _, _. split; [apply execute_machine|].
  { apply execute_run; [done|lia|done|exact Hrun|lia|done|done|].
    eapply run_end_body; [exact Hend|lia]. }
  done.
Qed.

(** A query split over two reads is a crash, not a longer parse. The start of a query is
    remembered as a position in the first buffer and, unlike the other positions, not
    cleared by the next call. When "GET /?u" arrives first, the parser accepts it; when
    fewer than six more characters of the query and then the rest follow in a second call,
    the length of the query wraps around and [std::string] throws [length_error] out of
    [execute]. In one call the same request is accepted. *)
Theorem query_split_throws u v memory :
  let b1 := str "GET /?" ++ u in
  let b2 := v ++ str " HTTP/1.1" ++ crlf ++ crlf in
  Forall is_byte (u ++ v) -> u <> [] -> pct_text is_query_char u = true ->
  pct_text is_query_char v = true -> (length v < 6)%nat ->
  Z.of_nat (length (b1 ++ b2)) < max_len -> 0 <= query_start memory ->
  exists data s1 s2,
    execute b1 (Z.of_nat (length b1)) (new_HttpRequestParser memory)
      = Ret (Z.of_nat (length b1), data) s1
    /\ hasError s1 = false /\ isFinished s1 = false
    /\ execute b2 (Z.of_nat (length b2)) s1 = Exn length_error s2
    /\ exists data3 s3,
      execute (b1 ++ b2) (Z.of_nat (length (b1 ++ b2))) (new_HttpRequestParser memory)
        = Ret (Z.of_nat (length (b1 ++ b2)), data3) s3
      /\ isFinished s3 = true /\ hasError s3 = false /\ m_query (m_data s3) = u ++ v.
Proof.
  intros b1 b2 Hby Hne Hu Hv Hshort Hmax Hqs. apply Forall_app in Hby as [Hbu Hbv].
  assert (length (b1 ++ b2) = length b1 + length b2)%nat as Hl by apply length_app.
  destruct (first_part_of_query u memory Hbu Hne Hu ltac:(fold b1; lia) Hqs)
    as (data & s1 & E1 & Hcs & Hq & He & Hf). fold b1 in E1.
  destruct (stale_query (m_parser s1) (mkParsed (m_data s1) (m_error s1)) v
    (str "HTTP/1.1" ++ crlf ++ crlf) Hcs Hbv Hv) as [[r2 d2] E2];
    [change (Z.of_nat (length b2) < max_len); lia|rewrite Hq; unfold max_len; lia|].
  exists data, s1, (mkRequestParser r2 (p_data d2) (p_error d2)).
  split; [done|]. split; [done|]. split; [done|]. split.
  - unfold execute, machine. rewrite Nat2Z.id, firstn_all.
    change (v ++ 32 :: str "HTTP/1.1" ++ crlf ++ crlf) with b2 in E2. unfold bind.
    by rewrite E2.
  - assert (b1 ++ b2 = request_text GET [47] (Some (u ++ v)) None true [] ++ []) as Eb.
    { unfold b1, b2, request_text, uri_text, opt_text, version_text. rewrite app_nil_r.
      cbn [map concat app]. by rewrite <- !app_assoc. }
    assert (Forall is_byte (b1 ++ b2)) as Hbb.
    { unfold b1, b2. rewrite !Forall_app. repeat split; try done;
        apply (bool_decide_unpack _); vm_compute; exact I. }
    rewrite Eb in *.
    destruct (parse_request_ok GET [47] (Some (u ++ v)) None true [] [] memory)
      as (data3 & s3 & E3 & Hf3 & He3 & Hd3 & _); [|done..|].
    { unfold request_ok. simpl. by rewrite pct_text_app, Hv. }
    exists data3, s3. rewrite app_nil_r in *. rewrite E3, Hd3. done.
Qed.

Lemma query_split_throws_witness :
  let s := new_HttpRequestParser no_memory in
  exists data s1 s2,
    execute (str "GET /?id=1") 10 s = Ret (10, data) s1
    /\ execute (str "2 HTTP/1.1" ++ crlf ++ crlf) 14 s1 = Exn length_error s2.
Proof.
  intros s.
  destruct (query_split_throws (str "id=1") (str "2") no_memory)
    as (data & s1 & s2 & E1 & _ & _ & E2 & _).
  - apply (bool_decide_unpack _). vm_compute. exact I.
  - discriminate.
  - by vm_compute.
  - by vm_compute.
  - simpl. lia.
  - by vm_compute.
  - discriminate.
  - exists data, s1, s2. split; [exact E1|exact E2].
Defined.
