(* ===== verification/Endian.v ===== *)
(** Byte order: the templates of src/sylar/endian1.h, and the memory image of an
    integer on the machine the library is compiled for (a [Host]). *)
From S2P Require Import Prelude.

(** An integer type of C++: its size in bytes and its signedness. *)
Record ity := mkIty { sizeof : nat; signed : bool }.
Definition bits (T : ity) : Z := 8 * Z.of_nat (sizeof T).
Definition int8_t := mkIty 1 true.
Definition uint8_t := mkIty 1 false.
Definition int16_t := mkIty 2 true.
Definition uint16_t := mkIty 2 false.
Definition int32_t := mkIty 4 true.
Definition uint32_t := mkIty 4 false.
Definition int64_t := mkIty 8 true.
Definition uint64_t := mkIty 8 false.

(** [(T)z]: conversion to an integer type. *)
Definition cast (T : ity) (z : Z) : Z :=
  if signed T then wraps (bits T) z else wrapu (bits T) z.
Definition in_ity (T : ity) (z : Z) : Prop :=
  if signed T then in_s (bits T) z else in_u (bits T) z.

(* SRC sylar/endian1.h:4-4 SYLAR_LITTLE_ENDIAN *)
Definition SYLAR_LITTLE_ENDIAN : Z := 1.
(* SRC sylar/endian1.h:5-5 SYLAR_BIG_ENDIAN *)
Definition SYLAR_BIG_ENDIAN : Z := 2.

(** The platform: whether [BYTE_ORDER == BIG_ENDIAN] is false. *)
Class Host := { little_host : bool }.
Definition x86_64 : Host := {| little_host := true |}.
Definition big_host : Host := {| little_host := false |}.

Section Byteswap.
Context `{Host}.

(* SRC sylar/endian1.h:68-74 SYLAR_BYTE_ORDER *)
Definition SYLAR_BYTE_ORDER : Z :=
if little_host then SYLAR_LITTLE_ENDIAN else SYLAR_BIG_ENDIAN.

(** bswap_16, bswap_32 and bswap_64 of the C library: byte reversal. *)
Definition bswap (n : nat) (v : Z) : Z := le_value (rev (le_bytes n v)).

(* SRC sylar/endian1.h:18-34 byteswap *)
Definition byteswap (T : ity) (value : Z) : Z :=
cast T (bswap (sizeof T) (wrapu (bits T) value)).

(* SRC sylar/endian1.h:80-85 byteswapOnLittleEndian *)
Definition byteswapOnLittleEndian (T : ity) (t : Z) : Z :=
if SYLAR_BYTE_ORDER =? SYLAR_BIG_ENDIAN then t else byteswap T t.

(* SRC sylar/endian1.h:87-107 byteswapOnBigEndian *)
Definition byteswapOnBigEndian (T : ity) (t : Z) : Z :=
if SYLAR_BYTE_ORDER =? SYLAR_BIG_ENDIAN then byteswap T t else t.

(** The bytes of an object of type [T] in memory, by increasing address. *)
Definition mem_of (n : nat) (v : Z) : list Z :=
if little_host then le_bytes n v else rev (le_bytes n v).
Definition mem_value (bs : list Z) : Z :=
if little_host then le_value bs else le_value (rev bs).

(** Reference: the bytes of [v] in a given order. *)
Definition ordered_bytes (endian : Z) (n : nat) (v : Z) : list Z :=
if endian =? SYLAR_LITTLE_ENDIAN then le_bytes n v else rev (le_bytes n v).
End Byteswap.

Section Facts.
Context `{Host}.

Lemma pow256 n : 256 ^ Z.of_nat n = 2 ^ (8 * Z.of_nat n).
Proof. change 256 with (2 ^ 8). by rewrite <- Z.pow_mul_r by lia. Qed.

Lemma le_bytes_wrapu n v : le_bytes n (wrapu (8 * Z.of_nat n) v) = le_bytes n v.
Proof. unfold wrapu. rewrite <- pow256. apply le_bytes_mod. Qed.

Lemma le_bytes_cast T v : (0 < sizeof T)%nat -> le_bytes (sizeof T) (cast T v) = le_bytes (sizeof T) v.
Proof.
  intros. unfold cast, bits. destruct (signed T); [|apply le_bytes_wrapu].
  rewrite <- le_bytes_wrapu, wrapu_wraps by lia. apply le_bytes_wrapu.
Qed.

Lemma cast_small T v : (0 < sizeof T)%nat -> in_ity T v -> cast T v = v.
Proof.
  unfold cast, in_ity, bits. intros ?. destruct (signed T); intros.
  - apply wraps_small; lia || done.
  - by apply wrapu_small.
Qed.

Lemma cast_wrapu T v : (0 < sizeof T)%nat -> cast T (wrapu (bits T) v) = cast T v.
Proof.
  intros. unfold cast. destruct (signed T).
  - apply wraps_wrapu. unfold bits. lia.
  - unfold wrapu. apply Z.mod_mod. unfold bits. lia.
Qed.

Lemma le_bytes_bswap n v : le_bytes n (bswap n v) = rev (le_bytes n v).
Proof.
  unfold bswap. rewrite <- (length_le_bytes n v) at 1. rewrite <- length_rev.
  apply le_bytes_value, Forall_rev, le_bytes_is_byte.
Qed.

Lemma byteswap_bytes T v : (0 < sizeof T)%nat ->
  le_bytes (sizeof T) (byteswap T v) = rev (le_bytes (sizeof T) v).
Proof.
  intros. unfold byteswap. rewrite le_bytes_cast, le_bytes_bswap by done.
  unfold bits. by rewrite le_bytes_wrapu.
Qed.

Lemma mem_of_byteswap T v : (0 < sizeof T)%nat ->
  mem_of (sizeof T) (byteswap T v) = rev (mem_of (sizeof T) v).
Proof.
  intros. unfold mem_of. rewrite byteswap_bytes by done.
  by destruct little_host.
Qed.

Lemma length_mem_of n v : length (mem_of n v) = n.
Proof. unfold mem_of. destruct little_host; by rewrite ?length_rev, length_le_bytes. Qed.

Lemma mem_of_is_byte n v : Forall is_byte (mem_of n v).
Proof.
  unfold mem_of. destruct little_host; [|apply Forall_rev]; apply le_bytes_is_byte.
Qed.

Lemma mem_value_of T v : (0 < sizeof T)%nat -> in_ity T v ->
  cast T (mem_value (mem_of (sizeof T) v)) = v.
Proof.
  intros Hn Hv. unfold mem_of, mem_value.
  assert (cast T (le_value (le_bytes (sizeof T) v)) = v) as E.
  { rewrite le_value_bytes, pow256. fold (wrapu (8 * Z.of_nat (sizeof T)) v).
    fold (bits T). rewrite cast_wrapu by done. by apply cast_small. }
  destruct little_host; by rewrite ?rev_involutive.
Qed.

Lemma cast_in_ity T v : (0 < sizeof T)%nat -> in_ity T (cast T v).
Proof.
  intros. unfold cast, in_ity, bits. destruct (signed T).
  - apply wraps_range. lia.
  - apply wrapu_range. lia.
Qed.

(** Values of a type are determined by their bytes. *)
Lemma le_bytes_inj T v w : (0 < sizeof T)%nat -> in_ity T v -> in_ity T w ->
  le_bytes (sizeof T) v = le_bytes (sizeof T) w -> v = w.
Proof.
  intros Hn Hv Hw E. rewrite <- (cast_small T v), <- (cast_small T w) by done.
  rewrite <- (cast_wrapu T v), <- (cast_wrapu T w) by done. f_equal.
  unfold wrapu, bits. rewrite <- !pow256, <- !le_value_bytes. by rewrite E.
Qed.

Lemma byteswap_involutive T v : (0 < sizeof T)%nat -> in_ity T v ->
  byteswap T (byteswap T v) = v.
Proof.
  intros Hn Hv. apply (le_bytes_inj T); [done| |done|].
  - by apply cast_in_ity.
  - by rewrite !byteswap_bytes, rev_involutive by done.
Qed.
End Facts.

#[export] Hint Rewrite @length_mem_of : sylar.
#[export] Hint Resolve mem_of_is_byte : sylar.
