(* ===== verification/ByteArray.v ===== *)
(** The block-list byte buffer of src/sylar/bytearray.{h,cpp}: its state, its
    memory-level operations (write, read, seek, scatter/gather views, files) and
    their refinement to a flat sequence of bytes with a cursor. *)
From S2P Require Import Prelude Endian.

(** A byte of memory; [None] is an indeterminate byte (of a fresh [new char[]]). *)
Notation cell := (option Z).

(* SRC sylar/bytearray.h:17-25 ByteArray::Node *)
Record Node := mkNode { ptr : list cell; size : Z }.

(* SRC sylar/bytearray.cpp:14-18 ByteArray::Node::Node *)
Definition new_Node (s : Z) : Node := mkNode (replicate (Z.to_nat s) None) s.

(** The linked list [m_root] is the list of its nodes in [next] order, and a
    [Node*] into it is an index ([None] is [nullptr]). *)
(* SRC sylar/bytearray.h:142-148 ByteArray *)
Record ByteArray := mkByteArray {
  m_baseSize : Z;
  m_position : Z;
  m_capacity : Z;
  m_size : Z;
  m_endian : Z;
  m_root : list Node;
  m_cur : option nat
}.

(** A view [struct iovec]: a node, an offset in its block and a length. *)
Record iovec := mkIovec { iov_node : nat; iov_off : Z; iov_len : Z }.

(** Field updates. *)
Definition with_position (p : Z) (s : ByteArray) : ByteArray :=
  mkByteArray (m_baseSize s) p (m_capacity s) (m_size s) (m_endian s) (m_root s) (m_cur s).
Definition with_capacity (c : Z) (s : ByteArray) : ByteArray :=
  mkByteArray (m_baseSize s) (m_position s) c (m_size s) (m_endian s) (m_root s) (m_cur s).
Definition with_size (z : Z) (s : ByteArray) : ByteArray :=
  mkByteArray (m_baseSize s) (m_position s) (m_capacity s) z (m_endian s) (m_root s) (m_cur s).
Definition with_endian (e : Z) (s : ByteArray) : ByteArray :=
  mkByteArray (m_baseSize s) (m_position s) (m_capacity s) (m_size s) e (m_root s) (m_cur s).
Definition with_root (r : list Node) (s : ByteArray) : ByteArray :=
  mkByteArray (m_baseSize s) (m_position s) (m_capacity s) (m_size s) (m_endian s) r (m_cur s).
Definition with_cur (c : option nat) (s : ByteArray) : ByteArray :=
  mkByteArray (m_baseSize s) (m_position s) (m_capacity s) (m_size s) (m_endian s) (m_root s) c.

(* SRC sylar/bytearray.cpp:32-40 ByteArray::ByteArray *)
Definition new_ByteArray (base_size : Z) : ByteArray :=
  mkByteArray base_size 0 base_size 0 SYLAR_BIG_ENDIAN [new_Node base_size] (Some 0%nat).

(* SRC sylar/bytearray.cpp:51-53 ByteArray::isLittleEndian *)
Definition isLittleEndian (s : ByteArray) : bool := m_endian s =? SYLAR_LITTLE_ENDIAN.

(* SRC sylar/bytearray.cpp:55-61 ByteArray::setIsLittleEndian *)
Definition setIsLittleEndian (val : bool) : M ByteArray unit :=
  modify (with_endian (if val then SYLAR_LITTLE_ENDIAN else SYLAR_BIG_ENDIAN)).

(* SRC sylar/bytearray.h:94-94 ByteArray::getPosition *)
Definition getPosition (s : ByteArray) : Z := m_position s.
(* SRC sylar/bytearray.h:100-100 ByteArray::getBaseSize *)
Definition getBaseSize (s : ByteArray) : Z := m_baseSize s.
(* SRC sylar/bytearray.h:101-101 ByteArray::getReadSize *)
Definition getReadSize (s : ByteArray) : Z := u64 (m_size s - m_position s).
(* SRC sylar/bytearray.h:102-102 ByteArray::getSize *)
Definition getSize (s : ByteArray) : Z := m_size s.
(* SRC sylar/bytearray.h:140-140 ByteArray::getCapacity *)
Definition getCapacity (s : ByteArray) : Z := u64 (m_capacity s - m_position s).

(** [p->next] and [p->size] through a node pointer; null pointers fault. *)
Definition next (s : ByteArray) (i : nat) : option nat :=
  if (S i <? length (m_root s))%nat then Some (S i) else None.
Definition node_at (p : option nat) : M ByteArray (nat * Node) := fun s =>
  match p with
  | Some i => match m_root s !! i with
              | Some n => Ret (i, n) s
              | None => UB OutOfBounds
              end
  | None => UB NullDeref
  end.
Definition size_at (p : option nat) : M ByteArray Z :=
  let! n := node_at p in ret (size (snd n)).
Definition next_at (p : option nat) : M ByteArray (option nat) :=
  let! n := node_at p in gets (fun s => next s (fst n)).
(** [m_cur->size] and [m_cur = m_cur->next]. *)
Definition cur_size : M ByteArray Z := let! c := gets m_cur in size_at c.
Definition advance : M ByteArray unit :=
  let! c := gets m_cur in let! c' := next_at c in modify (with_cur c').
(** [a % m_baseSize]. *)
Definition mod_base (a : Z) : M ByteArray Z := fun s =>
  if m_baseSize s =? 0 then UB DivByZero else Ret (a mod m_baseSize s) s.

(** [memcpy] out of and into a block; accesses outside it fault. *)
Definition copy_from (l : list cell) (off n : Z) : M ByteArray (list cell) := fun s =>
  if bool_decide (0 <= off /\ 0 <= n /\ off + n <= Z.of_nat (length l))
  then Ret (slice l (Z.to_nat off) (Z.to_nat n)) s else UB OutOfBounds.
Definition peek (p : option nat) (off n : Z) : M ByteArray (list cell) :=
  let! nd := node_at p in copy_from (ptr (snd nd)) off n.
Definition poke (p : option nat) (off : Z) (bs : list cell) : M ByteArray unit :=
  let! (i, nd) := node_at p in
  if bool_decide (0 <= off /\ off + Z.of_nat (length bs) <= Z.of_nat (length (ptr nd)))
  then modify (fun s => with_root
         (<[i := mkNode (splice (ptr nd) (Z.to_nat off) bs) (size nd)]> (m_root s)) s)
  else fail_with OutOfBounds.

Definition add_position (n : Z) : M ByteArray unit :=
  modify (fun s => with_position (u64 (m_position s + n)) s).

(* SRC sylar/bytearray.cpp:345-356 ByteArray::clear *)
Definition clear : M ByteArray unit := modify (fun s =>
  mkByteArray (m_baseSize s) 0 (m_baseSize s) 0 (m_endian s) (take 1 (m_root s)) (Some 0%nat)).

(** [ceil(1.0 * size / m_baseSize)]: the double quotient rounds to the exact
    ceiling for sizes below 2^53. *)
Definition ceil_div (a b : Z) : Z := (a + b - 1) / b.

(* SRC sylar/bytearray.cpp:512-541 ByteArray::addCapacity *)
Definition addCapacity (size : Z) : M ByteArray unit :=
  if size =? 0 then ret tt else
  let! old_cap := gets getCapacity in
  if old_cap >=? size then ret tt else
  let size := u64 (size - old_cap) in
  let! base := gets m_baseSize in
  if base =? 0 then fail_with DivByZero else
  let count := ceil_div size base in
  let! first := gets (fun s => if 0 <? count then Some (length (m_root s)) else None) in
  modify (fun s => with_root (m_root s ++ replicate (Z.to_nat count) (new_Node base)) s) ;;
  modify (fun s => with_capacity (u64 (m_capacity s + count * base)) s) ;;
  if old_cap =? 0 then modify (with_cur first) else ret tt.

(* SRC sylar/bytearray.cpp:368-386 ByteArray::write *)
Fixpoint write_loop (fuel : nat) (buf : list cell) (npos ncap bpos size : Z) : M ByteArray unit :=
  match fuel with
  | O => fail_with OutOfFuel
  | S fuel =>
    if 0 <? size then
      if ncap >=? size then
        let! src := copy_from buf bpos size in
        let! cur := gets m_cur in
        poke cur npos src ;;
        let! csz := cur_size in
        (if csz =? u64 (npos + size) then advance else ret tt) ;;
        add_position size ;;
        write_loop fuel buf npos ncap (u64 (bpos + size)) 0
      else
        let! src := copy_from buf bpos ncap in
        let! cur := gets m_cur in
        poke cur npos src ;;
        add_position ncap ;;
        advance ;;
        let! ncap' := cur_size in
        write_loop fuel buf 0 ncap' (u64 (bpos + ncap)) (u64 (size - ncap))
    else ret tt
  end.

(* SRC sylar/bytearray.cpp:358-391 ByteArray::write *)
Definition write (buf : list cell) (size : Z) : M ByteArray unit :=
  if size =? 0 then ret tt else
  addCapacity size ;;
  let! pos := gets m_position in
  let! npos := mod_base pos in
  let! csz := cur_size in
  let ncap := u64 (csz - npos) in
  write_loop (S (Z.to_nat size)) buf npos ncap 0 size ;;
  modify (fun s => if m_position s >? m_size s then with_size (m_position s) s else s).

(* SRC sylar/bytearray.cpp:401-419 ByteArray::read *)
Fixpoint read_loop (fuel : nat) (npos ncap size : Z) : M ByteArray (list cell) :=
  match fuel with
  | O => fail_with OutOfFuel
  | S fuel =>
    if 0 <? size then
      if ncap >=? size then
        let! cur := gets m_cur in
        let! out := peek cur npos size in
        let! csz := cur_size in
        (if csz =? u64 (npos + size) then advance else ret tt) ;;
        add_position size ;;
        let! rest := read_loop fuel npos ncap 0 in
        ret (out ++ rest)
      else
        let! cur := gets m_cur in
        let! out := peek cur npos ncap in
        add_position ncap ;;
        advance ;;
        let! ncap' := cur_size in
        let! rest := read_loop fuel 0 ncap' (u64 (size - ncap)) in
        ret (out ++ rest)
    else ret []
  end.

(** The result is what [buf] holds after the call. *)
(* SRC sylar/bytearray.cpp:393-420 ByteArray::read *)
Definition read (size : Z) : M ByteArray (list cell) :=
  let! rs := gets getReadSize in
  if size >? rs then throw out_of_range else
  let! pos := gets m_position in
  let! npos := mod_base pos in
  let! csz := cur_size in
  let ncap := u64 (csz - npos) in
  read_loop (S (Z.to_nat size)) npos ncap size.

(* SRC sylar/bytearray.cpp:431-449 ByteArray::read *)
Fixpoint read_at_loop (fuel : nat) (cur : option nat) (npos ncap size : Z) : M ByteArray (list cell) :=
  match fuel with
  | O => fail_with OutOfFuel
  | S fuel =>
    if 0 <? size then
      if ncap >=? size then
        let! out := peek cur npos size in
        let! csz := size_at cur in
        let! cur' := (if csz =? u64 (npos + size)
                      then let! c := gets m_cur in next_at c else ret cur) in
        let! rest := read_at_loop fuel cur' npos ncap 0 in
        ret (out ++ rest)
      else
        let! out := peek cur npos ncap in
        let! cur' := next_at cur in
        let! ncap' := size_at cur' in
        let! rest := read_at_loop fuel cur' 0 ncap' (u64 (size - ncap)) in
        ret (out ++ rest)
    else ret []
  end.

(* SRC sylar/bytearray.cpp:422-450 ByteArray::read *)
Definition read_at (size position : Z) : M ByteArray (list cell) :=
  let! rs := gets getReadSize in
  if size >? rs then throw out_of_range else
  let! npos := mod_base position in
  let! csz := cur_size in
  let ncap := u64 (csz - npos) in
  let! cur := gets m_cur in
  read_at_loop (S (Z.to_nat size)) cur npos ncap size.

(* SRC sylar/bytearray.cpp:461-464 ByteArray::setPosition *)
Fixpoint setPosition_loop (fuel : nat) (v : Z) : M ByteArray Z :=
  match fuel with
  | O => fail_with OutOfFuel
  | S fuel =>
    let! csz := cur_size in
    if v >? csz then
      let! csz' := cur_size in
      advance ;;
      setPosition_loop fuel (u64 (v - csz'))
    else ret v
  end.

(* SRC sylar/bytearray.cpp:452-468 ByteArray::setPosition *)
Definition setPosition (v : Z) : M ByteArray unit :=
  let! cap := gets m_capacity in
  if v >? cap then throw out_of_range else
  modify (with_position v) ;;
  modify (fun s => if m_position s >? m_size s then with_size (m_position s) s else s) ;;
  modify (with_cur (Some 0%nat)) ;;
  let! fuel := gets (fun s => S (length (m_root s))) in
  let! v' := setPosition_loop fuel v in
  let! csz := cur_size in
  if v' =? csz then advance else ret tt.

(* SRC sylar/bytearray.cpp:543-551 ByteArray::toString *)
Definition toString : M ByteArray (list cell) :=
  let! n := gets getReadSize in
  if n =? 0 then ret [] else
  let! pos := gets m_position in read_at n pos.

(** ** Abstraction: a byte string with a cursor *)

Definition blocks (nodes : list Node) : list cell := concat (map ptr nodes).
(** All the memory of the buffer, and its first [m_size] bytes. *)
Definition flat (s : ByteArray) : list cell := blocks (m_root s).
Definition content (s : ByteArray) : list cell := take (Z.to_nat (m_size s)) (flat s).
Definition cursor (s : ByteArray) : nat := Z.to_nat (m_position s).

(** The node a position lies in; [nullptr] at the end of the capacity. *)
Definition cur_of (s : ByteArray) (p : Z) : option nat :=
  let i := Z.to_nat (p / m_baseSize s) in
  if (i <? length (m_root s))%nat then Some i else None.
Definition seek (p : Z) (s : ByteArray) : ByteArray := with_cur (cur_of s p) (with_position p s).

(** Sizes stay below 2^53 bytes (8 PiB). *)
Definition max_bytes : Z := 2 ^ 53.

Definition node_ok (b : Z) (n : Node) : Prop :=
  Z.of_nat (length (ptr n)) = b /\ size n = b.

Record wf_mem (s : ByteArray) : Prop := {
  wf_base : 0 < m_baseSize s < max_bytes;
  wf_nodes : Forall (node_ok (m_baseSize s)) (m_root s);
  wf_cap : m_capacity s = m_baseSize s * Z.of_nat (length (m_root s));
  wf_cap_lt : m_baseSize s <= m_capacity s < max_bytes
}.
Record wf (s : ByteArray) : Prop := {
  wf_is_mem : wf_mem s;
  wf_pos : 0 <= m_position s <= m_size s;
  wf_size : m_size s <= m_capacity s;
  wf_cur : m_cur s = cur_of s (m_position s);
  wf_endian : m_endian s = SYLAR_LITTLE_ENDIAN \/ m_endian s = SYLAR_BIG_ENDIAN
}.

Section Blocks.
Context (b : nat).
Implicit Types nodes : list Node.

Definition all_b nodes : Prop := Forall (fun n => length (ptr n) = b) nodes.

Lemma length_blocks nodes : all_b nodes -> length (blocks nodes) = (length nodes * b)%nat.
Proof.
  unfold blocks. induction 1 as [|n nodes Hn _ IH]; simpl; [done|].
  rewrite length_app. lia.
Qed.

Lemma blocks_app n1 n2 : blocks (n1 ++ n2) = blocks n1 ++ blocks n2.
Proof. unfold blocks. by rewrite map_app, concat_app. Qed.

Lemma blocks_middle nodes i nd : all_b nodes -> nodes !! i = Some nd ->
  exists l r, length l = (i * b)%nat /\ length (ptr nd) = b
    /\ blocks nodes = l ++ ptr nd ++ r
    /\ forall nd', blocks (<[i := nd']> nodes) = l ++ ptr nd' ++ r.
Proof.
  intros Hb Hi. pose proof (lookup_lt_Some _ _ _ Hi) as Hlt.
  exists (blocks (take i nodes)), (blocks (drop (S i) nodes)). split_and!.
  - rewrite length_blocks by (by apply Forall_take). rewrite length_take. f_equal. lia.
  - by apply (Forall_lookup_1 _ _ _ _ Hb Hi).
  - rewrite <- (take_drop_middle nodes i nd Hi) at 1. by rewrite blocks_app.
  - intros nd'. rewrite insert_take_drop by done. by rewrite blocks_app.
Qed.

Lemma slice_blocks nodes i nd k n : all_b nodes -> nodes !! i = Some nd ->
  (k + n <= b)%nat -> slice (blocks nodes) (i * b + k) n = slice (ptr nd) k n.
Proof.
  intros Hb Hi Hk. destruct (blocks_middle _ _ _ Hb Hi) as (l & r & Hl & Hn & -> & _).
  unfold slice. rewrite <- Hl, drop_app_add, drop_app_le by lia.
  rewrite take_app_le; [done|]. rewrite length_drop. lia.
Qed.

Lemma splice_blocks nodes i nd k bs sz : all_b nodes -> nodes !! i = Some nd ->
  (k + length bs <= b)%nat ->
  blocks (<[i := mkNode (splice (ptr nd) k bs) sz]> nodes) = splice (blocks nodes) (i * b + k) bs.
Proof.
  intros Hb Hi Hk. destruct (blocks_middle _ _ _ Hb Hi) as (l & r & Hl & Hn & -> & ->).
  rewrite <- Hl, splice_app_r, splice_app_l by lia. done.
Qed.
End Blocks.

Section MemFacts.
Context (s : ByteArray) (Hwf : wf_mem s).
Let b := Z.to_nat (m_baseSize s).

Lemma base_nat : Z.of_nat (Z.to_nat (m_baseSize s)) = m_baseSize s.
Proof. pose proof (wf_base _ Hwf). lia. Qed.

Lemma nodes_all_b : all_b b (m_root s).
Proof.
  eapply Forall_impl; [|apply (wf_nodes s Hwf)].
  intros n [Hn _]. unfold b. lia.
Qed.

Lemma length_flat : Z.of_nat (length (flat s)) = m_capacity s.
Proof.
  unfold flat. rewrite (length_blocks b) by apply nodes_all_b.
  rewrite (wf_cap _ Hwf), Nat2Z.inj_mul. unfold b. rewrite base_nat. lia.
Qed.

Lemma node_at_ok i : (i < length (m_root s))%nat ->
  exists nd, m_root s !! i = Some nd /\ node_at (Some i) s = Ret (i, nd) s
    /\ node_ok (m_baseSize s) nd.
Proof.
  intros Hi. destruct (lookup_lt_is_Some_2 _ _ Hi) as [nd Hnd].
  exists nd. unfold node_at. rewrite Hnd. split_and!; [done..|].
  apply (Forall_lookup_1 _ _ _ _ (wf_nodes _ Hwf) Hnd).
Qed.

Lemma size_at_ok i : (i < length (m_root s))%nat -> size_at (Some i) s = Ret (m_baseSize s) s.
Proof.
  intros Hi. destruct (node_at_ok i Hi) as (nd & _ & H & _ & Hsz).
  unfold size_at, bind. rewrite H. unfold ret. simpl. by rewrite Hsz.
Qed.

Lemma next_at_ok i : (i < length (m_root s))%nat -> next_at (Some i) s = Ret (next s i) s.
Proof.
  intros Hi. destruct (node_at_ok i Hi) as (nd & _ & H & _).
  unfold next_at, bind. by rewrite H.
Qed.

Lemma cur_size_ok i : m_cur s = Some i -> (i < length (m_root s))%nat ->
  cur_size s = Ret (m_baseSize s) s.
Proof. intros E Hi. unfold cur_size, bind, gets. rewrite E. by apply size_at_ok. Qed.

Lemma advance_ok i : m_cur s = Some i -> (i < length (m_root s))%nat ->
  advance s = Ret tt (with_cur (next s i) s).
Proof. intros E Hi. unfold advance, bind, gets. rewrite E, next_at_ok by done. done. Qed.

Lemma mod_base_ok a : mod_base a s = Ret (a mod m_baseSize s) s.
Proof.
  unfold mod_base. pose proof (wf_base _ Hwf). case_match eqn:E; [lia|done].
Qed.

Lemma copy_from_ok (l : list cell) off n :
  0 <= off -> 0 <= n -> off + n <= Z.of_nat (length l) ->
  copy_from l off n s = Ret (slice l (Z.to_nat off) (Z.to_nat n)) s.
Proof. intros. unfold copy_from. by rewrite bool_decide_true. Qed.

Lemma peek_ok i off n : (i < length (m_root s))%nat ->
  0 <= off -> 0 <= n -> off + n <= m_baseSize s ->
  peek (Some i) off n s =
    Ret (slice (flat s) (Z.to_nat (Z.of_nat i * m_baseSize s + off)) (Z.to_nat n)) s.
Proof.
  intros Hi Ho Hn Hle. destruct (node_at_ok i Hi) as (nd & Hnd & H & Hl & _).
  unfold peek, bind. rewrite H. simpl. rewrite copy_from_ok by lia. f_equal.
  unfold flat. rewrite <- (slice_blocks b (m_root s) i) by
    (done || apply nodes_all_b || (unfold b; lia)).
  f_equal. unfold b. nia.
Qed.

Lemma poke_ok i off bs : (i < length (m_root s))%nat ->
  0 <= off -> off + Z.of_nat (length bs) <= m_baseSize s ->
  exists r, poke (Some i) off bs s = Ret tt (with_root r s)
    /\ blocks r = splice (flat s) (Z.to_nat (Z.of_nat i * m_baseSize s + off)) bs
    /\ length r = length (m_root s) /\ Forall (node_ok (m_baseSize s)) r.
Proof.
  intros Hi Ho Hle. destruct (node_at_ok i Hi) as (nd & Hnd & H & Hl & Hsz).
  eexists. unfold poke, bind. rewrite H. rewrite bool_decide_true by lia.
  split; [done|]. split_and!.
  - rewrite (splice_blocks b) by (done || apply nodes_all_b || (unfold b; lia)).
    unfold flat. f_equal. unfold b. nia.
  - apply length_insert.
  - apply Forall_insert; [apply (wf_nodes _ Hwf)|]. split; simpl; [|done].
    rewrite length_splice; lia.
Qed.
End MemFacts.

(** ** The loops *)

Lemma u64_id z : 0 <= z < 2 ^ 64 -> u64 z = z.
Proof. apply wrapu_small. Qed.

Lemma cur_of_end s i p : wf_mem s -> (i < length (m_root s))%nat ->
  p = (Z.of_nat i + 1) * m_baseSize s -> cur_of s p = next s i.
Proof.
  intros Hwf Hi ->. pose proof (wf_base _ Hwf). unfold cur_of, next.
  rewrite Z.div_mul by lia. replace (Z.to_nat (Z.of_nat i + 1)) with (S i) by lia. done.
Qed.

Lemma cur_of_inside s i o p : wf_mem s -> (i < length (m_root s))%nat ->
  p = Z.of_nat i * m_baseSize s + o -> 0 <= o < m_baseSize s -> cur_of s p = Some i.
Proof.
  intros Hwf Hi -> Ho. unfold cur_of.
  rewrite Z.div_add_l, Z.div_small, Z.add_0_r, Nat2Z.id by lia.
  by rewrite (proj2 (Nat.ltb_lt _ _)).
Qed.

Lemma cur_of_bounds s p : wf_mem s -> 0 <= p < m_capacity s ->
  exists i, cur_of s p = Some i /\ (i < length (m_root s))%nat
    /\ p = Z.of_nat i * m_baseSize s + p mod m_baseSize s
    /\ 0 <= p mod m_baseSize s < m_baseSize s.
Proof.
  intros Hwf Hp. pose proof (wf_base _ Hwf). pose proof (wf_cap _ Hwf).
  assert (0 <= p / m_baseSize s) by (apply Z.div_pos; lia).
  assert (p / m_baseSize s < Z.of_nat (length (m_root s))) by (apply Z.div_lt_upper_bound; lia).
  exists (Z.to_nat (p / m_baseSize s)). unfold cur_of.
  rewrite (proj2 (Nat.ltb_lt _ _)) by lia. split_and!; [done|lia| |apply Z.mod_pos_bound; lia|
    apply Z.mod_pos_bound; lia].
  rewrite Z2Nat.id by lia. rewrite Z.mul_comm. apply Z.div_mod. lia.
Qed.

Lemma wf_mem_with_cur c s : wf_mem s -> wf_mem (with_cur c s).
Proof. by intros []. Qed.
Lemma wf_mem_with_position p s : wf_mem s -> wf_mem (with_position p s).
Proof. by intros []. Qed.
Lemma wf_mem_with_root r s : length r = length (m_root s) ->
  Forall (node_ok (m_baseSize s)) r -> wf_mem s -> wf_mem (with_root r s).
Proof. intros Hl Hr []. split; simpl; try done. by rewrite Hl. Qed.
#[export] Hint Resolve wf_mem_with_cur wf_mem_with_position wf_mem_with_root : sylar.

Lemma seek_eta s : m_cur s = cur_of s (m_position s) -> seek (m_position s) s = s.
Proof. destruct s; unfold seek; simpl. by intros <-. Qed.

(** The pointer update after consuming exactly up to offset [npos + n] of node [i],
    in front of any continuation. *)
Lemma finish_block {A} (k : M ByteArray A) s i npos n : wf_mem s ->
  m_cur s = Some i -> (i < length (m_root s))%nat ->
  m_position s = Z.of_nat i * m_baseSize s + npos -> 0 <= npos -> 0 < n ->
  npos + n <= m_baseSize s -> m_position s + n < 2 ^ 64 ->
  (let! csz := cur_size in
   (if csz =? u64 (npos + n) then advance else ret tt) ;; add_position n ;; k) s
  = k (seek (m_position s + n) s).
Proof.
  intros Hwf Hc Hi Hp Hn0 Hn Hle Hlt. pose proof (wf_base _ Hwf) as Hb.
  unfold max_bytes in Hb. erewrite bind_Ret by (by eapply cur_size_ok).
  rewrite (u64_id (npos + n)) by lia. unfold add_position.
  destruct (Z.eqb_spec (m_baseSize s) (npos + n)).
  - erewrite bind_Ret by (by eapply advance_ok). unfold bind, modify. simpl.
    rewrite u64_id by nia. f_equal. unfold seek.
    rewrite (cur_of_end s i) by (done || nia). by destruct s.
  - unfold bind, ret, modify. rewrite u64_id by nia. f_equal. unfold seek.
    rewrite (cur_of_inside s i (npos + n)) by (done || lia). rewrite <- Hc. by destruct s.
Qed.

(** Moving to the start of the next node, in front of any continuation. *)
Lemma next_block {A} (k : Z -> M ByteArray A) s i n : wf_mem s ->
  m_cur s = Some i -> (S i < length (m_root s))%nat -> 0 <= m_position s -> 0 <= n ->
  m_position s + n < 2 ^ 64 ->
  (add_position n ;; advance ;; let! c := cur_size in k c) s
  = k (m_baseSize s) (with_cur (Some (S i)) (with_position (m_position s + n) s)).
Proof.
  intros Hwf Hc Hi Hp Hn Hlt. unfold add_position.
  rewrite bind_Ret with (a := tt) (s' := with_position (m_position s + n) s).
  2:{ unfold modify. by rewrite u64_id by lia. }
  assert (wf_mem (with_position (m_position s + n) s)) as Hwf' by auto with sylar.
  erewrite bind_Ret by (apply (advance_ok _ Hwf' i); [done|simpl; lia]).
  assert (next (with_position (m_position s + n) s) i = Some (S i)) as ->.
  { unfold next. simpl. by rewrite (proj2 (Nat.ltb_lt _ _)). }
  erewrite bind_Ret by (eapply (cur_size_ok _ (wf_mem_with_cur _ _ Hwf')); [done|simpl; lia]).
  done.
Qed.

Lemma read_loop_ok fuel : forall s i npos size, wf_mem s ->
  m_cur s = Some i -> (i < length (m_root s))%nat ->
  m_position s = Z.of_nat i * m_baseSize s + npos -> 0 <= npos < m_baseSize s ->
  0 < size -> m_position s + size <= m_capacity s -> size < Z.of_nat fuel ->
  read_loop fuel npos (m_baseSize s - npos) size s =
    Ret (slice (flat s) (Z.to_nat (m_position s)) (Z.to_nat size)) (seek (m_position s + size) s).
Proof.
  induction fuel as [|fuel IH]; intros s i npos size Hwf Hc Hi Hp Hn Hs Hcap Hf; [lia|].
  pose proof (wf_base _ Hwf) as Hb. pose proof (wf_cap _ Hwf) as Hce.
  pose proof (wf_cap_lt _ Hwf) as Hlt. unfold max_bytes in *.
  simpl read_loop. rewrite (proj2 (Z.ltb_lt _ _)) by lia.
  destruct (Z.geb_spec (m_baseSize s - npos) size) as [Hge|Hge].
  - rewrite bind_Ret with (a := Some i) (s' := s) by (by rewrite <- Hc).
    erewrite bind_Ret by (apply peek_ok; done || lia).
    erewrite finish_block by (done || lia).
    destruct fuel; [lia|]. unfold bind. simpl. unfold ret. rewrite app_nil_r.
    by rewrite <- Hp.
  - rewrite bind_Ret with (a := Some i) (s' := s) by (by rewrite <- Hc).
    erewrite bind_Ret by (apply peek_ok; done || lia).
    assert (S i < length (m_root s))%nat by nia.
    erewrite next_block by (done || lia).
    rewrite u64_id by lia. unfold bind.
    replace (m_baseSize s) with (m_baseSize s - 0) at 1 by lia.
    pose proof (IH (with_cur (Some (S i)) (with_position (m_position s + (m_baseSize s - npos)) s))
      (S i) 0 (size - (m_baseSize s - npos))) as IH'. simpl in IH'.
    rewrite IH' by (auto with sylar || nia). unfold ret. f_equal.
    + rewrite <- Hp. replace (Z.to_nat size) with
        (Z.to_nat (m_baseSize s - npos) + Z.to_nat (size - (m_baseSize s - npos)))%nat by lia.
      rewrite slice_app. do 2 f_equal. lia.
    + unfold seek, cur_of. simpl. by replace (m_position s + (m_baseSize s - npos) +
        (size - (m_baseSize s - npos))) with (m_position s + size) by lia.
Qed.

Lemma write_loop_ok fuel : forall s buf i npos bpos size, wf_mem s ->
  m_cur s = Some i -> (i < length (m_root s))%nat ->
  m_position s = Z.of_nat i * m_baseSize s + npos -> 0 <= npos < m_baseSize s ->
  0 < size -> m_position s + size <= m_capacity s -> size < Z.of_nat fuel ->
  0 <= bpos -> bpos + size <= Z.of_nat (length buf) -> bpos + size < 2 ^ 64 ->
  exists r, write_loop fuel buf npos (m_baseSize s - npos) bpos size s =
      Ret tt (seek (m_position s + size) (with_root r s))
    /\ blocks r = splice (flat s) (Z.to_nat (m_position s)) (slice buf (Z.to_nat bpos) (Z.to_nat size))
    /\ length r = length (m_root s) /\ Forall (node_ok (m_baseSize s)) r.
Proof.
  induction fuel as [|fuel IH]; intros s buf i npos bpos size Hwf Hc Hi Hp Hn Hs Hcap Hf Hbp Hbl Hb64;
    [lia|].
  pose proof (wf_base _ Hwf) as Hb. pose proof (wf_cap _ Hwf) as Hce.
  pose proof (wf_cap_lt _ Hwf) as Hlt. unfold max_bytes in *.
  pose proof (length_flat s Hwf) as Hfl.
  simpl write_loop. rewrite (proj2 (Z.ltb_lt _ _)) by lia.
  destruct (Z.geb_spec (m_baseSize s - npos) size) as [Hge|Hge];
    erewrite bind_Ret by (apply copy_from_ok; done || lia);
    (rewrite bind_Ret with (a := Some i) (s' := s) by (by rewrite <- Hc)).
  - destruct (poke_ok s Hwf i npos (slice buf (Z.to_nat bpos) (Z.to_nat size)))
      as (r & Hr & Hbr & Hlr & Hnr); [done|lia|rewrite length_slice; lia|].
    erewrite bind_Ret by done.
    assert (wf_mem (with_root r s)) as Hwf' by auto with sylar.
    erewrite (finish_block _ (with_root r s)) by (simpl; rewrite ?Hlr; done || lia).
    destruct fuel; [lia|]. exists r. split_and!; try done. by rewrite Hbr, Hp.
  - destruct (poke_ok s Hwf i npos (slice buf (Z.to_nat bpos) (Z.to_nat (m_baseSize s - npos))))
      as (r & Hr & Hbr & Hlr & Hnr); [done|lia|rewrite length_slice; lia|].
    erewrite bind_Ret by done.
    assert (wf_mem (with_root r s)) as Hwf' by auto with sylar.
    assert (S i < length (m_root s))%nat by nia.
    erewrite (next_block _ (with_root r s)) by (simpl; rewrite ?Hlr; done || lia).
    rewrite !u64_id by lia.
    set (d := m_baseSize s - npos) in *.
    set (s1 := with_cur (Some (S i)) (with_position (m_position (with_root r s) + d) (with_root r s))).
    assert (wf_mem s1) as Hwf1 by (unfold s1; auto with sylar).
    assert (m_position s1 = Z.of_nat (S i) * m_baseSize s1 + 0) as Hp1 by (simpl; lia).
    destruct (IH s1 buf (S i) 0 (bpos + d) (size - d)) as (r' & Hr' & Hbr' & Hlr' & Hnr');
      [done|done|simpl; lia|done|simpl; lia..|lia|lia|lia|].
    exists r'. replace (m_baseSize (with_root r s)) with (m_baseSize s1 - 0) by (simpl; lia).
    rewrite Hr'. split_and!.
    + f_equal. unfold seek, cur_of. simpl. rewrite Hlr'. simpl. rewrite Hlr.
      by replace (m_position s + d + (size - d)) with (m_position s + size) by lia.
    + rewrite Hbr'. unfold flat at 1. simpl. rewrite Hbr, <- Hp.
      replace (Z.to_nat (m_position s + d)) with (Z.to_nat (m_position s) +
        length (slice buf (Z.to_nat bpos) (Z.to_nat d)))%nat by (rewrite length_slice; lia).
      rewrite splice_splice by lia.
      replace (Z.to_nat size) with (Z.to_nat d + Z.to_nat (size - d))%nat by lia.
      rewrite slice_app. do 3 f_equal. lia.
    + by rewrite Hlr'.
    + done.
Qed.

(** ** Capacity *)

Lemma ceil_div_spec a b : 0 < a -> 0 < b -> 0 < ceil_div a b
  /\ a <= ceil_div a b * b < a + b.
Proof.
  intros. unfold ceil_div. pose proof (Z.div_mod (a + b - 1) b).
  pose proof (Z.mod_pos_bound (a + b - 1) b).
  assert (0 < (a + b - 1) / b) by (apply Z.div_str_pos; lia). lia.
Qed.

Lemma node_ok_new b : 0 <= b -> node_ok b (new_Node b).
Proof. intros. split; [|done]. simpl. rewrite length_replicate. lia. Qed.

Lemma blocks_replicate k b :
  blocks (replicate k (new_Node b)) = replicate (k * Z.to_nat b) None.
Proof.
  unfold blocks. induction k as [|k IH]; simpl; [done|]. by rewrite IH, replicate_add.
Qed.

(** After reserving [n] bytes from the cursor the memory has only grown, by
    whole blocks of indeterminate bytes, and the cursor's node is in place. *)
Lemma addCapacity_ok s n : wf s -> 0 <= n -> m_position s + n + m_baseSize s < max_bytes ->
  exists s' k, addCapacity n s = Ret tt s' /\ wf s'
    /\ flat s' = flat s ++ replicate k None
    /\ m_position s' = m_position s /\ m_size s' = m_size s
    /\ m_baseSize s' = m_baseSize s /\ m_endian s' = m_endian s
    /\ m_position s + n <= m_capacity s' /\ m_capacity s <= m_capacity s'
    /\ (m_position s + n <= m_capacity s -> m_capacity s' = m_capacity s).
Proof.
  intros Hwf Hn Hmax. destruct (Hwf) as [Hm Hpos Hsz Hcur Hend].
  destruct (Hm) as [Hb Hnodes Hcap Hcl]. unfold max_bytes in *.
  assert (flat s = flat s ++ replicate 0 None) as Hfl by (simpl; by rewrite app_nil_r).
  unfold addCapacity. destruct (Z.eqb_spec n 0) as [->|Hn0].
  { exists s, 0%nat. split_and!; (done || lia). }
  erewrite bind_Ret by done. unfold getCapacity. rewrite u64_id by lia.
  destruct (Z.geb_spec (m_capacity s - m_position s) n).
  { exists s, 0%nat. split_and!; (done || lia). }
  unfold bind, gets, modify. rewrite u64_id by lia.
  destruct (Z.eqb_spec (m_baseSize s) 0); [lia|].
  set (d := n - (m_capacity s - m_position s)).
  destruct (ceil_div_spec d (m_baseSize s)) as [Hc0 Hc]; [lia..|].
  set (c := ceil_div d (m_baseSize s)) in *.
  rewrite (proj2 (Z.ltb_lt _ _)) by lia. simpl. rewrite u64_id by lia.
  set (r := m_root s ++ replicate (Z.to_nat c) (new_Node (m_baseSize s))).
  assert (length r = length (m_root s) + Z.to_nat c)%nat as Hlr
    by (unfold r; by rewrite length_app, length_replicate).
  assert (blocks r = flat s ++ replicate (Z.to_nat c * Z.to_nat (m_baseSize s)) None) as Hbr.
  { unfold r. rewrite blocks_app, blocks_replicate. done. }
  set (s1 := with_cur (cur_of (with_root r s) (m_position s))
    (with_capacity (m_capacity s + c * m_baseSize s) (with_root r s))).
  assert (wf_mem s1) as Hm1.
  { split; simpl; [done| |rewrite Hlr; nia|unfold max_bytes; lia].
    apply Forall_app_2; [done|]. apply Forall_replicate, node_ok_new. lia. }
  exists s1, (Z.to_nat c * Z.to_nat (m_baseSize s))%nat.
  split_and!; try (done || (simpl; lia)).
  - destruct (Z.eqb_spec (m_capacity s - m_position s) 0) as [Hz|Hz].
    + f_equal. unfold s1, with_cur. simpl. f_equal.
      unfold cur_of. simpl. assert (m_position s / m_baseSize s = Z.of_nat (length (m_root s))) as ->.
      { replace (m_position s) with (m_capacity s) by lia. rewrite Hcap, Z.mul_comm.
        by apply Z.div_mul. }
      rewrite Nat2Z.id, (proj2 (Nat.ltb_lt _ _)) by lia. done.
    + f_equal. unfold s1, with_cur, with_capacity, with_root. simpl. f_equal. rewrite Hcur.
      destruct (cur_of_bounds s (m_position s) Hm) as (i & Hi & Hil & Hpi & Hmod); [lia|].
      rewrite Hi. symmetry. unfold cur_of in *. simpl. revert Hi. case_match; [|done].
      intros [=]. rewrite (proj2 (Nat.ltb_lt _ _)) by lia. by f_equal.
  - split; simpl; (done || lia).
Qed.

(** ** Refinement of the operations *)

Lemma getReadSize_ok s : wf s -> getReadSize s = m_size s - m_position s.
Proof.
  intros [[_ _ _ Hc] Hp Hs _ _]. unfold getReadSize, max_bytes in *. apply u64_id. lia.
Qed.

Lemma length_content s : wf s -> Z.of_nat (length (content s)) = m_size s.
Proof.
  intros [Hm Hp Hs _ _]. unfold content. rewrite length_take.
  pose proof (length_flat s Hm). lia.
Qed.

Lemma slice_content s n : wf s -> 0 <= n -> m_position s + n <= m_size s ->
  slice (flat s) (Z.to_nat (m_position s)) (Z.to_nat n) = slice (content s) (cursor s) (Z.to_nat n).
Proof.
  intros Hwf Hn Hle. pose proof (wf_pos _ Hwf). unfold content, cursor.
  by rewrite slice_take by lia.
Qed.

Lemma wf_seek s p : wf s -> 0 <= p <= m_size s -> wf (seek p s).
Proof. intros [[] ? ? ? ?] ?. split; simpl; try done; lia. Qed.

Lemma content_seek s p : content (seek p s) = content s.
Proof. done. Qed.

Lemma take_splice {A} (l : list A) n k bs : (k <= n)%nat -> (n <= length l)%nat ->
  (k + length bs <= length l)%nat ->
  take (Nat.max n (k + length bs)) (splice l k bs) = splice (take n l) k bs.
Proof.
  intros Hk Hn Hb. unfold splice. rewrite take_take, Nat.min_l by lia.
  rewrite !app_assoc. assert (length (take k l ++ bs) = (k + length bs)%nat) as E
    by (rewrite length_app, length_take; lia).
  rewrite take_app, E. rewrite take_ge by lia. f_equal.
  rewrite skipn_firstn_comm. f_equal. lia.
Qed.

(** [write] is an in-place overwrite at the cursor that extends the content. *)
Lemma write_ok s buf n : wf s -> 0 <= n <= Z.of_nat (length buf) ->
  m_position s + n + m_baseSize s < max_bytes ->
  exists s', write buf n s = Ret tt s' /\ wf s'
    /\ content s' = splice (content s) (cursor s) (take (Z.to_nat n) buf)
    /\ m_position s' = m_position s + n
    /\ m_size s' = Z.max (m_size s) (m_position s + n)
    /\ m_baseSize s' = m_baseSize s /\ m_endian s' = m_endian s
    /\ m_capacity s <= m_capacity s'
    /\ (m_position s + n <= m_capacity s -> m_capacity s' = m_capacity s).
Proof.
  intros Hwf Hn Hmax. pose proof (wf_pos _ Hwf) as Hps. pose proof (wf_size _ Hwf).
  unfold write. destruct (Z.eqb_spec n 0) as [->|Hn0].
  { exists s. split_and!; try (done || lia). change (take (Z.to_nat 0) buf) with (@nil cell). by rewrite splice_nil. }
  destruct (addCapacity_ok s n Hwf) as (s1 & k & Ha & Hwf1 & Hfl & Hpos1 & Hsz1 & Hb1 & He1 & Hc1 & Hc1' & Hc1'');
    [lia..|].
  erewrite bind_Ret by done. rewrite bind_Ret with (a := m_position s) (s' := s1) by (by rewrite <- Hpos1).
  destruct (Hwf1) as [Hm1 Hp1 Hs1 Hcur1 Hend1].
  pose proof (wf_base _ Hm1) as Hb. pose proof (wf_cap_lt _ Hm1) as Hlt. unfold max_bytes in *.
  destruct (cur_of_bounds s1 (m_position s1) Hm1) as (i & Hi & Hil & Hpi & Hmod); [lia|].
  erewrite bind_Ret by (by apply mod_base_ok).
  erewrite bind_Ret by (apply (cur_size_ok _ Hm1 i); [congruence|done]). cbv zeta.
  rewrite <- Hpos1. rewrite u64_id by lia.
  destruct (write_loop_ok (S (Z.to_nat n)) s1 buf i (m_position s1 mod m_baseSize s1) 0 n)
    as (r & Hr & Hbr & Hlr & Hnr); try (done || congruence || lia).
  erewrite bind_Ret by done. unfold modify.
  set (s2 := seek (m_position s1 + n) (with_root r s1)).
  exists (with_size (Z.max (m_size s) (m_position s1 + n)) s2).
  assert (wf_mem s2) as Hm2 by (apply wf_mem_with_cur, wf_mem_with_position, wf_mem_with_root; done).
  split_and!; try (done || simpl; lia).
  - f_equal. simpl. destruct (Z.gtb_spec (m_position s1 + n) (m_size s1)).
    + by rewrite Z.max_r by lia.
    + rewrite Z.max_l, <- Hsz1 by lia. done.
  - split; simpl; try (done || lia). by destruct Hm2.
  - unfold content, cursor. change (flat (with_size _ s2)) with (blocks r). simpl.
    rewrite Hbr. unfold slice. change (Z.to_nat 0) with 0%nat. rewrite drop_0.
    set (bs := take (Z.to_nat n) buf).
    assert (length bs = Z.to_nat n) by (unfold bs; rewrite length_take; lia).
    pose proof (length_flat _ Hm1). pose proof (length_flat _ (wf_is_mem _ Hwf)).
    replace (Z.to_nat (Z.max (m_size s) (m_position s1 + n))) with
      (Nat.max (Z.to_nat (m_size s)) (Z.to_nat (m_position s1) + length bs)) by lia.
    rewrite take_splice by lia. rewrite Hpos1, Hfl, take_app_le by lia. done.
Qed.

Lemma read_ok s n : wf s -> 0 <= n -> m_position s + n <= m_size s ->
  0 < n \/ m_position s < m_capacity s ->
  read n s = Ret (slice (content s) (cursor s) (Z.to_nat n)) (seek (m_position s + n) s)
  /\ wf (seek (m_position s + n) s).
Proof.
  intros Hwf Hn Hle Hne. destruct (Hwf) as [Hm Hp Hs Hcur Hend].
  split; [|apply wf_seek; [done|lia]]. rewrite <- slice_content by done.
  unfold read. rewrite bind_Ret with (a := m_size s - m_position s) (s' := s)
    by (unfold gets; by rewrite getReadSize_ok).
  destruct (Z.gtb_spec n (m_size s - m_position s)); [lia|].
  erewrite bind_Ret by done. erewrite bind_Ret by (by apply mod_base_ok).
  pose proof (wf_base _ Hm) as Hb. pose proof (wf_cap_lt _ Hm) as Hlt. unfold max_bytes in *.
  destruct (cur_of_bounds s (m_position s) Hm) as (i & Hi & Hil & Hpi & Hmod); [lia|].
  erewrite bind_Ret by (apply (cur_size_ok _ Hm i); [congruence|done]). cbv zeta.
  rewrite u64_id by lia. destruct (Z.eqb_spec n 0) as [->|Hn0].
  - rewrite Z.add_0_r, seek_eta by done. done.
  - apply (read_loop_ok _ _ i); try (done || congruence || lia).
Qed.

(** The two ways [read] does not deliver. *)
Lemma read_throws s n : wf s -> m_size s < m_position s + n -> read n s = Exn out_of_range s.
Proof.
  intros Hwf Hn. unfold read. rewrite bind_Ret with (a := m_size s - m_position s) (s' := s)
    by (unfold gets; by rewrite getReadSize_ok).
  destruct (Z.gtb_spec n (m_size s - m_position s)); [done|lia].
Qed.

Lemma read_empty_at_end s : wf s -> m_position s = m_capacity s -> read 0 s = UB NullDeref.
Proof.
  intros Hwf Hp. destruct (Hwf) as [Hm Hps Hs Hcur _]. unfold read.
  rewrite bind_Ret with (a := m_size s - m_position s) (s' := s)
    by (unfold gets; by rewrite getReadSize_ok).
  destruct (Z.gtb_spec 0 (m_size s - m_position s)); [lia|].
  erewrite bind_Ret by done. erewrite bind_Ret by (by apply mod_base_ok).
  pose proof (wf_base _ Hm). apply bind_UB. unfold cur_size, bind, gets. rewrite Hcur.
  unfold cur_of. rewrite Hp, (wf_cap _ Hm), Z.mul_comm, Z.div_mul, Nat2Z.id, Nat.ltb_irrefl by lia.
  done.
Qed.

Lemma setPosition_loop_ok fuel : forall s i v, wf_mem s -> m_cur s = Some i ->
  (i < length (m_root s))%nat -> 0 <= v ->
  Z.of_nat i * m_baseSize s + v <= m_capacity s -> (length (m_root s) < fuel + i)%nat ->
  exists j v', setPosition_loop fuel v s = Ret v' (with_cur (Some j) s)
    /\ Z.of_nat j * m_baseSize s + v' = Z.of_nat i * m_baseSize s + v
    /\ 0 <= v' <= m_baseSize s /\ (j < length (m_root s))%nat.
Proof.
  induction fuel as [|fuel IH]; intros s i v Hm Hc Hi Hv Hcap Hf; [lia|].
  pose proof (wf_base _ Hm) as Hb. pose proof (wf_cap _ Hm) as Hce.
  pose proof (wf_cap_lt _ Hm) as Hlt. unfold max_bytes in *.
  simpl setPosition_loop. erewrite bind_Ret by (by eapply cur_size_ok).
  destruct (Z.gtb_spec v (m_baseSize s)).
  - erewrite bind_Ret by (by eapply cur_size_ok).
    assert (S i < length (m_root s))%nat by nia.
    erewrite bind_Ret by (by eapply advance_ok).
    assert (next s i = Some (S i)) as ->
      by (unfold next; by rewrite (proj2 (Nat.ltb_lt _ _))).
    rewrite u64_id by lia.
    destruct (IH (with_cur (Some (S i)) s) (S i) (v - m_baseSize s)) as (j & v' & E & H1 & H2 & H3);
      try (auto with sylar || (simpl; lia)).
    exists j, v'. rewrite E. simpl in *. split_and!; try done; lia.
  - exists i, v. split_and!; try done; try lia. unfold ret. f_equal. rewrite <- Hc. by destruct s.
Qed.

(** [setPosition] moves the cursor and extends the content when it passes its end. *)
Lemma setPosition_ok s v : wf s -> 0 <= v <= m_capacity s ->
  setPosition v s = Ret tt (with_size (Z.max (m_size s) v) (seek v s))
  /\ wf (with_size (Z.max (m_size s) v) (seek v s)).
Proof.
  intros Hwf Hv. destruct (Hwf) as [Hm Hp Hs Hcur Hend].
  pose proof (wf_base _ Hm) as Hb. pose proof (wf_cap _ Hm) as Hce.
  pose proof (wf_cap_lt _ Hm) as Hlt. split.
  2:{ split; simpl; try (done || lia). by destruct Hm. }
  unfold setPosition. erewrite bind_Ret by done.
  destruct (Z.gtb_spec v (m_capacity s)); [lia|].
  set (s1 := with_size (Z.max (m_size s) v) (with_position v s)).
  rewrite bind_Ret with (a := tt) (s' := with_position v s) by done.
  rewrite bind_Ret with (a := tt) (s' := s1).
  2:{ unfold modify, s1. simpl. destruct (Z.gtb_spec v (m_size s)); f_equal.
      - by rewrite Z.max_r by lia.
      - rewrite Z.max_l by lia. by destruct s. }
  rewrite bind_Ret with (a := tt) (s' := with_cur (Some 0%nat) s1) by done.
  erewrite bind_Ret by done.
  assert (wf_mem (with_cur (Some 0%nat) s1)) as Hm1 by (apply wf_mem_with_cur; by destruct Hm).
  destruct (setPosition_loop_ok (S (length (m_root s))) (with_cur (Some 0%nat) s1) 0 v)
    as (j & v' & E & H1 & H2 & H3); try (done || (simpl; nia)).
  simpl in E, H1, H2, H3. simpl gets. erewrite bind_Ret by exact E.
  erewrite bind_Ret by (by apply (cur_size_ok _ (wf_mem_with_cur (Some j) _ Hm1) j)).
  change (m_baseSize (with_cur _ _)) with (m_baseSize s).
  destruct (Z.eqb_spec v' (m_baseSize s)).
  - etransitivity; [by apply (advance_ok _ (wf_mem_with_cur (Some j) _ Hm1) j)|].
    f_equal. unfold seek, with_cur, with_size. simpl. f_equal.
    change (next s j = cur_of s v). rewrite (cur_of_end s j) by (done || lia). done.
  - unfold ret. f_equal. unfold seek, with_cur, with_size. simpl. f_equal.
    rewrite (cur_of_inside s j v') by (done || lia). done.
Qed.

Lemma setPosition_throws s v : m_capacity s < v -> setPosition v s = Exn out_of_range s.
Proof.
  intros Hv. unfold setPosition, bind, gets. destruct (Z.gtb_spec v (m_capacity s)); [done|lia].
Qed.

Lemma cur_of_0 s : 0 < m_baseSize s -> m_root s <> [] -> cur_of s 0 = Some 0%nat.
Proof.
  intros Hb Hr. unfold cur_of. rewrite Z.div_0_l by lia. by destruct (m_root s).
Qed.

Lemma new_ByteArray_wf b : 0 < b < max_bytes -> wf (new_ByteArray b).
Proof.
  intros Hb. assert (wf_mem (new_ByteArray b)).
  { split; simpl; [done| |lia|lia]. constructor; [|done]. apply node_ok_new. lia. }
  split; [done|simpl; lia|simpl; lia| |by right].
  symmetry. by apply cur_of_0; [simpl; lia|].
Qed.

Lemma clear_ok s : wf s -> exists s', clear s = Ret tt s' /\ wf s' /\ content s' = []
  /\ m_position s' = 0 /\ m_endian s' = m_endian s /\ m_baseSize s' = m_baseSize s.
Proof.
  intros [[Hb Hn Hc Hl] Hp Hs Hcur He]. eexists. split; [reflexivity|].
  destruct (m_root s) as [|n0 ns] eqn:E; [simpl in Hc; lia|].
  split; [|done]. split; [|simpl; lia|simpl; lia| |done].
  - split; simpl; [done| |lia|lia].
    inversion Hn; subst. constructor; [done|]. rewrite take_0. constructor.
  - symmetry. by apply cur_of_0; [simpl; lia|].
Qed.

(** ** Reachable buffers *)

(** States of a buffer of block size [b] under any sequence of calls, exceptions
    included; the calls that need memory stay within [max_bytes]. *)
Inductive reachable (b : Z) : ByteArray -> Prop :=
  | reach_new : reachable b (new_ByteArray b)
  | reach_write s bs s' : reachable b s ->
      m_position s + Z.of_nat (length bs) + b < max_bytes ->
      write bs (Z.of_nat (length bs)) s = Ret tt s' -> reachable b s'
  | reach_reserve s n s' : reachable b s -> 0 <= n -> m_position s + n + b < max_bytes ->
      addCapacity n s = Ret tt s' -> reachable b s'
  | reach_read s n r : reachable b s -> 0 <= n ->
      state_of (read n s) = Some r -> reachable b r
  | reach_seek s v r : reachable b s -> 0 <= v ->
      state_of (setPosition v s) = Some r -> reachable b r
  | reach_clear s s' : reachable b s -> clear s = Ret tt s' -> reachable b s'
  | reach_endian s v s' : reachable b s -> setIsLittleEndian v s = Ret tt s' -> reachable b s'.

Lemma reachable_inv b s : 0 < b < max_bytes -> reachable b s -> wf s /\ m_baseSize s = b.
Proof.
  intros Hb. induction 1 as [|s bs s' _ [Hwf Eb] Hr E|s n s' _ [Hwf Eb] Hn Hr E
    |s n r _ [Hwf Eb] Hn E|s v r _ [Hwf Eb] Hv E|s s' _ [Hwf Eb] E|s v s' _ [Hwf Eb] E].
  - split; [by apply new_ByteArray_wf|done].
  - destruct (write_ok s bs (Z.of_nat (length bs)) Hwf) as (s1 & E1 & Hw & _ & _ & _ & Hb1 & _);
      [lia|by rewrite Eb|]. rewrite E in E1. injection E1 as <-. split; [done|congruence].
  - destruct (addCapacity_ok s n Hwf) as (s1 & k & E1 & Hw & _ & _ & _ & Hb1 & _);
      [done|by rewrite Eb|]. rewrite E in E1. injection E1 as <-. split; [done|congruence].
  - destruct (decide (m_position s + n <= m_size s)).
    + destruct (decide (0 < n \/ m_position s < m_capacity s)) as [Hne|Hne].
      * destruct (read_ok s n Hwf Hn) as [E1 Hw]; [done..|].
        rewrite E1 in E. injection E as <-. by split.
      * pose proof (wf_pos _ Hwf). pose proof (wf_size _ Hwf).
        assert (n = 0) as -> by lia. rewrite read_empty_at_end in E by (done || lia). done.
    + rewrite read_throws in E by (done || lia). injection E as <-. by split.
  - destruct (decide (v <= m_capacity s)).
    + destruct (setPosition_ok s v Hwf) as [E1 Hw]; [done|]. rewrite E1 in E.
      injection E as <-. by split.
    + rewrite setPosition_throws in E by lia. injection E as <-. by split.
  - destruct (clear_ok s Hwf) as (s1 & E1 & Hw & _ & _ & _ & Hb1).
    rewrite E in E1. injection E1 as <-. split; [done|congruence].
  - unfold setIsLittleEndian, modify in E. injection E as <-. split; [|done].
    destruct Hwf as [Hm]. split; simpl; try done; [by destruct Hm|]. destruct v; auto.
Qed.

(** ** Properties *)

(** C14: every buffer reachable from a fresh one by writes, reservations, reads, seeks,
    clears and byte-order changes (calls that throw included) is well formed: blocks of
    the base size, capacity equal to the allocated blocks, position <= size <=
    capacity, and the block pointer where the position says. *)
Theorem reachable_wf b s : 0 < b < max_bytes -> reachable b s -> wf s.
Proof. intros Hb Hr. by apply (reachable_inv b s Hb Hr). Qed.

Lemma reachable_wf_witness : exists s, reachable 3 s /\ wf s /\ m_cur s = None.
Proof.
  eexists. split; [|split; [apply (reachable_wf 3)|]].
  - eapply reach_write with (bs := map Some [1; 2; 3]); [apply reach_new|by vm_compute|].
    vm_compute. reflexivity.
  - by vm_compute.
  - eapply reach_write with (bs := map Some [1; 2; 3]); [apply reach_new|by vm_compute|].
    vm_compute. reflexivity.
  - reflexivity.
Defined.

(** C6: on a well-formed buffer [write] refines the overwrite of a flat byte string at
    the cursor: it returns, the content is overwritten (and extended when it passes
    the end), the cursor advances by the size, and the buffer stays well formed. *)
Theorem write_refines s buf n : wf s -> 0 <= n <= Z.of_nat (length buf) ->
  m_position s + n + m_baseSize s < max_bytes ->
  exists s', write buf n s = Ret tt s' /\ wf s'
    /\ content s' = splice (content s) (cursor s) (take (Z.to_nat n) buf)
    /\ m_position s' = m_position s + n
    /\ m_size s' = Z.max (m_size s) (m_position s + n).
Proof.
  intros Hwf Hn Hr. destruct (write_ok s buf n Hwf Hn Hr) as (s' & ? & ? & ? & ? & ? & _).
  by exists s'.
Qed.

Lemma write_refines_witness :
  exists s', write (map Some [1; 2; 3; 4; 5]) 5 (new_ByteArray 2) = Ret tt s'
    /\ content s' = map Some [1; 2; 3; 4; 5] /\ m_position s' = 5.
Proof.
  destruct (write_refines (new_ByteArray 2) (map Some [1; 2; 3; 4; 5]) 5) as (s' & E & _ & Hc & Hp & _).
  - apply new_ByteArray_wf. by vm_compute.
  - by vm_compute.
  - by vm_compute.
  - by exists s'.
Defined.

(** [read] on every branch: it returns the bytes at the cursor and advances; it
    throws out_of_range and changes nothing when fewer bytes are left; and reading
    zero bytes with the cursor at the end of the capacity dereferences a null node. *)
Theorem read_branches s n : wf s -> 0 <= n ->
  read n s =
    (if decide (m_size s < m_position s + n) then Exn out_of_range s
     else if decide (n = 0 /\ m_position s = m_capacity s) then UB NullDeref
     else Ret (slice (content s) (cursor s) (Z.to_nat n)) (seek (m_position s + n) s)).
Proof.
  intros Hwf Hn. pose proof (wf_pos _ Hwf). pose proof (wf_size _ Hwf).
  repeat case_decide.
  - by apply read_throws.
  - destruct_and!. subst. by apply read_empty_at_end.
  - apply read_ok; (done || lia).
Qed.

Lemma read_branches_witness :
  read 1 (new_ByteArray 4) = Exn out_of_range (new_ByteArray 4)
  /\ read 0 (new_ByteArray 4) = Ret [] (new_ByteArray 4).
Proof.
  split.
  - rewrite (read_branches (new_ByteArray 4) 1); [reflexivity|apply new_ByteArray_wf|]; by vm_compute.
  - rewrite (read_branches (new_ByteArray 4) 0); [reflexivity|apply new_ByteArray_wf|]; by vm_compute.
Defined.

(** [setPosition v] throws out_of_range past the capacity, leaving the buffer alone;
    otherwise the walk over the blocks ends, with the block pointer of [v], the memory
    untouched and the size raised to [v] when [v] passes it. *)
Theorem setPosition_spec s v : wf s -> 0 <= v ->
  setPosition v s =
    (if decide (m_capacity s < v) then Exn out_of_range s
     else Ret tt (with_size (Z.max (m_size s) v) (seek v s)))
  /\ (v <= m_capacity s -> wf (with_size (Z.max (m_size s) v) (seek v s))).
Proof.
  intros Hwf Hv. split.
  - case_decide; [by apply setPosition_throws|]. apply setPosition_ok; (done || lia).
  - intros ?. apply setPosition_ok; (done || lia).
Qed.

Lemma setPosition_spec_witness :
  setPosition 5 (new_ByteArray 4) = Exn out_of_range (new_ByteArray 4).
Proof.
  destruct (setPosition_spec (new_ByteArray 4) 5) as [E _];
    [apply new_ByteArray_wf; by vm_compute | by vm_compute | exact E].
Defined.
