(* ===== verification/ByteArrayViews.v ===== *)
(** Views of the byte buffer of src/sylar/bytearray.cpp that do not move the cursor:
    strings, scatter/gather vectors, and the transfers to and from files. *)
From S2P Require Import Prelude Endian ByteArray.

(* SRC sylar/bytearray.cpp:581-595 ByteArray::getReadBuffers *)
Fixpoint iov_loop (fuel : nat) (cur : option nat) (npos ncap len : Z) : M ByteArray (list iovec) :=
  match fuel with
  | O => fail_with OutOfFuel
  | S fuel =>
    if 0 <? len then
      let! n := node_at cur in
      if ncap >=? len then
        let! rest := iov_loop fuel cur npos ncap 0 in
        ret (mkIovec (fst n) npos len :: rest)
      else
        let! cur' := next_at cur in
        let! ncap' := size_at cur' in
        let! rest := iov_loop fuel cur' 0 ncap' (u64 (len - ncap)) in
        ret (mkIovec (fst n) npos ncap :: rest)
    else ret []
  end.

(** The returned count is an [int32_t], the views are appended to [buffers]. *)
(* SRC sylar/bytearray.cpp:568-597 ByteArray::getReadBuffers *)
Definition getReadBuffers (buffers : list iovec) (len : Z) : M ByteArray (Z * list iovec) :=
  let! rs := gets getReadSize in
  let len := if len >? rs then rs else len in
  if len =? 0 then ret (0, buffers) else
  let! pos := gets m_position in
  let! npos := mod_base pos in
  let! csz := cur_size in
  let ncap := u64 (csz - npos) in
  let! cur := gets m_cur in
  let! iovs := iov_loop (S (Z.to_nat len)) cur npos ncap len in
  ret (s32 len, buffers ++ iovs).

(* SRC sylar/bytearray.cpp:609-614 ByteArray::getReadBuffers *)
Fixpoint skip_nodes (count : nat) (cur : option nat) : M ByteArray (option nat) :=
  match count with
  | O => ret cur
  | S count => let! cur' := next_at cur in skip_nodes count cur'
  end.

(* SRC sylar/bytearray.cpp:599-635 ByteArray::getReadBuffers *)
Definition getReadBuffers_at (buffers : list iovec) (len position : Z) : M ByteArray (Z * list iovec) :=
  let! rs := gets getReadSize in
  let len := if len >? rs then rs else len in
  if len =? 0 then ret (0, buffers) else
  let! npos := mod_base position in
  let! base := gets m_baseSize in
  let! cur := skip_nodes (Z.to_nat (position / base)) (Some 0%nat) in
  let! csz := cur_size in
  let ncap := u64 (csz - npos) in
  let! iovs := iov_loop (S (Z.to_nat len)) cur npos ncap len in
  ret (s32 len, buffers ++ iovs).

(* SRC sylar/bytearray.cpp:637-665 ByteArray::getWriteBuffers *)
Definition getWriteBuffers (buffers : list iovec) (len : Z) : M ByteArray (Z * list iovec) :=
  if len =? 0 then ret (0, buffers) else
  addCapacity len ;;
  let! pos := gets m_position in
  let! npos := mod_base pos in
  let! csz := cur_size in
  let ncap := u64 (csz - npos) in
  let! cur := gets m_cur in
  let! iovs := iov_loop (S (Z.to_nat len)) cur npos ncap len in
  ret (len, buffers ++ iovs).

(** An output file: the bytes written and whether [badbit] is set. A write of a
    negative count fails and sets it; once set, writes are ignored. *)
Record ofstream := mkOfs { written : list cell; bad : bool }.

(* SRC sylar/bytearray.cpp:483-490 ByteArray::writeToFile *)
Fixpoint writeToFile_loop (fuel : nat) (ofs : ofstream) (cur : option nat) (read_size pos : Z)
    : M ByteArray ofstream :=
  match fuel with
  | O => fail_with OutOfFuel
  | S fuel =>
    if 0 <? read_size then
      let! diff := mod_base (u64 pos) in
      let diff := s32 diff in
      let! base := gets m_baseSize in
      let len := s64 ((if read_size >? base then base else read_size) - diff) in
      let! ofs' :=
        (if bad ofs then let! n := node_at cur in ret ofs
         else if len <? 0 then let! n := node_at cur in ret (mkOfs (written ofs) true)
         else let! out := peek cur diff len in ret (mkOfs (written ofs ++ out) false)) in
      let! cur' := next_at cur in
      writeToFile_loop fuel ofs' cur' (s64 (read_size - len)) (s64 (pos + len))
    else ret ofs
  end.

(** [opened]: whether the file could be opened. *)
(* SRC sylar/bytearray.cpp:470-493 ByteArray::writeToFile *)
Definition writeToFile (opened : bool) : M ByteArray (bool * ofstream) :=
  if negb opened then ret (false, mkOfs [] true) else
  let! read_size := gets getReadSize in
  let! pos := gets m_position in
  let! cur := gets m_cur in
  let! fuel := gets (fun s => S (S (length (m_root s)))) in
  let! ofs := writeToFile_loop fuel (mkOfs [] false) cur (s64 read_size) (s64 pos) in
  ret (true, ofs).

(** [data]: the rest of the file; [ifs.read] sets [eof] when it comes up short. *)
(* SRC sylar/bytearray.cpp:505-508 ByteArray::readFromFile *)
Fixpoint readFromFile_loop (fuel : nat) (data : list Z) : M ByteArray unit :=
  match fuel with
  | O => fail_with OutOfFuel
  | S fuel =>
    let! base := gets m_baseSize in
    let chunk := take (Z.to_nat base) data in
    write (map Some chunk) (Z.of_nat (length chunk)) ;;
    if Z.of_nat (length data) <? base then ret tt
    else readFromFile_loop fuel (drop (Z.to_nat base) data)
  end.

(** [file]: the bytes of the file, when it can be opened. *)
(* SRC sylar/bytearray.cpp:495-510 ByteArray::readFromFile *)
Definition readFromFile (file : option (list Z)) : M ByteArray bool :=
  match file with
  | None => ret false
  | Some data => readFromFile_loop (S (length data)) data ;; ret true
  end.

(** Two hexadecimal digits of a byte ([setw(2) << setfill('0') << hex]). *)
Definition hex_digit (d : Z) : Ascii.ascii :=
  Ascii.ascii_of_N (Z.to_N (if d <? 10 then 48 + d else 87 + d)).
Definition hex_byte (b : Z) : list Ascii.ascii := [hex_digit (b / 16); hex_digit (b mod 16)].
Definition space : Ascii.ascii := Ascii.ascii_of_N 32.
Definition newline : Ascii.ascii := Ascii.ascii_of_N 10.

(* SRC sylar/bytearray.cpp:557-563 ByteArray::toHexString *)
Fixpoint hex_dump (i : nat) (str : list Z) : list Ascii.ascii :=
  match str with
  | [] => []
  | c :: str' =>
    (if (0 <? i)%nat && (i mod 32 =? 0)%nat then [newline] else [])
      ++ hex_byte c ++ [space] ++ hex_dump (S i) str'
  end.

(* SRC sylar/bytearray.cpp:553-566 ByteArray::toHexString *)
Definition toHexString : M ByteArray (list Ascii.ascii) :=
  let! str := toString in
  match all_some str with
  | Some bs => ret (hex_dump 0 bs)
  | None => fail_with Indeterminate
  end.

(** ** What a list of views covers *)

Definition iov_bytes (nodes : list Node) (v : iovec) : list cell :=
  match nodes !! iov_node v with
  | Some n => slice (ptr n) (Z.to_nat (iov_off v)) (Z.to_nat (iov_len v))
  | None => []
  end.
(** The bytes read by a gathering [writev] over the views. *)
Definition gather (nodes : list Node) (iovs : list iovec) : list cell :=
  concat (map (iov_bytes nodes) iovs).
(** The effect of a scattering [readv] that fills the views with [data]. *)
Fixpoint scatter (nodes : list Node) (iovs : list iovec) (data : list cell) : list Node :=
  match iovs with
  | [] => nodes
  | v :: iovs' =>
    let n := Nat.min (Z.to_nat (iov_len v)) (length data) in
    match nodes !! iov_node v with
    | Some nd => scatter (<[iov_node v := mkNode (splice (ptr nd) (Z.to_nat (iov_off v)) (take n data)) (size nd)]> nodes)
                   iovs' (drop n data)
    | None => nodes
    end
  end.

(** The views tile [len] bytes from offset [npos] of node [i]. *)
Inductive tiles (b : Z) : nat -> Z -> Z -> list iovec -> Prop :=
  | tiles_last i npos len : 0 <= npos -> 0 < len -> npos + len <= b ->
      tiles b i npos len [mkIovec i npos len]
  | tiles_more i npos len iovs : 0 <= npos < b -> b - npos < len ->
      tiles b (S i) 0 (len - (b - npos)) iovs ->
      tiles b i npos len (mkIovec i npos (b - npos) :: iovs).

Lemma iov_loop_tiles fuel : forall s i npos len, wf_mem s -> (i < length (m_root s))%nat ->
  0 <= npos < m_baseSize s -> 0 < len ->
  Z.of_nat i * m_baseSize s + npos + len <= m_capacity s -> len < Z.of_nat fuel ->
  exists iovs, iov_loop fuel (Some i) npos (m_baseSize s - npos) len s = Ret iovs s
    /\ tiles (m_baseSize s) i npos len iovs.
Proof.
  induction fuel as [|fuel IH]; intros s i npos len Hm Hi Hn Hl Hcap Hf; [lia|].
  pose proof (wf_base _ Hm) as Hb. pose proof (wf_cap _ Hm) as Hce.
  pose proof (wf_cap_lt _ Hm) as Hlt. unfold max_bytes in *.
  simpl iov_loop. rewrite (proj2 (Z.ltb_lt _ _)) by lia.
  destruct (node_at_ok s Hm i Hi) as (nd & _ & E & _). erewrite bind_Ret by exact E.
  destruct (Z.geb_spec (m_baseSize s - npos) len).
  - destruct fuel; [lia|]. exists [mkIovec i npos len]. split; [done|]. constructor; lia.
  - erewrite bind_Ret by (by apply next_at_ok).
    assert (S i < length (m_root s))%nat as Hi' by nia.
    assert (next s i = Some (S i)) as ->
      by (unfold next; by rewrite (proj2 (Nat.ltb_lt _ _))).
    erewrite bind_Ret by (by apply size_at_ok). rewrite u64_id by lia.
    destruct (IH s (S i) 0 (len - (m_baseSize s - npos))) as (iovs & E' & Ht); try (done || lia).
    exists (mkIovec i npos (m_baseSize s - npos) :: iovs).
    rewrite Z.sub_0_r in E'. unfold bind. rewrite E'. split; [done|]. by constructor.
Qed.

Section Tiles.
Context (b : Z) (Hb : 0 < b).
Let nodes_ok (nodes : list Node) := Forall (node_ok b) nodes.

Lemma nodes_ok_all_b nodes : nodes_ok nodes -> all_b (Z.to_nat b) nodes.
Proof. intros H. eapply Forall_impl; [|apply H]. intros n [Hn _]. lia. Qed.

Lemma tiles_len_pos i npos len iovs : tiles b i npos len iovs -> 0 < len /\ 0 <= npos < b.
Proof. induction 1; lia. Qed.

Lemma gather_tiles i npos len iovs : tiles b i npos len iovs ->
  forall nodes, nodes_ok nodes -> Z.of_nat i * b + npos + len <= b * Z.of_nat (length nodes) ->
  gather nodes iovs = slice (blocks nodes) (Z.to_nat (Z.of_nat i * b + npos)) (Z.to_nat len).
Proof.
  induction 1 as [i npos len H1 H2 H3|i npos len iovs H1 H2 Ht IH];
    intros nodes Hok Hle; pose proof (nodes_ok_all_b _ Hok) as Hall.
  - destruct (lookup_lt_is_Some_2 nodes i) as [nd Hnd]; [nia|].
    unfold gather, iov_bytes. simpl. rewrite Hnd, app_nil_r.
    rewrite <- (slice_blocks _ _ _ _ _ _ Hall Hnd) by lia. f_equal. nia.
  - destruct (lookup_lt_is_Some_2 nodes i) as [nd Hnd]; [nia|].
    unfold gather in *. simpl. rewrite IH by (done || lia).
    unfold iov_bytes at 1. simpl. rewrite Hnd.
    rewrite <- (slice_blocks _ _ _ _ _ _ Hall Hnd) by lia.
    replace (Z.to_nat len) with (Z.to_nat (b - npos) + Z.to_nat (len - (b - npos)))%nat by lia.
    rewrite slice_app. repeat f_equal; nia.
Qed.

Lemma scatter_tiles i npos len iovs : tiles b i npos len iovs ->
  forall nodes data, nodes_ok nodes -> Z.of_nat i * b + npos + len <= b * Z.of_nat (length nodes) ->
  (length data <= Z.to_nat len)%nat ->
  blocks (scatter nodes iovs data) = splice (blocks nodes) (Z.to_nat (Z.of_nat i * b + npos)) data
  /\ length (scatter nodes iovs data) = length nodes
  /\ nodes_ok (scatter nodes iovs data).
Proof.
  induction 1 as [i npos len H1 H2 H3|i npos len iovs H1 H2 Ht IH];
    intros nodes data Hok Hle Hd; pose proof (nodes_ok_all_b _ Hok) as Hall;
    (destruct (lookup_lt_is_Some_2 nodes i) as [nd Hnd]; [nia|]);
    destruct (Forall_lookup_1 _ _ _ _ Hok Hnd) as [Hnl Hns]; simpl; rewrite Hnd.
  - rewrite Nat.min_r, take_ge by lia. split_and!.
    + rewrite (splice_blocks (Z.to_nat b)) by (done || lia). f_equal. nia.
    + apply length_insert.
    + apply Forall_insert; [done|]. split; simpl; [rewrite length_splice|]; lia.
  - set (n := Nat.min (Z.to_nat (b - npos)) (length data)).
    set (nodes' := <[i := mkNode (splice (ptr nd) (Z.to_nat npos) (take n data)) (size nd)]> nodes).
    assert (length (take n data) = n) as Htn by (rewrite length_take; lia).
    assert (length nodes' = length nodes) as Hl' by apply length_insert.
    assert (nodes_ok nodes') as Hok'.
    { apply Forall_insert; [done|]. split; simpl; [rewrite length_splice|]; lia. }
    assert (blocks nodes' = splice (blocks nodes) (Z.to_nat (Z.of_nat i * b + npos)) (take n data)) as Hb'.
    { unfold nodes'. rewrite (splice_blocks (Z.to_nat b)) by (done || lia). f_equal. nia. }
    destruct (IH nodes' (drop n data)) as (E1 & E2 & E3); [done|lia|rewrite length_drop; lia|].
    split_and!; [|lia|done]. rewrite E1, Hb'.
    destruct (decide (length data <= Z.to_nat (b - npos))%nat).
    + rewrite (drop_ge data), splice_nil, take_ge by lia. done.
    + replace (Z.to_nat (Z.of_nat (S i) * b + 0)) with
        (Z.to_nat (Z.of_nat i * b + npos) + length (take n data))%nat by nia.
      rewrite splice_splice, take_drop; [done|].
      pose proof (length_blocks _ _ Hall). nia.
Qed.
End Tiles.

(** [getReadBuffers] and [getWriteBuffers] give views that tile the bytes from the
    cursor; the first leaves the buffer alone, the second may grow it. *)
Lemma getReadBuffers_tiles s len : wf s -> 0 < len -> len <= m_size s - m_position s ->
  exists iovs, getReadBuffers [] len s = Ret (s32 len, iovs) s
    /\ exists i, tiles (m_baseSize s) i (m_position s mod m_baseSize s) len iovs
       /\ m_position s = Z.of_nat i * m_baseSize s + m_position s mod m_baseSize s.
Proof.
  intros Hwf Hl Hle. destruct (Hwf) as [Hm Hp Hs Hcur _].
  pose proof (wf_base _ Hm) as Hb. pose proof (wf_cap_lt _ Hm) as Hlt. unfold max_bytes in *.
  unfold getReadBuffers. rewrite bind_Ret with (a := m_size s - m_position s) (s' := s)
    by (unfold gets; by rewrite getReadSize_ok).
  destruct (Z.gtb_spec len (m_size s - m_position s)); [lia|].
  destruct (Z.eqb_spec len 0); [lia|]. erewrite bind_Ret by done.
  erewrite bind_Ret by (by apply mod_base_ok).
  destruct (cur_of_bounds s (m_position s) Hm) as (i & Hi & Hil & Hpi & Hmod); [lia|].
  erewrite bind_Ret by (apply (cur_size_ok _ Hm i); [congruence|done]). cbv zeta.
  rewrite u64_id by lia. rewrite bind_Ret with (a := Some i) (s' := s) by (unfold gets; by rewrite Hcur, Hi).
  destruct (iov_loop_tiles (S (Z.to_nat len)) s i (m_position s mod m_baseSize s) len)
    as (iovs & E & Ht); try (done || lia).
  exists iovs. erewrite bind_Ret by exact E. split; [done|]. by exists i.
Qed.

Lemma getWriteBuffers_tiles s len : wf s -> 0 < len ->
  m_position s + len + m_baseSize s < max_bytes ->
  exists s' iovs k, getWriteBuffers [] len s = Ret (len, iovs) s' /\ wf s'
    /\ flat s' = flat s ++ replicate k None
    /\ m_position s' = m_position s /\ m_size s' = m_size s
    /\ m_baseSize s' = m_baseSize s /\ m_endian s' = m_endian s
    /\ m_position s + len <= m_capacity s'
    /\ exists i, tiles (m_baseSize s) i (m_position s mod m_baseSize s) len iovs
       /\ m_position s = Z.of_nat i * m_baseSize s + m_position s mod m_baseSize s.
Proof.
  intros Hwf Hl Hmax. pose proof (wf_pos _ Hwf).
  destruct (addCapacity_ok s len Hwf) as (s1 & k & Ha & Hwf1 & Hfl & Hpos1 & Hsz1 & Hb1 & He1 & Hc1 & Hc1' & Hc1'');
    [lia..|].
  unfold getWriteBuffers. destruct (Z.eqb_spec len 0); [lia|].
  erewrite bind_Ret by done. rewrite bind_Ret with (a := m_position s) (s' := s1) by (by rewrite <- Hpos1).
  destruct (Hwf1) as [Hm1 Hp1 Hs1 Hcur1 Hend1].
  pose proof (wf_base _ Hm1) as Hb. pose proof (wf_cap_lt _ Hm1) as Hlt. unfold max_bytes in *.
  destruct (cur_of_bounds s1 (m_position s1) Hm1) as (i & Hi & Hil & Hpi & Hmod); [lia|].
  erewrite bind_Ret by (by apply mod_base_ok).
  erewrite bind_Ret by (apply (cur_size_ok _ Hm1 i); [congruence|done]). cbv zeta.
  rewrite <- Hpos1, <- Hb1. rewrite u64_id by lia.
  rewrite bind_Ret with (a := Some i) (s' := s1) by (unfold gets; by rewrite Hcur1, Hi).
  destruct (iov_loop_tiles (S (Z.to_nat len)) s1 i (m_position s1 mod m_baseSize s1) len)
    as (iovs & E & Ht); try (done || lia).
  exists s1, iovs, k. erewrite bind_Ret by exact E. split_and!; try (done || lia).
  by exists i.
Qed.

(** The gathered bytes of [getReadBuffers]. *)
Lemma getReadBuffers_short s len : wf s -> 0 <= len ->
  getReadBuffers [] len s = getReadBuffers [] (Z.min len (m_size s - m_position s)) s.
Proof.
  intros Hwf Hl. pose proof (wf_pos _ Hwf). unfold getReadBuffers.
  rewrite !bind_Ret with (a := m_size s - m_position s) (s' := s)
    by (unfold gets; by rewrite getReadSize_ok).
  destruct (Z.gtb_spec len (m_size s - m_position s)).
  - rewrite Z.min_r by lia. destruct (Z.gtb_spec (m_size s - m_position s) (m_size s - m_position s));
      [lia|done].
  - rewrite Z.min_l by lia. destruct (Z.gtb_spec len (m_size s - m_position s)); [lia|done].
Qed.

(** What the views of [getReadBuffers] hold, as a function of the content. *)
Lemma getReadBuffers_ok s len : wf s -> 0 <= len ->
  exists iovs, getReadBuffers [] len s = Ret (s32 (Z.min len (m_size s - m_position s)), iovs) s
    /\ gather (m_root s) iovs =
         slice (content s) (cursor s) (Z.to_nat (Z.min len (m_size s - m_position s))).
Proof.
  intros Hwf Hl. pose proof (wf_pos _ Hwf). pose proof (wf_is_mem _ Hwf) as Hm.
  pose proof (wf_base _ Hm). pose proof (wf_cap _ Hm). pose proof (wf_size _ Hwf).
  rewrite getReadBuffers_short by done. set (n := Z.min len (m_size s - m_position s)).
  destruct (decide (n = 0)) as [E|].
  - exists []. rewrite E. split; [|done]. unfold getReadBuffers, bind, gets.
    rewrite getReadSize_ok by done.
    destruct (Z.gtb_spec 0 (m_size s - m_position s)); [lia|done].
  - destruct (getReadBuffers_tiles s n Hwf) as (iovs & E & i & Ht & Hi); [lia..|].
    exists iovs. split; [done|]. rewrite <- slice_content by (done || lia).
    rewrite (gather_tiles _ (proj1 (wf_base _ Hm)) _ _ _ _ Ht) by (apply (wf_nodes _ Hm) || lia).
    by rewrite <- Hi.
Qed.

(** Receiving [data] into the views of [getWriteBuffers] and moving the cursor past
    it is the same as writing [data]. *)
Lemma getWriteBuffers_fill s len data : wf s -> 0 < len ->
  m_position s + len + m_baseSize s < max_bytes -> Z.of_nat (length data) <= len ->
  exists s' iovs s'', getWriteBuffers [] len s = Ret (len, iovs) s' /\ wf s'
    /\ content s' = content s /\ m_position s' = m_position s
    /\ setPosition (m_position s' + Z.of_nat (length data))
         (with_root (scatter (m_root s') iovs data) s') = Ret tt s'' /\ wf s''
    /\ content s'' = splice (content s) (cursor s) data
    /\ m_position s'' = m_position s + Z.of_nat (length data)
    /\ m_endian s'' = m_endian s /\ m_baseSize s'' = m_baseSize s.
Proof.
  intros Hwf Hl Hmax Hd. pose proof (wf_pos _ Hwf) as Hp. pose proof (wf_is_mem _ Hwf) as Hm.
  destruct (getWriteBuffers_tiles s len Hwf) as
    (s' & iovs & k & E & Hwf' & Hfl & Hpos & Hsz & Hb & He & Hcap & i & Ht & Hi); [lia..|].
  destruct (Hwf') as [Hm' Hp' Hs' Hcur' Hend'].
  pose proof (wf_cap _ Hm'). pose proof (wf_base _ Hm').
  destruct (scatter_tiles _ (proj1 (wf_base _ Hm)) _ _ _ _ Ht (m_root s') data)
    as (Hbl & Hln & Hok); [rewrite <- Hb; apply (wf_nodes _ Hm')|lia|lia|].
  set (s1 := with_root (scatter (m_root s') iovs data) s').
  assert (wf s1) as Hwf1.
  { split; [apply wf_mem_with_root; [done|by rewrite Hb|done]|done..| |done].
    simpl. rewrite Hcur'. unfold cur_of. simpl. by rewrite Hln. }
  destruct (setPosition_ok s1 (m_position s' + Z.of_nat (length data)) Hwf1) as [E1 Hwf2];
    [simpl; lia|].
  exists s', iovs, (with_size (Z.max (m_size s1) (m_position s' + Z.of_nat (length data)))
    (seek (m_position s' + Z.of_nat (length data)) s1)).
  split_and!; try done; simpl; try lia.
  - unfold content. rewrite Hsz, Hfl, take_app_le; [done|].
    pose proof (length_flat _ Hm). pose proof (wf_size _ Hwf). lia.
  - unfold content, cursor. change (flat (with_size _ (seek _ s1))) with (blocks (scatter (m_root s') iovs data)).
    simpl. rewrite Hbl, <- Hi. change (blocks (m_root s')) with (flat s').
    pose proof (length_flat _ Hm). pose proof (length_flat _ Hm'). pose proof (wf_size _ Hwf).
    replace (Z.to_nat (Z.max (m_size s') (m_position s' + Z.of_nat (length data)))) with
      (Nat.max (Z.to_nat (m_size s)) (Z.to_nat (m_position s) + length data)) by lia.
    rewrite take_splice by lia. rewrite Hfl, take_app_le by lia. done.
Qed.

(** ** Files *)

Lemma readFromFile_loop_ok fuel : forall s data, wf s -> (length data < fuel)%nat ->
  m_position s + Z.of_nat (length data) + m_baseSize s < max_bytes ->
  exists s', readFromFile_loop fuel data s = Ret tt s' /\ wf s'
    /\ content s' = splice (content s) (cursor s) (map Some data)
    /\ m_position s' = m_position s + Z.of_nat (length data).
Proof.
  induction fuel as [|fuel IH]; intros s data Hwf Hf Hmax; [lia|].
  pose proof (wf_base _ (wf_is_mem _ Hwf)) as Hb. pose proof (wf_pos _ Hwf) as Hps.
  simpl readFromFile_loop. erewrite bind_Ret by done.
  set (chunk := take (Z.to_nat (m_baseSize s)) data).
  assert (length chunk = Nat.min (Z.to_nat (m_baseSize s)) (length data)) as Hcl
    by (unfold chunk; by rewrite length_take).
  destruct (write_ok s (map Some chunk) (Z.of_nat (length chunk)) Hwf)
    as (s1 & E & Hwf1 & Hc1 & Hp1 & Hs1 & Hb1 & _); [rewrite length_map; lia|lia|].
  erewrite bind_Ret by exact E. rewrite Nat2Z.id, take_ge in Hc1 by (rewrite length_map; lia).
  destruct (Z.ltb_spec (Z.of_nat (length data)) (m_baseSize s)).
  - exists s1. assert (chunk = data) as Heq by (apply take_ge; lia).
    rewrite Heq in *. by split_and!.
  - destruct (IH s1 (drop (Z.to_nat (m_baseSize s)) data)) as (s2 & E2 & Hwf2 & Hc2 & Hp2);
      [done|rewrite length_drop; lia|rewrite length_drop; lia|].
    exists s2. split_and!; [done|done| |rewrite length_drop in Hp2; lia].
    rewrite Hc2, Hc1. unfold cursor. rewrite Hp1.
    replace (Z.to_nat (m_position s + Z.of_nat (length chunk))) with
      (Z.to_nat (m_position s) + length (map Some chunk))%nat by (rewrite length_map; lia).
    rewrite splice_splice, <- map_app; [unfold chunk; by rewrite take_drop|].
    pose proof (length_content _ Hwf). lia.
Qed.

Lemma s64_id z : - 2 ^ 63 <= z < 2 ^ 63 -> s64 z = z.
Proof. intros. by apply wraps_small. Qed.
Lemma s32_id z : - 2 ^ 31 <= z < 2 ^ 31 -> s32 z = z.
Proof. intros. by apply wraps_small. Qed.

(** One iteration that writes [len >= 0] bytes of block [i]. *)
Lemma writeToFile_step fuel s i out rs k d : wf_mem s -> (i < length (m_root s))%nat ->
  m_baseSize s < 2 ^ 31 -> 0 < rs < max_bytes -> 0 <= k -> 0 <= d < m_baseSize s ->
  k * m_baseSize s + d < max_bytes -> d <= Z.min rs (m_baseSize s) ->
  writeToFile_loop (S fuel) (mkOfs out false) (Some i) rs (k * m_baseSize s + d) s =
  let n := Z.min rs (m_baseSize s) - d in
  writeToFile_loop fuel
    (mkOfs (out ++ slice (flat s) (Z.to_nat (Z.of_nat i * m_baseSize s + d)) (Z.to_nat n)) false)
    (next s i) (rs - n) (k * m_baseSize s + d + n) s.
Proof.
  intros Hm Hi Hb31 Hrs Hk Hd Hp Hle. pose proof (wf_base _ Hm). unfold max_bytes in *.
  simpl writeToFile_loop at 1. rewrite (proj2 (Z.ltb_lt _ _)) by lia.
  erewrite bind_Ret by (by apply mod_base_ok). cbv zeta. rewrite u64_id by nia.
  rewrite Z.add_comm, Z.mod_add, Z.mod_small by lia. rewrite s32_id by lia.
  rewrite bind_Ret with (a := m_baseSize s) (s' := s) by done.
  assert ((if rs >? m_baseSize s then m_baseSize s else rs) = Z.min rs (m_baseSize s)) as ->
    by (destruct (Z.gtb_spec rs (m_baseSize s)); lia).
  set (n := Z.min rs (m_baseSize s) - d). rewrite s64_id by lia.
  simpl bad. destruct (Z.ltb_spec n 0); [lia|].
  erewrite bind_Ret by (erewrite bind_Ret by (apply peek_ok; done || lia); done).
  erewrite bind_Ret by (by apply next_at_ok). rewrite !s64_id by nia. done.
Qed.

Lemma writeToFile_aligned fuel : forall s i out rs, wf_mem s -> 0 <= rs ->
  m_baseSize s < 2 ^ 31 -> (0 < rs -> (i < length (m_root s))%nat) ->
  Z.of_nat i * m_baseSize s + rs <= m_capacity s -> (length (m_root s) + 1 < fuel + i)%nat ->
  writeToFile_loop fuel (mkOfs out false) (if decide (i < length (m_root s))%nat then Some i else None)
    rs (Z.of_nat i * m_baseSize s) s =
  Ret (mkOfs (out ++ slice (flat s) (Z.to_nat (Z.of_nat i * m_baseSize s)) (Z.to_nat rs)) false) s.
Proof.
  induction fuel as [|fuel IH]; intros s i out rs Hm Hrs Hb31 Hi Hcap Hf;
    pose proof (wf_base _ Hm) as Hb; pose proof (wf_cap _ Hm) as Hce;
    pose proof (wf_cap_lt _ Hm) as Hlt; unfold max_bytes in *; [nia|].
  destruct (decide (rs = 0)) as [->|Hne].
  { simpl. change (Z.to_nat 0) with 0%nat. by rewrite slice_0, app_nil_r. }
  rewrite decide_True by (apply Hi; lia).
  replace (Z.of_nat i * m_baseSize s) with (Z.of_nat i * m_baseSize s + 0) at 1 by lia.
  rewrite writeToFile_step by first [done | apply Hi; lia | unfold max_bytes; lia]. cbv zeta.
  rewrite Z.sub_0_r. set (n := Z.min rs (m_baseSize s)).
  assert (next s i = if decide (S i < length (m_root s))%nat then Some (S i) else None) as ->.
  { unfold next. case_decide as E; [by rewrite (proj2 (Nat.ltb_lt _ _))|].
    by rewrite (proj2 (Nat.ltb_ge _ _)) by lia. }
  destruct (decide (rs <= m_baseSize s)).
  - unfold n. rewrite Z.min_l, Z.sub_diag by lia. destruct fuel; [nia|].
    simpl. by rewrite !Z.add_0_r.
  - assert (n = m_baseSize s) as -> by lia.
    replace (Z.of_nat i * m_baseSize s + 0 + m_baseSize s) with (Z.of_nat (S i) * m_baseSize s) by lia.
    rewrite IH by (done || lia || nia). f_equal. f_equal. rewrite <- app_assoc. f_equal.
    replace (Z.to_nat rs) with (Z.to_nat (m_baseSize s) + Z.to_nat (rs - m_baseSize s))%nat by lia.
    rewrite slice_app, Z.add_0_r. do 2 f_equal. nia.
Qed.

(** Once the remaining size and the offset in the block are both in
    (0, m_baseSize), they are exchanged at every iteration while the node pointer
    walks off the list. *)
Lemma writeToFile_swap fuel s i ofs k d n : wf_mem s -> (i < length (m_root s))%nat ->
  m_baseSize s < 2 ^ 31 -> 0 < d < m_baseSize s -> 0 < n < m_baseSize s -> 0 <= k ->
  k * m_baseSize s < max_bytes ->
  exists ofs', writeToFile_loop (S fuel) ofs (Some i) n (k * m_baseSize s + d) s =
    writeToFile_loop fuel ofs' (next s i) d (k * m_baseSize s + n) s.
Proof.
  intros Hm Hi Hb31 Hd Hn Hk Hp. pose proof (wf_base _ Hm). unfold max_bytes in *.
  simpl writeToFile_loop. rewrite (proj2 (Z.ltb_lt 0 n)) by lia.
  erewrite bind_Ret by (by apply mod_base_ok). cbv zeta. rewrite u64_id by nia.
  rewrite (Z.add_comm _ d), Z.mod_add, Z.mod_small by lia. rewrite s32_id by lia.
  rewrite bind_Ret with (a := m_baseSize s) (s' := s) by done.
  destruct (Z.gtb_spec n (m_baseSize s)); [lia|]. rewrite s64_id by lia.
  rewrite (s64_id (n - (n - d))), (s64_id (d + _ + (n - d))) by nia.
  replace (n - (n - d)) with d by lia.
  replace (d + k * m_baseSize s + (n - d)) with (k * m_baseSize s + n) by lia.
  destruct (node_at_ok s Hm i Hi) as (nd & _ & E & _).
  assert (forall ofs' (A : M ByteArray ofstream), A s = Ret ofs' s ->
    (let! o := A in let! cur' := next_at (Some i) in
     writeToFile_loop fuel o cur' d (k * m_baseSize s + n)) s
    = writeToFile_loop fuel ofs' (next s i) d (k * m_baseSize s + n) s) as Hcont.
  { intros ofs' A HA. erewrite bind_Ret by exact HA.
    by erewrite bind_Ret by (by apply next_at_ok). }
  destruct (bad ofs).
  { eexists. apply Hcont. by erewrite bind_Ret by exact E. }
  destruct (Z.ltb_spec (n - d) 0).
  { eexists. apply Hcont. by erewrite bind_Ret by exact E. }
  eexists. apply Hcont. erewrite bind_Ret by (apply peek_ok; done || lia). done.
Qed.

Lemma writeToFile_swaps fuel : forall s i ofs k d n, wf_mem s -> m_baseSize s < 2 ^ 31 ->
  0 < d < m_baseSize s -> 0 < n < m_baseSize s -> 0 <= k ->
  k * m_baseSize s < max_bytes -> (i <= length (m_root s) < fuel + i)%nat ->
  writeToFile_loop fuel ofs (if decide (i < length (m_root s))%nat then Some i else None)
    n (k * m_baseSize s + d) s = UB NullDeref.
Proof.
  induction fuel as [|fuel IH]; intros s i ofs k d n Hm Hb31 Hd Hn Hk Hp Hf.
  { lia. }
  case_decide as Hi.
  - destruct (writeToFile_swap fuel s i ofs k d n) as [ofs' ->]; try done.
    replace (next s i) with (if decide (S i < length (m_root s))%nat then Some (S i) else None).
    + apply IH; done || lia.
    + unfold next. case_decide; [by rewrite (proj2 (Nat.ltb_lt _ _))|].
      by rewrite (proj2 (Nat.ltb_ge _ _)) by lia.
  - simpl writeToFile_loop. rewrite (proj2 (Z.ltb_lt 0 n)) by lia.
    erewrite bind_Ret by (by apply mod_base_ok). cbv zeta.
    pose proof (wf_base _ Hm). unfold max_bytes in *. rewrite u64_id by nia.
    rewrite (Z.add_comm _ d), Z.mod_add, Z.mod_small by lia. rewrite s32_id by lia.
    rewrite bind_Ret with (a := m_baseSize s) (s' := s) by done.
    destruct (Z.gtb_spec n (m_baseSize s)); [lia|]. rewrite s64_id by lia.
    apply bind_UB. by destruct (bad ofs), (n - d <? 0).
Qed.

Lemma writeToFile_unfold s : wf s ->
  writeToFile true s =
    (let! ofs := writeToFile_loop (S (S (length (m_root s)))) (mkOfs [] false) (m_cur s)
                   (m_size s - m_position s) (m_position s) in ret (true, ofs)) s.
Proof.
  intros Hwf. pose proof (wf_cap_lt _ (wf_is_mem _ Hwf)). pose proof (wf_pos _ Hwf).
  pose proof (wf_size _ Hwf). unfold max_bytes in *.
  unfold writeToFile. change (negb true) with false. cbv iota.
  rewrite bind_Ret with (a := m_size s - m_position s) (s' := s)
    by (unfold gets; by rewrite getReadSize_ok).
  do 3 (erewrite bind_Ret by done). by rewrite !s64_id by lia.
Qed.

(** The node pointer of a position, as the loops' lemmas have it. *)
Lemma cur_of_decide s p : wf_mem s -> cur_of s p =
  if decide (Z.to_nat (p / m_baseSize s) < length (m_root s))%nat
  then Some (Z.to_nat (p / m_baseSize s)) else None.
Proof.
  intros. unfold cur_of. case_decide; [by rewrite (proj2 (Nat.ltb_lt _ _))|].
  by rewrite (proj2 (Nat.ltb_ge _ _)) by lia.
Qed.

Lemma writeToFile_good s : wf s -> m_baseSize s < 2 ^ 31 ->
  m_position s mod m_baseSize s = 0 \/ m_baseSize s <= m_size s - m_position s ->
  writeToFile true s = Ret (true, mkOfs (drop (cursor s) (content s)) false) s.
Proof.
  intros Hwf Hb31 Hcase. destruct (Hwf) as [Hm Hp Hs Hcur _].
  pose proof (wf_base _ Hm) as Hb. pose proof (wf_cap _ Hm) as Hce.
  pose proof (wf_cap_lt _ Hm) as Hlt. pose proof (length_content _ Hwf) as Hlc. unfold max_bytes in *.
  assert (drop (cursor s) (content s) = slice (flat s) (Z.to_nat (m_position s)) (Z.to_nat (m_size s - m_position s))) as ->.
  { rewrite slice_content by (done || lia). unfold slice. rewrite take_ge; [done|].
    rewrite length_drop. unfold cursor. lia. }
  rewrite writeToFile_unfold by done.
  pose proof (Z.div_mod (m_position s) (m_baseSize s) ltac:(lia)) as Hdm.
  pose proof (Z.mod_pos_bound (m_position s) (m_baseSize s) ltac:(lia)) as Hmb.
  assert (0 <= m_position s / m_baseSize s) by (apply Z.div_pos; lia).
  set (i := Z.to_nat (m_position s / m_baseSize s)) in *.
  assert (m_position s = Z.of_nat i * m_baseSize s + m_position s mod m_baseSize s) as Hpi
    by (unfold i; rewrite Z2Nat.id by done; lia).
  set (d := m_position s mod m_baseSize s) in *.
  destruct (decide (d = 0)) as [Hd|Hd].
  - rewrite Hcur, (cur_of_decide s) by done. fold i.
    replace (m_position s) with (Z.of_nat i * m_baseSize s) by lia.
    erewrite bind_Ret by (apply writeToFile_aligned; (done || lia || nia)). done.
  - assert (i < length (m_root s))%nat as Hi by nia.
    rewrite Hcur, (cur_of_decide s) by done. fold i. rewrite decide_True by done.
    rewrite Hpi. unfold bind. rewrite writeToFile_step by (done || unfold max_bytes; lia). cbv zeta.
    rewrite <- Hpi. rewrite Z.min_r by lia.
    assert (next s i = if decide (S i < length (m_root s))%nat then Some (S i) else None) as ->.
    { unfold next. case_decide; [by rewrite (proj2 (Nat.ltb_lt _ _))|].
      by rewrite (proj2 (Nat.ltb_ge _ _)) by lia. }
    replace (m_position s + (m_baseSize s - d)) with (Z.of_nat (S i) * m_baseSize s) by lia.
    rewrite writeToFile_aligned by (done || lia || nia). unfold ret. f_equal. f_equal. f_equal. simpl.
    replace (Z.to_nat (m_size s - m_position s)) with
      (Z.to_nat (m_baseSize s - d) + Z.to_nat (m_size s - m_position s - (m_baseSize s - d)))%nat by lia.
    rewrite slice_app. do 2 f_equal. lia.
Qed.

Lemma writeToFile_crash s : wf s -> m_baseSize s < 2 ^ 31 ->
  m_position s mod m_baseSize s <> 0 -> 0 < m_size s - m_position s < m_baseSize s ->
  writeToFile true s = UB NullDeref.
Proof.
  intros Hwf Hb31 Hd Hn. destruct (Hwf) as [Hm Hp Hs Hcur _].
  pose proof (wf_base _ Hm) as Hb. pose proof (wf_cap _ Hm) as Hce.
  pose proof (wf_cap_lt _ Hm) as Hlt. unfold max_bytes in *.
  rewrite writeToFile_unfold by done. apply bind_UB.
  pose proof (Z.div_mod (m_position s) (m_baseSize s) ltac:(lia)) as Hdm.
  pose proof (Z.mod_pos_bound (m_position s) (m_baseSize s) ltac:(lia)) as Hmb.
  assert (0 <= m_position s / m_baseSize s) by (apply Z.div_pos; lia).
  rewrite Hcur, (cur_of_decide s) by done.
  set (k := m_position s / m_baseSize s) in *. set (d := m_position s mod m_baseSize s) in *.
  pose proof (writeToFile_swaps (S (S (length (m_root s)))) s (Z.to_nat k) (mkOfs [] false) k d
    (m_size s - m_position s) Hm Hb31) as W.
  replace (k * m_baseSize s + d) with (m_position s) in W by lia.
  apply W; try lia; unfold max_bytes; [lia|]. nia.
Qed.

(** ** Properties *)

(** [getReadBuffers] changes nothing and returns views that, gathered in order, are
    the next min(len, readable) bytes at the cursor; its count is that length,
    truncated to int32_t. *)
Theorem getReadBuffers_spec s len : wf s -> 0 <= len ->
  exists iovs, getReadBuffers [] len s = Ret (s32 (Z.min len (m_size s - m_position s)), iovs) s
    /\ gather (m_root s) iovs =
         slice (content s) (cursor s) (Z.to_nat (Z.min len (m_size s - m_position s))).
Proof. apply getReadBuffers_ok. Qed.

Lemma getReadBuffers_spec_witness :
  exists iovs, getReadBuffers [] 9 (new_ByteArray 2) = Ret (0, iovs) (new_ByteArray 2).
Proof.
  destruct (getReadBuffers_spec (new_ByteArray 2) 9) as (iovs & E & _);
    [apply new_ByteArray_wf; by vm_compute|by vm_compute|].
  exists iovs. exact E.
Defined.

(** C36: reserving [len] bytes with [getWriteBuffers], receiving [data] (at most [len]
    bytes) into its views and moving the cursor past it leaves the same content,
    position and byte order as [write] of [data]. *)
Theorem getWriteBuffers_recv_is_write s len data : wf s -> 0 < len ->
  m_position s + len + m_baseSize s < max_bytes -> Z.of_nat (length data) <= len ->
  exists s' iovs s'' sw, getWriteBuffers [] len s = Ret (len, iovs) s'
    /\ setPosition (m_position s' + Z.of_nat (length data))
         (with_root (scatter (m_root s') iovs data) s') = Ret tt s''
    /\ write data (Z.of_nat (length data)) s = Ret tt sw
    /\ wf s'' /\ content s'' = content sw /\ m_position s'' = m_position sw
    /\ m_endian s'' = m_endian sw.
Proof.
  intros Hwf Hl Hmax Hd.
  destruct (getWriteBuffers_fill s len data Hwf Hl Hmax Hd)
    as (s' & iovs & s'' & E & _ & _ & Hp' & E2 & Hw2 & Hc2 & Hp2 & He2 & _).
  destruct (write_ok s data (Z.of_nat (length data)) Hwf)
    as (sw & Ew & _ & Hcw & Hpw & _ & _ & Hew & _); [lia..|].
  rewrite Nat2Z.id, firstn_all in Hcw.
  exists s', iovs, s'', sw. split_and!; (done || congruence).
Qed.

Lemma getWriteBuffers_recv_is_write_witness :
  exists s' iovs s'' sw, getWriteBuffers [] 5 (new_ByteArray 2) = Ret (5, iovs) s'
    /\ setPosition (m_position s' + 3) (with_root (scatter (m_root s') iovs (map Some [1; 2; 3])) s')
       = Ret tt s''
    /\ write (map Some [1; 2; 3]) 3 (new_ByteArray 2) = Ret tt sw /\ content s'' = content sw.
Proof.
  destruct (getWriteBuffers_recv_is_write (new_ByteArray 2) 5 (map Some [1; 2; 3]))
    as (s' & iovs & s'' & sw & E1 & E2 & E3 & _ & Hc & _).
  - apply new_ByteArray_wf. by vm_compute.
  - by vm_compute.
  - by vm_compute.
  - by vm_compute.
  - exists s', iovs, s'', sw. by split_and!.
Defined.

(** [writeToFile] writes exactly the readable bytes when the position is at a block
    boundary or at least one block is readable; with the position inside a block and
    less than a block readable, its length computation walks it off the block list and
    it dereferences a null node, whatever the content. *)
Theorem writeToFile_branches s : wf s -> m_baseSize s < 2 ^ 31 -> m_position s < m_size s ->
  writeToFile true s =
    if decide (m_position s mod m_baseSize s = 0 \/ m_baseSize s <= m_size s - m_position s)
    then Ret (true, mkOfs (drop (cursor s) (content s)) false) s
    else UB NullDeref.
Proof.
  intros Hwf Hb Hp. case_decide.
  - by apply writeToFile_good.
  - apply writeToFile_crash; (done || lia).
Qed.

Definition file_example : ByteArray :=
  match write (map Some [1; 2; 3]) 3 (new_ByteArray 8) with
  | Ret _ s => with_position 1 s
  | _ => new_ByteArray 8
  end.
Lemma writeToFile_branches_witness : writeToFile true file_example = UB NullDeref.
Proof.
  rewrite (writeToFile_branches file_example).
  - reflexivity.
  - assert (reachable 8 file_example) as Hr.
    { eapply reach_seek with (v := 1); [|by vm_compute|].
      - eapply reach_write with (bs := map Some [1; 2; 3]); [apply reach_new|by vm_compute|].
        vm_compute. reflexivity.
      - vm_compute. reflexivity. }
    apply (reachable_inv 8 _ ltac:(by vm_compute) Hr).
  - by vm_compute.
  - by vm_compute.
Defined.

(** [readFromFile] appends at the cursor exactly the bytes of the file, whatever its
    length relative to the block size, and terminates; a file that cannot be opened
    gives [false] and changes nothing. *)
Theorem readFromFile_spec s data : wf s ->
  m_position s + Z.of_nat (length data) + m_baseSize s < max_bytes ->
  readFromFile None s = Ret false s
  /\ exists s', readFromFile (Some data) s = Ret true s' /\ wf s'
    /\ content s' = splice (content s) (cursor s) (map Some data)
    /\ m_position s' = m_position s + Z.of_nat (length data).
Proof.
  intros Hwf Hmax. split; [done|].
  destruct (readFromFile_loop_ok (S (length data)) s data Hwf) as (s' & E & Hs'); [lia|done|].
  exists s'. split; [|done]. unfold readFromFile. by erewrite bind_Ret by exact E.
Qed.

Lemma readFromFile_spec_witness :
  exists s', readFromFile (Some [7; 8; 9; 10]) (new_ByteArray 2) = Ret true s'
    /\ content s' = map Some [7; 8; 9; 10].
Proof.
  destruct (readFromFile_spec (new_ByteArray 2) [7; 8; 9; 10]) as [_ (s' & E & _ & Hc & _)].
  - apply new_ByteArray_wf. by vm_compute.
  - by vm_compute.
  - by exists s'.
Defined.
