(* ===== verification/ByteArrayCodec.v ===== *)
(** Typed reads and writes of src/sylar/bytearray.cpp: fixed-width integers in the
    buffer's byte order, variable-length integers (zigzag and base 128), floats and
    length-prefixed strings. *)
From S2P Require Import Prelude Endian ByteArray.

Section Codec.
Context `{Host}.

(** [write(&value, sizeof(value))] and [read(&v, sizeof(v))] of an integer. *)
Definition write_obj (T : ity) (v : Z) : M ByteArray unit :=
write (map Some (mem_of (sizeof T) v)) (Z.of_nat (sizeof T)).
Definition read_obj (T : ity) : M ByteArray Z :=
let! cs := read (Z.of_nat (sizeof T)) in
match all_some cs with
| Some bs => ret (cast T (mem_value bs))
| None => fail_with Indeterminate
end.

(** The shape shared by the fixed-width functions of more than one byte. *)
Definition write_swapped (T : ity) (value : Z) : M ByteArray unit :=
let! e := gets m_endian in
let value := if e =? SYLAR_BYTE_ORDER then value else byteswap T value in
write_obj T value.

(* SRC sylar/bytearray.cpp:228-235 XX *)
Definition read_swapped (T : ity) : M ByteArray Z :=
let! v := read_obj T in
let! e := gets m_endian in
if e =? SYLAR_BYTE_ORDER then ret v else ret (byteswap T v).

(* SRC sylar/bytearray.cpp:63-65 ByteArray::writeFint8 *)
Definition writeFint8 (value : Z) : M ByteArray unit := write_obj int8_t value.
(* SRC sylar/bytearray.cpp:67-69 ByteArray::writeFuint8 *)
Definition writeFuint8 (value : Z) : M ByteArray unit := write_obj uint8_t value.
(* SRC sylar/bytearray.cpp:71-76 ByteArray::writeFint16 *)
Definition writeFint16 (value : Z) : M ByteArray unit := write_swapped int16_t value.
(* SRC sylar/bytearray.cpp:78-83 ByteArray::writeFuint16 *)
Definition writeFuint16 (value : Z) : M ByteArray unit := write_swapped uint16_t value.
(* SRC sylar/bytearray.cpp:85-90 ByteArray::writeFint32 *)
Definition writeFint32 (value : Z) : M ByteArray unit := write_swapped int32_t value.
(* SRC sylar/bytearray.cpp:92-97 ByteArray::writeFuint32 *)
Definition writeFuint32 (value : Z) : M ByteArray unit := write_swapped uint32_t value.
(* SRC sylar/bytearray.cpp:99-104 ByteArray::writeFint64 *)
Definition writeFint64 (value : Z) : M ByteArray unit := write_swapped int64_t value.
(* SRC sylar/bytearray.cpp:106-111 ByteArray::writeFuint64 *)
Definition writeFuint64 (value : Z) : M ByteArray unit := write_swapped uint64_t value.

(* SRC sylar/bytearray.cpp:216-220 ByteArray::readFint8 *)
Definition readFint8 : M ByteArray Z := let! v := read_obj uint8_t in ret (cast int8_t v).
(* SRC sylar/bytearray.cpp:222-226 ByteArray::readFuint8 *)
Definition readFuint8 : M ByteArray Z := read_obj uint8_t.
(* SRC sylar/bytearray.cpp:237-239 ByteArray::readFint16 *)
Definition readFint16 : M ByteArray Z := read_swapped int16_t.
(* SRC sylar/bytearray.cpp:241-243 ByteArray::readFuint16 *)
Definition readFuint16 : M ByteArray Z := read_swapped uint16_t.
(* SRC sylar/bytearray.cpp:245-247 ByteArray::readFint32 *)
Definition readFint32 : M ByteArray Z := read_swapped int32_t.
(* SRC sylar/bytearray.cpp:249-251 ByteArray::readFuint32 *)
Definition readFuint32 : M ByteArray Z := read_swapped uint32_t.
(* SRC sylar/bytearray.cpp:253-255 ByteArray::readFint64 *)
Definition readFint64 : M ByteArray Z := read_swapped int64_t.
(* SRC sylar/bytearray.cpp:257-259 ByteArray::readFuint64 *)
Definition readFuint64 : M ByteArray Z := read_swapped uint64_t.

(** *** Zigzag. [-v] and [v * 2] are computed in the signed type and overflow for the
  values the [_defined] tests exclude; the functions give the wrapped result. *)

(* SRC sylar/bytearray.cpp:117-123 EncodeZigzag32 *)
Definition EncodeZigzag32 (v : Z) : Z :=
if v <? 0 then u32 (u32 (u32 (s32 (- v)) * 2) - 1) else u32 (s32 (v * 2)).
Definition EncodeZigzag32_defined (v : Z) : bool :=
if v <? 0 then - v <? 2 ^ 31 else v * 2 <? 2 ^ 31.
(* SRC sylar/bytearray.cpp:125-131 EncodeZigzag64 *)
Definition EncodeZigzag64 (v : Z) : Z :=
if v <? 0 then u64 (u64 (u64 (s64 (- v)) * 2) - 1) else u64 (s64 (v * 2)).
Definition EncodeZigzag64_defined (v : Z) : bool :=
if v <? 0 then - v <? 2 ^ 63 else v * 2 <? 2 ^ 63.
(* SRC sylar/bytearray.cpp:133-142 DecodeZigzag32 *)
Definition DecodeZigzag32 (v : Z) : Z :=
s32 (Z.lxor (Z.shiftr v 1) (u32 (- Z.land v 1))).
(* SRC sylar/bytearray.cpp:144-146 DecodeZigzag64 *)
Definition DecodeZigzag64 (v : Z) : Z :=
s64 (Z.lxor (Z.shiftr v 1) (u64 (- Z.land v 1))).

(** *** Base-128 integers. [room] is what is left of [tmp]; a store past it faults. *)
Fixpoint varint (room : nat) (value : Z) : option (list Z) :=
match room with
| O => None
| S room =>
  if value >=? 128 then
    match varint room (Z.shiftr value 7) with
    | Some bs => Some (u8 (Z.lor (Z.land value 127) 128) :: bs)
    | None => None
    end
  else Some [u8 value]
end.

Definition write_varint (room : nat) (value : Z) : M ByteArray unit :=
match varint room value with
| Some tmp => write (map Some tmp) (u8 (Z.of_nat (length tmp)))
| None => fail_with OutOfBounds
end.

(* SRC sylar/bytearray.cpp:152-161 ByteArray::writeUint32 *)
Definition writeUint32 (value : Z) : M ByteArray unit := write_varint 5 value.
(* SRC sylar/bytearray.cpp:167-176 ByteArray::writeUint64 *)
Definition writeUint64 (value : Z) : M ByteArray unit := write_varint 10 value.
(* SRC sylar/bytearray.cpp:148-150 ByteArray::writeInt32 *)
Definition writeInt32 (value : Z) : M ByteArray unit :=
if EncodeZigzag32_defined value then writeUint32 (EncodeZigzag32 value)
else fail_with SignedOverflow.
(* SRC sylar/bytearray.cpp:163-165 ByteArray::writeInt64 *)
Definition writeInt64 (value : Z) : M ByteArray unit :=
if EncodeZigzag64_defined value then writeUint64 (EncodeZigzag64 value)
else fail_with SignedOverflow.

(** [for (int i = 0; i < w; i += 7)], over a [w]-bit result. *)
Fixpoint read_varint (fuel : nat) (w i result : Z) : M ByteArray Z :=
match fuel with
| O => fail_with OutOfFuel
| S fuel =>
  if i <? w then
    let! b := readFuint8 in
    if b <? 128 then ret (Z.lor result (wrapu w (Z.shiftl b i)))
    else read_varint fuel w (i + 7) (Z.lor result (wrapu w (Z.shiftl (Z.land b 127) i)))
  else ret result
end.

(* SRC sylar/bytearray.cpp:267-279 ByteArray::readUint32 *)
Definition readUint32 : M ByteArray Z := read_varint 6 32 0 0.
(* SRC sylar/bytearray.cpp:285-297 ByteArray::readUint64 *)
Definition readUint64 : M ByteArray Z := read_varint 11 64 0 0.
(* SRC sylar/bytearray.cpp:263-265 ByteArray::readInt32 *)
Definition readInt32 : M ByteArray Z := let! v := readUint32 in ret (DecodeZigzag32 v).
(* SRC sylar/bytearray.cpp:281-283 ByteArray::readInt64 *)
Definition readInt64 : M ByteArray Z := let! v := readUint64 in ret (DecodeZigzag64 v).

(** *** Floating-point values, as their bit patterns. *)

(* SRC sylar/bytearray.cpp:178-184 ByteArray::writeFloat *)
Definition writeFloat (bits32 : Z) : M ByteArray unit := writeFuint32 bits32.
(** Only [sizeof(float)] bytes of the 8-byte [v] are set; [junk] is what the other
  four hold. *)
(* SRC sylar/bytearray.cpp:186-190 ByteArray::writeDouble *)
Definition writeDouble (junk : list Z) (bits32 : Z) : M ByteArray unit :=
writeFuint64 (mem_value (mem_of 4 bits32 ++ junk)).
(* SRC sylar/bytearray.cpp:299-304 ByteArray::readFloat *)
Definition readFloat : M ByteArray Z := readFuint32.
(* SRC sylar/bytearray.cpp:306-311 ByteArray::readDouble *)
Definition readDouble : M ByteArray Z := readFuint64.

(** *** Strings, as lists of bytes. *)

Definition write_string (value : list Z) : M ByteArray unit :=
write (map Some value) (Z.of_nat (length value)).
(* SRC sylar/bytearray.cpp:192-195 ByteArray::writeStringF16 *)
Definition writeStringF16 (value : list Z) : M ByteArray unit :=
writeFuint16 (u16 (Z.of_nat (length value))) ;; write_string value.
(* SRC sylar/bytearray.cpp:197-200 ByteArray::writeStringF32 *)
Definition writeStringF32 (value : list Z) : M ByteArray unit :=
writeFuint32 (u32 (Z.of_nat (length value))) ;; write_string value.
(* SRC sylar/bytearray.cpp:202-205 ByteArray::writeStringF64 *)
Definition writeStringF64 (value : list Z) : M ByteArray unit :=
writeFuint64 (u64 (Z.of_nat (length value))) ;; write_string value.
(* SRC sylar/bytearray.cpp:207-210 ByteArray::writeStringVint *)
Definition writeStringVint (value : list Z) : M ByteArray unit :=
writeFuint64 (u64 (Z.of_nat (length value))) ;; write_string value.
(* SRC sylar/bytearray.cpp:212-214 ByteArray::writeStringWithoutLength *)
Definition writeStringWithoutLength (value : list Z) : M ByteArray unit := write_string value.

(** [buff.resize(len); read(&buff[0], len)]; a string holds at most 2^63 - 1 bytes. *)
Definition read_string (len : Z) : M ByteArray (list cell) :=
if len >? 2 ^ 63 - 1 then throw length_error else read len.
(* SRC sylar/bytearray.cpp:313-319 ByteArray::readStringF16 *)
Definition readStringF16 : M ByteArray (list cell) := let! len := readFuint16 in read_string len.
(* SRC sylar/bytearray.cpp:321-327 ByteArray::readStringF32 *)
Definition readStringF32 : M ByteArray (list cell) := let! len := readFuint32 in read_string len.
(* SRC sylar/bytearray.cpp:329-335 ByteArray::readStringF64 *)
Definition readStringF64 : M ByteArray (list cell) := let! len := readFuint64 in read_string len.
(* SRC sylar/bytearray.cpp:337-343 ByteArray::readStringVint *)
Definition readStringVint : M ByteArray (list cell) := let! len := readFuint64 in read_string len.

(** ** Wire types: what a writer produces and the matching reader consumes *)

(** [bs] fits in the buffer from the cursor on. *)
Definition room (s : ByteArray) (n : nat) : Prop :=
m_position s + Z.of_nat n + m_baseSize s < max_bytes.

Definition produces (w : M ByteArray unit) (bs : Z -> list Z) : Prop :=
forall s, wf s -> room s (length (bs (m_endian s))) ->
exists s', w s = Ret tt s' /\ wf s'
  /\ content s' = splice (content s) (cursor s) (map Some (bs (m_endian s)))
  /\ m_position s' = m_position s + Z.of_nat (length (bs (m_endian s)))
  /\ m_baseSize s' = m_baseSize s /\ m_endian s' = m_endian s.

(** The bytes [bs] are at the cursor. *)
Definition at_cursor (s : ByteArray) (bs : list Z) : Prop :=
m_position s + Z.of_nat (length bs) <= m_size s
/\ slice (content s) (cursor s) (length bs) = map Some bs.

Definition consumes {A} (r : M ByteArray A) (bs : Z -> list Z) (a : A) : Prop :=
forall s, wf s -> at_cursor s (bs (m_endian s)) ->
r s = Ret a (seek (m_position s + Z.of_nat (length (bs (m_endian s)))) s).

(** *** Messages: sequences of typed fields *)

Inductive kind :=
| KFint8 | KFuint8 | KFint16 | KFuint16 | KFint32 | KFuint32 | KFint64 | KFuint64
| KInt32 | KUint32 | KInt64 | KUint64 | KFloat
| KStringF16 | KStringF32 | KStringF64 | KStringVint.
(** A field: its kind and its value, a number or the bytes of a string. *)
Inductive value := Num (v : Z) | Str (bs : list Z).

Definition write_field (k : kind) (a : value) : M ByteArray unit :=
match k, a with
| KFint8, Num v => writeFint8 v
| KFuint8, Num v => writeFuint8 v
| KFint16, Num v => writeFint16 v
| KFuint16, Num v => writeFuint16 v
| KFint32, Num v => writeFint32 v
| KFuint32, Num v => writeFuint32 v
| KFint64, Num v => writeFint64 v
| KFuint64, Num v => writeFuint64 v
| KInt32, Num v => writeInt32 v
| KUint32, Num v => writeUint32 v
| KInt64, Num v => writeInt64 v
| KUint64, Num v => writeUint64 v
| KFloat, Num v => writeFloat v
| KStringF16, Str bs => writeStringF16 bs
| KStringF32, Str bs => writeStringF32 bs
| KStringF64, Str bs => writeStringF64 bs
| KStringVint, Str bs => writeStringVint bs
| _, _ => fail_with Indeterminate
end.

Definition num (r : M ByteArray Z) : M ByteArray value := let! v := r in ret (Num v).
Definition str (r : M ByteArray (list cell)) : M ByteArray value :=
let! cs := r in
match all_some cs with Some bs => ret (Str bs) | None => fail_with Indeterminate end.

Definition read_field (k : kind) : M ByteArray value :=
match k with
| KFint8 => num readFint8
| KFuint8 => num readFuint8
| KFint16 => num readFint16
| KFuint16 => num readFuint16
| KFint32 => num readFint32
| KFuint32 => num readFuint32
| KFint64 => num readFint64
| KFuint64 => num readFuint64
| KInt32 => num readInt32
| KUint32 => num readUint32
| KInt64 => num readInt64
| KUint64 => num readUint64
| KFloat => num readFloat
| KStringF16 => str readStringF16
| KStringF32 => str readStringF32
| KStringF64 => str readStringF64
| KStringVint => str readStringVint
end.

Fixpoint write_message (m : list (kind * value)) : M ByteArray unit :=
match m with
| [] => ret tt
| (k, a) :: m' => write_field k a ;; write_message m'
end.
Fixpoint read_message (ks : list kind) : M ByteArray (list value) :=
match ks with
| [] => ret []
| k :: ks' => let! a := read_field k in let! r := read_message ks' in ret (a :: r)
end.

(** The bytes of a value on the wire; the host does not occur in it. *)
Definition varint_bytes (rm : nat) (v : Z) : list Z :=
match varint rm v with Some bs => bs | None => [] end.
Definition field_wire (k : kind) (a : value) (e : Z) : list Z :=
let str n bs := ordered_bytes e n (Z.of_nat (length bs)) ++ bs in
match k, a with
| (KFint8 | KFuint8), Num v => le_bytes 1 v
| (KFint16 | KFuint16), Num v => ordered_bytes e 2 v
| (KFint32 | KFuint32 | KFloat), Num v => ordered_bytes e 4 v
| (KFint64 | KFuint64), Num v => ordered_bytes e 8 v
| KInt32, Num v => varint_bytes 5 (EncodeZigzag32 v)
| KUint32, Num v => varint_bytes 5 v
| KInt64, Num v => varint_bytes 10 (EncodeZigzag64 v)
| KUint64, Num v => varint_bytes 10 v
| KStringF16, Str bs => str 2%nat bs
| KStringF32, Str bs => str 4%nat bs
| (KStringF64 | KStringVint), Str bs => str 8%nat bs
| _, _ => []
end.
Definition message_wire (e : Z) (m : list (kind * value)) : list Z :=
concat (map (fun f => field_wire (fst f) (snd f) e) m).

(** The signed values whose zigzag encoding the code computes without overflow. *)
Definition zig_dom (w v : Z) : Prop := - 2 ^ (w - 1) < v < 2 ^ (w - 2).
Definition field_ok (k : kind) (a : value) : Prop :=
match k, a with
| KFint8, Num v => in_s 8 v
| KFuint8, Num v => in_u 8 v
| KFint16, Num v => in_s 16 v
| KFuint16, Num v => in_u 16 v
| KFint32, Num v => in_s 32 v
| (KFuint32 | KFloat | KUint32), Num v => in_u 32 v
| KFint64, Num v => in_s 64 v
| (KFuint64 | KUint64), Num v => in_u 64 v
| KInt32, Num v => zig_dom 32 v
| KInt64, Num v => zig_dom 64 v
| KStringF16, Str bs => bs <> [] /\ Z.of_nat (length bs) < 2 ^ 16
| KStringF32, Str bs => bs <> [] /\ Z.of_nat (length bs) < 2 ^ 32
| (KStringF64 | KStringVint), Str bs => bs <> [] /\ Z.of_nat (length bs) < 2 ^ 63
| _, _ => False
end.
End Codec.

(** ** Zigzag *)

Lemma zigzag_pos w v : 1 < w -> 0 <= v < 2 ^ (w - 1) ->
  let e := wrapu w (wraps w (v * 2)) in
  e = 2 * v /\ wraps w (Z.lxor (Z.shiftr e 1) (wrapu w (- Z.land e 1))) = v.
Proof.
  intros Hw Hv. cbv zeta. pose proof (pow2_split w ltac:(lia)).
  rewrite wrapu_wraps, wrapu_small by lia.
  rewrite Z.shiftr_div_pow2, Z.pow_1_r, Z.div_mul by lia.
  replace (Z.land (v * 2) 1) with 0 by (change (Z.land (v * 2) 1) with (Z.land (v * 2) (2 ^ 1 - 1));
    rewrite land_ones_mod, Z.pow_1_r, Z.mod_mul; lia).
  rewrite wrapu_small, Z.lxor_0_r, wraps_small by (unfold in_s; lia). lia.
Qed.

Lemma zigzag_neg w v : 1 < w -> - 2 ^ (w - 1) <= v < 0 ->
  let e := wrapu w (wrapu w (wrapu w (wraps w (- v)) * 2) - 1) in
  e = - 2 * v - 1 /\ wraps w (Z.lxor (Z.shiftr e 1) (wrapu w (- Z.land e 1))) = v.
Proof.
  intros Hw Hv. cbv zeta. pose proof (pow2_split w ltac:(lia)).
  rewrite wrapu_wraps, (wrapu_small w (- v)) by lia.
  assert (wrapu w (wrapu w (- v * 2) - 1) = - 2 * v - 1) as ->.
  { unfold wrapu. rewrite Zminus_mod_idemp_l, Z.mod_small; lia. }
  split; [done|]. replace (- 2 * v - 1) with (1 + (- v - 1) * 2) by lia.
  replace (Z.land (1 + (- v - 1) * 2) 1) with 1 by
    (change (Z.land (1 + (- v - 1) * 2) 1) with (Z.land (1 + (- v - 1) * 2) (2 ^ 1 - 1));
     rewrite land_ones_mod, Z.pow_1_r, Z.mod_add, Z.mod_small; lia).
  rewrite Z.shiftr_div_pow2, Z.pow_1_r, Z.div_add, Z.div_small, Z.add_0_l by lia.
  change (Z.opp 1) with (-1). assert (wrapu w (-1) = 2 ^ w - 1) as ->.
  { unfold wrapu. symmetry. apply Z.mod_unique_pos with (-1); lia. }
  rewrite lxor_ones_sub by lia.
  replace (2 ^ w - 1 - (- v - 1)) with (v + 1 * 2 ^ w) by lia.
  rewrite <- wraps_wrapu by lia. unfold wrapu. rewrite Z.mod_add by lia.
  fold (wrapu w v). rewrite wraps_wrapu, wraps_small by (unfold in_s; lia). done.
Qed.

Lemma EncodeZigzag32_value v : in_s 32 v ->
  EncodeZigzag32 v = (if v <? 0 then - 2 * v - 1 else 2 * v) /\ DecodeZigzag32 (EncodeZigzag32 v) = v.
Proof.
  intros Hv. unfold in_s in Hv. unfold DecodeZigzag32, EncodeZigzag32.
  destruct (Z.ltb_spec v 0); [apply zigzag_neg | apply zigzag_pos]; lia.
Qed.

Lemma EncodeZigzag64_value v : in_s 64 v ->
  EncodeZigzag64 v = (if v <? 0 then - 2 * v - 1 else 2 * v) /\ DecodeZigzag64 (EncodeZigzag64 v) = v.
Proof.
  intros Hv. unfold in_s in Hv. unfold DecodeZigzag64, EncodeZigzag64.
  destruct (Z.ltb_spec v 0); [apply zigzag_neg | apply zigzag_pos]; lia.
Qed.

(** ** Bytes *)

Section CodecFacts.
Context `{Host}.

Lemma seek_seek p q s : seek q (seek p s) = seek q s.
Proof. done. Qed.

Lemma read_bytes_ok s bs : wf s -> bs <> [] -> at_cursor s bs ->
  read (Z.of_nat (length bs)) s = Ret (map Some bs) (seek (m_position s + Z.of_nat (length bs)) s).
Proof.
  intros Hwf Hne [Hle Hsl]. destruct bs as [|b bs]; [done|].
  destruct (read_ok s (Z.of_nat (length (b :: bs))) Hwf) as [-> _]; [lia|done|left; simpl; lia|].
  rewrite Nat2Z.id. by rewrite Hsl.
Qed.

Lemma write_bytes_ok bs : produces (write (map Some bs) (Z.of_nat (length bs))) (fun _ => bs).
Proof.
  intros s Hwf Hroom. unfold room in Hroom.
  destruct (write_ok s (map Some bs) (Z.of_nat (length bs)) Hwf)
    as (s' & E & Hwf' & Hc & Hp & _ & Hb & He & _); [rewrite length_map; lia|done|].
  exists s'. rewrite Nat2Z.id, take_ge in Hc by (by rewrite length_map). by split_and!.
Qed.

Lemma produces_ext w b1 b2 : (forall e, b1 e = b2 e) -> produces w b1 -> produces w b2.
Proof. intros E Hp s Hwf Hr. rewrite <- E in *. by apply Hp. Qed.

Lemma consumes_ext {A} (r : M ByteArray A) b1 b2 a :
  (forall e, b1 e = b2 e) -> consumes r b1 a -> consumes r b2 a.
Proof. intros E Hc s Hwf Hr. rewrite <- E in *. by apply Hc. Qed.

Lemma produces_seq w1 w2 b1 b2 : produces w1 b1 -> produces w2 b2 ->
  produces (w1 ;; w2) (fun e => b1 e ++ b2 e).
Proof.
  intros H1 H2 s Hwf Hroom. unfold room in *. rewrite length_app in *.
  destruct (H1 s Hwf) as (s1 & E1 & Hwf1 & Hc1 & Hp1 & Hb1 & He1); [unfold room; lia|].
  rewrite <- He1 in *.
  destruct (H2 s1 Hwf1) as (s2 & E2 & Hwf2 & Hc2 & Hp2 & Hb2 & He2); [unfold room; lia|].
  exists s2. erewrite bind_Ret by done. split_and!; try done; try lia; try congruence.
  rewrite Hc2, Hc1, map_app. unfold cursor. rewrite Hp1.
  replace (Z.to_nat (m_position s + Z.of_nat (length (b1 (m_endian s1))))) with
    (Z.to_nat (m_position s) + length (map Some (b1 (m_endian s1))))%nat
    by (rewrite length_map; pose proof (wf_pos _ Hwf); lia).
  apply splice_splice. pose proof (length_content _ Hwf). pose proof (wf_pos _ Hwf). lia.
Qed.

Lemma at_cursor_app s b1 b2 : wf s -> at_cursor s (b1 ++ b2) ->
  at_cursor s b1 /\ at_cursor (seek (m_position s + Z.of_nat (length b1)) s) b2.
Proof.
  intros Hwf [Hle Hsl]. pose proof (wf_pos _ Hwf). pose proof (length_content _ Hwf).
  rewrite length_app in *. rewrite slice_app, map_app in Hsl.
  apply app_inj_1 in Hsl as [Hs1 Hs2].
  2:{ rewrite length_map. apply length_slice. unfold cursor. lia. }
  unfold at_cursor. change (content (seek _ s)) with (content s). unfold cursor in *. simpl.
  replace (Z.to_nat (m_position s + Z.of_nat (length b1))) with
    (Z.to_nat (m_position s) + length b1)%nat by lia.
  split_and!; try done; lia.
Qed.

Lemma consumes_bind {A B} (r : M ByteArray A) (k : A -> M ByteArray B) b1 b2 a b :
  consumes r b1 a -> consumes (k a) b2 b -> consumes (bind r k) (fun e => b1 e ++ b2 e) b.
Proof.
  intros H1 H2 s Hwf Hat. apply at_cursor_app in Hat as [Ha1 Ha2]; [|done].
  erewrite bind_Ret by (by apply H1). pose proof Ha1 as [Hle1 _].
  rewrite (H2 _) by (done || (apply wf_seek; [done|pose proof (wf_pos _ Hwf); lia])).
  rewrite seek_seek, length_app. simpl. f_equal. f_equal. lia.
Qed.

Lemma consumes_map {A B} (r : M ByteArray A) (f : A -> B) bs a :
  consumes r bs a -> consumes (let! v := r in ret (f v)) bs (f a).
Proof. intros Hr s Hwf Hat. by erewrite bind_Ret by (by apply Hr). Qed.

Lemma consumes_obj T bs : length bs = sizeof T -> (0 < sizeof T)%nat ->
  consumes (read_obj T) (fun _ => bs) (cast T (mem_value bs)).
Proof.
  intros Hl Hn s Hwf Hat. unfold read_obj. rewrite <- Hl.
  erewrite bind_Ret by (apply read_bytes_ok; [done|by destruct bs; simpl in *; [lia|]|done]).
  by rewrite all_some_map.
Qed.

(** *** Fixed-width integers *)

Lemma ordered_bytes_host n v : ordered_bytes SYLAR_BYTE_ORDER n v = mem_of n v.
Proof. unfold ordered_bytes, mem_of, SYLAR_BYTE_ORDER. by destruct little_host. Qed.

Lemma ordered_bytes_swap e n v : e = SYLAR_LITTLE_ENDIAN \/ e = SYLAR_BIG_ENDIAN ->
  e <> SYLAR_BYTE_ORDER -> ordered_bytes e n v = rev (mem_of n v).
Proof.
  unfold ordered_bytes, mem_of, SYLAR_BYTE_ORDER. destruct little_host.
  - intros [->| ->] ?; [done|done].
  - intros [->| ->] ?; [|done]. simpl. by rewrite rev_involutive.
Qed.

Lemma length_ordered_bytes e n v : length (ordered_bytes e n v) = n.
Proof. unfold ordered_bytes. case_match; by rewrite ?length_rev, length_le_bytes. Qed.

Lemma write_obj_ok T v : produces (write_obj T v) (fun _ => mem_of (sizeof T) v).
Proof.
  unfold write_obj. rewrite <- (length_mem_of (sizeof T) v) at 2. apply write_bytes_ok.
Qed.

Lemma write_swapped_ok T v : (0 < sizeof T)%nat ->
  produces (write_swapped T v) (fun e => ordered_bytes e (sizeof T) v).
Proof.
  intros Hn s Hwf Hr. unfold write_swapped. erewrite bind_Ret by done.
  rewrite length_ordered_bytes in *. destruct (Z.eqb_spec (m_endian s) SYLAR_BYTE_ORDER) as [E|E].
  - rewrite E, ordered_bytes_host.
    destruct (write_obj_ok T v s Hwf) as (s' & Hs'); rewrite length_mem_of in *; [done|].
    rewrite E in Hs'. by exists s'.
  - rewrite ordered_bytes_swap by (apply (wf_endian _ Hwf) || done).
    rewrite <- mem_of_byteswap by done.
    destruct (write_obj_ok T (byteswap T v) s Hwf) as (s' & Hs'); rewrite length_mem_of in *; [done|].
    by exists s'.
Qed.

Lemma read_swapped_ok T v : (0 < sizeof T)%nat -> in_ity T v ->
  consumes (read_swapped T) (fun e => ordered_bytes e (sizeof T) v) v.
Proof.
  intros Hn Hv s Hwf Hat. unfold read_swapped.
  assert (cast T (mem_value (ordered_bytes (m_endian s) (sizeof T) v)) =
    if m_endian s =? SYLAR_BYTE_ORDER then v else byteswap T v) as E.
  { destruct (Z.eqb_spec (m_endian s) SYLAR_BYTE_ORDER) as [E|E].
    - rewrite E, ordered_bytes_host. by apply mem_value_of.
    - rewrite ordered_bytes_swap by (apply (wf_endian _ Hwf) || done).
      rewrite <- mem_of_byteswap by done. apply mem_value_of; [done|].
      by apply cast_in_ity. }
  erewrite bind_Ret by (apply (consumes_obj T (ordered_bytes (m_endian s) (sizeof T) v));
    rewrite ?length_ordered_bytes; done).
  rewrite E. unfold bind, gets. change (m_endian (seek _ s)) with (m_endian s).
  case_match; [done|]. by rewrite byteswap_involutive.
Qed.
End CodecFacts.

(** ** Base-128 integers *)

Lemma lor_128 x : 0 <= x < 128 -> Z.lor x 128 = x + 128.
Proof. intros. apply (lor_shiftl_add x 1 7); lia. Qed.

(** The bytes of a value, least significant group first. *)
Lemma varint_unfold room v : 0 <= v -> varint (S room) v =
  if v <? 128 then Some [v]
  else match varint room (v / 128) with Some bs => Some (v mod 128 + 128 :: bs) | None => None end.
Proof.
  intros Hv. simpl. rewrite Z.shiftr_div_pow2 by lia. change (2 ^ 7) with 128.
  pose proof (Z.mod_pos_bound v 128 ltac:(lia)).
  destruct (Z.geb_spec v 128), (Z.ltb_spec v 128); try lia.
  - destruct (varint room (v / 128)); [|done].
    change 127 with (2 ^ 7 - 1). rewrite land_ones_mod by lia. change (2 ^ 7) with 128.
    rewrite lor_128, wrapu_small by lia. done.
  - by rewrite wrapu_small by lia.
Qed.

Lemma varint_fits room : forall v, 0 <= v < 128 ^ Z.of_nat room -> (0 < room)%nat ->
  exists bs, varint room v = Some bs /\ (0 < length bs <= room)%nat /\ Forall is_byte bs.
Proof.
  induction room as [|room IH]; intros v Hv Hr; [lia|].
  rewrite varint_unfold by lia. destruct (Z.ltb_spec v 128).
  - exists [v]. split_and!; simpl; [done|lia|lia|]. repeat constructor; lia.
  - destruct room as [|room]; [simpl in Hv; lia|].
    destruct (IH (v / 128)) as (bs & -> & Hl & Hb); [|lia|].
    + rewrite Nat2Z.inj_succ, Z.pow_succ_r in Hv by lia.
      split; [apply Z.div_pos; lia|apply Z.div_lt_upper_bound; lia].
    + eexists. split_and!; [done|simpl; lia..|]. constructor; [|done].
      pose proof (Z.mod_pos_bound v 128 ltac:(lia)). unfold is_byte. lia.
Qed.

Section Varint.
Context `{Host}.

Lemma readFuint8_ok b : is_byte b -> consumes readFuint8 (fun _ => [b]) b.
Proof.
  intros Hb. unfold is_byte in Hb.
  assert (cast uint8_t (mem_value [b]) = b) as E.
  { unfold mem_value, cast. simpl. change (bits uint8_t) with 8.
    destruct little_host; rewrite wrapu_small; lia. }
  pose proof (consumes_obj uint8_t [b] ltac:(done) ltac:(simpl; lia)) as Hc.
  by rewrite E in Hc.
Qed.

Lemma read_varint_ok rm : forall v bs fuel w i acc, varint rm v = Some bs ->
  0 <= i -> 0 <= v -> 0 <= acc < 2 ^ i -> v * 2 ^ i < 2 ^ w -> i < w ->
  (length bs <= fuel)%nat ->
  consumes (read_varint fuel w i acc) (fun _ => bs) (acc + v * 2 ^ i).
Proof.
  induction rm as [|rm IH]; intros v bs fuel w i acc Hv Hi Hv0 Hacc Hw Hiw Hf; [done|].
  rewrite varint_unfold in Hv by done. pose proof (Z.pow_pos_nonneg 2 i ltac:(lia) Hi) as Hpi.
  destruct (Z.ltb_spec v 128) as [Hlt|Hge].
  - injection Hv as <-. destruct fuel as [|fuel]; [simpl in *; lia|].
    intros s Hwf Hat. simpl read_varint. rewrite (proj2 (Z.ltb_lt _ _)) by done.
    erewrite bind_Ret by (apply (readFuint8_ok v); [unfold is_byte; lia|done|done]).
    rewrite (proj2 (Z.ltb_lt v 128)) by done. unfold ret. f_equal.
    assert (0 <= v * 2 ^ i) by (apply Z.mul_nonneg_nonneg; lia).
    rewrite wrapu_small by (rewrite Z.shiftl_mul_pow2 by done; lia).
    by apply lor_shiftl_add.
  - destruct (varint rm (v / 128)) as [bs'|] eqn:E; [|done]. injection Hv as <-.
    destruct fuel as [|fuel]; [simpl in *; lia|].
    pose proof (Z.mod_pos_bound v 128 ltac:(lia)) as Hm.
    pose proof (Z.div_mod v 128 ltac:(lia)) as Hdm.
    assert (2 ^ (i + 7) = 2 ^ i * 128) as Hp7 by (rewrite Z.pow_add_r by lia; done).
    change (fun _ : Z => v mod 128 + 128 :: bs') with (fun _ : Z => [v mod 128 + 128] ++ bs').
    assert (i + 7 < w). { apply (Z.pow_lt_mono_r_iff 2); [lia| |nia].
      destruct (decide (0 <= w)); [done|]. rewrite Z.pow_neg_r in Hw by lia. nia. }
    intros s Hwf Hat. simpl read_varint. rewrite (proj2 (Z.ltb_lt _ _)) by done.
    revert s Hwf Hat.
    change (consumes (bind readFuint8 (fun b =>
        if b <? 128 then ret (Z.lor acc (wrapu w (Z.shiftl b i)))
        else read_varint fuel w (i + 7) (Z.lor acc (wrapu w (Z.shiftl (Z.land b 127) i)))))
      (fun _ : Z => [v mod 128 + 128] ++ bs') (acc + v * 2 ^ i)).
    eapply (consumes_bind _ _ (fun _ => [v mod 128 + 128]) (fun _ => bs'));
      [apply readFuint8_ok; unfold is_byte; lia|].
    destruct (Z.ltb_spec (v mod 128 + 128) 128); [lia|].
    change 127 with (2 ^ 7 - 1). rewrite land_ones_mod by lia. change (2 ^ 7) with 128.
    replace (v mod 128 + 128) with (v mod 128 + 1 * 128) by lia.
    rewrite Z.mod_add, Z.mod_mod by lia.
    assert (0 <= v mod 128 * 2 ^ i <= v * 2 ^ i) by nia.
    rewrite wrapu_small by (rewrite Z.shiftl_mul_pow2 by done; lia).
    rewrite lor_shiftl_add by done.
    replace (acc + v * 2 ^ i) with ((acc + v mod 128 * 2 ^ i) + v / 128 * 2 ^ (i + 7)) by nia.
    apply IH; try done; try lia; try nia. simpl in Hf. lia.
Qed.

Lemma write_varint_ok rm v bs : varint rm v = Some bs -> (length bs < 256)%nat ->
  produces (write_varint rm v) (fun _ => bs).
Proof.
  intros E Hl. unfold write_varint. rewrite E, wrapu_small by lia. apply write_bytes_ok.
Qed.

(** Both widths at once: [rm] bytes suffice for [w] bits. *)
Lemma varint_roundtrip rm w v : 0 < w -> 2 ^ w <= 128 ^ Z.of_nat rm -> (0 < rm < 256)%nat ->
  0 <= v < 2 ^ w -> exists bs, varint rm v = Some bs
    /\ produces (write_varint rm v) (fun _ => bs)
    /\ consumes (read_varint (S rm) w 0 0) (fun _ => bs) v.
Proof.
  intros Hw Hle Hrm Hv. destruct (varint_fits rm v) as (bs & E & Hl & _); [lia|lia|].
  exists bs. split_and!; [done|apply write_varint_ok; [done|lia]|].
  replace v with (0 + v * 2 ^ 0) at 1 by lia.
  apply (read_varint_ok rm); try done; try lia.
Qed.

Lemma uint32_wire v : in_u 32 v ->
  produces (writeUint32 v) (fun _ => varint_bytes 5 v) /\ consumes readUint32 (fun _ => varint_bytes 5 v) v.
Proof.
  intros Hv. destruct (varint_roundtrip 5 32 v) as (bs & E & H1 & H2);
    [done|done|lia|done|]. unfold varint_bytes. rewrite E. done.
Qed.

Lemma uint64_wire v : in_u 64 v ->
  produces (writeUint64 v) (fun _ => varint_bytes 10 v) /\ consumes readUint64 (fun _ => varint_bytes 10 v) v.
Proof.
  intros Hv. destruct (varint_roundtrip 10 64 v) as (bs & E & H1 & H2);
    [done|done|lia|done|]. unfold varint_bytes. rewrite E. done.
Qed.

Lemma int32_wire v : zig_dom 32 v ->
  produces (writeInt32 v) (fun _ => varint_bytes 5 (EncodeZigzag32 v))
  /\ consumes readInt32 (fun _ => varint_bytes 5 (EncodeZigzag32 v)) v.
Proof.
  intros Hv. unfold zig_dom in Hv. destruct (EncodeZigzag32_value v) as [E D]; [unfold in_s; lia|].
  destruct (uint32_wire (EncodeZigzag32 v)) as [H1 H2].
  { rewrite E. unfold in_u. destruct (Z.ltb_spec v 0); lia. }
  split.
  - unfold writeInt32. replace (EncodeZigzag32_defined v) with true; [done|].
    unfold EncodeZigzag32_defined. destruct (Z.ltb_spec v 0); lia.
  - pose proof (consumes_map _ DecodeZigzag32 _ _ H2) as Hc. by rewrite D in Hc.
Qed.

Lemma int64_wire v : zig_dom 64 v ->
  produces (writeInt64 v) (fun _ => varint_bytes 10 (EncodeZigzag64 v))
  /\ consumes readInt64 (fun _ => varint_bytes 10 (EncodeZigzag64 v)) v.
Proof.
  intros Hv. unfold zig_dom in Hv. destruct (EncodeZigzag64_value v) as [E D]; [unfold in_s; lia|].
  destruct (uint64_wire (EncodeZigzag64 v)) as [H1 H2].
  { rewrite E. unfold in_u. destruct (Z.ltb_spec v 0); lia. }
  split.
  - unfold writeInt64. replace (EncodeZigzag64_defined v) with true; [done|].
    unfold EncodeZigzag64_defined. destruct (Z.ltb_spec v 0); lia.
  - pose proof (consumes_map _ DecodeZigzag64 _ _ H2) as Hc. by rewrite D in Hc.
Qed.

(** *** Strings *)

Lemma read_string_ok bs : bs <> [] -> Z.of_nat (length bs) < 2 ^ 63 ->
  consumes (read_string (Z.of_nat (length bs))) (fun _ => bs) (map Some bs).
Proof.
  intros Hne Hl s Hwf Hat. unfold read_string.
  destruct (Z.gtb_spec (Z.of_nat (length bs)) (2 ^ 63 - 1)); [lia|].
  by apply read_bytes_ok.
Qed.

Lemma string_wire T bs : (0 < sizeof T)%nat -> signed T = false -> bs <> [] ->
  Z.of_nat (length bs) < 2 ^ bits T -> Z.of_nat (length bs) < 2 ^ 63 ->
  let n := wrapu (bits T) (Z.of_nat (length bs)) in
  let wire e := ordered_bytes e (sizeof T) n ++ bs in
  produces (write_swapped T n ;; write_string bs) wire
  /\ consumes (let! len := read_swapped T in read_string len) wire (map Some bs).
Proof.
  intros Hn Hs Hne Hl1 Hl2. cbv zeta. split.
  - apply (produces_seq _ _ (fun e => ordered_bytes e (sizeof T) _) (fun _ => bs));
      [by apply write_swapped_ok|apply write_bytes_ok].
  - apply (consumes_bind _ _ (fun e => ordered_bytes e (sizeof T) _) (fun _ => bs) (Z.of_nat (length bs))).
    + rewrite wrapu_small by lia. apply read_swapped_ok; [done|].
      unfold in_ity. rewrite Hs. unfold in_u. lia.
    + by apply read_string_ok.
Qed.
End Varint.

(** ** Messages *)

Section Messages.
Context `{Host}.

Lemma num_wire w r bs v : produces w bs /\ consumes r bs v ->
  produces w bs /\ consumes (num r) bs (Num v).
Proof. intros [? ?]. split; [done|]. by apply consumes_map. Qed.

Lemma str_wire w r bs l : produces w bs /\ consumes r bs (map Some l) ->
  produces w bs /\ consumes (str r) bs (Str l).
Proof.
  intros [? Hr]. split; [done|]. intros s Hwf Hat. unfold str.
  erewrite bind_Ret by (by apply Hr). by rewrite all_some_map.
Qed.

Lemma fint_wire T v : (0 < sizeof T)%nat -> in_ity T v ->
  produces (write_swapped T v) (fun e => ordered_bytes e (sizeof T) v)
  /\ consumes (read_swapped T) (fun e => ordered_bytes e (sizeof T) v) v.
Proof. intros. split; [by apply write_swapped_ok | by apply read_swapped_ok]. Qed.

Lemma mem_of_1 v : mem_of 1 v = le_bytes 1 v.
Proof. unfold mem_of. by destruct little_host. Qed.

Lemma fint8_wire v : in_s 8 v ->
  produces (writeFint8 v) (fun _ => le_bytes 1 v) /\ consumes readFint8 (fun _ => le_bytes 1 v) v.
Proof.
  intros Hv. rewrite <- mem_of_1. split; [apply write_obj_ok|].
  pose proof (consumes_map _ (cast int8_t) _ _
    (consumes_obj uint8_t (mem_of 1 v) (length_mem_of 1 v) ltac:(simpl; lia))) as Hc.
  assert (cast int8_t (cast uint8_t (mem_value (mem_of 1 v))) = v) as E.
  { change (cast uint8_t (mem_value (mem_of 1 v))) with (wrapu (bits int8_t) (mem_value (mem_of 1 v))).
    rewrite cast_wrapu by (simpl; lia). apply (mem_value_of int8_t); [simpl; lia|done]. }
  by rewrite E in Hc.
Qed.

Lemma fuint8_wire v : in_u 8 v ->
  produces (writeFuint8 v) (fun _ => le_bytes 1 v) /\ consumes readFuint8 (fun _ => le_bytes 1 v) v.
Proof.
  intros Hv. rewrite <- mem_of_1. split; [apply write_obj_ok|].
  pose proof (consumes_obj uint8_t (mem_of 1 v) (length_mem_of 1 v) ltac:(simpl; lia)) as Hc.
  by rewrite (mem_value_of uint8_t) in Hc by (simpl; lia || done).
Qed.

(** Strings with the length prefix type [T]. *)
Lemma str_field_wire T bs : (0 < sizeof T)%nat -> signed T = false ->
  bs <> [] /\ Z.of_nat (length bs) < 2 ^ Z.min 63 (bits T) ->
  let wire e := ordered_bytes e (sizeof T) (Z.of_nat (length bs)) ++ bs in
  produces (write_swapped T (wrapu (bits T) (Z.of_nat (length bs))) ;; write_string bs) wire
  /\ consumes (str (let! len := read_swapped T in read_string len)) wire (Str bs).
Proof.
  intros Hn Hs [Hne Hl]. cbv zeta. apply str_wire.
  assert (2 ^ Z.min 63 (bits T) <= 2 ^ bits T) by (apply Z.pow_le_mono_r; lia).
  assert (2 ^ Z.min 63 (bits T) <= 2 ^ 63) by (apply Z.pow_le_mono_r; lia).
  pose proof (string_wire T bs Hn Hs Hne ltac:(lia) ltac:(lia)) as W. cbv zeta in W.
  rewrite (wrapu_small (bits T)) in W |- * by lia. exact W.
Qed.

Lemma field_wire_ok k a : field_ok k a ->
  produces (write_field k a) (field_wire k a) /\ consumes (read_field k) (field_wire k a) a.
Proof.
  intros Hok. destruct k, a as [v|bs]; try (exfalso; exact Hok);
  [ apply num_wire, fint8_wire | apply num_wire, fuint8_wire
  | apply num_wire, (fint_wire int16_t); [apply le_n_S, Nat.le_0_l|]
  | apply num_wire, (fint_wire uint16_t); [apply le_n_S, Nat.le_0_l|]
  | apply num_wire, (fint_wire int32_t); [apply le_n_S, Nat.le_0_l|]
  | apply num_wire, (fint_wire uint32_t); [apply le_n_S, Nat.le_0_l|]
  | apply num_wire, (fint_wire int64_t); [apply le_n_S, Nat.le_0_l|]
  | apply num_wire, (fint_wire uint64_t); [apply le_n_S, Nat.le_0_l|]
  | apply num_wire, int32_wire | apply num_wire, uint32_wire
  | apply num_wire, int64_wire | apply num_wire, uint64_wire
  | apply num_wire, (fint_wire uint32_t); [apply le_n_S, Nat.le_0_l|]
  | apply (str_field_wire uint16_t); [apply le_n_S, Nat.le_0_l|done|]
  | apply (str_field_wire uint32_t); [apply le_n_S, Nat.le_0_l|done|]
  | apply (str_field_wire uint64_t); [apply le_n_S, Nat.le_0_l|done|]
  | apply (str_field_wire uint64_t); [apply le_n_S, Nat.le_0_l|done|] ];
  exact Hok.
Qed.

Lemma write_message_ok m : Forall (fun f => field_ok (fst f) (snd f)) m ->
  produces (write_message m) (fun e => message_wire e m).
Proof.
  induction 1 as [|[k a] m Hf _ IH].
  - intros s Hwf _. exists s. split_and!; try done; simpl; [by rewrite splice_nil|lia].
  - apply (produces_seq _ _ (field_wire k a)); [apply (field_wire_ok k a Hf)|exact IH].
Qed.

Lemma read_message_ok m : Forall (fun f => field_ok (fst f) (snd f)) m ->
  consumes (read_message (map fst m)) (fun e => message_wire e m) (map snd m).
Proof.
  induction 1 as [|[k a] m Hf _ IH].
  - intros s Hwf _. simpl. rewrite Z.add_0_r, seek_eta; [done|apply Hwf].
  - eapply (consumes_bind _ _ (field_wire k a) (fun e => message_wire e m));
      [apply (field_wire_ok k a Hf)|].
    by apply (consumes_map _ (fun r => a :: r)).
Qed.
End Messages.

(** What was produced can be consumed after moving the cursor back, on any host. *)
Lemma produces_consumes (h1 h2 : Host) {A} w (r : M ByteArray A) bs a s :
  produces w bs -> consumes r bs a -> wf s -> room s (length (bs (m_endian s))) ->
  exists s1 s2 s3, w s = Ret tt s1 /\ setPosition (m_position s) s1 = Ret tt s2
    /\ r s2 = Ret a s3 /\ wf s3 /\ m_position s3 = m_position s1
    /\ content s3 = content s1
    /\ content s1 = splice (content s) (cursor s) (map Some (bs (m_endian s)))
    /\ m_capacity s3 = m_capacity s1.
Proof.
  intros Hw Hr Hwf Hroom. pose proof (wf_pos _ Hwf) as Hp.
  pose proof (length_content _ Hwf) as Hlc.
  destruct (Hw s Hwf Hroom) as (s1 & E1 & Hwf1 & Hc1 & Hp1 & Hb1 & He1).
  pose proof (wf_pos _ Hwf1). pose proof (wf_size _ Hwf1).
  destruct (setPosition_ok s1 (m_position s) Hwf1) as [E2 Hwf2]; [lia|].
  rewrite Z.max_l in E2, Hwf2 by lia. set (s2 := with_size (m_size s1) (seek (m_position s) s1)) in *.
  assert (at_cursor s2 (bs (m_endian s2))) as Hat.
  { change (m_endian s2) with (m_endian s1). rewrite He1. split; [simpl; lia|].
    change (content s2) with (content s1). rewrite Hc1.
    change (cursor s2) with (cursor s). rewrite <- (length_map Some (bs (m_endian s))).
    apply slice_splice. unfold cursor. lia. }
  pose proof (Hr s2 Hwf2 Hat) as E3. change (m_endian s2) with (m_endian s1) in E3.
  exists s1, s2. eexists. split_and!; [exact E1|exact E2|exact E3| | |done|exact Hc1|done].
  - apply wf_seek; [done|]. simpl. rewrite He1. lia.
  - simpl. rewrite He1. lia.
Qed.

(** ** Properties *)

(** C15: a message of typed fields written at the cursor on one host and read back from
    there on another gives the same values in order and ends at the same position; the
    bytes are those of the wire format of the buffer's byte order, which does not depend
    on the host. The fields ([field_ok]) are fixed-width integers, floats as their bits,
    unsigned variable-length integers, zigzag integers in [zig_dom] (above [-2^31] and below
    [2^30] at 32 bits) and strings that are not empty, and the buffer has room. What is left
    out does not survive: [writeInt32_overflow], [readStringF16_empty_crash],
    [writeDouble_not_widened]. *)
Theorem message_roundtrip (h1 h2 : Host) m s :
  Forall (fun f => field_ok (fst f) (snd f)) m -> wf s ->
  room s (length (message_wire (m_endian s) m)) ->
  exists s1 s2 s3, @write_message h1 m s = Ret tt s1
    /\ setPosition (m_position s) s1 = Ret tt s2
    /\ @read_message h2 (map fst m) s2 = Ret (map snd m) s3
    /\ wf s3 /\ m_position s3 = m_position s1
    /\ content s3 = content s1
    /\ content s1 = splice (content s) (cursor s) (map Some (message_wire (m_endian s) m)).
Proof.
  intros Hm Hwf Hroom.
  destruct (produces_consumes h1 h2 _ _ (fun e => message_wire e m) _ s
    (write_message_ok (H := h1) m Hm) (read_message_ok (H := h2) m Hm) Hwf Hroom)
    as (s1 & s2 & s3 & ? & ? & ? & ? & ? & ? & ? & _).
  by exists s1, s2, s3.
Qed.

Definition sample_message : list (kind * value) :=
  [(KFint16, Num (-2)); (KUint32, Num 300); (KStringF16, Str [104; 105]); (KInt64, Num (-5))].
Lemma message_roundtrip_witness :
  exists s1 s2 s3, @write_message x86_64 sample_message (new_ByteArray 4) = Ret tt s1
    /\ setPosition 0 s1 = Ret tt s2
    /\ @read_message big_host [KFint16; KUint32; KStringF16; KInt64] s2
       = Ret [Num (-2); Num 300; Str [104; 105]; Num (-5)] s3
    /\ content s1 = map Some [255; 254; 172; 2; 0; 2; 104; 105; 9].
Proof.
  destruct (message_roundtrip x86_64 big_host sample_message (new_ByteArray 4))
    as (s1 & s2 & s3 & E1 & E2 & E3 & _ & _ & _ & E4).
  - unfold sample_message. repeat constructor; vm_compute; intuition discriminate.
  - apply new_ByteArray_wf. by vm_compute.
  - by vm_compute.
  - exists s1, s2, s3. split_and!; [exact E1|exact E2|exact E3|].
    rewrite E4. by vm_compute.
Defined.

Lemma zigzag_surj w (enc dec : Z -> Z) u : 1 < w -> in_u w u ->
  (forall v, in_s w v -> enc v = (if v <? 0 then - 2 * v - 1 else 2 * v) /\ dec (enc v) = v) ->
  in_s w (dec u) /\ enc (dec u) = u.
Proof.
  intros Hw Hu Henc. unfold in_u, in_s in *. pose proof (pow2_split w ltac:(lia)).
  pose proof (Z.div_mod u 2 ltac:(lia)). pose proof (Z.mod_pos_bound u 2 ltac:(lia)).
  assert (exists v, (0 <= v /\ u = 2 * v) \/ (v < 0 /\ u = - 2 * v - 1)) as [v Hv].
  { destruct (decide (u mod 2 = 0)); [exists (u / 2)|exists (- (u / 2) - 1)]; lia. }
  destruct (Henc v) as [E D]; [unfold in_s; lia|].
  assert (enc v = u) as Eu by (rewrite E; destruct (Z.ltb_spec v 0); lia).
  rewrite Eu in D. rewrite D. split; [lia|done].
Qed.

(** the zigzag codings are bijections between the signed and the unsigned integers
    of 32 and of 64 bits, mapping v >= 0 to 2v and v < 0 to -2v-1. *)
Theorem zigzag_bijection :
  (forall v, in_s 32 v -> in_u 32 (EncodeZigzag32 v) /\ DecodeZigzag32 (EncodeZigzag32 v) = v
     /\ EncodeZigzag32 v = (if v <? 0 then - 2 * v - 1 else 2 * v))
  /\ (forall u, in_u 32 u -> in_s 32 (DecodeZigzag32 u) /\ EncodeZigzag32 (DecodeZigzag32 u) = u)
  /\ (forall v, in_s 64 v -> in_u 64 (EncodeZigzag64 v) /\ DecodeZigzag64 (EncodeZigzag64 v) = v
     /\ EncodeZigzag64 v = (if v <? 0 then - 2 * v - 1 else 2 * v))
  /\ (forall u, in_u 64 u -> in_s 64 (DecodeZigzag64 u) /\ EncodeZigzag64 (DecodeZigzag64 u) = u).
Proof.
  split_and!.
  - intros v Hv. destruct (EncodeZigzag32_value v Hv) as [E D]. split_and!; [|done|done].
    rewrite E. unfold in_s, in_u in *. case_match; lia.
  - intros u Hu. apply (zigzag_surj 32); [done|done|apply EncodeZigzag32_value].
  - intros v Hv. destruct (EncodeZigzag64_value v Hv) as [E D]. split_and!; [|done|done].
    rewrite E. unfold in_s, in_u in *. case_match; lia.
  - intros u Hu. apply (zigzag_surj 64); [done|done|apply EncodeZigzag64_value].
Qed.

(** [writeInt32] computes [-value] or [value * 2] in a signed type: the computation
    overflows exactly for INT32_MIN and for values from 2^30 on, though the wrapped
    result would still decode; every other value is written in at most five bytes. *)
Theorem writeInt32_overflow v s : in_s 32 v -> wf s -> room s 5 ->
  if decide (v = - 2 ^ 31 \/ 2 ^ 30 <= v) then writeInt32 v s = UB SignedOverflow
  else exists s', writeInt32 v s = Ret tt s' /\ m_position s' <= m_position s + 5.
Proof.
  intros Hv Hwf Hroom. unfold in_s in Hv. case_decide as Hd.
  - unfold writeInt32. replace (EncodeZigzag32_defined v) with false; [done|].
    unfold EncodeZigzag32_defined. case_match; lia.
  - destruct (int32_wire (H := x86_64) v) as [Hp _]; [unfold zig_dom; lia|].
    destruct (EncodeZigzag32_value v) as [E _]; [unfold in_s; lia|].
    destruct (varint_fits 5 (EncodeZigzag32 v)) as (bs & Eb & Hl & _).
    { rewrite E. case_match; lia. } { lia. }
    assert (varint_bytes 5 (EncodeZigzag32 v) = bs) as Ew by (unfold varint_bytes; by rewrite Eb).
    destruct (Hp s Hwf) as (s' & E' & _ & _ & Hp' & _); rewrite Ew in *;
      [unfold room in *; lia|]. exists s'. split; [done|lia].
Qed.

Lemma writeInt32_overflow_witness :
  writeInt32 (2 ^ 30) (new_ByteArray 16) = UB SignedOverflow.
Proof.
  pose proof (writeInt32_overflow (2 ^ 30) (new_ByteArray 16)) as W.
  rewrite decide_True in W by (right; lia). apply W.
  - split; lia.
  - apply new_ByteArray_wf. by vm_compute.
  - by vm_compute.
Defined.

(** The capacity does not change when the integer fits. *)
Lemma write_swapped_capacity `{Host} T v s s' : wf s -> room s (sizeof T) ->
  m_position s + Z.of_nat (sizeof T) <= m_capacity s ->
  write_swapped T v s = Ret tt s' -> m_capacity s' = m_capacity s.
Proof.
  intros Hwf Hroom Hcap E. unfold room in Hroom.
  unfold write_swapped, write_obj in E. erewrite bind_Ret in E by done. cbv zeta in E.
  set (v' := if m_endian s =? SYLAR_BYTE_ORDER then v else byteswap T v) in *.
  destruct (write_ok s (map Some (mem_of (sizeof T) v')) (Z.of_nat (sizeof T)) Hwf)
    as (s1 & E1 & _ & _ & _ & _ & _ & _ & _ & Hc); [rewrite length_map, length_mem_of; lia|lia|].
  rewrite E in E1. injection E1 as <-. by apply Hc.
Qed.

Lemma writeStringF16_empty `{Host} s : writeStringF16 [] s = writeFuint16 0 s.
Proof.
  unfold writeStringF16. change (u16 (Z.of_nat (length []))) with 0. unfold bind.
  by destruct (writeFuint16 0 s) as [[] s'| |].
Qed.

(** an empty string whose two-byte length prefix ends exactly at the end of the
    capacity can be written but not read back: [readStringF16] reads zero bytes with a
    null block pointer and dereferences it. *)
Theorem readStringF16_empty_crash `{Host} s : wf s -> room s 2 ->
  m_position s + 2 = m_capacity s ->
  exists s1 s2, writeStringF16 [] s = Ret tt s1
    /\ setPosition (m_position s) s1 = Ret tt s2 /\ readStringF16 s2 = UB NullDeref.
Proof.
  intros Hwf Hroom Hcap. unfold readStringF16, readFuint16. rewrite writeStringF16_empty.
  pose proof (write_swapped_ok uint16_t 0 ltac:(simpl; lia)) as Hp.
  pose proof (read_swapped_ok uint16_t 0 ltac:(simpl; lia) ltac:(done)) as Hc.
  assert (room s (length (ordered_bytes (m_endian s) (sizeof uint16_t) 0))) as Hr
    by (by rewrite length_ordered_bytes).
  destruct (Hp s Hwf Hr) as (s1 & E1 & Hwf1 & _ & Hp1 & _ & He1).
  rewrite length_ordered_bytes in Hp1. change (Z.of_nat (sizeof uint16_t)) with 2 in Hp1.
  pose proof (write_swapped_capacity uint16_t _ _ _ Hwf Hroom ltac:(simpl; lia) E1) as Hc1.
  destruct (produces_consumes _ _ _ _ _ _ s Hp Hc Hwf Hr) as (s1' & s2 & s3 & F1 & F2 & F3 & Hwf3 & Hp3 & _ & _ & Hcap3).
  rewrite E1 in F1. injection F1 as <-. exists s1, s2. split_and!; [exact E1|exact F2|].
  erewrite bind_Ret by exact F3. apply read_empty_at_end; [done|].
  lia.
Qed.

Lemma readStringF16_empty_crash_witness :
  exists s1 s2, @writeStringF16 x86_64 [] (new_ByteArray 2) = Ret tt s1
    /\ setPosition 0 s1 = Ret tt s2 /\ @readStringF16 x86_64 s2 = UB NullDeref.
Proof.
  apply (@readStringF16_empty_crash x86_64 (new_ByteArray 2)).
  - apply new_ByteArray_wf. by vm_compute.
  - by vm_compute.
  - by vm_compute.
Defined.

Lemma le_value_app a b : le_value (a ++ b) = le_value a + 256 ^ Z.of_nat (length a) * le_value b.
Proof.
  induction a as [|x a IH]; simpl; [lia|].
  rewrite IH, Nat2Z.inj_succ, Z.pow_succ_r by lia. lia.
Qed.

(** [writeDouble] takes a float and copies its four bytes into an eight-byte
    integer whose other half is never set: on x86-64, whatever that half holds, the
    low word of what [readDouble] returns is the float's own bit pattern. So a float
    whose mantissa has one of its low 29 bits set, and 1.0f too, is never read back as
    the double of the same value (whose low 29 bits are zero). *)
Theorem writeDouble_not_widened junk bits32 s :
  length junk = 4%nat -> Forall is_byte junk -> in_u 32 bits32 ->
  wf s -> room s 8 ->
  exists s1 s2 s3 d, @writeDouble x86_64 junk bits32 s = Ret tt s1
    /\ setPosition (m_position s) s1 = Ret tt s2
    /\ @readDouble x86_64 s2 = Ret d s3 /\ d mod 2 ^ 32 = bits32
    /\ (bits32 = 0x3f800000 -> d <> 0x3ff0000000000000).
Proof.
  intros Hl Hj Hb Hwf Hroom. unfold in_u in Hb.
  set (d := mem_value (H := x86_64) (mem_of (H := x86_64) 4 bits32 ++ junk)).
  assert (d = bits32 + 2 ^ 32 * le_value junk) as Hd.
  { unfold d, mem_value, mem_of. simpl little_host. cbv iota.
    rewrite le_value_app, le_value_bytes, length_le_bytes, Z.mod_small by (simpl; lia). done. }
  pose proof (le_value_range junk Hj) as Hr. rewrite Hl in Hr. change (256 ^ Z.of_nat 4) with (2 ^ 32) in Hr.
  assert (in_ity uint64_t d) as Hdd by (unfold in_ity, in_u; simpl; change (bits uint64_t) with 64; lia).
  destruct (produces_consumes x86_64 x86_64 _ _ _ _ s
    (write_swapped_ok (H := x86_64) uint64_t d ltac:(simpl; lia))
    (read_swapped_ok (H := x86_64) uint64_t d ltac:(simpl; lia) Hdd) Hwf)
    as (s1 & s2 & s3 & E1 & E2 & E3 & _); [by rewrite length_ordered_bytes|].
  exists s1, s2, s3, d. split_and!; [exact E1|exact E2|exact E3| |].
  - rewrite Hd, Z.mul_comm, Z.mod_add, Z.mod_small; lia.
  - intros ->. lia.
Qed.

Lemma writeDouble_not_widened_witness :
  exists s1 s2 s3 d, @writeDouble x86_64 [0; 0; 0; 0] 0x3f800000 (new_ByteArray 16) = Ret tt s1
    /\ setPosition 0 s1 = Ret tt s2 /\ @readDouble x86_64 s2 = Ret d s3 /\ d <> 0x3ff0000000000000.
Proof.
  destruct (writeDouble_not_widened [0; 0; 0; 0] 0x3f800000 (new_ByteArray 16))
    as (s1 & s2 & s3 & d & E1 & E2 & E3 & _ & Hne).
  - reflexivity.
  - repeat constructor; by vm_compute.
  - split; by vm_compute.
  - apply new_ByteArray_wf. by vm_compute.
  - by vm_compute.
  - exists s1, s2, s3, d. split_and!; [exact E1|exact E2|exact E3|by apply Hne].
Defined.
