(* ===== verification/FdManager.v ===== *)
(** * FdManager: [FdCtx] and [FdManager] of [sylar/fd_manager.h] and [fd_manager.cpp]

    The contexts of the file descriptors are shared objects on a heap, named by their
    address, because [get] hands out the pointer it keeps and its callers ([Hook]) change
    the object behind it; the address a [new FdCtx] gets is an argument. The kernel, which
    [init] asks about a descriptor, is any type with the operations and laws of the class
    [FdKernel]. [get] takes the lock twice, so it is two steps, [get_locked] and
    [get_create]. *)

From S2P Require Import Prelude.

(** ** What [init] uses of the kernel *)

Definition O_NONBLOCK : Z := 2048.
Definition S_IFMT : Z := 61440.
Definition S_IFSOCK : Z := 49152.
Definition SO_RCVTIMEO : Z := 20.
Definition SO_SNDTIMEO : Z := 21.

(** [fstat] gives the [st_mode] of an open descriptor, and [fcntl] its status flags
    ([-1] when the descriptor is not open). Nothing is said of the flags of other
    descriptors when those of one are set: a duplicate shares them. *)
Class FdKernel (K : Type) := {
  fstat : K -> Z -> option Z;
  fcntl_getfl : K -> Z -> Z;
  fcntl_setfl : K -> Z -> Z -> K;
  fstat_setfl : forall k fd v fd', fstat (fcntl_setfl k fd v) fd' = fstat k fd';
  getfl_setfl_same : forall k fd v, is_Some (fstat k fd) ->
    Z.land (fcntl_getfl (fcntl_setfl k fd v) fd) O_NONBLOCK = Z.land v O_NONBLOCK
}.

Definition S_ISSOCK (mode : Z) : bool := Z.land mode S_IFMT =? S_IFSOCK.
Definition nonblocking (flags : Z) : bool := negb (Z.land flags O_NONBLOCK =? 0).

(** ** [FdCtx] *)

(* SRC sylar/fd_manager.h:34-43 FdCtx *)
Record FdCtx := mkFdCtx {
  m_isInit : bool;
  m_isSocket : bool;
  m_sysNonblock : bool;
  m_userNonblock : bool;
  m_isClosed : bool;
  m_fd : Z;
  m_recvTimeout : Z;
  m_sendTimeout : Z
}.

(* SRC sylar/fd_manager.cpp:55-61 FdCtx::setTimeout *)
Definition setTimeout (type v : Z) (c : FdCtx) : FdCtx :=
  if type =? SO_RCVTIMEO
  then mkFdCtx (m_isInit c) (m_isSocket c) (m_sysNonblock c) (m_userNonblock c)
         (m_isClosed c) (m_fd c) v (m_sendTimeout c)
  else mkFdCtx (m_isInit c) (m_isSocket c) (m_sysNonblock c) (m_userNonblock c)
         (m_isClosed c) (m_fd c) (m_recvTimeout c) v.

(* SRC sylar/fd_manager.cpp:63-69 FdCtx::getTimeout *)
Definition getTimeout (type : Z) (c : FdCtx) : Z :=
  if type =? SO_RCVTIMEO then m_recvTimeout c else m_sendTimeout c.

(* SRC sylar/fd_manager.h:24 FdCtx::setUserNonblock *)
Definition setUserNonblock (v : bool) (c : FdCtx) : FdCtx :=
  mkFdCtx (m_isInit c) (m_isSocket c) (m_sysNonblock c) v
    (m_isClosed c) (m_fd c) (m_recvTimeout c) (m_sendTimeout c).

(* SRC sylar/fd_manager.h:28 FdCtx::setSysNonblock *)
Definition setSysNonblock (v : bool) (c : FdCtx) : FdCtx :=
  mkFdCtx (m_isInit c) (m_isSocket c) v (m_userNonblock c)
    (m_isClosed c) (m_fd c) (m_recvTimeout c) (m_sendTimeout c).

(** [-1] as a [uint64_t]: no timeout. *)
Definition no_timeout : Z := u64 (-1).

Section FdCtxs.
Context {K : Type} `{FdKernel K}.

(* SRC sylar/fd_manager.cpp:24-53 FdCtx::init *)
Definition init (c : FdCtx) (k : K) : bool * FdCtx * K :=
  if m_isInit c then (true, c, k)
  else
    let '(isInit, isSocket) :=
      match fstat k (m_fd c) with
      | None => (false, false)
      | Some mode => (true, S_ISSOCK mode)
      end in
    let k' :=
      if isSocket then
        let flags := fcntl_getfl k (m_fd c) in
        if nonblocking flags then k else fcntl_setfl k (m_fd c) (Z.lor flags O_NONBLOCK)
      else k in
    (isInit,
     mkFdCtx isInit isSocket isSocket false (m_isClosed c) (m_fd c) no_timeout no_timeout,
     k').

(* SRC sylar/fd_manager.cpp:8-18 FdCtx::FdCtx *)
Definition new_FdCtx (fd : Z) (k : K) : FdCtx * K :=
  let '(_, c, k') :=
    init (mkFdCtx false false false false false fd no_timeout no_timeout) k in (c, k').

(** ** [FdManager] *)

(** The table, the objects its pointers name, and the kernel. *)
(* SRC sylar/fd_manager.h:57-58 FdManager *)
Record FdManager := mkFdManager {
  fd_heap : gmap Z FdCtx;
  m_datas : list (option Z);
  kernel : K
}.

(** [m_datas.resize(n)] *)
Definition resize_ptrs (n : nat) (l : list (option Z)) : list (option Z) := resize n None l.

(* SRC sylar/fd_manager.cpp:71-73 FdManager::FdManager *)
Definition new_FdManager (k : K) : FdManager := mkFdManager ∅ (resize_ptrs 64 []) k.

(** [m_datas[fd]]: no check of the index. *)
Definition data_at (fd : Z) : M FdManager (option Z) := fun s =>
  if fd <? 0 then UB OutOfBounds
  else match m_datas s !! Z.to_nat fd with Some p => Ret p s | None => UB OutOfBounds end.

Definition set_data (fd : Z) (p : option Z) : M FdManager unit := fun s =>
  if (fd <? 0) || (Z.of_nat (length (m_datas s)) <=? fd) then UB OutOfBounds
  else Ret tt (mkFdManager (fd_heap s) (<[Z.to_nat fd := p]> (m_datas s)) (kernel s)).

(** The part of [get] under the read lock: [Some r] when it returns [r], [None] when it
    goes on to create a context. *)
(* SRC sylar/fd_manager.cpp:75-86 FdManager::get *)
Definition get_locked (fd : Z) (auto_create : bool) : M FdManager (option (option Z)) :=
  let! s := get in
  if Z.of_nat (length (m_datas s)) <=? fd then
    if negb auto_create then ret (Some None) else ret None
  else
    let! p := data_at fd in
    if bool_decide (is_Some p) || negb auto_create then ret (Some p) else ret None.

(** The part under the write lock; the new context is at address [a]. *)
(* SRC sylar/fd_manager.cpp:88-95 FdManager::get *)
Definition get_create (fd a : Z) : M FdManager (option Z) :=
  let! s := get in
  let '(c, k') := new_FdCtx fd (kernel s) in
  modify (fun s => mkFdManager (<[a := c]> (fd_heap s)) (m_datas s) k') ;;
  let! s := get in
  (if Z.of_nat (length (m_datas s)) <=? fd
   then modify (fun s => mkFdManager (fd_heap s)
                  (resize_ptrs (Z.to_nat (fd * 3 / 2)) (m_datas s)) (kernel s))
   else ret tt) ;;
  set_data fd (Some a) ;;
  ret (Some a).

(* SRC sylar/fd_manager.cpp:75-96 FdManager::get *)
Definition get_ctx (fd : Z) (auto_create : bool) (a : Z) : M FdManager (option Z) :=
  let! r := get_locked fd auto_create in
  match r with
  | Some p => ret p
  | None => get_create fd a
  end.

(* SRC sylar/fd_manager.cpp:98-104 FdManager::del *)
Definition del (fd : Z) : M FdManager unit :=
  let! s := get in
  if Z.of_nat (length (m_datas s)) <=? fd then ret tt
  else let! _ := data_at fd in set_data fd None.

(** A method of the context behind a pointer. *)
Definition with_ctx (a : Z) (f : FdCtx -> FdCtx) : M FdManager unit := fun s =>
  match fd_heap s !! a with
  | Some c => Ret tt (mkFdManager (<[a := f c]> (fd_heap s)) (m_datas s) (kernel s))
  | None => UB NullDeref
  end.

(** ** Well-formedness *)

(** The table never has less than 64 entries, and entry [fd] is null or names a context
    of [fd], a socket's one in nonblocking mode. *)
Definition ctx_ok (fd : nat) (c : FdCtx) : Prop :=
  m_fd c = Z.of_nat fd /\ m_isClosed c = false /\ (m_isSocket c = true -> m_isInit c = true).

Definition wf (s : FdManager) : Prop :=
  (64 <= length (m_datas s))%nat /\
  forall fd a, m_datas s !! fd = Some (Some a) ->
    exists c, fd_heap s !! a = Some c /\ ctx_ok fd c.

Definition lookup_ctx (fd : Z) (s : FdManager) : option Z :=
  if fd <? 0 then None else mjoin (m_datas s !! Z.to_nat fd).

Lemma wf_new k : wf (new_FdManager k).
Proof.
  split; [vm_compute; lia|]. intros fd a E. unfold new_FdManager, resize_ptrs in E. cbn [m_datas] in E.
  rewrite resize_nil in E. by apply lookup_replicate in E as [? _].
Qed.

Lemma new_FdCtx_ok fd k : let '(c, _) := new_FdCtx (Z.of_nat fd) k in ctx_ok fd c.
Proof. unfold new_FdCtx, init, ctx_ok. simpl. destruct (fstat k (Z.of_nat fd)) as [m|]; naive_solver. Qed.

Lemma lookup_resize_None (n m : nat) (l : list (option Z)) a :
  (length l <= n)%nat -> resize_ptrs n l !! m = Some (Some a) -> l !! m = Some (Some a).
Proof.
  unfold resize_ptrs. intros Hn E. rewrite resize_ge in E by lia.
  apply lookup_app_Some in E as [E|[_ E]]; [done|]. by apply lookup_replicate in E as [? _].
Qed.

Lemma grown_enough (n : nat) fd : (64 <= n)%nat -> Z.of_nat n <= fd ->
  (n <= Z.to_nat (fd * 3 / 2))%nat /\ (Z.to_nat fd < Z.to_nat (fd * 3 / 2))%nat.
Proof.
  intros. assert (fd + 1 <= fd * 3 / 2); [|lia]. apply Z.div_le_lower_bound; lia.
Qed.

(** The table after [get_create]. *)
Lemma get_create_ok fd a s : wf s -> 0 <= fd ->
  exists n k', (length (m_datas s) <= n)%nat /\ (Z.to_nat fd < n)%nat /\
    get_create fd a s =
    Ret (Some a) (mkFdManager (<[a := (new_FdCtx fd (kernel s)).1]> (fd_heap s))
      (<[Z.to_nat fd := Some a]> (resize_ptrs n (m_datas s))) k') /\
    k' = (new_FdCtx fd (kernel s)).2.
Proof.
  intros [Hlen _] Hfd. unfold get_create, bind, get, modify, ret.
  destruct (new_FdCtx fd (kernel s)) as [c k'] eqn:E. cbn [m_datas].
  destruct (Z.of_nat (length (m_datas s)) <=? fd) eqn:Hle.
  - destruct (grown_enough (length (m_datas s)) fd Hlen ltac:(lia)) as [Hn Hlt].
    exists (Z.to_nat (fd * 3 / 2)), k'. revert Hn Hlt. generalize (Z.to_nat (fd * 3 / 2)). intros. split_and!; [lia|lia| |done].
    unfold set_data, resize_ptrs. cbn [m_datas fd_heap kernel snd]. rewrite length_resize.
    replace (_ || _) with false; [done|]. symmetry. apply orb_false_iff. split; lia.
  - exists (length (m_datas s)), k'. split_and!; [lia|lia| |done].
    unfold set_data. cbn [m_datas fd_heap kernel snd].
    replace (_ || _) with false by (symmetry; apply orb_false_iff; split; lia).
    unfold resize_ptrs. by rewrite resize_all.
Qed.

Lemma lookup_ctx_insert fd fd' p l h k h' k' : 0 <= fd -> (Z.to_nat fd < length l)%nat ->
  lookup_ctx fd' (mkFdManager h' (<[Z.to_nat fd := p]> l) k') =
  if fd' =? fd then p else lookup_ctx fd' (mkFdManager h l k).
Proof.
  intros Hfd Hlt. unfold lookup_ctx. cbn [m_datas]. destruct (fd' =? fd) eqn:E.
  - apply Z.eqb_eq in E as ->. replace (fd <? 0) with false by lia.
    by rewrite list_lookup_insert_eq by lia.
  - destruct (fd' <? 0) eqn:?; [done|]. by rewrite list_lookup_insert_ne by lia.
Qed.

Lemma lookup_ctx_resize n fd l h k : (length l <= n)%nat ->
  lookup_ctx fd (mkFdManager h (resize_ptrs n l) k) = lookup_ctx fd (mkFdManager h l k).
Proof.
  intros Hn. unfold lookup_ctx, resize_ptrs. cbn [m_datas]. case_match; [done|].
  rewrite resize_ge by lia. destruct (decide (Z.to_nat fd < length l)%nat).
  - by rewrite lookup_app_l by lia.
  - rewrite lookup_app_r, (lookup_ge_None_2 l) by lia. simpl.
    destruct (replicate _ _ !! _) eqn:E; [|done]. by apply lookup_replicate in E as [-> _].
Qed.

Lemma data_at_ok fd s : 0 <= fd < Z.of_nat (length (m_datas s)) ->
  data_at fd s = Ret (lookup_ctx fd s) s.
Proof.
  intros. unfold data_at, lookup_ctx. replace (fd <? 0) with false by lia.
  destruct (lookup_lt_is_Some_2 (m_datas s) (Z.to_nat fd)) as [p ->]; [lia|done].
Qed.

Lemma lookup_ctx_beyond fd s : Z.of_nat (length (m_datas s)) <= fd -> lookup_ctx fd s = None.
Proof.
  intros. unfold lookup_ctx. case_match; [done|]. by rewrite lookup_ge_None_2 by lia.
Qed.

(** What the read-locked part decides. *)
Lemma get_locked_ok fd auto s : 0 <= fd ->
  get_locked fd auto s =
  Ret (if bool_decide (is_Some (lookup_ctx fd s)) || negb auto
       then Some (lookup_ctx fd s) else None) s.
Proof.
  intros Hfd. unfold get_locked, bind, get. destruct (_ <=? fd) eqn:E.
  - rewrite lookup_ctx_beyond by lia. rewrite bool_decide_eq_false_2 by (intros [? ?]; done).
    by destruct auto.
  - rewrite data_at_ok by lia. simpl. by case_match.
Qed.

(** ** The steps of concurrent clients *)

Inductive step : FdManager -> FdManager -> Prop :=
  | step_get fd auto s r s' : 0 <= fd -> get_locked fd auto s = Ret r s' -> step s s'
  | step_create fd a s p s' : 0 <= fd -> fd_heap s !! a = None ->
      get_create fd a s = Ret p s' -> step s s'
  | step_del fd s s' : 0 <= fd -> del fd s = Ret tt s' -> step s s'
  | step_timeout a type v s s' : with_ctx a (setTimeout type v) s = Ret tt s' -> step s s'
  | step_user a v s s' : with_ctx a (setUserNonblock v) s = Ret tt s' -> step s s'
  | step_sys a v s s' : with_ctx a (setSysNonblock v) s = Ret tt s' -> step s s'.

Definition reachable (k : K) : FdManager -> Prop := rtc step (new_FdManager k).

Lemma wf_create fd a s s' p : wf s -> 0 <= fd -> fd_heap s !! a = None ->
  get_create fd a s = Ret p s' -> wf s'.
Proof.
  intros Hwf Hfd Ha E. destruct (get_create_ok fd a s Hwf Hfd) as (n & k' & Hn & Hlt & E' & _).
  rewrite E' in E. simplify_eq. destruct Hwf as [Hlen Hp].
  split; cbn [m_datas fd_heap].
  { rewrite length_insert. unfold resize_ptrs. rewrite length_resize. lia. }
  intros fd1 a1 E. apply list_lookup_insert_Some in E as [(<- & ? & _)|[_ E]]; simplify_eq.
  - rewrite lookup_insert_eq. eexists. split; [done|].
    pose proof (new_FdCtx_ok (Z.to_nat fd) (kernel s)) as Hc.
    rewrite Z2Nat.id in Hc by lia. by destruct (new_FdCtx fd (kernel s)).
  - apply lookup_resize_None in E; [|done]. destruct (Hp _ _ E) as (c & Hc & ?).
    exists c. split; [|done]. rewrite lookup_insert_ne; [done|]. by intros ->; simplify_eq.
Qed.

Lemma del_ok fd s : 0 <= fd -> exists s', del fd s = Ret tt s' /\ fd_heap s' = fd_heap s /\
  kernel s' = kernel s /\
  (m_datas s' = m_datas s /\ lookup_ctx fd s = None \/
   (Z.to_nat fd < length (m_datas s))%nat /\ m_datas s' = <[Z.to_nat fd := None]> (m_datas s)).
Proof.
  intros Hfd. unfold del, bind, get, set_data. destruct (_ <=? fd) eqn:E.
  - exists s. rewrite lookup_ctx_beyond by lia. naive_solver.
  - rewrite data_at_ok by lia.
    replace (_ || _) with false by (symmetry; apply orb_false_iff; split; lia).
    eexists. split_and!; try done. right. split; [lia|done].
Qed.

Lemma wf_del fd s s' : wf s -> 0 <= fd -> del fd s = Ret tt s' -> wf s'.
Proof.
  intros [Hlen Hp] Hfd E. destruct (del_ok fd s Hfd) as (s1 & E1 & Hh & _ & Hd).
  rewrite E1 in E. simplify_eq. unfold wf. rewrite Hh. destruct Hd as [[-> _]|[_ ->]]; [done|].
  rewrite length_insert. split; [done|].
  intros fd1 a1 E. apply list_lookup_insert_Some in E as [(_ & ? & _)|[_ E]]; [done|eauto].
Qed.

Lemma wf_with_ctx a f s s' : (forall fd c, ctx_ok fd c -> ctx_ok fd (f c)) -> wf s ->
  with_ctx a f s = Ret tt s' -> wf s'.
Proof.
  intros Hf [Hlen Hp] E. unfold with_ctx in E. destruct (fd_heap s !! a) as [c0|] eqn:Ea; [|done].
  simplify_eq. split; [done|]. cbn [m_datas fd_heap]. intros fd a1 E.
  destruct (Hp _ _ E) as (c & Hc & ?). destruct (decide (a1 = a)) as [->|].
  - rewrite lookup_insert_eq. simplify_eq. eauto.
  - rewrite lookup_insert_ne by done. eauto.
Qed.

Lemma ctx_ok_setTimeout type v fd c : ctx_ok fd c -> ctx_ok fd (setTimeout type v c).
Proof. unfold setTimeout, ctx_ok. by case_match. Qed.

Lemma wf_step s s' : wf s -> step s s' -> wf s'.
Proof.
  destruct 2.
  - rewrite get_locked_ok in H2 by done. by simplify_eq.
  - by eapply wf_create.
  - by eapply wf_del.
  - eapply wf_with_ctx; [|done..]. apply ctx_ok_setTimeout.
  - by eapply wf_with_ctx; [|done..].
  - by eapply wf_with_ctx; [|done..].
Qed.

Lemma fd_reachable_wf k s : reachable k s -> wf s.
Proof.
  revert s. apply (rtc_ind_r wf); [apply wf_new|]. intros. by eapply wf_step.
Qed.

Lemma get_ctx_ok fd auto a s : wf s -> 0 <= fd ->
  get_ctx fd auto a s =
  match lookup_ctx fd s, auto with
  | None, true => get_create fd a s
  | p, _ => Ret p s
  end.
Proof.
  intros Hwf Hfd. unfold get_ctx, bind. rewrite get_locked_ok by done.
  destruct (lookup_ctx fd s) as [p|] eqn:E.
  - by rewrite bool_decide_eq_true_2 by eauto.
  - rewrite bool_decide_eq_false_2 by (intros [? ?]; done). by destruct auto.
Qed.

(** The kernel after a new context of a socket: this descriptor is in nonblocking mode. *)
Lemma new_FdCtx_kernel fd k : let '(c, k') := new_FdCtx fd k in
  m_isInit c = bool_decide (is_Some (fstat k fd)) /\
  m_isSocket c = match fstat k fd with Some mode => S_ISSOCK mode | None => false end /\
  m_sysNonblock c = m_isSocket c /\ m_userNonblock c = false /\
  getTimeout SO_RCVTIMEO c = no_timeout /\ getTimeout SO_SNDTIMEO c = no_timeout /\
  (m_isSocket c = true -> nonblocking (fcntl_getfl k' fd) = true) /\
  (m_isSocket c = false -> k' = k).
Proof.
  unfold new_FdCtx, init, getTimeout. cbn [m_isInit m_fd m_isClosed].
  destruct (fstat k fd) as [mode|] eqn:Es; [|by rewrite bool_decide_eq_false_2 by (intros [? ?]; done)].
  rewrite bool_decide_eq_true_2 by eauto.
  cbn [m_isInit m_isSocket m_sysNonblock m_userNonblock m_recvTimeout m_sendTimeout].
  destruct (S_ISSOCK mode); [|done]. destruct (nonblocking (fcntl_getfl k fd)) eqn:En; split_and!; try done; intros.
  unfold nonblocking in *. rewrite getfl_setfl_same by eauto.
  rewrite Z.land_lor_distr_l. apply negb_false_iff, Z.eqb_eq in En. rewrite En. done.
Qed.
End FdCtxs.

(** ** A kernel that is a table of modes and flags *)

Notation table_kernel := (gmap Z (Z * Z)).
#[export] Instance table_FdKernel : FdKernel table_kernel.
Proof.
  refine {| fstat k fd := fst <$> k !! fd;
            fcntl_getfl k fd := match k !! fd with Some (_, f) => f | None => -1 end;
            fcntl_setfl k fd v := match k !! fd with Some (m, _) => <[fd := (m, v)]> k | None => k end |}.
  - intros k fd v fd'. destruct (k !! fd) as [[m f]|] eqn:E; [|done].
    destruct (decide (fd' = fd)) as [->|]; simplify_map_eq; done.
  - intros k fd v [x Hx]. destruct (k !! fd) as [[m f]|] eqn:E; [|done].
    by simplify_map_eq.
Defined.

(** Descriptor 3 is a blocking socket, 5 a regular file. *)
Definition kernel_3_5 : table_kernel := {[ 3 := (49645, 2); 5 := (33188, 0) ]}.

Section Claims.
Context {K : Type} `{FdKernel K}.

(** C37: whatever clients do concurrently with descriptors [fd >= 0] (the two critical
    sections of [get] interleaved in any way, [del], and the setters of the contexts behind
    the pointers handed out), the table keeps at least 64 entries and entry [fd] is null or
    names an object that is the context of [fd]; on such a table [get] and [del] always
    return. *)
Theorem fd_table_safe k s : reachable k s ->
  wf s /\
  forall fd auto a, 0 <= fd ->
    is_ret (get_ctx fd auto a s) = true /\ is_ret (get_create fd a s) = true /\
    is_ret (del fd s) = true.
Proof.
  intros Hr. apply fd_reachable_wf in Hr. split; [done|]. intros fd auto a Hfd.
  destruct (get_create_ok fd a s Hr Hfd) as (? & ? & ? & ? & E & _).
  destruct (del_ok fd s Hfd) as (? & E' & _). rewrite E, E'. split_and!; try done.
  rewrite get_ctx_ok by done. destruct (lookup_ctx fd s), auto; try done. by rewrite E.
Qed.
End Claims.

Lemma fd_table_safe_witness :
  let s := new_FdManager kernel_3_5 in
  reachable kernel_3_5 s /\ is_ret (get_ctx 100 true 7 s) = true.
Proof.
  split; [apply rtc_refl|].
  exact (proj1 (proj2 (fd_table_safe kernel_3_5 (new_FdManager kernel_3_5) (rtc_refl _ _))
    100 true 7 ltac:(done))).
Defined.

Section Claims2.
Context {K : Type} `{FdKernel K}.

(** [FdManager::get] and [del] on every branch. Without [auto_create], [get] gives
    what the table holds; with it, it gives the context already there, or a new one, which
    it records without touching the other entries: its descriptor, when it is a socket, is
    put in nonblocking mode, and it has no timeouts. [del] makes [get] give null until a
    context is created again. A negative descriptor indexes the vector out of bounds. *)
Theorem fd_get_spec fd a s : wf s -> fd_heap s !! a = None ->
  (fd < 0 -> forall auto, get_ctx fd auto a s = UB OutOfBounds /\ del fd s = UB OutOfBounds) /\
  (0 <= fd ->
   get_ctx fd false a s = Ret (lookup_ctx fd s) s /\
   (forall p, lookup_ctx fd s = Some p -> get_ctx fd true a s = Ret (Some p) s) /\
   (lookup_ctx fd s = None -> exists s' c, get_ctx fd true a s = Ret (Some a) s' /\
      wf s' /\ fd_heap s' = <[a := c]> (fd_heap s) /\
      (forall fd', lookup_ctx fd' s' = if fd' =? fd then Some a else lookup_ctx fd' s) /\
      m_fd c = fd /\ m_userNonblock c = false /\
      getTimeout SO_RCVTIMEO c = no_timeout /\ getTimeout SO_SNDTIMEO c = no_timeout /\
      m_isSocket c = match fstat (kernel s) fd with Some m => S_ISSOCK m | None => false end /\
      m_sysNonblock c = m_isSocket c /\
      (m_isSocket c = true -> nonblocking (fcntl_getfl (kernel s') fd) = true)) /\
   exists s', del fd s = Ret tt s' /\
     forall fd', lookup_ctx fd' s' = if fd' =? fd then None else lookup_ctx fd' s).
Proof.
  intros Hwf Ha. split.
  { intros Hn auto. assert (fd <? 0 = true) as E by lia.
    assert (Z.of_nat (length (m_datas s)) <=? fd = false) as E' by (apply Z.leb_gt; lia).
    unfold get_ctx, get_locked, del, bind, get, data_at. by rewrite E, E'. }
  intros Hfd. rewrite !get_ctx_ok by done. split_and!.
  - by destruct (lookup_ctx fd s).
  - by intros p ->.
  - intros ->. destruct (get_create_ok fd a s Hwf Hfd) as (n & k' & Hn & Hlt & E & ->).
    pose proof (new_FdCtx_kernel fd (kernel s)) as Hk. rewrite E.
    assert (m_fd (new_FdCtx fd (kernel s)).1 = fd) as Hm.
    { unfold new_FdCtx, init. simpl. by destruct (fstat _ _). }
    destruct (new_FdCtx fd (kernel s)) as [c k']. simpl in Hm.
    eexists _, c. split; [done|]. split; [by eapply wf_create|]. cbn [fd_heap kernel fst snd].
    split; [done|]. split; [|naive_solver].
    intros fd'. rewrite (lookup_ctx_insert _ _ _ _ (fd_heap s) (kernel s)).
    + rewrite lookup_ctx_resize by done. by destruct s.
    + done.
    + unfold resize_ptrs. by rewrite length_resize.
  - destruct (del_ok fd s Hfd) as (s' & E & Hh & Hk & Hd). exists s'. split; [done|].
    intros fd'. destruct s' as [h' l' k']. simpl in Hh, Hk, Hd. subst h' k'.
    destruct Hd as [[-> Hnone]|[? ->]].
    + destruct (fd' =? fd) eqn:Heq; [|by destruct s]. apply Z.eqb_eq in Heq as ->. by destruct s.
    + rewrite (lookup_ctx_insert _ _ _ _ (fd_heap s) (kernel s)) by done. by destruct s.
Qed.
End Claims2.

Lemma fd_get_spec_witness :
  let s := new_FdManager kernel_3_5 in
  wf s /\ fd_heap s !! 7 = None /\
  (exists s', get_ctx 3 true 7 s = Ret (Some 7) s' /\ lookup_ctx 3 s' = Some 7) /\
  get_ctx (-1) true 7 s = UB OutOfBounds.
Proof.
  pose proof (fd_get_spec 3 7 (new_FdManager kernel_3_5) (wf_new _) ltac:(reflexivity)) as [_ H3].
  pose proof (fd_get_spec (-1) 7 (new_FdManager kernel_3_5) (wf_new _) ltac:(reflexivity)) as [H1 _].
  split; [apply wf_new|]. split; [reflexivity|]. split.
  - destruct (H3 ltac:(done)) as (_ & _ & Hc & _).
    destruct (Hc ltac:(reflexivity)) as (s' & c & E & _ & _ & Hl & _).
    exists s'. split; [exact E|]. rewrite Hl. reflexivity.
  - exact (proj1 (H1 ltac:(done) true)).
Defined.

Section Race.
Context {K : Type} `{FdKernel K}.

(** two threads that both find no context of a descriptor both create one: the second
    creation replaces the first thread's context in the table, and a timeout the first
    thread then sets through its pointer is not seen by later calls of [get]. *)
Theorem fd_get_race fd a1 a2 v s :
  wf s -> 0 <= fd -> fd_heap s !! a1 = None -> a1 <> a2 -> lookup_ctx fd s = None ->
  get_locked fd true s = Ret None s /\
  exists s1 s2 s3, get_create fd a1 s = Ret (Some a1) s1 /\ get_create fd a2 s1 = Ret (Some a2) s2 /\
    with_ctx a1 (setTimeout SO_RCVTIMEO v) s2 = Ret tt s3 /\
    get_ctx fd false 0 s3 = Ret (Some a2) s3 /\
    (getTimeout SO_RCVTIMEO <$> fd_heap s3 !! a2) = Some no_timeout.
Proof.
  intros Hwf Hfd Ha1 Hne Hnone. split; [by rewrite get_locked_ok, Hnone|].
  destruct (get_create_ok fd a1 s Hwf Hfd) as (n & k1 & Hn & Hlt & E1 & ->).
  pose proof (wf_create _ _ _ _ _ Hwf Hfd Ha1 E1) as Hwf1.
  destruct (get_create_ok fd a2 _ Hwf1 Hfd) as (n2 & k2 & Hn2 & Hlt2 & E2 & ->).
  do 3 eexists. split; [exact E1|]. split; [exact E2|]. unfold with_ctx at 1.
  cbn [fd_heap m_datas kernel]. rewrite lookup_insert_ne, lookup_insert_eq by done.
  split; [done|]. split.
  - unfold get_ctx, bind. rewrite get_locked_ok by done.
    rewrite (lookup_ctx_insert _ _ _ _ (fd_heap s) (kernel s)), Z.eqb_refl; [done..|].
    unfold resize_ptrs. by rewrite length_resize.
  - cbn [fd_heap]. rewrite lookup_insert_ne, lookup_insert_eq by done. simpl. f_equal.
    unfold new_FdCtx at 1, init, getTimeout. cbn [m_isInit m_fd]. by destruct (fstat _ _).
Qed.
End Race.

Lemma fd_get_race_witness :
  let s := new_FdManager kernel_3_5 in
  wf s /\ lookup_ctx 3 s = None /\ get_locked 3 true s = Ret None s.
Proof.
  split; [apply wf_new|]. split; [reflexivity|].
  exact (proj1 (fd_get_race 3 7 8 1000 (new_FdManager kernel_3_5) (wf_new _) ltac:(done)
    ltac:(reflexivity) ltac:(done) ltac:(reflexivity))).
Defined.
