(* ===== verification/Fiber.v ===== *)
(** * Fiber: [Fiber] of [sylar/fiber.h] and [fiber.cpp]

    A fiber is a coroutine over [ucontext]. The code a fiber runs is user code: a
    continuation [Cont] of it is run by [seg] up to its next yield (or its end), which
    changes the world and says how the segment left. [swapcontext] saves where the current
    fiber is in its [m_ctx] and continues what the other one's [m_ctx] holds; the model
    keeps in [m_ctx] which point of the code that is. Fibers live on a heap and are named
    by their address; the world has the thread-local variables of every thread, and a part
    [X] that is the scheduler's. Reference counts are not modelled: the destructor is an
    operation, called by nobody here. [getcontext] and [swapcontext] do not fail. *)

From S2P Require Import Prelude.

(* SRC sylar/fiber.h:17-24 Fiber::State *)
Inductive State := INIT | HOLD | EXEC | TERM | READY | EXCEP.
#[global] Instance State_eq_dec : EqDecision State.
Proof. solve_decision. Defined.

Definition state_is (s s' : State) : bool := bool_decide (s = s').

(** The two functions [makecontext] is given. *)
Inductive main_func := MainFunc | CallerMainFunc.

Section Fibers.
(** [CB] is the type of the callbacks, [Cont] of the points where user code stands. *)
Context {CB Cont X : Type}.

(** What an [ucontext_t] holds: nothing yet, or no longer (its fiber runs, on the stack it
    points into); the entry of a main function; the [swapcontext] of a yield, after which
    the user code goes on with [k], called by the main function [f] whose local is [cur]; the end of a main function, whose next line is the
    failing assertion "never reach"; the code of the thread that swapped a fiber in. *)
Inductive context :=
  | no_context
  | at_entry (f : main_func)
  | in_yield (f : main_func) (cur : Z) (k : Cont)
  | at_end
  | in_swapIn.

(** How a segment of user code leaves: by returning, by an exception, in one of the two
    yields, or in a plain [swapOut] of the fiber. *)
Inductive leaves :=
  | Returns | Throws | YieldsReady (k : Cont) | YieldsHold (k : Cont) | SwapsOut (k : Cont).

(* SRC sylar/fiber.h:63-73 Fiber *)
Record Fiber := mkFiber {
  m_id : Z;
  m_stacksize : Z;
  m_ctx : context;
  m_stack : Z;
  m_cb : option CB;
  m_state : State
}.

Definition set_ctx (c : context) (f : Fiber) : Fiber :=
  mkFiber (m_id f) (m_stacksize f) c (m_stack f) (m_cb f) (m_state f).
Definition set_state (s : State) (f : Fiber) : Fiber :=
  mkFiber (m_id f) (m_stacksize f) (m_ctx f) (m_stack f) (m_cb f) s.
Definition set_cb (c : option CB) (f : Fiber) : Fiber :=
  mkFiber (m_id f) (m_stacksize f) (m_ctx f) (m_stack f) c (m_state f).

(** The thread-local variables of a thread: [t_fiber] and [t_threadFiber] of [fiber.cpp],
    and [t_fiber] and [t_scheduler] of [scheduler.cpp]. *)
(* SRC sylar/fiber.cpp:15-16 t_fiber *)
Record Locals := mkLocals {
  t_fiber : option Z;
  t_threadFiber : option Z;
  t_mainFiber : option Z;
  t_scheduler : option Z
}.
Definition no_locals : Locals := mkLocals None None None None.

(* SRC sylar/fiber.cpp:12-13 s_fiber_id *)
Record World := mkWorld {
  heap : gmap Z Fiber;
  next_addr : Z;
  s_fiber_id : Z;
  s_fiber_count : Z;
  locals : gmap Z Locals;
  ext : X
}.

Definition set_heap (h : gmap Z Fiber) (w : World) : World :=
  mkWorld h (next_addr w) (s_fiber_id w) (s_fiber_count w) (locals w) (ext w).
Definition set_ext (x : X) (w : World) : World :=
  mkWorld (heap w) (next_addr w) (s_fiber_id w) (s_fiber_count w) (locals w) x.
Definition locals_of (tid : Z) (w : World) : Locals := default no_locals (locals w !! tid).
Definition set_locals (tid : Z) (l : Locals) (w : World) : World :=
  mkWorld (heap w) (next_addr w) (s_fiber_id w) (s_fiber_count w) (<[tid := l]> (locals w)) (ext w).

Notation MW := (M World).

(** Read and change the fiber behind a pointer. *)
Definition deref (p : option Z) : MW Z := fun w =>
  match p with
  | Some a => if bool_decide (is_Some (heap w !! a)) then Ret a w else UB NullDeref
  | None => UB NullDeref
  end.
Definition load (a : Z) : MW Fiber := fun w =>
  match heap w !! a with Some f => Ret f w | None => UB NullDeref end.
Definition store (a : Z) (g : Fiber -> Fiber) : MW unit := fun w =>
  match heap w !! a with
  | Some _ => Ret tt (set_heap (alter g a (heap w)) w)
  | None => UB NullDeref
  end.

(** Put a new object on the heap. *)
Definition new (f : Fiber) : MW Z := fun w =>
  Ret (next_addr w)
    (mkWorld (<[next_addr w := f]> (heap w)) (next_addr w + 1) (s_fiber_id w)
       (s_fiber_count w) (locals w) (ext w)).

(* SRC sylar/fiber.cpp:164-166 Fiber::SetThis *)
Definition SetThis (tid : Z) (f : option Z) : MW unit :=
  modify (fun w => let l := locals_of tid w in
    set_locals tid (mkLocals f (t_threadFiber l) (t_mainFiber l) (t_scheduler l)) w).

Definition set_threadFiber (tid : Z) (f : option Z) : MW unit :=
  modify (fun w => let l := locals_of tid w in
    set_locals tid (mkLocals (t_fiber l) f (t_mainFiber l) (t_scheduler l)) w).

Definition count_fibers (d : Z) : MW unit :=
  modify (fun w => mkWorld (heap w) (next_addr w) (s_fiber_id w) (u64 (s_fiber_count w + d))
                     (locals w) (ext w)).

(** The fiber of the code that is not on a fiber's stack. *)
(* SRC sylar/fiber.cpp:42-52 Fiber::Fiber *)
Definition new_main_Fiber (tid : Z) : MW Z :=
  let! a := new (mkFiber 0 0 no_context 0 None EXEC) in
  SetThis tid (Some a) ;;
  count_fibers 1 ;;
  ret a.

(** [stack] is what [malloc] gives, [g_fiber_stack_size] the value of the configuration
    variable. *)
(* SRC sylar/fiber.cpp:55-75 Fiber::Fiber *)
Definition new_Fiber (g_fiber_stack_size stack : Z) (cb : option CB) (stacksize : Z)
    (use_caller : bool) : MW Z :=
  modify (fun w => mkWorld (heap w) (next_addr w) (u64 (s_fiber_id w + 1)) (s_fiber_count w)
                     (locals w) (ext w)) ;;
  let! id := gets s_fiber_id in
  count_fibers 1 ;;
  new (mkFiber id (u32 (if stacksize =? 0 then g_fiber_stack_size else stacksize))
         (at_entry (if use_caller then CallerMainFunc else MainFunc)) stack cb INIT).

(** [this] is destroyed by a thread [tid]. *)
(* SRC sylar/fiber.cpp:77-96 Fiber::~Fiber *)
Definition delete_Fiber (tid this : Z) : MW unit :=
  let! f := load this in
  count_fibers (-1) ;;
  (if negb (m_stack f =? 0) then
     assert_ (state_is (m_state f) TERM || state_is (m_state f) EXCEP || state_is (m_state f) INIT)
   else
     assert_ (bool_decide (m_cb f = None)) ;;
     assert_ (state_is (m_state f) EXEC) ;;
     let! l := gets (locals_of tid) in
     if bool_decide (t_fiber l = Some this) then SetThis tid None else ret tt) ;;
  modify (fun w => set_heap (delete this (heap w)) w).

(* SRC sylar/fiber.cpp:99-115 Fiber::reset *)
Definition reset (this : Z) (cb : option CB) : MW unit :=
  let! f := load this in
  assert_ (negb (m_stack f =? 0)) ;;
  assert_ (state_is (m_state f) TERM || state_is (m_state f) EXCEP || state_is (m_state f) INIT) ;;
  store this (set_cb cb) ;;
  store this (set_ctx (at_entry MainFunc)) ;;
  store this (set_state INIT).

(* SRC sylar/fiber.cpp:169-177 Fiber::GetThis *)
Definition GetThis (tid : Z) : MW Z :=
  let! l := gets (locals_of tid) in
  match t_fiber l with
  | Some a => deref (Some a)
  | None =>
      let! main_fiber := new_main_Fiber tid in
      let! l := gets (locals_of tid) in
      assert_ (bool_decide (t_fiber l = Some main_fiber)) ;;
      set_threadFiber tid (Some main_fiber) ;;
      ret main_fiber
  end.

(* SRC sylar/fiber.cpp:34-39 Fiber::GetFiberId *)
Definition GetFiberId (tid : Z) : MW Z :=
  let! l := gets (locals_of tid) in
  match t_fiber l with
  | Some a => let! f := load a in ret (m_id f)
  | None => ret 0
  end.

(* SRC sylar/scheduler.cpp:50-52 Scheduler::GetMainFiber *)
Definition GetMainFiber (tid : Z) : MW (option Z) := gets (fun w => t_mainFiber (locals_of tid w)).

(** ** Leaving a fiber

    [swapcontext(&m_ctx, &other->m_ctx)] saves the context [c] in [this]; the result is
    the fiber that gets control. *)
Definition swapcontext (this : Z) (c : context) (other : option Z) : MW Z :=
  let! o := deref other in
  store this (set_ctx c) ;;
  ret o.

(* SRC sylar/fiber.cpp:128-145 Fiber::swapOut *)
Definition swapOut (tid this : Z) (c : context) : MW Z :=
  let! main := GetMainFiber tid in
  SetThis tid main ;;
  let! main := GetMainFiber tid in
  swapcontext this c main.

(* SRC sylar/fiber.cpp:156-161 Fiber::back *)
Definition back (tid this : Z) (c : context) : MW Z :=
  let! l := gets (locals_of tid) in
  SetThis tid (t_threadFiber l) ;;
  swapcontext this c (t_threadFiber l).

(** A yield of code that runs under the main function [f] and goes on with [k]. *)
(* SRC sylar/fiber.cpp:180-184 Fiber::YieldToReady *)
Definition YieldToReady (tid : Z) (f : main_func) (main_cur : Z) (k : Cont) : MW Z :=
  let! cur := GetThis tid in
  store cur (set_state READY) ;;
  swapOut tid cur (in_yield f main_cur k).

(* SRC sylar/fiber.cpp:187-191 Fiber::YieldToHold *)
Definition YieldToHold (tid : Z) (f : main_func) (main_cur : Z) (k : Cont) : MW Z :=
  let! cur := GetThis tid in
  store cur (set_state HOLD) ;;
  swapOut tid cur (in_yield f main_cur k).

(** The end of a main function, by [swapOut] or by [back]. *)
(* SRC sylar/fiber.cpp:239-244 Fiber::CallerMainFunc *)
Definition main_end (tid : Z) (f : main_func) (cur : Z) : MW Z :=
  match f with
  | MainFunc => swapOut tid cur at_end
  | CallerMainFunc => back tid cur at_end
  end.

(** ** Entering a fiber *)

Section UserCode.
(** The user code: where a callback starts, and how a thread runs it to its next yield. *)
Context (entry : CB -> Cont) (seg : Z -> Cont -> MW leaves).

(** A segment as the [try] blocks of the main functions see it. *)
Definition segment (tid : Z) (k : Cont) : MW leaves := fun w =>
  match seg tid k w with Exn _ w' => Ret Throws w' | r => r end.

(** User code called by the main function [f], whose local [cur] is the fiber. *)
(* SRC sylar/fiber.cpp:198-220 Fiber::MainFunc *)
Definition run_cb (tid : Z) (f : main_func) (cur : Z) (k : Cont) : MW Z :=
  let! l := segment tid k in
  match l with
  | YieldsReady k' => YieldToReady tid f cur k'
  | YieldsHold k' => YieldToHold tid f cur k'
  | SwapsOut k' => swapOut tid cur (in_yield f cur k')
  | Returns => store cur (set_state TERM) ;; main_end tid f cur
  | Throws => store cur (set_state EXCEP) ;; main_end tid f cur
  end.

(** Calling an empty [std::function] throws [bad_function_call], a [std::exception]. *)
(* SRC sylar/fiber.cpp:222-245 Fiber::CallerMainFunc *)
Definition run_main (tid : Z) (f : main_func) : MW Z :=
  let! cur := GetThis tid in
  let! fb := load cur in
  match m_cb fb with
  | Some cb => run_cb tid f cur (entry cb)
  | None => store cur (set_state EXCEP) ;; main_end tid f cur
  end.

(** Control passes to the context of [a]. *)
Definition continue_ (tid a : Z) : MW Z :=
  let! f := load a in
  store a (set_ctx no_context) ;;
  match m_ctx f with
  | no_context => fail_with Indeterminate
  | at_entry f => run_main tid f
  | in_yield f cur k => run_cb tid f cur k
  | at_end => fail_with AssertFailed
  | in_swapIn => ret a
  end.

(** The result of [swapIn] and [call] is the fiber that gets control in the end. *)
(* SRC sylar/fiber.cpp:118-126 Fiber::swapIn *)
Definition swapIn (tid this : Z) : MW Z :=
  SetThis tid (Some this) ;;
  let! f := load this in
  assert_ (negb (state_is (m_state f) EXEC)) ;;
  store this (set_state EXEC) ;;
  let! main := GetMainFiber tid in
  let! main := deref main in
  store main (set_ctx in_swapIn) ;;
  continue_ tid this.

(* SRC sylar/fiber.cpp:148-154 Fiber::call *)
Definition call (tid this : Z) : MW Z :=
  SetThis tid (Some this) ;;
  store this (set_state EXEC) ;;
  let! l := gets (locals_of tid) in
  let! main := deref (t_threadFiber l) in
  store main (set_ctx in_swapIn) ;;
  continue_ tid this.
(** ** What a fiber's state says of its context *)

Definition consistent (a : Z) (f : Fiber) : Prop :=
  match m_state f with
  | INIT => exists g, m_ctx f = at_entry g /\ m_stack f <> 0
  | HOLD | READY => exists g k, m_ctx f = in_yield g a k /\ m_stack f <> 0
  | TERM | EXCEP => m_ctx f = at_end /\ m_stack f <> 0
  | EXEC => m_ctx f = no_context \/ m_ctx f = in_swapIn \/
      exists g k, m_ctx f = in_yield g a k /\ m_stack f <> 0
  end.

Definition world_ok (w : World) : Prop := forall a f, heap w !! a = Some f -> consistent a f.

(** Thread [tid] has a main fiber, the one of its scheduler. *)
Definition has_main (tid main : Z) (w : World) : Prop :=
  t_mainFiber (locals_of tid w) = Some main /\ exists f, heap w !! main = Some f /\ m_state f = EXEC.

(** User code changes no fiber that exists, but through [ext], and leaves the thread's
    variables as they are. *)
Class UserLaws : Prop := {
  seg_locals : forall tid k w l w', segment tid k w = Ret l w' -> locals_of tid w' = locals_of tid w;
  seg_heap : forall tid k w l w' a f, segment tid k w = Ret l w' ->
    heap w !! a = Some f -> heap w' !! a = Some f
}.

Definition state_after (l : leaves) : State :=
  match l with Returns => TERM | Throws => EXCEP | YieldsReady _ => READY | YieldsHold _ => HOLD
  | SwapsOut _ => EXEC end.
Definition ctx_after (g : main_func) (a : Z) (l : leaves) : context :=
  match l with
  | Returns | Throws => at_end
  | YieldsReady k | YieldsHold k | SwapsOut k => in_yield g a k
  end.

(** The world user code starts in: the fiber executes, its context is used up. *)
Definition entered (tid a main : Z) (w : World) : World :=
  let h := alter (set_ctx no_context) a
             (alter (set_ctx in_swapIn) main (alter (set_state EXEC) a (heap w))) in
  let l := locals_of tid w in
  set_locals tid (mkLocals (Some a) (t_threadFiber l) (t_mainFiber l) (t_scheduler l)) (set_heap h w).

(** The world the fiber leaves behind. *)
Definition left_ (tid a main : Z) (g : main_func) (l : leaves) (w : World) : World :=
  let h := alter (set_ctx (ctx_after g a l)) a (alter (set_state (state_after l)) a (heap w)) in
  let ls := locals_of tid w in
  set_locals tid (mkLocals (Some main) (t_threadFiber ls) (t_mainFiber ls) (t_scheduler ls)) (set_heap h w).

(** Where a fiber that is not running goes on, if [swapIn] is allowed. *)
Definition point (f : Fiber) : option (option Cont) :=
  match m_ctx f with
  | at_entry _ => Some (entry <$> m_cb f)
  | in_yield _ _ k => Some (Some k)
  | _ => None
  end.

(** The main function a fiber goes on under. *)
Definition main_of (f : Fiber) : main_func :=
  match m_ctx f with at_entry g | in_yield g _ _ => g | _ => MainFunc end.

Lemma locals_of_set tid tid' l w :
  locals_of tid' (set_locals tid l w) = if tid' =? tid then l else locals_of tid' w.
Proof.
  unfold locals_of, set_locals. simpl. destruct (tid' =? tid) eqn:E.
  - apply Z.eqb_eq in E as ->. by rewrite lookup_insert_eq.
  - apply Z.eqb_neq in E. by rewrite lookup_insert_ne by done.
Qed.

Lemma locals_of_same tid l w : locals_of tid (set_locals tid l w) = l.
Proof. by rewrite locals_of_set, Z.eqb_refl. Qed.

Lemma locals_of_heap tid h w : locals_of tid (set_heap h w) = locals_of tid w.
Proof. done. Qed.

Lemma store_ok a g w f : heap w !! a = Some f -> store a g w = Ret tt (set_heap (alter g a (heap w)) w).
Proof. unfold store. by intros ->. Qed.

Lemma load_ok a w f : heap w !! a = Some f -> load a w = Ret f w.
Proof. unfold load. by intros ->. Qed.

Lemma load_inv a w f w' : load a w = Ret f w' -> w' = w /\ heap w !! a = Some f.
Proof. unfold load. destruct (heap w !! a); intros; by simplify_eq. Qed.

Lemma deref_fiber_ok a w f : heap w !! a = Some f -> deref (Some a) w = Ret a w.
Proof. unfold deref. intros ->. by rewrite bool_decide_eq_true_2 by eauto. Qed.

(** [swapIn] up to the point where the fiber's own code goes on. *)
Lemma swapIn_enter tid a main w f : has_main tid main w -> a <> main ->
  heap w !! a = Some f -> m_state f <> EXEC ->
  swapIn tid a w =
  match m_ctx f with
  | no_context => UB Indeterminate
  | at_entry g => run_main tid g (entered tid a main w)
  | in_yield g cur k => run_cb tid g cur k (entered tid a main w)
  | at_end => UB AssertFailed
  | in_swapIn => Ret a (entered tid a main w)
  end.
Proof.
  intros (Hm & fm & Hfm & Hex) Hne Hf Hst. unfold swapIn, SetThis.
  erewrite bind_Ret by reflexivity. erewrite bind_Ret by (by apply load_ok).
  unfold state_is. rewrite bool_decide_eq_false_2 by done. erewrite bind_Ret by reflexivity.
  erewrite bind_Ret by (by apply (store_ok _ _ _ f)).
  unfold GetMainFiber. erewrite bind_Ret by reflexivity.
  rewrite locals_of_heap, locals_of_same. cbn [t_mainFiber]. rewrite Hm.
  erewrite bind_Ret by (apply (deref_fiber_ok _ _ fm); simpl; by rewrite lookup_alter_ne).
  erewrite bind_Ret by (apply (store_ok _ _ _ fm); simpl; by rewrite lookup_alter_ne).
  unfold continue_. erewrite bind_Ret by (apply (load_ok _ _ (set_state EXEC f)); simpl;
    rewrite lookup_alter_ne, lookup_alter_eq, Hf by done; done).
  erewrite bind_Ret by (apply (store_ok _ _ _ (set_state EXEC f)); simpl;
    rewrite lookup_alter_ne, lookup_alter_eq, Hf by done; done).
  cbn [m_ctx set_state]. unfold entered. rewrite Hm. by destruct (m_ctx f).
Qed.

(** What the fiber's end of a segment does to the world. *)
Lemma heap_entered tid a main w f : a <> main -> heap w !! a = Some f ->
  heap (entered tid a main w) !! a = Some (set_ctx no_context (set_state EXEC f)).
Proof. intros Hne Hf. simpl. by rewrite lookup_alter_eq, lookup_alter_ne, lookup_alter_eq, Hf. Qed.

Lemma heap_entered_main tid a main w f : a <> main -> heap w !! main = Some f ->
  heap (entered tid a main w) !! main = Some (set_ctx in_swapIn f).
Proof. intros Hne Hf. simpl. by rewrite lookup_alter_ne, lookup_alter_eq, lookup_alter_ne, Hf. Qed.

Lemma heap_entered_other tid a main w b : b <> a -> b <> main ->
  heap (entered tid a main w) !! b = heap w !! b.
Proof. intros. simpl. by rewrite !lookup_alter_ne. Qed.

Lemma locals_entered tid a main w : locals_of tid (entered tid a main w) =
  let l := locals_of tid w in mkLocals (Some a) (t_threadFiber l) (t_mainFiber l) (t_scheduler l).
Proof. apply locals_of_same. Qed.

(** A thread that executes [a], which its scheduler's main fiber swapped in. *)
Definition executing (tid a main : Z) (w : World) : Prop :=
  t_fiber (locals_of tid w) = Some a /\ t_mainFiber (locals_of tid w) = Some main /\
  (exists f, heap w !! a = Some f /\ m_state f = EXEC) /\ is_Some (heap w !! main).

Lemma executing_entered tid a main w f : has_main tid main w -> a <> main ->
  heap w !! a = Some f -> executing tid a main (entered tid a main w).
Proof.
  intros (Hm & fm & Hfm & _) Hne Hf. unfold executing. rewrite locals_entered.
  rewrite (heap_entered _ _ _ _ f), (heap_entered_main _ _ _ _ fm) by done. naive_solver.
Qed.

Lemma executing_segment `{!UserLaws} tid a main w k l w' : executing tid a main w ->
  segment tid k w = Ret l w' -> executing tid a main w'.
Proof.
  intros (H1 & H2 & (f & Hf & He) & [fm Hfm]) E. unfold executing.
  rewrite (seg_locals _ _ _ _ _ E). split_and!; try done.
  - exists f. split; [by eapply seg_heap|done].
  - eexists. by eapply seg_heap.
Qed.

Lemma swapOut_left tid a main s c w : executing tid a main w ->
  bind (store a (set_state s)) (fun _ => swapOut tid a c) w =
  let h := alter (set_ctx c) a (alter (set_state s) a (heap w)) in
  let ls := locals_of tid w in
  Ret main (set_locals tid (mkLocals (Some main) (t_threadFiber ls) (t_mainFiber ls) (t_scheduler ls))
    (set_heap h w)).
Proof.
  intros (H1 & H2 & (f & Hf & _) & [fm Hfm]).
  erewrite bind_Ret by (by apply (store_ok _ _ _ f)). unfold swapOut, GetMainFiber, SetThis.
  erewrite bind_Ret by reflexivity. erewrite bind_Ret by reflexivity.
  erewrite bind_Ret by reflexivity. rewrite locals_of_heap, locals_of_same. cbn [t_mainFiber]. rewrite H2.
  unfold swapcontext. destruct (decide (main = a)) as [->|Hne].
  - erewrite bind_Ret by (apply (deref_fiber_ok _ _ (set_state s f)); simpl; by rewrite lookup_alter_eq, Hf).
    erewrite bind_Ret; [reflexivity|]. unfold store. simpl. by rewrite lookup_alter_eq, Hf.
  - erewrite bind_Ret by (apply (deref_fiber_ok _ _ fm); simpl; by rewrite lookup_alter_ne).
    erewrite bind_Ret; [reflexivity|]. unfold store. simpl. by rewrite lookup_alter_eq, Hf.
Qed.

Lemma swapOut_exec tid a main c w : executing tid a main w ->
  swapOut tid a c w = bind (store a (set_state EXEC)) (fun _ => swapOut tid a c) w.
Proof.
  intros (_ & _ & (f & Hf & He) & _). erewrite bind_Ret; [reflexivity|].
  rewrite (store_ok _ _ _ f) by done. rewrite alter_id; [by destruct w|].
  intros f' E. simplify_eq. unfold set_state. rewrite <- He. by destruct f.
Qed.

Lemma executing_some tid a main w : executing tid a main w -> is_Some (heap w !! a).
Proof. intros (_ & _ & (f & Hf & _) & _). by exists f. Qed.

Lemma GetThis_ok tid a w : t_fiber (locals_of tid w) = Some a -> is_Some (heap w !! a) ->
  GetThis tid w = Ret a w.
Proof.
  intros E [f Hf]. unfold GetThis. erewrite bind_Ret by reflexivity. rewrite E.
  by apply (deref_fiber_ok _ _ f).
Qed.

Lemma run_cb_ok `{!UserLaws} tid a main k w : executing tid a main w ->
  run_cb tid MainFunc a k w =
  match segment tid k w with
  | Ret l w1 => Ret main (left_ tid a main MainFunc l w1)
  | Exn e w1 => Exn e w1
  | UB e => UB e
  end.
Proof.
  intros Hx. unfold run_cb, bind at 1. destruct (segment tid k w) as [l w1| |] eqn:E; [|done..].
  pose proof (executing_segment _ _ _ _ _ _ _ Hx E) as Hx1.
  unfold YieldToReady, YieldToHold, main_end, left_.
  assert (GetThis tid w1 = Ret a w1) as HG by (apply GetThis_ok; [apply Hx1|by eapply executing_some]).
  destruct l; [..|rewrite (swapOut_exec _ _ main) by done];
    try erewrite (bind_Ret (GetThis tid)) by exact HG; by rewrite (swapOut_left _ _ main) by done.
Qed.

(** Where [swapIn] goes on: the start of the callback, or behind the last yield. *)
Definition resumes (f : Fiber) : option Cont :=
  match m_ctx f with
  | at_entry _ => entry <$> m_cb f
  | in_yield _ _ k => Some k
  | _ => None
  end.

(** What control coming back to the main fiber means: the fiber's state and context are
    those of the way it left, it is the same fiber otherwise, every other fiber is as it
    was, and the main fiber is the current one. *)
Definition came_back (tid a main : Z) (l : leaves) (f : Fiber) (w w' : World) : Prop :=
  (exists f', heap w' !! a = Some f' /\ m_state f' = state_after l /\
     m_ctx f' = ctx_after MainFunc a l /\ consistent a f' /\
     m_id f' = m_id f /\ m_cb f' = m_cb f /\ m_stack f' = m_stack f) /\
  (forall b fb, b <> a -> b <> main -> heap w !! b = Some fb -> heap w' !! b = Some fb) /\
  has_main tid main w' /\ t_fiber (locals_of tid w') = Some main.

Lemma left_came_back tid a main l f w w1 : a <> main -> m_stack f <> 0 ->
  has_main tid main w -> heap w !! a = Some f ->
  t_mainFiber (locals_of tid w1) = Some main ->
  (forall b fb, heap (entered tid a main w) !! b = Some fb -> heap w1 !! b = Some fb) ->
  came_back tid a main l f w (left_ tid a main MainFunc l w1).
Proof.
  intros Hne Hst (Hm & fm & Hfm & Hex) Hf Hm1 Hkeep.
  pose proof (Hkeep _ _ (heap_entered tid a main w f Hne Hf)) as Ha.
  pose proof (Hkeep _ _ (heap_entered_main tid a main w fm Hne Hfm)) as Hmain.
  unfold came_back, has_main, left_. rewrite locals_of_same. cbn [t_fiber t_mainFiber heap set_locals set_heap].
  split_and!; try done.
  - eexists. split; [by rewrite !lookup_alter_eq, Ha|]. unfold consistent. destruct l; simpl; split_and!; eauto 8.
  - intros b fb Hb Hb' E. rewrite !lookup_alter_ne by done. apply Hkeep.
    by rewrite heap_entered_other.
  - eexists. split; [by rewrite !lookup_alter_ne by done|]. done.
Qed.

Lemma swapIn_runs `{!UserLaws} tid a main w f k : has_main tid main w -> a <> main ->
  heap w !! a = Some f -> consistent a f -> main_of f = MainFunc -> m_state f <> EXEC ->
  resumes f = Some k ->
  swapIn tid a w =
  match segment tid k (entered tid a main w) with
  | Ret l w1 => Ret main (left_ tid a main MainFunc l w1)
  | Exn e w1 => Exn e w1
  | UB e => UB e
  end.
Proof.
  intros Hm Hne Hf Hc Hg Hst Hk. rewrite (swapIn_enter _ _ main _ f) by done.
  pose proof (executing_entered _ _ _ _ _ Hm Hne Hf) as Hx.
  unfold resumes, main_of, consistent in *. destruct (m_ctx f) as [|g|g cur k'| |] eqn:E; try done.
  - subst g. unfold run_main. erewrite bind_Ret by (apply GetThis_ok; [apply Hx|by eapply executing_some]).
    erewrite bind_Ret by (by apply load_ok, heap_entered). cbn [m_cb set_ctx set_state].
    destruct (m_cb f) as [cb|]; [|done]. simpl in Hk. simplify_eq. by apply run_cb_ok.
  - simplify_eq. assert (cur = a) as -> by (destruct (m_state f); naive_solver). by apply run_cb_ok.
Qed.

Lemma swapIn_empty `{!UserLaws} tid a main w f : has_main tid main w -> a <> main ->
  heap w !! a = Some f -> m_ctx f = at_entry MainFunc -> m_state f <> EXEC -> m_cb f = None ->
  swapIn tid a w = Ret main (left_ tid a main MainFunc Throws (entered tid a main w)).
Proof.
  intros Hm Hne Hf Hc Hst Hcb. rewrite (swapIn_enter _ _ main _ f), Hc by done.
  pose proof (executing_entered _ _ _ _ _ Hm Hne Hf) as Hx.
  unfold run_main. erewrite bind_Ret by (apply GetThis_ok; [apply Hx|by eapply executing_some]).
  erewrite bind_Ret by (by apply load_ok, heap_entered). cbn [m_cb set_ctx set_state]. rewrite Hcb.
  unfold main_end, left_. by rewrite (swapOut_left _ _ main).
Qed.

Lemma swapIn_forbidden tid a main w f : has_main tid main w -> a <> main ->
  heap w !! a = Some f -> consistent a f -> m_state f ∈ [EXEC; TERM; EXCEP] ->
  swapIn tid a w = UB AssertFailed.
Proof.
  intros Hm Hne Hf Hc Hin. destruct (decide (m_state f = EXEC)) as [He|He].
  - unfold swapIn, SetThis. erewrite bind_Ret by reflexivity.
    erewrite bind_Ret by (by apply load_ok). unfold state_is. by rewrite bool_decide_eq_true_2.
  - rewrite (swapIn_enter _ _ main _ f) by done. unfold consistent in Hc.
    rewrite !elem_of_cons in Hin. destruct Hin as [?|[E|[E|Hin]]]; [done|..]; [| |by apply not_elem_of_nil in Hin];
      rewrite E in Hc; by destruct Hc as [-> _].
Qed.

(** What a relation on [ext] needs to be kept by [swapIn]. *)
Section Ext.
Context (R : X -> X -> Prop) `{!PreOrder R}.
Definition on_ext (w w' : World) : Prop := R (ext w) (ext w').
Local Ltac keep_ext := keep; unfold on_ext; simpl; reflexivity.

#[local] Instance on_ext_preorder : PreOrder on_ext.
Proof. unfold on_ext. split; [by intros w|]. intros w1 w2 w3 ? ?. by transitivity (ext w2). Qed.

Lemma keeps_load a : keeps on_ext (load a).
Proof. intros w f w' E. unfold load in E. case_match; by simplify_eq. Qed.
Lemma keeps_deref p : keeps on_ext (deref p).
Proof. intros w f w' E. unfold deref in E. repeat case_match; by simplify_eq. Qed.
Lemma keeps_store a g : keeps on_ext (store a g).
Proof. intros w f w' E. unfold store in E. case_match; simplify_eq; unfold on_ext; reflexivity. Qed.
Lemma keeps_new f : keeps on_ext (new f).
Proof. intros w a w' E. unfold new in E. simplify_eq. unfold on_ext. reflexivity. Qed.
Hint Resolve keeps_load keeps_deref keeps_store keeps_new : keeps.

Lemma keeps_GetThis tid : keeps on_ext (GetThis tid).
Proof. unfold GetThis, new_main_Fiber, SetThis, count_fibers, set_threadFiber. keep_ext. Qed.
Lemma keeps_swapOut tid this c : keeps on_ext (swapOut tid this c).
Proof. unfold swapOut, GetMainFiber, SetThis, swapcontext. keep_ext. Qed.
Lemma keeps_back tid this c : keeps on_ext (back tid this c).
Proof. unfold back, SetThis, swapcontext. keep_ext. Qed.
Lemma keeps_reset this cb : keeps on_ext (reset this cb).
Proof. unfold reset. keep_ext. Qed.
Lemma keeps_new_Fiber s0 stack cb sz b : keeps on_ext (new_Fiber s0 stack cb sz b).
Proof. unfold new_Fiber, count_fibers. keep_ext. Qed.
Hint Resolve keeps_GetThis keeps_swapOut keeps_back : keeps.

Lemma keeps_swapIn tid a : (forall k, keeps on_ext (segment tid k)) -> keeps on_ext (swapIn tid a).
Proof.
  intros Hseg. unfold swapIn, SetThis, GetMainFiber, continue_, run_main, run_cb, YieldToReady,
    YieldToHold, main_end. keep_ext.
Qed.
End Ext.

(** C38: the life of a fiber. [swapIn] aborts on a fiber that executes, has terminated or
    has failed. Otherwise it runs the user code from the start of the callback, or from
    behind the last yield, up to the next one, and control comes back to the main fiber of
    the thread's scheduler with the fiber [READY] or [HOLD] after a yield, [TERM] after a
    return, [EXCEP] after an exception (an empty callback throws), [EXEC] still after a bare [swapOut], every other fiber being as it
    was. It aborts else only if the user code does. *)
Theorem swapIn_spec `{!UserLaws} tid a main w f : has_main tid main w -> a <> main ->
  heap w !! a = Some f -> consistent a f -> main_of f = MainFunc ->
  (m_state f ∈ [EXEC; TERM; EXCEP] -> swapIn tid a w = UB AssertFailed) /\
  (m_state f ∈ [INIT; HOLD; READY] ->
   match resumes f with
   | Some k =>
       match segment tid k (entered tid a main w) with
       | Ret l _ => exists w', swapIn tid a w = Ret main w' /\ came_back tid a main l f w w'
       | Exn _ _ => False
       | UB e => swapIn tid a w = UB e
       end
   | None => m_state f = INIT /\ m_cb f = None /\
       exists w', swapIn tid a w = Ret main w' /\ came_back tid a main Throws f w w'
   end).
Proof.
  intros Hm Hne Hf Hc Hg. split; [by eapply swapIn_forbidden|]. intros Hin.
  assert (m_state f <> EXEC /\ m_stack f <> 0) as [Hst Hstack].
  { unfold consistent in Hc. rewrite !elem_of_cons, elem_of_nil in Hin.
    destruct (m_state f); naive_solver. }
  pose proof (executing_entered _ _ _ _ _ Hm Hne Hf) as (_ & Hmain & _ & _).
  destruct (resumes f) as [k|] eqn:Hk.
  - rewrite (swapIn_runs _ _ main _ f k) by done. destruct (segment tid k _) as [l w1|e w1|e] eqn:E; [| |done].
    + eexists. split; [done|]. apply left_came_back; try done.
      * by rewrite (seg_locals _ _ _ _ _ E).
      * intros b fb. by eapply seg_heap.
    + unfold segment in E. by destruct (seg tid k _).
  - assert (m_state f = INIT /\ m_ctx f = at_entry MainFunc /\ m_cb f = None) as (? & ? & ?).
    { unfold resumes, main_of, consistent in *. rewrite !elem_of_cons, elem_of_nil in Hin.
      destruct (m_state f), (m_ctx f), (m_cb f); naive_solver. }
    split_and!; [done..|]. eexists. split; [by eapply swapIn_empty|]. by apply left_came_back.
Qed.

(** The states [reset] and the destructor accept. *)
Definition over (s : State) : bool := state_is s TERM || state_is s EXCEP || state_is s INIT.

Lemma over_true s : s ∈ [TERM; EXCEP; INIT] -> over s = true.
Proof. rewrite !elem_of_cons, elem_of_nil. by intros [->|[->|[->|[]]]]. Qed.

Lemma over_false s : s ∈ [HOLD; READY; EXEC] -> over s = false.
Proof. rewrite !elem_of_cons, elem_of_nil. by intros [->|[->|[->|[]]]]. Qed.

Definition reset_world (this : Z) (cb : option CB) (w : World) : World :=
  set_heap (alter (set_state INIT) this (alter (set_ctx (at_entry MainFunc)) this
              (alter (set_cb cb) this (heap w)))) w.

Lemma reset_fiber_ok this cb w f : heap w !! this = Some f -> m_stack f <> 0 ->
  reset this cb w = if over (m_state f) then Ret tt (reset_world this cb w) else UB AssertFailed.
Proof.
  intros Hf Hst. unfold reset. erewrite bind_Ret by (by apply load_ok).
  rewrite (proj2 (Z.eqb_neq _ _) Hst). erewrite bind_Ret by reflexivity. fold (over (m_state f)).
  destruct (over (m_state f)); [|done].
  erewrite bind_Ret by reflexivity. erewrite bind_Ret by (by apply (store_ok _ _ _ f)).
  erewrite bind_Ret by (apply (store_ok _ _ _ (set_cb cb f)); simpl; by rewrite lookup_alter_eq, Hf).
  rewrite (store_ok _ _ _ (set_ctx (at_entry MainFunc) (set_cb cb f))); [done|]. simpl.
  by rewrite !lookup_alter_eq, Hf.
Qed.

Lemma heap_reset_world this cb w f : heap w !! this = Some f ->
  heap (reset_world this cb w) !! this =
    Some (mkFiber (m_id f) (m_stacksize f) (at_entry MainFunc) (m_stack f) cb INIT).
Proof. intros Hf. simpl. by rewrite !lookup_alter_eq, Hf. Qed.

Lemma has_main_reset tid main this cb w : has_main tid main w -> this <> main ->
  has_main tid main (reset_world this cb w).
Proof.
  intros (Hm & fm & Hfm & Hex) Hne. split; [exact Hm|]. exists fm. simpl. by rewrite !lookup_alter_ne.
Qed.

Lemma reset_runs `{!UserLaws} tid main this cb w f l w1 : heap w !! this = Some f ->
  has_main tid main w -> this <> main -> m_stack f <> 0 ->
  let w' := reset_world this (Some cb) w in
  segment tid (entry cb) (entered tid this main w') = Ret l w1 ->
  exists w2, swapIn tid this w' = Ret main w2 /\
    came_back tid this main l
      (mkFiber (m_id f) (m_stacksize f) (at_entry MainFunc) (m_stack f) (Some cb) INIT) w' w2.
Proof.
  intros Hf Hm Hne Hst w' E. subst w'. pose proof (has_main_reset _ _ this (Some cb) _ Hm Hne) as Hm'.
  pose proof (heap_reset_world this (Some cb) w f Hf) as Hf'.
  eexists. split.
  - rewrite (swapIn_runs _ _ main _ _ (entry cb) Hm' Hne Hf'); try done.
    + by rewrite E.
    + unfold consistent. simpl. eauto.
  - apply left_came_back; try done.
    + rewrite (seg_locals _ _ _ _ _ E), locals_entered. apply Hm'.
    + intros b fb. by eapply seg_heap.
Qed.

Lemma delete_ok tid this w f : heap w !! this = Some f -> m_stack f <> 0 ->
  delete_Fiber tid this w =
  if over (m_state f)
  then Ret tt (mkWorld (delete this (heap w)) (next_addr w) (s_fiber_id w) (u64 (s_fiber_count w - 1))
                (locals w) (ext w))
  else UB AssertFailed.
Proof.
  intros Hf Hst. unfold delete_Fiber. erewrite bind_Ret by (by apply load_ok).
  erewrite bind_Ret by reflexivity. rewrite (proj2 (Z.eqb_neq _ _) Hst). cbn [negb].
  fold (over (m_state f)). by destruct (over (m_state f)).
Qed.

(** [reset] reuses a fiber: on one with a stack that has not started or has ended, and
    on no other, it returns, changes no other fiber, and leaves one with the same id and
    stack that the next [swapIn] runs from the start of the new callback. Destroying a
    fiber aborts unless it is one that [reset] accepts or a thread's main fiber, and counts one
    fiber less. *)
Theorem reset_delete_spec `{!UserLaws} tid main this cb w f : heap w !! this = Some f ->
  has_main tid main w -> this <> main ->
  (m_stack f <> 0 /\ m_state f ∈ [TERM; EXCEP; INIT] ->
    (exists w' f', reset this (Some cb) w = Ret tt w' /\ heap w' !! this = Some f' /\
      m_id f' = m_id f /\ m_stack f' = m_stack f /\ m_state f' = INIT /\ consistent this f' /\
      (forall b, b <> this -> heap w' !! b = heap w !! b) /\
      forall l w1, segment tid (entry cb) (entered tid this main w') = Ret l w1 ->
        exists w2, swapIn tid this w' = Ret main w2 /\ came_back tid this main l f' w' w2) /\
    exists w', delete_Fiber tid this w = Ret tt w' /\ heap w' = delete this (heap w) /\
      s_fiber_count w' = u64 (s_fiber_count w - 1)) /\
  (m_stack f = 0 \/ m_state f ∈ [HOLD; READY; EXEC] -> reset this (Some cb) w = UB AssertFailed) /\
  (m_stack f <> 0 /\ m_state f ∈ [HOLD; READY; EXEC] -> delete_Fiber tid this w = UB AssertFailed).
Proof.
  intros Hf Hm Hne. split_and!.
  - intros [Hst Hin]. split.
    + rewrite (reset_fiber_ok _ _ _ f), over_true by done. do 2 eexists. split; [done|].
      split; [by apply heap_reset_world|]. split_and!; try done.
      * unfold consistent. simpl. eauto.
      * intros b Hb. simpl. by rewrite !lookup_alter_ne.
      * intros. by eapply reset_runs.
    + rewrite (delete_ok _ _ _ f), over_true by done. by eexists.
  - intros Hor. destruct (decide (m_stack f = 0)) as [E|E].
    + unfold reset. erewrite bind_Ret by (by apply load_ok). by rewrite E.
    + rewrite (reset_fiber_ok _ _ _ f), over_false by naive_solver. done.
  - intros [Hst Hin]. by rewrite (delete_ok _ _ _ f), over_false.
Qed.

(** the yields set the state before the context is saved. Between the two, a second
    thread that takes the fiber for one that is not running (its state says [HOLD] or
    [READY]) and swaps it in continues a context that was never saved. *)
Theorem yield_race tid' a main' s w f : heap w !! a = Some f -> m_state f = EXEC ->
  m_ctx f = no_context -> has_main tid' main' w -> a <> main' -> s ∈ [HOLD; READY] ->
  exists w1, store a (set_state s) w = Ret tt w1 /\ swapIn tid' a w1 = UB Indeterminate.
Proof.
  intros Hf Hex Hctx (Hm & fm & Hfm & Hmex) Hne Hs.
  eexists. split; [by apply (store_ok _ _ _ f)|].
  rewrite (swapIn_enter _ _ main' _ (set_state s f)); simpl; [by rewrite Hctx|..].
  - split; [done|]. exists fm. simpl. by rewrite lookup_alter_ne.
  - done.
  - by rewrite lookup_alter_eq, Hf.
  - rewrite !elem_of_cons, elem_of_nil in Hs. destruct Hs as [->|[->|[]]]; done.
Qed.
End UserCode.
End Fibers.

#[export] Hint Resolve keeps_load keeps_deref keeps_store keeps_new keeps_GetThis keeps_swapOut
  keeps_back keeps_reset keeps_new_Fiber : keeps.

(** ** User code that holds [n] times and returns *)

Definition countdown {S : Type} (tid : Z) (k : nat) : M S leaves :=
  match k with O => ret Returns | S k => ret (YieldsHold k) end.

#[export] Instance countdown_laws : UserLaws (@countdown (@World nat nat unit)).
Proof.
  split; unfold segment, countdown; intros tid k w l w'; destruct k; cbn; intros; by simplify_eq.
Qed.

(** Thread 1 with its main fiber at address 0 and a fiber at address 1. *)
Definition demo_world (n : nat) : @World nat nat unit :=
  match (let! m := GetThis 1 in
         modify (fun w => set_locals 1 (mkLocals (Some m) (Some m) (Some m) None) w) ;;
         new_Fiber 1048576 4096 (Some n) 0 false) (mkWorld ∅ 0 0 0 ∅ tt) with
  | Ret _ w => w
  | _ => mkWorld ∅ 0 0 0 ∅ tt
  end.

Lemma demo_has_main n : has_main 1 0 (demo_world n).
Proof. split; [reflexivity|]. eexists. split; reflexivity. Qed.

Lemma swapIn_spec_witness :
  exists f w', heap (demo_world 1) !! 1 = Some f /\
    swapIn (fun n => n) countdown 1 1 (demo_world 1) = Ret 0 w' /\
    came_back 1 1 0 (YieldsHold 0%nat) f (demo_world 1) w'.
Proof.
  eexists. assert (heap (demo_world 1) !! 1 = Some
    (mkFiber 1 1048576 (at_entry MainFunc) 4096 (Some 1%nat) INIT)) as Hf by reflexivity.
  destruct (proj2 (swapIn_spec (fun n => n) countdown 1 1 0 (demo_world 1) _ (demo_has_main 1)
    ltac:(done) Hf ltac:(unfold consistent; simpl; by eexists) ltac:(reflexivity)) ltac:(set_solver))
    as (w' & E & H).
  exists w'. split; [exact Hf|]. split; [exact E|exact H].
Defined.

Lemma reset_delete_spec_witness :
  exists w', reset 1 (Some 5%nat) (demo_world 1) = Ret tt w'.
Proof.
  assert (heap (demo_world 1) !! 1 = Some
    (mkFiber 1 1048576 (at_entry MainFunc) 4096 (Some 1%nat) INIT)) as Hf by reflexivity.
  destruct (reset_delete_spec (fun n => n) countdown 1 0 1 5%nat (demo_world 1) _ Hf (demo_has_main 1)
    ltac:(done)) as [H _].
  destruct (H ltac:(simpl; split; [lia|set_solver])) as [(w' & _ & E & _) _].
  exists w'. exact E.
Defined.

Lemma yield_race_witness :
  let w := set_heap (alter (set_ctx no_context) 1 (alter (set_state EXEC) 1 (heap (demo_world 1)))) (demo_world 1) in
  exists w1, store 1 (set_state HOLD) w = Ret tt w1 /\
    swapIn (fun n => n) countdown 1 1 w1 = UB Indeterminate.
Proof.
  intros w. assert (heap w !! 1 = Some (mkFiber 1 1048576 no_context 4096 (Some 1%nat) EXEC)) as Hf
    by reflexivity.
  assert (has_main 1 0 w) as Hm by (split; [reflexivity|]; eexists; split; reflexivity).
  exact (yield_race (fun n => n) countdown 1 1 0 HOLD w _ Hf ltac:(reflexivity) ltac:(reflexivity) Hm
    ltac:(done) ltac:(set_solver)).
Defined.
