(* ===== verification/Scheduler.v ===== *)
(** * Scheduler: [Scheduler] of [sylar/scheduler.h] and [scheduler.cpp]

    The scheduler's members are the part [ext] of the world of [Fiber]. [tickle],
    [stopping] and [idle], which are virtual, are the class [Virtual]; the base class's
    are an instance, [IOManager] has its own. [run] is cut where other threads can act:
    it is a machine whose steps [run_step] end at a critical section of [m_mutex], an
    atomic counter or a switch of fibers, and whose state [pc] has its local variables.
    A user segment between two switches is one step. [IOManager]'s members are the field
    [derived]. *)

From S2P Require Import Prelude Fiber.

Section Scheduler.
(** User callbacks and the points where user code stands; the members of the derived class. *)
Context {UCB UCont Y : Type}.

Inductive callback := user_cb (c : UCB) | bound_run | bound_idle.
Inductive cont := user_at (k : UCont) | in_run | in_idle.

(* SRC sylar/scheduler.h:78-81 Scheduler::FiberAndThread *)
Record FiberAndThread := mkFT {
  ft_fiber : option Z;
  ft_cb : option callback;
  ft_thread : Z
}.

(** The constructors take a task by value, or swap it out of the caller's variable. *)
(* SRC sylar/scheduler.h:83-84 Scheduler::FiberAndThread::FiberAndThread *)
Definition FT_of_fiber (f : option Z) (thr : Z) : FiberAndThread := mkFT f None thr.
(* SRC sylar/scheduler.h:86-89 Scheduler::FiberAndThread::FiberAndThread *)
Definition FT_of_fiber_ptr (f : option Z) (thr : Z) : FiberAndThread * option Z :=
  (mkFT f None thr, None).
(* SRC sylar/scheduler.h:91-94 Scheduler::FiberAndThread::FiberAndThread *)
Definition FT_of_cb (f : option callback) (thr : Z) : FiberAndThread := mkFT None f thr.
(* SRC sylar/scheduler.h:96-99 Scheduler::FiberAndThread::FiberAndThread *)
Definition FT_of_cb_ptr (f : option callback) (thr : Z) : FiberAndThread * option callback :=
  (mkFT None f thr, None).
(** The default constructor and [reset]. *)
(* SRC sylar/scheduler.h:101-109 Scheduler::FiberAndThread::reset *)
Definition FT_empty : FiberAndThread := mkFT None None (-1).

(* SRC sylar/scheduler.h:111-125 Scheduler *)
Record Sched := mkSched {
  m_threads : list Z;
  m_fibers : list FiberAndThread;
  m_rootFiber : option Z;
  m_threadIds : list Z;
  m_rootThread : Z;
  m_threadCount : Z;
  m_activeThreadCount : Z;
  m_idleThreadCount : Z;
  m_stopping : bool;
  m_autoStop : bool;
  derived : Y
}.

Notation W := (@World callback cont Sched).
Notation MW := (M W).

Definition upd (g : Sched -> Sched) : MW unit := modify (fun w => set_ext (g (ext w)) w).

Definition set_fibers (l : list FiberAndThread) (x : Sched) : Sched :=
  mkSched (m_threads x) l (m_rootFiber x) (m_threadIds x) (m_rootThread x) (m_threadCount x)
    (m_activeThreadCount x) (m_idleThreadCount x) (m_stopping x) (m_autoStop x) (derived x).
Definition set_threads (l : list Z) (x : Sched) : Sched :=
  mkSched l (m_fibers x) (m_rootFiber x) (m_threadIds x) (m_rootThread x) (m_threadCount x)
    (m_activeThreadCount x) (m_idleThreadCount x) (m_stopping x) (m_autoStop x) (derived x).
Definition add_threadIds (l : list Z) (x : Sched) : Sched :=
  mkSched (m_threads x) (m_fibers x) (m_rootFiber x) (m_threadIds x ++ l) (m_rootThread x) (m_threadCount x)
    (m_activeThreadCount x) (m_idleThreadCount x) (m_stopping x) (m_autoStop x) (derived x).
Definition add_active (d : Z) (x : Sched) : Sched :=
  mkSched (m_threads x) (m_fibers x) (m_rootFiber x) (m_threadIds x) (m_rootThread x) (m_threadCount x)
    (u64 (m_activeThreadCount x + d)) (m_idleThreadCount x) (m_stopping x) (m_autoStop x) (derived x).
Definition add_idle (d : Z) (x : Sched) : Sched :=
  mkSched (m_threads x) (m_fibers x) (m_rootFiber x) (m_threadIds x) (m_rootThread x) (m_threadCount x)
    (m_activeThreadCount x) (u64 (m_idleThreadCount x + d)) (m_stopping x) (m_autoStop x) (derived x).
Definition set_stopping (b : bool) (x : Sched) : Sched :=
  mkSched (m_threads x) (m_fibers x) (m_rootFiber x) (m_threadIds x) (m_rootThread x) (m_threadCount x)
    (m_activeThreadCount x) (m_idleThreadCount x) b (m_autoStop x) (derived x).
Definition set_autoStop (b : bool) (x : Sched) : Sched :=
  mkSched (m_threads x) (m_fibers x) (m_rootFiber x) (m_threadIds x) (m_rootThread x) (m_threadCount x)
    (m_activeThreadCount x) (m_idleThreadCount x) (m_stopping x) b (derived x).
Definition set_derived (y : Y) (x : Sched) : Sched :=
  mkSched (m_threads x) (m_fibers x) (m_rootFiber x) (m_threadIds x) (m_rootThread x) (m_threadCount x)
    (m_activeThreadCount x) (m_idleThreadCount x) (m_stopping x) (m_autoStop x) y.

(* SRC sylar/scheduler.h:66 Scheduler::hasIdleThreads *)
Definition hasIdleThreads : MW bool := gets (fun w => 0 <? m_idleThreadCount (ext w)).

(** ** The virtual functions *)

(** [idle] is a loop: its segment is one pass to the next switch. *)
(* SRC sylar/scheduler.h:59-62 Scheduler::tickle *)
Class Virtual := {
  tickle : Z -> MW unit;
  stopping : MW bool;
  idle : Z -> MW (@leaves cont)
}.

(** The base class's. *)
(* SRC sylar/scheduler.cpp:246-248 Scheduler::tickle *)
Definition base_tickle (tid : Z) : MW unit := ret tt.
(* SRC sylar/scheduler.cpp:250-254 Scheduler::stopping *)
Definition base_stopping : MW bool :=
  gets (fun w => let x := ext w in
    m_autoStop x && m_stopping x && bool_decide (m_fibers x = []) && (m_activeThreadCount x =? 0)).
(* SRC sylar/scheduler.cpp:256-261 Scheduler::idle *)
Definition base_idle (tid : Z) : MW (@leaves cont) :=
  let! b := base_stopping in
  ret (if b then Returns else YieldsHold in_idle).

Definition base_Virtual : Virtual :=
  {| tickle := base_tickle; stopping := base_stopping; idle := base_idle |}.

Section Methods.
(** The class of the object; where user callbacks start and how they run; the value of the
    configuration variable and what [malloc] gives. *)
Context {V : Virtual} (uentry : UCB -> UCont) (useg : Z -> UCont -> MW (@leaves UCont)).
Context (g_fiber_stack_size : Z) (malloc : W -> Z -> Z).

Definition entry (c : callback) : cont :=
  match c with user_cb c => user_at (uentry c) | bound_run => in_run | bound_idle => in_idle end.

Definition at_user (l : @leaves UCont) : @leaves cont :=
  match l with
  | Returns => Returns | Throws => Throws
  | YieldsReady k => YieldsReady (user_at k)
  | YieldsHold k => YieldsHold (user_at k)
  | SwapsOut k => SwapsOut (user_at k)
  end.

(** The code that fibers run which [run] swaps in; [run] itself is not such code. *)
Definition seg (tid : Z) (k : cont) : MW (@leaves cont) :=
  match k with
  | user_at k => let! l := useg tid k in ret (at_user l)
  | in_idle => idle tid
  | in_run => fail_with Indeterminate
  end.

Definition make_Fiber (cb : option callback) (use_caller : bool) : MW Z := fun w =>
  new_Fiber g_fiber_stack_size (malloc w g_fiber_stack_size) cb 0 use_caller w.

(** [swapIn] from the code of [run]: control must come back to its fiber. *)
Definition swap_in (tid a : Z) : MW unit :=
  let! main := GetMainFiber tid in
  let! who := swapIn entry seg tid a in
  if bool_decide (main = Some who) then ret tt else fail_with Indeterminate.

(** ** Scheduling *)

(* SRC sylar/scheduler.h:68-76 Scheduler::scheduleNoLock *)
Definition scheduleNoLock (ft : FiberAndThread) : MW bool :=
  let! x := gets ext in
  let need_tickle := bool_decide (m_fibers x = []) in
  (if bool_decide (is_Some (ft_fiber ft)) || bool_decide (is_Some (ft_cb ft))
   then upd (fun x => set_fibers (m_fibers x ++ [ft]) x) else ret tt) ;;
  ret need_tickle.

(* SRC sylar/scheduler.h:31-42 Scheduler::schedule *)
Definition schedule (tid : Z) (ft : FiberAndThread) : MW unit :=
  let! need_tickle := scheduleNoLock ft in
  if need_tickle then tickle tid else ret tt.

(** The range version takes pointers to the elements, whose tasks it swaps out. *)
Fixpoint schedule_loop (l : list (option callback)) (need_tickle : bool) : MW bool :=
  match l with
  | [] => ret need_tickle
  | c :: l => let! n := scheduleNoLock (FT_of_cb_ptr c (-1)).1 in schedule_loop l (n || need_tickle)
  end.

(* SRC sylar/scheduler.h:44-56 Scheduler::schedule *)
Definition schedule_range (tid : Z) (l : list (option callback)) : MW (list (option callback)) :=
  let! need_tickle := schedule_loop l false in
  (if need_tickle then tickle tid else ret tt) ;;
  ret (map (fun c => (FT_of_cb_ptr c (-1)).2) l).

(** ** [run] *)

(** The loop over [m_fibers] under the lock: the task found, the tasks left, [tickle_me]. *)
(* SRC sylar/scheduler.cpp:168-187 Scheduler::run *)
Fixpoint take_loop (tid : Z) (l : list FiberAndThread) (tickle_me : bool)
    : MW (option FiberAndThread * list FiberAndThread * bool) :=
  match l with
  | [] => ret (None, [], tickle_me)
  | it :: l' =>
      let skip (tickle_me : bool) :=
        let! (r, rest, t) := take_loop tid l' tickle_me in ret (r, it :: rest, t) in
      if negb (ft_thread it =? -1) && negb (ft_thread it =? tid) then skip true
      else
        assert_ (bool_decide (is_Some (ft_fiber it)) || bool_decide (is_Some (ft_cb it))) ;;
        let! exec :=
          match ft_fiber it with
          | Some a => let! f := load a in ret (state_is (m_state f) EXEC)
          | None => ret false
          end in
        if exec then skip tickle_me else ret (Some it, l', tickle_me)
  end.

(** The critical section: the task, [tickle_me] and [is_active]. *)
(* SRC sylar/scheduler.cpp:163-188 Scheduler::run *)
Definition take_task (tid : Z) : MW (FiberAndThread * bool * bool) :=
  let! x := gets ext in
  let! (r, rest, tickle_me) := take_loop tid (m_fibers x) false in
  match r with
  | Some ft =>
      upd (set_fibers rest) ;;
      upd (add_active 1) ;;
      ret (ft, tickle_me, true)
  | None => ret (FT_empty, tickle_me, false)
  end.

(** Where a thread stands in [run]; [cbf] is the local [cb_fiber]. *)
(* SRC sylar/scheduler.cpp:158-165 Scheduler::run *)
Inductive pc :=
  | At_lock (cbf : option Z)
  | Got (ft : FiberAndThread) (tickle_me is_active : bool) (cbf : option Z)
  | Fiber_back (a : Z) (cbf : option Z)
  | Fiber_counted (a : Z) (cbf : option Z)
  | Cb_back (a : Z)
  | Cb_counted (a : Z)
  | Idling (cbf : option Z)
  | Idle_back (cbf : option Z)
  | Done.

(** After a fiber came back and was counted. *)
(* SRC sylar/scheduler.cpp:198-204 Scheduler::run *)
Definition after_fiber (tid a : Z) : MW unit :=
  let! f := load a in
  if state_is (m_state f) READY then schedule tid (FT_of_fiber (Some a) (-1))
  else if negb (state_is (m_state f) TERM) && negb (state_is (m_state f) EXCEP)
  then store a (set_state HOLD)
  else ret tt.

(** The fiber that runs a callback, [cb_fiber] or a new one. *)
(* SRC sylar/scheduler.cpp:205-212 Scheduler::run *)
Definition prepare_cb (cb : callback) (cbf : option Z) : MW Z :=
  match cbf with
  | Some a => reset a (Some cb) ;; ret a
  | None => make_Fiber (Some cb) false
  end.

(** After [cb_fiber] came back and was counted: the new [cb_fiber]. *)
(* SRC sylar/scheduler.cpp:215-224 Scheduler::run *)
Definition after_cb (tid a : Z) : MW (option Z) :=
  let! f := load a in
  if state_is (m_state f) READY then schedule tid (FT_of_fiber (Some a) (-1)) ;; ret None
  else if state_is (m_state f) EXCEP || state_is (m_state f) TERM
  then reset a None ;; ret (Some a)
  else store a (set_state HOLD) ;; ret None.

(** After the idle fiber came back. *)
(* SRC sylar/scheduler.cpp:238-241 Scheduler::run *)
Definition after_idle (idle_fiber : Z) : MW unit :=
  let! f := load idle_fiber in
  if negb (state_is (m_state f) TERM) && negb (state_is (m_state f) EXCEP)
  then store idle_fiber (set_state HOLD)
  else ret tt.

(** What a thread does with what it took. The condition of the first branch is the code's:
    a state is never both [EXCEP] and [TERM], so it is true of every fiber. *)
(* SRC sylar/scheduler.cpp:194-236 Scheduler::run *)
Definition dispatch (tid idle_fiber : Z) (ft : FiberAndThread) (is_active : bool) (cbf : option Z)
    : MW pc :=
  let! alive :=
    match ft_fiber ft with
    | Some a => let! f := load a in
        ret (if negb (state_is (m_state f) EXCEP) || negb (state_is (m_state f) TERM)
             then Some a else None)
    | None => ret None
    end in
  match alive, ft_cb ft with
  | Some a, _ => swap_in tid a ;; ret (Fiber_back a cbf)
  | None, Some cb =>
      let! a := prepare_cb cb cbf in
      swap_in tid a ;;
      ret (Cb_back a)
  | None, None =>
      if is_active then upd (add_active (-1)) ;; ret (At_lock cbf)
      else
        let! f := load idle_fiber in
        if state_is (m_state f) TERM then ret Done
        else upd (add_idle 1) ;; ret (Idling cbf)
  end.

(* SRC sylar/scheduler.cpp:162-243 Scheduler::run *)
Definition run_step (tid idle_fiber : Z) (p : pc) : MW pc :=
  match p with
  | At_lock cbf => let! (ft, tickle_me, is_active) := take_task tid in ret (Got ft tickle_me is_active cbf)
  | Got ft tickle_me is_active cbf =>
      (if tickle_me then tickle tid else ret tt) ;;
      dispatch tid idle_fiber ft is_active cbf
  | Fiber_back a cbf => upd (add_active (-1)) ;; ret (Fiber_counted a cbf)
  | Fiber_counted a cbf => after_fiber tid a ;; ret (At_lock cbf)
  | Cb_back a => upd (add_active (-1)) ;; ret (Cb_counted a)
  | Cb_counted a => let! cbf := after_cb tid a in ret (At_lock cbf)
  | Idling cbf => swap_in tid idle_fiber ;; ret (Idle_back cbf)
  | Idle_back cbf => upd (add_idle (-1)) ;; after_idle idle_fiber ;; ret (At_lock cbf)
  | Done => ret Done
  end.

(** What [run] does before its loop: the thread's scheduler and main fiber, and the idle
    fiber. *)
(* SRC sylar/scheduler.cpp:149-159 Scheduler::run *)
Definition run_begin (this tid : Z) : MW Z :=
  modify (fun w => let l := locals_of tid w in
    set_locals tid (mkLocals (t_fiber l) (t_threadFiber l) (t_mainFiber l) (Some this)) w) ;;
  let! x := gets ext in
  (if negb (tid =? m_rootThread x) then
     let! a := GetThis tid in
     modify (fun w => let l := locals_of tid w in
       set_locals tid (mkLocals (t_fiber l) (t_threadFiber l) (Some a) (t_scheduler l)) w)
   else ret tt) ;;
  make_Fiber (Some bound_idle) false.

(* SRC sylar/scheduler.cpp:162-243 Scheduler::run *)
Fixpoint run_loop (fuel : nat) (tid idle_fiber : Z) (p : pc) : MW unit :=
  match fuel with
  | O => fail_with OutOfFuel
  | S n =>
      match p with
      | Done => ret tt
      | _ => let! p := run_step tid idle_fiber p in run_loop n tid idle_fiber p
      end
  end.

(* SRC sylar/scheduler.cpp:149-244 Scheduler::run *)
Definition run (fuel : nat) (this tid : Z) : MW unit :=
  let! idle_fiber := run_begin this tid in
  run_loop fuel tid idle_fiber (At_lock None).

(** ** Starting and stopping *)

(** The code of the root fiber is [run] alone. *)
Definition seg_root (fuel : nat) (this tid : Z) (k : cont) : MW (@leaves cont) :=
  match k with
  | in_run => run fuel this tid ;; ret Returns
  | k => seg tid k
  end.

(** [this] is the address of the scheduler, [tid] the constructing thread. *)
(* SRC sylar/scheduler.cpp:14-37 Scheduler::Scheduler *)
Definition new_Scheduler (this tid threads : Z) (use_caller : bool) : MW unit :=
  assert_ (0 <? threads) ;;
  (if use_caller then
     let! _ := GetThis tid in
     let! l := gets (locals_of tid) in
     assert_ (bool_decide (t_scheduler l = None)) ;;
     modify (fun w => let l := locals_of tid w in
       set_locals tid (mkLocals (t_fiber l) (t_threadFiber l) (t_mainFiber l) (Some this)) w) ;;
     let! root := make_Fiber (Some bound_run) true in
     modify (fun w => let l := locals_of tid w in
       set_locals tid (mkLocals (t_fiber l) (t_threadFiber l) (Some root) (t_scheduler l)) w) ;;
     upd (fun x => mkSched [] [] (Some root) [tid] tid (threads - 1) 0 0 true false (derived x))
   else
     upd (fun x => mkSched [] [] None [] (-1) threads 0 0 true false (derived x))).

(** [tids] are the ids the system gives the new threads. *)
(* SRC sylar/scheduler.cpp:54-78 Scheduler::start *)
Definition start (tids : list Z) : MW unit :=
  let! x := gets ext in
  if negb (m_stopping x) then ret tt
  else
    upd (set_stopping false) ;;
    assert_ (bool_decide (m_threads x = [])) ;;
    upd (set_threads tids) ;;
    upd (add_threadIds tids).

Fixpoint repeat_tickle (tid : Z) (n : nat) : MW unit :=
  match n with O => ret tt | S n => tickle tid ;; repeat_tickle tid n end.

(** The result is the threads that are joined: the caller waits until their [run] ends. *)
(* SRC sylar/scheduler.cpp:81-143 Scheduler::stop *)
Definition stop (fuel : nat) (this tid : Z) : MW (list Z) :=
  upd (set_autoStop true) ;;
  let! x := gets ext in
  let! over_ :=
    match m_rootFiber x with
    | Some root =>
        if m_threadCount x =? 0 then
          let! f := load root in
          if state_is (m_state f) TERM || state_is (m_state f) INIT then
            upd (set_stopping true) ;; stopping
          else ret false
        else ret false
    | None => ret false
    end in
  if over_ then ret []
  else
    let! l := gets (locals_of tid) in
    (if negb (m_rootThread x =? -1) then assert_ (bool_decide (t_scheduler l = Some this))
     else assert_ (bool_decide (t_scheduler l <> Some this))) ;;
    upd (set_stopping true) ;;
    repeat_tickle tid (Z.to_nat (m_threadCount x)) ;;
    (match m_rootFiber x with
     | Some root =>
         tickle tid ;;
         let! b := stopping in
         if b then ret tt
         else
           let! _ := call entry (seg_root fuel this) tid root in ret tt
     | None => ret tt
     end) ;;
    let! x := gets ext in
    upd (set_threads []) ;;
    ret (m_threads x).
End Methods.
End Scheduler.
