(* ===== verification/SchedulerSpec.v ===== *)
(** * SchedulerSpec: what the scheduler promises

    Which task a thread takes; the counters of active and idle threads under any
    interleaving of threads in [run] and of calls of [schedule], and what [stopping] thus
    means; that [run] executes every task and ends; and three ways it goes wrong. *)

From S2P Require Import Prelude Fiber Scheduler.

Section Take.
Context {UCB UCont Y : Type}.
Notation Ft := (@FiberAndThread UCB).
Notation W := (@World (@callback UCB) (@cont UCont) (@Sched UCB Y)).

(** A task the queue may hold: something to run, and a fiber that exists. *)
Definition task_ok (w : W) (ft : Ft) : Prop :=
  match ft_fiber ft, ft_cb ft with
  | Some a, _ => is_Some (heap w !! a)
  | None, Some _ => True
  | None, None => False
  end.

Definition queue_ok (w : W) : Prop := Forall (task_ok w) (m_fibers (ext w)).

(** A task bound to a thread other than [tid]. *)
Definition for_others (tid : Z) (ft : Ft) : bool :=
  negb (ft_thread ft =? -1) && negb (ft_thread ft =? tid).

Definition executes (w : W) (ft : Ft) : bool :=
  match ft_fiber ft with
  | Some a => match heap w !! a with Some f => state_is (m_state f) EXEC | None => false end
  | None => false
  end.

(** What [tid] may take. *)
Definition eligible (tid : Z) (w : W) (ft : Ft) : bool :=
  negb (for_others tid ft) && negb (executes w ft).

Lemma take_loop_ok tid w l t : Forall (task_ok w) l ->
  take_loop tid l t w =
  match find_split (eligible tid w) l with
  | Some (pre, ft, post) =>
      Ret (Some ft, pre ++ post, t || existsb (for_others tid) pre) w
  | None => Ret (None, l, t || existsb (for_others tid) l) w
  end.
Proof.
  intros Hl. revert t. induction Hl as [|ft l Hft _ IH]; intros t; [by cbn; rewrite orb_false_r|].
  cbn [take_loop find_split]. unfold eligible at 1. fold (for_others tid ft).
  destruct (for_others tid ft) eqn:Ho; cbn [negb andb].
  - unfold bind. rewrite IH.
    destruct (find_split _ l) as [[[pre ft'] post]|]; cbn; by rewrite Ho, orb_true_r.
  - assert (bool_decide (is_Some (ft_fiber ft)) || bool_decide (is_Some (ft_cb ft)) = true) as ->.
    { unfold task_ok in Hft. destruct (ft_fiber ft); [done|]. by destruct (ft_cb ft). }
    erewrite bind_Ret by reflexivity.
    assert ((match ft_fiber ft with
             | Some a => let! f := load a in ret (state_is (m_state f) EXEC)
             | None => ret false end) w = Ret (executes w ft) w) as Hx.
    { unfold executes, task_ok in *. destruct (ft_fiber ft) as [a|]; [|done].
      destruct Hft as [f Hf]. erewrite bind_Ret by (by apply load_ok). by rewrite Hf. }
    erewrite bind_Ret by exact Hx. destruct (executes w ft); cbn [negb].
    + unfold bind. rewrite IH.
      destruct (find_split _ l) as [[[pre ft'] post]|]; cbn; by rewrite Ho.
    + cbn. by rewrite orb_false_r.
Qed.

(** a thread takes the first task of the queue that is not bound to another thread and
    whose fiber does not execute, removes it and no other, and counts itself active; it
    wakes another thread when it passed over a task bound to another thread. When there is
    no such task the queue stays as it is. *)
Theorem take_task_spec tid (w : W) : queue_ok w ->
  (exists pre ft post, m_fibers (ext w) = pre ++ ft :: post /\
     Forall (fun ft => eligible tid w ft = false) pre /\ eligible tid w ft = true /\
     exists w', take_task tid w = Ret (ft, existsb (for_others tid) pre, true) w' /\
       heap w' = heap w /\ m_fibers (ext w') = pre ++ post /\
       m_activeThreadCount (ext w') = u64 (m_activeThreadCount (ext w) + 1)) \/
  (Forall (fun ft => eligible tid w ft = false) (m_fibers (ext w)) /\
   take_task tid w = Ret (FT_empty, existsb (for_others tid) (m_fibers (ext w)), false) w).
Proof.
  intros Hq. pose proof (take_loop_ok tid w _ false Hq) as El.
  unfold take_task, bind, gets. rewrite El.
  destruct (find_split _ _) as [[[pre ft] post]|] eqn:E.
  - left. apply find_split_Some in E as (E & Hft & Hpre). exists pre, ft, post.
    split_and!; [done..|]. eexists. by split_and!.
  - right. apply find_split_None in E. done.
Qed.
End Take.

(** ** The counters, for any interleaving *)

Section Counters.
Context {UCB UCont Y : Type}.
Notation W := (@World (@callback UCB) (@cont UCont) (@Sched UCB Y)).
Notation PC := (@pc UCB).
Context {V : @Virtual UCB UCont Y} (uentry : UCB -> UCont)
  (useg : Z -> UCont -> M W (@leaves UCont)) (g_fiber_stack_size : Z) (malloc : W -> Z -> Z).

Definition same_counts (x x' : @Sched UCB Y) : Prop :=
  m_activeThreadCount x' = m_activeThreadCount x /\ m_idleThreadCount x' = m_idleThreadCount x.

#[local] Instance same_counts_preorder : PreOrder same_counts.
Proof. split; [by intros x|]. intros x y z [? ?] [? ?]. split; congruence. Qed.

#[local] Instance counts_preorder : PreOrder (@on_ext (@callback UCB) (@cont UCont) _ same_counts).
Proof. apply on_ext_preorder, _. Qed.

(** User code and the virtual functions leave the counters, which are protected members,
    to [run]. *)
Class CountLaws : Prop := {
  useg_counts : forall tid k, keeps (on_ext same_counts) (useg tid k);
  useg_throws : forall tid k w e w', useg tid k w = Exn e w' -> on_ext same_counts w w';
  idle_counts : forall tid, keeps (on_ext same_counts) (idle tid);
  idle_throws : forall tid w e w', idle tid w = Exn e w' -> on_ext same_counts w w';
  tickle_counts : forall tid, keeps (on_ext same_counts) (tickle tid)
}.

(** A thread between taking a task and counting itself out; one in its idle fiber. *)
Definition busy (p : PC) : bool :=
  match p with Got _ _ true _ | Fiber_back _ _ | Cb_back _ => true | _ => false end.
Definition idling (p : PC) : bool :=
  match p with Idling _ | Idle_back _ => true | _ => false end.

Definition count (P : PC -> bool) (pcs : gmap Z PC) : Z :=
  map_fold (fun _ p n => (if P p then 1 else 0) + n) 0 pcs.

(** The scheduler with the threads that are in [run]; [idles] are their idle fibers. *)
Context (idles : Z -> Z).

Inductive sys_step : W * gmap Z PC -> W * gmap Z PC -> Prop :=
  | thread_step tid p p' w w' pcs : pcs !! tid = Some p ->
      run_step uentry useg g_fiber_stack_size malloc tid (idles tid) p w = Ret p' w' ->
      sys_step (w, pcs) (w', <[tid := p']> pcs)
  | enter_step tid w pcs : pcs !! tid = None -> sys_step (w, pcs) (w, <[tid := At_lock None]> pcs)
  | schedule_step tid ft w w' pcs : schedule tid ft w = Ret tt w' -> sys_step (w, pcs) (w', pcs)
  | autoStop_step w w' pcs : upd (set_autoStop true) w = Ret tt w' -> sys_step (w, pcs) (w', pcs)
  | stopping_step b w w' pcs : upd (set_stopping b) w = Ret tt w' -> sys_step (w, pcs) (w', pcs).

Definition counters_ok (s : W * gmap Z PC) : Prop :=
  m_activeThreadCount (ext s.1) = u64 (count busy s.2) /\
  m_idleThreadCount (ext s.1) = u64 (count idling s.2).

Lemma count_insert P pcs tid p :
  count P (<[tid := p]> pcs) = (if P p then 1 else 0) + count P (delete tid pcs).
Proof.
  unfold count. rewrite <- insert_delete_eq. rewrite map_fold_insert_L; [done|lia|].
  apply lookup_delete_eq.
Qed.

Lemma count_lookup P pcs tid p : pcs !! tid = Some p ->
  count P pcs = (if P p then 1 else 0) + count P (delete tid pcs).
Proof. intros E. rewrite <- count_insert, insert_id; done. Qed.

Lemma count_nonneg P pcs : 0 <= count P pcs.
Proof.
  induction pcs as [|i p m Hi IH] using map_ind; [done|].
  rewrite count_insert, delete_id by done. destruct (P p); lia.
Qed.

Lemma count_size P pcs : count P pcs <= Z.of_nat (size pcs).
Proof.
  induction pcs as [|i p m Hi IH] using map_ind; [done|].
  rewrite count_insert, delete_id, map_size_insert_None by done. destruct (P p); lia.
Qed.

Lemma count_zero P pcs tid p : count P pcs = 0 -> pcs !! tid = Some p -> P p = false.
Proof.
  intros E Hl. rewrite (count_lookup _ _ _ _ Hl) in E. pose proof (count_nonneg P (delete tid pcs)).
  destruct (P p); [lia|done].
Qed.

(** How far an operation moves the two counters. *)
Definition moves (da di : Z) (w w' : W) : Prop :=
  (forall n, m_activeThreadCount (ext w) = u64 n -> m_activeThreadCount (ext w') = u64 (n + da)) /\
  (forall n, m_idleThreadCount (ext w) = u64 n -> m_idleThreadCount (ext w') = u64 (n + di)).

Lemma moves_same w w' : on_ext same_counts w w' -> moves 0 0 w w'.
Proof. intros [E1 E2]. split; intros n Hn; rewrite Z.add_0_r; congruence. Qed.

Lemma moves_trans da1 di1 da2 di2 w1 w2 w3 :
  moves da1 di1 w1 w2 -> moves da2 di2 w2 w3 -> moves (da1 + da2) (di1 + di2) w1 w3.
Proof. intros [H1 H2] [H3 H4]. split; intros n Hn; rewrite Z.add_assoc; auto. Qed.

Lemma u64_add a d : u64 (u64 a + d) = u64 (a + d).
Proof. unfold wrapu. by rewrite Zplus_mod_idemp_l. Qed.

Lemma moves_active d w w' : upd (add_active d) w = Ret tt w' -> moves d 0 w w'.
Proof.
  intros E. injection E as <-. split; simpl; intros n ->; [apply u64_add|by rewrite Z.add_0_r].
Qed.

Lemma moves_idle d w w' : upd (add_idle d) w = Ret tt w' -> moves 0 d w w'.
Proof.
  intros E. injection E as <-. split; simpl; intros n ->; [by rewrite Z.add_0_r|apply u64_add].
Qed.

Context `{!CountLaws}.

Lemma keeps_segment tid k : keeps (on_ext same_counts) (segment (seg useg) tid k).
Proof.
  intros w l w' E. unfold segment, seg in E. destruct k as [k| |].
  - unfold bind in E. destruct (useg tid k w) as [l0 w0|e w0|] eqn:Eu; simplify_eq/=.
    + by eapply useg_counts.
    + by eapply useg_throws.
  - done.
  - destruct (idle tid w) as [l0 w0|e w0|] eqn:Ei; simplify_eq/=.
    + by eapply idle_counts.
    + by eapply idle_throws.
Qed.

Lemma keeps_swap_in tid a : keeps (on_ext same_counts) (swap_in uentry useg tid a).
Proof.
  unfold swap_in, GetMainFiber. keep. apply keeps_swapIn; [apply _|]. intros. apply keeps_segment.
Qed.

Lemma keeps_upd_fibers l : keeps (on_ext same_counts) (upd (set_fibers l) : M W unit).
Proof. unfold upd. apply keeps_modify. done. Qed.

Lemma keeps_schedule tid ft : keeps (on_ext same_counts) (schedule tid ft).
Proof.
  unfold schedule, scheduleNoLock, upd. keep; first [done|apply tickle_counts].
Qed.
Hint Resolve keeps_swap_in keeps_schedule tickle_counts : keeps.

Lemma keeps_after_fiber tid a : keeps (on_ext same_counts) (after_fiber tid a).
Proof. unfold after_fiber. keep. Qed.
Lemma keeps_after_cb tid a : keeps (on_ext same_counts) (after_cb tid a).
Proof. unfold after_cb. keep. Qed.
Lemma keeps_after_idle a : keeps (on_ext same_counts) (after_idle a : M W unit).
Proof. unfold after_idle. keep. Qed.
Lemma keeps_prepare_cb cb cbf :
  keeps (on_ext same_counts) (prepare_cb g_fiber_stack_size malloc cb cbf).
Proof.
  unfold prepare_cb. destruct cbf; [keep|].
  intros w a w' E. unfold make_Fiber in E. exact (keeps_new_Fiber _ _ _ _ _ _ _ _ _ E).
Qed.

Lemma take_loop_inv tid l t (w : W) r rest t' w' : take_loop tid l t w = Ret (r, rest, t') w' ->
  w' = w /\ match r with
            | Some ft => for_others tid ft = false /\ (is_Some (ft_fiber ft) \/ is_Some (ft_cb ft))
            | None => True
            end.
Proof.
  revert t r rest t' w'. induction l as [|ft l IH]; intros t r rest t' w' E; simpl in E.
  { unfold ret in E. by simplify_eq. }
  fold (for_others tid ft) in E. destruct (for_others tid ft) eqn:Ho.
  - apply bind_inv_Ret in E as ([[r1 rest1] t1] & w1 & E1 & E2). unfold ret in E2. simplify_eq. by eapply IH.
  - apply bind_inv_Ret in E as ([] & w1 & Ha & E). unfold assert_ in Ha.
    destruct (_ || _) eqn:Hb in Ha; [|done]. injection Ha as <-.
    apply bind_inv_Ret in E as (b & w1 & Eb & E).
    assert (w1 = w) as ->.
    { destruct (ft_fiber ft) as [a|]; [|by injection Eb].
      apply bind_inv_Ret in Eb as (f & w2 & El & Er). injection Er as _ <-.
      by apply load_inv in El as [-> _]. }
    destruct b.
    + apply bind_inv_Ret in E as ([[r1 rest1] t1] & w1 & E1 & E2). unfold ret in E2. simplify_eq. by eapply IH.
    + unfold ret in E. simplify_eq. split; [done|]. split; [done|].
      apply orb_true_iff in Hb as [Hb|Hb]; apply bool_decide_eq_true in Hb; auto.
Qed.

(** What a thread holds: a task it may run, or none at all. *)
Definition pc_ok (tid : Z) (p : PC) : Prop :=
  match p with
  | Got ft _ true _ => for_others tid ft = false /\ (is_Some (ft_fiber ft) \/ is_Some (ft_cb ft))
  | Got ft _ false _ => ft = FT_empty
  | _ => True
  end.

Lemma take_task_moves tid (w : W) ft t b w' cbf : take_task tid w = Ret (ft, t, b) w' ->
  moves (if b then 1 else 0) 0 w w' /\ pc_ok tid (Got ft t b cbf).
Proof.
  intros E. unfold take_task in E. apply bind_inv_Ret in E as (x & w1 & E1 & E). injection E1 as <- <-.
  apply bind_inv_Ret in E as ([[r rest] t1] & w1 & E1 & E). apply take_loop_inv in E1 as [-> Hr].
  destruct r as [ft1|].
  - apply bind_inv_Ret in E as ([] & w1 & E1 & E). apply bind_inv_Ret in E as ([] & w2 & E2 & E).
    injection E as <- <- <- <-. split; [|done].
    eapply (moves_trans 0 0 1 0); [|by apply moves_active].
    apply moves_same. by eapply keeps_upd_fibers.
  - injection E as <- <- <- <-. split; [by apply moves_same|done].
Qed.

Lemma keeps_alive (ft : @FiberAndThread UCB) :
  keeps eq (match ft_fiber ft with
            | Some a => let! f := load a in
                ret (if negb (state_is (m_state f) EXCEP) || negb (state_is (m_state f) TERM)
                     then Some a else None)
            | None => ret None
            end : M W (option Z)).
Proof.
  destruct (ft_fiber ft); [|apply keeps_ret, _]. apply keeps_bind; [apply _| |intros; apply keeps_ret, _].
  intros w f w' E. by apply load_inv in E as [-> _].
Qed.

Lemma dispatch_moves tid idle_fiber ft t b cbf (w : W) p' w' : pc_ok tid (Got ft t b cbf) ->
  dispatch uentry useg g_fiber_stack_size malloc tid idle_fiber ft b cbf w = Ret p' w' ->
  moves ((if busy p' then 1 else 0) - (if b then 1 else 0)) (if idling p' then 1 else 0) w w' /\
  pc_ok tid p'.
Proof.
  intros Hpc E. unfold dispatch in E. apply bind_inv_Ret in E as (alive & w1 & E1 & E).
  destruct alive as [a|].
  - assert (b = true) as ->.
    { destruct b; [done|]. simpl in Hpc. subst ft. by injection E1. }
    apply keeps_alive in E1 as <-.
    apply bind_inv_Ret in E as ([] & w2 & E2 & E). injection E as <- <-. split; [|done].
    apply moves_same. by eapply keeps_swap_in.
  - destruct (ft_cb ft) as [cb|] eqn:Hcb.
    + assert (b = true) as -> by (destruct b; [done|]; simpl in Hpc; by subst ft).
      apply keeps_alive in E1 as <-.
      apply bind_inv_Ret in E as (a & w2 & E2 & E). apply bind_inv_Ret in E as ([] & w3 & E3 & E).
      injection E as <- <-. split; [|done]. apply moves_same.
      apply keeps_prepare_cb in E2. apply keeps_swap_in in E3. by transitivity w2.
    + apply keeps_alive in E1 as <-. destruct b.
      * apply bind_inv_Ret in E as ([] & w2 & E2 & E). injection E as <- <-. split; [|done].
        by apply moves_active.
      * apply bind_inv_Ret in E as (f & w2 & E2 & E).
        apply load_inv in E2 as [-> _].
        destruct (state_is _ _).
        -- injection E as <- <-. split; [by apply moves_same|done].
        -- apply bind_inv_Ret in E as ([] & w2 & E3 & E). injection E as <- <-. split; [|done].
           by apply moves_idle.
Qed.

Lemma run_step_moves tid idle_fiber p (w : W) p' w' : pc_ok tid p ->
  run_step uentry useg g_fiber_stack_size malloc tid idle_fiber p w = Ret p' w' ->
  moves ((if busy p' then 1 else 0) - (if busy p then 1 else 0))
    ((if idling p' then 1 else 0) - (if idling p then 1 else 0)) w w' /\
  pc_ok tid p'.
Proof.
  intros Hpc E. destruct p as [cbf|ft t b cbf|a cbf|a cbf|a|a|cbf|cbf|]; unfold run_step in E.
  - apply bind_inv_Ret in E as ([[ft t] b] & w1 & E1 & E). unfold ret in E. simplify_eq.
    destruct (take_task_moves _ _ _ _ _ _ cbf E1) as [Hm ?]. by destruct b.
  - apply bind_inv_Ret in E as ([] & w1 & E1 & E).
    assert (on_ext same_counts w w1) as H1.
    { destruct t; [by eapply tickle_counts|]. unfold ret in E1. by simplify_eq. }
    apply (dispatch_moves _ _ _ t) in E as [Hm ?]; [|done]. split; [|done].
    apply moves_same in H1. pose proof (moves_trans _ _ _ _ _ _ _ H1 Hm) as Ht.
    rewrite Z.add_0_l in Ht. simpl. destruct b, (idling p'); exact Ht.
  - apply bind_inv_Ret in E as ([] & w1 & E1 & E). unfold ret in E. simplify_eq.
    split; [by apply moves_active|done].
  - apply bind_inv_Ret in E as ([] & w1 & E1 & E). unfold ret in E. simplify_eq.
    split; [|done]. apply moves_same. by eapply keeps_after_fiber.
  - apply bind_inv_Ret in E as ([] & w1 & E1 & E). unfold ret in E. simplify_eq.
    split; [by apply moves_active|done].
  - apply bind_inv_Ret in E as (cbf & w1 & E1 & E). unfold ret in E. simplify_eq.
    split; [|done]. apply moves_same. by eapply keeps_after_cb.
  - apply bind_inv_Ret in E as ([] & w1 & E1 & E). unfold ret in E. simplify_eq.
    split; [|done]. apply moves_same. by eapply keeps_swap_in.
  - apply bind_inv_Ret in E as ([] & w1 & E1 & E). apply bind_inv_Ret in E as ([] & w2 & E2 & E).
    unfold ret in E. simplify_eq. split; [|done].
    apply (moves_trans 0 (-1) 0 0 _ w1); [by apply moves_idle|].
    apply moves_same. by eapply keeps_after_idle.
  - unfold ret in E. simplify_eq. split; [by apply moves_same|done].
Qed.

Definition sys_ok (s : W * gmap Z PC) : Prop :=
  counters_ok s /\ forall tid p, s.2 !! tid = Some p -> pc_ok tid p.

Lemma sys_ok_pcs w pcs tid p w' da di :
  moves da di w w' -> sys_ok (w, pcs) -> pc_ok tid p ->
  count busy (<[tid := p]> pcs) = count busy pcs + da ->
  count idling (<[tid := p]> pcs) = count idling pcs + di ->
  sys_ok (w', <[tid := p]> pcs).
Proof.
  intros [Ha Hi] [[Ca Ci] Hp] Hpc Eb Ei. split.
  - split; simpl; rewrite ?Eb, ?Ei; auto.
  - simpl. intros tid' p' E. apply lookup_insert_Some in E as [[<- <-]|[_ E]]; [done|by eapply Hp].
Qed.

Lemma sys_ok_world w w' pcs : moves 0 0 w w' -> sys_ok (w, pcs) -> sys_ok (w', pcs).
Proof.
  intros [Ha Hi] [[Ca Ci] Hp]. split; [|done]. split; simpl in *; [apply Ha in Ca|apply Hi in Ci];
    by rewrite Z.add_0_r in *.
Qed.

Lemma sys_ok_step s s' : sys_ok s -> sys_step s s' -> sys_ok s'.
Proof.
  intros Hok Hs. destruct Hs as [tid p p' w w' pcs Hp E|tid w pcs Hp|tid ft w w' pcs E|w w' pcs E|b w w' pcs E].
  - apply run_step_moves in E as [Hm Hpc]; [|by apply Hok].
    eapply sys_ok_pcs; [exact Hm|done|done|..];
      rewrite count_insert, (count_lookup _ _ _ _ Hp); lia.
  - apply (sys_ok_pcs w pcs tid _ w 0 0); [by apply moves_same|done|done|..];
      by rewrite count_insert, delete_id, Z.add_0_r by done.
  - eapply sys_ok_world; [|done]. apply moves_same. by eapply keeps_schedule.
  - injection E as <-. by eapply sys_ok_world; [apply moves_same|].
  - injection E as <-. by eapply sys_ok_world; [apply moves_same|].
Qed.

Definition sys_reachable (w : W) : W * gmap Z PC -> Prop := rtc sys_step (w, ∅).

(** C8: threads enter [run] and go through its steps in any interleaving, while tasks are
    scheduled and [stop] sets its flags. From counters at zero, [m_activeThreadCount] is
    then always the number of threads that have taken a task and not yet counted
    themselves out, [m_idleThreadCount] the number in their idle fiber; a thread holds no
    task bound to another one; and when [stopping] is true the queue is empty and no
    thread is between taking a task and coming back from it. *)
Theorem counters_exact w0 w pcs :
  m_activeThreadCount (ext w0) = 0 -> m_idleThreadCount (ext w0) = 0 ->
  sys_reachable w0 (w, pcs) -> Z.of_nat (size pcs) < 2 ^ 64 ->
  m_activeThreadCount (ext w) = count busy pcs /\
  m_idleThreadCount (ext w) = count idling pcs /\
  (forall tid ft t cbf, pcs !! tid = Some (Got ft t true cbf) ->
     ft_thread ft = -1 \/ ft_thread ft = tid) /\
  (base_stopping w = Ret true w ->
     m_fibers (ext w) = [] /\ forall tid p, pcs !! tid = Some p -> busy p = false).
Proof.
  intros Ha0 Hi0 Hr Hsz.
  assert (sys_ok (w, pcs)) as [[Ca Ci] Hp].
  { revert Hr. unfold sys_reachable. generalize (w, pcs). apply rtc_ind_r; [|intros; by eapply sys_ok_step].
    split; [|done]. by split; simpl; rewrite ?Ha0, ?Hi0. }
  pose proof (count_size busy pcs). pose proof (count_size idling pcs).
  pose proof (count_nonneg busy pcs). pose proof (count_nonneg idling pcs).
  simpl in Ca, Ci. rewrite wrapu_small in Ca by lia. rewrite wrapu_small in Ci by lia. split_and!; try done.
  - intros tid ft t cbf E. destruct (Hp _ _ E) as [Ho _]. unfold for_others in Ho.
    apply andb_false_iff in Ho as [Ho|Ho]; apply negb_false_iff, Z.eqb_eq in Ho; auto.
  - intros E. unfold base_stopping, gets in E. injection E as E.
    apply andb_true_iff in E as [E Ez]. apply andb_true_iff in E as [_ Eq].
    split; [by apply bool_decide_eq_true in Eq|]. intros tid p Hl.
    eapply count_zero; [|done]. rewrite <- Ca. lia.
Qed.
End Counters.

(** ** A scheduler of user code that holds [n] times and returns *)

Notation demo_W := (@World (@callback nat) (@cont nat) (@Sched nat unit)).

#[export] Instance countdown_counts :
  @CountLaws nat nat unit base_Virtual (@countdown demo_W).
Proof.
  split.
  - intros tid k w l w' E. unfold countdown in E. by destruct k; injection E as _ <-.
  - intros tid k w e w' E. unfold countdown in E. by destruct k.
  - intros tid w l w' E. by injection E as _ <-.
  - intros tid w e w' E. done.
  - intros tid w l w' E. by injection E as _ <-.
Qed.

Definition demo_malloc (w : demo_W) (size : Z) : Z := 4096.

(** No thread, nothing scheduled. *)
Definition demo_start : demo_W := mkWorld ∅ 0 0 0 ∅ (mkSched [] [] None [] (-1) 1 0 0 true false tt).

(** Thread 7 enters [run], a task is scheduled, and the thread takes it. *)
Lemma counters_exact_witness :
  exists w pcs,
    sys_reachable (V := base_Virtual) (fun n => n) countdown 1048576 demo_malloc (fun _ => 0)
      demo_start (w, pcs) /\
    m_activeThreadCount (ext w) = 1 /\ m_activeThreadCount (ext w) = count busy pcs.
Proof.
  do 2 eexists.
  eassert (sys_reachable (V := base_Virtual) (fun n => n) countdown 1048576 demo_malloc (fun _ => 0)
    demo_start (_, _)) as Hr.
  { eapply rtc_l; [by apply (enter_step _ _ _ _ _ 7)|].
    eapply rtc_l; [apply (schedule_step _ _ _ _ _ 7 (FT_of_cb (Some (user_cb 3%nat)) (-1))); reflexivity|].
    eapply rtc_l; [eapply (thread_step _ _ _ _ _ 7); reflexivity|]. apply rtc_refl. }
  split; [exact Hr|]. split; [reflexivity|].
  exact (proj1 (counters_exact (V := base_Virtual) (fun n => n) countdown 1048576 demo_malloc
    (fun _ => 0) demo_start _ _ eq_refl eq_refl Hr ltac:(vm_compute; reflexivity))).
Defined.

Lemma take_task_spec_witness :
  let ft := FT_of_cb (Some (user_cb 3%nat)) 8 in
  let ft' := FT_of_cb (Some (user_cb 4%nat)) (-1) in
  let w := set_ext (set_fibers [ft; ft'] (ext demo_start)) demo_start in
  queue_ok w /\ exists w', take_task 7 w = Ret (ft', true, true) w'.
Proof.
  intros ft ft' w. assert (queue_ok w) as Hq by (repeat constructor).
  split; [exact Hq|].
  destruct (take_task_spec 7 w Hq) as [(pre & f & post & E & Hpre & Hf & w' & Ew & _)|[Hn _]].
  - assert (pre = [ft] /\ f = ft') as [-> ->].
    { destruct pre as [|f1 [|f2 pre]]; simplify_eq/=; [done|].
      by destruct pre. }
    exists w'. exact Ew.
  - inversion Hn as [|? ? _ Hn']. by inversion Hn'.
Defined.
