(* ===== verification/SchedulerRun.v ===== *)
(** * SchedulerRun: [run] executes every task, in order, and ends

    One thread in [run] of a base-class scheduler that [stop] has been called on. The user
    code terminates in the sense of the class [Terminates]: a rank of the points where it
    stands pays for the tasks it schedules and for going on after a yield. It also notes in
    its own state, read by [trace], the points it is resumed at; this is how the theorem
    can say which segments of user code have run and in which order. *)

From S2P Require Import Prelude Fiber Scheduler SchedulerSpec.

Section Drain.
Context {UCB UCont Y : Type}.
Notation Ft := (@FiberAndThread UCB).
Notation Fb := (@Fiber (@callback UCB) (@cont UCont)).
Notation W := (@World (@callback UCB) (@cont UCont) (@Sched UCB Y)).
Context (uentry : UCB -> UCont) (useg : Z -> UCont -> M W (@leaves UCont)).
Context (g_fiber_stack_size : Z) (malloc : W -> Z -> Z).
Context (rank : UCont -> nat) (trace : Y -> list UCont).

(** User code may schedule callbacks and change what is its own. *)
Definition task_of (c : UCB) : Ft := FT_of_cb (Some (user_cb c)) (-1).
Definition spawn (cs : list UCB) (y : Y) (w : W) : W :=
  set_ext (set_derived y (set_fibers (m_fibers (ext w) ++ map task_of cs) (ext w))) w.

(** What is left to pay after a segment. *)
Definition cost (l : @leaves UCont) : nat :=
  match l with YieldsReady k => S (rank k) | _ => 0 end.
Definition sum_cb (cs : list UCB) : nat := sum_list (map (fun c => S (rank (uentry c))) cs).

(** A segment from [k] that leaves with [l] after it has scheduled [cs]. *)
Definition ran (tid : Z) (k : UCont) (l : @leaves UCont) (cs : list UCB) : Prop :=
  exists w y, useg tid k w = Ret l (spawn cs y w).

Class Terminates : Prop := {
  useg_ends : forall tid k w, exists l cs y,
    useg tid k w = Ret l (spawn cs y w) /\ (cost l + sum_cb cs <= rank k)%nat /\
    trace y = trace (derived (ext w)) ++ [k];
  malloc_ok : forall w, malloc w g_fiber_stack_size <> 0
}.
Context `{!Terminates}.

#[local] Existing Instance base_Virtual.
Notation seg := (seg useg).
Notation entry := (entry uentry).

#[local] Instance seg_UserLaws : UserLaws seg.
Proof.
  split; intros tid k w l w'.
  - unfold segment, Scheduler.seg. destruct k as [k| |]; [|done|].
    + destruct (useg_ends tid k w) as (l0 & cs & y & E & _). unfold bind. rewrite E. intros. by simplify_eq/=.
    + cbn. intros. by simplify_eq.
  - intros a f. unfold segment, Scheduler.seg. destruct k as [k| |]; [|done|].
    + destruct (useg_ends tid k w) as (l0 & cs & y & E & _). unfold bind. rewrite E. intros. by simplify_eq/=.
    + cbn. intros. by simplify_eq.
Qed.

(** ** What a first-in first-out queue of user code runs *)

Definition trace_of (w : W) : list UCont := trace (derived (ext w)).

(** A fiber that gives up its turn with [YieldToReady] goes to the end of the queue. *)
Definition ready (l : @leaves UCont) : list UCont :=
  match l with YieldsReady k => [k] | _ => [] end.

(** [plays tid q log]: the segments [log], run by [tid] one after the other, empty the
    queue [q]. The head runs and is gone; what it schedules goes to the end, then the rest
    of it if it is ready to go on. *)
Inductive plays (tid : Z) : list UCont -> list UCont -> Prop :=
  | plays_nil : plays tid [] []
  | plays_cons k q l cs log : ran tid k l cs ->
      plays tid (q ++ map uentry cs ++ ready l) log -> plays tid (k :: q) (k :: log).

(** Where the user code of a task starts or goes on. *)
Definition cont_of (w : W) (ft : Ft) : option UCont :=
  match ft_fiber ft, ft_cb ft with
  | Some a, _ =>
      f ← heap w !! a; match resumes entry f with Some (user_at k) => Some k | _ => None end
  | None, Some (user_cb c) => Some (uentry c)
  | _, _ => None
  end.
Definition conts (w : W) : list UCont := omap (cont_of w) (m_fibers (ext w)).

(** ** One switch to a fiber and back *)

Lemma swap_in_user tid a main (w : W) f k : has_main tid main w -> a <> main ->
  heap w !! a = Some f -> consistent a f -> main_of f = MainFunc -> m_state f <> EXEC ->
  m_stack f <> 0 -> resumes entry f = Some (user_at k) ->
  exists l cs y w', swap_in uentry useg tid a w = Ret tt w' /\
    came_back tid a main (at_user l) f w w' /\
    ext w' = set_derived y (set_fibers (m_fibers (ext w) ++ map task_of cs) (ext w)) /\
    next_addr w' = next_addr w /\ (forall b, is_Some (heap w' !! b) -> is_Some (heap w !! b)) /\
    (cost l + sum_cb cs <= rank k)%nat /\ ran tid k l cs /\ trace y = trace_of w ++ [k].
Proof.
  intros Hm Hne Hf Hc Hg Hst Hsk Hk. unfold swap_in.
  pose proof (swapIn_runs entry seg tid a main w f _ Hm Hne Hf Hc Hg Hst Hk) as Er.
  destruct (useg_ends tid k (entered tid a main w)) as (l & cs & y & E & Hcost & Htr).
  assert (segment seg tid (user_at k) (entered tid a main w) =
          Ret (at_user l) (spawn cs y (entered tid a main w))) as Es.
  { unfold segment, Scheduler.seg, bind. by rewrite E. }
  rewrite Es in Er. exists l, cs, y. eexists. split.
  { unfold GetMainFiber. erewrite bind_Ret by reflexivity. erewrite bind_Ret by exact Er.
    destruct Hm as [Hm _]. rewrite Hm. by rewrite bool_decide_eq_true_2. }
  split_and!; try done.
  - apply left_came_back; try done. change (locals_of tid (spawn cs y (entered tid a main w)))
      with (locals_of tid (entered tid a main w)). rewrite locals_entered. apply Hm.
  - intros b. unfold left_, spawn, entered. cbn [heap set_locals set_heap set_ext].
    rewrite !lookup_alter_is_Some. done.
  - by do 2 eexists.
Qed.

(** ** The loop's invariant *)

(** A task [tid] can run: a callback of the user, or a fiber of it that is not running. *)
Definition runnable (tid main idle_fiber : Z) (w : W) (ft : Ft) : Prop :=
  for_others tid ft = false /\
  match ft_fiber ft, ft_cb ft with
  | Some a, None => a <> main /\ a <> idle_fiber /\ exists f k, heap w !! a = Some f /\
      consistent a f /\ main_of f = MainFunc /\ m_state f ∈ [INIT; HOLD; READY] /\
      resumes entry f = Some (user_at k)
  | None, Some (user_cb _) => True
  | _, _ => False
  end.

(** What a task costs. *)
Definition weight (w : W) (ft : Ft) : nat :=
  match cont_of w ft with Some k => S (rank k) | None => 1 end.
Definition total (w : W) : nat := sum_list (map (weight w) (m_fibers (ext w))).

Definition fibers_of (l : list Ft) : list Z := omap ft_fiber l.

(** [cb_fiber] waits to be reused. *)
Definition spare (tid main idle_fiber : Z) (w : W) (a : Z) : Prop :=
  a <> main /\ a <> idle_fiber /\ a ∉ fibers_of (m_fibers (ext w)) /\
  exists f, heap w !! a = Some f /\ m_state f = INIT /\ m_ctx f = at_entry MainFunc /\ m_stack f <> 0.

Definition waits (k : option cont) (a : Z) (w : W) : Prop :=
  exists f, heap w !! a = Some f /\ consistent a f /\ main_of f = MainFunc /\
    m_state f ∈ [INIT; HOLD; READY] /\ resumes entry f = k.

Definition settled (w : W) (a : Z) : Prop :=
  exists f, heap w !! a = Some f /\ m_state f ∈ [TERM; EXCEP; HOLD].

(** [Q] are the fibers whose fate is followed: each is still in the queue or settled. *)
Record inv (Q : list Z) (tid main idle_fiber : Z) (cbf : option Z) (w : W) : Prop := {
  inv_main : has_main tid main w;
  inv_fresh : forall a, is_Some (heap w !! a) -> a < next_addr w;
  inv_idle : idle_fiber <> main /\ waits (Some in_idle) idle_fiber w;
  inv_flags : m_autoStop (ext w) = true /\ m_stopping (ext w) = true;
  inv_active : m_activeThreadCount (ext w) = 0;
  inv_queue : Forall (runnable tid main idle_fiber w) (m_fibers (ext w));
  inv_nodup : NoDup (fibers_of (m_fibers (ext w)));
  inv_spare : match cbf with Some a => spare tid main idle_fiber w a /\ a ∉ Q | None => True end;
  inv_followed : forall a, a ∈ Q -> a <> main /\ is_Some (heap w !! a) /\
    (a ∈ fibers_of (m_fibers (ext w)) \/ settled w a)
}.

Notation run_step := (run_step uentry useg g_fiber_stack_size malloc).
Notation run_loop := (run_loop uentry useg g_fiber_stack_size malloc).

Lemma run_loop_step n tid i p p' (w w' : W) : p <> Done -> run_step tid i p w = Ret p' w' ->
  run_loop (S n) tid i p w = run_loop n tid i p' w'.
Proof. intros Hp E. destruct p; try done; simpl; by erewrite bind_Ret by exact E. Qed.

(** The task at the head of the queue is taken. *)
Definition taken (w : W) (rest : list Ft) : W :=
  set_ext (add_active 1 (set_fibers rest (ext w))) w.

Lemma take_head tid main i (w : W) ft rest : m_fibers (ext w) = ft :: rest ->
  runnable tid main i w ft -> take_task tid w = Ret (ft, false, true) (taken w rest).
Proof.
  intros Eq [Ho Hft]. unfold take_task. erewrite bind_Ret by reflexivity. rewrite Eq.
  assert (take_loop tid (ft :: rest) false w = Ret (Some ft, rest, false) w) as E.
  { unfold for_others in Ho. simpl. rewrite Ho. unfold bind, ret, assert_, load.
    destruct (ft_fiber ft) as [a|], (ft_cb ft) as [[c| |]|]; try done; simpl.
    destruct Hft as (_ & _ & f & k & -> & _ & _ & Hin & _). unfold state_is.
    rewrite !elem_of_cons, elem_of_nil in Hin. rewrite bool_decide_eq_false_2; [done|naive_solver congruence]. }
  erewrite bind_Ret by exact E. done.
Qed.

(** ** One task *)

(** How one round leaves the world: fiber [a] ran, and the queue lost its head and got the
    callbacks [cs] and [tail] at its end. *)
Record round (tid main a : Z) (rest : list Ft) (cs : list UCB) (tail : list Ft) (w w' : W) : Prop := {
  round_main : has_main tid main w';
  round_heap : forall b fb, b <> a -> b <> main -> heap w !! b = Some fb -> heap w' !! b = Some fb;
  round_fresh : forall b, is_Some (heap w' !! b) -> b < next_addr w';
  round_flags : m_autoStop (ext w') = m_autoStop (ext w) /\ m_stopping (ext w') = m_stopping (ext w);
  round_active : m_activeThreadCount (ext w') = m_activeThreadCount (ext w);
  round_queue : m_fibers (ext w') = rest ++ map task_of cs ++ tail;
  round_tail : tail = [] \/ tail = [FT_of_fiber (Some a) (-1)] /\
    exists k, waits (Some (user_at k)) a w'
}.

Lemma waits_other tid main a rest cs tail w w' k b : round tid main a rest cs tail w w' ->
  b <> a -> b <> main -> waits k b w -> waits k b w'.
Proof. intros Hr Hba Hbm (f & Hf & Hw). exists f. split; [by eapply round_heap|done]. Qed.

Lemma in_fibers_of l a ft : ft ∈ l -> ft_fiber ft = Some a -> a ∈ fibers_of l.
Proof. intros Hin E. apply list_elem_of_omap. eauto. Qed.

Lemma runnable_other tid main i a rest cs tail w w' : round tid main a rest cs tail w w' ->
  a ∉ fibers_of rest -> Forall (runnable tid main i w) rest -> Forall (runnable tid main i w') rest.
Proof.
  intros Hr Ha Hrest. rewrite list.Forall_forall in *. intros ft Hin.
  destruct (Hrest ft Hin) as [Ho Hft]. split; [done|].
  destruct (ft_fiber ft) as [b|] eqn:Eb; [|done]. destruct (ft_cb ft); [done|].
  destruct Hft as (Hbm & Hbi & f & k & Hf & Hw). split; [done|]. split; [done|]. exists f, k.
  split; [|done]. eapply round_heap; try done. intros ->. apply Ha. by eapply in_fibers_of.
Qed.

Lemma cont_other tid main i a rest cs tail w w' ft : round tid main a rest cs tail w w' ->
  a ∉ fibers_of rest -> Forall (runnable tid main i w) rest -> ft ∈ rest ->
  cont_of w' ft = cont_of w ft.
Proof.
  intros Hr Ha Hrest Hin. rewrite list.Forall_forall in Hrest.
  destruct (Hrest ft Hin) as [_ Hft]. unfold cont_of.
  destruct (ft_fiber ft) as [b|] eqn:Eb; [|done]. destruct (ft_cb ft); [done|].
  destruct Hft as (Hbm & Hbi & f & k & Hf & _). erewrite round_heap; [by rewrite Hf|done| |done|done].
  intros ->. apply Ha. by eapply in_fibers_of.
Qed.

Lemma weight_other tid main i a rest cs tail w w' : round tid main a rest cs tail w w' ->
  a ∉ fibers_of rest -> Forall (runnable tid main i w) rest ->
  map (weight w') rest = map (weight w) rest.
Proof.
  intros Hr Ha Hrest. apply map_ext_in. intros ft Hin. apply list_elem_of_In in Hin.
  unfold weight. by erewrite cont_other.
Qed.

Lemma omap_ext_in {A B} (g h : A -> option B) (l : list A) :
  (forall x, x ∈ l -> g x = h x) -> omap g l = omap h l.
Proof.
  induction l as [|x l IH]; intros Hx; [done|]. cbn. rewrite (Hx x) by (by left).
  rewrite IH by (intros; apply Hx; by right). done.
Qed.

Lemma omap_cont_tasks w cs : omap (cont_of w) (map task_of cs) = map uentry cs.
Proof. induction cs as [|c cs IH]; [done|]. cbn. by f_equal. Qed.

(** How the queue of user code changes in a round whose segment is [k]. *)
Record turn (tid : Z) (k : UCont) (l : @leaves UCont) (cs : list UCB) (tail : list Ft) (w w' : W) : Prop := {
  turn_ran : ran tid k l cs;
  turn_trace : trace_of w' = trace_of w ++ [k];
  turn_tail : omap (cont_of w') tail = ready l
}.

Lemma turn_conts tid main i a k l ft rest cs tail w w' : round tid main a rest cs tail w w' ->
  turn tid k l cs tail w w' -> a ∉ fibers_of rest -> Forall (runnable tid main i w) rest ->
  m_fibers (ext w) = ft :: rest -> cont_of w ft = Some k ->
  exists q, conts w = k :: q /\ conts w' = q ++ map uentry cs ++ ready l.
Proof.
  intros Hr Ht Ha Hrest Eq Ek. exists (omap (cont_of w) rest). unfold conts. split.
  - rewrite Eq. simpl. by rewrite Ek.
  - rewrite (round_queue _ _ _ _ _ _ _ _ Hr), !omap_app, omap_cont_tasks, (turn_tail _ _ _ _ _ _ _ Ht).
    f_equal. apply omap_ext_in. intros. by eapply cont_other.
Qed.

Lemma fibers_of_app l1 l2 : fibers_of (l1 ++ l2) = fibers_of l1 ++ fibers_of l2.
Proof. apply omap_app. Qed.

Lemma fibers_of_tasks cs : fibers_of (map task_of cs) = [].
Proof. by induction cs. Qed.

Lemma inv_round Q tid main i cbf cbf' a ft rest cs tail w w' : inv Q tid main i cbf w ->
  m_fibers (ext w) = ft :: rest -> round tid main a rest cs tail w w' ->
  a <> main -> a <> i -> a ∉ fibers_of rest -> (ft_fiber ft = None \/ ft_fiber ft = Some a) ->
  (a ∈ Q -> is_Some (heap w' !! a) /\ (tail <> [] \/ settled w' a)) ->
  match cbf' with Some a' => spare tid main i w' a' /\ a' ∉ Q | None => True end ->
  inv Q tid main i cbf' w'.
Proof.
  intros Hinv Eq Hr Hm Hi Ha Hft HQ Hcbf. pose proof (inv_queue _ _ _ _ _ _ Hinv) as Hq.
  rewrite Eq in Hq. apply Forall_cons_1 in Hq as [_ Hrest].
  pose proof (inv_nodup _ _ _ _ _ _ Hinv) as Hnd.
  assert (NoDup (fibers_of rest)) as Hnd'.
  { rewrite Eq in Hnd. change (ft :: rest) with ([ft] ++ rest) in Hnd. rewrite fibers_of_app in Hnd.
    by apply list.NoDup_app in Hnd as (_ & _ & ?). }
  constructor.
  - by eapply round_main.
  - by eapply round_fresh.
  - destruct (inv_idle _ _ _ _ _ _ Hinv). split; [done|]. by eapply waits_other.
  - destruct (round_flags _ _ _ _ _ _ _ _ Hr) as [-> ->]. apply (inv_flags _ _ _ _ _ _ Hinv).
  - rewrite (round_active _ _ _ _ _ _ _ _ Hr). apply (inv_active _ _ _ _ _ _ Hinv).
  - rewrite (round_queue _ _ _ _ _ _ _ _ Hr). apply Forall_app_2; [by eapply runnable_other|].
    apply Forall_app_2.
    + apply list.Forall_forall. intros x Hx. apply list_elem_of_In, in_map_iff in Hx as (c & <- & _). done.
    + destruct (round_tail _ _ _ _ _ _ _ _ Hr) as [->|(-> & k & f & Hf & ? & ? & ? & ?)]; [done|].
      constructor; [|done]. split; [done|]. simpl. split_and!; try done. by exists f, k.
  - rewrite (round_queue _ _ _ _ _ _ _ _ Hr), !fibers_of_app, fibers_of_tasks. simpl.
    destruct (round_tail _ _ _ _ _ _ _ _ Hr) as [->|[-> _]]; simpl; [by rewrite app_nil_r|].
    apply list.NoDup_app. split_and!; [done| |apply NoDup_singleton].
    intros x Hx Hx'. apply list_elem_of_singleton in Hx' as ->. done.
  - done.
  - intros b Hb. rewrite (round_queue _ _ _ _ _ _ _ _ Hr), !fibers_of_app, fibers_of_tasks.
    destruct (decide (b = a)) as [->|Hne].
    + destruct (HQ Hb) as [? Hor]. split; [done|]. split; [done|].
      destruct (round_tail _ _ _ _ _ _ _ _ Hr) as [->|[-> _]]; [right; by destruct Hor|left].
      simpl. set_solver.
    + destruct (inv_followed _ _ _ _ _ _ Hinv b Hb) as (Hbm & [f Hf] & Hor). split; [done|].
      pose proof (round_heap _ _ _ _ _ _ _ _ Hr b f Hne Hbm Hf) as Hf'. split; [by exists f|].
      destruct Hor as [Hin|(f1 & Hf1 & Hs)]; [left|right; exists f1; split; [by simplify_eq|done]].
      rewrite Eq in Hin. apply elem_of_app. left.
      apply list_elem_of_omap in Hin as (t & Ht & Et). apply elem_of_cons in Ht as [->|Ht].
      * destruct Hft as [Hft|Hft]; rewrite Hft in Et; by simplify_eq.
      * by eapply in_fibers_of.
Qed.

(** What follows a switch back: the fiber stands where the way it left says, and the code
    after the switch may append [tail] to the queue. *)
Definition left_as (l : @leaves UCont) (a : Z) (w : W) : Prop :=
  exists f, heap w !! a = Some f /\ m_state f = state_after (at_user l) /\
    m_ctx f = ctx_after MainFunc a (at_user l) /\ m_stack f <> 0.

Record post (l : @leaves UCont) (a : Z) (tail : list Ft) (w w' : W) : Prop := {
  post_locals : locals w' = locals w;
  post_heap : forall b, b <> a -> heap w' !! b = heap w !! b;
  post_here : is_Some (heap w' !! a);
  post_next : next_addr w' = next_addr w;
  post_ext : ext w' = set_fibers (m_fibers (ext w) ++ tail) (ext w);
  post_tail : tail = [] /\ ready l = [] \/ exists k, l = YieldsReady k /\ tail = [FT_of_fiber (Some a) (-1)] /\
    waits (Some (user_at k)) a w'
}.

Lemma ext_id (x : @Sched UCB Y) : x = set_fibers (m_fibers x ++ []) x.
Proof. rewrite app_nil_r. by destruct x. Qed.

Lemma post_same l a w : left_as l a w -> ready l = [] -> post l a [] w w.
Proof.
  intros (f & Hf & _) Hl. constructor; try done; [apply ext_id|by left].
Qed.

Lemma post_hold l a (w : W) : left_as l a w -> ready l = [] ->
  post l a [] w (set_heap (alter (set_state HOLD) a (heap w)) w).
Proof.
  intros (f & Hf & _) Hl. constructor; simpl; try done; [..|apply ext_id|by left].
  - intros b Hb. by rewrite lookup_alter_ne.
  - rewrite lookup_alter_eq, Hf. by eexists.
Qed.

Lemma schedule_ok tid ft (w : W) : is_Some (ft_fiber ft) ->
  schedule tid ft w = Ret tt (set_ext (set_fibers (m_fibers (ext w) ++ [ft]) (ext w)) w).
Proof.
  intros [a Ha]. unfold schedule, scheduleNoLock, bind, gets, ret, upd, modify. rewrite Ha. simpl.
  by destruct (bool_decide (m_fibers (ext w) = [])).
Qed.

Lemma post_schedule k a (w : W) : left_as (YieldsReady k) a w ->
  post (YieldsReady k) a [FT_of_fiber (Some a) (-1)] w
    (set_ext (set_fibers (m_fibers (ext w) ++ [FT_of_fiber (Some a) (-1)]) (ext w)) w).
Proof.
  intros (f & Hf & Hs & Hc & Hst). constructor; try done.
  right. exists k. split; [done|]. split; [done|]. exists f. unfold consistent, main_of, resumes.
  simpl in Hs, Hc. rewrite Hs, Hc. split_and!; try done; [eauto|set_solver].
Qed.

Lemma after_fiber_post tid l a w : left_as l a w -> exists tail w',
  after_fiber tid a w = Ret tt w' /\ post l a tail w w' /\ (tail = [] -> settled w' a).
Proof.
  intros Hl. pose proof Hl as (f & Hf & Hs & _). unfold after_fiber.
  erewrite bind_Ret by (by apply load_ok). rewrite Hs. destruct l as [| |k|k|k]; cbn.
  - exists [], w. split_and!; [done|by apply post_same|]. exists f. rewrite Hs. split; [done|set_solver].
  - exists [], w. split_and!; [done|by apply post_same|]. exists f. rewrite Hs. split; [done|set_solver].
  - exists [FT_of_fiber (Some a) (-1)]. eexists.
    split_and!; [by apply schedule_ok|by apply post_schedule|done].
  - exists []. eexists. split_and!; [by apply (store_ok _ _ _ f)|by apply (post_hold (YieldsHold k))|].
    intros _. eexists. simpl. rewrite lookup_alter_eq, Hf. split; [done|]. simpl. set_solver.
  - exists []. eexists. split_and!; [by apply (store_ok _ _ _ f)|by apply (post_hold (SwapsOut k))|].
    intros _. eexists. simpl. rewrite lookup_alter_eq, Hf. split; [done|]. simpl. set_solver.
Qed.

(** The fiber of a callback is kept as [cb_fiber] when it ended. *)
Definition reusable (a : Z) (w : W) : Prop :=
  exists f, heap w !! a = Some f /\ m_state f = INIT /\ m_ctx f = at_entry MainFunc /\ m_stack f <> 0.

Lemma after_cb_post tid l a w : left_as l a w -> exists tail w' cbf,
  after_cb tid a w = Ret cbf w' /\ post l a tail w w' /\
  (cbf = None \/ cbf = Some a /\ tail = [] /\ reusable a w').
Proof.
  intros Hl. pose proof Hl as (f & Hf & Hs & _ & Hst). unfold after_cb.
  erewrite bind_Ret by (by apply load_ok). rewrite Hs.
  assert (over (m_state f) = true -> exists w', reset a None w = Ret tt w' /\ post l a [] w w' /\ reusable a w')
    as Hreset.
  { intros Ho. rewrite (reset_fiber_ok _ _ _ f), Ho by done. eexists. split; [done|].
    pose proof (heap_reset_world a None w f Hf) as Hh. split.
    - constructor; [done|..|done|apply ext_id|left; split; [done|rewrite Hs in Ho; by destruct l]].
      + intros b Hb. simpl. by rewrite !lookup_alter_ne.
      + by eexists.
    - eexists. split; [exact Hh|done]. }
  destruct l as [| |k|k|k]; cbn [state_after at_user state_is].
  - destruct Hreset as (w' & E & Hp & Hr); [by rewrite Hs|]. exists [], w', (Some a).
    split_and!; [|done|by right]. unfold state_is. simpl. by erewrite bind_Ret by exact E.
  - destruct Hreset as (w' & E & Hp & Hr); [by rewrite Hs|]. exists [], w', (Some a).
    split_and!; [|done|by right]. unfold state_is. simpl. by erewrite bind_Ret by exact E.
  - exists [FT_of_fiber (Some a) (-1)]. do 2 eexists. split_and!; [|by apply post_schedule|by left].
    unfold state_is. simpl. by erewrite bind_Ret by (by apply schedule_ok).
  - exists []. do 2 eexists. split_and!; [|by apply (post_hold (YieldsHold k))|by left].
    unfold state_is. simpl. by erewrite bind_Ret by (by apply (store_ok _ _ _ f)).
  - exists []. do 2 eexists. split_and!; [|by apply (post_hold (SwapsOut k))|by left].
    unfold state_is. simpl. by erewrite bind_Ret by (by apply (store_ok _ _ _ f)).
Qed.

Definition counted_out (w : W) : W := set_ext (add_active (-1) (ext w)) w.

Lemma post_weight l a tail w w' : post l a tail w w' ->
  (sum_list (map (weight w') tail) <= cost l)%nat.
Proof.
  intros Hp. destruct (post_tail _ _ _ _ _ Hp) as [[-> _]|(k & -> & -> & f & Hf & _ & _ & _ & Hk)]; [simpl; lia|].
  simpl. unfold weight, cont_of. simpl. rewrite Hf. simpl. rewrite Hk. lia.
Qed.

Lemma post_ready l a tail w w' : post l a tail w w' -> omap (cont_of w') tail = ready l.
Proof.
  intros Hp. destruct (post_tail _ _ _ _ _ Hp) as [[-> ->]|(k & -> & -> & f & Hf & _ & _ & _ & Hk)]; [done|].
  simpl. unfold cont_of. simpl. rewrite Hf. simpl. by rewrite Hk.
Qed.

(** A switch to [a] from a world [v] in which the head of the queue has been taken. *)
Lemma switch_round tid main a k (f : Fb) (w v : W) rest : m_activeThreadCount (ext w) = 0 ->
  has_main tid main v -> ext v = add_active 1 (set_fibers rest (ext w)) ->
  (forall b fb, b <> a -> heap w !! b = Some fb -> heap v !! b = Some fb) ->
  (forall b, is_Some (heap v !! b) -> b < next_addr v) -> a <> main ->
  heap v !! a = Some f -> consistent a f -> main_of f = MainFunc ->
  m_state f ∈ [INIT; HOLD; READY] -> m_stack f <> 0 -> resumes entry f = Some (user_at k) ->
  exists l cs w2, swap_in uentry useg tid a v = Ret tt w2 /\ left_as l a (counted_out w2) /\
    (cost l + sum_cb cs <= rank k)%nat /\
    forall tail w4, post l a tail (counted_out w2) w4 ->
      round tid main a rest cs tail w w4 /\ turn tid k l cs tail w w4.
Proof.
  intros Hact Hm Hext Hheap Hfresh Hne Hf Hc Hg Hst Hsk Hk.
  destruct (swap_in_user tid a main v f k) as (l & cs & y & w2 & E & Hback & Hext2 & Hnext & Hdom & Hcost & Hran & Htr);
    try done.
  { rewrite !elem_of_cons, elem_of_nil in Hst. naive_solver congruence. }
  destruct Hback as ((f' & Hf' & Hs' & Hc' & Hcons & _ & _ & Hsk') & Hoth & Hmain & _).
  exists l, cs, w2. split; [done|]. split; [exists f'; split_and!; try done; by rewrite Hsk'|]. split; [done|].
  intros tail w4 Hp. pose proof (post_ext _ _ _ _ _ Hp) as He. unfold trace_of in Htr.
  rewrite Hext in Hext2, Htr. split.
  2: { constructor; [done| |by eapply post_ready].
       unfold trace_of. rewrite He. simpl. by rewrite Hext2. }
  constructor.
  - destruct Hmain as (Hm1 & fm & Hfm & Hex). split.
    + unfold locals_of. by rewrite (post_locals _ _ _ _ _ Hp).
    + exists fm. by rewrite (post_heap _ _ _ _ _ Hp).
  - intros b fb Hb Hbm Hw. rewrite (post_heap _ _ _ _ _ Hp) by done. apply Hoth; auto.
  - intros b Hb. rewrite (post_next _ _ _ _ _ Hp). simpl. rewrite Hnext. apply Hfresh, Hdom.
    destruct (decide (b = a)) as [->|Hba]; [by exists f'|]. by rewrite (post_heap _ _ _ _ _ Hp) in Hb.
  - rewrite He. simpl. by rewrite Hext2.
  - rewrite He. simpl. rewrite Hext2. simpl. by rewrite Hact.
  - rewrite He. simpl. rewrite Hext2. simpl. by rewrite app_assoc.
  - destruct (post_tail _ _ _ _ _ Hp) as [[? _]|(k' & _ & ? & ?)]; [by left|right; eauto].
Qed.

Lemma in_head_stack a (f : Fb) : consistent a f -> m_state f ∈ [INIT; HOLD; READY] -> m_stack f <> 0.
Proof.
  unfold consistent. rewrite !elem_of_cons, elem_of_nil. intros Hc [E|[E|[E|[]]]]; rewrite E in Hc; naive_solver.
Qed.

(** Four steps run a queued fiber. *)
Lemma fiber_round Q tid main i cbf w ft a rest : inv Q tid main i cbf w ->
  m_fibers (ext w) = ft :: rest -> ft_fiber ft = Some a ->
  exists cs tail w', (forall n, run_loop (4 + n) tid i (At_lock cbf) w = run_loop n tid i (At_lock cbf) w') /\
    round tid main a rest cs tail w w' /\ (exists k l, cont_of w ft = Some k /\ turn tid k l cs tail w w') /\
    is_Some (heap w' !! a) /\ (tail = [] -> settled w' a) /\
    (S (sum_cb cs + sum_list (map (weight w') tail)) <= weight w ft)%nat.
Proof.
  intros Hinv Eq Ea. pose proof (inv_queue _ _ _ _ _ _ Hinv) as Hq. rewrite Eq in Hq.
  apply Forall_cons_1 in Hq as [Hft _]. pose proof (take_head _ _ _ _ _ _ Eq Hft) as Et.
  destruct Hft as [_ Hft]. rewrite Ea in Hft. destruct (ft_cb ft) eqn:Ecb; [done|].
  destruct Hft as (Hm & Hi & f & k & Hf & Hc & Hg & Hst & Hk).
  destruct (switch_round tid main a k f w (taken w rest) rest) as (l & cs & w2 & E & Hl & Hcost & Hr);
    try done; [apply (inv_active _ _ _ _ _ _ Hinv)|apply (inv_main _ _ _ _ _ _ Hinv)
              |apply (inv_fresh _ _ _ _ _ _ Hinv)|by eapply in_head_stack|].
  destruct (after_fiber_post tid l a _ Hl) as (tail & w4 & E4 & Hp & Hset).
  assert (cont_of w ft = Some k) as Hcont by (unfold cont_of; rewrite Ea, Hf; simpl; by rewrite Hk).
  exists cs, tail, w4. split; [|split; [by apply Hr|split; [|split; [by eapply post_here|split; [done|]]]]].
  2: { exists k, l. split; [done|]. by apply Hr. }
  - intros n. change (4 + n)%nat with (S (S (S (S n)))).
    rewrite (run_loop_step _ _ _ _ (Got ft false true cbf) w (taken w rest)); [|done|].
    2: { simpl. by erewrite bind_Ret by exact Et. }
    rewrite (run_loop_step _ _ _ _ (Fiber_back a cbf) _ w2); [|done|].
    2: { simpl. unfold dispatch. erewrite bind_Ret by reflexivity. rewrite Ea.
         erewrite bind_Ret.
         2: { erewrite bind_Ret by (by apply (load_ok _ _ f)). reflexivity. }
         assert (negb (state_is (m_state f) EXCEP) || negb (state_is (m_state f) TERM) = true) as ->
           by (by destruct (m_state f)).
         by erewrite bind_Ret by exact E. }
    rewrite (run_loop_step _ _ _ _ (Fiber_counted a cbf) _ (counted_out w2)); [|done|done].
    rewrite (run_loop_step _ _ _ _ (At_lock cbf) _ w4); [done|done|].
    simpl. by erewrite bind_Ret by exact E4.
  - pose proof (post_weight _ _ _ _ _ Hp). unfold weight at 2. rewrite Hcont. lia.
Qed.

Notation prepare_cb := (prepare_cb g_fiber_stack_size malloc).

(** The fiber a callback gets: nobody else's, about to start. *)
Record prepared (Q : list Z) (tid main i a : Z) (c : UCB) (rest : list Ft) (w v : W) : Prop := {
  prep_main : has_main tid main v;
  prep_ext : ext v = add_active 1 (set_fibers rest (ext w));
  prep_heap : forall b fb, b <> a -> heap w !! b = Some fb -> heap v !! b = Some fb;
  prep_fresh : forall b, is_Some (heap v !! b) -> b < next_addr v;
  prep_new : a <> main /\ a <> i /\ a ∉ Q /\ a ∉ fibers_of (m_fibers (ext w));
  prep_fiber : exists f, heap v !! a = Some f /\ consistent a f /\ main_of f = MainFunc /\
    m_state f ∈ [INIT; HOLD; READY] /\ m_stack f <> 0 /\ resumes entry f = Some (user_at (uentry c))
}.

Lemma prepare_reused Q tid main i w c rest a : inv Q tid main i (Some a) w ->
  exists v, prepare_cb (user_cb c) (Some a) (taken w rest) = Ret a v /\ prepared Q tid main i a c rest w v.
Proof.
  intros Hinv. destruct (inv_spare _ _ _ _ _ _ Hinv) as [(Hm & Hi & Hnq & f & Hf & Hs & Hc & Hst) HQ].
  exists (reset_world a (Some (user_cb c)) (taken w rest)). split.
  - unfold Scheduler.prepare_cb. erewrite bind_Ret; [done|].
    rewrite (reset_fiber_ok _ _ _ f) by done. by rewrite Hs.
  - pose proof (heap_reset_world a (Some (user_cb c)) (taken w rest) f Hf) as Hh. constructor.
    + apply has_main_reset; [apply (inv_main _ _ _ _ _ _ Hinv)|done].
    + done.
    + intros b fb Hb Hw. simpl. by rewrite !lookup_alter_ne.
    + intros b Hb. apply (inv_fresh _ _ _ _ _ _ Hinv). simpl in Hb. by rewrite !lookup_alter_is_Some in Hb.
    + done.
    + eexists. split; [exact Hh|]. unfold consistent. simpl. split_and!; try done; [eauto|set_solver].
Qed.

Lemma prepare_new Q tid main i w c rest : inv Q tid main i None w ->
  exists v, prepare_cb (user_cb c) None (taken w rest) = Ret (next_addr w) v /\
    prepared Q tid main i (next_addr w) c rest w v.
Proof.
  intros Hinv. pose proof (inv_fresh _ _ _ _ _ _ Hinv) as Hfresh.
  assert (forall b, is_Some (heap w !! b) -> b <> next_addr w) as Hnew by (intros b Hb; apply Hfresh in Hb; lia).
  eexists. split; [reflexivity|]. constructor.
  - destruct (inv_main _ _ _ _ _ _ Hinv) as (Hm & fm & Hfm & Hex). split; [exact Hm|].
    exists fm. simpl. rewrite lookup_insert_ne; [done|]. apply not_eq_sym, Hnew. by exists fm.
  - done.
  - intros b fb Hb Hw. simpl. by rewrite lookup_insert_ne.
  - intros b Hb. simpl in *. apply lookup_insert_is_Some in Hb as [<-|[_ Hb]]; [lia|].
    apply Hfresh in Hb. lia.
  - destruct (inv_main _ _ _ _ _ _ Hinv) as (_ & fm & Hfm & _).
    destruct (inv_idle _ _ _ _ _ _ Hinv) as (_ & fi & Hfi & _). split_and!.
    + apply not_eq_sym, Hnew. by exists fm.
    + apply not_eq_sym, Hnew. by exists fi.
    + intros Hin. destruct (inv_followed _ _ _ _ _ _ Hinv _ Hin) as (_ & Hb & _). by apply (Hnew _ Hb).
    + intros Hin. apply list_elem_of_omap in Hin as (t & Ht & Et).
      pose proof (inv_queue _ _ _ _ _ _ Hinv) as Hq. rewrite list.Forall_forall in Hq.
      destruct (Hq t Ht) as [_ Hrt]. rewrite Et in Hrt. destruct (ft_cb t); [done|].
      destruct Hrt as (_ & _ & f & k & Hf & _). by apply (Hnew (next_addr w)); [exists f|].
  - eexists. simpl. rewrite lookup_insert_eq. split; [done|]. unfold consistent, main_of, resumes. simpl.
    pose proof (malloc_ok (taken w rest)). split_and!; try done; [eauto|set_solver].
Qed.

(** Four steps run a queued callback. *)
Lemma cb_round Q tid main i cbf w ft c rest : inv Q tid main i cbf w ->
  m_fibers (ext w) = ft :: rest -> ft_fiber ft = None -> ft_cb ft = Some (user_cb c) ->
  exists a cs tail cbf' w', (forall n, run_loop (4 + n) tid i (At_lock cbf) w = run_loop n tid i (At_lock cbf') w') /\
    round tid main a rest cs tail w w' /\ (exists l, turn tid (uentry c) l cs tail w w') /\
    (a <> main /\ a <> i /\ a ∉ Q /\ a ∉ fibers_of rest) /\
    (cbf' = None \/ cbf' = Some a /\ tail = [] /\ reusable a w') /\
    (S (sum_cb cs + sum_list (map (weight w') tail)) <= weight w ft)%nat.
Proof.
  intros Hinv Eq Ea Ec. pose proof (inv_queue _ _ _ _ _ _ Hinv) as Hq. rewrite Eq in Hq.
  apply Forall_cons_1 in Hq as [Hft _]. pose proof (take_head _ _ _ _ _ _ Eq Hft) as Et.
  assert (exists a v, prepare_cb (user_cb c) cbf (taken w rest) = Ret a v /\ prepared Q tid main i a c rest w v)
    as (a & v & Ep & [Pm Pe Ph Pf Pn Pfib]).
  { destruct cbf; [by eexists; apply prepare_reused|by eexists; apply prepare_new]. }
  destruct Pfib as (f & Hf & Hc & Hg & Hst & Hsk & Hk). destruct Pn as (Hm & Hi & HQ & Hnq).
  destruct (switch_round tid main a (uentry c) f w v rest) as (l & cs & w2 & E & Hl & Hcost & Hr);
    try done; [apply (inv_active _ _ _ _ _ _ Hinv)|].
  destruct (after_cb_post tid l a _ Hl) as (tail & w4 & cbf' & E4 & Hp & Hcbf).
  exists a, cs, tail, cbf', w4. split; [|split; [by apply Hr|split; [exists l; by apply Hr|split; [|split; [done|]]]]].
  - intros n. change (4 + n)%nat with (S (S (S (S n)))).
    rewrite (run_loop_step _ _ _ _ (Got ft false true cbf) w (taken w rest)); [|done|].
    2: { simpl. by erewrite bind_Ret by exact Et. }
    rewrite (run_loop_step _ _ _ _ (Cb_back a) _ w2); [|done|].
    2: { simpl. unfold dispatch. erewrite bind_Ret by reflexivity. rewrite Ea, Ec.
         erewrite bind_Ret by reflexivity. cbv beta iota. erewrite bind_Ret by exact Ep. by erewrite bind_Ret by exact E. }
    rewrite (run_loop_step _ _ _ _ (Cb_counted a) _ (counted_out w2)); [|done|done].
    rewrite (run_loop_step _ _ _ _ (At_lock cbf') _ w4); [done|done|].
    simpl. by erewrite bind_Ret by exact E4.
  - split_and!; try done. rewrite Eq in Hnq. intros Hin. apply Hnq.
    change (ft :: rest) with ([ft] ++ rest). rewrite fibers_of_app. set_solver.
  - pose proof (post_weight _ _ _ _ _ Hp). unfold weight at 2, cont_of. rewrite Ea, Ec. lia.
Qed.

Lemma round_total Q tid main i cbf a ft rest cs tail w w' : inv Q tid main i cbf w ->
  m_fibers (ext w) = ft :: rest -> round tid main a rest cs tail w w' -> a ∉ fibers_of rest ->
  (S (sum_cb cs + sum_list (map (weight w') tail)) <= weight w ft)%nat -> (total w' < total w)%nat.
Proof.
  intros Hinv Eq Hr Ha Hw. pose proof (inv_queue _ _ _ _ _ _ Hinv) as Hq. rewrite Eq in Hq.
  apply Forall_cons_1 in Hq as [_ Hrest]. unfold total.
  rewrite (round_queue _ _ _ _ _ _ _ _ Hr), Eq, !map_app, (weight_other _ _ _ _ _ _ _ _ _ Hr Ha Hrest).
  assert (sum_list (map (weight w') (map task_of cs)) = sum_cb cs) as Hcs by (unfold sum_cb; by rewrite map_map).
  rewrite !sum_list_with_app. simpl. lia.
Qed.

(** The switch to the idle fiber, with nothing left to do. *)
Lemma swap_idle Q tid main i cbf w v : inv Q tid main i cbf w -> m_fibers (ext w) = [] ->
  v = set_ext (add_idle 1 (ext w)) w ->
  exists w', swap_in uentry useg tid i v = Ret tt w' /\ ext w' = ext v /\ has_main tid main w' /\
    (exists f, heap w' !! i = Some f /\ m_state f = TERM) /\
    (forall b fb, b <> i -> b <> main -> heap w !! b = Some fb -> heap w' !! b = Some fb).
Proof.
  intros Hinv Eq ->. destruct (inv_idle _ _ _ _ _ _ Hinv) as (Hne & f & Hf & Hc & Hg & Hst & Hk).
  pose proof (inv_main _ _ _ _ _ _ Hinv) as Hm. destruct (inv_flags _ _ _ _ _ _ Hinv) as [Hf1 Hf2].
  set (v := set_ext (add_idle 1 (ext w)) w). assert (has_main tid main v) as Hm' by exact Hm.
  assert (m_state f <> EXEC) as Hex.
  { rewrite !elem_of_cons, elem_of_nil in Hst. naive_solver congruence. }
  pose proof (swapIn_runs entry seg tid i main v f in_idle Hm' Hne Hf Hc Hg Hex Hk) as E.
  assert (segment seg tid in_idle (entered tid i main v) = Ret Returns (entered tid i main v)) as Es.
  { unfold segment, Scheduler.seg. cbn. by rewrite Hf1, Hf2, Eq, (inv_active _ _ _ _ _ _ Hinv). }
  rewrite Es in E.
  destruct (left_came_back tid i main Returns f v (entered tid i main v)) as (Hh & Ho & Hm2 & _); try done;
    [by eapply in_head_stack|rewrite locals_entered; apply Hm|].
  exists (left_ tid i main MainFunc Returns (entered tid i main v)). split_and!; [|done|exact Hm2| |].
  - unfold swap_in, GetMainFiber. erewrite bind_Ret by reflexivity. erewrite bind_Ret by exact E.
    destruct Hm' as [Hm' _]. rewrite Hm'. by rewrite bool_decide_eq_true_2.
  - destruct Hh as (f' & Hf' & Hs' & _). by exists f'.
  - intros b fb ? ? ?. by apply Ho.
Qed.

Lemma idle_end Q tid main i cbf w n : inv Q tid main i cbf w -> m_fibers (ext w) = [] ->
  exists w', run_loop (7 + n) tid i (At_lock cbf) w = Ret tt w' /\ m_fibers (ext w') = [] /\
    trace_of w' = trace_of w /\ m_activeThreadCount (ext w') = 0 /\ (exists f, heap w' !! i = Some f /\ m_state f = TERM) /\
    forall a, a ∈ Q -> settled w' a.
Proof.
  intros Hinv Eq. destruct (inv_idle _ _ _ _ _ _ Hinv) as (Hne & f & Hf & Hc & Hg & Hst & Hk).
  destruct (swap_idle Q tid main i cbf w _ Hinv Eq eq_refl) as (w2 & E & Hext & Hm & (f2 & Hf2 & Hs2) & Ho).
  set (w3 := set_ext (add_idle (-1) (ext w2)) w2).
  assert (m_fibers (ext w3) = []) as Eq3 by (simpl; by rewrite Hext).
  exists w3. split.
  - change (7 + n)%nat with (S (S (S (S (S (S (S n))))))).
    rewrite (run_loop_step _ _ _ _ (Got FT_empty false false cbf) _ w); [|done|].
    2: { simpl. unfold take_task, bind, gets. by rewrite Eq. }
    rewrite (run_loop_step _ _ _ _ (Idling cbf) _ (set_ext (add_idle 1 (ext w)) w)); [|done|].
    2: { simpl. unfold dispatch. erewrite bind_Ret by reflexivity. erewrite bind_Ret by reflexivity. cbn [ft_cb FT_empty].
         erewrite bind_Ret by (by apply (load_ok _ _ f)).
         assert (state_is (m_state f) TERM = false) as ->; [|done].
         rewrite !elem_of_cons, elem_of_nil in Hst. by destruct Hst as [->|[->|[->|[]]]]. }
    rewrite (run_loop_step _ _ _ _ (Idle_back cbf) _ w2); [|done|simpl; by erewrite bind_Ret by exact E].
    rewrite (run_loop_step _ _ _ _ (At_lock cbf) _ w3); [|done|].
    2: { simpl. erewrite bind_Ret by reflexivity. unfold after_idle.
         erewrite bind_Ret; [done|]. erewrite bind_Ret by (by apply (load_ok _ _ f2)). by rewrite Hs2. }
    rewrite (run_loop_step _ _ _ _ (Got FT_empty false false cbf) _ w3); [|done|].
    2: { simpl. unfold take_task, bind, gets. by rewrite Eq3. }
    rewrite (run_loop_step _ _ _ _ Done _ w3); [done|done|].
    simpl. unfold dispatch. erewrite bind_Ret by reflexivity. erewrite bind_Ret by reflexivity. cbn [ft_cb FT_empty].
    erewrite bind_Ret by (by apply (load_ok _ _ f2)). by rewrite Hs2.
  - split_and!; [done|unfold trace_of; simpl; by rewrite Hext| |by exists f2|].
    + simpl. rewrite Hext. apply (inv_active _ _ _ _ _ _ Hinv).
    + intros a Ha. destruct (inv_followed _ _ _ _ _ _ Hinv a Ha) as (Hm' & _ & [Hin|(fa & Hfa & Hsa)]).
      { rewrite Eq in Hin. by apply elem_of_nil in Hin. }
      destruct (decide (a = i)) as [->|Hai]; [exists f2; split; [done|rewrite Hs2; set_solver]|].
      exists fa. split; [by apply Ho|done].
Qed.

(** The spare fiber is not touched by a round of another fiber. *)
Lemma spare_other tid main i a b rest cs tail w w' : round tid main a rest cs tail w w' ->
  b <> a -> b ∉ fibers_of rest -> spare tid main i w b -> spare tid main i w' b.
Proof.
  intros Hr Hba Hb (Hbm & Hbi & _ & f & Hf & Hs). split_and!; try done.
  - rewrite (round_queue _ _ _ _ _ _ _ _ Hr), !fibers_of_app, fibers_of_tasks, !elem_of_app.
    intros [Hin|[Hin|Hin]]; [done|by apply elem_of_nil in Hin|].
    destruct (round_tail _ _ _ _ _ _ _ _ Hr) as [->|[-> _]]; [by apply elem_of_nil in Hin|].
    by apply list_elem_of_singleton in Hin.
  - exists f. split; [by eapply round_heap|done].
Qed.

(** A round keeps the invariant and gets cheaper. *)
Lemma one_round Q tid main i cbf w ft rest : inv Q tid main i cbf w -> m_fibers (ext w) = ft :: rest ->
  exists cbf' w', (forall n, run_loop (4 + n) tid i (At_lock cbf) w = run_loop n tid i (At_lock cbf') w') /\
    inv Q tid main i cbf' w' /\ (total w' < total w)%nat /\
    exists k q l cs, conts w = k :: q /\ ran tid k l cs /\ trace_of w' = trace_of w ++ [k] /\
      conts w' = q ++ map uentry cs ++ ready l.
Proof.
  intros Hinv Eq. pose proof (inv_queue _ _ _ _ _ _ Hinv) as Hq. rewrite Eq in Hq.
  apply Forall_cons_1 in Hq as [[_ Hft] Hrest]. pose proof (inv_nodup _ _ _ _ _ _ Hinv) as Hnd. rewrite Eq in Hnd.
  destruct (ft_fiber ft) as [a|] eqn:Ea.
  - assert (a ∉ fibers_of rest) as Ha.
    { unfold fibers_of in Hnd. simpl in Hnd. rewrite Ea in Hnd. by apply list.NoDup_cons in Hnd as [? _]. }
    destruct (ft_cb ft); [done|]. destruct Hft as (Hm & Hi & _).
    destruct (fiber_round _ _ _ _ _ _ _ _ _ Hinv Eq Ea) as (cs & tail & w' & Hrun & Hr & (k & l & Hk & Ht) & Hh & Hset & Hw).
    exists cbf, w'. split; [done|]. split; [|split; [by eapply round_total|]].
    2: { destruct (turn_conts _ _ _ _ _ _ _ _ _ _ _ _ Hr Ht Ha Hrest Eq Hk) as (q & ? & ?).
         destruct Ht. by exists k, q, l, cs. }
    eapply inv_round; try done; [by right| |].
    + intros _. split; [done|]. destruct tail; [right; by apply Hset|by left].
    + destruct cbf as [b|]; [|done]. destruct (inv_spare _ _ _ _ _ _ Hinv) as [Hsp HbQ].
      pose proof Hsp as (_ & _ & Hb & _). rewrite Eq in Hb. unfold fibers_of in Hb. simpl in Hb.
      rewrite Ea in Hb. apply not_elem_of_cons in Hb as [Hba Hb]. split; [|done]. by eapply spare_other.
  - destruct (ft_cb ft) as [[c| |]|] eqn:Ec; try done.
    destruct (cb_round _ _ _ _ _ _ _ _ _ Hinv Eq Ea Ec)
      as (a & cs & tail & cbf' & w' & Hrun & Hr & (l & Ht) & (Hm & Hi & HQ & Ha) & Hcbf & Hw).
    exists cbf', w'. split; [done|]. split; [|split; [by eapply round_total|]].
    2: { assert (cont_of w ft = Some (uentry c)) as Hk by (unfold cont_of; by rewrite Ea, Ec).
         destruct (turn_conts _ _ _ _ _ _ _ _ _ _ _ _ Hr Ht Ha Hrest Eq Hk) as (q & ? & ?).
         destruct Ht. by exists (uentry c), q, l, cs. }
    eapply inv_round; try done; [by left|].
    destruct Hcbf as [->|(-> & -> & Hre)]; [done|]. split; [|done]. split_and!; try done.
    by rewrite (round_queue _ _ _ _ _ _ _ _ Hr), app_nil_r, fibers_of_app, fibers_of_tasks, app_nil_r.
Qed.

Lemma drain m : forall Q tid main i cbf w n, inv Q tid main i cbf w -> (total w <= m)%nat ->
  exists w' log, run_loop (4 * m + 7 + n) tid i (At_lock cbf) w = Ret tt w' /\ m_fibers (ext w') = [] /\
    plays tid (conts w) log /\ trace_of w' = trace_of w ++ log /\ m_activeThreadCount (ext w') = 0 /\ (exists f, heap w' !! i = Some f /\ m_state f = TERM) /\
    forall a, a ∈ Q -> settled w' a.
Proof.
  induction m as [m IH] using lt_wf_ind. intros Q tid main i cbf w n Hinv Htot.
  destruct (m_fibers (ext w)) as [|ft rest] eqn:Eq.
  { replace (4 * m + 7 + n)%nat with (7 + (4 * m + n))%nat by lia.
    destruct (idle_end _ _ _ _ _ _ (4 * m + n) Hinv Eq) as (w' & E & Eq' & Et & Hend).
    exists w', []. split_and!; try apply Hend; [done|done| |by rewrite app_nil_r].
    unfold conts. rewrite Eq. constructor. }
  destruct (one_round _ _ _ _ _ _ _ _ Hinv Eq)
    as (cbf' & w' & Hrun & Hinv' & Hlt & k & q & l & cs & Eq1 & Hk & Et & Eq2).
  replace (4 * m + 7 + n)%nat with (4 + (4 * (m - 1) + 7 + n))%nat by lia. rewrite Hrun.
  destruct (IH (m - 1)%nat ltac:(lia) _ _ _ _ _ _ n Hinv' ltac:(lia)) as (w2 & log & E & Eq' & Hp & Et2 & Hend).
  exists w2, (k :: log). split_and!; try apply Hend; [done|done| |by rewrite Et2, Et, <- app_assoc].
  rewrite Eq1. econstructor; [done|]. by rewrite <- Eq2.
Qed.

Notation run := (run uentry useg g_fiber_stack_size malloc).

(** The world after [run] has set itself up, with its idle fiber at [next_addr w]. *)
Lemma run_begin_inv this tid main (w : W) : has_main tid main w -> m_rootThread (ext w) = tid ->
  (forall a, is_Some (heap w !! a) -> a < next_addr w) ->
  m_autoStop (ext w) = true -> m_stopping (ext w) = true -> m_activeThreadCount (ext w) = 0 ->
  Forall (runnable tid main (next_addr w) w) (m_fibers (ext w)) -> NoDup (fibers_of (m_fibers (ext w))) ->
  exists v, run_begin g_fiber_stack_size malloc this tid w = Ret (next_addr w) v /\
    inv (fibers_of (m_fibers (ext w))) tid main (next_addr w) None v /\ trace_of v = trace_of w /\
    conts v = conts w /\ total v = total w.
Proof.
  intros Hm Hroot Hfresh Ha Hs Hact Hq Hnd.
  assert (forall b, is_Some (heap w !! b) -> b <> next_addr w) as Hnew by (intros b Hb; apply Hfresh in Hb; lia).
  pose proof Hm as (Hmain & fm & Hfm & Hex).
  eexists. split.
  { unfold run_begin. erewrite bind_Ret by reflexivity. erewrite bind_Ret by reflexivity. simpl.
    rewrite Hroot, Z.eqb_refl. reflexivity. }
  assert (forall b fb, heap w !! b = Some fb -> forall f, <[next_addr w := f]> (heap w) !! b = Some fb) as Hkeep.
  { intros b fb Hb f. rewrite lookup_insert_ne; [done|]. apply not_eq_sym, Hnew. by exists fb. }
  match goal with |- inv _ _ _ _ _ ?v /\ _ =>
    assert (forall ft, ft ∈ m_fibers (ext w) -> cont_of v ft = cont_of w ft) as Hcont end.
  { intros ft Hin. rewrite list.Forall_forall in Hq. destruct (Hq ft Hin) as [_ Hft]. unfold cont_of.
    destruct (ft_fiber ft); [|done]. destruct (ft_cb ft); [done|].
    destruct Hft as (_ & _ & f & k & Hf & _). simpl. by rewrite (Hkeep _ _ Hf), Hf. }
  split; [constructor|split; [done|split]].
  - split; [|exists fm; split; [by apply Hkeep|done]].
    unfold locals_of. simpl. by rewrite lookup_insert_eq.
  - intros b Hb. simpl in *. apply lookup_insert_is_Some in Hb as [<-|[_ Hb]]; [lia|].
    apply Hfresh in Hb. lia.
  - split; [apply not_eq_sym, Hnew; by exists fm|]. eexists. simpl. rewrite lookup_insert_eq. split; [done|].
    unfold consistent, main_of, resumes. simpl. split_and!; try done; [|set_solver].
    eexists. split; [done|]. apply malloc_ok.
  - done.
  - done.
  - rewrite list.Forall_forall in *. intros ft Hin. destruct (Hq ft Hin) as [Ho Hft]. split; [done|].
    destruct (ft_fiber ft), (ft_cb ft); try done. destruct Hft as (? & ? & f & k & Hf & ?).
    split; [done|]. split; [done|]. exists f, k. split; [by apply Hkeep|done].
  - done.
  - done.
  - intros a Hin. pose proof Hin as Hin2. apply list_elem_of_omap in Hin2 as (t & Ht & Et).
    rewrite list.Forall_forall in Hq. destruct (Hq t Ht) as [_ Hrt]. rewrite Et in Hrt.
    destruct (ft_cb t); [done|]. destruct Hrt as (? & _ & f & k & Hf & _).
    split_and!; [done| |by left]. exists f. by apply Hkeep.
  - by apply omap_ext_in.
  - unfold total. f_equal. apply map_ext_in. intros ft Hin. apply list_elem_of_In in Hin.
    unfold weight. by rewrite Hcont.
Qed.

(** C9: after [stop] has set the flags, [run] on the scheduler's own thread runs the user
    code of every task of the queue, callbacks and fibers, first in first out, and ends.
    What is run, as the user code itself notes it, is [log]: it starts with the first task of
    the queue, each later segment is the then first one, the callbacks a segment schedules
    come after all that were waiting, followed by the rest of a fiber that gave up its turn
    with [YieldToReady], and nothing is left at the end. Then the queue is empty, no thread
    is active, and every fiber that was in the queue has ended, failed, or given up its turn
    with [YieldToHold]. The number of loop steps is bounded by four times what the tasks
    cost, plus seven. The user code terminates in the sense of [Terminates]: it may schedule
    callbacks and yield as long as its rank pays for it. Each fiber is in the queue once. *)
Theorem run_drains this tid main (w : W) n : has_main tid main w -> m_rootThread (ext w) = tid ->
  (forall a, is_Some (heap w !! a) -> a < next_addr w) ->
  m_autoStop (ext w) = true -> m_stopping (ext w) = true -> m_activeThreadCount (ext w) = 0 ->
  Forall (runnable tid main (next_addr w) w) (m_fibers (ext w)) -> NoDup (fibers_of (m_fibers (ext w))) ->
  exists w' log, run (4 * total w + 7 + n) this tid w = Ret tt w' /\
    plays tid (conts w) log /\ trace_of w' = trace_of w ++ log /\
    m_fibers (ext w') = [] /\ m_activeThreadCount (ext w') = 0 /\
    forall a, a ∈ fibers_of (m_fibers (ext w)) -> settled w' a.
Proof.
  intros. destruct (run_begin_inv this tid main w) as (v & E & Hinv & Et & Ec & Ht); try done.
  destruct (drain (total v) _ _ _ _ _ _ n Hinv (le_n _)) as (w' & log & Er & Hq & Hp & Etr & Hact & _ & Hs).
  exists w', log. rewrite <- Ec, <- Et. split_and!; try done.
  unfold Scheduler.run. erewrite bind_Ret by exact E. by rewrite <- Ht.
Qed.

(** In particular every task of the queue has run, in the order of the queue. *)
Lemma plays_sublist tid q log : plays tid q log -> sublist q log.
Proof.
  induction 1 as [|k q l cs log _ _ IH]; [constructor|]. constructor.
  etrans; [|exact IH]. by apply sublist_inserts_r.
Qed.
End Drain.

(** User code that counts down to zero, holding at each number, notes the numbers it was at,
    and schedules a callback for 0 when it is at 5. *)
Notation noting_W := (@World (@callback nat) (@cont nat) (@Sched nat (list nat))).
Definition noting (tid : Z) (k : nat) : M noting_W leaves := fun w =>
  Ret (match k with O => Returns | S k => YieldsReady k end)
    (spawn (if Nat.eqb k 5 then [0%nat] else []) (derived (ext w) ++ [k]) w).

Definition noting_malloc (w : noting_W) (size : Z) : Z := 4096.

#[export] Instance noting_ends :
  Terminates (fun n : nat => n) noting 1048576 noting_malloc (fun n => n + n)%nat (fun y => y).
Proof.
  split; [|done]. intros tid k w. do 3 eexists. split; [reflexivity|]. split; [|done].
  destruct (Nat.eqb_spec k 5) as [->|]; [vm_compute; lia|]. destruct k; cbn; lia.
Qed.

(** Thread 7 with its main fiber, a held fiber and two callbacks in the queue, stopped. *)
Definition demo_stopped : noting_W :=
  let main := mkFiber 0 0 no_context 0 None EXEC in
  let held := mkFiber 1 1048576 (in_yield MainFunc 1 (user_at 1%nat)) 4096 (Some (user_cb 4%nat)) HOLD in
  mkWorld {[ 0 := main; 1 := held ]} 2 1 2 {[ 7 := mkLocals (Some 0) (Some 0) (Some 0) (Some 99) ]}
    (mkSched [] [FT_of_cb (Some (user_cb 5%nat)) (-1); FT_of_fiber (Some 1) 7; FT_of_cb (Some (user_cb 2%nat)) 7]
       (Some 0) [7] 7 0 0 0 true true []).

Lemma run_drains_witness :
  exists w' log, run (V := base_Virtual) (fun n => n) noting 1048576 noting_malloc 175 99 7 demo_stopped = Ret tt w' /\
    m_fibers (ext w') = [] /\ derived (ext w') = log /\ plays (fun n => n) noting 7 [5; 1; 2]%nat log.
Proof.
  destruct (run_drains (fun n => n) noting 1048576 noting_malloc (fun n => n + n)%nat (fun y => y) 99 7 0 demo_stopped 92)
    as (w' & log & E & Hp & Ht & Hq & _).
  - split; [reflexivity|]. eexists. split; reflexivity.
  - reflexivity.
  - intros a [f Hf]. unfold demo_stopped in Hf. simpl in Hf.
    apply lookup_insert_Some in Hf as [[<- _]|[_ Hf]]; [reflexivity|].
    apply lookup_singleton_Some in Hf as [<- _]. reflexivity.
  - reflexivity.
  - reflexivity.
  - reflexivity.
  - constructor; [done|]. constructor.
    { split; [done|]. simpl. split; [done|]. split; [done|]. eexists _, 1%nat.
      split; [reflexivity|]. split_and!; try reflexivity; [|set_solver]. unfold consistent. simpl. by do 2 eexists. }
    constructor; [done|constructor].
  - apply NoDup_singleton.
  - exists w', log. split; [exact E|]. split; [exact Hq|]. split; [exact Ht|exact Hp].
Defined.

(** What they note: 5, 1, 2, then 4 after the callback that 5 scheduled, and so on. *)
Example noted_order :
  match run (V := base_Virtual) (fun n => n) noting 1048576 noting_malloc 175 99 7 demo_stopped with
  | Ret _ w => derived (ext w) = [5; 1; 2; 0; 4; 0; 1; 3; 0; 2; 1; 0]%nat
  | _ => False
  end.
Proof. vm_compute. reflexivity. Qed.
