(* ===== verification/IOManager.v ===== *)
(** * IOManager: [IOManager] of [sylar/iomanager.h] and [iomanager.cpp]

    The members [IOManager] adds to [Scheduler] and inherits from [TimerManager] are the
    field [derived] of the scheduler's state. [FdContext]s are objects on a heap of their
    own, because the kernel keeps pointers to them. The kernel ([epoll], the tickle pipe and the
    clock) is any type with the operations of the class [EventKernel]. One scheduler
    exists: a pointer to one is null or to it. *)

From S2P Require Import Prelude Fiber Scheduler.
From S2P Require Timer.

(** [IOManager::Event], and the bits of [epoll]. *)
(* SRC sylar/iomanager.h:14-18 IOManager::Event *)
Definition NONE : Z := 0.
Definition READ : Z := 1.
Definition WRITE : Z := 4.
Definition EPOLLIN : Z := 1.
Definition EPOLLOUT : Z := 4.
Definition EPOLLERR : Z := 8.
Definition EPOLLHUP : Z := 16.
Definition EPOLLET : Z := 2 ^ 31.

Inductive epoll_op := EPOLL_CTL_ADD | EPOLL_CTL_MOD | EPOLL_CTL_DEL.

(** An [epoll_event] that was returned: for the tickle pipe, or for a context. *)
Inductive epoll_data := tickle_fd | ctx_ptr (p : Z).
Record epoll_event := mkEvent { ev_events : Z; ev_data : epoll_data }.

(** What [epoll_wait] gives: [EINTR], another error, or events. *)
Inductive wait := Interrupted | WaitFailed | Ready (evs : list epoll_event).

Class EventKernel (K : Type) := {
  GetCurrentMS : K -> Z;
  epoll_create : K -> Z * K;
  pipe : K -> Z * K;
  fcntl_nonblock : K -> Z * K;
  epoll_add_tickle : K -> Z * K;
  epoll_ctl : K -> epoll_op -> Z -> Z -> Z -> Z * K;
  epoll_wait : K -> Z -> wait * K;
  write_tickle : K -> Z * K;
  read_tickle : K -> Z * K
}.

Section IO.
(** [F] are the callbacks of the user. *)
Context {F UCont K : Type} `{EventKernel K}.

Notation TCB := (@Timer.callback F).
Notation CB := (@callback TCB).
Notation Tm := (@Timer.TimerManager F).

(* SRC sylar/iomanager.h:22-26 IOManager::FdContext::EventContext *)
Record EventContext := mkEC {
  ec_scheduler : option Z;
  ec_fiber : option Z;
  ec_cb : option CB
}.
Definition no_event : EventContext := mkEC None None None.

(* SRC sylar/iomanager.h:32-36 IOManager::FdContext *)
Record FdContext := mkFdContext {
  fc_read : EventContext;
  fc_write : EventContext;
  fc_fd : Z;
  fc_events : Z
}.

(* SRC sylar/iomanager.h:63-69 IOManager *)
Record IOM := mkIOM {
  kern : K;
  timers : Tm;
  m_pendingEventCount : Z;
  contexts : gmap Z FdContext;
  next_context : Z;
  m_fdContexts : list (option Z)
}.

Notation W := (@World CB (@cont UCont) (@Sched TCB IOM)).
Notation MW := (M W).

Definition io (w : W) : IOM := derived (ext w).
Definition set_io (g : IOM -> IOM) : MW unit := upd (fun x => set_derived (g (derived x)) x).

Definition set_kern (k : K) (x : IOM) : IOM :=
  mkIOM k (timers x) (m_pendingEventCount x) (contexts x) (next_context x) (m_fdContexts x).
Definition set_timers (t : Tm) (x : IOM) : IOM :=
  mkIOM (kern x) t (m_pendingEventCount x) (contexts x) (next_context x) (m_fdContexts x).
Definition add_pending (d : Z) (x : IOM) : IOM :=
  mkIOM (kern x) (timers x) (u64 (m_pendingEventCount x + d)) (contexts x) (next_context x) (m_fdContexts x).
Definition set_contexts (c : gmap Z FdContext) (x : IOM) : IOM :=
  mkIOM (kern x) (timers x) (m_pendingEventCount x) c (next_context x) (m_fdContexts x).
Definition set_fdContexts (l : list (option Z)) (x : IOM) : IOM :=
  mkIOM (kern x) (timers x) (m_pendingEventCount x) (contexts x) (next_context x) l.

(** A call of the kernel. *)
Definition sys {A} (f : K -> A * K) : MW A := fun w =>
  let '(a, k) := f (kern (io w)) in
  Ret a (set_ext (set_derived (set_kern k (io w)) (ext w)) w).

(** A call of [TimerManager]. *)
Definition timer_op {A} (m : M Tm A) : MW A := fun w =>
  match m (timers (io w)) with
  | Ret a t => Ret a (set_ext (set_derived (set_timers t (io w)) (ext w)) w)
  | Exn e t => Exn e (set_ext (set_derived (set_timers t (io w)) (ext w)) w)
  | UB f => UB f
  end.

(** ** Virtual functions *)

(* SRC sylar/iomanager.cpp:249-255 IOManager::tickle *)
Definition io_tickle (tid : Z) : MW unit :=
  let! b := hasIdleThreads in
  if negb b then ret tt
  else let! rt := sys write_tickle in assert_ (rt =? 1).

(* SRC sylar/iomanager.cpp:369-371 IOManager::onTimerInsertAtFront *)
Definition onTimerInsertAtFront (tid : Z) : MW unit := io_tickle tid.

(** The result and the [timeout] it writes. *)
(* SRC sylar/iomanager.cpp:257-262 IOManager::stopping *)
Definition stopping_timeout : MW (bool * Z) :=
  let! x := gets io in
  let! timeout := timer_op (Timer.getNextTimer (GetCurrentMS (kern x))) in
  let! x := gets io in
  let! b := base_stopping in
  ret ((timeout =? 2 ^ 64 - 1) && (m_pendingEventCount x =? 0) && b, timeout).

(* SRC sylar/iomanager.cpp:264-267 IOManager::stopping *)
Definition io_stopping : MW bool := let! (b, _) := stopping_timeout in ret b.

(** What [schedule] needs of the class; it does not call [idle]. *)
Definition IO_sched : @Virtual TCB UCont IOM :=
  {| tickle := io_tickle; stopping := io_stopping; idle := fun _ => fail_with Indeterminate |}.
#[local] Existing Instance IO_sched.

(** A timer operation of a thread: [TimerManager] calls [onTimerInsertAtFront] last. *)
Definition with_front {A} (tid : Z) (m : M Tm A) : MW A :=
  let! x := gets io in
  let! a := timer_op m in
  let! x' := gets io in
  repeat_tickle tid (Timer.front_calls (timers x') - Timer.front_calls (timers x)) ;;
  ret a.

(** ** Contexts *)

Definition load_ctx (p : Z) : MW FdContext := fun w =>
  match contexts (io w) !! p with Some c => Ret c w | None => UB NullDeref end.
Definition store_ctx (p : Z) (g : FdContext -> FdContext) : MW unit := fun w =>
  match contexts (io w) !! p with
  | Some _ => set_io (fun x => set_contexts (alter g p (contexts x)) x) w
  | None => UB NullDeref
  end.

Definition set_events (e : Z) (c : FdContext) : FdContext :=
  mkFdContext (fc_read c) (fc_write c) (fc_fd c) e.
Definition set_context (event : Z) (e : EventContext) (c : FdContext) : FdContext :=
  if event =? READ then mkFdContext e (fc_write c) (fc_fd c) (fc_events c)
  else mkFdContext (fc_read c) e (fc_fd c) (fc_events c).

(* SRC sylar/iomanager.cpp:14-23 IOManager::FdContext::getContext *)
Definition getContext (event : Z) (c : FdContext) : MW EventContext :=
  if event =? READ then ret (fc_read c)
  else if event =? WRITE then ret (fc_write c)
  else fail_with AssertFailed.

(* SRC sylar/iomanager.cpp:25-29 IOManager::FdContext::resetContext *)
Definition resetContext (e : EventContext) : EventContext := mkEC None None None.

(** [tid] is the thread that calls. *)
(* SRC sylar/iomanager.cpp:31-42 IOManager::FdContext::triggerEvent *)
Definition triggerEvent (tid p event : Z) : MW unit :=
  let! c := load_ctx p in
  assert_ (negb (Z.land (fc_events c) event =? 0)) ;;
  store_ctx p (set_events (Z.ldiff (fc_events c) event)) ;;
  let! ctx := getContext event c in
  match ec_scheduler ctx with
  | None => fail_with NullDeref
  | Some _ =>
      match ec_cb ctx with
      | Some cb =>
          let '(ft, cb') := FT_of_cb_ptr (Some cb) (-1) in
          store_ctx p (set_context event (mkEC (ec_scheduler ctx) (ec_fiber ctx) cb')) ;;
          schedule tid ft ;;
          store_ctx p (set_context event (mkEC None (ec_fiber ctx) cb'))
      | None =>
          let '(ft, fiber') := FT_of_fiber_ptr (ec_fiber ctx) (-1) in
          store_ctx p (set_context event (mkEC (ec_scheduler ctx) fiber' None)) ;;
          schedule tid ft ;;
          store_ctx p (set_context event (mkEC None fiber' None))
      end
  end.

Fixpoint fill (i : nat) (l : list (option Z)) : MW (list (option Z)) :=
  match l with
  | [] => ret []
  | Some p :: l => let! r := fill (S i) l in ret (Some p :: r)
  | None :: l =>
      let! x := gets io in
      let p := next_context x in
      set_io (fun x => mkIOM (kern x) (timers x) (m_pendingEventCount x)
        (<[p := mkFdContext no_event no_event (Z.of_nat i) NONE]> (contexts x)) (p + 1) (m_fdContexts x)) ;;
      let! r := fill (S i) l in
      ret (Some p :: r)
  end.

(* SRC sylar/iomanager.cpp:79-88 IOManager::contextResize *)
Definition contextResize (size : Z) : MW unit :=
  let! x := gets io in
  let! l := fill 0 (resize (Z.to_nat size) None (m_fdContexts x)) in
  set_io (set_fdContexts l).

(** [m_fdContexts[fd]], dereferenced. *)
Definition context_at (fd : Z) : MW Z := fun w =>
  if fd <? 0 then UB OutOfBounds
  else match m_fdContexts (io w) !! Z.to_nat fd with
       | Some (Some p) => Ret p w
       | Some None => UB NullDeref
       | None => UB OutOfBounds
       end.

Definition too_small (fd : Z) (w : W) : bool := Z.of_nat (length (m_fdContexts (io w))) <=? fd.

(** ** Events *)

(** The context of a descriptor, under [m_mutex]: [addEvent] grows the table. *)
(* SRC sylar/iomanager.cpp:91-101 IOManager::addEvent *)
Definition find_or_grow (fd : Z) : MW Z :=
  let! small := gets (too_small fd) in
  if small then contextResize (fd * 3 / 2) ;; context_at fd else context_at fd.

(** The part under the context's lock; the result [-1] is an error of [epoll_ctl]. *)
(* SRC sylar/iomanager.cpp:103-139 IOManager::addEvent *)
Definition addEvent_locked (tid p fd event : Z) (cb : option CB) : MW Z :=
  let! c := load_ctx p in
  assert_ (Z.land (fc_events c) event =? 0) ;;
  let op := if fc_events c =? 0 then EPOLL_CTL_ADD else EPOLL_CTL_MOD in
  let! rt := sys (fun k => epoll_ctl k op fd (Z.lor (Z.lor EPOLLET (fc_events c)) event) p) in
  if negb (rt =? 0) then ret (-1)
  else
    set_io (add_pending 1) ;;
    store_ctx p (set_events (Z.lor (fc_events c) event)) ;;
    let! ctx := getContext event c in
    assert_ (bool_decide (ec_scheduler ctx = None) && bool_decide (ec_fiber ctx = None)
             && bool_decide (ec_cb ctx = None)) ;;
    let! l := gets (locals_of tid) in
    store_ctx p (set_context event (mkEC (t_scheduler l) (ec_fiber ctx) (ec_cb ctx))) ;;
    (match cb with
     | Some cb => store_ctx p (set_context event (mkEC (t_scheduler l) (ec_fiber ctx) (Some cb)))
     | None =>
         let! fiber := GetThis tid in
         store_ctx p (set_context event (mkEC (t_scheduler l) (Some fiber) None)) ;;
         let! f := load fiber in
         assert_ (state_is (m_state f) EXEC)
     end) ;;
    ret 0.

(* SRC sylar/iomanager.cpp:90-140 IOManager::addEvent *)
Definition addEvent (tid fd event : Z) (cb : option CB) : MW Z :=
  let! p := find_or_grow fd in
  addEvent_locked tid p fd event cb.

(** What [delEvent] and [cancelEvent] do before they part: the context with its new
    events, or [None] for the result [false]. *)
(* SRC sylar/iomanager.cpp:150-167 IOManager::delEvent *)
Definition unregister (p fd event : Z) : MW (option FdContext) :=
  let! c := load_ctx p in
  if Z.land (fc_events c) event =? 0 then ret None
  else
    let new_events := Z.ldiff (fc_events c) event in
    let op := if new_events =? 0 then EPOLL_CTL_DEL else EPOLL_CTL_MOD in
    let! rt := sys (fun k => epoll_ctl k op fd (Z.lor EPOLLET new_events) p) in
    if negb (rt =? 0) then ret None else ret (Some c).

(* SRC sylar/iomanager.cpp:142-174 IOManager::delEvent *)
Definition delEvent (fd event : Z) : MW bool :=
  let! small := gets (too_small fd) in
  if small then ret false
  else
    let! p := context_at fd in
    let! r := unregister p fd event in
    match r with
    | None => ret false
    | Some c =>
        set_io (add_pending (-1)) ;;
        store_ctx p (set_events (Z.ldiff (fc_events c) event)) ;;
        let! ctx := getContext event c in
        store_ctx p (set_context event (resetContext ctx)) ;;
        ret true
    end.

(* SRC sylar/iomanager.cpp:176-206 IOManager::cancelEvent *)
Definition cancelEvent (tid fd event : Z) : MW bool :=
  let! small := gets (too_small fd) in
  if small then ret false
  else
    let! p := context_at fd in
    let! r := unregister p fd event in
    match r with
    | None => ret false
    | Some _ => triggerEvent tid p event ;; set_io (add_pending (-1)) ;; ret true
    end.

(** One event of a context, if it has it. *)
(* SRC sylar/iomanager.cpp:234-237 IOManager::cancelAll *)
Definition trigger_if (tid p event : Z) (b : bool) : MW unit :=
  if b then triggerEvent tid p event ;; set_io (add_pending (-1)) else ret tt.

(* SRC sylar/iomanager.cpp:208-243 IOManager::cancelAll *)
Definition cancelAll (tid fd : Z) : MW bool :=
  let! small := gets (too_small fd) in
  if small then ret false
  else
    let! p := context_at fd in
    let! c := load_ctx p in
    if fc_events c =? 0 then ret false
    else
      let! rt := sys (fun k => epoll_ctl k EPOLL_CTL_DEL fd 0 p) in
      if negb (rt =? 0) then ret false
      else
        trigger_if tid p READ (negb (Z.land (fc_events c) READ =? 0)) ;;
        let! c := load_ctx p in
        trigger_if tid p WRITE (negb (Z.land (fc_events c) WRITE =? 0)) ;;
        ret true.

(** ** The idle fiber *)

(** [(int)next_timeout] after the clamp to [MAX_TIMEOUT]. *)
(* SRC sylar/iomanager.cpp:286-292 IOManager::idle *)
Definition wait_timeout (next_timeout : Z) : Z :=
  let t := if negb (next_timeout =? 2 ^ 64 - 1)
           then if 3000 <? s32 next_timeout then 3000 else next_timeout
           else 3000 in
  s32 t.

(** [epoll_wait], repeated while a signal interrupts it; [fuel] bounds the interruptions.
    The result is [rt] events; a failure is [rt < 0], which has none. *)
(* SRC sylar/iomanager.cpp:285-300 IOManager::idle *)
Fixpoint wait_events (fuel : nat) (next_timeout : Z) : MW (list epoll_event) :=
  match fuel with
  | O => fail_with OutOfFuel
  | S n =>
      let! r := sys (fun k => epoll_wait k (wait_timeout next_timeout)) in
      match r with
      | Interrupted => wait_events n (if negb (next_timeout =? 2 ^ 64 - 1)
                                      then if 3000 <? s32 next_timeout then 3000 else next_timeout
                                      else 3000)
      | WaitFailed => ret []
      | Ready evs => ret evs
      end
  end.

(** [while (read(m_tickleFds[0], &dummy, 1) == 1);] *)
Fixpoint drain_tickles (fuel : nat) : MW unit :=
  match fuel with
  | O => fail_with OutOfFuel
  | S n => let! rt := sys read_tickle in if rt =? 1 then drain_tickles n else ret tt
  end.

(** The events of the context that the returned bits stand for. *)
(* SRC sylar/iomanager.cpp:322-331 IOManager::idle *)
Definition real_events (bits : Z) : Z :=
  let bits := if negb (Z.land bits (Z.lor EPOLLERR EPOLLHUP) =? 0)
              then Z.lor bits (Z.lor EPOLLIN EPOLLOUT) else bits in
  Z.lor (if negb (Z.land bits EPOLLIN =? 0) then READ else NONE)
        (if negb (Z.land bits EPOLLOUT =? 0) then WRITE else NONE).

(* SRC sylar/iomanager.cpp:310-358 IOManager::idle *)
Definition process_event (fuel : nat) (tid : Z) (ev : epoll_event) : MW unit :=
  match ev_data ev with
  | tickle_fd => drain_tickles fuel
  | ctx_ptr p =>
      let! c := load_ctx p in
      let real := real_events (ev_events ev) in
      if Z.land (fc_events c) real =? 0 then ret tt
      else
        let left := Z.ldiff (fc_events c) real in
        let op := if left =? 0 then EPOLL_CTL_DEL else EPOLL_CTL_MOD in
        let! rt2 := sys (fun k => epoll_ctl k op (fc_fd c) (Z.lor EPOLLET left) p) in
        if negb (rt2 =? 0) then ret tt
        else
          trigger_if tid p READ (negb (Z.land real READ =? 0)) ;;
          trigger_if tid p WRITE (negb (Z.land real WRITE =? 0))
  end.

Fixpoint process_events (fuel : nat) (tid : Z) (evs : list epoll_event) : MW unit :=
  match evs with
  | [] => ret tt
  | ev :: evs => process_event fuel tid ev ;; process_events fuel tid evs
  end.

(** The expired timers' callbacks are scheduled; [na] is the address of the timer
    [listExpiredCb] compares with. *)
(* SRC sylar/iomanager.cpp:302-308 IOManager::idle *)
Definition schedule_expired (na tid : Z) : MW unit :=
  let! x := gets io in
  let! cbs := timer_op (Timer.listExpiredCb na (GetCurrentMS (kern x))) in
  match cbs with
  | [] => ret tt
  | _ => let! _ := schedule_range tid (map (fmap user_cb) cbs) in ret tt
  end.

(** One pass of the loop, which ends in a [swapOut] that leaves the state [EXEC]. *)
(* SRC sylar/iomanager.cpp:269-367 IOManager::idle *)
Definition io_idle (fuel : nat) (na tid : Z) : MW (@leaves (@cont UCont)) :=
  let! (stop_, next_timeout) := stopping_timeout in
  if stop_ then ret Returns
  else
    let! evs := wait_events fuel next_timeout in
    schedule_expired na tid ;;
    process_events fuel tid evs ;;
    ret (SwapsOut in_idle).

Definition IO_Virtual (fuel : nat) (na : Z) : @Virtual TCB UCont IOM :=
  {| tickle := io_tickle; stopping := io_stopping; idle := io_idle fuel na |}.

(** ** Construction and destruction *)

(* SRC sylar/iomanager.cpp:44-66 IOManager::IOManager *)
Definition new_IOManager (g_fiber_stack_size : Z) (malloc : W -> Z -> Z)
    (this tid threads : Z) (use_caller : bool) (tids : list Z) : MW unit :=
  new_Scheduler g_fiber_stack_size malloc this tid threads use_caller ;;
  let! epfd := sys epoll_create in
  assert_ (0 <? epfd) ;;
  let! rt := sys pipe in
  assert_ (rt =? 0) ;;
  let! rt := sys fcntl_nonblock in
  assert_ (rt =? 0) ;;
  let! rt := sys epoll_add_tickle in
  assert_ (rt =? 0) ;;
  contextResize 32 ;;
  start tids.

(** The loop of the destructor, after [stop] and the [close]s. *)
(* SRC sylar/iomanager.cpp:74-76 IOManager::~IOManager *)
Definition delete_contexts : MW unit :=
  set_io (fun x => mkIOM (kern x) (timers x) (m_pendingEventCount x)
    (fold_right (fun p c => match p with Some p => delete p c | None => c end)
       (contexts x) (m_fdContexts x))
    (next_context x) (m_fdContexts x)).
End IO.
