(* ===== verification/IOManagerSpec.v ===== *)
(** * IOManagerSpec: the event table

    [IOManager] promises a table of events: a descriptor and a kind of event stand for the
    task to schedule once when the event comes. The theorems show that the operations on
    contexts, pointers, counters and [epoll] implement the operations of that table. *)

From S2P Require Import Prelude Fiber Scheduler IOManager.
From S2P Require Timer.

(** What [epoll] documents: a descriptor is added when it is not in the interest list,
    changed or removed when it is there; nothing else changes the list. [pollable k fd] says
    that [epoll_ctl] takes such a request for [fd] in the state [k]: [fd] can be polled
    (else [EPERM] or [EBADF]), and there is memory for the request and, to add [fd], room
    below the limit on watches (else [ENOMEM], [ENOSPC]). A request may change it for every
    descriptor, as one that takes the last watch does. A [write] of one byte to the
    pipe writes it. *)
Class KernelLaws (K : Type) `{EventKernel K} := {
  pollable : K -> Z -> bool;
  interest : K -> Z -> option (Z * Z);
  ctl_result : forall k op fd ev p, (epoll_ctl k op fd ev p).1 = 0 <->
    pollable k fd = true /\
    match op with EPOLL_CTL_ADD => interest k fd = None | _ => is_Some (interest k fd) end;
  ctl_interest : forall k op fd ev p, (epoll_ctl k op fd ev p).1 = 0 -> forall fd',
    interest (epoll_ctl k op fd ev p).2 fd' =
    if fd' =? fd then match op with EPOLL_CTL_DEL => None | _ => Some (ev, p) end
    else interest k fd';
  ctl_failed : forall k op fd ev p, (epoll_ctl k op fd ev p).1 <> 0 -> forall fd',
    interest (epoll_ctl k op fd ev p).2 fd' = interest k fd';
  write_result : forall k, (write_tickle k).1 = 1;
  write_interest : forall k fd, interest (write_tickle k).2 fd = interest k fd;
  write_pollable : forall k fd, pollable (write_tickle k).2 fd = pollable k fd
}.

Section Spec.
Context {F UCont K : Type} `{KernelLaws K}.
Notation TCB := (@Timer.callback F).
Notation CB := (@callback TCB).
Notation Ft := (@FiberAndThread TCB).
Notation W := (@World CB (@cont UCont) (@Sched TCB (@IOM F K))).
Notation Ctx := (@FdContext F).
#[local] Existing Instance IO_sched.

(** ** The abstract table *)

(** The task of an event. *)
Definition task_of_ec (e : @EventContext F) : Ft :=
  match ec_cb e with Some cb => FT_of_cb (Some cb) (-1) | None => FT_of_fiber (ec_fiber e) (-1) end.

Definition is_event (e : Z) : Prop := e = READ \/ e = WRITE.

Definition event_of (e : Z) (c : Ctx) : @EventContext F := if e =? READ then fc_read c else fc_write c.

Definition ctx_event (e : Z) (c : Ctx) : option Ft :=
  if Z.land (fc_events c) e =? 0 then None else Some (task_of_ec (event_of e c)).

(** An event that is there has a scheduler and one task; one that is not has nothing. *)
Definition ec_ok (here : bool) (e : @EventContext F) : Prop :=
  if here then is_Some (ec_scheduler e) /\
    (is_Some (ec_cb e) /\ ec_fiber e = None \/ ec_cb e = None /\ is_Some (ec_fiber e))
  else e = no_event.

Definition ctx_ok (c : Ctx) : Prop :=
  fc_events c ∈ [0; READ; WRITE; Z.lor READ WRITE] /\
  forall e, is_event e -> ec_ok (negb (Z.land (fc_events c) e =? 0)) (event_of e c).

Record table := mkTable {
  t_events : gmap (Z * Z) Ft;
  t_queue : list Ft
}.

(** The context of a descriptor and its address. *)
Definition ctx_of (w : W) (fd : Z) : option (Z * Ctx) :=
  if fd <? 0 then None
  else match m_fdContexts (io w) !! Z.to_nat fd with
       | Some (Some p) => match contexts (io w) !! p with Some c => Some (p, c) | None => None end
       | _ => None
       end.

Definition event_at (w : W) (fd e : Z) : option Ft :=
  match ctx_of w fd with Some (_, c) => ctx_event e c | None => None end.

(** What the kernel should hold for a descriptor. *)
Definition wanted (w : W) (fd : Z) : option (Z * Z) :=
  match ctx_of w fd with
  | Some (p, c) => if fc_events c =? 0 then None else Some (Z.lor EPOLLET (fc_events c), p)
  | None => None
  end.

(** [x] is a descriptor whose entry in the interest list may be out of date. *)
Record refines_but (x : option Z) (w : W) (t : table) : Prop := {
  r_table : forall fd, 0 <= fd < Z.of_nat (length (m_fdContexts (io w))) ->
    exists p c, ctx_of w fd = Some (p, c) /\ fc_fd c = fd /\ ctx_ok c;
  r_fresh : forall p, is_Some (contexts (io w) !! p) -> p < next_context (io w);
  r_events : forall fd e, t_events t !! (fd, e) =
    if bool_decide (e = READ) || bool_decide (e = WRITE) then event_at w fd e else None;
  r_pending : m_pendingEventCount (io w) = u64 (Z.of_nat (size (t_events t)));
  r_interest : forall fd, 0 <= fd -> x <> Some fd -> interest (kern (io w)) fd = wanted w fd;
  r_queue : m_fibers (ext w) = t_queue t
}.
Definition refines : W -> table -> Prop := refines_but None.

(** The table of contexts has the size the constructor gives it, at least. *)
Definition big (w : W) : Prop := (32 <= length (m_fdContexts (io w)))%nat.

(** ** What the operations leave alone *)

Record frame (w w' : W) : Prop := {
  f_heap : heap w' = heap w;
  f_locals : locals w' = locals w;
  f_timers : timers (io w') = timers (io w);
  f_next : next_context (io w') = next_context (io w);
  f_fds : m_fdContexts (io w') = m_fdContexts (io w);
  f_flags : m_autoStop (ext w') = m_autoStop (ext w) /\ m_stopping (ext w') = m_stopping (ext w) /\
    m_activeThreadCount (ext w') = m_activeThreadCount (ext w) /\
    m_idleThreadCount (ext w') = m_idleThreadCount (ext w)
}.

#[local] Instance frame_preorder : PreOrder frame.
Proof.
  split; [by intros w; constructor|]. intros w1 w2 w3 [] []. constructor; try congruence.
  destruct f_flags0 as (?&?&?&?), f_flags1 as (?&?&?&?). split_and!; congruence.
Qed.

(** Two worlds with the same interest list. *)
Definition same_interest (w w' : W) : Prop :=
  forall fd, interest (kern (io w')) fd = interest (kern (io w)) fd.

Lemma tickle_ok tid (w : W) : exists w', io_tickle tid w = Ret tt w' /\ frame w w' /\
  same_interest w w' /\ (forall fd, pollable (kern (io w')) fd = pollable (kern (io w)) fd) /\ contexts (io w') = contexts (io w) /\
  m_pendingEventCount (io w') = m_pendingEventCount (io w) /\ m_fibers (ext w') = m_fibers (ext w).
Proof.
  unfold io_tickle. erewrite bind_Ret by reflexivity. destruct (0 <? _); cbn [negb].
  - pose proof (write_result (kern (io w))) as Hw. unfold bind, sys.
    pose proof (write_interest (kern (io w))) as Hi. pose proof (write_pollable (kern (io w))) as Hp.
    destruct (write_tickle (kern (io w))) as [rt k]. simpl in *. rewrite Hw. simpl.
    eexists. split; [done|]. split_and!; try done.
  - exists w. split_and!; done.
Qed.

Lemma io_schedule_ok tid ft (w : W) : is_Some (ft_fiber ft) \/ is_Some (ft_cb ft) ->
  exists w', schedule tid ft w = Ret tt w' /\ frame w w' /\ same_interest w w' /\
    contexts (io w') = contexts (io w) /\
    m_pendingEventCount (io w') = m_pendingEventCount (io w) /\
    m_fibers (ext w') = m_fibers (ext w) ++ [ft].
Proof.
  intros Hft.
  set (w1 := set_ext (set_fibers (m_fibers (ext w) ++ [ft]) (ext w)) w : W).
  assert (scheduleNoLock ft w = Ret (bool_decide (m_fibers (ext w) = [])) w1) as E.
  { unfold scheduleNoLock. erewrite bind_Ret by reflexivity.
    assert (bool_decide (is_Some (ft_fiber ft)) || bool_decide (is_Some (ft_cb ft)) = true) as ->; [|done].
    apply orb_true_iff. destruct Hft; [left|right]; by apply bool_decide_eq_true_2. }
  unfold schedule. erewrite bind_Ret by exact E. destruct (bool_decide _).
  - destruct (tickle_ok tid w1) as (w' & Ew & Hf & Hi & _ & Hc & Hp & Hq). exists w'.
    split; [exact Ew|]. split_and!; try done. transitivity w1; [by constructor|done].
  - exists w1. by split_and!.
Qed.

(** ** Changing a context *)

Definition put_ctx (p : Z) (c : Ctx) (w : W) : W :=
  set_ext (set_derived (set_contexts (<[p := c]> (contexts (io w))) (io w)) (ext w)) w.

Lemma store_ctx_ok p g c (w : W) : contexts (io w) !! p = Some c ->
  store_ctx p g w = Ret tt (put_ctx p (g c) w).
Proof.
  intros Hc. unfold store_ctx. rewrite Hc. unfold set_io, upd, modify, put_ctx. repeat f_equal.
  fold (io w). by rewrite <- (insert_id _ _ _ Hc) at 1; rewrite alter_insert_eq.
Qed.

Lemma load_ctx_ok p c (w : W) : contexts (io w) !! p = Some c -> load_ctx p w = Ret c w.
Proof. unfold load_ctx. by intros ->. Qed.

Lemma put_put p c c' (w : W) : put_ctx p c' (put_ctx p c w) = put_ctx p c' w.
Proof. unfold put_ctx, io. simpl. by rewrite insert_insert_eq. Qed.

Lemma lookup_put p c (w : W) : contexts (io (put_ctx p c w)) !! p = Some c.
Proof. apply lookup_insert_eq. Qed.

Lemma frame_put p c (w : W) : frame w (put_ctx p c w).
Proof. by constructor. Qed.

(** A context after its event [e] has been taken out. *)
Definition cleared (e : Z) (c : Ctx) : Ctx :=
  set_context e no_event (set_events (Z.ldiff (fc_events c) e) c).

Lemma getContext_ok e c (w : W) : is_event e -> getContext e c w = Ret (event_of e c) w.
Proof. intros [->| ->]; done. Qed.

Lemma ec_ok_here e c : ctx_ok c -> is_event e -> Z.land (fc_events c) e <> 0 -> ec_ok true (event_of e c).
Proof.
  intros [_ Hc] He Hn. specialize (Hc e He). apply Z.eqb_neq in Hn. by rewrite Hn in Hc.
Qed.

Lemma put_twice_schedule p c1 c2 tid ft (w : W) : is_Some (ft_fiber ft) \/ is_Some (ft_cb ft) ->
  exists w1, schedule tid ft (put_ctx p c1 w) = Ret tt w1 /\
    contexts (io w1) !! p = Some c1 /\
    let w' := put_ctx p c2 w1 in
    frame w w' /\ same_interest w w' /\ contexts (io w') = <[p := c2]> (contexts (io w)) /\
    m_pendingEventCount (io w') = m_pendingEventCount (io w) /\
    m_fibers (ext w') = m_fibers (ext w) ++ [ft].
Proof.
  intros Hft. destruct (io_schedule_ok tid ft (put_ctx p c1 w) Hft) as (w1 & E & Hf & Hi & Hc & Hp & Hq).
  exists w1. split; [done|]. split; [rewrite Hc; apply lookup_insert_eq|]. simpl. split_and!; try done.
  - transitivity (put_ctx p c1 w); [by constructor|]. transitivity w1; [done|by constructor].
  - unfold io in *. simpl in *. rewrite Hc. by rewrite insert_insert_eq.
Qed.

Lemma triggerEvent_ok tid p e c (w : W) : contexts (io w) !! p = Some c -> is_event e -> ctx_ok c ->
  Z.land (fc_events c) e <> 0 ->
  exists w', triggerEvent tid p e w = Ret tt w' /\ frame w w' /\ same_interest w w' /\
    contexts (io w') = <[p := cleared e c]> (contexts (io w)) /\
    m_pendingEventCount (io w') = m_pendingEventCount (io w) /\
    m_fibers (ext w') = m_fibers (ext w) ++ [task_of_ec (event_of e c)].
Proof.
  intros Hc He Hok Hn. pose proof (ec_ok_here e c Hok He Hn) as [[s Hs] Htask].
  unfold triggerEvent. erewrite bind_Ret by (by apply load_ctx_ok). apply Z.eqb_neq in Hn. rewrite Hn.
  erewrite bind_Ret by reflexivity. erewrite bind_Ret by (by apply store_ctx_ok).
  erewrite bind_Ret by (by apply getContext_ok). rewrite Hs. unfold task_of_ec.
  destruct Htask as [[[cb Hcb] Hfib]|[Hcb [a Hfib]]]; rewrite Hcb, Hfib;
    cbn [FT_of_cb_ptr FT_of_fiber_ptr];
    erewrite bind_Ret by (apply store_ctx_ok, lookup_put); rewrite put_put;
    destruct He as [->| ->];
    (edestruct (put_twice_schedule p) as (w1 & E & Hl & H');
     [|erewrite bind_Ret by exact E; eexists; split; [by apply store_ctx_ok|exact H']]);
    [right|right|left|left]; by eexists.
Qed.

(** ** Bits *)

Definition added (e : Z) (ec : @EventContext F) (c : Ctx) : Ctx :=
  set_context e ec (set_events (Z.lor (fc_events c) e) c).

Lemma events_cleared e (c : Ctx) : ctx_ok c -> is_event e ->
  Z.ldiff (fc_events c) e ∈ [0; READ; WRITE; Z.lor READ WRITE].
Proof.
  intros [Hin _] He. rewrite !elem_of_cons, elem_of_nil in *.
  destruct Hin as [->|[->|[->|[->|[]]]]], He as [->| ->]; cbn; tauto.
Qed.

Lemma events_added e (c : Ctx) : ctx_ok c -> is_event e ->
  Z.lor (fc_events c) e ∈ [0; READ; WRITE; Z.lor READ WRITE].
Proof.
  intros [Hin _] He. rewrite !elem_of_cons, elem_of_nil in *.
  destruct Hin as [->|[->|[->|[->|[]]]]], He as [->| ->]; cbn; tauto.
Qed.

Lemma has_event_cleared v e e' : v ∈ [0; READ; WRITE; Z.lor READ WRITE] -> is_event e -> is_event e' ->
  (Z.land (Z.ldiff v e) e' =? 0) = (if e' =? e then true else Z.land v e' =? 0).
Proof.
  rewrite !elem_of_cons, elem_of_nil. by intros [->|[->|[->|[->|[]]]]] [->| ->] [->| ->].
Qed.

Lemma has_event_added v e e' : v ∈ [0; READ; WRITE; Z.lor READ WRITE] -> is_event e -> is_event e' ->
  (Z.land (Z.lor v e) e' =? 0) = (if e' =? e then false else Z.land v e' =? 0).
Proof.
  rewrite !elem_of_cons, elem_of_nil. by intros [->|[->|[->|[->|[]]]]] [->| ->] [->| ->].
Qed.

Lemma event_of_set e e' ec v (c : Ctx) : is_event e -> is_event e' ->
  event_of e' (set_context e ec (set_events v c)) = if e' =? e then ec else event_of e' c.
Proof. by intros [->| ->] [->| ->]. Qed.

Lemma fc_set e ec v (c : Ctx) : fc_events (set_context e ec (set_events v c)) = v /\
  fc_fd (set_context e ec (set_events v c)) = fc_fd c.
Proof. unfold set_context. by case_match. Qed.

Lemma cleared_ok e c : ctx_ok c -> is_event e -> ctx_ok (cleared e c).
Proof.
  intros Hok He. unfold cleared, ctx_ok. destruct (fc_set e no_event (Z.ldiff (fc_events c) e) c) as [-> _].
  split; [by apply events_cleared|]. intros e' He'.
  rewrite has_event_cleared, event_of_set by (try apply Hok; done).
  destruct (e' =? e); [done|by apply Hok].
Qed.

Lemma added_ok e ec c : ctx_ok c -> is_event e -> ec_ok true ec -> ctx_ok (added e ec c).
Proof.
  intros Hok He Hec. unfold added, ctx_ok. destruct (fc_set e ec (Z.lor (fc_events c) e) c) as [-> _].
  split; [by apply events_added|]. intros e' He'.
  rewrite has_event_added, event_of_set by (try apply Hok; done).
  destruct (e' =? e); [done|by apply Hok].
Qed.

Lemma ctx_event_cleared e e' c : ctx_ok c -> is_event e -> is_event e' ->
  ctx_event e' (cleared e c) = if e' =? e then None else ctx_event e' c.
Proof.
  intros Hok He He'. unfold ctx_event, cleared.
  destruct (fc_set e no_event (Z.ldiff (fc_events c) e) c) as [-> _].
  rewrite has_event_cleared, event_of_set by (try apply Hok; done). by destruct (e' =? e).
Qed.

Lemma ctx_event_added e ec e' c : ctx_ok c -> is_event e -> is_event e' ->
  ctx_event e' (added e ec c) = if e' =? e then Some (task_of_ec ec) else ctx_event e' c.
Proof.
  intros Hok He He'. unfold ctx_event, added.
  destruct (fc_set e ec (Z.lor (fc_events c) e) c) as [-> _].
  rewrite has_event_added, event_of_set by (try apply Hok; done). by destruct (e' =? e).
Qed.

(** ** From a changed context to the changed table *)

Lemma ctx_of_range w fd p c : ctx_of w fd = Some (p, c) ->
  0 <= fd < Z.of_nat (length (m_fdContexts (io w))) /\ contexts (io w) !! p = Some c /\
  m_fdContexts (io w) !! Z.to_nat fd = Some (Some p).
Proof.
  unfold ctx_of. destruct (fd <? 0) eqn:E; [done|].
  destruct (_ !! Z.to_nat fd) as [[q|]|] eqn:El; try done.
  destruct (contexts (io w) !! q) eqn:Ec; [|done]. intros. simplify_eq.
  apply lookup_lt_Some in El as Hl. split; [|done]. lia.
Qed.

Lemma ctx_of_fd x w t fd p c : refines_but x w t -> ctx_of w fd = Some (p, c) -> fc_fd c = fd /\ ctx_ok c.
Proof.
  intros Hr E. destruct (ctx_of_range _ _ _ _ E) as [Hrg _].
  destruct (r_table _ _ _ Hr fd Hrg) as (p' & c' & E' & ? & ?). by simplify_eq.
Qed.

(** The context at [p] is the one of [fd] alone. *)
Lemma ctx_of_put x w w' t fd fd' p c c' : refines_but x w t -> ctx_of w fd = Some (p, c) ->
  m_fdContexts (io w') = m_fdContexts (io w) -> contexts (io w') = <[p := c']> (contexts (io w)) ->
  ctx_of w' fd' = if fd' =? fd then Some (p, c') else ctx_of w fd'.
Proof.
  intros Hr E Ht Hc. destruct (ctx_of_range _ _ _ _ E) as (Hrg & Ep & El).
  unfold ctx_of at 1. rewrite Ht, Hc. destruct (fd' =? fd) eqn:Ef.
  - apply Z.eqb_eq in Ef as ->. rewrite El, lookup_insert_eq. by destruct (fd <? 0) eqn:?; [lia|].
  - unfold ctx_of. destruct (fd' <? 0) eqn:Hn; [done|].
    destruct (m_fdContexts (io w) !! Z.to_nat fd') as [[q|]|] eqn:Eq; try done.
    destruct (decide (q = p)) as [->|Hne]; [|by rewrite lookup_insert_ne].
    exfalso. assert (ctx_of w fd' = Some (p, c)) as E'.
    { unfold ctx_of. by rewrite Hn, Eq, Ep. }
    destruct (ctx_of_fd _ _ _ _ _ _ Hr E), (ctx_of_fd _ _ _ _ _ _ Hr E'). apply Z.eqb_neq in Ef. congruence.
Qed.

Lemma refines_update x x' w w' t fd p c c' ev' : refines_but x w t -> (x = None \/ x = Some fd) ->
  ctx_of w fd = Some (p, c) ->
  m_fdContexts (io w') = m_fdContexts (io w) -> next_context (io w') = next_context (io w) ->
  contexts (io w') = <[p := c']> (contexts (io w)) -> ctx_ok c' -> fc_fd c' = fd ->
  m_pendingEventCount (io w') = u64 (Z.of_nat (size ev')) ->
  (forall fd', 0 <= fd' -> x' <> Some fd' -> interest (kern (io w')) fd' =
     if fd' =? fd then (if fc_events c' =? 0 then None else Some (Z.lor EPOLLET (fc_events c'), p))
     else interest (kern (io w)) fd') ->
  (forall fd' e, ev' !! (fd', e) =
     if fd' =? fd then (if bool_decide (e = READ) || bool_decide (e = WRITE) then ctx_event e c' else None)
     else t_events t !! (fd', e)) ->
  refines_but x' w' (mkTable ev' (m_fibers (ext w'))).
Proof.
  intros Hr Hx E Ht Hnx Hc Hok Hfd Hp Hi Hev. destruct (ctx_of_range _ _ _ _ E) as (Hrg & Ep & _).
  pose proof (fun fd' => ctx_of_put x w w' t fd fd' p c c' Hr E Ht Hc) as Hput. constructor; simpl.
  - intros fd' Hfd'. rewrite Ht in Hfd'. rewrite Hput. destruct (fd' =? fd) eqn:Ef.
    + apply Z.eqb_eq in Ef as ->. by exists p, c'.
    + by apply (r_table _ _ _ Hr).
  - intros q. rewrite Hc, Hnx, lookup_insert_is_Some. intros [<-|[_ Hq]]; apply (r_fresh _ _ _ Hr); eauto.
  - intros fd' e. rewrite Hev. unfold event_at. rewrite Hput. destruct (fd' =? fd); [done|].
    apply (r_events _ _ _ Hr).
  - done.
  - intros fd' Hfd' Hne. rewrite Hi by done. unfold wanted. rewrite Hput. destruct (fd' =? fd) eqn:Ef; [done|].
    apply (r_interest _ _ _ Hr); [done|]. apply Z.eqb_neq in Ef. destruct Hx as [->| ->]; congruence.
  - done.
Qed.

(** ** [epoll_ctl] *)

(** Nothing changed but the kernel. *)
Definition same_data (w w' : W) : Prop :=
  frame w w' /\ contexts (io w') = contexts (io w) /\
  m_pendingEventCount (io w') = m_pendingEventCount (io w) /\ m_fibers (ext w') = m_fibers (ext w).

Lemma ctx_of_same w w' fd : same_data w w' -> ctx_of w' fd = ctx_of w fd.
Proof. intros ([] & Hc & _). unfold ctx_of. by rewrite f_fds0, Hc. Qed.

(** The call as the operations make it: it replaces the interest of a descriptor by [new],
    or does nothing when the descriptor cannot be polled. *)
Lemma ctl_ok op fd ev p (w : W) :
  match op with
  | EPOLL_CTL_ADD => interest (kern (io w)) fd = None
  | _ => is_Some (interest (kern (io w)) fd)
  end ->
  exists rt w1, sys (fun k => epoll_ctl k op fd ev p) w = Ret rt w1 /\ same_data w w1 /\
    (rt =? 0) = pollable (kern (io w)) fd /\
    if pollable (kern (io w)) fd then
      forall fd', interest (kern (io w1)) fd' =
        if fd' =? fd then match op with EPOLL_CTL_DEL => None | _ => Some (ev, p) end
        else interest (kern (io w)) fd'
    else same_interest w w1.
Proof.
  intros Hpre. set (k := kern (io w)) in *.
  pose proof (ctl_result k op fd ev p) as Hres. pose proof (ctl_interest k op fd ev p) as Hint.
  pose proof (ctl_failed k op fd ev p) as Hfail.
  unfold sys. fold k. destruct (epoll_ctl k op fd ev p) as [rt k'] eqn:E. simpl in *.
  exists rt. eexists. split; [done|]. split; [|].
  { split_and!; try done. }
  destruct (pollable k fd) eqn:Ep.
  - assert (rt = 0) as -> by (by apply Hres). split; [done|]. by apply Hint.
  - assert (rt <> 0) as Hne by (intros ->; by destruct (proj1 Hres eq_refl)). split; [by apply Z.eqb_neq|].
    intros fd'. by apply Hfail.
Qed.

Lemma is_event_bool e : bool_decide (e = READ) || bool_decide (e = WRITE) = true -> is_event e.
Proof. intros [Eb|Eb]%orb_true_iff; apply bool_decide_eq_true in Eb; [by left|by right]. Qed.

Lemma here_iff x w t fd p c e : refines_but x w t -> ctx_of w fd = Some (p, c) -> is_event e ->
  t_events t !! (fd, e) = ctx_event e c.
Proof.
  intros Hr Hctx He. rewrite (r_events _ _ _ Hr). unfold event_at. rewrite Hctx. by destruct He as [->| ->].
Qed.

(** Taking an event out of the table. *)
Lemma clear_refines x x' w w' t fd p c e ft q : refines_but x w t -> (x = None \/ x = Some fd) ->
  ctx_of w fd = Some (p, c) -> is_event e -> t_events t !! (fd, e) = Some ft ->
  frame w w' -> contexts (io w') = <[p := cleared e c]> (contexts (io w)) ->
  m_pendingEventCount (io w') = u64 (m_pendingEventCount (io w) + -1) ->
  (forall fd', 0 <= fd' -> x' <> Some fd' -> interest (kern (io w')) fd' =
     if fd' =? fd
     then (if fc_events (cleared e c) =? 0 then None else Some (Z.lor EPOLLET (fc_events (cleared e c)), p))
     else interest (kern (io w)) fd') ->
  m_fibers (ext w') = q ->
  refines_but x' w' (mkTable (delete (fd, e) (t_events t)) q).
Proof.
  intros Hr Hx Hctx He Hft Hf Hc Hp Hi <-. destruct (ctx_of_fd _ _ _ _ _ _ Hr Hctx) as [Hfd Hok].
  eapply (refines_update x x' w w' t fd p c (cleared e c)); try done.
  - apply (f_fds _ _ Hf).
  - apply (f_next _ _ Hf).
  - by apply cleared_ok.
  - unfold cleared. destruct (fc_set e no_event (Z.ldiff (fc_events c) e) c) as [_ ->]. done.
  - rewrite Hp, (r_pending _ _ _ Hr). unfold wrapu. rewrite Zplus_mod_idemp_l. f_equal.
    rewrite map_size_delete_Some by eauto.
    assert (size (t_events t) <> 0%nat); [|lia]. intros Hz. apply map_size_empty_inv in Hz.
    by rewrite Hz in Hft.
  - intros fd' e'. rewrite lookup_delete. destruct (fd' =? fd) eqn:Ef.
    + apply Z.eqb_eq in Ef as ->. rewrite (r_events _ _ _ Hr). unfold event_at. rewrite Hctx.
      destruct (bool_decide (e' = READ) || bool_decide (e' = WRITE)) eqn:Eb; [|by destruct (decide _)].
      apply is_event_bool in Eb as He'.
      rewrite ctx_event_cleared by done. destruct (e' =? e) eqn:Ee.
      * apply Z.eqb_eq in Ee as ->. by rewrite decide_True.
      * apply Z.eqb_neq in Ee. rewrite decide_False; [done|congruence].
    + apply Z.eqb_neq in Ef. rewrite decide_False; [done|congruence].
Qed.

(** [triggerEvent] of an event that is in the table. The interest list is left as it is. *)
Lemma trigger_here x tid w t fd p c e ft : refines_but x w t -> (x = None \/ x = Some fd) ->
  ctx_of w fd = Some (p, c) -> is_event e -> t_events t !! (fd, e) = Some ft ->
  exists w2, (triggerEvent tid p e ;; set_io (add_pending (-1))) w = Ret tt w2 /\ frame w w2 /\
    same_interest w w2 /\ contexts (io w2) = <[p := cleared e c]> (contexts (io w)) /\
    refines_but (Some fd) w2 (mkTable (delete (fd, e) (t_events t)) (t_queue t ++ [ft])).
Proof.
  intros Hr Hx Hctx He Hft. destruct (ctx_of_fd _ _ _ _ _ _ Hr Hctx) as [Hfd Hok].
  destruct (ctx_of_range _ _ _ _ Hctx) as (_ & Hpc & _).
  pose proof Hft as Hft'. rewrite (here_iff x _ _ _ _ _ _ Hr Hctx) in Hft' by done. unfold ctx_event in Hft'.
  destruct (Z.land (fc_events c) e =? 0) eqn:Hn; [done|]. apply Z.eqb_neq in Hn. injection Hft' as Hft'.
  destruct (triggerEvent_ok tid p e c w) as (w2 & E & Hf2 & Hi2 & Hc2 & Hp2 & Hq2); try done.
  eexists. split; [by erewrite bind_Ret by exact E|].
  set (w3 := set_ext _ w2). assert (frame w w3) as Hf3 by (transitivity w2; [done|by constructor]).
  assert (same_interest w w3) as Hi3 by exact Hi2. assert (contexts (io w3) = contexts (io w2)) as Hc3 by done.
  split; [done|]. split; [done|]. split; [by rewrite Hc3|].
  apply (clear_refines x (Some fd) w w3 t fd p c e ft); try done.
  - change (m_pendingEventCount (io w3)) with (u64 (m_pendingEventCount (io w2) + -1)). by rewrite Hp2.
  - intros fd' _ Hne. rewrite Hi3. destruct (fd' =? fd) eqn:Ef; [|done]. apply Z.eqb_eq in Ef. congruence.
  - change (m_fibers (ext w3)) with (m_fibers (ext w2)). by rewrite Hq2, (r_queue _ _ _ Hr), Hft'.
Qed.

Lemma refines_but_data x w w' t fd : refines_but x w t -> (x = None \/ x = Some fd) -> same_data w w' ->
  (forall fd', fd' <> fd -> interest (kern (io w')) fd' = interest (kern (io w)) fd') ->
  refines_but (Some fd) w' t.
Proof.
  intros Hr Hx Hsame Hi. pose proof (fun fd => ctx_of_same w w' fd Hsame) as Hctx.
  destruct Hsame as (Hf & Hc & Hp & Hq). pose proof (f_fds _ _ Hf) as Ht. pose proof (f_next _ _ Hf) as Hn.
  constructor.
  - intros fd'. rewrite Ht, Hctx. apply (r_table _ _ _ Hr).
  - rewrite Hc, Hn. apply (r_fresh _ _ _ Hr).
  - intros fd' e. unfold event_at. rewrite Hctx. apply (r_events _ _ _ Hr).
  - rewrite Hp. apply (r_pending _ _ _ Hr).
  - intros fd' Hfd Hne. rewrite Hi by congruence. unfold wanted. rewrite Hctx.
    apply (r_interest _ _ _ Hr); [done|]. destruct Hx as [->| ->]; congruence.
  - rewrite Hq. apply (r_queue _ _ _ Hr).
Qed.

(** The interest list is up to date again. *)
Lemma refines_back w t fd : refines_but (Some fd) w t ->
  (0 <= fd -> interest (kern (io w)) fd = wanted w fd) -> refines w t.
Proof.
  intros Hr Hi. constructor; try apply Hr. intros fd' Hfd' _.
  destruct (decide (fd' = fd)) as [->|Hne]; [by apply Hi|]. apply (r_interest _ _ _ Hr); [done|congruence].
Qed.

Lemma refines_same w w' t : refines w t -> same_data w w' -> same_interest w w' -> refines w' t.
Proof.
  intros Hr Hsame Hi. apply (refines_back w' t (-1)); [|lia].
  apply (refines_but_data None w w'); auto.
Qed.

Lemma refines_weaken w t fd : refines w t -> refines_but (Some fd) w t.
Proof. intros Hr. constructor; try apply Hr. intros fd' Hfd' _. by apply (r_interest _ _ _ Hr). Qed.

Section OneContext.
Context (w : W) (t : table) (fd p : Z) (c : Ctx).
Hypothesis Hr : refines w t.
Hypothesis Hctx : ctx_of w fd = Some (p, c).

Lemma events_nonzero e : is_event e -> Z.land (fc_events c) e <> 0 -> fc_events c <> 0.
Proof. intros _ Hn E. by rewrite E in Hn. Qed.

Lemma fd_nonneg : 0 <= fd.
Proof. destruct (ctx_of_range _ _ _ _ Hctx). lia. Qed.

Lemma interest_here : interest (kern (io w)) fd =
  if fc_events c =? 0 then None else Some (Z.lor EPOLLET (fc_events c), p).
Proof. rewrite (r_interest _ _ _ Hr) by (done || apply fd_nonneg). unfold wanted. by rewrite Hctx. Qed.

(** The interest list after an operation that leaves [c'] as the context. *)
Definition interest_put (c' : Ctx) (w' : W) : Prop :=
  forall fd', interest (kern (io w')) fd' =
    if fd' =? fd then (if fc_events c' =? 0 then None else Some (Z.lor EPOLLET (fc_events c'), p))
    else interest (kern (io w)) fd'.

Lemma unregister_ok e : is_event e ->
  match t_events t !! (fd, e) with
  | None => unregister p fd e w = Ret None w
  | Some _ => exists w1, unregister p fd e w = Ret (if pollable (kern (io w)) fd then Some c else None) w1 /\
      same_data w w1 /\
      if pollable (kern (io w)) fd then interest_put (cleared e c) w1 else same_interest w w1
  end.
Proof.
  intros He. rewrite (here_iff _ _ _ _ _ _ _ Hr Hctx He). unfold ctx_event.
  destruct (ctx_of_range _ _ _ _ Hctx) as (_ & Hc & _). unfold unregister.
  erewrite bind_Ret by (by apply load_ctx_ok). destruct (Z.land (fc_events c) e =? 0) eqn:Hn; [done|].
  apply Z.eqb_neq in Hn. pose proof (events_nonzero e He Hn) as Hnz. apply Z.eqb_neq in Hnz.
  destruct (fc_set e no_event (Z.ldiff (fc_events c) e) c) as [Ecl _].
  edestruct (ctl_ok (if Z.ldiff (fc_events c) e =? 0 then EPOLL_CTL_DEL else EPOLL_CTL_MOD) fd
    (Z.lor EPOLLET (Z.ldiff (fc_events c) e)) p w) as (rt & w1 & E & Hsame & Hrt & Hint).
  { rewrite interest_here, Hnz. destruct (Z.ldiff (fc_events c) e =? 0); by eexists. }
  exists w1. erewrite bind_Ret by exact E. rewrite Hrt. split; [by destruct (pollable _ _)|].
  split; [done|]. destruct (pollable _ _); [|done]. unfold interest_put. intros fd'. rewrite Hint.
  unfold cleared. rewrite Ecl. by destruct (fd' =? fd), (Z.ldiff (fc_events c) e =? 0).
Qed.

(** Putting an event into the table. *)
Lemma add_refines e ec w' : is_event e -> t_events t !! (fd, e) = None -> ec_ok true ec ->
  m_fdContexts (io w') = m_fdContexts (io w) -> next_context (io w') = next_context (io w) ->
  contexts (io w') = <[p := added e ec c]> (contexts (io w)) ->
  m_pendingEventCount (io w') = u64 (m_pendingEventCount (io w) + 1) ->
  interest_put (added e ec c) w' -> m_fibers (ext w') = m_fibers (ext w) ->
  refines w' (mkTable (<[(fd, e) := task_of_ec ec]> (t_events t)) (t_queue t)).
Proof.
  intros He Hno Hec Ht Hnx Hc Hp Hi Hq. destruct (ctx_of_fd _ _ _ _ _ _ Hr Hctx) as [Hfd Hok].
  rewrite <- (r_queue _ _ _ Hr), <- Hq. unfold refines. eapply (refines_update None None w w' t fd p c (added e ec c)); try done.
  - by left.
  - by apply added_ok.
  - unfold added. destruct (fc_set e ec (Z.lor (fc_events c) e) c) as [_ ->]. done.
  - rewrite Hp, (r_pending _ _ _ Hr), map_size_insert_None by done.
    unfold wrapu. rewrite Zplus_mod_idemp_l. f_equal. lia.
  - intros fd' e'. rewrite lookup_insert. destruct (fd' =? fd) eqn:Ef.
    + apply Z.eqb_eq in Ef as ->. rewrite (r_events _ _ _ Hr). unfold event_at. rewrite Hctx.
      destruct (bool_decide (e' = READ) || bool_decide (e' = WRITE)) eqn:Eb.
      * apply is_event_bool in Eb as He'. rewrite ctx_event_added by done. destruct (e' =? e) eqn:Ee.
        -- apply Z.eqb_eq in Ee as ->. by rewrite decide_True.
        -- apply Z.eqb_neq in Ee. rewrite decide_False; [done|congruence].
      * rewrite decide_False; [done|]. intros [= <-]. by destruct He as [->| ->].
    + apply Z.eqb_neq in Ef. rewrite decide_False; [done|congruence].
Qed.

End OneContext.

(** ** The operations against the table *)

Lemma small_ctx w t fd : refines w t -> 0 <= fd ->
  if too_small fd w then forall e, t_events t !! (fd, e) = None
  else exists p c, ctx_of w fd = Some (p, c) /\ context_at fd w = Ret p w.
Proof.
  intros Hr Hfd. unfold too_small. destruct (_ <=? fd) eqn:E.
  - intros e. rewrite (r_events _ _ _ Hr). unfold event_at, ctx_of.
    rewrite (lookup_ge_None_2 (m_fdContexts (io w))) by lia. by destruct (fd <? 0), (_ || _).
  - destruct (r_table _ _ _ Hr fd) as (p & c & Hc & _); [lia|]. exists p, c. split; [done|].
    destruct (ctx_of_range _ _ _ _ Hc) as (_ & _ & El). unfold context_at. rewrite El.
    by destruct (fd <? 0) eqn:?; [lia|].
Qed.

Lemma delEvent_ok w t fd e : refines w t -> 0 <= fd -> is_event e ->
  match t_events t !! (fd, e) with
  | Some _ =>
      if pollable (kern (io w)) fd
      then exists w', delEvent fd e w = Ret true w' /\ frame w w' /\
             refines w' (mkTable (delete (fd, e) (t_events t)) (t_queue t))
      else exists w', delEvent fd e w = Ret false w' /\ frame w w' /\ refines w' t
  | None => delEvent fd e w = Ret false w
  end.
Proof.
  intros Hr Hfd He. pose proof (small_ctx w t fd Hr Hfd) as Hs. unfold delEvent.
  erewrite (bind_Ret (gets (too_small fd))) by reflexivity.
  destruct (too_small fd w); [by rewrite Hs|]. destruct Hs as (p & c & Hctx & Hat).
  erewrite (bind_Ret (context_at fd)) by exact Hat.
  pose proof (unregister_ok w t fd p c Hr Hctx e He) as Hu.
  destruct (t_events t !! (fd, e)) as [ft|] eqn:Hft; [|by erewrite bind_Ret by exact Hu].
  destruct Hu as (w1 & E & Hsame & Hi). destruct (pollable _ _); cbn iota in E.
  - destruct (ctx_of_range _ _ _ _ Hctx) as (_ & Hpc & _). destruct Hsame as (Hf & Hc & Hp & Hq).
    set (w2 := set_ext (set_derived (add_pending (-1) (io w1)) (ext w1)) w1 : W).
    assert (contexts (io w2) !! p = Some c) as Hpc2 by (unfold w2, io; simpl; fold (io w1); by rewrite Hc).
    exists (put_ctx p (cleared e c) w2). split.
    { erewrite bind_Ret by exact E. cbv beta iota. erewrite (bind_Ret (set_io _)) by reflexivity.
      erewrite bind_Ret by (by apply store_ctx_ok). erewrite bind_Ret by (by apply getContext_ok).
      erewrite bind_Ret by (apply store_ctx_ok, lookup_put). rewrite put_put. reflexivity. }
    set (w3 := put_ctx p (cleared e c) w2). assert (frame w w3) as Hf3.
    { transitivity w1; [done|]. by constructor. }
    split; [done|]. apply (clear_refines None None w w3 t fd p c e ft); try done.
    + by left.
    + change (contexts (io w3)) with (<[p := cleared e c]> (contexts (io w1))). by rewrite Hc.
    + change (m_pendingEventCount (io w3)) with (u64 (m_pendingEventCount (io w1) + -1)). by rewrite Hp.
    + change (m_fibers (ext w3)) with (m_fibers (ext w1)). by rewrite Hq, (r_queue _ _ _ Hr).
  - exists w1. erewrite bind_Ret by exact E. split; [done|]. split; [apply Hsame|].
    by eapply refines_same.
Qed.

Lemma cancelEvent_ok tid w t fd e : refines w t -> 0 <= fd -> is_event e ->
  match t_events t !! (fd, e) with
  | Some ft =>
      if pollable (kern (io w)) fd
      then exists w', cancelEvent tid fd e w = Ret true w' /\ frame w w' /\
             refines w' (mkTable (delete (fd, e) (t_events t)) (t_queue t ++ [ft]))
      else exists w', cancelEvent tid fd e w = Ret false w' /\ frame w w' /\ refines w' t
  | None => cancelEvent tid fd e w = Ret false w
  end.
Proof.
  intros Hr Hfd He. pose proof (small_ctx w t fd Hr Hfd) as Hs. unfold cancelEvent.
  erewrite (bind_Ret (gets (too_small fd))) by reflexivity.
  destruct (too_small fd w); [by rewrite Hs|]. destruct Hs as (p & c & Hctx & Hat).
  erewrite (bind_Ret (context_at fd)) by exact Hat.
  pose proof (unregister_ok w t fd p c Hr Hctx e He) as Hu.
  destruct (t_events t !! (fd, e)) as [ft|] eqn:Hft; [|by erewrite bind_Ret by exact Hu].
  destruct Hu as (w1 & E & Hsame & Hi). destruct (pollable _ _); cbn iota in E.
  - assert (refines_but (Some fd) w1 t) as Hr1.
    { apply (refines_but_data None w w1 t fd Hr); [by left|done|]. intros fd' Hne. rewrite Hi.
      by rewrite (proj2 (Z.eqb_neq fd' fd)). }
    assert (ctx_of w1 fd = Some (p, c)) as Hctx1 by (by rewrite (ctx_of_same w w1)).
    destruct (trigger_here (Some fd) tid w1 t fd p c e ft Hr1) as (w2 & E2 & Hf & Hi2 & Hc2 & Hr2); try done; [by right|].
    exists w2. erewrite bind_Ret by exact E. cbv beta iota. split; [|split].
    + apply bind_inv_Ret in E2 as (a & w3 & E2 & E3). destruct a.
      erewrite bind_Ret by exact E2. by erewrite bind_Ret by exact E3.
    + transitivity w1; [apply Hsame|done].
    + apply (refines_back _ _ fd Hr2). intros _. rewrite Hi2, Hi, Z.eqb_refl.
      unfold wanted. rewrite (ctx_of_put _ w1 w2 t fd fd p c (cleared e c) Hr1 Hctx1 (f_fds _ _ Hf) Hc2).
      by rewrite Z.eqb_refl.
  - exists w1. erewrite bind_Ret by exact E. split; [done|]. split; [apply Hsame|].
    by eapply refines_same.
Qed.

(** ** Several events at once *)

(** Taking an event out of the table, if it is there, schedules its task. *)
Definition take_event (fd e : Z) (t : table) : table :=
  match t_events t !! (fd, e) with
  | Some ft => mkTable (delete (fd, e) (t_events t)) (t_queue t ++ [ft])
  | None => t
  end.

Definition has (v e : Z) : bool := negb (Z.land v e =? 0).

Definition take_if (fd e : Z) (b : bool) (t : table) : table := if b then take_event fd e t else t.
Definition clear_if (e : Z) (b : bool) (c : Ctx) : Ctx := if b then cleared e c else c.

Lemma trigger_if_ok tid w t fd p c e b : refines_but (Some fd) w t -> ctx_of w fd = Some (p, c) ->
  is_event e -> (b = true -> is_Some (t_events t !! (fd, e))) ->
  exists w2, trigger_if tid p e b w = Ret tt w2 /\ frame w w2 /\ same_interest w w2 /\
    ctx_of w2 fd = Some (p, clear_if e b c) /\ refines_but (Some fd) w2 (take_if fd e b t).
Proof.
  intros Hr Hctx He Hb. destruct b; [|exists w; by split_and!].
  destruct (Hb eq_refl) as [ft Hft].
  destruct (trigger_here (Some fd) tid w t fd p c e ft Hr) as (w2 & E & Hf & Hi & Hc & Hr2); try done; [by right|].
  exists w2. split; [exact E|]. split; [done|]. split; [done|]. split.
  - rewrite (ctx_of_put _ w w2 t fd fd p c (cleared e c) Hr Hctx (f_fds _ _ Hf) Hc). by rewrite Z.eqb_refl.
  - unfold take_if, take_event. by rewrite Hft.
Qed.

Lemma has_cleared v e e' (b : bool) : v ∈ [0; READ; WRITE; Z.lor READ WRITE] -> is_event e -> is_event e' ->
  e' <> e -> has (if b then Z.ldiff v e else v) e' = has v e'.
Proof.
  intros Hv He He' Hne. destruct b; [|done]. unfold has. rewrite has_event_cleared by done.
  by rewrite (proj2 (Z.eqb_neq e' e)).
Qed.

Lemma fc_events_clear_if e b c : fc_events (clear_if e b c) = if b then Z.ldiff (fc_events c) e else fc_events c.
Proof. destruct b; [|done]. apply (fc_set e no_event (Z.ldiff (fc_events c) e) c). Qed.

Lemma here_has x w t fd p c e : refines_but x w t -> ctx_of w fd = Some (p, c) -> is_event e ->
  has (fc_events c) e = bool_decide (is_Some (t_events t !! (fd, e))).
Proof.
  intros Hr Hctx He. rewrite (here_iff _ _ _ _ _ _ _ Hr Hctx He). unfold has, ctx_event.
  destruct (Z.land (fc_events c) e =? 0); symmetry; [|by apply bool_decide_eq_true_2].
  by apply bool_decide_eq_false_2; intros [? ?].
Qed.

(** The events [b1] and [b2] say, taken out after the interest list was changed. *)
Lemma trigger_two tid w t fd p c b1 b2 : refines_but (Some fd) w t -> ctx_of w fd = Some (p, c) ->
  (b1 = true -> is_Some (t_events t !! (fd, READ))) -> (b2 = true -> is_Some (t_events t !! (fd, WRITE))) ->
  interest (kern (io w)) fd =
    (let v := fc_events (clear_if WRITE b2 (clear_if READ b1 c)) in
     if v =? 0 then None else Some (Z.lor EPOLLET v, p)) ->
  exists w1 w2, trigger_if tid p READ b1 w = Ret tt w1 /\ ctx_of w1 fd = Some (p, clear_if READ b1 c) /\
    trigger_if tid p WRITE b2 w1 = Ret tt w2 /\ frame w w2 /\
    refines w2 (take_if fd WRITE b2 (take_if fd READ b1 t)).
Proof.
  intros Hr Hctx H1 H2 Hint.
  destruct (trigger_if_ok tid w t fd p c READ b1 Hr Hctx) as (w1 & E1 & Hf1 & Hi1 & Hc1 & Hr1); [by left|done|].
  destruct (trigger_if_ok tid w1 _ fd p _ WRITE b2 Hr1 Hc1) as (w2 & E2 & Hf2 & Hi2 & Hc2 & Hr2); [by right| |].
  { intros Hb. destruct (H2 Hb) as [ft Hft]. unfold take_if, take_event. exists ft.
    destruct b1; [|done]. destruct (t_events t !! (fd, READ)); [|done]. simpl. by rewrite lookup_delete_ne. }
  exists w1, w2. split_and!; try done; [by transitivity w1|].
  apply (refines_back _ _ fd Hr2). intros _. rewrite Hi2, Hi1, Hint. unfold wanted. by rewrite Hc2.
Qed.

Lemma no_events v : v ∈ [0; READ; WRITE; Z.lor READ WRITE] ->
  (v =? 0) = negb (has v READ) && negb (has v WRITE).
Proof. rewrite !elem_of_cons, elem_of_nil. by intros [->|[->|[->|[->|[]]]]]. Qed.

Lemma all_cleared (c : Ctx) : ctx_ok c ->
  fc_events (clear_if WRITE (has (fc_events c) WRITE) (clear_if READ (has (fc_events c) READ) c)) = 0.
Proof.
  intros [Hin _]. rewrite !fc_events_clear_if. rewrite !elem_of_cons, elem_of_nil in Hin.
  by destruct Hin as [->|[->|[->|[->|[]]]]].
Qed.

Lemma take_if_here fd e t :
  take_if fd e (bool_decide (is_Some (t_events t !! (fd, e)))) t = take_event fd e t.
Proof.
  unfold take_if, take_event. destruct (t_events t !! (fd, e)) eqn:E.
  - by rewrite bool_decide_eq_true_2 by eauto.
  - by rewrite bool_decide_eq_false_2 by (intros [? ?]; done).
Qed.

Lemma lookup_take_other fd e e' b t : e' <> e ->
  t_events (take_if fd e b t) !! (fd, e') = t_events t !! (fd, e').
Proof.
  intros Hne. unfold take_if, take_event. destruct b; [|done].
  destruct (t_events t !! (fd, e)); [|done]. simpl. rewrite lookup_delete_ne; [done|congruence].
Qed.

(** The interest list after a successful [epoll_ctl] for the descriptor of [p]. *)
Lemma ctl_here op fd ev p w t c : refines w t -> ctx_of w fd = Some (p, c) ->
  op <> EPOLL_CTL_ADD -> fc_events c <> 0 ->
  exists rt w1, sys (fun k => epoll_ctl k op fd ev p) w = Ret rt w1 /\
    (rt =? 0) = pollable (kern (io w)) fd /\ frame w w1 /\ ctx_of w1 fd = Some (p, c) /\
    if pollable (kern (io w)) fd
    then refines_but (Some fd) w1 t /\
      interest (kern (io w1)) fd = match op with EPOLL_CTL_DEL => None | _ => Some (ev, p) end
    else refines w1 t.
Proof.
  intros Hr Hctx Hop Hnz.
  destruct (ctl_ok op fd ev p w) as (rt & w1 & E & Hsame & Hrt & Hint).
  { rewrite (interest_here _ _ _ _ _ Hr Hctx). apply Z.eqb_neq in Hnz. rewrite Hnz. by destruct op. }
  exists rt, w1. split_and!; [done|done|apply Hsame|by rewrite (ctx_of_same w w1)|].
  destruct (pollable _ _); [|by eapply refines_same]. split.
  - apply (refines_but_data None w w1 t fd Hr); [by left|done|]. intros fd' Hne. rewrite Hint.
    by rewrite (proj2 (Z.eqb_neq fd' fd)).
  - rewrite Hint, Z.eqb_refl. done.
Qed.

Lemma cancelAll_ok tid w t fd : refines w t -> 0 <= fd ->
  if bool_decide (t_events t !! (fd, READ) = None) && bool_decide (t_events t !! (fd, WRITE) = None)
  then cancelAll tid fd w = Ret false w
  else if pollable (kern (io w)) fd
  then exists w', cancelAll tid fd w = Ret true w' /\ frame w w' /\
         refines w' (take_event fd WRITE (take_event fd READ t))
  else exists w', cancelAll tid fd w = Ret false w' /\ frame w w' /\ refines w' t.
Proof.
  intros Hr Hfd. pose proof (small_ctx w t fd Hr Hfd) as Hs. unfold cancelAll.
  erewrite (bind_Ret (gets (too_small fd))) by reflexivity.
  destruct (too_small fd w); [by rewrite !Hs|]. destruct Hs as (p & c & Hctx & Hat).
  erewrite (bind_Ret (context_at fd)) by exact Hat.
  destruct (ctx_of_range _ _ _ _ Hctx) as (_ & Hpc & _). destruct (ctx_of_fd _ _ _ _ _ _ Hr Hctx) as [_ Hok].
  erewrite bind_Ret by (by apply load_ctx_ok).
  pose proof (here_has _ _ _ _ _ _ READ Hr Hctx ltac:(by left)) as HR.
  pose proof (here_has _ _ _ _ _ _ WRITE Hr Hctx ltac:(by right)) as HW.
  rewrite no_events, HR, HW by apply Hok.
  assert (forall o : option Ft, bool_decide (o = None) = negb (bool_decide (is_Some o))) as Hneg.
  { intros [ft|]; [by rewrite (bool_decide_eq_true_2 (is_Some _))|
      by rewrite (bool_decide_eq_false_2 (is_Some _)) by (intros [? ?]; done)]. }
  rewrite !Hneg. destruct (negb _ && negb _) eqn:Hnone; [done|].
  destruct (ctl_here EPOLL_CTL_DEL fd 0 p w t c Hr Hctx) as (rt & w1 & E & Hrt & Hf & Hctx1 & Hcase); [done| |].
  { intros Hz. pose proof (no_events (fc_events c) ltac:(apply Hok)) as Hz'. rewrite HR, HW, Hnone, Hz in Hz'. done. }
  erewrite bind_Ret by exact E. rewrite Hrt. destruct (pollable _ _); cbn [negb]; [|by exists w1].
  destruct Hcase as [Hr1 Hint].
  destruct (trigger_two tid w1 t fd p c (has (fc_events c) READ) (has (fc_events c) WRITE) Hr1 Hctx1)
    as (w2 & w3 & E2 & Hctx2 & E3 & Hf3 & Hr3).
  - rewrite HR. by intros ?%bool_decide_eq_true.
  - rewrite HW. by intros ?%bool_decide_eq_true.
  - rewrite all_cleared by done. by rewrite Hint.
  - exists w3. unfold has in E2. erewrite bind_Ret by exact E2.
    destruct (ctx_of_range _ _ _ _ Hctx2) as (_ & Hpc2 & _). erewrite bind_Ret by (by apply load_ctx_ok).
    fold (has (fc_events (clear_if READ (has (fc_events c) READ) c)) WRITE).
    rewrite fc_events_clear_if, has_cleared by first [done|by left|by right|apply Hok].
    erewrite bind_Ret by exact E3. split; [done|]. split; [by transitivity w1|].
    rewrite <- (take_if_here fd READ), <- (take_if_here fd WRITE), <- HR.
    rewrite lookup_take_other by done. by rewrite <- HW.
Qed.

(** ** An event the kernel reports *)

Lemma real_events_bits bits : real_events bits ∈ [0; READ; WRITE; Z.lor READ WRITE].
Proof. unfold real_events. rewrite !elem_of_cons. destruct (negb _), (negb _); cbn; tauto. Qed.

Lemma left_events v real : v ∈ [0; READ; WRITE; Z.lor READ WRITE] ->
  real ∈ [0; READ; WRITE; Z.lor READ WRITE] ->
  Z.ldiff v real = (let v1 := if has real READ then Z.ldiff v READ else v in
                    if has real WRITE then Z.ldiff v1 WRITE else v1) /\
  (Z.land v real =? 0) = negb (has real READ && has v READ) && negb (has real WRITE && has v WRITE).
Proof.
  intros Hv Hreal. rewrite !elem_of_cons, elem_of_nil in Hv. rewrite !elem_of_cons, elem_of_nil in Hreal.
  destruct Hv as [->|[->|[->|[->|[]]]]], Hreal as [->|[->|[->|[->|[]]]]]; split; reflexivity.
Qed.

Lemma trigger_if_absent tid w fd p c e : ctx_of w fd = Some (p, c) -> has (fc_events c) e = false ->
  trigger_if tid p e true w = UB AssertFailed.
Proof.
  intros Hctx Hno. destruct (ctx_of_range _ _ _ _ Hctx) as (_ & Hpc & _). unfold trigger_if, triggerEvent.
  apply bind_UB. erewrite bind_Ret by (by apply load_ctx_ok). unfold has in Hno. by rewrite Hno.
Qed.

Definition in_table (t : table) (fd e : Z) : bool := bool_decide (is_Some (t_events t !! (fd, e))).

Lemma process_event_ok fuel tid w t fd p c bits : refines w t -> ctx_of w fd = Some (p, c) ->
  let real := real_events bits in
  let bR := has real READ in let bW := has real WRITE in
  let hR := in_table t fd READ in let hW := in_table t fd WRITE in
  if negb (bR && hR) && negb (bW && hW)
  then process_event fuel tid (mkEvent bits (ctx_ptr p)) w = Ret tt w
  else if negb (pollable (kern (io w)) fd)
  then exists w', process_event fuel tid (mkEvent bits (ctx_ptr p)) w = Ret tt w' /\ frame w w' /\ refines w' t
  else if implb bR hR && implb bW hW
  then exists w', process_event fuel tid (mkEvent bits (ctx_ptr p)) w = Ret tt w' /\ frame w w' /\
         refines w' (take_if fd WRITE bW (take_if fd READ bR t))
  else process_event fuel tid (mkEvent bits (ctx_ptr p)) w = UB AssertFailed.
Proof.
  intros Hr Hctx real bR bW hR hW. unfold process_event. cbn [ev_data ev_events]. fold real.
  destruct (ctx_of_range _ _ _ _ Hctx) as (_ & Hpc & _). destruct (ctx_of_fd _ _ _ _ _ _ Hr Hctx) as [Hfd Hok].
  erewrite bind_Ret by (by apply load_ctx_ok).
  pose proof (here_has _ _ _ _ _ _ READ Hr Hctx ltac:(by left)) as HR. fold (in_table t fd READ) in HR.
  pose proof (here_has _ _ _ _ _ _ WRITE Hr Hctx ltac:(by right)) as HW. fold (in_table t fd WRITE) in HW.
  destruct (left_events (fc_events c) real ltac:(apply Hok) (real_events_bits bits)) as [Hleft Hzero].
  rewrite Hzero, HR, HW. fold bR bW hR hW. destruct (negb (bR && hR) && negb (bW && hW)) eqn:Hnone; [done|].
  rewrite Hfd.
  destruct (ctl_here (if Z.ldiff (fc_events c) real =? 0 then EPOLL_CTL_DEL else EPOLL_CTL_MOD) fd
    (Z.lor EPOLLET (Z.ldiff (fc_events c) real)) p w t c Hr Hctx) as (rt & w1 & E & Hrt & Hf & Hctx1 & Hcase).
  { by destruct (Z.ldiff (fc_events c) real =? 0). }
  { intros Hz. rewrite Hz in HR, HW. unfold has in HR, HW. simpl in HR, HW. subst hR hW.
    rewrite <- HR, <- HW, !andb_false_r in Hnone. done. }
  erewrite bind_Ret by exact E. rewrite Hrt. destruct (pollable _ _); cbn [negb]; [|by exists w1].
  destruct Hcase as [Hr1 Hint].
  destruct (implb bR hR && implb bW hW) eqn:Himp.
  - apply andb_true_iff in Himp as [I1 I2].
    destruct (trigger_two tid w1 t fd p c bR bW Hr1 Hctx1) as (w2 & w3 & E2 & _ & E3 & Hf3 & Hr3).
    + intros Hb. rewrite Hb in I1. by apply bool_decide_eq_true in I1.
    + intros Hb. rewrite Hb in I2. by apply bool_decide_eq_true in I2.
    + rewrite Hint. rewrite !fc_events_clear_if. cbn zeta in Hleft. fold bR bW in Hleft. rewrite <- Hleft. cbv zeta.
      by destruct (Z.ldiff (fc_events c) real =? 0).
    + exists w3. erewrite bind_Ret by exact E2. split; [exact E3|]. split; [by transitivity w1|done].
  - change (negb (Z.land real READ =? 0)) with bR. change (negb (Z.land real WRITE =? 0)) with bW.
    destruct (implb bR hR) eqn:I1; simpl in Himp.
    + destruct (trigger_if_ok tid w1 t fd p c READ bR Hr1 Hctx1) as (w2 & E2 & _ & _ & Hc2 & _); [by left| |].
      { intros Hb. rewrite Hb in I1. by apply bool_decide_eq_true in I1. }
      erewrite bind_Ret by exact E2. destruct bW; [|done]. eapply trigger_if_absent; [exact Hc2|].
      rewrite fc_events_clear_if, has_cleared by first [done|by left|by right|apply Hok].
      rewrite HW. exact Himp.
    + destruct bR; [|done]. apply bind_UB. eapply trigger_if_absent; [exact Hctx1|]. rewrite HR. exact I1.
Qed.

(** ** Growing the table of contexts *)

Definition empty_ctx (fd : Z) : Ctx := mkFdContext no_event no_event fd NONE.

Lemma empty_ctx_ok fd : ctx_ok (empty_ctx fd).
Proof. split; [rewrite elem_of_cons; by left|]. by intros e [->| ->]. Qed.

(** Contexts are added, nothing else changes. *)
Definition with_ctxs (cs : gmap Z Ctx) (n : Z) (w : W) : W :=
  set_ext (set_derived (mkIOM (kern (io w)) (timers (io w)) (m_pendingEventCount (io w)) cs n
    (m_fdContexts (io w))) (ext w)) w.

Definition fresh_ctxs (w : W) : Prop := forall p, is_Some (contexts (io w) !! p) -> p < next_context (io w).

(** Entry [j] of the filled vector. *)
Definition filled (i : nat) (cs cs' : gmap Z Ctx) (o : option Z) (j : nat) (o' : option (option Z)) : Prop :=
  exists p, o' = Some (Some p) /\
    match o with
    | Some q => p = q
    | None => cs !! p = None /\ cs' !! p = Some (empty_ctx (Z.of_nat (i + j)))
    end.

Lemma fill_ok l : forall i w, fresh_ctxs w -> exists l' cs n,
  fill i l w = Ret l' (with_ctxs cs n w) /\ length l' = length l /\ contexts (io w) ⊆ cs /\
  fresh_ctxs (with_ctxs cs n w) /\
  forall j o, l !! j = Some o -> filled i (contexts (io w)) cs o j (l' !! j).
Proof.
  induction l as [|[q|] l IH]; intros i w Hw.
  - exists [], (contexts (io w)), (next_context (io w)). simpl. split_and!; try done.
    unfold with_ctxs, io. destruct w as [? ? ? ? ? [? ? ? ? ? ? ? ? ? ? []]]. done.
  - destruct (IH (S i) w Hw) as (l' & cs & n & E & Hlen & Hsub & Hfr & Hj).
    exists (Some q :: l'), cs, n. split; [simpl; by erewrite bind_Ret by exact E|].
    split_and!; [simpl; by f_equal|done|done|]. intros [|j] o Ho; simpl in Ho.
    + simplify_eq. by exists q.
    + destruct (Hj j o Ho) as (p & Ep & Hp). exists p. split; [exact Ep|]. by rewrite Nat.add_succ_r.
  - set (p0 := next_context (io w)).
    set (w1 := with_ctxs (<[p0 := empty_ctx (Z.of_nat i)]> (contexts (io w))) (p0 + 1) w).
    assert (contexts (io w) !! p0 = None) as Hnew.
    { destruct (contexts (io w) !! p0) eqn:E; [|done]. assert (p0 < p0); [|lia]. apply Hw. eauto. }
    destruct (IH (S i) w1) as (l' & cs & n & E & Hlen & Hsub & Hfr & Hj).
    { intros p Hp. unfold w1, io in *. simpl in *. fold (io w) in *.
      apply lookup_insert_is_Some in Hp as [<-|[_ Hp]]; [lia|]. apply Hw in Hp. unfold p0. lia. }
    assert (contexts (io w) ⊆ cs) as Hsub'.
    { etransitivity; [|exact Hsub]. by apply insert_subseteq. }
    exists (Some p0 :: l'), cs, n. split.
    { simpl. erewrite bind_Ret by reflexivity. erewrite (bind_Ret (set_io _)) by reflexivity.
      change (set_ext _ w) with w1. by erewrite bind_Ret by exact E. }
    split_and!; [simpl; by f_equal|done|exact Hfr|]. intros [|j] o Ho; simpl in Ho.
    + simplify_eq. exists p0. split; [done|]. split; [done|]. rewrite Nat.add_0_r.
      eapply lookup_weaken; [|exact Hsub]. apply lookup_insert_eq.
    + destruct (Hj j o Ho) as (p & Ep & Hp). exists p. split; [exact Ep|]. rewrite Nat.add_succ_r.
      destruct o; [done|]. destruct Hp as [Hp1 Hp2]. split; [|done].
      unfold w1, io in Hp1. simpl in Hp1. fold (io w) in Hp1. by apply lookup_insert_None in Hp1 as [? _].
Qed.

Definition same_rest (w w' : W) : Prop :=
  heap w' = heap w /\ locals w' = locals w /\ kern (io w') = kern (io w) /\ m_fibers (ext w') = m_fibers (ext w).

Lemma resize_ok w t n : refines w t -> (length (m_fdContexts (io w)) <= Z.to_nat n)%nat ->
  exists w', contextResize n w = Ret tt w' /\ same_rest w w' /\ refines w' t /\
    length (m_fdContexts (io w')) = Z.to_nat n.
Proof.
  intros Hr Hn. unfold contextResize. erewrite (bind_Ret (gets io)) by reflexivity.
  destruct (fill_ok (resize (Z.to_nat n) None (m_fdContexts (io w))) 0 w (r_fresh _ _ _ Hr))
    as (l' & cs & nx & E & Hlen & Hsub & Hfr & Hj).
  rewrite length_resize in Hlen. erewrite bind_Ret by exact E.
  eexists. split; [reflexivity|]. set (w' := set_ext _ _).
  assert (m_fdContexts (io w') = l') as Ht by done. assert (contexts (io w') = cs) as Hcs by done.
  assert (forall fd, Z.of_nat (length (m_fdContexts (io w))) <= fd -> ctx_of w fd = None) as Hout.
  { intros fd Hfd. unfold ctx_of. destruct (fd <? 0); [done|]. by rewrite lookup_ge_None_2 by lia. }
  assert (forall fd p c, ctx_of w fd = Some (p, c) -> ctx_of w' fd = Some (p, c)) as Hold.
  { intros fd p c Hctx. destruct (ctx_of_range _ _ _ _ Hctx) as (Hrg & Hpc & El).
    destruct (Hj (Z.to_nat fd) (Some p)) as (p' & Ep & ->).
    { rewrite lookup_resize by lia. done. }
    unfold ctx_of. rewrite Ht, Hcs, Ep. destruct (fd <? 0) eqn:?; [lia|].
    by rewrite (lookup_weaken _ _ _ _ Hpc Hsub). }
  assert (forall fd, Z.of_nat (length (m_fdContexts (io w))) <= fd < Z.of_nat (length l') ->
    exists p, ctx_of w' fd = Some (p, empty_ctx fd)) as Hnew.
  { intros fd Hfd. destruct (Hj (Z.to_nat fd) None) as (p & Ep & _ & Hp).
    { rewrite resize_ge, lookup_app_r by lia. apply lookup_replicate. split; [done|lia]. }
    exists p. unfold ctx_of. rewrite Ht, Hcs, Ep, Hp. simpl. rewrite Z2Nat.id by lia.
    by destruct (fd <? 0) eqn:?; [lia|]. }
  assert (forall fd, Z.of_nat (length l') <= fd -> ctx_of w' fd = None) as Hout'.
  { intros fd Hfd. unfold ctx_of. rewrite Ht. destruct (fd <? 0); [done|]. by rewrite lookup_ge_None_2 by lia. }
  split; [done|]. split; [constructor|by rewrite Ht].
  - intros fd Hfd. rewrite Ht in Hfd. destruct (decide (fd < Z.of_nat (length (m_fdContexts (io w))))) as [Hlt|Hge].
    + destruct (r_table _ _ _ Hr fd) as (p & c & Hctx & ? & ?); [lia|]. exists p, c. split; [by apply Hold|done].
    + destruct (Hnew fd) as (p & Hctx); [lia|]. exists p, (empty_ctx fd). split; [done|]. split; [done|apply empty_ctx_ok].
  - exact Hfr.
  - intros fd e. rewrite (r_events _ _ _ Hr). destruct (_ || _); [|done]. unfold event_at.
    destruct (ctx_of w fd) as [[p c]|] eqn:Hctx; [by rewrite (Hold _ _ _ Hctx)|].
    destruct (decide (0 <= fd)) as [Hpos|]; [|by unfold ctx_of; destruct (fd <? 0) eqn:?; [|lia]].
    destruct (decide (fd < Z.of_nat (length (m_fdContexts (io w))))) as [Hlt|Hge].
    { destruct (r_table _ _ _ Hr fd) as (p & c & Hctx' & _); [lia|congruence]. }
    destruct (decide (fd < Z.of_nat (length l'))) as [Hlt|Hge']; [|by rewrite Hout' by lia].
    destruct (Hnew fd) as (p & ->); [lia|]. done.
  - apply (r_pending _ _ _ Hr).
  - intros fd Hfd _. change (kern (io w')) with (kern (io w)). rewrite (r_interest _ _ _ Hr) by done. unfold wanted.
    destruct (ctx_of w fd) as [[p c]|] eqn:Hctx; [by rewrite (Hold _ _ _ Hctx)|].
    destruct (decide (fd < Z.of_nat (length (m_fdContexts (io w))))) as [Hlt|Hge].
    { destruct (r_table _ _ _ Hr fd) as (p & c & Hctx' & _); [lia|congruence]. }
    destruct (decide (fd < Z.of_nat (length l'))) as [Hlt|Hge']; [|by rewrite Hout' by lia].
    destruct (Hnew fd) as (p & ->); [lia|]. done.
  - apply (r_queue _ _ _ Hr).
Qed.

Lemma find_or_grow_ok w t fd : refines w t -> big w -> 0 <= fd ->
  exists w' p c, find_or_grow fd w = Ret p w' /\ same_rest w w' /\ refines w' t /\ big w' /\
    ctx_of w' fd = Some (p, c).
Proof.
  intros Hr Hbig Hfd. unfold find_or_grow. erewrite (bind_Ret (gets (too_small fd))) by reflexivity.
  pose proof (small_ctx w t fd Hr Hfd) as Hs. destruct (too_small fd w) eqn:Hsm.
  - unfold too_small in Hsm. apply Z.leb_le in Hsm. unfold big in Hbig.
    assert (fd + 1 <= fd * 3 / 2) as Hn by (apply Z.div_le_lower_bound; lia).
    revert Hn. generalize (fd * 3 / 2). intros n Hn.
    destruct (resize_ok w t n Hr) as (w' & E & Hsame & Hr' & Hlen); [lia|].
    pose proof (small_ctx w' t fd Hr' Hfd) as Hs'. unfold too_small in Hs'. rewrite Hlen in Hs'.
    destruct (Z.of_nat (Z.to_nat n) <=? fd) eqn:Hbad; [apply Z.leb_le in Hbad; lia|].
    destruct Hs' as (p & c & Hctx & Hat). exists w', p, c.
    erewrite bind_Ret by exact E. split_and!; try done. unfold big. lia.
  - destruct Hs as (p & c & Hctx & Hat). exists w, p, c. by split_and!.
Qed.

(** ** [addEvent] *)

(** What [addEvent] stores: the thread's scheduler, and the callback or the fiber that runs. *)
Definition runs_fiber (tid : Z) (w : W) (a : Z) : Prop :=
  t_fiber (locals_of tid w) = Some a /\ exists f, heap w !! a = Some f /\ m_state f = EXEC.

Definition new_task (tid : Z) (w : W) (cb : option CB) (ec : @EventContext F) : Prop :=
  is_Some (t_scheduler (locals_of tid w)) /\
  match cb with
  | Some cb => ec = mkEC (t_scheduler (locals_of tid w)) None (Some cb)
  | None => exists a, runs_fiber tid w a /\ ec = mkEC (t_scheduler (locals_of tid w)) (Some a) None
  end.

Lemma new_task_ok tid w cb ec : new_task tid w cb ec -> ec_ok true ec.
Proof.
  intros [Hs Ht]. destruct cb as [cb|]; [subst ec|destruct Ht as (a & _ & ->)]; split; eauto.
Qed.

Lemma add_bits v e : Z.lor (Z.lor EPOLLET v) e = Z.lor EPOLLET (Z.lor v e).
Proof. by rewrite Z.lor_assoc. Qed.

(** The world after a successful [addEvent]. *)
Definition with_event (p : Z) (c : Ctx) (w1 : W) : W :=
  put_ctx p c (set_ext (set_derived (add_pending 1 (io w1)) (ext w1)) w1).

Lemma addEvent_store tid p e cb ec c (w w1 : W) : is_event e -> event_of e c = no_event ->
  contexts (io w1) !! p = Some c -> heap w1 = heap w -> locals w1 = locals w -> new_task tid w cb ec ->
  (set_io (add_pending 1) ;;
   store_ctx p (set_events (Z.lor (fc_events c) e)) ;;
   let! ctx := getContext e c in
   assert_ (bool_decide (ec_scheduler ctx = None) && bool_decide (ec_fiber ctx = None)
            && bool_decide (ec_cb ctx = None)) ;;
   let! l := gets (locals_of tid) in
   store_ctx p (set_context e (mkEC (t_scheduler l) (ec_fiber ctx) (ec_cb ctx))) ;;
   (match cb with
    | Some cb => store_ctx p (set_context e (mkEC (t_scheduler l) (ec_fiber ctx) (Some cb)))
    | None =>
        let! fiber := GetThis tid in
        store_ctx p (set_context e (mkEC (t_scheduler l) (Some fiber) None)) ;;
        let! f := load fiber in
        assert_ (state_is (m_state f) EXEC)
    end) ;;
   ret 0) w1 = Ret 0 (with_event p (added e ec c) w1).
Proof.
  intros He Hno Hpc Hh Hl [Hs Htask]. unfold with_event.
  erewrite bind_Ret by reflexivity. erewrite bind_Ret by (by apply store_ctx_ok).
  erewrite bind_Ret by (by apply getContext_ok). rewrite Hno. erewrite bind_Ret by reflexivity.
  erewrite bind_Ret by reflexivity. erewrite bind_Ret by (apply store_ctx_ok, lookup_put). rewrite put_put.
  assert (forall w2 : W, locals w2 = locals w1 -> locals_of tid w2 = locals_of tid w) as Hloc.
  { intros w2 E. unfold locals_of. by rewrite E, Hl. }
  rewrite !Hloc by done. destruct cb as [cb|].
  - subst ec. erewrite bind_Ret by (apply store_ctx_ok, lookup_put). rewrite put_put.
    by destruct He as [->| ->].
  - destruct Htask as (a & (Ha & f & Hf & Hex) & ->).
    destruct He as [->| ->]; (erewrite bind_Ret; [reflexivity|]);
    erewrite bind_Ret by (apply GetThis_ok; [rewrite Hloc by done; exact Ha|simpl; rewrite Hh; by exists f]);
    erewrite bind_Ret by (apply store_ctx_ok, lookup_put); rewrite put_put;
    erewrite bind_Ret by (apply (load_ok _ _ f); simpl; by rewrite Hh); by rewrite Hex.
Qed.

Lemma addEvent_ok tid w t fd e cb ec : refines w t -> big w -> 0 <= fd -> is_event e -> new_task tid w cb ec ->
  match t_events t !! (fd, e) with
  | Some _ => addEvent tid fd e cb w = UB AssertFailed
  | None =>
      if pollable (kern (io w)) fd
      then exists w', addEvent tid fd e cb w = Ret 0 w' /\ big w' /\
             refines w' (mkTable (<[(fd, e) := task_of_ec ec]> (t_events t)) (t_queue t))
      else exists w', addEvent tid fd e cb w = Ret (-1) w' /\ big w' /\ refines w' t
  end.
Proof.
  intros Hr0 Hbig0 Hfd He Htask.
  destruct (find_or_grow_ok w t fd Hr0 Hbig0 Hfd) as (w1 & p & c & E & (Hh & Hl & Hk & Hq) & Hr & Hbig & Hctx).
  unfold addEvent. erewrite (bind_Ret (find_or_grow fd)) by exact E. unfold addEvent_locked.
  destruct (ctx_of_range _ _ _ _ Hctx) as (_ & Hpc & _). destruct (ctx_of_fd _ _ _ _ _ _ Hr Hctx) as [_ Hok].
  erewrite (bind_Ret (load_ctx p)) by (by apply load_ctx_ok).
  rewrite (here_iff _ _ _ _ _ _ _ Hr Hctx He). unfold ctx_event.
  destruct (Z.land (fc_events c) e =? 0) eqn:Hn; [|done]. erewrite (bind_Ret (assert_ true)) by reflexivity.
  assert (event_of e c = no_event) as Hno.
  { pose proof (proj2 Hok e He) as Hec. by rewrite Hn in Hec. }
  destruct (ctl_ok (if fc_events c =? 0 then EPOLL_CTL_ADD else EPOLL_CTL_MOD) fd
    (Z.lor (Z.lor EPOLLET (fc_events c)) e) p w1) as (rt & w2 & Ec & Hsame & Hrt & Hint).
  { rewrite (interest_here _ _ _ _ _ Hr Hctx). by destruct (fc_events c =? 0). }
  erewrite (bind_Ret (sys _)) by exact Ec. rewrite Hrt, Hk. rewrite Hk in Hint.
  destruct (pollable (kern (io w)) fd); cbn [negb].
  2: { exists w2. split; [done|]. split; [|by eapply refines_same].
       unfold big. by rewrite (f_fds _ _ (proj1 Hsame)). }
  destruct Hsame as (Hf2 & Hc2 & Hp2 & Hq2). eexists. split.
  { apply (addEvent_store tid p e cb ec c w w2); try done; [by rewrite Hc2| |].
    - by rewrite (f_heap _ _ Hf2).
    - by rewrite (f_locals _ _ Hf2). }
  split; [unfold big; simpl; by rewrite (f_fds _ _ Hf2)|].
  destruct (fc_set e ec (Z.lor (fc_events c) e) c) as [Ead _].
  apply (add_refines w1 t fd p c Hr Hctx); try done.
  - rewrite (here_iff _ _ _ _ _ _ _ Hr Hctx He). unfold ctx_event. by rewrite Hn.
  - by eapply new_task_ok.
  - apply (f_fds _ _ Hf2).
  - apply (f_next _ _ Hf2).
  - unfold with_event, put_ctx, io. simpl. fold (io w2). by rewrite Hc2.
  - unfold with_event, put_ctx, io. simpl. fold (io w2). by rewrite Hp2.
  - intros fd'. change (kern (io (with_event p (added e ec c) w2))) with (kern (io w2)).
    rewrite Hint, <- Hk, add_bits. unfold added. rewrite Ead.
    assert (Z.lor (fc_events c) e =? 0 = false) as ->; [|by destruct (fc_events c =? 0)].
    destruct Hok as [Hin _]. rewrite !elem_of_cons, elem_of_nil in Hin.
    by destruct Hin as [->|[->|[->|[->|[]]]]], He as [->| ->].
Qed.

(** C7: the operations on events implement the table. [addEvent] puts the callback, or the
    fiber that runs, under a descriptor and an event; [delEvent] takes it out,
    [cancelEvent] takes it out and schedules it, [cancelAll] does so for both events, the
    reader first. Each returns [false] (or [-1]) and leaves the table as it is when the event is
    not there or [epoll] refuses the descriptor; adding an event twice aborts. With the table the
    pending count is its size and the kernel's interest list is the one it stands for, and
    descriptors beyond the table of contexts make it grow. *)
Theorem events_refined tid w t fd e : refines w t -> big w -> 0 <= fd -> is_event e ->
  (forall cb ec, new_task tid w cb ec ->
     match t_events t !! (fd, e), pollable (kern (io w)) fd with
     | Some _, _ => addEvent tid fd e cb w = UB AssertFailed
     | None, true => exists w', addEvent tid fd e cb w = Ret 0 w' /\ big w' /\
         refines w' (mkTable (<[(fd, e) := task_of_ec ec]> (t_events t)) (t_queue t))
     | None, false => exists w', addEvent tid fd e cb w = Ret (-1) w' /\ big w' /\ refines w' t
     end) /\
  match t_events t !! (fd, e), pollable (kern (io w)) fd with
  | None, _ => delEvent fd e w = Ret false w /\ cancelEvent tid fd e w = Ret false w
  | Some _, false => (exists w', delEvent fd e w = Ret false w' /\ refines w' t) /\
      exists w', cancelEvent tid fd e w = Ret false w' /\ refines w' t
  | Some ft, true =>
      (exists w', delEvent fd e w = Ret true w' /\ big w' /\
         refines w' (mkTable (delete (fd, e) (t_events t)) (t_queue t))) /\
      exists w', cancelEvent tid fd e w = Ret true w' /\ big w' /\
         refines w' (mkTable (delete (fd, e) (t_events t)) (t_queue t ++ [ft]))
  end /\
  (if negb (in_table t fd READ) && negb (in_table t fd WRITE) then cancelAll tid fd w = Ret false w
   else exists w', cancelAll tid fd w = Ret (pollable (kern (io w)) fd) w' /\
     refines w' (if pollable (kern (io w)) fd then take_event fd WRITE (take_event fd READ t) else t)).
Proof.
  intros Hr Hbig Hfd He.
  assert (forall w' : W, frame w w' -> big w') as Hkeep by (intros w' Hf; unfold big; by rewrite (f_fds _ _ Hf)).
  split_and!.
  - intros cb ec Htask. pose proof (addEvent_ok tid w t fd e cb ec Hr Hbig Hfd He Htask) as H1.
    destruct (t_events t !! (fd, e)), (pollable (kern (io w)) fd); done.
  - pose proof (delEvent_ok w t fd e Hr Hfd He) as H1. pose proof (cancelEvent_ok tid w t fd e Hr Hfd He) as H2.
    destruct (t_events t !! (fd, e)) as [ft|]; [|done].
    destruct (pollable (kern (io w)) fd), H1 as (w1 & ? & ? & ?), H2 as (w2 & ? & ? & ?);
      (split; [exists w1|exists w2]; split_and!; auto).
  - pose proof (cancelAll_ok tid w t fd Hr Hfd) as H1. unfold in_table.
    assert (forall o : option Ft, bool_decide (o = None) = negb (bool_decide (is_Some o))) as Hneg.
    { intros [ft|]; [by rewrite (bool_decide_eq_true_2 (is_Some _))|
        by rewrite (bool_decide_eq_false_2 (is_Some _)) by (intros [? ?]; done)]. }
    rewrite !Hneg in H1. destruct (negb _ && negb _); [done|].
    destruct (pollable (kern (io w)) fd); destruct H1 as (w1 & ? & _ & ?); eauto.
Qed.

(** C39: what the idle fiber does with an event the kernel reports for a context. The bits
    stand for READ and WRITE, for both of them on an error or a hang-up. Nothing happens when the
    descriptor has neither of these events any more, or [epoll] refuses the change; when it
    has all of them, they leave the table and their tasks are scheduled, once, the reader first;
    when it has only one of the two, the assertion in [triggerEvent] fails. *)
Theorem process_event_spec fuel tid w t fd p c bits : refines w t -> ctx_of w fd = Some (p, c) ->
  let real := real_events bits in
  let bR := has real READ in let bW := has real WRITE in
  let hR := in_table t fd READ in let hW := in_table t fd WRITE in
  let run := process_event fuel tid (mkEvent bits (ctx_ptr p)) w in
  (negb (bR && hR) && negb (bW && hW) = true -> run = Ret tt w) /\
  (negb (bR && hR) && negb (bW && hW) = false -> pollable (kern (io w)) fd = false ->
     exists w', run = Ret tt w' /\ refines w' t) /\
  (negb (bR && hR) && negb (bW && hW) = false -> pollable (kern (io w)) fd = true ->
     if implb bR hR && implb bW hW
     then exists w', run = Ret tt w' /\ refines w' (take_if fd WRITE bW (take_if fd READ bR t))
     else run = UB AssertFailed).
Proof.
  intros Hr Hctx real bR bW hR hW run. pose proof (process_event_ok fuel tid w t fd p c bits Hr Hctx) as H1.
  cbv zeta in H1. fold real bR bW hR hW run in H1. split_and!.
  - intros Hn. by rewrite Hn in H1.
  - intros Hn Hp. rewrite Hn, Hp in H1. destruct H1 as (w' & ? & _ & ?). eauto.
  - intros Hn Hp. rewrite Hn, Hp in H1. cbn [negb] in H1. destruct (implb bR hR && implb bW hW); [|done].
    destruct H1 as (w' & ? & _ & ?). eauto.
Qed.

(** [addEvent] decides to grow the table under the read lock and grows it, by half of
    its own descriptor, under the write lock, without looking again. A thread that decided so
    for [fd2] before another one grew the table for a larger [fd1] shrinks it: the event
    of [fd1] stays in the kernel's interest list, and neither [delEvent] nor [cancelEvent] nor
    [cancelAll] finds it. *)
Theorem grow_race tid w t fd1 fd2 e cb ec : refines w t -> big w -> 0 <= fd2 -> fd2 * 3 / 2 <= fd1 ->
  is_event e -> new_task tid w (Some cb) ec -> t_events t !! (fd1, e) = None ->
  pollable (kern (io w)) fd1 = true -> too_small fd2 w = true ->
  exists w1 w2, addEvent tid fd1 e (Some cb) w = Ret 0 w1 /\ contextResize (fd2 * 3 / 2) w1 = Ret tt w2 /\
    delEvent fd1 e w2 = Ret false w2 /\ cancelEvent tid fd1 e w2 = Ret false w2 /\
    cancelAll tid fd1 w2 = Ret false w2 /\ is_Some (interest (kern (io w2)) fd1) /\
    m_pendingEventCount (io w2) = u64 (Z.of_nat (S (size (t_events t)))).
Proof.
  intros Hr Hbig Hfd2 Hle He Htask Hno Hpoll _.
  assert (0 <= fd2 * 3 / 2) as Hpos by (apply Z.div_pos; lia).
  revert Hle Hpos. generalize (fd2 * 3 / 2). intros n Hle Hpos.
  pose proof (addEvent_ok tid w t fd1 e (Some cb) ec Hr Hbig ltac:(lia) He Htask) as H1.
  rewrite Hno, Hpoll in H1. destruct H1 as (w1 & E1 & _ & Hr1).
  destruct (fill_ok (resize (Z.to_nat n) None (m_fdContexts (io w1))) 0 w1 (r_fresh _ _ _ Hr1))
    as (l' & cs & nx & E & Hlen & _). rewrite length_resize in Hlen.
  exists w1. eexists. split; [done|]. split.
  { unfold contextResize. erewrite (bind_Ret (gets io)) by reflexivity. erewrite bind_Ret by exact E. reflexivity. }
  set (w2 := set_ext _ _).
  assert (too_small fd1 w2 = true) as Hsmall by (unfold too_small, w2, io; simpl; apply Z.leb_le; lia).
  unfold delEvent, cancelEvent, cancelAll.
  erewrite !(bind_Ret (gets (too_small fd1))) by reflexivity. rewrite Hsmall. split_and!; try done.
  - change (kern (io w2)) with (kern (io w1)). rewrite (r_interest _ _ _ Hr1) by (done || lia).
    pose proof (r_events _ _ _ Hr1 fd1 e) as Hev. simpl in Hev. rewrite lookup_insert_eq in Hev.
    unfold wanted, event_at, ctx_event in *.
    assert (bool_decide (e = READ) || bool_decide (e = WRITE) = true) as Hb by (by destruct He as [->| ->]).
    rewrite Hb in Hev. destruct (ctx_of w1 fd1) as [[p c]|]; [|done].
    destruct (fc_events c =? 0) eqn:Hz; [|by eexists]. apply Z.eqb_eq in Hz. by rewrite Hz in Hev.
  - change (m_pendingEventCount (io w2)) with (m_pendingEventCount (io w1)).
    rewrite (r_pending _ _ _ Hr1). cbn [t_events]. by rewrite map_size_insert_None.
Qed.
End Spec.

(** the time the idle fiber waits for events. It is at most three seconds, and for a
    timer due within [2^31] ms at most until then; but a timer due later than that is cast to
    a negative number, for which [epoll_wait] waits without end. *)
Theorem wait_timeout_bounds next_timeout : in_u 64 next_timeout ->
  wait_timeout next_timeout <= 3000 /\
  (next_timeout = 2 ^ 64 - 1 -> wait_timeout next_timeout = 3000) /\
  (next_timeout < 2 ^ 31 -> wait_timeout next_timeout = Z.min next_timeout 3000) /\
  (2 ^ 31 <= next_timeout < 2 ^ 32 -> wait_timeout next_timeout < 0).
Proof.
  intros [H1 H2]. unfold wait_timeout. change (2 ^ 64 - 1) with 18446744073709551615.
  change (2 ^ 31) with 2147483648. change (2 ^ 32) with 4294967296. change (2 ^ 64) with 18446744073709551616 in H2.
  assert (s32 3000 = 3000) as Hs by reflexivity.
  destruct (next_timeout =? 18446744073709551615) eqn:E; cbn [negb].
  - apply Z.eqb_eq in E. rewrite Hs. lia.
  - apply Z.eqb_neq in E. destruct (3000 <? s32 next_timeout) eqn:E2.
    + apply Z.ltb_lt in E2. rewrite Hs. split_and!; try lia.
      * intros Hlt. rewrite wraps_small in E2 by (unfold in_s; simpl; lia). lia.
      * intros [Hge Hlt]. exfalso. unfold wraps in E2. change (2 ^ 32) with 4294967296 in E2.
        change (2 ^ (32 - 1)) with 2147483648 in E2. rewrite Z.mod_small in E2 by lia.
        destruct (next_timeout <? 2147483648) eqn:E3; lia.
    + apply Z.ltb_ge in E2. split_and!; try lia.
      * intros Hlt. rewrite wraps_small in * by (unfold in_s; simpl; lia). lia.
      * intros [Hge Hlt]. unfold wraps. change (2 ^ 32) with 4294967296.
        change (2 ^ (32 - 1)) with 2147483648. rewrite Z.mod_small by lia.
        destruct (next_timeout <? 2147483648) eqn:E3; lia.
Qed.

Lemma wait_timeout_bounds_witness : wait_timeout (2 ^ 31) < 0.
Proof. exact (proj2 (proj2 (proj2 (wait_timeout_bounds (2 ^ 31) ltac:(unfold in_u; lia)))) ltac:(lia)). Defined.

(** ** A kernel that is a list of descriptors and an interest list *)

Notation table_epoll := (list Z * gmap Z (Z * Z))%type.

Definition ctl_ok_b (k : table_epoll) (op : epoll_op) (fd : Z) : bool :=
  bool_decide (fd ∈ k.1) &&
  match op with EPOLL_CTL_ADD => bool_decide (k.2 !! fd = None) | _ => bool_decide (is_Some (k.2 !! fd)) end.

#[export] Instance table_EventKernel : EventKernel table_epoll := {|
  GetCurrentMS _ := 0;
  epoll_create k := (3, k);
  pipe k := (0, k);
  fcntl_nonblock k := (0, k);
  epoll_add_tickle k := (0, k);
  epoll_ctl k op fd ev p :=
    if ctl_ok_b k op fd
    then (0, (k.1, match op with EPOLL_CTL_DEL => delete fd k.2 | _ => <[fd := (ev, p)]> k.2 end))
    else (-1, k);
  epoll_wait k _ := (Ready [], k);
  write_tickle k := (1, k);
  read_tickle k := (-1, k)
|}.

#[export] Instance table_KernelLaws : KernelLaws table_epoll.
Proof.
  refine {| pollable k fd := bool_decide (fd ∈ k.1); interest k fd := k.2 !! fd |}; simpl.
  - intros k op fd ev p. unfold ctl_ok_b. destruct (bool_decide (fd ∈ k.1)); simpl; [|by split; [|intros [? _]]].
    destruct op; (case_bool_decide; simpl; split; [done|done|done|by intros [_ ?]]).
  - intros k op fd ev p. destruct (ctl_ok_b k op fd); simpl; [|done]. intros _ fd'.
    destruct (fd' =? fd) eqn:E.
    + apply Z.eqb_eq in E as ->. destruct op; [apply lookup_insert_eq|apply lookup_insert_eq|apply lookup_delete_eq].
    + apply Z.eqb_neq in E. destruct op; simpl; by rewrite ?lookup_insert_ne, ?lookup_delete_ne by congruence.
  - intros k op fd ev p. by destruct (ctl_ok_b k op fd).
  - done.
  - done.
  - done.
Defined.

Notation io_W := (@World (@callback (@Timer.callback nat)) (@cont nat) (@Sched (@Timer.callback nat) (@IOM nat table_epoll))).

(** Descriptors 5 and 100 can be polled; thread 7 belongs to the scheduler and runs its
    main fiber. *)
Definition io_start : io_W :=
  mkWorld {[ 0 := mkFiber 0 0 no_context 0 None EXEC ]} 1 0 1
    {[ 7 := mkLocals (Some 0) (Some 0) (Some 0) (Some 99) ]}
    (mkSched [] [] None [] (-1) 1 0 0 true false
       (mkIOM ([5; 100], ∅) (Timer.new_TimerManager 0) 0 ∅ 0 [])).

Definition after {A} (m : M io_W A) (w : io_W) : io_W := match m w with Ret _ w' => w' | _ => w end.
Definition io_empty : io_W := after (contextResize 32) io_start.

Lemma io_start_refines : refines io_start (mkTable ∅ []).
Proof.
  constructor; simpl; try done.
  - intros fd Hfd. lia.
  - intros p [c Hc]. done.
  - intros fd e. unfold event_at, ctx_of. simpl. rewrite lookup_empty. by destruct (_ || _), (fd <? 0).
  - intros fd Hfd _. unfold wanted, ctx_of. simpl. by destruct (fd <? 0).
Qed.

Lemma io_empty_refines : refines io_empty (mkTable ∅ []) /\ big io_empty.
Proof.
  destruct (resize_ok io_start _ 32 io_start_refines) as (w & E & _ & Hr & Hlen); [simpl; lia|].
  unfold io_empty, after. rewrite E. split; [done|]. unfold big. rewrite Hlen. done.
Qed.

Definition demo_cb : @callback (@Timer.callback nat) := user_cb (Timer.plain 1%nat).
Definition demo_ec : @EventContext nat := mkEC (Some 99) None (Some demo_cb).

Lemma demo_task : new_task 7 io_empty (Some demo_cb) demo_ec.
Proof. split; [by exists 99|reflexivity]. Qed.

Lemma demo_pollable : pollable (kern (io io_empty)) 5 = true.
Proof. vm_compute. reflexivity. Qed.

Lemma events_refined_witness :
  exists w', addEvent 7 5 READ (Some demo_cb) io_empty = Ret 0 w' /\ big w' /\
    refines w' (mkTable {[ (5, READ) := FT_of_cb (Some demo_cb) (-1) ]} []).
Proof.
  destruct io_empty_refines as [Hr Hbig].
  pose proof (proj1 (events_refined 7 io_empty (mkTable ∅ []) 5 READ Hr Hbig ltac:(lia) ltac:(by left))
    (Some demo_cb) demo_ec demo_task) as H.
  rewrite demo_pollable in H. cbn [t_events] in H. rewrite lookup_empty in H. exact H.
Defined.

Definition io_reading : io_W := after (addEvent 7 5 READ (Some demo_cb)) io_empty.

Lemma io_reading_refines : refines io_reading (mkTable {[ (5, READ) := FT_of_cb (Some demo_cb) (-1) ]} []).
Proof.
  destruct io_empty_refines as [Hr Hbig].
  pose proof (addEvent_ok 7 io_empty (mkTable ∅ []) 5 READ _ _ Hr Hbig ltac:(lia) ltac:(by left) demo_task) as H.
  rewrite demo_pollable in H. cbn [t_events] in H. rewrite lookup_empty in H. destruct H as (w' & E & _ & Hr').
  unfold io_reading, after. rewrite E. exact Hr'.
Qed.

(** A hang-up of a descriptor that only a reader waits for. *)
Lemma process_event_spec_witness :
  exists p, process_event 10 7 (mkEvent EPOLLHUP (ctx_ptr p)) io_reading = UB AssertFailed.
Proof.
  assert (exists p c, ctx_of io_reading 5 = Some (p, c)) as (p & c & Hctx).
  { destruct (ctx_of io_reading 5) as [[p c]|] eqn:E; [eauto|]. vm_compute in E. done. }
  exists p.
  destruct (process_event_spec 10 7 io_reading _ 5 p c EPOLLHUP io_reading_refines Hctx) as (_ & _ & H).
  assert (forall t, t = mkTable {[ (5, READ) := FT_of_cb (Some demo_cb) (-1) ]} [] ->
    implb (has (real_events EPOLLHUP) READ) (in_table t 5 READ) &&
    implb (has (real_events EPOLLHUP) WRITE) (in_table t 5 WRITE) = false) as Hb by (intros t ->; vm_compute; reflexivity).
  rewrite (Hb _ eq_refl) in H. apply H; vm_compute; reflexivity.
Defined.

Lemma grow_race_witness :
  exists w1 w2, addEvent 7 100 READ (Some demo_cb) io_empty = Ret 0 w1 /\
    contextResize (40 * 3 / 2) w1 = Ret tt w2 /\ delEvent 100 READ w2 = Ret false w2.
Proof.
  destruct io_empty_refines as [Hr Hbig].
  destruct (grow_race 7 io_empty (mkTable ∅ []) 100 40 READ demo_cb demo_ec Hr Hbig ltac:(lia)
    ltac:(vm_compute; done) ltac:(by left) demo_task ltac:(reflexivity) ltac:(vm_compute; reflexivity)
    ltac:(vm_compute; reflexivity)) as (w1 & w2 & E1 & E2 & E3 & _).
  exists w1, w2. split; [exact E1|]. split; [exact E2|exact E3].
Defined.
