(* ===== verification/Hook.v ===== *)
(** * Hook: the system calls of [sylar/hook.h] and [hook.cpp]

    The hooked calls run as user code of fibers on an [IOManager]. What the hooks add to
    the process (the descriptor table of [FdManager], [errno], the flag [t_hook_enable] of
    every thread, the [timer_info]s and the connect timeout) is the record [Process]
    around the system, and takes the place of the kernel in the world of [IOManager].
    The system itself, with the memory its calls read and write, is any type with the operations
    of [EventKernel], [FdKernel] and [SysKernel], the originals the hooks call.

    A hooked call returns, or yields with [YieldToHold] where the code after it is a
    [frame]; [resume] runs that code when the fiber is swapped in again. The programs of
    users are trees of hooked calls, [ucode]; [useg] runs them, as [Scheduler] asks.
    Addresses of new timers and contexts come from [timer_addr] and [ctx_addr]. [errno] is
    modelled where the hooks use it: the calls of [epoll] do not set it here. *)

From S2P Require Import Prelude FdManager Fiber Scheduler IOManager.
From S2P Require Timer.

Definition EINTR : Z := 4.
Definition EBADF : Z := 9.
Definition EAGAIN : Z := 11.
Definition ETIMEDOUT : Z := 110.
Definition EINPROGRESS : Z := 115.
Definition SOL_SOCKET : Z := 1.
Definition SO_ERROR : Z := 4.
Definition FIONBIO : Z := 21537.

Definition F_DUPFD : Z := 0.
Definition F_GETFD : Z := 1.
Definition F_SETFD : Z := 2.
Definition F_GETFL : Z := 3.
Definition F_SETFL : Z := 4.
Definition F_GETLK : Z := 5.
Definition F_SETLK : Z := 6.
Definition F_SETLKW : Z := 7.
Definition F_SETOWN : Z := 8.
Definition F_GETOWN : Z := 9.
Definition F_SETSIG : Z := 10.
Definition F_GETSIG : Z := 11.
Definition F_SETOWN_EX : Z := 15.
Definition F_GETOWN_EX : Z := 16.
Definition F_SETLEASE : Z := 1024.
Definition F_GETLEASE : Z := 1025.
Definition F_NOTIFY : Z := 1026.
Definition F_DUPFD_CLOEXEC : Z := 1030.
Definition F_SETPIPE_SZ : Z := 1031.
Definition F_GETPIPE_SZ : Z := 1032.

(** What a system call returns; an error returns [-1] and sets [errno]. *)
Inductive sysret := Ok (n : Z) | Err (e : Z).

(** The original calls, [dlsym]'s; pointers are addresses. [fcntl_f] is given its third
    argument or not. [getsockopt_int] is [getsockopt_f] into a local [int], which it
    returns too. *)
Class SysKernel (K : Type) := {
  sleep_f (k : K) (seconds : Z) : sysret * K;
  usleep_f (k : K) (usec : Z) : sysret * K;
  nanosleep_f (k : K) (req rem : Z) : sysret * K;
  socket_f (k : K) (domain type protocol : Z) : sysret * K;
  connect_f (k : K) (fd addr addrlen : Z) : sysret * K;
  accept_f (fd addr addrlen : Z) (k : K) : sysret * K;
  read_f (fd buf count : Z) (k : K) : sysret * K;
  readv_f (fd iov iovcnt : Z) (k : K) : sysret * K;
  recv_f (fd buf len flags : Z) (k : K) : sysret * K;
  recvfrom_f (fd buf len flags src_addr addrlen : Z) (k : K) : sysret * K;
  recvmsg_f (fd msg flags : Z) (k : K) : sysret * K;
  write_f (fd buf count : Z) (k : K) : sysret * K;
  writev_f (fd iov iovcnt : Z) (k : K) : sysret * K;
  send_f (fd buf len flags : Z) (k : K) : sysret * K;
  sendto_f (fd buf len flags dest_addr addrlen : Z) (k : K) : sysret * K;
  sendmsg_f (fd msg flags : Z) (k : K) : sysret * K;
  close_f (k : K) (fd : Z) : sysret * K;
  fcntl_f (k : K) (fd cmd : Z) (arg : option Z) : sysret * K;
  ioctl_f (k : K) (fd request arg : Z) : sysret * K;
  getsockopt_f (k : K) (fd level optname optval optlen : Z) : sysret * K;
  getsockopt_int (k : K) (fd level optname : Z) : sysret * Z * K;
  setsockopt_f (k : K) (fd level optname optval optlen : Z) : sysret * K;
  int_at (k : K) (p : Z) : Z;
  timespec_at (k : K) (p : Z) : Z * Z;
  timeval_at (k : K) (p : Z) : Z * Z
}.

Section Hooks.
Context {K : Type} `{!EventKernel K, !FdKernel K, !SysKernel K}.

(** ** The process *)

(* SRC sylar/hook.cpp:20 t_hook_enable *)
Record Process := mkProcess {
  fds : @FdManager K;
  errnos : gmap Z Z;
  hook_enabled : gmap Z bool;
  tinfos : gmap Z Z;
  next_tinfo : Z;
  s_connect_timeout : Z
}.

Definition set_fds (s : @FdManager K) (p : Process) : Process :=
  mkProcess s (errnos p) (hook_enabled p) (tinfos p) (next_tinfo p) (s_connect_timeout p).
Definition sysk (p : Process) : K := kernel (fds p).
Definition set_sysk (k : K) (p : Process) : Process :=
  set_fds (mkFdManager (fd_heap (fds p)) (m_datas (fds p)) k) p.
Definition put_errno (tid e : Z) (p : Process) : Process :=
  mkProcess (fds p) (<[tid := e]> (errnos p)) (hook_enabled p) (tinfos p) (next_tinfo p) (s_connect_timeout p).
Definition put_tinfos (m : gmap Z Z) (n : Z) (p : Process) : Process :=
  mkProcess (fds p) (errnos p) (hook_enabled p) m n (s_connect_timeout p).

(** A call of the kernel within the process. *)
Definition lift {A} (f : K -> A * K) (p : Process) : A * Process :=
  let '(a, k) := f (sysk p) in (a, set_sysk k p).

#[global] Instance Process_EventKernel : EventKernel Process := {|
  GetCurrentMS p := GetCurrentMS (sysk p);
  epoll_create := lift epoll_create;
  pipe := lift pipe;
  fcntl_nonblock := lift fcntl_nonblock;
  epoll_add_tickle := lift epoll_add_tickle;
  epoll_ctl p op fd ev a := lift (fun k => epoll_ctl k op fd ev a) p;
  epoll_wait p t := lift (fun k => epoll_wait k t) p;
  write_tickle := lift write_tickle;
  read_tickle := lift read_tickle
|}.

(** ** User programs and what the hooks leave behind *)

(** A call with its arguments; [c_fcntl]'s third one is what [va_arg] finds. *)
Inductive hcall :=
  | c_sleep (seconds : Z) | c_usleep (usec : Z) | c_nanosleep (req rem : Z)
  | c_socket (domain type protocol : Z) | c_connect (fd addr addrlen : Z)
  | c_accept (fd addr addrlen : Z)
  | c_read (fd buf count : Z) | c_readv (fd iov iovcnt : Z) | c_recv (fd buf len flags : Z)
  | c_recvfrom (fd buf len flags src_addr addrlen : Z) | c_recvmsg (fd msg flags : Z)
  | c_write (fd buf count : Z) | c_writev (fd iov iovcnt : Z) | c_send (fd buf len flags : Z)
  | c_sendto (fd buf len flags dest_addr addrlen : Z) | c_sendmsg (fd msg flags : Z)
  | c_close (fd : Z) | c_fcntl (fd cmd arg : Z) | c_ioctl (fd request arg : Z)
  | c_getsockopt (fd level optname optval optlen : Z)
  | c_setsockopt (fd level optname optval optlen : Z).

Inductive ucode := Stop | Throw | Do (c : hcall) (k : Z -> ucode).

(** The local variables of [do_io] across its yield; [fun_] is [fun] with its arguments. *)
(* SRC sylar/hook.cpp:106-118 do_io *)
Record io_frame := mkIo {
  fun_ : K -> sysret * K;
  io_fd : Z;
  io_event : Z;
  io_to : Z;
  io_tinfo : Z;
  io_timer : option Z
}.

Definition set_io_timer (t : option Z) (f : io_frame) : io_frame :=
  mkIo (fun_ f) (io_fd f) (io_event f) (io_to f) (io_tinfo f) t.

(** Where a hooked call stands after its [YieldToHold]. *)
Inductive frame :=
  | in_io (f : io_frame)
  | in_accept (f : io_frame)
  | in_connect (sockfd tinfo : Z) (timer : option Z)
  | in_sleep.

Inductive outcome := Returned (n : Z) | Suspended (f : frame).

(** The functions timers call: the lambdas of [do_io] and [connect_with_timeout], the
    [std::bind] of [schedule] to a fiber, and the users'. *)
(* SRC sylar/hook.cpp:121-128 do_io *)
Inductive hook_cb :=
  | io_timeout (t fd event : Z) | connect_timeout (t : Z) | wake (fiber : Z) | user_fn (c : ucode).

Notation TCB := (@Timer.callback hook_cb).
Inductive ucont := at_callback (c : TCB) | at_code (c : ucode) | waiting (f : frame) (k : Z -> ucode).

Notation CB := (@callback TCB).
Notation W := (@World CB (@cont ucont) (@Sched TCB (@IOM hook_cb Process))).
Notation MW := (M W).
#[local] Existing Instance IO_sched.

Definition proc (w : W) : Process := kern (io w).
Definition upd_proc (g : Process -> Process) : MW unit := sys (fun p => (tt, g p)).

(** A call of the original function [f]. *)
Definition sysf (tid : Z) (f : K -> sysret * K) : MW Z :=
  let! r := sys (lift f) in
  match r with
  | Ok n => ret n
  | Err e => upd_proc (put_errno tid e) ;; ret (-1)
  end.

Definition errno (tid : Z) : MW Z := gets (fun w => default 0 (errnos (proc w) !! tid)).
Definition set_errno (tid e : Z) : MW unit := upd_proc (put_errno tid e).

(** A call of [FdMgr]. *)
Definition fd_op {A} (m : M (@FdManager K) A) : MW A := fun w =>
  match m (fds (proc w)) with
  | Ret a s => let! _ := upd_proc (set_fds s) in ret a | Exn e s => let! _ := upd_proc (set_fds s) in throw e
  | UB f => fail_with f
  end w.

(* SRC sylar/hook.cpp:70-72 is_hook_enable *)
Definition is_hook_enable (tid : Z) : MW bool :=
  gets (fun w => default false (hook_enabled (proc w) !! tid)).

(* SRC sylar/hook.cpp:74-76 set_hook_enable *)
Definition set_hook_enable (tid : Z) (flag : bool) : MW unit :=
  upd_proc (fun p => mkProcess (fds p) (errnos p) (<[tid := flag]> (hook_enabled p)) (tinfos p)
                       (next_tinfo p) (s_connect_timeout p)).

(** What the initialiser does with the value of the configuration variable, an [int],
    and what its listener does with a new one. *)
(* SRC sylar/hook.cpp:56-65 _HookIniter *)
Definition set_connect_timeout (v : Z) : MW unit :=
  upd_proc (fun p => mkProcess (fds p) (errnos p) (hook_enabled p) (tinfos p) (next_tinfo p) (u64 v)).

(** The scheduler of the thread: [None] is null. *)
(* SRC sylar/iomanager.cpp:245-247 IOManager::GetThis *)
Definition IOManager_GetThis (tid : Z) : MW (option Z) := gets (fun w => t_scheduler (locals_of tid w)).

(** A member function of it is called. *)
Definition on_iom {A} (iom : option Z) (m : MW A) : MW A :=
  match iom with Some _ => m | None => fail_with NullDeref end.

(** ** [timer_info] *)

(* SRC sylar/hook.cpp:81-83 timer_info *)
Definition new_tinfo : MW Z :=
  let! p := gets proc in
  upd_proc (put_tinfos (<[next_tinfo p := 0]> (tinfos p)) (next_tinfo p + 1)) ;;
  ret (next_tinfo p).
(** The last [shared_ptr] goes. *)
Definition drop_tinfo (t : Z) : MW unit :=
  upd_proc (fun p => put_tinfos (delete t (tinfos p)) (next_tinfo p) p).
Definition cancelled (t : Z) : MW Z := fun w =>
  match tinfos (proc w) !! t with Some c => Ret c w | None => UB NullDeref end.
Definition set_cancelled (t c : Z) : MW unit :=
  upd_proc (fun p => put_tinfos (<[t := c]> (tinfos p)) (next_tinfo p) p).

(** The addresses of new objects. *)
Context (timer_addr ctx_addr : W -> Z).

Definition add_condition_timer (tid : Z) (ms : Z) (cb : hook_cb) (cond : Z) : MW Z :=
  let! a := gets timer_addr in
  let! x := gets io in
  with_front tid (Timer.addConditionTimer a (GetCurrentMS (kern x)) ms cb cond false).
Definition add_timer (tid : Z) (ms : Z) (cb : hook_cb) : MW Z :=
  let! a := gets timer_addr in
  let! x := gets io in
  with_front tid (Timer.addTimer a (GetCurrentMS (kern x)) ms (Some (Timer.plain cb)) false).
Definition cancel_timer (timer : option Z) : MW unit :=
  match timer with Some a => let! _ := timer_op (Timer.cancel a) in ret tt | None => ret tt end.

Definition fd_get (fd : Z) (auto_create : bool) : MW (option Z) :=
  let! a := gets ctx_addr in fd_op (get_ctx fd auto_create a).
(** The object a [FdCtx::ptr] points to. *)
Definition fd_ctx (a : Z) : MW FdCtx := fun w =>
  match fd_heap (fds (proc w)) !! a with Some c => Ret c w | None => UB NullDeref end.

(** ** [do_io] *)

(** [fuel] bounds the calls a signal interrupts. *)
(* SRC sylar/hook.cpp:110-113 do_io *)
Fixpoint call_again (fuel : nat) (tid : Z) (f : K -> sysret * K) : MW Z :=
  match fuel with
  | O => fail_with OutOfFuel
  | S fuel =>
      let! n := sysf tid f in
      let! e := errno tid in
      if (n =? -1) && (e =? EINTR) then call_again fuel tid f else ret n
  end.

Inductive io_outcome := Io_returned (n : Z) | Io_suspended (f : io_frame).

(** From the label [retry] to the return or the yield. *)
(* SRC sylar/hook.cpp:109-157 do_io *)
Definition do_io_retry (fuel : nat) (tid : Z) (f : io_frame) : MW io_outcome :=
  let! n := call_again fuel tid (fun_ f) in
  let! e := errno tid in
  if (n =? -1) && (e =? EAGAIN) then
    let! iom := IOManager_GetThis tid in
    let! timer :=
      (if negb (io_to f =? no_timeout) then
         on_iom iom (let! t := add_condition_timer tid (io_to f)
                                 (io_timeout (io_tinfo f) (io_fd f) (io_event f)) (io_tinfo f) in
                     ret (Some t))
       else ret None) in
    let! rt := on_iom iom (addEvent tid (io_fd f) (io_event f) None) in
    if negb (rt =? 0) then
      cancel_timer timer ;;
      drop_tinfo (io_tinfo f) ;;
      ret (Io_returned (-1))
    else ret (Io_suspended (set_io_timer timer f))
  else
    drop_tinfo (io_tinfo f) ;;
    ret (Io_returned n).

(** After the yield. *)
(* SRC sylar/hook.cpp:143-152 do_io *)
Definition do_io_resume (fuel : nat) (tid : Z) (f : io_frame) : MW io_outcome :=
  cancel_timer (io_timer f) ;;
  let! c := cancelled (io_tinfo f) in
  if negb (c =? 0) then
    set_errno tid c ;;
    drop_tinfo (io_tinfo f) ;;
    ret (Io_returned (-1))
  else do_io_retry fuel tid f.

(* SRC sylar/hook.cpp:85-157 do_io *)
Definition do_io (fuel : nat) (tid fd : Z) (f : K -> sysret * K) (event timeout_so : Z) : MW io_outcome :=
  let! on := is_hook_enable tid in
  if negb on then let! n := sysf tid f in ret (Io_returned n)
  else
    let! ctx := fd_get fd false in
    match ctx with
    | None => let! n := sysf tid f in ret (Io_returned n)
    | Some a =>
        let! ctx := fd_ctx a in
        if m_isClosed ctx then set_errno tid EBADF ;; ret (Io_returned (-1))
        else if negb (m_isSocket ctx) || m_userNonblock ctx then
          let! n := sysf tid f in ret (Io_returned n)
        else
          let! t := new_tinfo in
          do_io_retry fuel tid (mkIo f fd event (getTimeout timeout_so ctx) t None)
    end.

(** The lambda of its timer, once [OnTimer] has found the condition alive. *)
(* SRC sylar/hook.cpp:121-128 do_io *)
Definition run_io_timeout (tid t fd event : Z) : MW unit :=
  let! p := gets proc in
  match tinfos p !! t with
  | None => ret tt
  | Some c =>
      if negb (c =? 0) then ret tt
      else
        set_cancelled t ETIMEDOUT ;;
        let! _ := cancelEvent tid fd event in
        ret tt
  end.

(** ** The calls that read and write *)

Definition plain_io (m : MW io_outcome) : MW outcome :=
  let! o := m in
  ret (match o with Io_returned n => Returned n | Io_suspended f => Suspended (in_io f) end).

(* SRC sylar/hook.cpp:312-314 read *)
Definition read (fuel : nat) (tid fd buf count : Z) : MW outcome :=
  plain_io (do_io fuel tid fd (read_f fd buf count) READ SO_RCVTIMEO).

(* SRC sylar/hook.cpp:316-318 readv *)
Definition readv (fuel : nat) (tid fd iov iovcnt : Z) : MW outcome :=
  plain_io (do_io fuel tid fd (readv_f fd iov iovcnt) READ SO_RCVTIMEO).

(* SRC sylar/hook.cpp:320-322 recv *)
Definition recv (fuel : nat) (tid sockfd buf len flags : Z) : MW outcome :=
  plain_io (do_io fuel tid sockfd (recv_f sockfd buf len flags) READ SO_RCVTIMEO).

(* SRC sylar/hook.cpp:324-328 recvfrom *)
Definition recvfrom (fuel : nat) (tid sockfd buf len flags src_addr addrlen : Z) : MW outcome :=
  plain_io (do_io fuel tid sockfd (recvfrom_f sockfd buf len flags src_addr addrlen) READ SO_RCVTIMEO).

(* SRC sylar/hook.cpp:330-332 recvmsg *)
Definition recvmsg (fuel : nat) (tid sockfd msg flags : Z) : MW outcome :=
  plain_io (do_io fuel tid sockfd (recvmsg_f sockfd msg flags) READ SO_RCVTIMEO).

(* SRC sylar/hook.cpp:334-336 write *)
Definition write (fuel : nat) (tid fd buf count : Z) : MW outcome :=
  plain_io (do_io fuel tid fd (write_f fd buf count) WRITE SO_SNDTIMEO).

(* SRC sylar/hook.cpp:338-340 writev *)
Definition writev (fuel : nat) (tid fd iov iovcnt : Z) : MW outcome :=
  plain_io (do_io fuel tid fd (writev_f fd iov iovcnt) WRITE SO_SNDTIMEO).

(* SRC sylar/hook.cpp:342-344 send *)
Definition send (fuel : nat) (tid sockfd buf len flags : Z) : MW outcome :=
  plain_io (do_io fuel tid sockfd (send_f sockfd buf len flags) WRITE SO_SNDTIMEO).

(* SRC sylar/hook.cpp:346-350 sendto *)
Definition sendto (fuel : nat) (tid sockfd buf len flags dest_addr addrlen : Z) : MW outcome :=
  plain_io (do_io fuel tid sockfd (sendto_f sockfd buf len flags dest_addr addrlen) WRITE SO_SNDTIMEO).

(* SRC sylar/hook.cpp:352-354 sendmsg *)
Definition sendmsg (fuel : nat) (tid sockfd msg flags : Z) : MW outcome :=
  plain_io (do_io fuel tid sockfd (sendmsg_f sockfd msg flags) WRITE SO_SNDTIMEO).

(** [accept] after its [do_io]. The [ssize_t] becomes an [int]. *)
(* SRC sylar/hook.cpp:306-309 accept *)
Definition accepted (o : io_outcome) : MW outcome :=
  match o with
  | Io_suspended f => ret (Suspended (in_accept f))
  | Io_returned n =>
      let fd := s32 n in
      (if 0 <=? fd then let! _ := fd_get fd true in ret tt else ret tt) ;;
      ret (Returned fd)
  end.

(* SRC sylar/hook.cpp:304-310 accept *)
Definition accept (fuel : nat) (tid sockfd addr addrlen : Z) : MW outcome :=
  let! o := do_io fuel tid sockfd (accept_f sockfd addr addrlen) READ SO_RCVTIMEO in
  accepted o.

(** ** [sleep] *)

(** The fiber is scheduled again after [ms]; the code goes on after the yield. *)
Definition sleep_ms (tid ms : Z) : MW outcome :=
  let! fiber := GetThis tid in
  let! iom := IOManager_GetThis tid in
  let! _ := on_iom iom (add_timer tid ms (wake fiber)) in
  ret (Suspended in_sleep).

(* SRC sylar/hook.cpp:164-178 sleep *)
Definition sleep (tid seconds : Z) : MW outcome :=
  let! on := is_hook_enable tid in
  if negb on then let! n := sysf tid (fun k => sleep_f k seconds) in ret (Returned n)
  else sleep_ms tid (u32 (seconds * 1000)).

(* SRC sylar/hook.cpp:180-195 usleep *)
Definition usleep (tid usec : Z) : MW outcome :=
  let! on := is_hook_enable tid in
  if negb on then let! n := sysf tid (fun k => usleep_f k usec) in ret (Returned n)
  else sleep_ms tid (usec / 1000).

(** [req->tv_sec * 1000 + req->tv_nsec / 1000 / 1000] in a [long], which becomes an [int]
    and then the [uint64_t] that [addTimer] takes. *)
(* SRC sylar/hook.cpp:202 nanosleep *)
Definition nanosleep_ms (tv_sec tv_nsec : Z) : option Z :=
  let ms := tv_sec * 1000 in
  let sum := ms + Z.quot (Z.quot tv_nsec 1000) 1000 in
  if bool_decide (in_s 64 ms) && bool_decide (in_s 64 sum) then Some (u64 (s32 sum)) else None.

(* SRC sylar/hook.cpp:197-214 nanosleep *)
Definition nanosleep (tid req rem : Z) : MW outcome :=
  let! on := is_hook_enable tid in
  if negb on then let! n := sysf tid (fun k => nanosleep_f k req rem) in ret (Returned n)
  else
    let! p := gets proc in
    let '(tv_sec, tv_nsec) := timespec_at (sysk p) req in
    match nanosleep_ms tv_sec tv_nsec with
    | None => fail_with SignedOverflow
    | Some ms => sleep_ms tid ms
    end.

(** What the timer calls: [IOManager::schedule] of the fiber, for any thread. *)
(* SRC sylar/hook.cpp:171-172 sleep, the timer's function *)
Definition run_wake (tid fiber : Z) : MW unit := schedule tid (FT_of_fiber (Some fiber) (-1)).

(** ** Sockets *)

(* SRC sylar/hook.cpp:216-227 socket *)
Definition socket (tid domain type protocol : Z) : MW outcome :=
  let! on := is_hook_enable tid in
  let! fd := sysf tid (fun k => socket_f k domain type protocol) in
  if negb on then ret (Returned fd)
  else if fd =? -1 then ret (Returned fd)
  else
    let! _ := fd_get fd true in
    ret (Returned fd).

(** What [connect] does when the connection is there or has failed. *)
(* SRC sylar/hook.cpp:287-297 connect_with_timeout *)
Definition connect_result (tid sockfd : Z) : MW outcome :=
  let! r := sys (fun p => let '(r, error, k) := getsockopt_int (sysk p) sockfd SOL_SOCKET SO_ERROR in
                          ((r, error), set_sysk k p)) in
  match r with
  | (Err e, _) => set_errno tid e ;; ret (Returned (-1))
  | (Ok n, error) =>
      if n =? -1 then ret (Returned (-1))
      else if error =? 0 then ret (Returned 0)
      else set_errno tid error ;; ret (Returned (-1))
  end.

(* SRC sylar/hook.cpp:229-298 connect_with_timeout *)
Definition connect_with_timeout (tid sockfd addr addrlen timeout_ms : Z) : MW outcome :=
  let! on := is_hook_enable tid in
  let connect_now := sysf tid (fun k => connect_f k sockfd addr addrlen) in
  if negb on then let! n := connect_now in ret (Returned n)
  else
    let! ctx := fd_get sockfd false in
    let! ctx := (match ctx with Some a => let! c := fd_ctx a in ret (Some c) | None => ret None end) in
    match ctx with
    | None => set_errno tid EBADF ;; ret (Returned (-1))
    | Some c =>
        if m_isClosed c then set_errno tid EBADF ;; ret (Returned (-1))
        else if negb (m_isSocket c) then let! n := connect_now in ret (Returned n)
        else if m_userNonblock c then let! n := connect_now in ret (Returned n)
        else
          let! n := connect_now in
          let! e := errno tid in
          if n =? 0 then ret (Returned 0)
          else if negb (n =? -1) || negb (e =? EINPROGRESS) then ret (Returned n)
          else
            let! iom := IOManager_GetThis tid in
            let! t := new_tinfo in
            let! timer :=
              (if negb (timeout_ms =? no_timeout) then
                 on_iom iom (let! a := add_condition_timer tid timeout_ms (connect_timeout t) t in ret (Some a))
               else ret None) in
            let! rt := on_iom iom (addEvent tid sockfd WRITE None) in
            if rt =? 0 then ret (Suspended (in_connect sockfd t timer))
            else
              cancel_timer timer ;;
              let! r := connect_result tid sockfd in
              drop_tinfo t ;;
              ret r
    end.

(** After its yield. *)
(* SRC sylar/hook.cpp:272-298 connect_with_timeout *)
Definition connect_resume (tid sockfd tinfo : Z) (timer : option Z) : MW outcome :=
  cancel_timer timer ;;
  let! c := cancelled tinfo in
  if negb (c =? 0) then
    set_errno tid c ;;
    drop_tinfo tinfo ;;
    ret (Returned (-1))
  else
    let! r := connect_result tid sockfd in
    drop_tinfo tinfo ;;
    ret r.

(** The lambda of its timer: the event is not cancelled. *)
(* SRC sylar/hook.cpp:261-267 connect_with_timeout *)
Definition run_connect_timeout (t : Z) : MW unit :=
  let! p := gets proc in
  match tinfos p !! t with
  | None => ret tt
  | Some c => if negb (c =? 0) then ret tt else set_cancelled t ETIMEDOUT
  end.

(* SRC sylar/hook.cpp:300-302 connect *)
Definition connect (tid sockfd addr addrlen : Z) : MW outcome :=
  let! p := gets proc in
  connect_with_timeout tid sockfd addr addrlen (s_connect_timeout p).

(* SRC sylar/hook.cpp:356-370 close *)
Definition close (tid fd : Z) : MW outcome :=
  let! on := is_hook_enable tid in
  (if negb on then ret tt
   else
     let! ctx := fd_get fd false in
     match ctx with
     | None => ret tt
     | Some _ =>
         let! iom := IOManager_GetThis tid in
         (match iom with Some _ => let! _ := cancelAll tid fd in ret tt | None => ret tt end) ;;
         fd_op (del fd)
     end) ;;
  let! n := sysf tid (fun k => close_f k fd) in
  ret (Returned n).

(** ** Descriptor flags *)

(** [!ctx || ctx->isClose() || !ctx->isSocket()] is [None]. *)
Definition socket_ctx (fd : Z) : MW (option Z) :=
  let! ctx := fd_get fd false in
  match ctx with
  | None => ret None
  | Some a =>
      let! c := fd_ctx a in
      ret (if m_isClosed c || negb (m_isSocket c) then None else Some a)
  end.

Definition set_nonblock (b : bool) (flags : Z) : Z :=
  if b then Z.lor flags O_NONBLOCK else Z.ldiff flags O_NONBLOCK.

(* SRC sylar/hook.cpp:376-391 fcntl *)
Definition fcntl_setfl (tid fd arg : Z) : MW Z :=
  let! ctx := socket_ctx fd in
  match ctx with
  | None => sysf tid (fun k => fcntl_f k fd F_SETFL (Some arg))
  | Some a =>
      fd_op (with_ctx a (setUserNonblock (nonblocking arg))) ;;
      let! c := fd_ctx a in
      sysf tid (fun k => fcntl_f k fd F_SETFL (Some (set_nonblock (m_sysNonblock c) arg)))
  end.

(* SRC sylar/hook.cpp:393-407 fcntl *)
Definition fcntl_getfl (tid fd : Z) : MW Z :=
  let! arg := sysf tid (fun k => fcntl_f k fd F_GETFL None) in
  let! ctx := socket_ctx fd in
  match ctx with
  | None => ret arg
  | Some a => let! c := fd_ctx a in ret (set_nonblock (m_userNonblock c) arg)
  end.

(** In the first group the argument is read into a variable [fd], which hides the
    descriptor and is passed in its place. *)
(* SRC sylar/hook.cpp:372-458 fcntl *)
Definition fcntl (tid fd cmd arg : Z) : MW outcome :=
  let! n :=
    (if cmd =? F_SETFL then fcntl_setfl tid fd arg
     else if cmd =? F_GETFL then fcntl_getfl tid fd
     else if bool_decide (cmd ∈ [F_DUPFD; F_DUPFD_CLOEXEC; F_SETFD; F_SETOWN; F_SETSIG; F_SETLEASE;
                                 F_NOTIFY; F_SETPIPE_SZ])
     then sysf tid (fun k => fcntl_f k arg cmd None)
     else if bool_decide (cmd ∈ [F_GETFD; F_GETOWN; F_GETSIG; F_GETLEASE; F_GETPIPE_SZ])
     then sysf tid (fun k => fcntl_f k fd cmd None)
     else if bool_decide (cmd ∈ [F_SETLK; F_SETLKW; F_GETLK; F_GETOWN_EX; F_SETOWN_EX])
     then sysf tid (fun k => fcntl_f k fd cmd (Some arg))
     else sysf tid (fun k => fcntl_f k fd cmd None)) in
  ret (Returned n).

(* SRC sylar/hook.cpp:460-475 ioctl *)
Definition ioctl (tid fd request arg : Z) : MW outcome :=
  let! p := gets proc in
  let user_nonblock := negb (int_at (sysk p) arg =? 0) in
  (if FIONBIO =? request then
     let! ctx := socket_ctx fd in
     match ctx with
     | None => ret tt
     | Some a => fd_op (with_ctx a (setUserNonblock user_nonblock))
     end
   else ret tt) ;;
  let! n := sysf tid (fun k => ioctl_f k fd request arg) in
  ret (Returned n).

(* SRC sylar/hook.cpp:477-480 getsockopt *)
Definition getsockopt (tid sockfd level optname optval optlen : Z) : MW outcome :=
  let! n := sysf tid (fun k => getsockopt_f k sockfd level optname optval optlen) in
  ret (Returned n).

(** [v->tv_sec * 1000 + v->tv_usec / 1000] in a [long], given as a [uint64_t]. *)
(* SRC sylar/hook.cpp:492 setsockopt *)
Definition timeval_ms (tv_sec tv_usec : Z) : option Z :=
  let ms := tv_sec * 1000 in
  let sum := ms + Z.quot tv_usec 1000 in
  if bool_decide (in_s 64 ms) && bool_decide (in_s 64 sum) then Some (u64 sum) else None.

(** A thread without hooks calls the function itself again; [fuel] bounds its stack. *)
(* SRC sylar/hook.cpp:482-497 setsockopt *)
Fixpoint setsockopt (fuel : nat) (tid sockfd level optname optval optlen : Z) : MW outcome :=
  match fuel with
  | O => fail_with OutOfFuel
  | S fuel =>
      let! on := is_hook_enable tid in
      if negb on then setsockopt fuel tid sockfd level optname optval optlen
      else
        (if (level =? SOL_SOCKET) && ((optname =? SO_RCVTIMEO) || (optname =? SO_SNDTIMEO)) then
           let! ctx := fd_get sockfd false in
           match ctx with
           | None => ret tt
           | Some a =>
               let! p := gets proc in
               let '(tv_sec, tv_usec) := timeval_at (sysk p) optval in
               match timeval_ms tv_sec tv_usec with
               | None => fail_with SignedOverflow
               | Some ms => fd_op (with_ctx a (setTimeout optname ms))
               end
           end
         else ret tt) ;;
        let! n := sysf tid (fun k => setsockopt_f k sockfd level optname optval optlen) in
        ret (Returned n)
  end.

(** ** Running programs *)

Definition call (fuel : nat) (tid : Z) (c : hcall) : MW outcome :=
  match c with
  | c_sleep seconds => sleep tid seconds
  | c_usleep usec => usleep tid usec
  | c_nanosleep req rem => nanosleep tid req rem
  | c_socket domain type protocol => socket tid domain type protocol
  | c_connect fd addr addrlen => connect tid fd addr addrlen
  | c_accept fd addr addrlen => accept fuel tid fd addr addrlen
  | c_read fd buf count => read fuel tid fd buf count
  | c_readv fd iov iovcnt => readv fuel tid fd iov iovcnt
  | c_recv fd buf len flags => recv fuel tid fd buf len flags
  | c_recvfrom fd buf len flags src_addr addrlen => recvfrom fuel tid fd buf len flags src_addr addrlen
  | c_recvmsg fd msg flags => recvmsg fuel tid fd msg flags
  | c_write fd buf count => write fuel tid fd buf count
  | c_writev fd iov iovcnt => writev fuel tid fd iov iovcnt
  | c_send fd buf len flags => send fuel tid fd buf len flags
  | c_sendto fd buf len flags dest_addr addrlen => sendto fuel tid fd buf len flags dest_addr addrlen
  | c_sendmsg fd msg flags => sendmsg fuel tid fd msg flags
  | c_close fd => close tid fd
  | c_fcntl fd cmd arg => fcntl tid fd cmd arg
  | c_ioctl fd request arg => ioctl tid fd request arg
  | c_getsockopt fd level optname optval optlen => getsockopt tid fd level optname optval optlen
  | c_setsockopt fd level optname optval optlen => setsockopt fuel tid fd level optname optval optlen
  end.

(** The code after the yield of a frame. *)
Definition resume (fuel : nat) (tid : Z) (f : frame) : MW outcome :=
  match f with
  | in_io f => plain_io (do_io_resume fuel tid f)
  | in_accept f => let! o := do_io_resume fuel tid f in accepted o
  | in_connect sockfd tinfo timer => connect_resume tid sockfd tinfo timer
  | in_sleep => ret (Returned 0)
  end.

(** A program up to its next yield, or its end. *)
Fixpoint run_code (fuel : nat) (tid : Z) (c : ucode) : MW (@leaves ucont) :=
  match c with
  | Stop => ret Returns
  | Throw => ret Throws
  | Do c k =>
      let! o := call fuel tid c in
      match o with
      | Returned n => run_code fuel tid (k n)
      | Suspended f => ret (YieldsHold (waiting f k))
      end
  end.

(** A function a timer calls; the conditions of the hooks' timers are their [timer_info]s. *)
Definition run_hook_cb (fuel : nat) (tid : Z) (c : hook_cb) : MW (@leaves ucont) :=
  match c with
  | io_timeout t fd event => run_io_timeout tid t fd event ;; ret Returns
  | connect_timeout t => run_connect_timeout t ;; ret Returns
  | wake fiber => run_wake tid fiber ;; ret Returns
  | user_fn c => run_code fuel tid c
  end.

Definition uentry (c : TCB) : ucont := at_callback c.

(** What fibers run, as [Scheduler] asks for it. *)
Definition useg (fuel : nat) (tid : Z) (k : ucont) : MW (@leaves ucont) :=
  match k with
  | at_code c => run_code fuel tid c
  | waiting f k =>
      let! o := resume fuel tid f in
      match o with
      | Returned n => run_code fuel tid (k n)
      | Suspended f => ret (YieldsHold (waiting f k))
      end
  | at_callback c =>
      let! p := gets proc in
      match Timer.run_callback (fun t => bool_decide (is_Some (tinfos p !! t))) c with
      | f :: _ => run_hook_cb fuel tid f
      | [] => ret Returns
      end
  end.
End Hooks.
