(* ===== verification/HookSpec.v ===== *)
(** * HookSpec: what the hooked calls promise

    A hooked call that would block suspends its fiber with an event registered for it, and
    a timer when the socket has a timeout; the event, the timer or [close] puts the fiber in the
    scheduler's queue, once, and the code after the yield gives what the blocking call
    would. The kernel is any with the laws of [KernelLaws] (in [IOManagerSpec]) and
    [SysLaws]. *)

From S2P Require Import Prelude FdManager Fiber Scheduler IOManager IOManagerSpec Hook.
From S2P Require Timer.

(** What the calls of the hooks do not do: change what [epoll] knows; and what [fcntl]
    and [ioctl] do to the flags [FdKernel] shows. *)
Class SysLaws (K : Type) `{KernelLaws K, !FdKernel K, !SysKernel K} := {
  apart : K -> K -> Prop := fun k k' =>
    forall fd, interest k' fd = interest k fd /\ pollable k' fd = pollable k fd;
  fcntl_apart : forall k fd cmd arg, apart k (fcntl_f k fd cmd arg).2;
  ioctl_apart : forall k fd request arg, apart k (ioctl_f k fd request arg).2;
  setsockopt_apart : forall k fd level name val len, apart k (setsockopt_f k fd level name val len).2;
  connect_apart : forall k fd addr len, apart k (connect_f k fd addr len).2;
  fcntl_getfl_f : forall k fd, is_Some (fstat k fd) ->
    fcntl_f k fd F_GETFL None = (Ok (FdManager.fcntl_getfl k fd), k);
  fcntl_setfl_f : forall k fd v, is_Some (fstat k fd) ->
    fcntl_f k fd F_SETFL (Some v) = (Ok 0, FdManager.fcntl_setfl k fd v);
  ioctl_nonblock : forall k fd arg, is_Some (fstat k fd) ->
    (ioctl_f k fd FIONBIO arg).1 = Ok 0 /\
    nonblocking (FdManager.fcntl_getfl (ioctl_f k fd FIONBIO arg).2 fd) = negb (int_at k arg =? 0)
}.

Section Spec.
Context {K : Type} `{SysLaws K}.
Notation Proc := (@Process K).
Notation TCB := (@Timer.callback hook_cb).
Notation W := (@World (@callback TCB) (@cont (@ucont K)) (@Sched TCB (@IOM hook_cb Proc))).
Notation MW := (M W).
#[local] Existing Instance IO_sched.

#[global] Instance Process_KernelLaws : KernelLaws Proc.
Proof.
  refine {| pollable p := pollable (sysk p); interest p := interest (sysk p) |};
    intros; simpl; unfold lift;
    [ pose proof (ctl_result (sysk k) op fd ev p) as E
    | pose proof (ctl_interest (sysk k) op fd ev p) as E
    | pose proof (ctl_failed (sysk k) op fd ev p) as E
    | pose proof (write_result (sysk k)) as E
    | pose proof (write_interest (sysk k)) as E
    | pose proof (write_pollable (sysk k)) as E ];
    simpl in *; unfold lift in *;
    try (destruct (epoll_ctl (sysk k) op fd ev p) as [rt k'] eqn:Ek);
    try (destruct (write_tickle (sysk k)) as [rt k'] eqn:Ek); simpl in *; auto.
Defined.

(** ** Worlds that differ in the process only *)

Definition set_proc (p : Proc) (w : W) : W := set_ext (set_derived (set_kern p (io w)) (ext w)) w.

(** The process but for the kernel, without and with [errno]. *)
Definition kept (p : Proc) :=
  (fd_heap (fds p), m_datas (fds p), hook_enabled p, tinfos p, next_tinfo p, s_connect_timeout p).
Definition rest (p : Proc) := (kept p, errnos p).

(** What the events' table is about is the same. *)
Record same_events (w w' : W) : Prop := {
  s_fds : m_fdContexts (io w') = m_fdContexts (io w);
  s_contexts : contexts (io w') = contexts (io w);
  s_next : next_context (io w') = next_context (io w);
  s_pending : m_pendingEventCount (io w') = m_pendingEventCount (io w);
  s_queue : m_fibers (ext w') = m_fibers (ext w);
  s_apart : apart (sysk (proc w)) (sysk (proc w'))
}.

#[global] Instance apart_preorder : PreOrder (apart (K := K)).
Proof.
  split; [by split|]. intros k1 k2 k3 HA HB fd. destruct (HA fd), (HB fd). split; congruence.
Qed.

#[global] Instance same_events_preorder : PreOrder same_events.
Proof.
  split; [intros w; by constructor|]. intros w1 w2 w3 [] []. constructor; try congruence. by etransitivity.
Qed.

Lemma refines_same_events w w' t : same_events w w' -> refines w t -> refines w' t.
Proof.
  intros [] Hr.
  assert (forall fd, ctx_of w' fd = ctx_of w fd) as Hc by (intros; unfold ctx_of; by rewrite s_fds0, s_contexts0).
  constructor.
  - intros fd. rewrite s_fds0, Hc. apply (r_table _ _ _ Hr).
  - intros p. rewrite s_contexts0, s_next0. apply (r_fresh _ _ _ Hr).
  - intros fd e. unfold event_at. rewrite Hc. apply (r_events _ _ _ Hr).
  - rewrite s_pending0. apply (r_pending _ _ _ Hr).
  - intros fd Hfd Hx. unfold wanted. rewrite Hc. destruct (s_apart0 fd) as [Hi _].
    change (interest (sysk (proc w')) fd = wanted w fd). rewrite Hi. by apply (r_interest _ _ _ Hr).
  - rewrite s_queue0. apply (r_queue _ _ _ Hr).
Qed.

Lemma big_same_events w w' : same_events w w' -> big w -> big w'.
Proof. intros [] Hb. unfold big. by rewrite s_fds0. Qed.

(** The rest of the process, and the timers, are the same. *)
Definition quiet (w w' : W) : Prop := rest (proc w') = rest (proc w) /\ timers (io w') = timers (io w).
#[global] Instance quiet_preorder : PreOrder quiet.
Proof. split; [by split|]. intros w1 w2 w3 [? ?] [? ?]. split; congruence. Qed.

Lemma quiet_sys {A} (f : K -> A * K) : keeps quiet (sys (lift f)).
Proof. intros w a w' E. unfold sys, lift in E. destruct (f _). by injection E as _ <-. Qed.
Lemma quiet_set_io g : (forall x, kern (g x) = kern x /\ timers (g x) = timers x) ->
  keeps quiet (set_io (K := Proc) g).
Proof.
  intros Hg w a w' E. injection E as _ <-. unfold quiet, proc, io. simpl.
  destruct (Hg (derived (ext w))) as [-> ->]. done.
Qed.

Lemma quiet_load_ctx p : keeps quiet (load_ctx (K := Proc) p).
Proof. intros w a w'. unfold load_ctx. case_match; intros E; by simplify_eq. Qed.
Lemma quiet_store_ctx p g : keeps quiet (store_ctx (K := Proc) p g).
Proof.
  intros w a w'. unfold store_ctx. case_match; [|done]. intros E. revert E. by apply quiet_set_io.
Qed.
Lemma quiet_load a : keeps quiet (load a).
Proof. intros w b w'. unfold load. case_match; intros E; by simplify_eq. Qed.
Lemma quiet_upd g : (forall x, derived (g x) = derived x) -> keeps quiet (upd (UCont := @ucont K) g).
Proof. intros Hg w a w' E. injection E as _ <-. unfold quiet, proc, io. simpl. by rewrite Hg. Qed.
Lemma quiet_ext (g : W -> W) : (forall w, ext (g w) = ext w) -> forall w, quiet w (g w).
Proof. intros Hg w. unfold quiet, proc, io. by rewrite Hg. Qed.
Lemma quiet_new f : keeps quiet (Fiber.new f).
Proof. intros w a w' E. injection E as _ <-. done. Qed.
#[local] Hint Resolve quiet_load_ctx quiet_store_ctx quiet_load quiet_sys quiet_new : keeps.
#[local] Hint Extern 1 (keeps quiet (sys _)) => apply (quiet_sys _) : keeps.
#[local] Hint Extern 1 (keeps quiet (set_io _)) => apply quiet_set_io; done : keeps.
#[local] Hint Extern 1 (keeps quiet (upd _)) => apply quiet_upd; done : keeps.
#[local] Hint Extern 1 (quiet _ _) => done : keeps.

Lemma quiet_deref p : keeps quiet (Fiber.deref p).
Proof. intros w a w'. unfold deref. repeat case_match; intros E; by simplify_eq. Qed.
#[local] Hint Resolve quiet_deref : keeps.

Lemma quiet_GetThis tid : keeps quiet (GetThis tid).
Proof. unfold GetThis, new_main_Fiber, SetThis, set_threadFiber, count_fibers. keep. Qed.

Lemma quiet_fill l : forall i, keeps quiet (fill (K := Proc) i l).
Proof. induction l as [|[q|] l IH]; intros i; cbn [fill]; keep. Qed.
#[local] Hint Resolve quiet_GetThis quiet_fill : keeps.

Lemma quiet_context_at fd : keeps quiet (context_at (K := Proc) fd).
Proof. intros w a w'. unfold context_at. repeat case_match; intros E; by simplify_eq. Qed.
#[local] Hint Resolve quiet_context_at : keeps.

Lemma quiet_addEvent tid fd e cb : keeps quiet (addEvent (K := Proc) tid fd e cb).
Proof. unfold addEvent, find_or_grow, contextResize, addEvent_locked, getContext. keep. Qed.

Lemma quiet_schedule tid ft : keeps quiet (schedule (V := IO_sched) tid ft).
Proof. unfold schedule, scheduleNoLock, hasIdleThreads. simpl. unfold io_tickle, hasIdleThreads. keep. Qed.
#[local] Hint Resolve quiet_schedule : keeps.

Lemma quiet_trigger tid p e : keeps quiet (triggerEvent (K := Proc) tid p e).
Proof. unfold triggerEvent, getContext. keep. Qed.
#[local] Hint Resolve quiet_trigger : keeps.

Lemma quiet_cancelEvent tid fd e : keeps quiet (cancelEvent (K := Proc) tid fd e).
Proof. unfold cancelEvent, unregister. keep. Qed.

Lemma quiet_drain fuel : keeps quiet (drain_tickles (K := Proc) fuel).
Proof. induction fuel as [|fuel IH]; cbn [drain_tickles]; keep. Qed.
#[local] Hint Resolve quiet_drain : keeps.

Lemma quiet_process_event fuel tid ev : keeps quiet (process_event (K := Proc) fuel tid ev).
Proof. unfold process_event, trigger_if. keep. Qed.

Lemma quiet_cancelAll tid fd : keeps quiet (cancelAll (K := Proc) tid fd).
Proof. unfold cancelAll, trigger_if. keep. Qed.

(** ** The system calls *)

Lemma set_proc_id w : set_proc (proc w) w = w.
Proof. by destruct w as [?????[]], derived. Qed.

Lemma proc_eq (p p' : Proc) : sysk p = sysk p' -> rest p = rest p' -> p = p'.
Proof. destruct p as [[]], p' as [[]]. unfold sysk, rest, kept. simpl. intros. by simplify_eq. Qed.

Definition ret_of (r : sysret) : Z := match r with Ok n => n | Err _ => -1 end.
Definition errno_of (tid : Z) (w : W) : Z := default 0 (errnos (proc w) !! tid).

Definition after_call (tid : Z) (r : sysret) (k : K) (p : Proc) : Proc :=
  match r with Ok _ => set_sysk k p | Err e => put_errno tid e (set_sysk k p) end.

Lemma sysf_ok tid f r k' (w : W) : f (sysk (proc w)) = (r, k') ->
  sysf tid f w = Ret (ret_of r) (set_proc (after_call tid r k' (proc w)) w).
Proof.
  intros E. unfold sysf, bind, sys, lift. fold (proc w). rewrite E. by destruct r.
Qed.

Lemma kept_after tid r k p : kept (after_call tid r k p) = kept p /\ sysk (after_call tid r k p) = k.
Proof. by destruct r. Qed.

(** A call that is made again while a signal interrupts it, [m] times, answers [r]. *)
Inductive Answers (f : K -> sysret * K) : nat -> K -> sysret -> K -> Prop :=
  | answers_now k r k' : f k = (r, k') -> match r with Ok n => 0 <= n | Err e => e <> EINTR end ->
      Answers f 0 k r k'
  | answers_later m k k1 r k' : f k = (Err EINTR, k1) -> Answers f m k1 r k' -> Answers f (S m) k r k'.

Definition keeps_apart (f : K -> sysret * K) : Prop := forall k, apart k (f k).2.

Lemma answers_apart f m k r k' : keeps_apart f -> Answers f m k r k' -> apart k k'.
Proof.
  intros Hf. induction 1 as [k r k' E _|m k k1 r k' E _ IH].
  - specialize (Hf k). by rewrite E in Hf.
  - specialize (Hf k). rewrite E in Hf. by transitivity k1.
Qed.

Lemma answers_range f m k r k' : Answers f m k r k' -> match r with Ok n => 0 <= n | Err e => e <> EINTR end.
Proof. by induction 1. Qed.

Lemma call_again_ok tid f m k r k' : Answers f m k r k' -> forall fuel w, (m < fuel)%nat ->
  sysk (proc w) = k -> exists p', call_again fuel tid f w = Ret (ret_of r) (set_proc p' w) /\
    sysk p' = k' /\ kept p' = kept (proc w) /\ forall e, r = Err e -> errnos p' !! tid = Some e.
Proof.
  induction 1 as [k r k' E Hr|m k k1 r k' E _ IH]; intros [|fuel] w Hlt Hk; try lia; subst k; cbn [call_again];
    erewrite bind_Ret by (by apply sysf_ok); erewrite bind_Ret by reflexivity.
  - exists (after_call tid r k' (proc w)). destruct (kept_after tid r k' (proc w)) as [Hkept Hs].
    destruct r as [n|e]; simpl.
    + assert (n =? -1 = false) as -> by lia. by split_and!.
    + change (proc (set_proc ?p w)) with p. simpl. rewrite lookup_insert_eq. simpl.
      apply Z.eqb_neq in Hr. rewrite Hr. split_and!; try done. by intros ? [= ->].
  - change (proc (set_proc ?p w)) with p. simpl. rewrite lookup_insert_eq. simpl.
    destruct (IH fuel (set_proc (put_errno tid EINTR (set_sysk k1 (proc w))) w)) as (p' & Ec & H'); [lia|done|].
    exists p'. split; [exact Ec|done].
Qed.

(** ** The descriptor table *)

Lemma fd_op_ok {A} (m : M (@FdManager K) A) a s w : m (fds (proc w)) = Ret a s ->
  fd_op m w = Ret a (set_proc (set_fds s (proc w)) w).
Proof. unfold fd_op. by intros ->. Qed.

Lemma fd_get_ok (addr : W -> Z) fd w : wf (fds (proc w)) -> 0 <= fd ->
  fd_get addr fd false w = Ret (lookup_ctx fd (fds (proc w))) w.
Proof.
  intros Hwf Hfd. unfold fd_get. erewrite bind_Ret by reflexivity.
  rewrite (fd_op_ok _ (lookup_ctx fd (fds (proc w))) (fds (proc w)));
    [|rewrite get_ctx_ok by done; by destruct (lookup_ctx fd (fds (proc w)))].
  replace (set_fds (fds (proc w)) (proc w)) with (proc w) by (by destruct (proc w)). by rewrite set_proc_id.
Qed.

Lemma fd_get_negative (addr : W -> Z) fd b w : fd < 0 -> fd_get addr fd b w = UB OutOfBounds.
Proof.
  intros Hfd. unfold fd_get. erewrite bind_Ret by reflexivity. unfold fd_op, get_ctx, get_locked, bind, get, data_at.
  simpl. assert (Z.of_nat (length (m_datas (fds (proc w)))) <=? fd = false) as -> by (apply Z.leb_gt; lia).
  apply Z.ltb_lt in Hfd. by rewrite Hfd.
Qed.

Lemma fd_ctx_ok a c (w : W) : fd_heap (fds (proc w)) !! a = Some c -> fd_ctx a w = Ret c w.
Proof. unfold fd_ctx. by intros ->. Qed.

(** ** Timers of the hooks *)

Record calm (w w' : W) : Prop := {
  cm_events : same_events w w';
  cm_quiet : rest (proc w') = rest (proc w);
  cm_heap : heap w' = heap w;
  cm_locals : locals w' = locals w
}.
#[global] Instance calm_preorder : PreOrder calm.
Proof.
  split; [by intros w; constructor|]. intros w1 w2 w3 [] []. constructor; try congruence. by etransitivity.
Qed.

Lemma quiet_tickle tid : keeps quiet (io_tickle (K := Proc) tid).
Proof. unfold io_tickle, hasIdleThreads. keep. Qed.

Lemma tickle_calm tid w : exists w', io_tickle tid w = Ret tt w' /\ calm w w' /\ timers (io w') = timers (io w).
Proof.
  destruct (tickle_ok tid w) as (w' & E & [] & Hi & Hpoll & Hc & Hp & Hq). exists w'. split; [done|].
  split; [|done]. constructor; try done.
  - constructor; try done. intros fd. split; [apply Hi|apply Hpoll].
  - by apply (quiet_tickle tid _ _ _ E).
Qed.

Lemma repeat_tickle_calm tid n : forall w, exists w', repeat_tickle tid n w = Ret tt w' /\ calm w w' /\
  timers (io w') = timers (io w).
Proof.
  induction n as [|n IH]; intros w; cbn [repeat_tickle]; [by exists w|].
  destruct (tickle_calm tid w) as (w1 & E & Hc & Ht). destruct (IH w1) as (w2 & E2 & Hc2 & Ht2).
  exists w2. erewrite bind_Ret by exact E. split; [done|]. split; [by transitivity w1|congruence].
Qed.

Lemma with_front_ok {A} tid (m : M (@Timer.TimerManager hook_cb) A) a t w :
  m (timers (io w)) = Ret a t ->
  exists w', with_front tid m w = Ret a w' /\ calm w w' /\ timers (io w') = t.
Proof.
  intros E. unfold with_front. erewrite bind_Ret by reflexivity.
  set (w1 := set_ext (set_derived (set_timers t (io w)) (ext w)) w).
  assert (timer_op m w = Ret a w1) as E1 by (unfold timer_op; by rewrite E).
  erewrite bind_Ret by exact E1. erewrite bind_Ret by reflexivity.
  destruct (repeat_tickle_calm tid (Timer.front_calls (timers (io w1)) - Timer.front_calls (timers (io w))) w1)
    as (w2 & E2 & Hc & Ht).
  exists w2. erewrite bind_Ret by exact E2. split; [done|]. split; [|done].
  transitivity w1; [|done]. by constructor.
Qed.

Section Addresses.
(** [new] gives the address of no live object. *)
Context (timer_addr ctx_addr : W -> Z).
Hypothesis timer_fresh : forall w, Timer.m_heap (timers (io w)) !! timer_addr w = None.

Definition now (w : W) : Z := GetCurrentMS (proc w).
Definition armed (a : Z) (t : Timer.Timer) (w : W) : Prop := Timer.m_heap (timers (io w)) !! a = Some t.

(** What [addTimer] makes of the timers. *)
Definition with_timer (tid a : Z) (t : Timer.Timer) (w w' : W) : Prop :=
  calm w w' /\ Timer.wf (timers (io w')) /\ armed a t w' /\
  (forall b, b ∈ Timer.m_timers (timers (io w')) <-> b = a \/ b ∈ Timer.m_timers (timers (io w))) /\
  forall b t', b <> a -> armed b t' w' <-> armed b t' w.

Lemma front_timer_ok tid ms cb w : Timer.wf (timers (io w)) -> in_u 64 ms ->
  let a := timer_addr w in let t := Timer.new_Timer (now w) ms (Some cb) false in
  exists w', with_front tid (Timer.addTimer a (now w) ms (Some cb) false) w = Ret a w' /\ with_timer tid a t w w'.
Proof.
  intros Hwf Hms a t.
  destruct (with_front_ok tid _ _ _ w (Timer.addTimer_ok a (now w) ms (Some cb) false _ (timer_fresh w) Hwf))
    as (w' & E & Hc & Ht). fold a t in Ht.
  exists w'. split; [exact E|]. unfold with_timer, armed. rewrite Ht.
  destruct (Timer.tickle_front_same a (Timer.rearmed a t (timers (io w)))) as [-> ->].
  split; [done|]. split.
  - apply Timer.wf_tickle, Timer.wf_rearmed; [done|apply Timer.u64_range|done].
  - simpl. split; [by rewrite lookup_insert_eq|]. split.
    + intros b. by apply Timer.rearmed_timers.
    + intros b t' Hb. by rewrite lookup_insert_ne.
Qed.

Lemma timer_op_calm {A} (m : M (@Timer.TimerManager hook_cb) A) a t w : m (timers (io w)) = Ret a t ->
  exists w', timer_op m w = Ret a w' /\ calm w w' /\ timers (io w') = t.
Proof. intros E. unfold timer_op. rewrite E. eexists. split; [done|]. split; [by constructor|done]. Qed.

Lemma cancel_timer_ok a w : Timer.wf (timers (io w)) -> is_Some (Timer.m_heap (timers (io w)) !! a) ->
  exists w' t, cancel_timer (Some a) w = Ret tt w' /\ calm w w' /\ Timer.wf (timers (io w')) /\
    armed a t w' /\ Timer.m_cb t = None /\ forall b t', b <> a -> armed b t' w' <-> armed b t' w.
Proof.
  intros Hwf Ha. destruct (Timer.cancel_disarms a _ Hwf Ha) as (b & s' & t & E & Hwf' & Ht & Hcb & Ho).
  destruct (timer_op_calm _ _ _ w E) as (w' & E' & Hc & Hs). exists w', t. unfold cancel_timer, armed.
  erewrite bind_Ret by exact E'. rewrite Hs. split_and!; try done. intros c t' Hne. by rewrite Ho.
Qed.

(** ** [do_io] *)

(** The thread [tid] runs the fiber [a] under the scheduler. *)
Record can_wait (tid a : Z) (w : W) : Prop := {
  cw_sched : is_Some (t_scheduler (locals_of tid w));
  cw_fiber : runs_fiber tid w a;
  cw_timers : Timer.wf (timers (io w))
}.

(** The call [f] waits in [w'], with the time of the kernel [k]. *)
Record suspended (k : K) (a : Z) (f : @io_frame K) (w : W) (t : table) (w' : W) : Prop := {
  su_refines : refines w' (mkTable (<[(io_fd f, io_event f) := FT_of_fiber (Some a) (-1)]> (t_events t)) (t_queue t));
  su_big : big w';
  su_kept : kept (proc w') = kept (proc w);
  su_wf : Timer.wf (timers (io w'));
  su_timer : match io_timer f with
    | None => io_to f = no_timeout /\ timers (io w') = timers (io w)
    | Some b => io_to f <> no_timeout /\
        armed b (Timer.new_Timer (GetCurrentMS k) (io_to f)
          (Some (Timer.bound_OnTimer (io_tinfo f) (io_timeout (io_tinfo f) (io_fd f) (io_event f)))) false) w'
    end
}.

Lemma can_wait_calm tid a w w' : can_wait tid a w -> calm w w' -> Timer.wf (timers (io w')) -> can_wait tid a w'.
Proof.
  intros [] [] Hwf. constructor; [|destruct cw_fiber0 as (Hf & f & Hh & Hs)|done].
  - unfold locals_of. by rewrite cm_locals0.
  - split; [unfold locals_of; by rewrite cm_locals0|]. exists f. by rewrite cm_heap0.
Qed.

Lemma calm_set_proc p w : rest p = rest (proc w) -> apart (sysk (proc w)) (sysk p) -> calm w (set_proc p w).
Proof. intros Hr Ha. by constructor. Qed.

(** The timer of a call that blocks for at most [ms]. *)
Definition timer_for (tnow ms : Z) (cb : hook_cb) (cond : Z) (timer : option Z) (w w' : W) : Prop :=
  match timer with
  | None => ms = no_timeout /\ timers (io w') = timers (io w)
  | Some b => ms <> no_timeout /\
      armed b (Timer.new_Timer tnow ms (Some (Timer.bound_OnTimer cond cb)) false) w' /\
      forall c t', c <> b -> armed c t' w' <-> armed c t' w
  end.

Lemma wait_timer_ok tid ms cb cond w : Timer.wf (timers (io w)) -> in_u 64 ms ->
  is_Some (t_scheduler (locals_of tid w)) ->
  exists timer w', (if negb (ms =? no_timeout) then
      on_iom (t_scheduler (locals_of tid w))
        (let! t := add_condition_timer timer_addr tid ms cb cond in ret (Some t))
    else ret None) w = Ret timer w' /\ calm w w' /\ Timer.wf (timers (io w')) /\
    timer_for (now w) ms cb cond timer w w'.
Proof.
  intros Hwf Hto [s Hs]. rewrite Hs. destruct (Z.eqb_spec ms no_timeout) as [E|E]; cbn [negb on_iom].
  - exists None, w. by split_and!.
  - destruct (front_timer_ok tid ms (Timer.bound_OnTimer cond cb) w Hwf Hto) as (w' & Ew & Hc & Hwf' & Ha & _ & Ho).
    exists (Some (timer_addr w)), w'. split; [|by split_and!].
    erewrite bind_Ret; [done|]. unfold add_condition_timer. erewrite bind_Ret by reflexivity.
    erewrite bind_Ret by reflexivity. exact Ew.
Qed.

Definition drop (t : Z) (p : Proc) : Proc := put_tinfos (delete t (tinfos p)) (next_tinfo p) p.

Lemma retry_answers fuel tid f m r k' w : Answers (fun_ f) m (sysk (proc w)) r k' -> (m < fuel)%nat ->
  r <> Err EAGAIN ->
  exists p', do_io_retry timer_addr fuel tid f w = Ret (Io_returned (ret_of r)) (set_proc p' w) /\
    sysk p' = k' /\ kept p' = kept (drop (io_tinfo f) (proc w)) /\ forall e, r = Err e -> errnos p' !! tid = Some e.
Proof.
  intros Ha Hlt Hr. destruct (call_again_ok tid _ _ _ _ _ Ha fuel w Hlt eq_refl) as (p & E & Hk & Hkept & He).
  unfold do_io_retry. erewrite bind_Ret by exact E. erewrite bind_Ret by reflexivity.
  change (proc (set_proc p w)) with p. pose proof (answers_range _ _ _ _ _ Ha) as Hrange.
  assert ((ret_of r =? -1) && (default 0 (errnos p !! tid) =? EAGAIN) = false) as ->.
  { destruct r as [n|e]; simpl; [lia|]. rewrite (He e eq_refl). simpl. apply Z.eqb_neq. congruence. }
  exists (drop (io_tinfo f) p). split; [done|]. split; [done|]. split; [|done].
  unfold drop, kept in *. simpl. congruence.
Qed.

(** A call that would block: what happens depends on the event's entry in the table, and on
    whether [epoll] takes the descriptor. *)
Definition blocks (tid a : Z) (k' : K) (f : @io_frame K) (w : W) (t : table) (r : res W io_outcome) : Prop :=
  match t_events t !! (io_fd f, io_event f), pollable (proc w) (io_fd f) with
  | Some _, _ => r = UB AssertFailed
  | None, true => exists w' timer, let f' := set_io_timer timer f in
      r = Ret (Io_suspended f') w' /\ suspended k' a f' w t w'
  | None, false => exists w', r = Ret (Io_returned (-1)) w' /\ refines w' t /\ big w' /\
      kept (proc w') = kept (drop (io_tinfo f) (proc w)) /\ Timer.wf (timers (io w')) /\
      forall b t', armed b t' w' -> Timer.m_cb t' <> None -> armed b t' w
  end.

Lemma blocks_suspends tid a k' f w t r : blocks tid a k' f w t r ->
  t_events t !! (io_fd f, io_event f) = None -> pollable (proc w) (io_fd f) = true ->
  exists w' timer, r = Ret (Io_suspended (set_io_timer timer f)) w' /\
    suspended k' a (set_io_timer timer f) w t w'.
Proof. unfold blocks. intros Hb E1 E2. by rewrite E1, E2 in Hb. Qed.

Lemma kept_rest p p' : rest p = rest p' -> kept p = kept p'.
Proof. intros E. by apply (f_equal fst) in E. Qed.

Lemma kept_tinfos p p' : kept p = kept p' -> tinfos p = tinfos p'.
Proof. unfold kept. intros E. by injection E. Qed.
Lemma quiet_tinfos w w' : quiet w w' -> tinfos (proc w') = tinfos (proc w).
Proof. intros [E _]. by apply kept_tinfos, kept_rest. Qed.

Lemma answers_calm tid f m fuel w r k' : keeps_apart f -> Answers f m (sysk (proc w)) r k' -> (m < fuel)%nat ->
  exists w1, call_again fuel tid f w = Ret (ret_of r) w1 /\ same_events w w1 /\ heap w1 = heap w /\
    locals w1 = locals w /\ timers (io w1) = timers (io w) /\ kept (proc w1) = kept (proc w) /\
    sysk (proc w1) = k' /\ forall e, r = Err e -> errno_of tid w1 = e.
Proof.
  intros Hf Ha Hlt. destruct (call_again_ok tid _ _ _ _ _ Ha fuel w Hlt eq_refl) as (p & E & Hk & Hkept & He).
  exists (set_proc p w). split; [exact E|]. split_and!; try done.
  - constructor; try done. change (apart (sysk (proc w)) (sysk p)). rewrite Hk. by eapply answers_apart.
  - intros e Hr. unfold errno_of. change (default 0 (errnos p !! tid) = e). by rewrite (He e Hr).
Qed.

Lemma kept_drop t p p' : kept p = kept p' -> kept (drop t p) = kept (drop t p').
Proof. unfold kept, drop. simpl. intros E. injection E as -> -> -> -> -> ->. done. Qed.

(** The timer of a call that goes on is disarmed. *)
Lemma wake_up_ok timer w : Timer.wf (timers (io w)) ->
  match timer with Some b => is_Some (Timer.m_heap (timers (io w)) !! b) | None => True end ->
  exists w', cancel_timer timer w = Ret tt w' /\ calm w w' /\ Timer.wf (timers (io w')) /\
    forall c t', armed c t' w' -> Timer.m_cb t' <> None -> armed c t' w /\ timer <> Some c.
Proof.
  intros Hwf Hb. destruct timer as [b|]; [|by exists w].
  destruct (cancel_timer_ok b w Hwf Hb) as (w' & tb & E & Hc & Hwf' & Hb' & Hcb & Ho).
  exists w'. split_and!; try done. intros c t' Hct Hcn. destruct (decide (c = b)) as [->|Hne].
  - unfold armed in *. congruence.
  - split; [by apply Ho|congruence].
Qed.

(** The fiber that runs waits for an event. *)
Lemma register_ok tid a fd e w t : can_wait tid a w -> refines w t -> big w -> 0 <= fd -> is_event e ->
  match t_events t !! (fd, e) with
  | Some _ => addEvent tid fd e None w = UB AssertFailed
  | None => exists w', addEvent tid fd e None w = Ret (if pollable (proc w) fd then 0 else -1) w' /\
      big w' /\ quiet w w' /\
      refines w' (if pollable (proc w) fd
        then mkTable (<[(fd, e) := FT_of_fiber (Some a) (-1)]> (t_events t)) (t_queue t) else t)
  end.
Proof.
  intros [[s Hsc] Hrun _] Hr Hbig Hfd Hev.
  pose proof (addEvent_ok tid w t fd e None (mkEC (t_scheduler (locals_of tid w)) (Some a) None) Hr Hbig Hfd Hev) as Hadd.
  specialize (Hadd ltac:(split; [by exists s|by exists a])).
  destruct (t_events t !! (fd, e)); [done|]. change (pollable (kern (io w)) fd) with (pollable (proc w) fd) in Hadd.
  destruct (pollable (proc w) fd); destruct Hadd as (w' & E & Hb & Hr'); exists w';
    (split; [done|]; split; [done|]; split; [by apply (quiet_addEvent _ _ _ _ _ _ _ E)|done]).
Qed.

Lemma retry_blocks fuel tid a f m k' w t : keeps_apart (fun_ f) ->
  Answers (fun_ f) m (sysk (proc w)) (Err EAGAIN) k' -> (m < fuel)%nat ->
  can_wait tid a w -> refines w t -> big w -> 0 <= io_fd f -> is_event (io_event f) -> in_u 64 (io_to f) ->
  blocks tid a k' f w t (do_io_retry timer_addr fuel tid f w).
Proof.
  intros Hf Ha Hlt Hcw Hr Hbig Hfd Hev Hto.
  destruct (answers_calm tid _ _ fuel w _ _ Hf Ha Hlt) as (w1 & E & Hse & Hh & Hl & Ht & Hk & Hs & He).
  unfold do_io_retry. erewrite bind_Ret by exact E. erewrite bind_Ret by reflexivity.
  fold (errno_of tid w1). rewrite (He _ eq_refl). cbn [ret_of]. rewrite !Z.eqb_refl. cbn [andb].
  erewrite bind_Ret by reflexivity.
  assert (can_wait tid a w1) as Hcw1.
  { destruct Hcw as [? Hrf ?]. unfold runs_fiber in Hrf. constructor; unfold runs_fiber, locals_of in *; by rewrite ?Hl, ?Hh, ?Ht. }
  destruct (wait_timer_ok tid (io_to f) (io_timeout (io_tinfo f) (io_fd f) (io_event f)) (io_tinfo f) w1)
    as (timer & w2 & E2 & Hc & Hwf & Htm); [apply Hcw1|done|apply Hcw1|].
  erewrite bind_Ret by exact E2. cbv beta. unfold timer_for in Htm.
  pose proof (can_wait_calm _ _ _ _ Hcw1 Hc Hwf) as Hcw2.
  replace (t_scheduler (locals_of tid w1)) with (t_scheduler (locals_of tid w2))
    by (unfold locals_of; by rewrite (cm_locals _ _ Hc)).
  pose proof Hcw2 as [[s Hsc] _ _]. rewrite Hsc. cbn [on_iom].
  assert (same_events w w2) as Hse2 by (transitivity w1; [done|apply Hc]).
  pose proof (register_ok tid a (io_fd f) (io_event f) w2 t Hcw2 (refines_same_events _ _ _ Hse2 Hr)
    (big_same_events _ _ Hse2 Hbig) Hfd Hev) as Hadd. unfold blocks.
  assert (pollable (proc w2) (io_fd f) = pollable (proc w) (io_fd f)) as Hp by apply (s_apart _ _ Hse2).
  rewrite Hp in Hadd.
  destruct (t_events t !! _); [by erewrite bind_UB by exact Hadd|].
  assert (kept (proc w2) = kept (proc w)) as Hk2 by (rewrite <- Hk; apply kept_rest, Hc).
  destruct Hadd as (w3 & E3 & Hbig3 & [Hq3 Ht3] & Hr3). pose proof (kept_rest _ _ Hq3) as Hk3.
  erewrite bind_Ret by exact E3. destruct (pollable (proc w) (io_fd f)); cbn [Z.eqb negb].
  - exists w3, timer. split; [done|]. constructor; try done; try congruence.
    cbn [io_timer set_io_timer io_to io_tinfo io_fd io_event]. unfold armed in *. rewrite Ht3.
    destruct timer as [b|]; [rewrite <- Hs; by destruct Htm as (? & ? & _)|by rewrite <- Ht].
  - destruct (wake_up_ok timer w3) as (w4 & E4 & Hc4 & Hwf4 & Ho4).
    { by rewrite Ht3. }
    { destruct timer as [b|]; [|done]. destruct Htm as (_ & Hb & _). rewrite Ht3. by eexists. }
    erewrite bind_Ret by exact E4. exists (set_proc (drop (io_tinfo f) (proc w4)) w4). split; [done|].
    assert (same_events w3 (set_proc (drop (io_tinfo f) (proc w4)) w4)) as Hse5
      by (transitivity w4; [apply Hc4|by constructor]).
    split; [by apply (refines_same_events w3)|]. split; [by apply (big_same_events w3)|].
    split; [apply kept_drop; rewrite (kept_rest _ _ (cm_quiet _ _ Hc4)); congruence|]. split; [done|].
    intros c t' Hct Hcn. destruct (Ho4 c t' Hct Hcn) as [Hc3 Hne]. unfold armed in *. rewrite Ht3 in Hc3.
    destruct timer as [b|]; [|destruct Htm as [_ Htm]; by rewrite <- Ht, <- Htm].
    rewrite <- Ht. apply Htm; [congruence|done].
Qed.

(** A thread with hooks; [fd] is a descriptor with the context [c]. *)
Definition hooks_on (tid : Z) (w : W) : bool := default false (hook_enabled (proc w) !! tid).
Record hooked (tid : Z) (w : W) (fd : Z) (c : FdCtx) : Prop := {
  hk_on : hooks_on tid w = true;
  hk_wf : wf (fds (proc w));
  hk_fd : 0 <= fd;
  hk_ctx : exists a, lookup_ctx fd (fds (proc w)) = Some a /\ fd_heap (fds (proc w)) !! a = Some c
}.

(** The call without hooks. *)
Definition original (tid : Z) (f : K -> sysret * K) : MW (@io_outcome K) :=
  let! n := sysf tid f in ret (Io_returned n).

Definition begun (w : W) : W :=
  set_proc (put_tinfos (<[next_tinfo (proc w) := 0]> (tinfos (proc w))) (next_tinfo (proc w) + 1) (proc w)) w.

Lemma same_events_begun w : same_events w (begun w).
Proof. by constructor. Qed.
Lemma hooked_begun tid w fd c : hooked tid w fd c -> hooked tid (begun w) fd c.
Proof. by destruct 1. Qed.
Lemma can_wait_begun tid a w : can_wait tid a w -> can_wait tid a (begun w).
Proof. by destruct 1. Qed.

Lemma hooked_kept tid fd c w w' : kept (proc w') = kept (proc w) -> hooked tid w fd c -> hooked tid w' fd c.
Proof.
  intros Hk [Hon [Hlen Hwf] Hfd Hc]. unfold kept in Hk. injection Hk as E1 E2 E3 _ _ _.
  constructor; unfold hooks_on, FdManager.wf, lookup_ctx in *; by rewrite ?E1, ?E2, ?E3.
Qed.

Lemma do_io_ctx fuel tid fd f event so w c : hooked tid w fd c ->
  do_io timer_addr ctx_addr fuel tid fd f event so w =
  if m_isClosed c then (set_errno tid EBADF ;; ret (Io_returned (-1))) w
  else if negb (m_isSocket c) || m_userNonblock c then original tid f w
  else do_io_retry timer_addr fuel tid
         (mkIo f fd event (getTimeout so c) (next_tinfo (proc w)) None) (begun w).
Proof.
  intros [Hon Hwf Hfd (a & Hl & Hc)]. unfold do_io. erewrite bind_Ret by reflexivity.
  fold (hooks_on tid w). rewrite Hon. cbn [negb]. erewrite bind_Ret by (by apply fd_get_ok). rewrite Hl.
  erewrite bind_Ret by (by apply fd_ctx_ok). by destruct (m_isClosed c), (negb (m_isSocket c) || m_userNonblock c).
Qed.

(** The kernel answered [r] and is [k']; nothing else of the world has changed but [errno]. *)
Definition answered (tid : Z) (r : sysret) (k' : K) (w w' : W) : Prop :=
  w' = set_proc (proc w') w /\ sysk (proc w') = k' /\ fd_heap (fds (proc w')) = fd_heap (fds (proc w)) /\
  m_datas (fds (proc w')) = m_datas (fds (proc w)) /\ hook_enabled (proc w') = hook_enabled (proc w) /\
  tinfos (proc w') = delete (next_tinfo (proc w)) (tinfos (proc w)) /\
  forall e, r = Err e -> errno_of tid w' = e.

(** A hooked read or write that would block. The fiber's call is suspended with its
    event in the table of events, for this fiber, and, when the socket has a timeout,
    with a timer due that many milliseconds from now that will call the timeout's
    function for this call; when [epoll] refuses the descriptor the call fails with [-1] and leaves
    no timer armed; when another fiber waits for the same event, the assertion of [addEvent]
    fails. *)
Lemma do_io_blocks fuel tid a fd f event so w t c m k' : hooked tid w fd c ->
  m_isClosed c = false -> m_isSocket c = true -> m_userNonblock c = false ->
  in_u 64 (getTimeout so c) -> is_event event -> keeps_apart f ->
  Answers f m (sysk (proc w)) (Err EAGAIN) k' -> (m < fuel)%nat ->
  can_wait tid a w -> refines w t -> big w ->
  let f0 := mkIo f fd event (getTimeout so c) (next_tinfo (proc w)) None in
  blocks tid a k' f0 (begun w) t (do_io timer_addr ctx_addr fuel tid fd f event so w) /\
  tinfos (proc (begun w)) !! io_tinfo f0 = Some 0.
Proof.
  intros Hc Hcl Hs Hnb Hto He Hf Ha Hlt Hcw Hr Hbig f0. rewrite (do_io_ctx _ _ _ _ _ _ _ c Hc), Hcl, Hs, Hnb.
  cbn [negb orb]. assert (same_events w (begun w)) as Hse by (by constructor). split.
  - apply (retry_blocks fuel tid a f0 m k' (begun w) t); try done.
    + by destruct Hcw.
    + by apply (refines_same_events w).
    + apply Hc.
  - apply lookup_insert_eq.
Qed.

(** C10: a hooked read or write. Without hooks, for a descriptor that is not in the table,
    not a socket, or that the user made nonblocking, it is the original call; a closed one
    gives [EBADF], a negative one indexes the table out of range. Otherwise the call is made
    until no signal interrupts it. When the kernel then has an answer other than [EAGAIN],
    the answer is given, leaving no [timer_info] behind. When the answer is [EAGAIN], for a
    fiber in a scheduler's thread ([can_wait]), the call waits: it is suspended with its
    event in the table of events, for this fiber, and, when the socket has a timeout, with
    a timer due that many milliseconds from now; when [epoll] refuses the descriptor, or
    has no room, the call fails with [-1] and leaves no timer armed; when another fiber
    waits for the same event, the assertion of [addEvent] fails ([blocks]). *)
Theorem do_io_spec fuel tid fd f event so w : wf (fds (proc w)) ->
  let call := do_io timer_addr ctx_addr fuel tid fd f event so w in
  (hooks_on tid w = false -> call = original tid f w) /\
  (hooks_on tid w = true -> fd < 0 -> call = UB OutOfBounds) /\
  (hooks_on tid w = true -> 0 <= fd -> lookup_ctx fd (fds (proc w)) = None -> call = original tid f w) /\
  forall c, hooked tid w fd c ->
    (m_isClosed c = true -> exists w', call = Ret (Io_returned (-1)) w' /\ errno_of tid w' = EBADF) /\
    (m_isClosed c = false -> m_isSocket c = false \/ m_userNonblock c = true -> call = original tid f w) /\
    (m_isClosed c = false -> m_isSocket c = true -> m_userNonblock c = false ->
     forall m r k', Answers f m (sysk (proc w)) r k' -> (m < fuel)%nat -> r <> Err EAGAIN ->
     exists w', call = Ret (Io_returned (ret_of r)) w' /\ answered tid r k' w w') /\
    (m_isClosed c = false -> m_isSocket c = true -> m_userNonblock c = false ->
     in_u 64 (getTimeout so c) -> is_event event -> keeps_apart f ->
     forall m k' a t, Answers f m (sysk (proc w)) (Err EAGAIN) k' -> (m < fuel)%nat ->
     can_wait tid a w -> refines w t -> big w ->
     let f0 := mkIo f fd event (getTimeout so c) (next_tinfo (proc w)) None in
     blocks tid a k' f0 (begun w) t call /\ tinfos (proc (begun w)) !! io_tinfo f0 = Some 0).
Proof.
  intros Hwf call. unfold call. split_and!.
  - intros Hoff. unfold do_io. erewrite bind_Ret by reflexivity. fold (hooks_on tid w). by rewrite Hoff.
  - intros Hon Hfd. unfold do_io. erewrite bind_Ret by reflexivity. fold (hooks_on tid w). rewrite Hon. cbn [negb].
    erewrite bind_UB; [done|]. by apply fd_get_negative.
  - intros Hon Hfd Hl. unfold do_io. erewrite bind_Ret by reflexivity. fold (hooks_on tid w). rewrite Hon. cbn [negb].
    erewrite bind_Ret by (by apply fd_get_ok). by rewrite Hl.
  - intros c Hc. split; [|split; [|split; [|by eauto using do_io_blocks]]];
      rewrite (do_io_ctx _ _ _ _ _ _ _ c Hc).
    + intros ->. eexists. split; [reflexivity|]. unfold errno_of. simpl. by rewrite lookup_insert_eq.
    + intros ->. by intros [->| ->]; rewrite ?orb_true_r.
    + intros -> -> -> m r k' Ha Hlt Hr. cbn [negb orb].
      destruct (retry_answers fuel tid (mkIo f fd event (getTimeout so c) (next_tinfo (proc w)) None) m r k' (begun w))
        as (p' & E & Hk & Hkept & He); [done..|].
      exists (set_proc p' (begun w)). split; [exact E|]. unfold kept, drop in Hkept. simpl in Hkept.
      injection Hkept as E1 E2 E3 E4 _ _. rewrite delete_insert_eq in E4. split_and!; try done.
      intros e Hre. change (default 0 (errnos p' !! tid) = e). by rewrite (He e Hre).
Qed.

(** The fiber [a] waits with the call [f] in [w], and the call's time is not over. *)
Record waits (a : Z) (f : @io_frame K) (w : W) (t : table) : Prop := {
  wa_refines : refines w t;
  wa_event : t_events t !! (io_fd f, io_event f) = Some (FT_of_fiber (Some a) (-1));
  wa_is : 0 <= io_fd f /\ is_event (io_event f);
  wa_tinfo : tinfos (proc w) !! io_tinfo f = Some 0
}.

Lemma run_io_timeout_ok tid a f w t : waits a f w t -> pollable (proc w) (io_fd f) = true ->
  exists w', run_io_timeout tid (io_tinfo f) (io_fd f) (io_event f) w = Ret tt w' /\
    refines w' (mkTable (delete (io_fd f, io_event f) (t_events t))
                        (t_queue t ++ [FT_of_fiber (Some a) (-1)])) /\
    tinfos (proc w') = <[io_tinfo f := ETIMEDOUT]> (tinfos (proc w)).
Proof.
  intros [Hr He [Hfd Hev] Ht] Hp. unfold run_io_timeout. erewrite bind_Ret by reflexivity. rewrite Ht. cbn [Z.eqb negb].
  set (w1 := set_proc (put_tinfos (<[io_tinfo f := ETIMEDOUT]> (tinfos (proc w))) (next_tinfo (proc w)) (proc w)) w).
  erewrite (bind_Ret (set_cancelled (io_tinfo f) ETIMEDOUT) _ w tt w1) by reflexivity.
  assert (same_events w w1) as Hse by (by constructor).
  pose proof (cancelEvent_ok tid w1 t (io_fd f) (io_event f) (refines_same_events _ _ _ Hse Hr) Hfd Hev) as Hc.
  rewrite He in Hc. change (pollable (kern (io w1)) (io_fd f)) with (pollable (proc w) (io_fd f)) in Hc. rewrite Hp in Hc.
  destruct Hc as (w' & E & _ & Hr'). exists w'. erewrite bind_Ret by exact E. split_and!; [done|done|].
  by apply (quiet_tinfos w1), (quiet_cancelEvent _ _ _ _ _ _ E).
Qed.

Lemma do_io_resume_ok fuel tid f w c : Timer.wf (timers (io w)) ->
  match io_timer f with Some b => is_Some (Timer.m_heap (timers (io w)) !! b) | None => True end ->
  tinfos (proc w) !! io_tinfo f = Some c ->
  exists w1, calm w w1 /\ Timer.wf (timers (io w1)) /\
    (forall b t', armed b t' w1 -> Timer.m_cb t' <> None -> armed b t' w /\ io_timer f <> Some b) /\
    do_io_resume timer_addr fuel tid f w =
      if c =? 0 then do_io_retry timer_addr fuel tid f w1
      else Ret (Io_returned (-1)) (set_proc (drop (io_tinfo f) (put_errno tid c (proc w1))) w1).
Proof.
  intros Hwf Hb Ht. destruct (wake_up_ok (io_timer f) w Hwf Hb) as (w1 & E & Hc & Hwf1 & Ho).
  exists w1. split_and!; try done. unfold do_io_resume. erewrite bind_Ret by exact E.
  assert (cancelled (io_tinfo f) w1 = Ret c w1) as Ec.
  { unfold cancelled. by rewrite (kept_tinfos _ _ (kept_rest _ _ (cm_quiet _ _ Hc))), Ht. }
  erewrite bind_Ret by exact Ec. by destruct (c =? 0).
Qed.

(** The table after the events of [bits] have been taken for a descriptor. *)
Definition taken (fd bits : Z) (t : table (F := @hook_cb)) : table :=
  take_if fd WRITE (has (real_events bits) WRITE) (take_if fd READ (has (real_events bits) READ) t).

Lemma taken_event a f w t bits : waits a f w t -> has (real_events bits) (io_event f) = true ->
  t_events (taken (io_fd f) bits t) !! (io_fd f, io_event f) = None /\
  FT_of_fiber (Some a) (-1) ∈ t_queue (taken (io_fd f) bits t).
Proof.
  clear timer_fresh ctx_addr timer_addr. intros [_ He [_ Hev] _] Hb. unfold taken, take_if, take_event.
  destruct Hev as [E|E]; rewrite E in *; rewrite Hb.
  - rewrite He. destruct (has _ WRITE); cbn [t_events t_queue]; [|split; [apply lookup_delete_eq|set_solver]].
    destruct (delete _ _ !! _); cbn [t_events t_queue]; rewrite ?lookup_delete_ne by done;
      (split; [apply lookup_delete_eq|set_solver]).
  - assert (forall q, (match t_events t !! (io_fd f, READ) with
        | Some ft => mkTable (delete (io_fd f, READ) (t_events t)) (t_queue t ++ [ft]) | None => t end) = q ->
        t_events q !! (io_fd f, WRITE) = Some (FT_of_fiber (Some a) (-1))) as Hq.
    { intros q <-. destruct (t_events t !! (io_fd f, READ)); [|done]. cbn [t_events]. by rewrite lookup_delete_ne. }
    destruct (has _ READ); [rewrite (Hq _ eq_refl)|rewrite He]; cbn [t_events t_queue];
      (split; [apply lookup_delete_eq|set_solver]).
Qed.

(** The timer of a call no longer does anything. *)
Definition disarmed (f : @io_frame K) (w : W) : Prop :=
  forall b t', armed b t' w -> Timer.m_cb t' <> None -> io_timer f <> Some b.

(** C11: how a suspended read or write ends. When [epoll] reports its event (and no event
    nobody waits for), or when its timer fires, the event leaves the table and the fiber
    is put in the queue, so the other cannot do it again; only the timer marks the call.
    The timer of a call that is over, or was marked, does nothing. When the fiber runs again,
    its timer is disarmed; a marked call fails with [ETIMEDOUT]; a call that is not marked
    is tried again from [do_io]'s label [retry], with the table of events as it was, and
    gives the kernel's answer when there is one. The descriptor is one [epoll] takes. *)
Theorem do_io_wakes fuel tid a f w t : waits a f w t -> pollable (proc w) (io_fd f) = true ->
  (forall p c bits, ctx_of w (io_fd f) = Some (p, c) -> has (real_events bits) (io_event f) = true ->
     implb (has (real_events bits) READ) (in_table t (io_fd f) READ) = true ->
     implb (has (real_events bits) WRITE) (in_table t (io_fd f) WRITE) = true ->
     exists w', process_event fuel tid (mkEvent bits (ctx_ptr p)) w = Ret tt w' /\
       refines w' (taken (io_fd f) bits t) /\ tinfos (proc w') = tinfos (proc w) /\
       t_events (taken (io_fd f) bits t) !! (io_fd f, io_event f) = None /\
       FT_of_fiber (Some a) (-1) ∈ t_queue (taken (io_fd f) bits t)) /\
  (exists w', run_io_timeout tid (io_tinfo f) (io_fd f) (io_event f) w = Ret tt w' /\
     refines w' (mkTable (delete (io_fd f, io_event f) (t_events t)) (t_queue t ++ [FT_of_fiber (Some a) (-1)])) /\
     tinfos (proc w') = <[io_tinfo f := ETIMEDOUT]> (tinfos (proc w))) /\
  (forall w2 : W, tinfos (proc w2) !! io_tinfo f <> Some 0 ->
     run_io_timeout tid (io_tinfo f) (io_fd f) (io_event f) w2 = Ret tt w2) /\
  forall (w2 : W) c, Timer.wf (timers (io w2)) -> tinfos (proc w2) !! io_tinfo f = Some c ->
    match io_timer f with Some b => is_Some (Timer.m_heap (timers (io w2)) !! b) | None => True end ->
    (c <> 0 -> exists w3, do_io_resume timer_addr fuel tid f w2 = Ret (Io_returned (-1)) w3 /\
       errno_of tid w3 = c /\ tinfos (proc w3) !! io_tinfo f = None /\ disarmed f w3) /\
    (c = 0 -> exists w3, do_io_resume timer_addr fuel tid f w2 = do_io_retry timer_addr fuel tid f w3 /\
       calm w2 w3 /\ disarmed f w3 /\
       forall m r k', Answers (fun_ f) m (sysk (proc w3)) r k' -> (m < fuel)%nat -> r <> Err EAGAIN ->
         exists w4, do_io_resume timer_addr fuel tid f w2 = Ret (Io_returned (ret_of r)) w4 /\
           sysk (proc w4) = k' /\ tinfos (proc w4) !! io_tinfo f = None).
Proof.
  intros Hw Hp. split_and!.
  - intros p c bits Hctx Hb HR HW. destruct (taken_event a f w t bits Hw Hb) as [Hn Hq].
    assert (in_table t (io_fd f) (io_event f) = true) as Hin
      by (unfold in_table; apply bool_decide_eq_true_2; rewrite (wa_event _ _ _ _ Hw); by eexists).
    pose proof (process_event_ok fuel tid w t (io_fd f) p c bits (wa_refines _ _ _ _ Hw) Hctx) as H'. cbv zeta in H'.
    change (pollable (kern (io w)) (io_fd f)) with (pollable (proc w) (io_fd f)) in H'. rewrite Hp, HR, HW in H'.
    assert (negb (has (real_events bits) READ && in_table t (io_fd f) READ) &&
            negb (has (real_events bits) WRITE && in_table t (io_fd f) WRITE) = false) as E
      by (destruct (wa_is _ _ _ _ Hw) as [_ [Ee|Ee]]; rewrite Ee in Hb, Hin; rewrite Hb, Hin; by rewrite ?andb_false_r).
    rewrite E in H'. cbn [negb andb] in H'. destruct H' as (w' & Ew & _ & Hr').
    exists w'. split_and!; try done.
    by apply quiet_tinfos, (quiet_process_event _ _ _ _ _ _ Ew).
  - by apply (run_io_timeout_ok tid a f w t).
  - intros w2 Hn0. unfold run_io_timeout. erewrite bind_Ret by reflexivity.
    destruct (tinfos (proc w2) !! io_tinfo f) as [c|]; [|done].
    destruct (Z.eqb_spec c 0) as [->|]; [congruence|done].
  - intros w2 c Hwf Ht Hb. destruct (do_io_resume_ok fuel tid f w2 c Hwf Hb Ht) as (w1 & Hc & Hwf1 & Ho & E).
    assert (disarmed f w1) as Hdis by (intros b t' Hbt Hcb; by apply (Ho b t')).
    rewrite E. split; intros Hc0.
    + destruct (Z.eqb_spec c 0) as [->|]; [done|]. eexists. split; [done|]. split_and!.
      * unfold errno_of. simpl. by rewrite lookup_insert_eq.
      * apply lookup_delete_eq.
      * exact Hdis.
    + subst c. exists w1. split_and!; [done..|]. intros m r k' Ha Hlt Hr. cbn [Z.eqb].
      destruct (retry_answers fuel tid f m r k' w1 Ha Hlt Hr) as (p' & E' & Hk & Hkept & _).
      eexists. split; [exact E'|]. split; [done|]. change (tinfos p' !! io_tinfo f = None).
      rewrite (kept_tinfos _ _ Hkept). apply lookup_delete_eq.
Qed.
End Addresses.
End Spec.

(** ** The bit [O_NONBLOCK] *)

Lemma land_bit a n : 0 <= n -> Z.land a (2 ^ n) = if Z.testbit a n then 2 ^ n else 0.
Proof.
  intros Hn. apply Z.bits_inj'. intros i Hi. rewrite Z.land_spec, Z.pow2_bits_eqb by done.
  destruct (Z.eqb_spec n i) as [->|Hne].
  - rewrite andb_true_r. destruct (Z.testbit a i); [|by rewrite Z.bits_0]. by rewrite Z.pow2_bits_true.
  - rewrite andb_false_r. destruct (Z.testbit a n); [|by rewrite Z.bits_0]. by rewrite Z.pow2_bits_false.
Qed.

Lemma nonblocking_bit flags : nonblocking flags = Z.testbit flags 11.
Proof.
  unfold nonblocking. change O_NONBLOCK with (2 ^ 11). rewrite land_bit by lia. by destruct (Z.testbit flags 11).
Qed.

Lemma nonblocking_set b flags : nonblocking (set_nonblock b flags) = b.
Proof.
  rewrite nonblocking_bit. unfold set_nonblock. change O_NONBLOCK with (2 ^ 11).
  destruct b; [rewrite Z.lor_spec|rewrite Z.ldiff_spec]; rewrite Z.pow2_bits_true by lia.
  - apply orb_true_r.
  - apply andb_false_r.
Qed.

(** ** A kernel with the laws

    [epoll] and the descriptors are those of [IOManagerSpec] and [FdManager]; a table
    says how many bytes wait to be read. Connections are always in progress, and a
    pointer is what it points to. *)

Record demo_kernel := mkDemo {
  dk_epoll : list Z * gmap Z (Z * Z);
  dk_files : gmap Z (Z * Z);
  dk_bytes : gmap Z Z
}.

Definition in_epoll {A} (f : list Z * gmap Z (Z * Z) -> A * (list Z * gmap Z (Z * Z))) (k : demo_kernel)
    : A * demo_kernel := let '(a, e) := f (dk_epoll k) in (a, mkDemo e (dk_files k) (dk_bytes k)).

#[export] Instance demo_EventKernel : EventKernel demo_kernel := {|
  GetCurrentMS _ := 2 ^ 40;
  epoll_create := in_epoll epoll_create;
  pipe := in_epoll pipe;
  fcntl_nonblock := in_epoll fcntl_nonblock;
  epoll_add_tickle := in_epoll epoll_add_tickle;
  epoll_ctl k op fd ev p := in_epoll (fun e => epoll_ctl e op fd ev p) k;
  epoll_wait k t := in_epoll (fun e => epoll_wait e t) k;
  write_tickle := in_epoll write_tickle;
  read_tickle := in_epoll read_tickle
|}.

#[export] Instance demo_KernelLaws : KernelLaws demo_kernel.
Proof.
  refine {| pollable k := pollable (dk_epoll k); interest k := interest (dk_epoll k) |};
    intros; unfold epoll_ctl, demo_EventKernel, in_epoll in *;
    [ pose proof (ctl_result (dk_epoll k) op fd ev p) as E
    | pose proof (ctl_interest (dk_epoll k) op fd ev p) as E
    | pose proof (ctl_failed (dk_epoll k) op fd ev p) as E
    | done | done | done ];
    destruct (IOManager.epoll_ctl (dk_epoll k) op fd ev p) as [rt e]; simpl in *; auto.
Defined.

#[export] Instance demo_FdKernel : FdKernel demo_kernel.
Proof.
  refine {| fstat k := fstat (dk_files k); FdManager.fcntl_getfl k := FdManager.fcntl_getfl (dk_files k);
            FdManager.fcntl_setfl k fd v := mkDemo (dk_epoll k) (FdManager.fcntl_setfl (dk_files k) fd v) (dk_bytes k) |};
    intros k; [exact (fstat_setfl (dk_files k))|exact (getfl_setfl_same (dk_files k))].
Defined.

Definition demo_answer (r : sysret) (k : demo_kernel) : sysret * demo_kernel := (r, k).
Definition demo_read (fd : Z) : demo_kernel -> sysret * demo_kernel := fun k =>
  match dk_bytes k !! fd with Some n => (Ok (Z.max 0 n), k) | None => (Err EAGAIN, k) end.

#[export] Instance demo_SysKernel : SysKernel demo_kernel := {|
  sleep_f k _ := (Ok 0, k); usleep_f k _ := (Ok 0, k); nanosleep_f k _ _ := (Ok 0, k);
  socket_f k _ _ _ := (Ok 3, k); connect_f k _ _ _ := (Err EINPROGRESS, k);
  accept_f _ _ _ := demo_answer (Err EAGAIN);
  read_f fd _ _ := demo_read fd; readv_f fd _ _ := demo_read fd; recv_f fd _ _ _ := demo_read fd;
  recvfrom_f fd _ _ _ _ _ := demo_read fd; recvmsg_f fd _ _ := demo_read fd;
  write_f _ _ n := demo_answer (Ok n); writev_f _ _ _ := demo_answer (Ok 1);
  send_f _ _ n _ := demo_answer (Ok n); sendto_f _ _ n _ _ _ := demo_answer (Ok n);
  sendmsg_f _ _ _ := demo_answer (Ok 1);
  close_f k _ := (Ok 0, k);
  fcntl_f k fd cmd arg :=
    match arg with
    | Some v => if cmd =? F_SETFL then (Ok 0, FdManager.fcntl_setfl k fd v) else (Ok 0, k)
    | None => if cmd =? F_GETFL then (Ok (FdManager.fcntl_getfl k fd), k) else (Ok 0, k)
    end;
  ioctl_f k fd request arg :=
    (Ok 0, if request =? FIONBIO
           then FdManager.fcntl_setfl k fd (set_nonblock (negb (arg =? 0)) (FdManager.fcntl_getfl k fd)) else k);
  getsockopt_f k _ _ _ _ _ := (Ok 0, k); getsockopt_int k _ _ _ := (Ok 0, 0, k);
  setsockopt_f k _ _ _ _ _ := (Ok 0, k);
  int_at _ p := p; timespec_at _ p := (p, 0); timeval_at _ p := (p, 0)
|}.

#[export] Instance demo_SysLaws : SysLaws demo_kernel.
Proof.
  split; try done.
  - intros k fd cmd arg. simpl. destruct arg; [destruct (cmd =? F_SETFL)|destruct (cmd =? F_GETFL)]; done.
  - intros k fd request arg. simpl. by destruct (request =? FIONBIO).
  - intros k fd arg Hopen. split; [done|].
    change (nonblocking (FdManager.fcntl_getfl
      (FdManager.fcntl_setfl k fd (set_nonblock (negb (arg =? 0)) (FdManager.fcntl_getfl k fd))) fd) = negb (arg =? 0)).
    unfold nonblocking at 1. rewrite getfl_setfl_same by done. apply nonblocking_set.
Defined.

(** Thread 7 runs the fiber 1, with hooks; 3 is a socket whose reads time out after 500 ms,
    5 a file; [bytes] wait at the socket. *)
Notation demo_W := (@World (@callback (@Timer.callback hook_cb)) (@cont (@ucont demo_kernel))
  (@Sched (@Timer.callback hook_cb) (@IOM hook_cb (@Process demo_kernel)))).

Definition demo_socket : FdCtx := mkFdCtx true true true false false 3 500 no_timeout.
Definition demo_fds (bytes : gmap Z Z) : @FdManager demo_kernel :=
  mkFdManager {[ 9 := demo_socket ]} (<[3%nat := Some 9]> (resize_ptrs 64 []))
    (mkDemo ([3], ∅) kernel_3_5 bytes).
Definition demo_start (on : bool) (bytes : gmap Z Z) : demo_W :=
  mkWorld {[ 0 := mkFiber 0 0 no_context 0 None EXEC; 1 := mkFiber 1 131072 no_context 4096 None EXEC ]} 2 1 2
    {[ 7 := mkLocals (Some 1) (Some 0) (Some 0) (Some 99) ]}
    (mkSched [] [] None [] (-1) 1 0 0 true false
       (mkIOM (mkProcess (demo_fds bytes) ∅ {[ 7 := on ]} ∅ 0 5000) (Timer.new_TimerManager 0) 0 ∅ 0 [])).
Definition demo_world (on : bool) (bytes : gmap Z Z) : demo_W :=
  match contextResize 32 (demo_start on bytes) with Ret _ w => w | _ => demo_start on bytes end.

Definition demo_timer_addr (w : demo_W) : Z := fresh (dom (Timer.m_heap (timers (io w))) : gset Z).

Lemma demo_timer_fresh w : Timer.m_heap (timers (io w)) !! demo_timer_addr w = None.
Proof. apply (not_elem_of_dom (D := gset Z)). unfold demo_timer_addr. apply is_fresh. Qed.

Lemma demo_refines on bytes : refines (demo_world on bytes) (mkTable ∅ []) /\ big (demo_world on bytes).
Proof.
  assert (refines (demo_start on bytes) (mkTable ∅ [])) as Hr.
  { constructor; simpl; try done.
    - intros fd Hfd. lia.
    - by intros p [c Hc].
    - intros fd e. unfold event_at, ctx_of. simpl. rewrite lookup_empty. by destruct (_ || _), (fd <? 0).
    - intros fd Hfd _. unfold wanted, ctx_of. simpl. by destruct (fd <? 0). }
  destruct (resize_ok _ _ 32 Hr) as (w' & E & _ & Hr' & Hlen); [simpl; lia|].
  unfold demo_world. rewrite E. split; [done|]. unfold big. rewrite Hlen. lia.
Qed.

Lemma demo_wf on bytes : wf (fds (proc (demo_world on bytes))).
Proof.
  split; [vm_compute; lia|].
  intros fd a E. change (<[3%nat := Some 9]> (resize_ptrs 64 []) !! fd = Some (Some a)) in E.
  apply list_lookup_insert_Some in E as [(<- & [= <-] & _)|[_ E]]; [by exists demo_socket|].
  unfold resize_ptrs in E. rewrite resize_nil in E. by apply lookup_replicate in E as [? _].
Qed.

Lemma demo_hooked bytes : hooked 7 (demo_world true bytes) 3 demo_socket.
Proof. constructor; [reflexivity|apply demo_wf|lia|by exists 9]. Qed.

Lemma demo_can_wait on bytes : can_wait 7 1 (demo_world on bytes).
Proof.
  constructor; [by exists 99| |apply (Timer.new_wf (CB := hook_cb) 0)]. split; [reflexivity|]. by eexists.
Qed.

Definition demo_ctx_addr (w : demo_W) : Z := 50.

Lemma demo_read_apart fd : keeps_apart (demo_read fd).
Proof. intros k. unfold demo_read. by destruct (dk_bytes k !! fd). Qed.

Definition demo_empty : demo_kernel := mkDemo ([3], ∅) kernel_3_5 ∅.
Definition demo_six : demo_kernel := mkDemo ([3], ∅) kernel_3_5 {[ 3 := 6 ]}.

Lemma demo_answers_empty : Answers (demo_read 3) 0 demo_empty (Err EAGAIN) demo_empty.
Proof. by apply answers_now. Qed.
Lemma demo_answers_six : Answers (demo_read 3) 0 demo_six (Ok 6) demo_six.
Proof. by apply answers_now. Qed.
Lemma demo_sysk on bytes : sysk (proc (demo_world on bytes)) = mkDemo ([3], ∅) kernel_3_5 bytes.
Proof. reflexivity. Qed.

#[global] Opaque demo_world.

Definition demo_frame : @io_frame demo_kernel := mkIo (demo_read 3) 3 READ 500 0 None.

Lemma demo_500 : in_u 64 500.
Proof. split; [discriminate|reflexivity]. Qed.

Lemma demo_no_event : t_events (mkTable (F := @hook_cb) ∅ []) !! (io_fd demo_frame, io_event demo_frame) = None.
Proof. reflexivity. Qed.
Lemma demo_pollable_3 : pollable (proc (begun (demo_world true ∅))) (io_fd demo_frame) = true.
Proof. vm_compute. reflexivity. Qed.

(** Six bytes wait: the call is answered. No bytes wait: it is suspended, with a timer. *)
Lemma do_io_spec_witness :
  (exists w', do_io demo_timer_addr demo_ctx_addr 1 7 3 (demo_read 3) READ SO_RCVTIMEO (demo_world true {[ 3 := 6 ]})
    = Ret (Io_returned 6) w') /\
  exists w' timer, do_io demo_timer_addr demo_ctx_addr 1 7 3 (demo_read 3) READ SO_RCVTIMEO (demo_world true ∅)
      = Ret (Io_suspended (set_io_timer timer demo_frame)) w' /\
    refines w' (mkTable (<[(3, READ) := FT_of_fiber (Some 1) (-1)]> ∅) []).
Proof.
  pose proof (fun b => do_io_spec demo_timer_addr demo_ctx_addr demo_timer_fresh 1 7 3 (demo_read 3) READ SO_RCVTIMEO
    (demo_world true b) (hk_wf _ _ _ _ (demo_hooked _))) as Hspec. split.
  - destruct (Hspec {[ 3 := 6 ]}) as (_ & _ & _ & Hc). destruct (Hc demo_socket (demo_hooked _)) as (_ & _ & Hok & _).
    destruct (Hok eq_refl eq_refl eq_refl 0%nat (Ok 6) demo_six demo_answers_six (le_n 1) ltac:(discriminate)) as (w' & E & _).
    exists w'. exact E.
  - destruct (Hspec ∅) as (_ & _ & _ & Hc). destruct (Hc demo_socket (demo_hooked _)) as (_ & _ & _ & Hb).
    specialize (Hb eq_refl eq_refl eq_refl demo_500 (or_introl eq_refl) (demo_read_apart 3) 0%nat demo_empty 1 (mkTable ∅ [])
      demo_answers_empty (le_n 1) (demo_can_wait true ∅) (proj1 (demo_refines true ∅)) (proj2 (demo_refines true ∅))).
    destruct (blocks_suspends _ _ _ _ _ _ _ (proj1 Hb) demo_no_event demo_pollable_3) as (w' & timer & E & Hs).
    exists w', timer. split; [exact E|exact (su_refines _ _ _ _ _ _ Hs)].
Defined.

(** The fiber 1 waits to read from 3, without a timeout. *)
Definition demo_began : demo_W := begun (demo_world true ∅).
Definition demo_waiting : demo_W :=
  match addEvent 7 3 READ None demo_began with Ret _ w => w | _ => demo_began end.
Definition demo_table : table (F := @hook_cb) := mkTable (<[(3, READ) := FT_of_fiber (Some 1) (-1)]> ∅) [].

Lemma demo_waits : waits 1 demo_frame demo_waiting demo_table.
Proof.
  destruct (demo_refines true ∅) as [Hr Hbig].
  pose proof (register_ok 7 1 (io_fd demo_frame) (io_event demo_frame) demo_began (mkTable ∅ []) (can_wait_begun _ _ _ (demo_can_wait true ∅))
    (refines_same_events _ _ _ (same_events_begun _) Hr) (big_same_events _ _ (same_events_begun _) Hbig)) as Hreg.
  specialize (Hreg ltac:(discriminate) (or_introl eq_refl)).
  unfold demo_began in Hreg. rewrite demo_no_event, demo_pollable_3 in Hreg. fold demo_began in Hreg.
  destruct Hreg as (w1 & E & _ & Hquiet & Hr1).
  change (addEvent 7 3 READ None demo_began = Ret 0 w1) in E. unfold demo_waiting. rewrite E.
  constructor.
  - exact Hr1.
  - vm_compute. reflexivity.
  - split; [vm_compute; discriminate|left; reflexivity].
  - rewrite (quiet_tinfos _ _ Hquiet). vm_compute. reflexivity.
Qed.

Lemma demo_waiting_kept : kept (proc demo_waiting) = kept (proc demo_began).
Proof.
  unfold demo_waiting. destruct (addEvent 7 3 READ None demo_began) as [a w|e w|] eqn:E; [|done..].
  by apply kept_rest, (quiet_addEvent _ _ _ _ _ _ _ E).
Qed.

Lemma do_io_wakes_witness : exists w', run_io_timeout 7 0 3 READ demo_waiting = Ret tt w' /\
  refines w' (mkTable (delete (3, READ) (t_events demo_table)) [FT_of_fiber (Some 1) (-1)]).
Proof.
  pose proof (do_io_wakes demo_timer_addr 1 7 1 demo_frame demo_waiting demo_table demo_waits) as Hw.
  specialize (Hw ltac:(vm_compute; reflexivity)). destruct Hw as (_ & (w' & E & Hr & _) & _ & _). exists w'.
  split; [exact E|exact Hr].
Defined.
