(* ===== verification/HookCalls.v ===== *)
(** * HookCalls: [sleep], [connect], [close] and the calls on flags and options

    The hooked calls that are not reads or writes, with the laws and relations of
    [HookSpec]; the last part is a kernel that has the laws, for the witnesses. *)

From S2P Require Import Prelude FdManager Fiber Scheduler IOManager IOManagerSpec Hook HookSpec.
From S2P Require Timer.

Section Calls.
Context {K : Type} `{SysLaws K}.
Notation Proc := (@Process K).
Notation TCB := (@Timer.callback hook_cb).
Notation W := (@World (@callback TCB) (@cont (@ucont K)) (@Sched TCB (@IOM hook_cb Proc))).
Notation MW := (M W).
#[local] Existing Instance IO_sched.

Context (timer_addr ctx_addr : W -> Z).
Hypothesis timer_fresh : forall w, Timer.m_heap (timers (io w)) !! timer_addr w = None.

(** ** Sleeping *)

(** The timer of a fiber that sleeps [ms] from [now]. *)
Definition sleeper (now ms a : Z) : Timer.Timer := Timer.new_Timer now ms (Some (Timer.plain (wake a))) false.

Lemma sleep_ms_ok tid ms a w : can_wait tid a w -> in_u 64 ms ->
  exists w', sleep_ms timer_addr tid ms w = Ret (Suspended in_sleep) w' /\
    with_timer tid (timer_addr w) (sleeper (now w) ms a) w w'.
Proof.
  intros [[s Hs] (Hf & f & Hh & _) Hwf] Hms. unfold sleep_ms.
  erewrite bind_Ret by (apply GetThis_ok; [exact Hf|by exists f]).
  erewrite bind_Ret by reflexivity. rewrite Hs. cbn [on_iom].
  destruct (front_timer_ok timer_addr timer_fresh tid ms (Timer.plain (wake a)) w Hwf Hms) as (w' & E & Ht).
  exists w'. split; [|exact Ht]. erewrite bind_Ret; [done|]. unfold add_timer. erewrite bind_Ret by reflexivity.
  erewrite bind_Ret by reflexivity. exact E.
Qed.

(** What [sleep], [usleep] and [nanosleep] take [ms] to be. *)
Lemma sleep_range seconds : in_u 32 seconds ->
  u32 (seconds * 1000) = if seconds <=? 4294967 then seconds * 1000 else u32 (seconds * 1000).
Proof.
  intros [H1' H2']. change (2 ^ 32) with 4294967296 in H2'. destruct (seconds <=? 4294967) eqn:E; [|done].
  apply Z.leb_le in E. apply wrapu_small. change (2 ^ 32) with 4294967296. lia.
Qed.

Lemma nanosleep_ms_small sec nsec : 0 <= sec -> 0 <= nsec < 1000000000 ->
  sec * 1000 + nsec / 1000000 < 2 ^ 31 -> nanosleep_ms sec nsec = Some (sec * 1000 + nsec / 1000000).
Proof.
  intros Hs Hn Hlt. unfold nanosleep_ms. change (2 ^ 31) with 2147483648 in Hlt.
  assert (Z.quot (Z.quot nsec 1000) 1000 = nsec / 1000000) as ->.
  { rewrite !Z.quot_div_nonneg by (try apply Z.quot_pos; lia). by rewrite Z.div_div by lia. }
  assert (0 <= nsec / 1000000 <= 999) as Hq by (split; [by apply Z.div_pos; lia|apply Z.lt_succ_r, Z.div_lt_upper_bound; lia]).
  revert Hlt Hq. generalize (nsec / 1000000). intros q Hlt Hq.
  rewrite !bool_decide_eq_true_2 by (unfold in_s; simpl; lia). cbn [andb]. f_equal.
  rewrite wraps_small by (unfold in_s; simpl; lia). apply wrapu_small. simpl. lia.
Qed.

(** From [2^31] ms on, up to [2^32], the [int] is negative and the timer is due in the past. *)
Lemma nanosleep_ms_wraps sec nsec : 0 <= nsec < 1000000000 ->
  2 ^ 31 <= sec * 1000 + nsec / 1000000 < 2 ^ 32 ->
  nanosleep_ms sec nsec = Some (2 ^ 64 - (2 ^ 32 - (sec * 1000 + nsec / 1000000))).
Proof.
  intros Hn Hr. unfold nanosleep_ms. change (2 ^ 31) with 2147483648 in Hr. change (2 ^ 32) with 4294967296 in *.
  assert (Z.quot (Z.quot nsec 1000) 1000 = nsec / 1000000) as ->.
  { rewrite !Z.quot_div_nonneg by (try apply Z.quot_pos; lia). by rewrite Z.div_div by lia. }
  assert (0 <= nsec / 1000000 <= 999) as Hq by (split; [by apply Z.div_pos; lia|apply Z.lt_succ_r, Z.div_lt_upper_bound; lia]).
  revert Hr Hq. generalize (nsec / 1000000). intros q Hr Hq.
  rewrite !bool_decide_eq_true_2 by (unfold in_s; simpl; lia). cbn [andb]. f_equal.
  assert (s32 (sec * 1000 + q) = sec * 1000 + q - 4294967296) as ->.
  { unfold wraps. change (2 ^ 32) with 4294967296. rewrite Z.mod_small by lia.
    change (2 ^ (32 - 1)) with 2147483648. assert (sec * 1000 + q <? 2147483648 = false) as -> by (apply Z.ltb_ge; lia). done. }
  unfold wrapu. symmetry. apply Z.mod_unique_pos with (-1); simpl; lia.
Qed.

Lemma refines_enqueue (w w' : W) t ft : refines w t -> IOManagerSpec.frame w w' -> same_interest w w' ->
  contexts (io w') = contexts (io w) -> m_pendingEventCount (io w') = m_pendingEventCount (io w) ->
  m_fibers (ext w') = m_fibers (ext w) ++ [ft] -> refines w' (mkTable (t_events t) (t_queue t ++ [ft])).
Proof.
  intros Hr [] Hi Hc Hp Hq.
  assert (forall fd, ctx_of w' fd = ctx_of w fd) as Hx by (intros; unfold ctx_of; by rewrite f_fds, Hc).
  constructor.
  - intros fd. rewrite f_fds, Hx. apply (r_table _ _ _ Hr).
  - intros p. rewrite Hc, f_next. apply (r_fresh _ _ _ Hr).
  - intros fd e. unfold event_at. rewrite Hx. apply (r_events _ _ _ Hr).
  - rewrite Hp. apply (r_pending _ _ _ Hr).
  - intros fd Hfd Hne. unfold wanted. rewrite Hx, Hi. by apply (r_interest _ _ _ Hr).
  - rewrite Hq. by rewrite (r_queue _ _ _ Hr).
Qed.

(** [sleep], [usleep] and [nanosleep] of a fiber. They arm a timer of the fiber's and
    suspend it; the timer's function puts it in the queue, and when it runs the call returns 0. The
    timer is due after the time asked for, in milliseconds, when that is less than 2^32 ms
    for [sleep] and 2^31 ms for [nanosleep]; longer, [sleep] waits the remainder modulo
    2^32, and [nanosleep]'s timer is due at once. *)
Theorem sleep_spec fuel tid a w t : can_wait tid a w -> hooks_on tid w = true -> refines w t ->
  (forall seconds, in_u 32 seconds -> exists w', sleep timer_addr tid seconds w = Ret (Suspended in_sleep) w' /\
     with_timer tid (timer_addr w)
       (sleeper (now w) (if seconds <=? 4294967 then seconds * 1000 else (seconds * 1000) mod 2 ^ 32) a) w w') /\
  (forall usec, in_u 32 usec -> exists w', usleep timer_addr tid usec w = Ret (Suspended in_sleep) w' /\
     with_timer tid (timer_addr w) (sleeper (now w) (usec / 1000) a) w w') /\
  (forall req rem sec nsec, timespec_at (sysk (proc w)) req = (sec, nsec) -> 0 <= sec -> 0 <= nsec < 1000000000 ->
     let ms := sec * 1000 + nsec / 1000000 in ms < 2 ^ 32 ->
     exists w' ms', nanosleep timer_addr tid req rem w = Ret (Suspended in_sleep) w' /\
       with_timer tid (timer_addr w) (sleeper (now w) ms' a) w w' /\
       (ms < 2 ^ 31 -> ms' = ms) /\
       (2 ^ 31 <= ms -> in_u 64 (now w) -> 2 ^ 32 <= now w -> Timer.m_next (sleeper (now w) ms' a) < now w)) /\
  (exists w', run_wake tid a w = Ret tt w' /\ refines w' (mkTable (t_events t) (t_queue t ++ [FT_of_fiber (Some a) (-1)]))) /\
  resume timer_addr ctx_addr fuel tid in_sleep w = Ret (Returned 0) w.
Proof.
  intros Hcw Hon Hr. split_and!.
  - intros seconds Hs. unfold sleep. erewrite bind_Ret by reflexivity. fold (hooks_on tid w). rewrite Hon. cbn [negb].
    fold (wrapu 32 (seconds * 1000)). rewrite <- (sleep_range seconds Hs).
    apply sleep_ms_ok; [done|]. pose proof (wrapu_range 32 (seconds * 1000)). unfold in_u. simpl in *. lia.
  - intros usec Hu. unfold usleep. erewrite bind_Ret by reflexivity. fold (hooks_on tid w). rewrite Hon. cbn [negb].
    apply sleep_ms_ok; [done|]. unfold in_u in *. split; [by apply Z.div_pos; lia|].
    apply Z.div_lt_upper_bound; simpl in *; lia.
  - intros req rem sec nsec Ets Hsec Hns ms Hms.
    assert (exists ms', nanosleep_ms sec nsec = Some ms' /\ in_u 64 ms' /\ (ms < 2 ^ 31 -> ms' = ms) /\
      (2 ^ 31 <= ms -> ms' = 2 ^ 64 - (2 ^ 32 - ms))) as (ms' & Em & Hu & Hlow & Hhigh).
    { assert (0 <= ms) by (unfold ms; pose proof (Z.div_pos nsec 1000000); lia).
      destruct (Z.lt_ge_cases ms (2 ^ 31)).
      - exists ms. split; [by apply nanosleep_ms_small|]. unfold in_u. simpl in *. split_and!; intros; lia.
      - exists (2 ^ 64 - (2 ^ 32 - ms)). split; [by apply nanosleep_ms_wraps|].
        unfold in_u. simpl in *. split_and!; intros; lia. }
    destruct (sleep_ms_ok tid ms' a w Hcw Hu) as (w' & E & Ht). exists w', ms'. split_and!; try done.
    + unfold nanosleep. erewrite bind_Ret by reflexivity. fold (hooks_on tid w). rewrite Hon. cbn [negb].
      erewrite bind_Ret by reflexivity. rewrite Ets, Em. exact E.
    + intros Hge Hnow Hlo. rewrite (Hhigh Hge). simpl. unfold wrapu.
      rewrite <- (Z.mod_unique_pos (now w + (2 ^ 64 - (2 ^ 32 - ms))) (2 ^ 64) 1 (now w - (2 ^ 32 - ms))).
      all: unfold in_u in *; simpl in *; lia.
  - destruct (io_schedule_ok tid (FT_of_fiber (Some a) (-1)) w) as (w' & E & Hf & Hi & Hc & Hp & Hq); [left; by eexists|].
    exists w'. split; [exact E|]. by apply (refines_enqueue w).
  - done.
Qed.

(** ** [connect] *)

Lemma connect_ctx tid sockfd addr len timeout w c : hooked tid w sockfd c ->
  m_isClosed c = false -> m_isSocket c = true -> m_userNonblock c = false -> forall k1,
  connect_f (sysk (proc w)) sockfd addr len = (Err EINPROGRESS, k1) ->
  let w1 := set_proc (after_call tid (Err EINPROGRESS) k1 (proc w)) w in
  connect_with_timeout timer_addr ctx_addr tid sockfd addr len timeout w =
  (let! t := new_tinfo in
   let! timer :=
     (if negb (timeout =? no_timeout) then
        on_iom (t_scheduler (locals_of tid w))
          (let! a := add_condition_timer timer_addr tid timeout (connect_timeout t) t in ret (Some a))
      else ret None) in
   let! rt := on_iom (t_scheduler (locals_of tid w)) (addEvent tid sockfd WRITE None) in
   if rt =? 0 then ret (Suspended (in_connect sockfd t timer))
   else cancel_timer timer ;; let! r := connect_result tid sockfd in drop_tinfo t ;; ret r) w1.
Proof.
  intros [Hon Hwf Hfd (a & Hl & Hc)] Hcl Hs Hnb k1 E w1. unfold connect_with_timeout.
  erewrite bind_Ret by reflexivity. fold (hooks_on tid w). rewrite Hon. cbn [negb].
  erewrite bind_Ret by (by apply fd_get_ok). rewrite Hl.
  erewrite bind_Ret; [|by erewrite bind_Ret by (by apply fd_ctx_ok)]. cbv beta iota. rewrite Hcl, Hs, Hnb. cbn [negb].
  erewrite bind_Ret by (by apply sysf_ok). erewrite bind_Ret by reflexivity. fold w1.
  assert (errno_of tid w1 = EINPROGRESS) as He by (unfold errno_of; simpl; by rewrite lookup_insert_eq).
  fold (errno_of tid w1). rewrite He. cbn [ret_of Z.eqb negb orb]. by rewrite Z.eqb_refl.
Qed.

Lemma run_connect_timeout_ok tinfo w t : refines w t -> tinfos (proc w) !! tinfo = Some 0 ->
  exists w', run_connect_timeout tinfo w = Ret tt w' /\ refines w' t /\ tinfos (proc w') !! tinfo = Some ETIMEDOUT.
Proof.
  intros Hr Hv. unfold run_connect_timeout. erewrite bind_Ret by reflexivity. rewrite Hv. cbn [Z.eqb negb].
  eexists. split; [reflexivity|]. split; [by apply (refines_same_events w); [by constructor|]|].
  apply lookup_insert_eq.
Qed.

Lemma connect_resume_ok tid sockfd tinfo timer w n : tinfos (proc w) !! tinfo = Some n -> Timer.wf (timers (io w)) ->
  match timer with Some b => is_Some (Timer.m_heap (timers (io w)) !! b) | None => True end ->
  exists w', calm w w' /\ connect_resume tid sockfd tinfo timer w =
    if n =? 0 then (let! r := connect_result tid sockfd in drop_tinfo tinfo ;; ret r) w'
    else Ret (Returned (-1)) (set_proc (drop tinfo (put_errno tid n (proc w'))) w').
Proof.
  intros Hv Hwf Hb. destruct (wake_up_ok timer w Hwf Hb) as (v1 & Ev & Hcv & _).
  exists v1. split; [done|]. unfold connect_resume. erewrite bind_Ret by exact Ev.
  assert (cancelled tinfo v1 = Ret n v1) as Ec.
  { unfold cancelled. by rewrite (kept_tinfos _ _ (kept_rest _ _ (cm_quiet _ _ Hcv))), Hv. }
  erewrite bind_Ret by exact Ec. by destruct (n =? 0).
Qed.

(** C40: a hooked [connect] in progress. The fiber is suspended with the event that the
    socket is writable, and a timer when there is a timeout. But the timer's function only
    marks the call: it leaves the event where it is and does not put the fiber in the
    queue, so the call goes on waiting for the kernel. When the kernel reports the socket, a
    marked call fails with [ETIMEDOUT] without asking for the connection's result; an
    unmarked one gives the result. *)
Theorem connect_waits tid a sockfd addr len timeout w t c k1 : hooked tid w sockfd c ->
  m_isClosed c = false -> m_isSocket c = true -> m_userNonblock c = false -> in_u 64 timeout ->
  (forall k, apart k (connect_f k sockfd addr len).2) ->
  connect_f (sysk (proc w)) sockfd addr len = (Err EINPROGRESS, k1) ->
  can_wait tid a w -> refines w t -> big w -> pollable (proc w) sockfd = true ->
  t_events t !! (sockfd, WRITE) = None ->
  exists w' timer, let tinfo := next_tinfo (proc w) in
    connect_with_timeout timer_addr ctx_addr tid sockfd addr len timeout w
      = Ret (Suspended (in_connect sockfd tinfo timer)) w' /\
    refines w' (mkTable (<[(sockfd, WRITE) := FT_of_fiber (Some a) (-1)]> (t_events t)) (t_queue t)) /\
    tinfos (proc w') !! tinfo = Some 0 /\
    (timer = None <-> timeout = no_timeout) /\
    (forall b, timer = Some b -> armed b (Timer.new_Timer (GetCurrentMS k1) timeout
       (Some (Timer.bound_OnTimer tinfo (connect_timeout tinfo))) false) w') /\
    (forall w2 t2, refines w2 t2 -> tinfos (proc w2) !! tinfo = Some 0 ->
       exists w3, run_connect_timeout tinfo w2 = Ret tt w3 /\ refines w3 t2 /\
         tinfos (proc w3) !! tinfo = Some ETIMEDOUT) /\
    forall w2 n, tinfos (proc w2) !! tinfo = Some n -> Timer.wf (timers (io w2)) ->
      match timer with Some b => is_Some (Timer.m_heap (timers (io w2)) !! b) | None => True end ->
      exists w3, calm w2 w3 /\
        resume timer_addr ctx_addr 0 tid (in_connect sockfd tinfo timer) w2 =
        if n =? 0 then (let! r := connect_result tid sockfd in drop_tinfo tinfo ;; ret r) w3
        else Ret (Returned (-1)) (set_proc (drop tinfo (put_errno tid n (proc w3))) w3).
Proof.
  intros Hc Hcl Hs Hnb Hto Hap E Hcw Hr Hbig Hp Hno. rewrite (connect_ctx _ _ _ _ _ _ c Hc Hcl Hs Hnb k1 E).
  set (w1 := set_proc (after_call tid (Err EINPROGRESS) k1 (proc w)) w). cbv zeta. fold w1.
  erewrite (bind_Ret new_tinfo _ w1 (next_tinfo (proc w)) (begun w1)) by reflexivity.
  assert (same_events w (begun w1)) as Hse1.
  { constructor; try done. specialize (Hap (sysk (proc w))). by rewrite E in Hap. }
  assert (can_wait tid a (begun w1)) as Hcw1 by (by destruct Hcw).
  destruct (wait_timer_ok timer_addr timer_fresh tid timeout (connect_timeout (next_tinfo (proc w))) (next_tinfo (proc w)) (begun w1))
    as (timer & w2 & E2 & Hc2 & Hwf2 & Htm); [by destruct Hcw1|done|by destruct Hcw1|].
  change (t_scheduler (locals_of tid w)) with (t_scheduler (locals_of tid (begun w1))).
  erewrite bind_Ret by exact E2. cbv beta. pose proof (can_wait_calm _ _ _ _ Hcw1 Hc2 Hwf2) as Hcw2.
  replace (t_scheduler (locals_of tid (begun w1))) with (t_scheduler (locals_of tid w2))
    by (unfold locals_of; by rewrite (cm_locals _ _ Hc2)).
  pose proof Hcw2 as [[s Hsc] _ _]. rewrite Hsc. cbn [on_iom].
  assert (same_events w w2) as Hse2 by (transitivity (begun w1); [done|apply Hc2]).
  pose proof (register_ok tid a sockfd WRITE w2 t Hcw2 (refines_same_events _ _ _ Hse2 Hr)
    (big_same_events _ _ Hse2 Hbig) (hk_fd _ _ _ _ Hc) ltac:(by right)) as Hadd. rewrite Hno in Hadd.
  assert (pollable (proc w2) sockfd = true) as Hp2 by (rewrite <- Hp; apply (s_apart _ _ Hse2)). rewrite Hp2 in Hadd.
  destruct Hadd as (w3 & E3 & Hb3 & [Hq3 Ht3] & Hr3). erewrite bind_Ret by exact E3. cbn [Z.eqb].
  assert (tinfos (proc w3) = tinfos (proc (begun w1))) as Hti.
  { by rewrite (kept_tinfos _ _ (kept_rest _ _ Hq3)), (kept_tinfos _ _ (kept_rest _ _ (cm_quiet _ _ Hc2))). }
  exists w3, timer. split_and!; try done.
  - rewrite Hti. apply lookup_insert_eq.
  - destruct timer; [|by destruct Htm]. destruct Htm as [? _]. naive_solver.
  - intros b ->. destruct Htm as (_ & Hb & _). unfold armed in *. by rewrite Ht3.
  - intros v t2 Hr2 Hv. by apply run_connect_timeout_ok.
  - intros v n Hv Hwf Hb. by apply connect_resume_ok.
Qed.

(** ** [close] *)

Lemma del_lookup fd (s : @FdManager K) : 0 <= fd ->
  exists s', del fd s = Ret tt s' /\ lookup_ctx fd s' = None /\ kernel s' = kernel s.
Proof.
  intros Hfd. destruct (del_ok fd s Hfd) as (s' & E & _ & Hk & Hd). exists s'. split; [done|]. split; [|done].
  unfold lookup_ctx in *. destruct Hd as [[-> Hl]|[Hlt ->]]; [done|].
  destruct (fd <? 0); [done|]. by rewrite list_lookup_insert_eq.
Qed.

Lemma taken_none fd (t : table (F := @hook_cb)) :
  t_events (take_event fd WRITE (take_event fd READ t)) !! (fd, READ) = None /\
  t_events (take_event fd WRITE (take_event fd READ t)) !! (fd, WRITE) = None.
Proof.
  assert (forall e (u : table (F := @hook_cb)), t_events (take_event fd e u) !! (fd, e) = None) as Hsame.
  { intros e u. unfold take_event. destruct (t_events u !! (fd, e)) eqn:E; [apply lookup_delete_eq|done]. }
  split; [|apply Hsame]. unfold take_event at 1. destruct (t_events (take_event fd READ t) !! (fd, WRITE)); [|apply Hsame].
  cbn [t_events]. rewrite lookup_delete_ne by done. apply Hsame.
Qed.

Lemma cancelAll_taken tid fd w t : refines w t -> 0 <= fd -> pollable (proc w) fd = true ->
  exists b w', cancelAll tid fd w = Ret b w' /\ refines w' (take_event fd WRITE (take_event fd READ t)).
Proof.
  intros Hr Hfd Hp. pose proof (cancelAll_ok tid w t fd Hr Hfd) as Hc.
  destruct (bool_decide (t_events t !! (fd, READ) = None) && bool_decide (t_events t !! (fd, WRITE) = None)) eqn:E.
  - exists false, w. split; [done|]. apply andb_true_iff in E as [E1 E2]. apply bool_decide_eq_true_1 in E1, E2.
    unfold take_event. rewrite E1. by rewrite E2.
  - change (pollable (kern (io w)) fd) with (pollable (proc w) fd) in Hc. rewrite Hp in Hc.
    destruct Hc as (w' & Ec & _ & Hr'). by exists true, w'.
Qed.

(** a hooked [close] of a descriptor with a context. Before the original [close], every fiber
    that waits for the descriptor, the reader first, leaves the table of events and is put in the
    queue, and the descriptor leaves the table of contexts: nothing can wait for it any more. *)
Theorem close_wakes tid fd c w t : hooked tid w fd c -> is_Some (t_scheduler (locals_of tid w)) -> refines w t ->
  pollable (proc w) fd = true -> exists w1,
    close ctx_addr tid fd w = (let! n := sysf tid (fun k => close_f k fd) in ret (Returned n)) w1 /\
    refines w1 (take_event fd WRITE (take_event fd READ t)) /\
    t_events (take_event fd WRITE (take_event fd READ t)) !! (fd, READ) = None /\
    t_events (take_event fd WRITE (take_event fd READ t)) !! (fd, WRITE) = None /\
    lookup_ctx fd (fds (proc w1)) = None /\ timers (io w1) = timers (io w).
Proof.
  intros [Hon Hwf Hfd (a & Hl & Hc)] [s Hs] Hr Hp.
  destruct (cancelAll_taken tid fd w t Hr Hfd Hp) as (b & w1 & E1 & Hr1).
  destruct (quiet_cancelAll _ _ _ _ _ E1) as [Hq Ht].
  destruct (del_lookup fd (fds (proc w1)) Hfd) as (s' & E2 & Hd & Hk).
  set (w2 := set_proc (set_fds s' (proc w1)) w1). exists w2.
  destruct (taken_none fd t) as [HnR HnW]. split_and!; try done.
  - unfold close. erewrite bind_Ret by reflexivity. fold (hooks_on tid w). rewrite Hon. cbn [negb].
    erewrite (bind_Ret _ _ w tt w2); [done|]. erewrite bind_Ret by (by apply fd_get_ok). rewrite Hl.
    erewrite bind_Ret by reflexivity. rewrite Hs.
    erewrite (bind_Ret _ _ w tt w1); [by apply fd_op_ok|]. by erewrite bind_Ret by exact E1.
  - apply (refines_same_events w1); [|done]. constructor; try done.
    change (apart (sysk (proc w1)) (kernel s')). by rewrite Hk.
Qed.

(** ** Flags *)

(** The descriptor [fd] has the context [c], at [p]. *)
Record ctx_at (fd p : Z) (c : FdCtx) (w : W) : Prop := {
  ca_wf : FdManager.wf (fds (proc w));
  ca_fd : 0 <= fd;
  ca_ptr : lookup_ctx fd (fds (proc w)) = Some p;
  ca_obj : fd_heap (fds (proc w)) !! p = Some c
}.

Definition put_fdctx (p : Z) (c : FdCtx) (w : W) : W :=
  set_proc (set_fds (mkFdManager (<[p := c]> (fd_heap (fds (proc w)))) (m_datas (fds (proc w)))
    (kernel (fds (proc w)))) (proc w)) w.

Lemma with_ctx_ok fd p c g w : ctx_at fd p c w -> (forall n c, FdManager.ctx_ok n c -> FdManager.ctx_ok n (g c)) ->
  fd_op (with_ctx p g) w = Ret tt (put_fdctx p (g c) w) /\ ctx_at fd p (g c) (put_fdctx p (g c) w).
Proof.
  intros [Hwf Hfd Hl Hc] Hg.
  assert (with_ctx p g (fds (proc w)) = Ret tt (fds (proc (put_fdctx p (g c) w)))) as E by (unfold with_ctx; by rewrite Hc).
  split; [by rewrite (fd_op_ok _ _ _ _ E)|]. constructor; try done.
  - by eapply wf_with_ctx.
  - apply lookup_insert_eq.
Qed.

Lemma ctx_at_call fd p c w p' : ctx_at fd p c w -> kept p' = kept (proc w) -> ctx_at fd p c (set_proc p' w).
Proof.
  intros [[Hlen Hwf] Hfd Hl Hc] Hk. unfold kept in Hk. injection Hk as E1 E2 _ _ _ _.
  constructor; unfold FdManager.wf, lookup_ctx in *; change (proc (set_proc p' w)) with p'; by rewrite ?E1, ?E2.
Qed.

Lemma socket_ctx_ok fd p c w : ctx_at fd p c w -> m_isClosed c = false -> m_isSocket c = true ->
  socket_ctx ctx_addr fd w = Ret (Some p) w.
Proof.
  intros [Hwf Hfd Hl Hc] Hcl Hs. unfold socket_ctx. erewrite bind_Ret by (by apply fd_get_ok). rewrite Hl.
  erewrite bind_Ret by (by apply fd_ctx_ok). by rewrite Hcl, Hs.
Qed.

Lemma fcntl_setfl_ok tid fd p c arg w : ctx_at fd p c w -> m_isClosed c = false -> m_isSocket c = true ->
  is_Some (fstat (sysk (proc w)) fd) ->
  let c' := setUserNonblock (nonblocking arg) c in
  exists w1, fcntl_setfl ctx_addr tid fd arg w = Ret 0 w1 /\ ctx_at fd p c' w1 /\
    sysk (proc w1) = FdManager.fcntl_setfl (sysk (proc w)) fd (set_nonblock (m_sysNonblock c) arg).
Proof.
  intros Ha Hcl Hs Hopen c'.
  destruct (with_ctx_ok fd p c (setUserNonblock (nonblocking arg)) w Ha ltac:(done)) as [E Ha'].
  unfold fcntl_setfl. erewrite bind_Ret by (by eapply socket_ctx_ok). cbv beta iota.
  erewrite bind_Ret by exact E.
  erewrite bind_Ret by (apply fd_ctx_ok, Ha'). cbn [m_sysNonblock setUserNonblock].
  eexists. split; [apply (sysf_ok tid _ (Ok 0)), fcntl_setfl_f, Hopen|]. split; [|done].
  by apply ctx_at_call.
Qed.

Lemma fcntl_getfl_ok tid fd p c w : ctx_at fd p c w -> m_isClosed c = false -> m_isSocket c = true ->
  is_Some (fstat (sysk (proc w)) fd) ->
  fcntl_getfl ctx_addr tid fd w =
  Ret (set_nonblock (m_userNonblock c) (FdManager.fcntl_getfl (sysk (proc w)) fd)) w.
Proof.
  intros Ha Hcl Hs Hopen. unfold fcntl_getfl.
  erewrite bind_Ret by (apply sysf_ok, fcntl_getfl_f, Hopen). cbn [after_call ret_of].
  assert (set_proc (set_sysk (sysk (proc w)) (proc w)) w = w) as ->.
  { replace (set_sysk (sysk (proc w)) (proc w)) with (proc w) by (by destruct (proc w) as [[]]). apply set_proc_id. }
  erewrite bind_Ret by (by eapply socket_ctx_ok). cbv beta iota. by erewrite bind_Ret by (apply fd_ctx_ok, Ha).
Qed.

(** the user's view of [O_NONBLOCK] on a socket. [fcntl] with [F_SETFL] records the
    user's choice in the context, where [do_io] looks, and gives the kernel the system's; [F_GETFL] then
    shows the user's. [ioctl] with [FIONBIO] records the choice too but gives it to the
    kernel: a user who turns nonblocking off gets a socket that blocks the thread. *)
Theorem nonblock_view tid fd p c arg w : ctx_at fd p c w ->
  m_isClosed c = false -> m_isSocket c = true -> is_Some (fstat (sysk (proc w)) fd) ->
  (exists w1, fcntl ctx_addr tid fd F_SETFL arg w = Ret (Returned 0) w1 /\
     fd_heap (fds (proc w1)) !! p = Some (setUserNonblock (nonblocking arg) c) /\
     nonblocking (FdManager.fcntl_getfl (sysk (proc w1)) fd) = m_sysNonblock c /\
     exists v, fcntl ctx_addr tid fd F_GETFL 0 w1 = Ret (Returned v) w1 /\ nonblocking v = nonblocking arg) /\
  exists w1, ioctl ctx_addr tid fd FIONBIO arg w = Ret (Returned 0) w1 /\
     let b := negb (int_at (sysk (proc w)) arg =? 0) in
     fd_heap (fds (proc w1)) !! p = Some (setUserNonblock b c) /\
     nonblocking (FdManager.fcntl_getfl (sysk (proc w1)) fd) = b.
Proof.
  intros Ha Hcl Hs Hopen. split.
  - destruct (fcntl_setfl_ok tid fd p c arg w Ha Hcl Hs Hopen) as (w1 & E & Ha1 & Hk). exists w1.
    split_and!; [unfold fcntl; by erewrite bind_Ret by exact E|apply Ha1| |].
    + rewrite Hk. unfold nonblocking. rewrite getfl_setfl_same by done. apply nonblocking_set.
    + eexists. split; [|apply nonblocking_set]. unfold fcntl. erewrite bind_Ret; [reflexivity|].
      change (F_GETFL =? F_SETFL) with false. cbv iota. rewrite Z.eqb_refl.
      rewrite (fcntl_getfl_ok tid fd p _ w1 Ha1) by (done || by rewrite Hk, fstat_setfl). done.
  - destruct (ioctl_nonblock (sysk (proc w)) fd arg Hopen) as [Hr Hn]. unfold ioctl.
    erewrite bind_Ret by reflexivity. rewrite Z.eqb_refl. set (b := negb (int_at (sysk (proc w)) arg =? 0)) in *.
    destruct (with_ctx_ok fd p c (setUserNonblock b) w Ha ltac:(done)) as [E Ha'].
    erewrite (bind_Ret _ _ w tt); [|erewrite bind_Ret by (by eapply socket_ctx_ok); exact E].
    destruct (ioctl_f (sysk (proc w)) fd FIONBIO arg) as [r k'] eqn:Ei. simpl in Hr, Hn. subst r.
    erewrite bind_Ret by (apply (sysf_ok tid _ (Ok 0) k'), Ei). eexists. split; [reflexivity|].
    split; [apply Ha'|exact Hn].
Qed.

(** ** Options *)

Lemma timeval_ms_ok sec usec : 0 <= sec < 2 ^ 53 -> 0 <= usec < 1000000 ->
  timeval_ms sec usec = Some (sec * 1000 + usec / 1000).
Proof.
  intros Hs Hu. unfold timeval_ms. rewrite Z.quot_div_nonneg by lia. change (2 ^ 53) with 9007199254740992 in Hs.
  assert (0 <= usec / 1000 < 1000) as Hq by (split; [by apply Z.div_pos; lia|apply Z.div_lt_upper_bound; lia]).
  revert Hq. generalize (usec / 1000). intros q Hq.
  rewrite !bool_decide_eq_true_2 by (unfold in_s; simpl; lia). cbn [andb]. f_equal. apply wrapu_small. simpl. lia.
Qed.

(** [setsockopt]. On a thread without hooks it calls itself and never returns. With
    hooks, a timeout is recorded in the descriptor's context, in milliseconds, whatever the
    kernel answers to the call then. A timeout of zero, which is none to the kernel, is
    recorded as zero: the timer of a later read that waits is due at once. *)
Theorem setsockopt_spec tid fd p c optname optval optlen sec usec w r k' :
  timeval_at (sysk (proc w)) optval = (sec, usec) -> 0 <= sec < 2 ^ 53 -> 0 <= usec < 1000000 ->
  optname = SO_RCVTIMEO \/ optname = SO_SNDTIMEO -> ctx_at fd p c w ->
  setsockopt_f (sysk (proc w)) fd SOL_SOCKET optname optval optlen = (r, k') ->
  (hooks_on tid w = false -> forall fuel level name,
     setsockopt ctx_addr fuel tid fd level name optval optlen w = UB OutOfFuel) /\
  (hooks_on tid w = true -> forall fuel, exists w1,
     setsockopt ctx_addr (S fuel) tid fd SOL_SOCKET optname optval optlen w = Ret (Returned (ret_of r)) w1 /\
     sysk (proc w1) = k' /\ ctx_at fd p (setTimeout optname (sec * 1000 + usec / 1000) c) w1 /\
     forall tnow (cb : option TCB), in_u 64 tnow -> sec = 0 -> usec < 1000 ->
       Timer.m_next (Timer.new_Timer tnow
         (getTimeout optname (setTimeout optname (sec * 1000 + usec / 1000) c)) cb false) = tnow).
Proof.
  intros Hv Hs Hu Hname Ha E. split.
  - intros Hoff fuel level name. induction fuel as [|fuel IH]; [done|]. cbn [setsockopt].
    erewrite bind_Ret by reflexivity. fold (hooks_on tid w). by rewrite Hoff.
  - intros Hon fuel. set (ms := sec * 1000 + usec / 1000). cbn [setsockopt].
    erewrite bind_Ret by reflexivity. fold (hooks_on tid w). rewrite Hon. cbn [negb]. rewrite Z.eqb_refl.
    assert ((optname =? SO_RCVTIMEO) || (optname =? SO_SNDTIMEO) = true) as -> by (by destruct Hname as [->| ->]).
    cbn [andb]. destruct (with_ctx_ok fd p c (setTimeout optname ms) w Ha) as [Ew Ha'];
      [intros; by apply ctx_ok_setTimeout|].
    erewrite (bind_Ret _ _ w tt); [|erewrite bind_Ret by (apply fd_get_ok; apply Ha); rewrite (ca_ptr _ _ _ _ Ha);
      erewrite bind_Ret by reflexivity; rewrite Hv, (timeval_ms_ok _ _ Hs Hu); exact Ew].
    erewrite bind_Ret by (apply sysf_ok, E). eexists. split; [reflexivity|].
    destruct (kept_after tid r k' (proc (put_fdctx p (setTimeout optname ms c) w))) as [Hk Hsk]. split; [exact Hsk|].
    split; [by apply ctx_at_call|]. intros tnow cb [Ht1 Ht2] H0s H1u.
    assert (ms = 0) as ->.
    { unfold ms. rewrite H0s. rewrite Z.div_small by lia. done. }
    unfold Timer.new_Timer. simpl.
    destruct Hname as [->| ->]; simpl; rewrite Z.add_0_r; by apply wrapu_small.
Qed.
End Calls.

(** ** Witnesses *)

Lemma sleep_spec_witness :
  exists w', sleep demo_timer_addr 7 2 (demo_world true ∅) = Ret (Suspended in_sleep) w' /\
    with_timer 7 (demo_timer_addr (demo_world true ∅)) (sleeper (now (demo_world true ∅)) 2000 1) (demo_world true ∅) w'.
Proof.
  pose proof (sleep_spec demo_timer_addr demo_ctx_addr demo_timer_fresh 1 7 1 (demo_world true ∅) (mkTable ∅ [])
    (demo_can_wait true ∅) eq_refl (proj1 (demo_refines true ∅))) as [Hs _].
  exact (Hs 2 ltac:(split; [discriminate|reflexivity])).
Defined.

Lemma demo_connect_apart : forall k, apart k (connect_f (K := demo_kernel) k 3 0 16).2.
Proof. done. Qed.
Lemma demo_in_progress : connect_f (sysk (proc (demo_world true ∅))) 3 0 16 = (Err EINPROGRESS, demo_empty).
Proof. reflexivity. Qed.
Lemma demo_pollable_world : pollable (proc (demo_world true ∅)) 3 = true.
Proof. vm_compute. reflexivity. Qed.
Lemma demo_no_writer : t_events (mkTable (F := @hook_cb) ∅ []) !! (3, WRITE) = None.
Proof. reflexivity. Qed.
Lemma demo_5000 : in_u 64 5000.
Proof. split; [discriminate|reflexivity]. Qed.

Lemma connect_waits_witness :
  exists w' timer, connect_with_timeout demo_timer_addr demo_ctx_addr 7 3 0 16 5000 (demo_world true ∅)
    = Ret (Suspended (in_connect 3 (next_tinfo (proc (demo_world true ∅))) timer)) w'.
Proof.
  destruct (connect_waits demo_timer_addr demo_ctx_addr demo_timer_fresh 7 1 3 0 16 5000 (demo_world true ∅)
    (mkTable ∅ []) demo_socket demo_empty (demo_hooked _) eq_refl eq_refl eq_refl demo_5000 demo_connect_apart
    demo_in_progress (demo_can_wait true ∅) (proj1 (demo_refines true ∅)) (proj2 (demo_refines true ∅))
    demo_pollable_world demo_no_writer) as (w' & timer & E & _).
  exists w', timer. exact E.
Defined.

Lemma demo_waiting_hooked : hooked 7 demo_waiting 3 demo_socket.
Proof.
  apply (hooked_kept _ _ _ demo_began); [apply demo_waiting_kept|]. apply hooked_begun, demo_hooked.
Qed.
Lemma demo_waiting_sched : is_Some (t_scheduler (locals_of 7 demo_waiting)).
Proof. exists 99. vm_compute. reflexivity. Qed.
Lemma demo_waiting_pollable : pollable (proc demo_waiting) 3 = true.
Proof. vm_compute. reflexivity. Qed.

(** The fiber that waits to read is put in the queue. *)
Lemma close_wakes_witness : exists w1, refines w1 (take_event 3 WRITE (take_event 3 READ demo_table)) /\
  close demo_ctx_addr 7 3 demo_waiting = (let! n := sysf 7 (fun k => close_f k 3) in ret (Returned n)) w1.
Proof.
  destruct (close_wakes demo_ctx_addr 7 3 demo_socket demo_waiting demo_table demo_waiting_hooked demo_waiting_sched
    (wa_refines _ _ _ _ demo_waits) demo_waiting_pollable) as (w1 & E & Hr & _).
  exists w1. split; [exact Hr|exact E].
Defined.

Lemma demo_ctx_at on : ctx_at 3 9 demo_socket (demo_world on ∅).
Proof.
  constructor; [apply demo_wf|discriminate| |]; vm_compute; reflexivity.
Qed.
Lemma demo_open : is_Some (fstat (sysk (proc (demo_world true ∅))) 3).
Proof. eexists. vm_compute. reflexivity. Qed.

Lemma nonblock_view_witness :
  exists w1, ioctl demo_ctx_addr 7 3 FIONBIO 0 (demo_world true ∅) = Ret (Returned 0) w1 /\
    nonblocking (FdManager.fcntl_getfl (sysk (proc w1)) 3) = false.
Proof.
  destruct (nonblock_view demo_ctx_addr 7 3 9 demo_socket 0 (demo_world true ∅) (demo_ctx_at true) eq_refl eq_refl demo_open)
    as (_ & w1 & E & _ & Hn).
  exists w1. split; [exact E|exact Hn].
Defined.

Lemma demo_timeval on : timeval_at (sysk (proc (demo_world on ∅))) 2 = (2, 0).
Proof. vm_compute. reflexivity. Qed.
Lemma demo_setsockopt on :
  setsockopt_f (sysk (proc (demo_world on ∅))) 3 SOL_SOCKET SO_RCVTIMEO 2 16 = (Ok 0, demo_empty).
Proof. vm_compute. reflexivity. Qed.
Lemma demo_on on : hooks_on 7 (demo_world on ∅) = on.
Proof. vm_compute. reflexivity. Qed.
Lemma demo_sec : 0 <= 2 < 2 ^ 53 /\ 0 <= 0 < 1000000.
Proof. vm_compute. by split_and!. Qed.

Lemma setsockopt_spec_witness :
  (forall fuel, setsockopt demo_ctx_addr fuel 7 3 SOL_SOCKET SO_RCVTIMEO 2 16 (demo_world false ∅) = UB OutOfFuel) /\
  exists w1, setsockopt demo_ctx_addr 1 7 3 SOL_SOCKET SO_RCVTIMEO 2 16 (demo_world true ∅) = Ret (Returned 0) w1.
Proof.
  split.
  - intros fuel. pose proof (setsockopt_spec demo_ctx_addr 7 3 9 demo_socket SO_RCVTIMEO 2 16 2 0 (demo_world false ∅)
      (Ok 0) demo_empty (demo_timeval false) (proj1 demo_sec) (proj2 demo_sec) (or_introl eq_refl) (demo_ctx_at false)
      (demo_setsockopt false)) as [Hs _]. exact (Hs (demo_on false) fuel SOL_SOCKET SO_RCVTIMEO).
  - pose proof (setsockopt_spec demo_ctx_addr 7 3 9 demo_socket SO_RCVTIMEO 2 16 2 0 (demo_world true ∅)
      (Ok 0) demo_empty (demo_timeval true) (proj1 demo_sec) (proj2 demo_sec) (or_introl eq_refl) (demo_ctx_at true)
      (demo_setsockopt true)) as [_ Hs]. destruct (Hs (demo_on true) 0%nat) as (w1 & E & _). exists w1. exact E.
Defined.
