(* ===== verification/HttpClientTable.v ===== *)
(** * HttpClientTable: the automaton of [sylar/http/httpclient_parser.rl.cpp]

    As [HttpParserTable] is for requests: a label [trN] of the goto code is the definition [trN],
    a [case N] is [case_N], and [step] is the [switch]. Bytes are not widened here. *)

From S2P Require Import Prelude.

#[local] Open Scope bool_scope.

(** The action blocks of the transitions, by the names of the grammar. *)
Inductive action :=
  | a_mark | a_start_field | a_write_field | a_http_field | a_http_version | a_status_code
  | a_reason_phrase | a_chunk_size | a_chunked | a_content_len | a_close | a_done.

(** Where a transition goes: its actions, then [goto st<dest>]. *)
Record goto := go { acts : list action; dest : Z }.

Definition st (n : Z) : goto := go [] n.

(* SRC sylar/http/httpclient_parser.rl.cpp:137-140 httpclient_parser_execute, label tr0 *)
Definition tr0 : goto := go [a_mark] 2.
(* SRC sylar/http/httpclient_parser.rl.cpp:466-469 httpclient_parser_execute, label tr2 *)
Definition tr2 : goto := go [a_mark] 8.
(* SRC sylar/http/httpclient_parser.rl.cpp:160-180 httpclient_parser_execute, label tr3 *)
Definition tr3 : goto := go [a_chunk_size; a_done] 120.
(* SRC sylar/http/httpclient_parser.rl.cpp:245-258 httpclient_parser_execute, label tr4 *)
Definition tr4 : goto := go [a_chunk_size] 3.
(* SRC sylar/http/httpclient_parser.rl.cpp:295-308 httpclient_parser_execute, label tr6 *)
Definition tr6 : goto := go [a_chunk_size] 4.
(* SRC sylar/http/httpclient_parser.rl.cpp:181-189 httpclient_parser_execute, label tr7 *)
Definition tr7 : goto := go [a_done] 120.
(* SRC sylar/http/httpclient_parser.rl.cpp:359-362 httpclient_parser_execute, label tr8 *)
Definition tr8 : goto := go [a_start_field] 5.
(* SRC sylar/http/httpclient_parser.rl.cpp:190-210 httpclient_parser_execute, label tr9 *)
Definition tr9 : goto := go [a_write_field; a_mark; a_http_field; a_done] 120.
(* SRC sylar/http/httpclient_parser.rl.cpp:259-272 httpclient_parser_execute, label tr10 *)
Definition tr10 : goto := go [a_write_field; a_mark; a_http_field] 3.
(* SRC sylar/http/httpclient_parser.rl.cpp:309-322 httpclient_parser_execute, label tr12 *)
Definition tr12 : goto := go [a_write_field; a_mark; a_http_field] 4.
(* SRC sylar/http/httpclient_parser.rl.cpp:395-402 httpclient_parser_execute, label tr13 *)
Definition tr13 : goto := go [a_write_field; a_mark] 6.
(* SRC sylar/http/httpclient_parser.rl.cpp:431-434 httpclient_parser_execute, label tr14 *)
Definition tr14 : goto := go [a_mark] 7.
(* SRC sylar/http/httpclient_parser.rl.cpp:211-225 httpclient_parser_execute, label tr15 *)
Definition tr15 : goto := go [a_http_field; a_done] 120.
(* SRC sylar/http/httpclient_parser.rl.cpp:273-280 httpclient_parser_execute, label tr16 *)
Definition tr16 : goto := go [a_http_field] 3.
(* SRC sylar/http/httpclient_parser.rl.cpp:323-330 httpclient_parser_execute, label tr18 *)
Definition tr18 : goto := go [a_http_field] 4.
(* SRC sylar/http/httpclient_parser.rl.cpp:531-537 httpclient_parser_execute, label tr26 *)
Definition tr26 : goto := go [a_http_version] 16.
(* SRC sylar/http/httpclient_parser.rl.cpp:546-549 httpclient_parser_execute, label tr27 *)
Definition tr27 : goto := go [a_mark] 17.
(* SRC sylar/http/httpclient_parser.rl.cpp:560-568 httpclient_parser_execute, label tr28 *)
Definition tr28 : goto := go [a_status_code] 18.
(* SRC sylar/http/httpclient_parser.rl.cpp:577-580 httpclient_parser_execute, label tr30 *)
Definition tr30 : goto := go [a_mark] 19.
(* SRC sylar/http/httpclient_parser.rl.cpp:599-605 httpclient_parser_execute, label tr32 *)
Definition tr32 : goto := go [a_reason_phrase] 20.
(* SRC sylar/http/httpclient_parser.rl.cpp:766-772 httpclient_parser_execute, label tr33 *)
Definition tr33 : goto := go [a_reason_phrase] 24.
(* SRC sylar/http/httpclient_parser.rl.cpp:680-683 httpclient_parser_execute, label tr35 *)
Definition tr35 : goto := go [a_start_field] 21.
(* SRC sylar/http/httpclient_parser.rl.cpp:803-806 httpclient_parser_execute, label tr36 *)
Definition tr36 : goto := go [a_start_field] 25.
(* SRC sylar/http/httpclient_parser.rl.cpp:1288-1291 httpclient_parser_execute, label tr37 *)
Definition tr37 : goto := go [a_start_field] 44.
(* SRC sylar/http/httpclient_parser.rl.cpp:725-730 httpclient_parser_execute, label tr39 *)
Definition tr39 : goto := go [a_write_field] 22.
(* SRC sylar/http/httpclient_parser.rl.cpp:744-747 httpclient_parser_execute, label tr40 *)
Definition tr40 : goto := go [a_mark] 23.
(* SRC sylar/http/httpclient_parser.rl.cpp:721-724 httpclient_parser_execute, label tr41 *)
Definition tr41 : goto := go [a_mark] 22.
(* SRC sylar/http/httpclient_parser.rl.cpp:606-615 httpclient_parser_execute, label tr42 *)
Definition tr42 : goto := go [a_mark; a_http_field] 20.
(* SRC sylar/http/httpclient_parser.rl.cpp:773-782 httpclient_parser_execute, label tr43 *)
Definition tr43 : goto := go [a_mark; a_http_field] 24.
(* SRC sylar/http/httpclient_parser.rl.cpp:591-598 httpclient_parser_execute, label tr45 *)
Definition tr45 : goto := go [a_http_field] 20.
(* SRC sylar/http/httpclient_parser.rl.cpp:758-765 httpclient_parser_execute, label tr46 *)
Definition tr46 : goto := go [a_http_field] 24.
(* SRC sylar/http/httpclient_parser.rl.cpp:1120-1125 httpclient_parser_execute, label tr58 *)
Definition tr58 : goto := go [a_write_field] 35.
(* SRC sylar/http/httpclient_parser.rl.cpp:1116-1119 httpclient_parser_execute, label tr59 *)
Definition tr59 : goto := go [a_mark] 35.
(* SRC sylar/http/httpclient_parser.rl.cpp:1141-1150 httpclient_parser_execute, label tr60 *)
Definition tr60 : goto := go [a_mark; a_http_field] 36.
(* SRC sylar/http/httpclient_parser.rl.cpp:2541-2550 httpclient_parser_execute, label tr61 *)
Definition tr61 : goto := go [a_mark; a_http_field] 95.
(* SRC sylar/http/httpclient_parser.rl.cpp:2565-2568 httpclient_parser_execute, label tr62 *)
Definition tr62 : goto := go [a_mark] 96.
(* SRC sylar/http/httpclient_parser.rl.cpp:2349-2357 httpclient_parser_execute, label tr64 *)
Definition tr64 : goto := go [a_done] 122.
(* SRC sylar/http/httpclient_parser.rl.cpp:2384-2387 httpclient_parser_execute, label tr66 *)
Definition tr66 : goto := go [a_start_field] 90.
(* SRC sylar/http/httpclient_parser.rl.cpp:226-238 httpclient_parser_execute, label tr74 *)
Definition tr74 : goto := go [a_close; a_done] 120.
(* SRC sylar/http/httpclient_parser.rl.cpp:281-286 httpclient_parser_execute, label tr75 *)
Definition tr75 : goto := go [a_close] 3.
(* SRC sylar/http/httpclient_parser.rl.cpp:684-691 httpclient_parser_execute, label tr76 *)
Definition tr76 : goto := go [a_close; a_start_field] 21.
(* SRC sylar/http/httpclient_parser.rl.cpp:807-814 httpclient_parser_execute, label tr77 *)
Definition tr77 : goto := go [a_close; a_start_field] 25.
(* SRC sylar/http/httpclient_parser.rl.cpp:1292-1299 httpclient_parser_execute, label tr78 *)
Definition tr78 : goto := go [a_close; a_start_field] 44.
(* SRC sylar/http/httpclient_parser.rl.cpp:1810-1815 httpclient_parser_execute, label tr95 *)
Definition tr95 : goto := go [a_write_field] 61.
(* SRC sylar/http/httpclient_parser.rl.cpp:1806-1809 httpclient_parser_execute, label tr96 *)
Definition tr96 : goto := go [a_mark] 61.
(* SRC sylar/http/httpclient_parser.rl.cpp:1831-1840 httpclient_parser_execute, label tr97 *)
Definition tr97 : goto := go [a_mark; a_http_field] 62.
(* SRC sylar/http/httpclient_parser.rl.cpp:2229-2238 httpclient_parser_execute, label tr98 *)
Definition tr98 : goto := go [a_mark; a_http_field] 80.
(* SRC sylar/http/httpclient_parser.rl.cpp:2253-2256 httpclient_parser_execute, label tr99 *)
Definition tr99 : goto := go [a_mark] 81.
(* SRC sylar/http/httpclient_parser.rl.cpp:1975-1983 httpclient_parser_execute, label tr101 *)
Definition tr101 : goto := go [a_done] 121.
(* SRC sylar/http/httpclient_parser.rl.cpp:2010-2015 httpclient_parser_execute, label tr103 *)
Definition tr103 : goto := go [a_mark; a_start_field] 73.
(* SRC sylar/http/httpclient_parser.rl.cpp:1891-1894 httpclient_parser_execute, label tr104 *)
Definition tr104 : goto := go [a_mark] 64.
(* SRC sylar/http/httpclient_parser.rl.cpp:616-627 httpclient_parser_execute, label tr111 *)
Definition tr111 : goto := go [a_http_field; a_chunked] 20.
(* SRC sylar/http/httpclient_parser.rl.cpp:1959-1966 httpclient_parser_execute, label tr112 *)
Definition tr112 : goto := go [a_http_field] 71.
(* SRC sylar/http/httpclient_parser.rl.cpp:628-633 httpclient_parser_execute, label tr113 *)
Definition tr113 : goto := go [a_chunked] 20.
(* SRC sylar/http/httpclient_parser.rl.cpp:1246-1253 httpclient_parser_execute, label tr136 *)
Definition tr136 : goto := go [a_http_field] 43.
(* SRC sylar/http/httpclient_parser.rl.cpp:2333-2340 httpclient_parser_execute, label tr137 *)
Definition tr137 : goto := go [a_http_field] 88.
(* SRC sylar/http/httpclient_parser.rl.cpp:2952-2957 httpclient_parser_execute, label tr148 *)
Definition tr148 : goto := go [a_write_field] 112.
(* SRC sylar/http/httpclient_parser.rl.cpp:2948-2951 httpclient_parser_execute, label tr149 *)
Definition tr149 : goto := go [a_mark] 112.
(* SRC sylar/http/httpclient_parser.rl.cpp:2974-2983 httpclient_parser_execute, label tr150 *)
Definition tr150 : goto := go [a_mark; a_http_field] 113.
(* SRC sylar/http/httpclient_parser.rl.cpp:3123-3132 httpclient_parser_execute, label tr151 *)
Definition tr151 : goto := go [a_mark; a_http_field] 118.
(* SRC sylar/http/httpclient_parser.rl.cpp:3148-3151 httpclient_parser_execute, label tr152 *)
Definition tr152 : goto := go [a_mark] 119.
(* SRC sylar/http/httpclient_parser.rl.cpp:3050-3058 httpclient_parser_execute, label tr154 *)
Definition tr154 : goto := go [a_done] 123.
(* SRC sylar/http/httpclient_parser.rl.cpp:3086-3091 httpclient_parser_execute, label tr156 *)
Definition tr156 : goto := go [a_mark; a_start_field] 117.
(* SRC sylar/http/httpclient_parser.rl.cpp:3034-3037 httpclient_parser_execute, label tr157 *)
Definition tr157 : goto := go [a_mark] 115.
(* SRC sylar/http/httpclient_parser.rl.cpp:634-645 httpclient_parser_execute, label tr158 *)
Definition tr158 : goto := go [a_content_len; a_http_field] 20.
(* SRC sylar/http/httpclient_parser.rl.cpp:783-794 httpclient_parser_execute, label tr159 *)
Definition tr159 : goto := go [a_content_len; a_http_field] 24.
(* SRC sylar/http/httpclient_parser.rl.cpp:122-133 httpclient_parser_execute, case 1 *)
Definition case_1 (c : Z) : goto :=
  if (c =? 72)
  then tr2
  else if (c <? 65)
    then if (48 <=? c) && (c <=? 57) then tr0 else st 0
    else if (c >? 70) then if (97 <=? c) && (c <=? 102) then tr0 else st 0 else tr0.
(* SRC sylar/http/httpclient_parser.rl.cpp:141-159 httpclient_parser_execute, case 2 *)
Definition case_2 (c : Z) : goto :=
  match c with
  | 10 => tr3
  | 13 => tr4
  | 59 => tr6
  | _ =>
  if (c <? 65)
  then if (48 <=? c) && (c <=? 57) then st 2 else st 0
  else if (c >? 70) then if (97 <=? c) && (c <=? 102) then st 2 else st 0 else st 2
  end.
(* SRC sylar/http/httpclient_parser.rl.cpp:287-294 httpclient_parser_execute, case 3 *)
Definition case_3 (c : Z) : goto :=
  if (c =? 10) then tr7 else st 0.
(* SRC sylar/http/httpclient_parser.rl.cpp:331-358 httpclient_parser_execute, case 4 *)
Definition case_4 (c : Z) : goto :=
  match c with
  | 33 => tr8
  | 124 => tr8
  | 126 => tr8
  | _ =>
  if (c <? 45)
  then (if (c >? 39)
    then if (42 <=? c) && (c <=? 43) then tr8 else st 0
    else if (c >=? 35) then tr8 else st 0)
  else if (c >? 46)
    then (if (c <? 65)
      then if (48 <=? c) && (c <=? 57) then tr8 else st 0
      else if (c >? 90) then if (94 <=? c) && (c <=? 122) then tr8 else st 0 else tr8)
    else tr8
  end.
(* SRC sylar/http/httpclient_parser.rl.cpp:363-394 httpclient_parser_execute, case 5 *)
Definition case_5 (c : Z) : goto :=
  match c with
  | 10 => tr9
  | 13 => tr10
  | 33 => st 5
  | 59 => tr12
  | 61 => tr13
  | 124 => st 5
  | 126 => st 5
  | _ =>
  if (c <? 45)
  then (if (c >? 39)
    then if (42 <=? c) && (c <=? 43) then st 5 else st 0
    else if (c >=? 35) then st 5 else st 0)
  else if (c >? 46)
    then (if (c <? 65)
      then if (48 <=? c) && (c <=? 57) then st 5 else st 0
      else if (c >? 90) then if (94 <=? c) && (c <=? 122) then st 5 else st 0 else st 5)
    else st 5
  end.
(* SRC sylar/http/httpclient_parser.rl.cpp:403-430 httpclient_parser_execute, case 6 *)
Definition case_6 (c : Z) : goto :=
  match c with
  | 33 => tr14
  | 124 => tr14
  | 126 => tr14
  | _ =>
  if (c <? 45)
  then (if (c >? 39)
    then if (42 <=? c) && (c <=? 43) then tr14 else st 0
    else if (c >=? 35) then tr14 else st 0)
  else if (c >? 46)
    then (if (c <? 65)
      then if (48 <=? c) && (c <=? 57) then tr14 else st 0
      else if (c >? 90) then if (94 <=? c) && (c <=? 122) then tr14 else st 0 else tr14)
    else tr14
  end.
(* SRC sylar/http/httpclient_parser.rl.cpp:435-465 httpclient_parser_execute, case 7 *)
Definition case_7 (c : Z) : goto :=
  match c with
  | 10 => tr15
  | 13 => tr16
  | 33 => st 7
  | 59 => tr18
  | 124 => st 7
  | 126 => st 7
  | _ =>
  if (c <? 45)
  then (if (c >? 39)
    then if (42 <=? c) && (c <=? 43) then st 7 else st 0
    else if (c >=? 35) then st 7 else st 0)
  else if (c >? 46)
    then (if (c <? 65)
      then if (48 <=? c) && (c <=? 57) then st 7 else st 0
      else if (c >? 90) then if (94 <=? c) && (c <=? 122) then st 7 else st 0 else st 7)
    else st 7
  end.
(* SRC sylar/http/httpclient_parser.rl.cpp:470-477 httpclient_parser_execute, case 8 *)
Definition case_8 (c : Z) : goto :=
  if (c =? 84) then st 9 else st 0.
(* SRC sylar/http/httpclient_parser.rl.cpp:478-484 httpclient_parser_execute, case 9 *)
Definition case_9 (c : Z) : goto :=
  if (c =? 84) then st 10 else st 0.
(* SRC sylar/http/httpclient_parser.rl.cpp:485-491 httpclient_parser_execute, case 10 *)
Definition case_10 (c : Z) : goto :=
  if (c =? 80) then st 11 else st 0.
(* SRC sylar/http/httpclient_parser.rl.cpp:492-498 httpclient_parser_execute, case 11 *)
Definition case_11 (c : Z) : goto :=
  if (c =? 47) then st 12 else st 0.
(* SRC sylar/http/httpclient_parser.rl.cpp:499-505 httpclient_parser_execute, case 12 *)
Definition case_12 (c : Z) : goto :=
  if (48 <=? c) && (c <=? 57) then st 13 else st 0.
(* SRC sylar/http/httpclient_parser.rl.cpp:506-514 httpclient_parser_execute, case 13 *)
Definition case_13 (c : Z) : goto :=
  if (c =? 46) then st 14 else if (48 <=? c) && (c <=? 57) then st 13 else st 0.
(* SRC sylar/http/httpclient_parser.rl.cpp:515-521 httpclient_parser_execute, case 14 *)
Definition case_14 (c : Z) : goto :=
  if (48 <=? c) && (c <=? 57) then st 15 else st 0.
(* SRC sylar/http/httpclient_parser.rl.cpp:522-530 httpclient_parser_execute, case 15 *)
Definition case_15 (c : Z) : goto :=
  if (c =? 32) then tr26 else if (48 <=? c) && (c <=? 57) then st 15 else st 0.
(* SRC sylar/http/httpclient_parser.rl.cpp:538-545 httpclient_parser_execute, case 16 *)
Definition case_16 (c : Z) : goto :=
  if (48 <=? c) && (c <=? 57) then tr27 else st 0.
(* SRC sylar/http/httpclient_parser.rl.cpp:550-559 httpclient_parser_execute, case 17 *)
Definition case_17 (c : Z) : goto :=
  if (c =? 32) then tr28 else if (48 <=? c) && (c <=? 57) then st 17 else st 0.
(* SRC sylar/http/httpclient_parser.rl.cpp:569-576 httpclient_parser_execute, case 18 *)
Definition case_18 (c : Z) : goto :=
  if (c =? 10) then st 0 else tr30.
(* SRC sylar/http/httpclient_parser.rl.cpp:581-590 httpclient_parser_execute, case 19 *)
Definition case_19 (c : Z) : goto :=
  match c with
  | 10 => tr32
  | 13 => tr33
  | _ =>
  st 19
  end.
(* SRC sylar/http/httpclient_parser.rl.cpp:646-679 httpclient_parser_execute, case 20 *)
Definition case_20 (c : Z) : goto :=
  match c with
  | 10 => tr7
  | 13 => st 3
  | 33 => tr35
  | 67 => tr36
  | 84 => tr37
  | 99 => tr36
  | 116 => tr37
  | 124 => tr35
  | 126 => tr35
  | _ =>
  if (c <? 45)
  then (if (c >? 39)
    then if (42 <=? c) && (c <=? 43) then tr35 else st 0
    else if (c >=? 35) then tr35 else st 0)
  else if (c >? 46)
    then (if (c <? 65)
      then if (48 <=? c) && (c <=? 57) then tr35 else st 0
      else if (c >? 90) then if (94 <=? c) && (c <=? 122) then tr35 else st 0 else tr35)
    else tr35
  end.
(* SRC sylar/http/httpclient_parser.rl.cpp:692-720 httpclient_parser_execute, case 21 *)
Definition case_21 (c : Z) : goto :=
  match c with
  | 33 => st 21
  | 58 => tr39
  | 124 => st 21
  | 126 => st 21
  | _ =>
  if (c <? 45)
  then (if (c >? 39)
    then if (42 <=? c) && (c <=? 43) then st 21 else st 0
    else if (c >=? 35) then st 21 else st 0)
  else if (c >? 46)
    then (if (c <? 65)
      then if (48 <=? c) && (c <=? 57) then st 21 else st 0
      else if (c >? 90) then if (94 <=? c) && (c <=? 122) then st 21 else st 0 else st 21)
    else st 21
  end.
(* SRC sylar/http/httpclient_parser.rl.cpp:731-743 httpclient_parser_execute, case 22 *)
Definition case_22 (c : Z) : goto :=
  match c with
  | 10 => tr42
  | 13 => tr43
  | 32 => tr41
  | _ =>
  if (9 <=? c) && (c <=? 12) then tr41 else tr40
  end.
(* SRC sylar/http/httpclient_parser.rl.cpp:748-757 httpclient_parser_execute, case 23 *)
Definition case_23 (c : Z) : goto :=
  match c with
  | 10 => tr45
  | 13 => tr46
  | _ =>
  st 23
  end.
(* SRC sylar/http/httpclient_parser.rl.cpp:795-802 httpclient_parser_execute, case 24 *)
Definition case_24 (c : Z) : goto :=
  if (c =? 10) then st 20 else st 0.
(* SRC sylar/http/httpclient_parser.rl.cpp:815-845 httpclient_parser_execute, case 25 *)
Definition case_25 (c : Z) : goto :=
  match c with
  | 33 => st 21
  | 58 => tr39
  | 79 => st 26
  | 111 => st 26
  | 124 => st 21
  | 126 => st 21
  | _ =>
  if (c <? 45)
  then (if (c >? 39)
    then if (42 <=? c) && (c <=? 43) then st 21 else st 0
    else if (c >=? 35) then st 21 else st 0)
  else if (c >? 46)
    then (if (c <? 65)
      then if (48 <=? c) && (c <=? 57) then st 21 else st 0
      else if (c >? 90) then if (94 <=? c) && (c <=? 122) then st 21 else st 0 else st 21)
    else st 21
  end.
(* SRC sylar/http/httpclient_parser.rl.cpp:846-875 httpclient_parser_execute, case 26 *)
Definition case_26 (c : Z) : goto :=
  match c with
  | 33 => st 21
  | 58 => tr39
  | 78 => st 27
  | 110 => st 27
  | 124 => st 21
  | 126 => st 21
  | _ =>
  if (c <? 45)
  then (if (c >? 39)
    then if (42 <=? c) && (c <=? 43) then st 21 else st 0
    else if (c >=? 35) then st 21 else st 0)
  else if (c >? 46)
    then (if (c <? 65)
      then if (48 <=? c) && (c <=? 57) then st 21 else st 0
      else if (c >? 90) then if (94 <=? c) && (c <=? 122) then st 21 else st 0 else st 21)
    else st 21
  end.
(* SRC sylar/http/httpclient_parser.rl.cpp:876-907 httpclient_parser_execute, case 27 *)
Definition case_27 (c : Z) : goto :=
  match c with
  | 33 => st 21
  | 58 => tr39
  | 78 => st 28
  | 84 => st 101
  | 110 => st 28
  | 116 => st 101
  | 124 => st 21
  | 126 => st 21
  | _ =>
  if (c <? 45)
  then (if (c >? 39)
    then if (42 <=? c) && (c <=? 43) then st 21 else st 0
    else if (c >=? 35) then st 21 else st 0)
  else if (c >? 46)
    then (if (c <? 65)
      then if (48 <=? c) && (c <=? 57) then st 21 else st 0
      else if (c >? 90) then if (94 <=? c) && (c <=? 122) then st 21 else st 0 else st 21)
    else st 21
  end.
(* SRC sylar/http/httpclient_parser.rl.cpp:908-937 httpclient_parser_execute, case 28 *)
Definition case_28 (c : Z) : goto :=
  match c with
  | 33 => st 21
  | 58 => tr39
  | 69 => st 29
  | 101 => st 29
  | 124 => st 21
  | 126 => st 21
  | _ =>
  if (c <? 45)
  then (if (c >? 39)
    then if (42 <=? c) && (c <=? 43) then st 21 else st 0
    else if (c >=? 35) then st 21 else st 0)
  else if (c >? 46)
    then (if (c <? 65)
      then if (48 <=? c) && (c <=? 57) then st 21 else st 0
      else if (c >? 90) then if (94 <=? c) && (c <=? 122) then st 21 else st 0 else st 21)
    else st 21
  end.
(* SRC sylar/http/httpclient_parser.rl.cpp:938-967 httpclient_parser_execute, case 29 *)
Definition case_29 (c : Z) : goto :=
  match c with
  | 33 => st 21
  | 58 => tr39
  | 67 => st 30
  | 99 => st 30
  | 124 => st 21
  | 126 => st 21
  | _ =>
  if (c <? 45)
  then (if (c >? 39)
    then if (42 <=? c) && (c <=? 43) then st 21 else st 0
    else if (c >=? 35) then st 21 else st 0)
  else if (c >? 46)
    then (if (c <? 65)
      then if (48 <=? c) && (c <=? 57) then st 21 else st 0
      else if (c >? 90) then if (94 <=? c) && (c <=? 122) then st 21 else st 0 else st 21)
    else st 21
  end.
(* SRC sylar/http/httpclient_parser.rl.cpp:968-997 httpclient_parser_execute, case 30 *)
Definition case_30 (c : Z) : goto :=
  match c with
  | 33 => st 21
  | 58 => tr39
  | 84 => st 31
  | 116 => st 31
  | 124 => st 21
  | 126 => st 21
  | _ =>
  if (c <? 45)
  then (if (c >? 39)
    then if (42 <=? c) && (c <=? 43) then st 21 else st 0
    else if (c >=? 35) then st 21 else st 0)
  else if (c >? 46)
    then (if (c <? 65)
      then if (48 <=? c) && (c <=? 57) then st 21 else st 0
      else if (c >? 90) then if (94 <=? c) && (c <=? 122) then st 21 else st 0 else st 21)
    else st 21
  end.
(* SRC sylar/http/httpclient_parser.rl.cpp:998-1027 httpclient_parser_execute, case 31 *)
Definition case_31 (c : Z) : goto :=
  match c with
  | 33 => st 21
  | 58 => tr39
  | 73 => st 32
  | 105 => st 32
  | 124 => st 21
  | 126 => st 21
  | _ =>
  if (c <? 45)
  then (if (c >? 39)
    then if (42 <=? c) && (c <=? 43) then st 21 else st 0
    else if (c >=? 35) then st 21 else st 0)
  else if (c >? 46)
    then (if (c <? 65)
      then if (48 <=? c) && (c <=? 57) then st 21 else st 0
      else if (c >? 90) then if (94 <=? c) && (c <=? 122) then st 21 else st 0 else st 21)
    else st 21
  end.
(* SRC sylar/http/httpclient_parser.rl.cpp:1028-1057 httpclient_parser_execute, case 32 *)
Definition case_32 (c : Z) : goto :=
  match c with
  | 33 => st 21
  | 58 => tr39
  | 79 => st 33
  | 111 => st 33
  | 124 => st 21
  | 126 => st 21
  | _ =>
  if (c <? 45)
  then (if (c >? 39)
    then if (42 <=? c) && (c <=? 43) then st 21 else st 0
    else if (c >=? 35) then st 21 else st 0)
  else if (c >? 46)
    then (if (c <? 65)
      then if (48 <=? c) && (c <=? 57) then st 21 else st 0
      else if (c >? 90) then if (94 <=? c) && (c <=? 122) then st 21 else st 0 else st 21)
    else st 21
  end.
(* SRC sylar/http/httpclient_parser.rl.cpp:1058-1087 httpclient_parser_execute, case 33 *)
Definition case_33 (c : Z) : goto :=
  match c with
  | 33 => st 21
  | 58 => tr39
  | 78 => st 34
  | 110 => st 34
  | 124 => st 21
  | 126 => st 21
  | _ =>
  if (c <? 45)
  then (if (c >? 39)
    then if (42 <=? c) && (c <=? 43) then st 21 else st 0
    else if (c >=? 35) then st 21 else st 0)
  else if (c >? 46)
    then (if (c <? 65)
      then if (48 <=? c) && (c <=? 57) then st 21 else st 0
      else if (c >? 90) then if (94 <=? c) && (c <=? 122) then st 21 else st 0 else st 21)
    else st 21
  end.
(* SRC sylar/http/httpclient_parser.rl.cpp:1088-1115 httpclient_parser_execute, case 34 *)
Definition case_34 (c : Z) : goto :=
  match c with
  | 33 => st 21
  | 58 => tr58
  | 124 => st 21
  | 126 => st 21
  | _ =>
  if (c <? 45)
  then (if (c >? 39)
    then if (42 <=? c) && (c <=? 43) then st 21 else st 0
    else if (c >=? 35) then st 21 else st 0)
  else if (c >? 46)
    then (if (c <? 65)
      then if (48 <=? c) && (c <=? 57) then st 21 else st 0
      else if (c >? 90) then if (94 <=? c) && (c <=? 122) then st 21 else st 0 else st 21)
    else st 21
  end.
(* SRC sylar/http/httpclient_parser.rl.cpp:1126-1140 httpclient_parser_execute, case 35 *)
Definition case_35 (c : Z) : goto :=
  match c with
  | 10 => tr60
  | 13 => tr61
  | 32 => tr59
  | 67 => tr62
  | 99 => tr62
  | _ =>
  if (9 <=? c) && (c <=? 12) then tr59 else tr40
  end.
(* SRC sylar/http/httpclient_parser.rl.cpp:1151-1188 httpclient_parser_execute, case 36 *)
Definition case_36 (c : Z) : goto :=
  match c with
  | 10 => tr64
  | 13 => st 89
  | 32 => st 37
  | 33 => tr35
  | 67 => tr66
  | 84 => tr37
  | 99 => tr66
  | 116 => tr37
  | 124 => tr35
  | 126 => tr35
  | _ =>
  if (c <? 45)
  then (if (c <? 35)
    then if (9 <=? c) && (c <=? 12) then st 37 else st 0
    else if (c >? 39) then if (42 <=? c) && (c <=? 43) then tr35 else st 0 else tr35)
  else if (c >? 46)
    then (if (c <? 65)
      then if (48 <=? c) && (c <=? 57) then tr35 else st 0
      else if (c >? 90) then if (94 <=? c) && (c <=? 122) then tr35 else st 0 else tr35)
    else tr35
  end.
(* SRC sylar/http/httpclient_parser.rl.cpp:1189-1200 httpclient_parser_execute, case 37 *)
Definition case_37 (c : Z) : goto :=
  match c with
  | 32 => st 37
  | 67 => st 38
  | 99 => st 38
  | _ =>
  if (9 <=? c) && (c <=? 13) then st 37 else st 0
  end.
(* SRC sylar/http/httpclient_parser.rl.cpp:1201-1209 httpclient_parser_execute, case 38 *)
Definition case_38 (c : Z) : goto :=
  match c with
  | 76 => st 39
  | 108 => st 39
  | _ =>
  st 0
  end.
(* SRC sylar/http/httpclient_parser.rl.cpp:1210-1218 httpclient_parser_execute, case 39 *)
Definition case_39 (c : Z) : goto :=
  match c with
  | 79 => st 40
  | 111 => st 40
  | _ =>
  st 0
  end.
(* SRC sylar/http/httpclient_parser.rl.cpp:1219-1227 httpclient_parser_execute, case 40 *)
Definition case_40 (c : Z) : goto :=
  match c with
  | 83 => st 41
  | 115 => st 41
  | _ =>
  st 0
  end.
(* SRC sylar/http/httpclient_parser.rl.cpp:1228-1236 httpclient_parser_execute, case 41 *)
Definition case_41 (c : Z) : goto :=
  match c with
  | 69 => st 42
  | 101 => st 42
  | _ =>
  st 0
  end.
(* SRC sylar/http/httpclient_parser.rl.cpp:1237-1245 httpclient_parser_execute, case 42 *)
Definition case_42 (c : Z) : goto :=
  match c with
  | 10 => st 43
  | 13 => st 88
  | _ =>
  st 0
  end.
(* SRC sylar/http/httpclient_parser.rl.cpp:1254-1287 httpclient_parser_execute, case 43 *)
Definition case_43 (c : Z) : goto :=
  match c with
  | 10 => tr74
  | 13 => tr75
  | 33 => tr76
  | 67 => tr77
  | 84 => tr78
  | 99 => tr77
  | 116 => tr78
  | 124 => tr76
  | 126 => tr76
  | _ =>
  if (c <? 45)
  then (if (c >? 39)
    then if (42 <=? c) && (c <=? 43) then tr76 else st 0
    else if (c >=? 35) then tr76 else st 0)
  else if (c >? 46)
    then (if (c <? 65)
      then if (48 <=? c) && (c <=? 57) then tr76 else st 0
      else if (c >? 90) then if (94 <=? c) && (c <=? 122) then tr76 else st 0 else tr76)
    else tr76
  end.
(* SRC sylar/http/httpclient_parser.rl.cpp:1300-1330 httpclient_parser_execute, case 44 *)
Definition case_44 (c : Z) : goto :=
  match c with
  | 33 => st 21
  | 58 => tr39
  | 82 => st 45
  | 114 => st 45
  | 124 => st 21
  | 126 => st 21
  | _ =>
  if (c <? 45)
  then (if (c >? 39)
    then if (42 <=? c) && (c <=? 43) then st 21 else st 0
    else if (c >=? 35) then st 21 else st 0)
  else if (c >? 46)
    then (if (c <? 65)
      then if (48 <=? c) && (c <=? 57) then st 21 else st 0
      else if (c >? 90) then if (94 <=? c) && (c <=? 122) then st 21 else st 0 else st 21)
    else st 21
  end.
(* SRC sylar/http/httpclient_parser.rl.cpp:1331-1360 httpclient_parser_execute, case 45 *)
Definition case_45 (c : Z) : goto :=
  match c with
  | 33 => st 21
  | 58 => tr39
  | 65 => st 46
  | 97 => st 46
  | 124 => st 21
  | 126 => st 21
  | _ =>
  if (c <? 45)
  then (if (c >? 39)
    then if (42 <=? c) && (c <=? 43) then st 21 else st 0
    else if (c >=? 35) then st 21 else st 0)
  else if (c >? 46)
    then (if (c <? 66)
      then if (48 <=? c) && (c <=? 57) then st 21 else st 0
      else if (c >? 90) then if (94 <=? c) && (c <=? 122) then st 21 else st 0 else st 21)
    else st 21
  end.
(* SRC sylar/http/httpclient_parser.rl.cpp:1361-1390 httpclient_parser_execute, case 46 *)
Definition case_46 (c : Z) : goto :=
  match c with
  | 33 => st 21
  | 58 => tr39
  | 78 => st 47
  | 110 => st 47
  | 124 => st 21
  | 126 => st 21
  | _ =>
  if (c <? 45)
  then (if (c >? 39)
    then if (42 <=? c) && (c <=? 43) then st 21 else st 0
    else if (c >=? 35) then st 21 else st 0)
  else if (c >? 46)
    then (if (c <? 65)
      then if (48 <=? c) && (c <=? 57) then st 21 else st 0
      else if (c >? 90) then if (94 <=? c) && (c <=? 122) then st 21 else st 0 else st 21)
    else st 21
  end.
(* SRC sylar/http/httpclient_parser.rl.cpp:1391-1420 httpclient_parser_execute, case 47 *)
Definition case_47 (c : Z) : goto :=
  match c with
  | 33 => st 21
  | 58 => tr39
  | 83 => st 48
  | 115 => st 48
  | 124 => st 21
  | 126 => st 21
  | _ =>
  if (c <? 45)
  then (if (c >? 39)
    then if (42 <=? c) && (c <=? 43) then st 21 else st 0
    else if (c >=? 35) then st 21 else st 0)
  else if (c >? 46)
    then (if (c <? 65)
      then if (48 <=? c) && (c <=? 57) then st 21 else st 0
      else if (c >? 90) then if (94 <=? c) && (c <=? 122) then st 21 else st 0 else st 21)
    else st 21
  end.
(* SRC sylar/http/httpclient_parser.rl.cpp:1421-1450 httpclient_parser_execute, case 48 *)
Definition case_48 (c : Z) : goto :=
  match c with
  | 33 => st 21
  | 58 => tr39
  | 70 => st 49
  | 102 => st 49
  | 124 => st 21
  | 126 => st 21
  | _ =>
  if (c <? 45)
  then (if (c >? 39)
    then if (42 <=? c) && (c <=? 43) then st 21 else st 0
    else if (c >=? 35) then st 21 else st 0)
  else if (c >? 46)
    then (if (c <? 65)
      then if (48 <=? c) && (c <=? 57) then st 21 else st 0
      else if (c >? 90) then if (94 <=? c) && (c <=? 122) then st 21 else st 0 else st 21)
    else st 21
  end.
(* SRC sylar/http/httpclient_parser.rl.cpp:1451-1480 httpclient_parser_execute, case 49 *)
Definition case_49 (c : Z) : goto :=
  match c with
  | 33 => st 21
  | 58 => tr39
  | 69 => st 50
  | 101 => st 50
  | 124 => st 21
  | 126 => st 21
  | _ =>
  if (c <? 45)
  then (if (c >? 39)
    then if (42 <=? c) && (c <=? 43) then st 21 else st 0
    else if (c >=? 35) then st 21 else st 0)
  else if (c >? 46)
    then (if (c <? 65)
      then if (48 <=? c) && (c <=? 57) then st 21 else st 0
      else if (c >? 90) then if (94 <=? c) && (c <=? 122) then st 21 else st 0 else st 21)
    else st 21
  end.
(* SRC sylar/http/httpclient_parser.rl.cpp:1481-1510 httpclient_parser_execute, case 50 *)
Definition case_50 (c : Z) : goto :=
  match c with
  | 33 => st 21
  | 58 => tr39
  | 82 => st 51
  | 114 => st 51
  | 124 => st 21
  | 126 => st 21
  | _ =>
  if (c <? 45)
  then (if (c >? 39)
    then if (42 <=? c) && (c <=? 43) then st 21 else st 0
    else if (c >=? 35) then st 21 else st 0)
  else if (c >? 46)
    then (if (c <? 65)
      then if (48 <=? c) && (c <=? 57) then st 21 else st 0
      else if (c >? 90) then if (94 <=? c) && (c <=? 122) then st 21 else st 0 else st 21)
    else st 21
  end.
(* SRC sylar/http/httpclient_parser.rl.cpp:1511-1537 httpclient_parser_execute, case 51 *)
Definition case_51 (c : Z) : goto :=
  match c with
  | 33 => st 21
  | 45 => st 52
  | 46 => st 21
  | 58 => tr39
  | 124 => st 21
  | 126 => st 21
  | _ =>
  if (c <? 48)
  then (if (c >? 39)
    then if (42 <=? c) && (c <=? 43) then st 21 else st 0
    else if (c >=? 35) then st 21 else st 0)
  else if (c >? 57)
    then (if (c >? 90)
      then if (94 <=? c) && (c <=? 122) then st 21 else st 0
      else if (c >=? 65) then st 21 else st 0)
    else st 21
  end.
(* SRC sylar/http/httpclient_parser.rl.cpp:1538-1567 httpclient_parser_execute, case 52 *)
Definition case_52 (c : Z) : goto :=
  match c with
  | 33 => st 21
  | 58 => tr39
  | 69 => st 53
  | 101 => st 53
  | 124 => st 21
  | 126 => st 21
  | _ =>
  if (c <? 45)
  then (if (c >? 39)
    then if (42 <=? c) && (c <=? 43) then st 21 else st 0
    else if (c >=? 35) then st 21 else st 0)
  else if (c >? 46)
    then (if (c <? 65)
      then if (48 <=? c) && (c <=? 57) then st 21 else st 0
      else if (c >? 90) then if (94 <=? c) && (c <=? 122) then st 21 else st 0 else st 21)
    else st 21
  end.
(* SRC sylar/http/httpclient_parser.rl.cpp:1568-1597 httpclient_parser_execute, case 53 *)
Definition case_53 (c : Z) : goto :=
  match c with
  | 33 => st 21
  | 58 => tr39
  | 78 => st 54
  | 110 => st 54
  | 124 => st 21
  | 126 => st 21
  | _ =>
  if (c <? 45)
  then (if (c >? 39)
    then if (42 <=? c) && (c <=? 43) then st 21 else st 0
    else if (c >=? 35) then st 21 else st 0)
  else if (c >? 46)
    then (if (c <? 65)
      then if (48 <=? c) && (c <=? 57) then st 21 else st 0
      else if (c >? 90) then if (94 <=? c) && (c <=? 122) then st 21 else st 0 else st 21)
    else st 21
  end.
(* SRC sylar/http/httpclient_parser.rl.cpp:1598-1627 httpclient_parser_execute, case 54 *)
Definition case_54 (c : Z) : goto :=
  match c with
  | 33 => st 21
  | 58 => tr39
  | 67 => st 55
  | 99 => st 55
  | 124 => st 21
  | 126 => st 21
  | _ =>
  if (c <? 45)
  then (if (c >? 39)
    then if (42 <=? c) && (c <=? 43) then st 21 else st 0
    else if (c >=? 35) then st 21 else st 0)
  else if (c >? 46)
    then (if (c <? 65)
      then if (48 <=? c) && (c <=? 57) then st 21 else st 0
      else if (c >? 90) then if (94 <=? c) && (c <=? 122) then st 21 else st 0 else st 21)
    else st 21
  end.
(* SRC sylar/http/httpclient_parser.rl.cpp:1628-1657 httpclient_parser_execute, case 55 *)
Definition case_55 (c : Z) : goto :=
  match c with
  | 33 => st 21
  | 58 => tr39
  | 79 => st 56
  | 111 => st 56
  | 124 => st 21
  | 126 => st 21
  | _ =>
  if (c <? 45)
  then (if (c >? 39)
    then if (42 <=? c) && (c <=? 43) then st 21 else st 0
    else if (c >=? 35) then st 21 else st 0)
  else if (c >? 46)
    then (if (c <? 65)
      then if (48 <=? c) && (c <=? 57) then st 21 else st 0
      else if (c >? 90) then if (94 <=? c) && (c <=? 122) then st 21 else st 0 else st 21)
    else st 21
  end.
(* SRC sylar/http/httpclient_parser.rl.cpp:1658-1687 httpclient_parser_execute, case 56 *)
Definition case_56 (c : Z) : goto :=
  match c with
  | 33 => st 21
  | 58 => tr39
  | 68 => st 57
  | 100 => st 57
  | 124 => st 21
  | 126 => st 21
  | _ =>
  if (c <? 45)
  then (if (c >? 39)
    then if (42 <=? c) && (c <=? 43) then st 21 else st 0
    else if (c >=? 35) then st 21 else st 0)
  else if (c >? 46)
    then (if (c <? 65)
      then if (48 <=? c) && (c <=? 57) then st 21 else st 0
      else if (c >? 90) then if (94 <=? c) && (c <=? 122) then st 21 else st 0 else st 21)
    else st 21
  end.
(* SRC sylar/http/httpclient_parser.rl.cpp:1688-1717 httpclient_parser_execute, case 57 *)
Definition case_57 (c : Z) : goto :=
  match c with
  | 33 => st 21
  | 58 => tr39
  | 73 => st 58
  | 105 => st 58
  | 124 => st 21
  | 126 => st 21
  | _ =>
  if (c <? 45)
  then (if (c >? 39)
    then if (42 <=? c) && (c <=? 43) then st 21 else st 0
    else if (c >=? 35) then st 21 else st 0)
  else if (c >? 46)
    then (if (c <? 65)
      then if (48 <=? c) && (c <=? 57) then st 21 else st 0
      else if (c >? 90) then if (94 <=? c) && (c <=? 122) then st 21 else st 0 else st 21)
    else st 21
  end.
(* SRC sylar/http/httpclient_parser.rl.cpp:1718-1747 httpclient_parser_execute, case 58 *)
Definition case_58 (c : Z) : goto :=
  match c with
  | 33 => st 21
  | 58 => tr39
  | 78 => st 59
  | 110 => st 59
  | 124 => st 21
  | 126 => st 21
  | _ =>
  if (c <? 45)
  then (if (c >? 39)
    then if (42 <=? c) && (c <=? 43) then st 21 else st 0
    else if (c >=? 35) then st 21 else st 0)
  else if (c >? 46)
    then (if (c <? 65)
      then if (48 <=? c) && (c <=? 57) then st 21 else st 0
      else if (c >? 90) then if (94 <=? c) && (c <=? 122) then st 21 else st 0 else st 21)
    else st 21
  end.
(* SRC sylar/http/httpclient_parser.rl.cpp:1748-1777 httpclient_parser_execute, case 59 *)
Definition case_59 (c : Z) : goto :=
  match c with
  | 33 => st 21
  | 58 => tr39
  | 71 => st 60
  | 103 => st 60
  | 124 => st 21
  | 126 => st 21
  | _ =>
  if (c <? 45)
  then (if (c >? 39)
    then if (42 <=? c) && (c <=? 43) then st 21 else st 0
    else if (c >=? 35) then st 21 else st 0)
  else if (c >? 46)
    then (if (c <? 65)
      then if (48 <=? c) && (c <=? 57) then st 21 else st 0
      else if (c >? 90) then if (94 <=? c) && (c <=? 122) then st 21 else st 0 else st 21)
    else st 21
  end.
(* SRC sylar/http/httpclient_parser.rl.cpp:1778-1805 httpclient_parser_execute, case 60 *)
Definition case_60 (c : Z) : goto :=
  match c with
  | 33 => st 21
  | 58 => tr95
  | 124 => st 21
  | 126 => st 21
  | _ =>
  if (c <? 45)
  then (if (c >? 39)
    then if (42 <=? c) && (c <=? 43) then st 21 else st 0
    else if (c >=? 35) then st 21 else st 0)
  else if (c >? 46)
    then (if (c <? 65)
      then if (48 <=? c) && (c <=? 57) then st 21 else st 0
      else if (c >? 90) then if (94 <=? c) && (c <=? 122) then st 21 else st 0 else st 21)
    else st 21
  end.
(* SRC sylar/http/httpclient_parser.rl.cpp:1816-1830 httpclient_parser_execute, case 61 *)
Definition case_61 (c : Z) : goto :=
  match c with
  | 10 => tr97
  | 13 => tr98
  | 32 => tr96
  | 67 => tr99
  | 99 => tr99
  | _ =>
  if (9 <=? c) && (c <=? 12) then tr96 else tr40
  end.
(* SRC sylar/http/httpclient_parser.rl.cpp:1841-1878 httpclient_parser_execute, case 62 *)
Definition case_62 (c : Z) : goto :=
  match c with
  | 10 => tr101
  | 13 => st 72
  | 32 => st 63
  | 33 => tr35
  | 67 => tr103
  | 84 => tr37
  | 99 => tr103
  | 116 => tr37
  | 124 => tr35
  | 126 => tr35
  | _ =>
  if (c <? 45)
  then (if (c <? 35)
    then if (9 <=? c) && (c <=? 12) then st 63 else st 0
    else if (c >? 39) then if (42 <=? c) && (c <=? 43) then tr35 else st 0 else tr35)
  else if (c >? 46)
    then (if (c <? 65)
      then if (48 <=? c) && (c <=? 57) then tr35 else st 0
      else if (c >? 90) then if (94 <=? c) && (c <=? 122) then tr35 else st 0 else tr35)
    else tr35
  end.
(* SRC sylar/http/httpclient_parser.rl.cpp:1879-1890 httpclient_parser_execute, case 63 *)
Definition case_63 (c : Z) : goto :=
  match c with
  | 32 => st 63
  | 67 => tr104
  | 99 => tr104
  | _ =>
  if (9 <=? c) && (c <=? 13) then st 63 else st 0
  end.
(* SRC sylar/http/httpclient_parser.rl.cpp:1895-1904 httpclient_parser_execute, case 64 *)
Definition case_64 (c : Z) : goto :=
  match c with
  | 72 => st 65
  | 104 => st 65
  | _ =>
  st 0
  end.
(* SRC sylar/http/httpclient_parser.rl.cpp:1905-1913 httpclient_parser_execute, case 65 *)
Definition case_65 (c : Z) : goto :=
  match c with
  | 85 => st 66
  | 117 => st 66
  | _ =>
  st 0
  end.
(* SRC sylar/http/httpclient_parser.rl.cpp:1914-1922 httpclient_parser_execute, case 66 *)
Definition case_66 (c : Z) : goto :=
  match c with
  | 78 => st 67
  | 110 => st 67
  | _ =>
  st 0
  end.
(* SRC sylar/http/httpclient_parser.rl.cpp:1923-1931 httpclient_parser_execute, case 67 *)
Definition case_67 (c : Z) : goto :=
  match c with
  | 75 => st 68
  | 107 => st 68
  | _ =>
  st 0
  end.
(* SRC sylar/http/httpclient_parser.rl.cpp:1932-1940 httpclient_parser_execute, case 68 *)
Definition case_68 (c : Z) : goto :=
  match c with
  | 69 => st 69
  | 101 => st 69
  | _ =>
  st 0
  end.
(* SRC sylar/http/httpclient_parser.rl.cpp:1941-1949 httpclient_parser_execute, case 69 *)
Definition case_69 (c : Z) : goto :=
  match c with
  | 68 => st 70
  | 100 => st 70
  | _ =>
  st 0
  end.
(* SRC sylar/http/httpclient_parser.rl.cpp:1950-1958 httpclient_parser_execute, case 70 *)
Definition case_70 (c : Z) : goto :=
  match c with
  | 10 => tr111
  | 13 => tr112
  | _ =>
  st 0
  end.
(* SRC sylar/http/httpclient_parser.rl.cpp:1967-1974 httpclient_parser_execute, case 71 *)
Definition case_71 (c : Z) : goto :=
  if (c =? 10) then tr113 else st 0.
(* SRC sylar/http/httpclient_parser.rl.cpp:1997-2009 httpclient_parser_execute, case 72 *)
Definition case_72 (c : Z) : goto :=
  match c with
  | 10 => tr101
  | 32 => st 63
  | 67 => tr104
  | 99 => tr104
  | _ =>
  if (9 <=? c) && (c <=? 13) then st 63 else st 0
  end.
(* SRC sylar/http/httpclient_parser.rl.cpp:2016-2048 httpclient_parser_execute, case 73 *)
Definition case_73 (c : Z) : goto :=
  match c with
  | 33 => st 21
  | 58 => tr39
  | 72 => st 74
  | 79 => st 26
  | 104 => st 74
  | 111 => st 26
  | 124 => st 21
  | 126 => st 21
  | _ =>
  if (c <? 45)
  then (if (c >? 39)
    then if (42 <=? c) && (c <=? 43) then st 21 else st 0
    else if (c >=? 35) then st 21 else st 0)
  else if (c >? 46)
    then (if (c <? 65)
      then if (48 <=? c) && (c <=? 57) then st 21 else st 0
      else if (c >? 90) then if (94 <=? c) && (c <=? 122) then st 21 else st 0 else st 21)
    else st 21
  end.
(* SRC sylar/http/httpclient_parser.rl.cpp:2049-2078 httpclient_parser_execute, case 74 *)
Definition case_74 (c : Z) : goto :=
  match c with
  | 33 => st 21
  | 58 => tr39
  | 85 => st 75
  | 117 => st 75
  | 124 => st 21
  | 126 => st 21
  | _ =>
  if (c <? 45)
  then (if (c >? 39)
    then if (42 <=? c) && (c <=? 43) then st 21 else st 0
    else if (c >=? 35) then st 21 else st 0)
  else if (c >? 46)
    then (if (c <? 65)
      then if (48 <=? c) && (c <=? 57) then st 21 else st 0
      else if (c >? 90) then if (94 <=? c) && (c <=? 122) then st 21 else st 0 else st 21)
    else st 21
  end.
(* SRC sylar/http/httpclient_parser.rl.cpp:2079-2108 httpclient_parser_execute, case 75 *)
Definition case_75 (c : Z) : goto :=
  match c with
  | 33 => st 21
  | 58 => tr39
  | 78 => st 76
  | 110 => st 76
  | 124 => st 21
  | 126 => st 21
  | _ =>
  if (c <? 45)
  then (if (c >? 39)
    then if (42 <=? c) && (c <=? 43) then st 21 else st 0
    else if (c >=? 35) then st 21 else st 0)
  else if (c >? 46)
    then (if (c <? 65)
      then if (48 <=? c) && (c <=? 57) then st 21 else st 0
      else if (c >? 90) then if (94 <=? c) && (c <=? 122) then st 21 else st 0 else st 21)
    else st 21
  end.
(* SRC sylar/http/httpclient_parser.rl.cpp:2109-2138 httpclient_parser_execute, case 76 *)
Definition case_76 (c : Z) : goto :=
  match c with
  | 33 => st 21
  | 58 => tr39
  | 75 => st 77
  | 107 => st 77
  | 124 => st 21
  | 126 => st 21
  | _ =>
  if (c <? 45)
  then (if (c >? 39)
    then if (42 <=? c) && (c <=? 43) then st 21 else st 0
    else if (c >=? 35) then st 21 else st 0)
  else if (c >? 46)
    then (if (c <? 65)
      then if (48 <=? c) && (c <=? 57) then st 21 else st 0
      else if (c >? 90) then if (94 <=? c) && (c <=? 122) then st 21 else st 0 else st 21)
    else st 21
  end.
(* SRC sylar/http/httpclient_parser.rl.cpp:2139-2168 httpclient_parser_execute, case 77 *)
Definition case_77 (c : Z) : goto :=
  match c with
  | 33 => st 21
  | 58 => tr39
  | 69 => st 78
  | 101 => st 78
  | 124 => st 21
  | 126 => st 21
  | _ =>
  if (c <? 45)
  then (if (c >? 39)
    then if (42 <=? c) && (c <=? 43) then st 21 else st 0
    else if (c >=? 35) then st 21 else st 0)
  else if (c >? 46)
    then (if (c <? 65)
      then if (48 <=? c) && (c <=? 57) then st 21 else st 0
      else if (c >? 90) then if (94 <=? c) && (c <=? 122) then st 21 else st 0 else st 21)
    else st 21
  end.
(* SRC sylar/http/httpclient_parser.rl.cpp:2169-2198 httpclient_parser_execute, case 78 *)
Definition case_78 (c : Z) : goto :=
  match c with
  | 33 => st 21
  | 58 => tr39
  | 68 => st 79
  | 100 => st 79
  | 124 => st 21
  | 126 => st 21
  | _ =>
  if (c <? 45)
  then (if (c >? 39)
    then if (42 <=? c) && (c <=? 43) then st 21 else st 0
    else if (c >=? 35) then st 21 else st 0)
  else if (c >? 46)
    then (if (c <? 65)
      then if (48 <=? c) && (c <=? 57) then st 21 else st 0
      else if (c >? 90) then if (94 <=? c) && (c <=? 122) then st 21 else st 0 else st 21)
    else st 21
  end.
(* SRC sylar/http/httpclient_parser.rl.cpp:2199-2228 httpclient_parser_execute, case 79 *)
Definition case_79 (c : Z) : goto :=
  match c with
  | 10 => tr111
  | 13 => tr112
  | 33 => st 21
  | 58 => tr39
  | 124 => st 21
  | 126 => st 21
  | _ =>
  if (c <? 45)
  then (if (c >? 39)
    then if (42 <=? c) && (c <=? 43) then st 21 else st 0
    else if (c >=? 35) then st 21 else st 0)
  else if (c >? 46)
    then (if (c <? 65)
      then if (48 <=? c) && (c <=? 57) then st 21 else st 0
      else if (c >? 90) then if (94 <=? c) && (c <=? 122) then st 21 else st 0 else st 21)
    else st 21
  end.
(* SRC sylar/http/httpclient_parser.rl.cpp:2239-2252 httpclient_parser_execute, case 80 *)
Definition case_80 (c : Z) : goto :=
  match c with
  | 10 => st 62
  | 32 => st 63
  | 67 => tr104
  | 99 => tr104
  | _ =>
  if (9 <=? c) && (c <=? 13) then st 63 else st 0
  end.
(* SRC sylar/http/httpclient_parser.rl.cpp:2257-2268 httpclient_parser_execute, case 81 *)
Definition case_81 (c : Z) : goto :=
  match c with
  | 10 => tr45
  | 13 => tr46
  | 72 => st 82
  | 104 => st 82
  | _ =>
  st 23
  end.
(* SRC sylar/http/httpclient_parser.rl.cpp:2269-2279 httpclient_parser_execute, case 82 *)
Definition case_82 (c : Z) : goto :=
  match c with
  | 10 => tr45
  | 13 => tr46
  | 85 => st 83
  | 117 => st 83
  | _ =>
  st 23
  end.
(* SRC sylar/http/httpclient_parser.rl.cpp:2280-2290 httpclient_parser_execute, case 83 *)
Definition case_83 (c : Z) : goto :=
  match c with
  | 10 => tr45
  | 13 => tr46
  | 78 => st 84
  | 110 => st 84
  | _ =>
  st 23
  end.
(* SRC sylar/http/httpclient_parser.rl.cpp:2291-2301 httpclient_parser_execute, case 84 *)
Definition case_84 (c : Z) : goto :=
  match c with
  | 10 => tr45
  | 13 => tr46
  | 75 => st 85
  | 107 => st 85
  | _ =>
  st 23
  end.
(* SRC sylar/http/httpclient_parser.rl.cpp:2302-2312 httpclient_parser_execute, case 85 *)
Definition case_85 (c : Z) : goto :=
  match c with
  | 10 => tr45
  | 13 => tr46
  | 69 => st 86
  | 101 => st 86
  | _ =>
  st 23
  end.
(* SRC sylar/http/httpclient_parser.rl.cpp:2313-2323 httpclient_parser_execute, case 86 *)
Definition case_86 (c : Z) : goto :=
  match c with
  | 10 => tr45
  | 13 => tr46
  | 68 => st 87
  | 100 => st 87
  | _ =>
  st 23
  end.
(* SRC sylar/http/httpclient_parser.rl.cpp:2324-2332 httpclient_parser_execute, case 87 *)
Definition case_87 (c : Z) : goto :=
  match c with
  | 10 => tr111
  | 13 => tr112
  | _ =>
  st 23
  end.
(* SRC sylar/http/httpclient_parser.rl.cpp:2341-2348 httpclient_parser_execute, case 88 *)
Definition case_88 (c : Z) : goto :=
  if (c =? 10) then st 43 else st 0.
(* SRC sylar/http/httpclient_parser.rl.cpp:2371-2383 httpclient_parser_execute, case 89 *)
Definition case_89 (c : Z) : goto :=
  match c with
  | 10 => tr64
  | 32 => st 37
  | 67 => st 38
  | 99 => st 38
  | _ =>
  if (9 <=? c) && (c <=? 13) then st 37 else st 0
  end.
(* SRC sylar/http/httpclient_parser.rl.cpp:2388-2420 httpclient_parser_execute, case 90 *)
Definition case_90 (c : Z) : goto :=
  match c with
  | 33 => st 21
  | 58 => tr39
  | 76 => st 91
  | 79 => st 26
  | 108 => st 91
  | 111 => st 26
  | 124 => st 21
  | 126 => st 21
  | _ =>
  if (c <? 45)
  then (if (c >? 39)
    then if (42 <=? c) && (c <=? 43) then st 21 else st 0
    else if (c >=? 35) then st 21 else st 0)
  else if (c >? 46)
    then (if (c <? 65)
      then if (48 <=? c) && (c <=? 57) then st 21 else st 0
      else if (c >? 90) then if (94 <=? c) && (c <=? 122) then st 21 else st 0 else st 21)
    else st 21
  end.
(* SRC sylar/http/httpclient_parser.rl.cpp:2421-2450 httpclient_parser_execute, case 91 *)
Definition case_91 (c : Z) : goto :=
  match c with
  | 33 => st 21
  | 58 => tr39
  | 79 => st 92
  | 111 => st 92
  | 124 => st 21
  | 126 => st 21
  | _ =>
  if (c <? 45)
  then (if (c >? 39)
    then if (42 <=? c) && (c <=? 43) then st 21 else st 0
    else if (c >=? 35) then st 21 else st 0)
  else if (c >? 46)
    then (if (c <? 65)
      then if (48 <=? c) && (c <=? 57) then st 21 else st 0
      else if (c >? 90) then if (94 <=? c) && (c <=? 122) then st 21 else st 0 else st 21)
    else st 21
  end.
(* SRC sylar/http/httpclient_parser.rl.cpp:2451-2480 httpclient_parser_execute, case 92 *)
Definition case_92 (c : Z) : goto :=
  match c with
  | 33 => st 21
  | 58 => tr39
  | 83 => st 93
  | 115 => st 93
  | 124 => st 21
  | 126 => st 21
  | _ =>
  if (c <? 45)
  then (if (c >? 39)
    then if (42 <=? c) && (c <=? 43) then st 21 else st 0
    else if (c >=? 35) then st 21 else st 0)
  else if (c >? 46)
    then (if (c <? 65)
      then if (48 <=? c) && (c <=? 57) then st 21 else st 0
      else if (c >? 90) then if (94 <=? c) && (c <=? 122) then st 21 else st 0 else st 21)
    else st 21
  end.
(* SRC sylar/http/httpclient_parser.rl.cpp:2481-2510 httpclient_parser_execute, case 93 *)
Definition case_93 (c : Z) : goto :=
  match c with
  | 33 => st 21
  | 58 => tr39
  | 69 => st 94
  | 101 => st 94
  | 124 => st 21
  | 126 => st 21
  | _ =>
  if (c <? 45)
  then (if (c >? 39)
    then if (42 <=? c) && (c <=? 43) then st 21 else st 0
    else if (c >=? 35) then st 21 else st 0)
  else if (c >? 46)
    then (if (c <? 65)
      then if (48 <=? c) && (c <=? 57) then st 21 else st 0
      else if (c >? 90) then if (94 <=? c) && (c <=? 122) then st 21 else st 0 else st 21)
    else st 21
  end.
(* SRC sylar/http/httpclient_parser.rl.cpp:2511-2540 httpclient_parser_execute, case 94 *)
Definition case_94 (c : Z) : goto :=
  match c with
  | 10 => st 43
  | 13 => st 88
  | 33 => st 21
  | 58 => tr39
  | 124 => st 21
  | 126 => st 21
  | _ =>
  if (c <? 45)
  then (if (c >? 39)
    then if (42 <=? c) && (c <=? 43) then st 21 else st 0
    else if (c >=? 35) then st 21 else st 0)
  else if (c >? 46)
    then (if (c <? 65)
      then if (48 <=? c) && (c <=? 57) then st 21 else st 0
      else if (c >? 90) then if (94 <=? c) && (c <=? 122) then st 21 else st 0 else st 21)
    else st 21
  end.
(* SRC sylar/http/httpclient_parser.rl.cpp:2551-2564 httpclient_parser_execute, case 95 *)
Definition case_95 (c : Z) : goto :=
  match c with
  | 10 => st 36
  | 32 => st 37
  | 67 => st 38
  | 99 => st 38
  | _ =>
  if (9 <=? c) && (c <=? 13) then st 37 else st 0
  end.
(* SRC sylar/http/httpclient_parser.rl.cpp:2569-2580 httpclient_parser_execute, case 96 *)
Definition case_96 (c : Z) : goto :=
  match c with
  | 10 => tr45
  | 13 => tr46
  | 76 => st 97
  | 108 => st 97
  | _ =>
  st 23
  end.
(* SRC sylar/http/httpclient_parser.rl.cpp:2581-2591 httpclient_parser_execute, case 97 *)
Definition case_97 (c : Z) : goto :=
  match c with
  | 10 => tr45
  | 13 => tr46
  | 79 => st 98
  | 111 => st 98
  | _ =>
  st 23
  end.
(* SRC sylar/http/httpclient_parser.rl.cpp:2592-2602 httpclient_parser_execute, case 98 *)
Definition case_98 (c : Z) : goto :=
  match c with
  | 10 => tr45
  | 13 => tr46
  | 83 => st 99
  | 115 => st 99
  | _ =>
  st 23
  end.
(* SRC sylar/http/httpclient_parser.rl.cpp:2603-2613 httpclient_parser_execute, case 99 *)
Definition case_99 (c : Z) : goto :=
  match c with
  | 10 => tr45
  | 13 => tr46
  | 69 => st 100
  | 101 => st 100
  | _ =>
  st 23
  end.
(* SRC sylar/http/httpclient_parser.rl.cpp:2614-2622 httpclient_parser_execute, case 100 *)
Definition case_100 (c : Z) : goto :=
  match c with
  | 10 => tr136
  | 13 => tr137
  | _ =>
  st 23
  end.
(* SRC sylar/http/httpclient_parser.rl.cpp:2623-2652 httpclient_parser_execute, case 101 *)
Definition case_101 (c : Z) : goto :=
  match c with
  | 33 => st 21
  | 58 => tr39
  | 69 => st 102
  | 101 => st 102
  | 124 => st 21
  | 126 => st 21
  | _ =>
  if (c <? 45)
  then (if (c >? 39)
    then if (42 <=? c) && (c <=? 43) then st 21 else st 0
    else if (c >=? 35) then st 21 else st 0)
  else if (c >? 46)
    then (if (c <? 65)
      then if (48 <=? c) && (c <=? 57) then st 21 else st 0
      else if (c >? 90) then if (94 <=? c) && (c <=? 122) then st 21 else st 0 else st 21)
    else st 21
  end.
(* SRC sylar/http/httpclient_parser.rl.cpp:2653-2682 httpclient_parser_execute, case 102 *)
Definition case_102 (c : Z) : goto :=
  match c with
  | 33 => st 21
  | 58 => tr39
  | 78 => st 103
  | 110 => st 103
  | 124 => st 21
  | 126 => st 21
  | _ =>
  if (c <? 45)
  then (if (c >? 39)
    then if (42 <=? c) && (c <=? 43) then st 21 else st 0
    else if (c >=? 35) then st 21 else st 0)
  else if (c >? 46)
    then (if (c <? 65)
      then if (48 <=? c) && (c <=? 57) then st 21 else st 0
      else if (c >? 90) then if (94 <=? c) && (c <=? 122) then st 21 else st 0 else st 21)
    else st 21
  end.
(* SRC sylar/http/httpclient_parser.rl.cpp:2683-2712 httpclient_parser_execute, case 103 *)
Definition case_103 (c : Z) : goto :=
  match c with
  | 33 => st 21
  | 58 => tr39
  | 84 => st 104
  | 116 => st 104
  | 124 => st 21
  | 126 => st 21
  | _ =>
  if (c <? 45)
  then (if (c >? 39)
    then if (42 <=? c) && (c <=? 43) then st 21 else st 0
    else if (c >=? 35) then st 21 else st 0)
  else if (c >? 46)
    then (if (c <? 65)
      then if (48 <=? c) && (c <=? 57) then st 21 else st 0
      else if (c >? 90) then if (94 <=? c) && (c <=? 122) then st 21 else st 0 else st 21)
    else st 21
  end.
(* SRC sylar/http/httpclient_parser.rl.cpp:2713-2739 httpclient_parser_execute, case 104 *)
Definition case_104 (c : Z) : goto :=
  match c with
  | 33 => st 21
  | 45 => st 105
  | 46 => st 21
  | 58 => tr39
  | 124 => st 21
  | 126 => st 21
  | _ =>
  if (c <? 48)
  then (if (c >? 39)
    then if (42 <=? c) && (c <=? 43) then st 21 else st 0
    else if (c >=? 35) then st 21 else st 0)
  else if (c >? 57)
    then (if (c >? 90)
      then if (94 <=? c) && (c <=? 122) then st 21 else st 0
      else if (c >=? 65) then st 21 else st 0)
    else st 21
  end.
(* SRC sylar/http/httpclient_parser.rl.cpp:2740-2769 httpclient_parser_execute, case 105 *)
Definition case_105 (c : Z) : goto :=
  match c with
  | 33 => st 21
  | 58 => tr39
  | 76 => st 106
  | 108 => st 106
  | 124 => st 21
  | 126 => st 21
  | _ =>
  if (c <? 45)
  then (if (c >? 39)
    then if (42 <=? c) && (c <=? 43) then st 21 else st 0
    else if (c >=? 35) then st 21 else st 0)
  else if (c >? 46)
    then (if (c <? 65)
      then if (48 <=? c) && (c <=? 57) then st 21 else st 0
      else if (c >? 90) then if (94 <=? c) && (c <=? 122) then st 21 else st 0 else st 21)
    else st 21
  end.
(* SRC sylar/http/httpclient_parser.rl.cpp:2770-2799 httpclient_parser_execute, case 106 *)
Definition case_106 (c : Z) : goto :=
  match c with
  | 33 => st 21
  | 58 => tr39
  | 69 => st 107
  | 101 => st 107
  | 124 => st 21
  | 126 => st 21
  | _ =>
  if (c <? 45)
  then (if (c >? 39)
    then if (42 <=? c) && (c <=? 43) then st 21 else st 0
    else if (c >=? 35) then st 21 else st 0)
  else if (c >? 46)
    then (if (c <? 65)
      then if (48 <=? c) && (c <=? 57) then st 21 else st 0
      else if (c >? 90) then if (94 <=? c) && (c <=? 122) then st 21 else st 0 else st 21)
    else st 21
  end.
(* SRC sylar/http/httpclient_parser.rl.cpp:2800-2829 httpclient_parser_execute, case 107 *)
Definition case_107 (c : Z) : goto :=
  match c with
  | 33 => st 21
  | 58 => tr39
  | 78 => st 108
  | 110 => st 108
  | 124 => st 21
  | 126 => st 21
  | _ =>
  if (c <? 45)
  then (if (c >? 39)
    then if (42 <=? c) && (c <=? 43) then st 21 else st 0
    else if (c >=? 35) then st 21 else st 0)
  else if (c >? 46)
    then (if (c <? 65)
      then if (48 <=? c) && (c <=? 57) then st 21 else st 0
      else if (c >? 90) then if (94 <=? c) && (c <=? 122) then st 21 else st 0 else st 21)
    else st 21
  end.
(* SRC sylar/http/httpclient_parser.rl.cpp:2830-2859 httpclient_parser_execute, case 108 *)
Definition case_108 (c : Z) : goto :=
  match c with
  | 33 => st 21
  | 58 => tr39
  | 71 => st 109
  | 103 => st 109
  | 124 => st 21
  | 126 => st 21
  | _ =>
  if (c <? 45)
  then (if (c >? 39)
    then if (42 <=? c) && (c <=? 43) then st 21 else st 0
    else if (c >=? 35) then st 21 else st 0)
  else if (c >? 46)
    then (if (c <? 65)
      then if (48 <=? c) && (c <=? 57) then st 21 else st 0
      else if (c >? 90) then if (94 <=? c) && (c <=? 122) then st 21 else st 0 else st 21)
    else st 21
  end.
(* SRC sylar/http/httpclient_parser.rl.cpp:2860-2889 httpclient_parser_execute, case 109 *)
Definition case_109 (c : Z) : goto :=
  match c with
  | 33 => st 21
  | 58 => tr39
  | 84 => st 110
  | 116 => st 110
  | 124 => st 21
  | 126 => st 21
  | _ =>
  if (c <? 45)
  then (if (c >? 39)
    then if (42 <=? c) && (c <=? 43) then st 21 else st 0
    else if (c >=? 35) then st 21 else st 0)
  else if (c >? 46)
    then (if (c <? 65)
      then if (48 <=? c) && (c <=? 57) then st 21 else st 0
      else if (c >? 90) then if (94 <=? c) && (c <=? 122) then st 21 else st 0 else st 21)
    else st 21
  end.
(* SRC sylar/http/httpclient_parser.rl.cpp:2890-2919 httpclient_parser_execute, case 110 *)
Definition case_110 (c : Z) : goto :=
  match c with
  | 33 => st 21
  | 58 => tr39
  | 72 => st 111
  | 104 => st 111
  | 124 => st 21
  | 126 => st 21
  | _ =>
  if (c <? 45)
  then (if (c >? 39)
    then if (42 <=? c) && (c <=? 43) then st 21 else st 0
    else if (c >=? 35) then st 21 else st 0)
  else if (c >? 46)
    then (if (c <? 65)
      then if (48 <=? c) && (c <=? 57) then st 21 else st 0
      else if (c >? 90) then if (94 <=? c) && (c <=? 122) then st 21 else st 0 else st 21)
    else st 21
  end.
(* SRC sylar/http/httpclient_parser.rl.cpp:2920-2947 httpclient_parser_execute, case 111 *)
Definition case_111 (c : Z) : goto :=
  match c with
  | 33 => st 21
  | 58 => tr148
  | 124 => st 21
  | 126 => st 21
  | _ =>
  if (c <? 45)
  then (if (c >? 39)
    then if (42 <=? c) && (c <=? 43) then st 21 else st 0
    else if (c >=? 35) then st 21 else st 0)
  else if (c >? 46)
    then (if (c <? 65)
      then if (48 <=? c) && (c <=? 57) then st 21 else st 0
      else if (c >? 90) then if (94 <=? c) && (c <=? 122) then st 21 else st 0 else st 21)
    else st 21
  end.
(* SRC sylar/http/httpclient_parser.rl.cpp:2958-2973 httpclient_parser_execute, case 112 *)
Definition case_112 (c : Z) : goto :=
  match c with
  | 10 => tr150
  | 13 => tr151
  | 32 => tr149
  | _ =>
  if (c >? 12)
  then if (48 <=? c) && (c <=? 57) then tr152 else tr40
  else if (c >=? 9) then tr149 else tr40
  end.
(* SRC sylar/http/httpclient_parser.rl.cpp:2984-3021 httpclient_parser_execute, case 113 *)
Definition case_113 (c : Z) : goto :=
  match c with
  | 10 => tr154
  | 13 => st 116
  | 32 => st 114
  | 33 => tr35
  | 67 => tr36
  | 84 => tr37
  | 99 => tr36
  | 116 => tr37
  | 124 => tr35
  | 126 => tr35
  | _ =>
  if (c <? 45)
  then (if (c <? 35)
    then if (9 <=? c) && (c <=? 12) then st 114 else st 0
    else if (c >? 39) then if (42 <=? c) && (c <=? 43) then tr35 else st 0 else tr35)
  else if (c >? 46)
    then (if (c <? 65)
      then if (48 <=? c) && (c <=? 57) then tr156 else st 0
      else if (c >? 90) then if (94 <=? c) && (c <=? 122) then tr35 else st 0 else tr35)
    else tr35
  end.
(* SRC sylar/http/httpclient_parser.rl.cpp:3022-3033 httpclient_parser_execute, case 114 *)
Definition case_114 (c : Z) : goto :=
  if (c =? 32)
  then st 114
  else if (c >? 13)
    then if (48 <=? c) && (c <=? 57) then tr157 else st 0
    else if (c >=? 9) then st 114 else st 0.
(* SRC sylar/http/httpclient_parser.rl.cpp:3038-3049 httpclient_parser_execute, case 115 *)
Definition case_115 (c : Z) : goto :=
  match c with
  | 10 => tr158
  | 13 => tr159
  | _ =>
  if (48 <=? c) && (c <=? 57) then st 115 else st 0
  end.
(* SRC sylar/http/httpclient_parser.rl.cpp:3072-3085 httpclient_parser_execute, case 116 *)
Definition case_116 (c : Z) : goto :=
  match c with
  | 10 => tr154
  | 32 => st 114
  | _ =>
  if (c >? 13)
  then if (48 <=? c) && (c <=? 57) then tr157 else st 0
  else if (c >=? 9) then st 114 else st 0
  end.
(* SRC sylar/http/httpclient_parser.rl.cpp:3092-3122 httpclient_parser_execute, case 117 *)
Definition case_117 (c : Z) : goto :=
  match c with
  | 10 => tr158
  | 13 => tr159
  | 33 => st 21
  | 58 => tr39
  | 124 => st 21
  | 126 => st 21
  | _ =>
  if (c <? 45)
  then (if (c >? 39)
    then if (42 <=? c) && (c <=? 43) then st 21 else st 0
    else if (c >=? 35) then st 21 else st 0)
  else if (c >? 46)
    then (if (c <? 65)
      then if (48 <=? c) && (c <=? 57) then st 117 else st 0
      else if (c >? 90) then if (94 <=? c) && (c <=? 122) then st 21 else st 0 else st 21)
    else st 21
  end.
(* SRC sylar/http/httpclient_parser.rl.cpp:3133-3147 httpclient_parser_execute, case 118 *)
Definition case_118 (c : Z) : goto :=
  match c with
  | 10 => st 113
  | 32 => st 114
  | _ =>
  if (c >? 13)
  then if (48 <=? c) && (c <=? 57) then tr157 else st 0
  else if (c >=? 9) then st 114 else st 0
  end.
(* SRC sylar/http/httpclient_parser.rl.cpp:3152-3164 httpclient_parser_execute, case 119 *)
Definition case_119 (c : Z) : goto :=
  match c with
  | 10 => tr158
  | 13 => tr159
  | _ =>
  if (48 <=? c) && (c <=? 57) then st 119 else st 23
  end.
(* SRC sylar/http/httpclient_parser.rl.cpp:239-244 httpclient_parser_execute, case 120 *)
Definition case_120 (c : Z) : goto :=
  st 0.
(* SRC sylar/http/httpclient_parser.rl.cpp:1984-1996 httpclient_parser_execute, case 121 *)
Definition case_121 (c : Z) : goto :=
  match c with
  | 32 => st 63
  | 67 => tr104
  | 99 => tr104
  | _ =>
  if (9 <=? c) && (c <=? 13) then st 63 else st 0
  end.
(* SRC sylar/http/httpclient_parser.rl.cpp:2358-2370 httpclient_parser_execute, case 122 *)
Definition case_122 (c : Z) : goto :=
  match c with
  | 32 => st 37
  | 67 => st 38
  | 99 => st 38
  | _ =>
  if (9 <=? c) && (c <=? 13) then st 37 else st 0
  end.
(* SRC sylar/http/httpclient_parser.rl.cpp:3059-3071 httpclient_parser_execute, case 123 *)
Definition case_123 (c : Z) : goto :=
  if (c =? 32)
  then st 114
  else if (c >? 13)
    then if (48 <=? c) && (c <=? 57) then tr157 else st 0
    else if (c >=? 9) then st 114 else st 0.
(* SRC sylar/http/httpclient_parser.rl.cpp:120-120 httpclient_parser_execute, switch ( cs ) *)
Definition step (cs : Z) : option (Z -> goto) :=
  match cs with
  | 1 => Some case_1
  | 2 => Some case_2
  | 3 => Some case_3
  | 4 => Some case_4
  | 5 => Some case_5
  | 6 => Some case_6
  | 7 => Some case_7
  | 8 => Some case_8
  | 9 => Some case_9
  | 10 => Some case_10
  | 11 => Some case_11
  | 12 => Some case_12
  | 13 => Some case_13
  | 14 => Some case_14
  | 15 => Some case_15
  | 16 => Some case_16
  | 17 => Some case_17
  | 18 => Some case_18
  | 19 => Some case_19
  | 20 => Some case_20
  | 21 => Some case_21
  | 22 => Some case_22
  | 23 => Some case_23
  | 24 => Some case_24
  | 25 => Some case_25
  | 26 => Some case_26
  | 27 => Some case_27
  | 28 => Some case_28
  | 29 => Some case_29
  | 30 => Some case_30
  | 31 => Some case_31
  | 32 => Some case_32
  | 33 => Some case_33
  | 34 => Some case_34
  | 35 => Some case_35
  | 36 => Some case_36
  | 37 => Some case_37
  | 38 => Some case_38
  | 39 => Some case_39
  | 40 => Some case_40
  | 41 => Some case_41
  | 42 => Some case_42
  | 43 => Some case_43
  | 44 => Some case_44
  | 45 => Some case_45
  | 46 => Some case_46
  | 47 => Some case_47
  | 48 => Some case_48
  | 49 => Some case_49
  | 50 => Some case_50
  | 51 => Some case_51
  | 52 => Some case_52
  | 53 => Some case_53
  | 54 => Some case_54
  | 55 => Some case_55
  | 56 => Some case_56
  | 57 => Some case_57
  | 58 => Some case_58
  | 59 => Some case_59
  | 60 => Some case_60
  | 61 => Some case_61
  | 62 => Some case_62
  | 63 => Some case_63
  | 64 => Some case_64
  | 65 => Some case_65
  | 66 => Some case_66
  | 67 => Some case_67
  | 68 => Some case_68
  | 69 => Some case_69
  | 70 => Some case_70
  | 71 => Some case_71
  | 72 => Some case_72
  | 73 => Some case_73
  | 74 => Some case_74
  | 75 => Some case_75
  | 76 => Some case_76
  | 77 => Some case_77
  | 78 => Some case_78
  | 79 => Some case_79
  | 80 => Some case_80
  | 81 => Some case_81
  | 82 => Some case_82
  | 83 => Some case_83
  | 84 => Some case_84
  | 85 => Some case_85
  | 86 => Some case_86
  | 87 => Some case_87
  | 88 => Some case_88
  | 89 => Some case_89
  | 90 => Some case_90
  | 91 => Some case_91
  | 92 => Some case_92
  | 93 => Some case_93
  | 94 => Some case_94
  | 95 => Some case_95
  | 96 => Some case_96
  | 97 => Some case_97
  | 98 => Some case_98
  | 99 => Some case_99
  | 100 => Some case_100
  | 101 => Some case_101
  | 102 => Some case_102
  | 103 => Some case_103
  | 104 => Some case_104
  | 105 => Some case_105
  | 106 => Some case_106
  | 107 => Some case_107
  | 108 => Some case_108
  | 109 => Some case_109
  | 110 => Some case_110
  | 111 => Some case_111
  | 112 => Some case_112
  | 113 => Some case_113
  | 114 => Some case_114
  | 115 => Some case_115
  | 116 => Some case_116
  | 117 => Some case_117
  | 118 => Some case_118
  | 119 => Some case_119
  | 120 => Some case_120
  | 121 => Some case_121
  | 122 => Some case_122
  | 123 => Some case_123
  | _ => None
  end.
