(* ===== verification/HttpClientParser.v ===== *)
(** * HttpClientParser: [httpclient_parser_execute] and [HttpResponseParser] of [sylar/http]

    The structure [httpclient_parser] of [httpclient_parser.h], the machine loop of
    [httpclient_parser.rl.cpp] over the automaton of [HttpClientTable], the callbacks and
    [HttpResponseParser] of [http_parser.cpp]. A buffer is the memory from the pointer on: the
    machine looks at the character after the [len] it is given, and [strtol] and [atoi] read on until
    a number ends. Pointers are offsets, as in [HttpParser]. *)

From S2P Require Import Prelude Std Http HttpClientTable.
From S2P Require HttpParser.

(** ** The C structure *)

(* SRC sylar/http/httpclient_parser.h:40-64 httpclient_parser *)
Record httpclient_parser := mkClient {
  cs : Z;
  body_start : Z;
  content_len : Z;
  status : Z;
  chunked : Z;
  chunks_done : Z;
  close : Z;
  nread : Z;
  mark : Z;
  field_start : Z;
  field_len : Z
}.

(* SRC sylar/http/httpclient_parser.rl.cpp:60 httpclient_parser_start *)
Definition httpclient_parser_start : Z := 1.
(* SRC sylar/http/httpclient_parser.rl.cpp:61 httpclient_parser_first_final *)
Definition httpclient_parser_first_final : Z := 120.
(* SRC sylar/http/httpclient_parser.rl.cpp:62 httpclient_parser_error *)
Definition httpclient_parser_error : Z := 0.

(** [status] is not set: it keeps what the memory held. *)
(* SRC sylar/http/httpclient_parser.rl.cpp:69-92 httpclient_parser_init *)
Definition httpclient_parser_init (p : httpclient_parser) : httpclient_parser :=
  mkClient httpclient_parser_start 0 (-1) (status p) 0 0 0 0 0 0 0.

(* SRC sylar/http/httpclient_parser.rl.cpp:3330-3332 httpclient_parser_has_error *)
Definition httpclient_parser_has_error (p : httpclient_parser) : bool := cs p =? httpclient_parser_error.
(* SRC sylar/http/httpclient_parser.rl.cpp:3334-3336 httpclient_parser_is_finished *)
Definition httpclient_parser_is_finished (p : httpclient_parser) : bool := cs p =? httpclient_parser_first_final.
(* SRC sylar/http/httpclient_parser.rl.cpp:3315-3328 httpclient_parser_finish *)
Definition httpclient_parser_finish (p : httpclient_parser) : Z :=
  if httpclient_parser_has_error p then -1 else if httpclient_parser_is_finished p then 1 else 0.

Definition set_cs v p := mkClient v (body_start p) (content_len p) (status p) (chunked p) (chunks_done p)
  (close p) (nread p) (mark p) (field_start p) (field_len p).
Definition set_body_start v p := mkClient (cs p) v (content_len p) (status p) (chunked p) (chunks_done p)
  (close p) (nread p) (mark p) (field_start p) (field_len p).
Definition set_content_len v p := mkClient (cs p) (body_start p) v (status p) (chunked p) (chunks_done p)
  (close p) (nread p) (mark p) (field_start p) (field_len p).
Definition set_status v p := mkClient (cs p) (body_start p) (content_len p) v (chunked p) (chunks_done p)
  (close p) (nread p) (mark p) (field_start p) (field_len p).
Definition set_chunked p := mkClient (cs p) (body_start p) (content_len p) (status p) 1 (chunks_done p)
  (close p) (nread p) (mark p) (field_start p) (field_len p).
Definition set_chunks_done v p := mkClient (cs p) (body_start p) (content_len p) (status p) (chunked p) v
  (close p) (nread p) (mark p) (field_start p) (field_len p).
Definition set_close p := mkClient (cs p) (body_start p) (content_len p) (status p) (chunked p) (chunks_done p)
  1 (nread p) (mark p) (field_start p) (field_len p).
Definition set_nread v p := mkClient (cs p) (body_start p) (content_len p) (status p) (chunked p) (chunks_done p)
  (close p) v (mark p) (field_start p) (field_len p).
Definition set_mark v p := mkClient (cs p) (body_start p) (content_len p) (status p) (chunked p) (chunks_done p)
  (close p) (nread p) v (field_start p) (field_len p).
Definition set_field_start v p := mkClient (cs p) (body_start p) (content_len p) (status p) (chunked p) (chunks_done p)
  (close p) (nread p) (mark p) v (field_len p).
Definition set_field_len v p := mkClient (cs p) (body_start p) (content_len p) (status p) (chunked p) (chunks_done p)
  (close p) (nread p) (mark p) (field_start p) v.

(* SRC sylar/http/httpclient_parser.rl.cpp:98-101 httpclient_parser_execute *)
Definition reset_marks p := mkClient (cs p) (body_start p) (content_len p) (status p) (chunked p) (chunks_done p)
  (close p) 0 0 0 0.

(** [LEN(AT, FPC)], a [size_t]. *)
(* SRC sylar/http/httpclient_parser.rl.cpp:46 LEN *)
Definition LEN (at_ fpc : Z) : Z := u64 (fpc - at_).

(** ** The machine over a set of callbacks *)

Inductive callback :=
  | cb_reason_phrase | cb_status_code | cb_chunk_size | cb_http_version | cb_header_done | cb_last_chunk.

Section Machine.
(** The object the callbacks work on. *)
Context {D : Type}.
Variable on_element : callback -> list Z -> Z -> Z -> M D unit.
Variable on_field : list Z -> Z -> Z -> Z -> Z -> M D unit.

Let S : Type := (httpclient_parser * D)%type.

Definition regs (f : httpclient_parser -> httpclient_parser) : M S unit := modify (fun s => (f s.1, s.2)).
Definition reg (f : httpclient_parser -> Z) : M S Z := gets (fun s => f s.1).
Definition call (m : M D unit) : M S unit := fun s =>
  match m s.2 with
  | Ret a d => Ret a (s.1, d)
  | Exn e d => Exn e (s.1, d)
  | UB f => UB f
  end.

(** Call [cb] on the text from [mark] to [p]. *)
Definition element (cb : callback) (buf : list Z) (p : Z) : M S unit :=
  let! a := reg mark in call (on_element cb buf a (LEN a p)).

(** [strtol(PTR_TO(mark), NULL, base)], as the [int] it is stored in. *)
Definition number (buf : list Z) (base : Z) : M S Z :=
  let! a := reg mark in
  match strtol base (drop (Z.to_nat a) buf) with
  | Some v => ret (s32 v)
  | None => fail_with OutOfBounds
  end.

(** One action block at position [p]; [pe] is the end of the input. [true] when the block
    ends with [goto _out]. *)
Definition do_action (buf : list Z) (pe p : Z) (a : action) : M S bool :=
  match a with
  | a_mark => regs (set_mark p) ;; ret false
  | a_start_field => regs (set_field_start p) ;; ret false
  | a_write_field => regs (fun r => set_field_len (LEN (field_start r) p) r) ;; ret false
  | a_http_field =>
      let! fs := reg field_start in let! fl := reg field_len in
      let! m := reg mark in
      call (on_field buf fs fl m (LEN m p)) ;; ret false
  | a_http_version => element cb_http_version buf p ;; ret false
  | a_status_code =>
      let! v := number buf 10 in
      regs (set_status v) ;; element cb_status_code buf p ;; ret false
  | a_reason_phrase => element cb_reason_phrase buf p ;; ret false
  | a_chunk_size =>
      regs set_chunked ;;
      let! v := number buf 16 in
      regs (set_content_len v) ;;
      regs (set_chunks_done (if v <=? 0 then 1 else 0)) ;;
      (if v <=? 0 then element cb_last_chunk buf p else element cb_chunk_size buf p) ;;
      ret false
  | a_chunked => regs set_chunked ;; ret false
  | a_content_len => let! v := number buf 10 in regs (set_content_len v) ;; ret false
  | a_close => regs set_close ;; ret false
  | a_done =>
      regs (set_body_start (p + 1)) ;;
      call (on_element cb_header_done buf (p + 1) (u64 (pe - p - 1))) ;;
      ret true
  end.

Fixpoint do_actions (buf : list Z) (pe p : Z) (l : list action) : M S bool :=
  match l with
  | [] => ret false
  | a :: l' =>
      let! out := do_action buf pe p a in
      if (out : bool) then ret true else do_actions buf pe p l'
  end.

(** The labels [_test_eofN: cs = N; goto _test_eof;]. *)
(* SRC sylar/http/httpclient_parser.rl.cpp:3165-3288 httpclient_parser_execute *)
Definition test_eof (q : Z) : Z := q.

(** The goto code from state [q] at position [p], with [rest] the characters from there to
    [pe]: the position and the state at [_out]. A [cs] that is no case of the [switch], the error
    state for one, falls through to the label [_test_eof2]. *)
(* SRC sylar/http/httpclient_parser.rl.cpp:117-121 httpclient_parser_execute *)
Fixpoint run (buf : list Z) (pe p q : Z) (rest : list Z) : M S (Z * Z) :=
  match rest with
  | [] => ret (p, test_eof q)
  | b :: rest' =>
      match step q with
      | None => ret (p, test_eof 2)
      | Some case =>
          let g := case (s8 b) in
          let! out := do_actions buf pe p (acts g) in
          if (out : bool) then ret (p + 1, dest g)
          else if dest g =? 0 then ret (p, 0)
          else run buf pe (p + 1) (dest g) rest'
      end
  end.

(** [check] leaves with [-1] where [assert] would abort. *)
(* SRC sylar/http/httpclient_parser.rl.cpp:3294-3312 httpclient_parser_execute *)
Definition httpclient_parser_execute (buf : list Z) (len off : Z) : M S Z :=
  regs reset_marks ;;
  let! s := get in
  assert_ (off <=? len) ;;
  match buf !! Z.to_nat len with
  | None => fail_with OutOfBounds
  | Some nul =>
      assert_ (nul =? 0) ;;
      assert_ (len - off =? s32 len - s32 off) ;;
      let! (p, q) := run buf len off (cs s.1) (slice buf (Z.to_nat off) (Z.to_nat (len - off))) in
      regs (set_cs q) ;;
      regs (fun r => set_nread (nread r + (p - off)) r) ;;
      assert_ (p <=? len) ;;
      let! s' := get in
      let r := s'.1 in
      assert_ (nread r <=? len) ;;
      assert_ (body_start r <=? len) ;;
      if negb (mark r <? len) then ret (-1)
      else if negb (field_len r <=? len) then ret (-1)
      else if negb (field_start r <? len) then ret (-1)
      else ret (s32 (nread r))
  end.
End Machine.

(** ** [HttpResponseParser] *)

(* SRC sylar/http/http_parser.h:47-52 HttpResponseParser *)
Record HttpResponseParser := mkResponseParser {
  m_parser : httpclient_parser;
  m_data : HttpResponse;
  m_error : Z
}.

(** What the callbacks change. *)
Record parsed := mkParsed { p_data : HttpResponse; p_error : Z }.

(* SRC sylar/http/http_parser.h:44 HttpResponseParser::setError *)
Definition setError (v : Z) : M parsed unit := modify (fun d => mkParsed (p_data d) v).
Definition on_data (f : HttpResponse -> HttpResponse) : M parsed unit :=
  modify (fun d => mkParsed (f (p_data d)) (p_error d)).

(* SRC sylar/http/http_parser.cpp:152-155 on_response_reason *)
Definition on_response_reason (buf : list Z) (at_ len : Z) : M parsed unit :=
  let! v := HttpParser.std_string buf at_ len in on_data (rsp_setReason v).

(* SRC sylar/http/http_parser.cpp:157-161 on_response_status *)
Definition on_response_status (buf : list Z) (at_ len : Z) : M parsed unit :=
  match atoi (drop (Z.to_nat at_) buf) with
  | Some v => on_data (rsp_setStatus v)
  | None => fail_with OutOfBounds
  end.

(* SRC sylar/http/http_parser.cpp:163-165 on_response_chunk *)
Definition on_response_chunk (buf : list Z) (at_ len : Z) : M parsed unit := ret tt.

(* SRC sylar/http/http_parser.cpp:167-181 on_response_version *)
Definition on_response_version (buf : list Z) (at_ len : Z) : M parsed unit :=
  let text := drop (Z.to_nat at_) buf in
  match strncmp_eq (str "HTTP/1.1") text (Z.to_nat len) with
  | None => fail_with OutOfBounds
  | Some true => on_data (rsp_setVersion 17)
  | Some false =>
      match strncmp_eq (str "HTTP/1.0") text (Z.to_nat len) with
      | None => fail_with OutOfBounds
      | Some true => on_data (rsp_setVersion 16)
      | Some false => let! _ := HttpParser.std_string buf at_ len in setError 1001
      end
  end.

(* SRC sylar/http/http_parser.cpp:183-185 on_response_header_done *)
Definition on_response_header_done (buf : list Z) (at_ len : Z) : M parsed unit := ret tt.

(* SRC sylar/http/http_parser.cpp:187-189 on_response_last_chunk *)
Definition on_response_last_chunk (buf : list Z) (at_ len : Z) : M parsed unit := ret tt.

(* SRC sylar/http/http_parser.cpp:191-199 on_response_http_field *)
Definition on_response_http_field (buf : list Z) (field flen value vlen : Z) : M parsed unit :=
  if flen =? 0 then setError 1002
  else
    let! k := HttpParser.std_string buf field flen in
    let! v := HttpParser.std_string buf value vlen in
    on_data (rsp_setHeader k v).

(** The slots the constructor fills. *)
Definition on_response_element (cb : callback) : list Z -> Z -> Z -> M parsed unit :=
  match cb with
  | cb_reason_phrase => on_response_reason
  | cb_status_code => on_response_status
  | cb_chunk_size => on_response_chunk
  | cb_http_version => on_response_version
  | cb_header_done => on_response_header_done
  | cb_last_chunk => on_response_last_chunk
  end.

(** [memory] and [error] are what the uninitialised [m_parser] and [m_error] held. *)
(* SRC sylar/http/http_parser.cpp:201-212 HttpResponseParser::HttpResponseParser *)
Definition new_HttpResponseParser (memory : httpclient_parser) (error : Z) : HttpResponseParser :=
  mkResponseParser (httpclient_parser_init memory) (new_HttpResponse 17 true) error.

Definition machine {A} (m : M (httpclient_parser * parsed) A) : M HttpResponseParser A := fun s =>
  let back '(r, d) := mkResponseParser r (p_data d) (p_error d) in
  match m (m_parser s, mkParsed (m_data s) (m_error s)) with
  | Ret a s' => Ret a (back s')
  | Exn e s' => Exn e (back s')
  | UB f => UB f
  end.

(** [offset] is the [int] result as a [size_t]. The [memmove] reads [len - offset] bytes from
    [offset] on: for the result [-1] it starts before the buffer. *)
(* SRC sylar/http/http_parser.cpp:218-224 HttpResponseParser::execute *)
Definition execute (data : list Z) (len : Z) : M HttpResponseParser (Z * list Z) :=
  let! n := machine (httpclient_parser_execute on_response_element on_response_http_field data len 0) in
  if n <? 0 then fail_with OutOfBounds
  else ret (n, splice data 0 (slice data (Z.to_nat n) (Z.to_nat (len - n)))).

(* SRC sylar/http/http_parser.cpp:226-228 HttpResponseParser::isFinished *)
Definition isFinished (s : HttpResponseParser) : Z := httpclient_parser_finish (m_parser s).

(* SRC sylar/http/http_parser.cpp:230-232 HttpResponseParser::hasError *)
Definition hasError (s : HttpResponseParser) : bool :=
  negb (m_error s =? 0) || httpclient_parser_has_error (m_parser s).

(* SRC sylar/http/http_parser.cpp:214-216 HttpResponseParser::getContentLength *)
Definition getContentLength (lexical_cast : list Z -> option Z) (s : HttpResponseParser) : Z :=
  getAs lexical_cast (rsp_headers (m_data s)) (str "content-length") 0.
