(* ===== verification/HttpClientFacts.v ===== *)
(** * HttpClientFacts: what holds of every transition of the response automaton

    As [HttpParserFacts] for requests: boolean properties of all transitions, checked by evaluation
    on every state and byte, and what following one transition does. The properties are those the
    memory safety of a call needs: what is known of the remembered positions in each state, and
    in which states a call ends. *)

From S2P Require Import Prelude Std Http HttpClientTable HttpClientParser.
From S2P Require HttpParserFacts.
Notation bytes := HttpParserFacts.bytes.

#[global] Instance action_eq_dec : EqDecision action.
Proof. solve_decision. Defined.

(** ** Checking all transitions *)

Definition states : list Z := map Z.of_nat (seq 1 123).

Lemma client_step_range q : is_Some (step q) -> 1 <= q <= 123.
Proof.
  intros [f H]. destruct q as [|p|p]; try done.
  do 8 (destruct p as [p|p|]; try done; try lia).
Qed.

Lemma client_step_states q f : step q = Some f -> In q states.
Proof.
  intros H. assert (1 <= q <= 123) by (apply client_step_range; eauto).
  unfold states. apply in_map_iff. exists (Z.to_nat q). split; [lia|]. apply in_seq. lia.
Qed.

Lemma client_step_some q : 1 <= q <= 123 -> is_Some (step q).
Proof.
  intros Hq. assert (forallb (fun q => bool_decide (is_Some (step q))) states = true) as H
    by (vm_compute; done).
  rewrite forallb_forall in H. apply (bool_decide_unpack _), Is_true_true, H.
  unfold states. apply in_map_iff. exists (Z.to_nat q). split; [lia|]. apply in_seq. lia.
Qed.

Definition table_all (P : Z -> Z -> goto -> bool) : bool :=
  forallb (fun q =>
    match step q with
    | None => true
    | Some f => forallb (fun b => P q b (f (s8 b))) bytes
    end) states.

Lemma client_table_all_spec P q f b :
  table_all P = true -> step q = Some f -> is_byte b -> P q b (f (s8 b)) = true.
Proof.
  unfold table_all. rewrite forallb_forall. intros H Hs Hb.
  specialize (H q (client_step_states _ _ Hs)). rewrite Hs in H.
  by apply (HttpParserFacts.bytes_all _ H b Hb).
Qed.

(** ** One transition *)

(** In state [q] the byte [b] takes the transition with the actions [l] to [q']. *)
Definition goesb (q b : Z) (l : list action) (q' : Z) : bool :=
  match step q with
  | None => false
  | Some f => bool_decide (acts (f (s8 b)) = l) && (dest (f (s8 b)) =? q')
  end.

Lemma client_goesb_spec q b l q' : goesb q b l q' = true ->
  exists f, step q = Some f /\ f (s8 b) = go l q'.
Proof.
  unfold goesb. destruct (step q) as [f|]; [|done]. intros H. exists f. split; [done|].
  apply andb_true_iff in H as [H1%bool_decide_eq_true H2%Z.eqb_eq].
  destruct (f (s8 b)); simpl in *; by subst.
Qed.

Section Run.
Context {D : Type} (on_element : callback -> list Z -> Z -> Z -> M D unit).
Context (on_field : list Z -> Z -> Z -> Z -> Z -> M D unit).
Notation run := (run on_element on_field).
Notation do_actions := (do_actions on_element on_field).

Lemma client_run_goes buf pe p q b rest l q' s : goesb q b l q' = true ->
  run buf pe p q (b :: rest) s
  = (let! out := do_actions buf pe p l in
     if (out : bool) then ret (p + 1, q')
     else if q' =? 0 then ret (p, 0)
     else run buf pe (p + 1) q' rest) s.
Proof. intros (f & Hs & Hf)%client_goesb_spec. simpl. by rewrite Hs, Hf. Qed.

(** A transition without actions. *)
Lemma client_run_silent buf pe p q b rest q' s : goesb q b [] q' = true -> q' <> 0 ->
  run buf pe p q (b :: rest) s = run buf pe (p + 1) q' rest s.
Proof.
  intros H Hq. rewrite (client_run_goes _ _ _ _ _ _ _ _ _ H). simpl. rewrite bind_ret_l.
  destruct (Z.eqb_spec q' 0); done.
Qed.

(** A state that loops silently on every byte of [l]. *)
Lemma client_run_loop buf pe p q l rest s :
  forallb (fun b => goesb q b [] q) l = true -> q <> 0 ->
  run buf pe p q (l ++ rest) s = run buf pe (p + Z.of_nat (length l)) q rest s.
Proof.
  intros H Hq. revert p H. induction l as [|b l IH]; intros p H; simpl in H.
  - simpl. f_equal. lia.
  - apply andb_true_iff in H as [H1 H2]. simpl app. rewrite (client_run_silent _ _ _ _ _ _ q) by done.
    rewrite IH by done. f_equal. simpl length. lia.
Qed.
End Run.

(** ** What is known of the remembered name

    A name is remembered as [field_start] and [field_len]. [k_sum]: it ends before the
    position. [k_small]: it has at most 17 characters, the longest of the names the grammar knows.
    [k_depth]: when at most 17, the position is that near to [field_start]. *)

Record known := mkKnown { k_sum : bool; k_small : bool; k_depth : Z }.

Definition far : Z := 18.

(** One action: [None] when it reads a name that may be anywhere. *)
Definition know (a : action) (k : known) : option known :=
  match a with
  | a_start_field => Some (mkKnown false (k_small k) 0)
  | a_write_field => Some (mkKnown true (k_depth k <? far) (k_depth k))
  | a_http_field => if k_sum k || k_small k then Some k else None
  | _ => Some k
  end.

Fixpoint know_all (l : list action) (k : known) : option known :=
  match l with
  | [] => Some k
  | a :: l' =>
      match know a k with
      | Some k' => if decide (a = a_done) then Some k' else know_all l' k'
      | None => None
      end
  end.

Definition between (a b q : Z) : bool := (a <=? q) && (q <=? b).

(** The states inside a name that may be one of the known ones, with how much of it was read. *)
Definition depth_at (q : Z) : Z :=
  if between 25 34 q then q - 24
  else if between 44 60 q then q - 43
  else if between 73 79 q then q - 72
  else if between 90 94 q then q - 89
  else if between 101 111 q then q - 97
  else far.

Definition known_at (q : Z) : known := mkKnown
  (negb ((q =? 3) || (q =? 5) || (q =? 20) || (q =? 21) || between 24 34 q || between 43 60 q
    || (q =? 71) || between 73 79 q || (q =? 88) || between 90 94 q || between 101 111 q
    || (q =? 117) || (q =? 120)))
  (negb (between 3 7 q || between 20 34 q || between 44 60 q || between 101 111 q || (q =? 120)))
  (depth_at q).

(** The states a completed response ends in. *)
Definition final (q : Z) : bool := between 120 123 q.

(** A transition reads only a name that is known, leaves known what its target needs, and
    reaches a final state exactly by [done]. *)
Definition acts_ok (q b : Z) (g : goto) : bool :=
  match know_all (acts g) (known_at q) with
  | None => false
  | Some k =>
      ((dest g =? 0)
       || implb (k_sum (known_at (dest g))) (k_sum k)
          && implb (k_small (known_at (dest g))) (k_small k)
          && ((depth_at (dest g) =? far) || (k_depth k + 1 <=? depth_at (dest g))))
      && Bool.eqb (bool_decide (a_done ∈ acts g)) (final (dest g))
      && (0 <=? dest g) && (dest g <=? 123)
  end.

Lemma client_table_acts_ok : table_all acts_ok = true.
Proof. vm_compute. done. Qed.
