(* ===== verification/HttpClientSpec.v ===== *)
(** * HttpClientSpec: what [httpclient_parser_execute] promises

    Memory safety and progress of a call on any bytes, for callbacks that satisfy an interface
    ([ClientCallbackLaws]) of which the callbacks of [HttpResponseParser] are an instance. The
    machine looks behind the data it is given: it needs a NUL there, and up to 17
    characters more, since the length of one header's name is used with the start of another. The
    boundary cases where a call does go wrong are theorems of their own. *)

From S2P Require Import Prelude Std Http HttpClientTable HttpClientParser HttpClientFacts.
From S2P Require HttpParser HttpParserFacts HttpParserSpec.
Notation max_len := HttpParserSpec.max_len.

(** ** Numbers in a terminated text *)

Lemma strtol_digits_some base acc text : 0 ∈ text -> is_Some (strtol_digits base acc text).
Proof.
  revert acc. induction text as [|c text IH]; intros acc; [by intros ?%elem_of_nil|].
  rewrite elem_of_cons. intros [<-|H]; simpl.
  - unfold digit_value; simpl. rewrite Z.ltb_irrefl. by eexists.
  - destruct (digit_value base c); [by apply IH|by eexists].
Qed.

Lemma strtol_prefix_nul base text : 0 ∈ text -> 0 ∈ strtol_prefix base text.
Proof.
  unfold strtol_prefix. intros H. repeat case_match; try done; subst.
  repeat (apply elem_of_cons in H as [?|H]; [try done; try lia|]); try by rewrite elem_of_cons; auto.
Qed.

Lemma strtol_some base text : 0 ∈ text -> is_Some (strtol base text).
Proof.
  induction text as [|c text IH]; [by intros ?%elem_of_nil|]. intros H. cbn [strtol].
  pose proof (strtol_digits_some base 0 _ (strtol_prefix_nul base _ H)) as [v Hv]. rewrite Hv.
  apply elem_of_cons in H as [<-|H]; [by eexists|]. destruct (isspace c); [auto|].
  pose proof (strtol_digits_some base 0 _ (strtol_prefix_nul base _ H)) as [w Hw]. rewrite Hw.
  destruct (c =? 45); [|destruct (c =? 43)]; by eexists.
Qed.

Lemma atoi_some text : 0 ∈ text -> is_Some (atoi text).
Proof. intros [v Hv]%(strtol_some 10). unfold atoi. rewrite Hv. by eexists. Qed.

Lemma nul_behind (buf : list Z) a len : buf !! Z.to_nat len = Some 0 -> 0 <= a <= len ->
  0 ∈ drop (Z.to_nat a) buf.
Proof.
  intros H Ha. apply (list_elem_of_lookup_2 _ (Z.to_nat len - Z.to_nat a)).
  rewrite lookup_drop. by replace (Z.to_nat a + _)%nat with (Z.to_nat len) by lia.
Qed.

(** ** The interface of the callbacks *)

Class ClientCallbackLaws {D} (on_element : callback -> list Z -> Z -> Z -> M D unit)
    (on_field : list Z -> Z -> Z -> Z -> Z -> M D unit) : Prop := {
  el_safe cb buf a len d :
    0 <= a -> 0 <= len < max_len -> a + len <= Z.of_nat (length buf) ->
    0 ∈ drop (Z.to_nat a) buf \/ cb <> cb_status_code ->
    exists d', on_element cb buf a len d = Ret tt d';
  field_safe buf f fl v vl d :
    0 <= f -> 0 <= fl < max_len -> 0 <= v -> 0 <= vl < max_len ->
    f + fl <= Z.of_nat (length buf) -> v + vl <= Z.of_nat (length buf) ->
    exists d', on_field buf f fl v vl d = Ret tt d'
}.

Lemma std_string_ret {S} buf a len (s : S) :
  0 <= a -> 0 <= len < max_len -> a + len <= Z.of_nat (length buf) ->
  HttpParser.std_string buf a len s = Ret (slice buf (Z.to_nat a) (Z.to_nat len)) s.
Proof.
  intros Ha Hl Hb. unfold HttpParser.std_string, HttpParser.string_max_size, HttpParserSpec.max_len in *.
  destruct (Z.ltb_spec (2 ^ 62 - 1) len); [lia|].
  destruct (Z.leb_spec (a + len) (Z.of_nat (length buf))); [done|lia].
Qed.

Lemma on_response_field_run buf f fl v vl d :
  0 <= f -> 0 <= fl < max_len -> 0 <= v -> 0 <= vl < max_len ->
  f + fl <= Z.of_nat (length buf) -> v + vl <= Z.of_nat (length buf) ->
  on_response_http_field buf f fl v vl d
  = if fl =? 0 then Ret tt (mkParsed (p_data d) 1002)
    else Ret tt (mkParsed
      (rsp_setHeader (slice buf (Z.to_nat f) (Z.to_nat fl)) (slice buf (Z.to_nat v) (Z.to_nat vl))
         (p_data d)) (p_error d)).
Proof.
  intros. unfold on_response_http_field. destruct (Z.eqb_spec fl 0); [done|].
  by do 2 (erewrite bind_Ret by (apply std_string_ret; lia)).
Qed.

Lemma on_response_version_safe buf a len d :
  0 <= a -> 0 <= len < max_len -> a + len <= Z.of_nat (length buf) ->
  exists d', on_response_version buf a len d = Ret tt d'.
Proof.
  intros Ha Hl Hb. unfold on_response_version.
  destruct (HttpParserSpec.strncmp_eq_within (str "HTTP/1.1") (drop (Z.to_nat a) buf) (Z.to_nat len))
    as [[] ->]; [rewrite length_drop; lia|by eexists|].
  destruct (HttpParserSpec.strncmp_eq_within (str "HTTP/1.0") (drop (Z.to_nat a) buf) (Z.to_nat len))
    as [[] ->]; [rewrite length_drop; lia|by eexists|].
  erewrite bind_Ret by (apply std_string_ret; lia). by eexists.
Qed.

#[global] Instance response_callback_laws :
  ClientCallbackLaws on_response_element on_response_http_field.
Proof.
  split.
  - intros cb buf a len d Ha Hl Hb Hn. destruct cb; simpl; try by eexists.
    + unfold on_response_reason. erewrite bind_Ret by (apply std_string_ret; lia). by eexists.
    + destruct Hn as [Hn|]; [|done]. unfold on_response_status.
      destruct (atoi_some _ Hn) as [v ->]. by eexists.
    + by apply on_response_version_safe.
  - intros. rewrite on_response_field_run by done. destruct (fl =? 0); by eexists.
Qed.

(** ** Memory safety of the machine *)

(** The registers at position [p] of a call on [pe] characters, with the knowledge [k]. *)
Record regs_ok (k : known) (pe p : Z) (r : httpclient_parser) : Prop := {
  ok_mark : 0 <= mark r <= p;
  ok_mark_lt : mark r < pe;
  ok_start : 0 <= field_start r <= p;
  ok_start_lt : field_start r < pe;
  ok_len : 0 <= field_len r <= p;
  ok_sum : k_sum k = true -> field_start r + field_len r <= p;
  ok_small : k_small k = true -> field_len r <= 17;
  ok_depth : k_depth k < far -> p - field_start r <= k_depth k
}.

(** How a call ends: all input consumed and the response incomplete; a syntax error; the
    response complete, its body after what was consumed. *)
Definition call_end (len n : Z) (r : httpclient_parser) : Prop :=
  (n = len /\ 1 <= cs r < httpclient_parser_first_final)
  \/ (0 <= n < len /\ httpclient_parser_has_error r = true)
  \/ (1 <= n <= len /\ final (cs r) = true /\ body_start r = n).

Lemma client_LEN a p : 0 <= a <= p -> p < max_len -> LEN a p = p - a.
Proof. exact (HttpParserSpec.LEN_sub a p). Qed.

Section Safety.
Context {D : Type} (on_element : callback -> list Z -> Z -> Z -> M D unit).
Context (on_field : list Z -> Z -> Z -> Z -> Z -> M D unit).
Context `{!ClientCallbackLaws on_element on_field}.
Context (buf : list Z) (pe : Z).
Hypothesis Hpe : 0 < pe < max_len.
Hypothesis Hnul : buf !! Z.to_nat pe = Some 0.
Hypothesis Hroom : pe + 16 <= Z.of_nat (length buf).
Notation run := (run on_element on_field buf pe).
Notation do_action := (do_action on_element on_field buf pe).
Notation do_actions := (do_actions on_element on_field buf pe).
Implicit Types (r : httpclient_parser) (d : D).

Lemma client_element_ok cb p r d : 0 <= mark r <= p -> p < pe ->
  exists d', element on_element cb buf p (r, d) = Ret tt (r, d').
Proof using ClientCallbackLaws0 Hpe Hnul Hroom.
  intros Ha Hp. unfold element, reg, gets, bind, call; simpl.
  rewrite (client_LEN (mark r) p) by lia.
  edestruct (el_safe (on_field := on_field) cb buf (mark r) (p - mark r) d) as [d' ->];
    [lia..| |by eauto].
  left. apply (nul_behind _ _ pe); [done|lia].
Qed.

Lemma number_ok base p r d : 0 <= mark r <= p -> p < pe ->
  exists v, number buf base (r, d) = Ret v (r, d).
Proof using Hpe Hnul.
  intros Ha Hp. unfold number, reg, gets, bind; simpl.
  destruct (strtol_some base (drop (Z.to_nat (mark r)) buf)) as [v ->]; [|by eexists].
  apply (nul_behind _ _ pe); [done|lia].
Qed.

(** What no action but [done] changes. *)
Definition kept (r r' : httpclient_parser) : Prop :=
  cs r' = cs r /\ nread r' = nread r /\ body_start r' = body_start r.

Lemma kept_trans r1 r2 r3 : kept r1 r2 -> kept r2 r3 -> kept r1 r3.
Proof. unfold kept. intuition congruence. Qed.

(** An action that changes no remembered position. *)
Definition marks_same (r r' : httpclient_parser) : Prop :=
  mark r' = mark r /\ field_start r' = field_start r /\ field_len r' = field_len r.

Lemma marks_same_ok k p r r' : marks_same r r' -> regs_ok k pe p r -> regs_ok k pe p r'.
Proof. intros (H1 & H2 & H3) []. split; rewrite ?H1, ?H2, ?H3; done. Qed.

Definition moves_mark (a : action) : bool :=
  match a with a_mark | a_start_field | a_write_field | a_http_field | a_done => true | _ => false end.

Lemma do_action_plain a p r d : moves_mark a = false -> 0 <= mark r <= p -> p < pe ->
  exists r' d', do_action p a (r, d) = Ret false (r', d') /\ marks_same r r' /\ kept r r'.
Proof using ClientCallbackLaws0 Hpe Hnul Hroom.
  intros Ha Hm Hp. destruct a; try done; simpl.
  - edestruct (client_element_ok cb_http_version p r d) as [d' He]; [done..|].
    exists r, d'. by erewrite bind_Ret by exact He.
  - edestruct (number_ok 10 p r d) as [v Hv]; [done..|].
    erewrite bind_Ret by exact Hv. unfold regs, modify. unfold bind at 1; simpl.
    edestruct (client_element_ok cb_status_code p (set_status v r) d) as [d' He]; [done..|].
    erewrite bind_Ret by exact He. by eexists _, _.
  - edestruct (client_element_ok cb_reason_phrase p r d) as [d' He]; [done..|].
    exists r, d'. by erewrite bind_Ret by exact He.
  - unfold regs, modify. unfold bind at 1; simpl.
    edestruct (number_ok 16 p (set_chunked r) d) as [v Hv]; [done..|].
    erewrite bind_Ret by exact Hv. do 2 (unfold bind at 1; simpl).
    set (r2 := set_chunks_done _ _).
    edestruct (client_element_ok cb_last_chunk p r2 d) as [d1 H1]; [done..|].
    edestruct (client_element_ok cb_chunk_size p r2 d) as [d2 H2]; [done..|].
    destruct (v <=? 0); [exists r2, d1|exists r2, d2];
      (split; [erewrite bind_Ret by eassumption; done|done]).
  - by eexists _, _.
  - edestruct (number_ok 10 p r d) as [v Hv]; [done..|].
    erewrite bind_Ret by exact Hv. by eexists _, _.
  - by eexists _, _.
Qed.

Lemma client_field_ok p r d k : regs_ok k pe p r -> p < pe -> k_sum k || k_small k = true ->
  exists d', do_action p a_http_field (r, d) = Ret false (r, d').
Proof using ClientCallbackLaws0 Hpe Hnul Hroom.
  intros [] Hp Hk. simpl. unfold reg, gets, bind, call; simpl in *.
  rewrite (client_LEN (mark r) p) by lia.
  assert (field_start r + field_len r <= Z.of_nat (length buf)) as Hin.
  { apply orb_true_iff in Hk as [H|H]; naive_solver lia. }
  unfold HttpParserSpec.max_len in *.
  edestruct (field_safe (on_element := on_element) buf (field_start r) (field_len r) (mark r)
    (p - mark r) d) as [d' ->]; unfold HttpParserSpec.max_len; [lia..|]. by eexists.
Qed.

Lemma client_action_ok a k k' p r d :
  regs_ok k pe p r -> 0 <= p < pe -> know a k = Some k' -> a <> a_done ->
  exists r' d', do_action p a (r, d) = Ret false (r', d') /\ regs_ok k' pe p r' /\ kept r r'.
Proof using ClientCallbackLaws0 Hpe Hnul Hroom.
  intros Hok Hp Hk Hd. pose proof Hok as [].
  destruct (moves_mark a) eqn:Em.
  2: { destruct (do_action_plain a p r d Em) as (r' & d' & He & Hs & Hkept); [done|lia|].
       exists r', d'. split; [done|]. split; [|done].
       destruct a; try done; simpl in Hk; simplify_eq; by eapply marks_same_ok. }
  destruct a; try done; simpl in Hk.
  - simplify_eq. eexists _, _. split; [reflexivity|]. split; [|done]. split; simpl; auto; lia.
  - simplify_eq. eexists _, _. split; [reflexivity|]. split; [|done].
    split; simpl; auto; try lia; try done.
  - simplify_eq. eexists _, _. split; [reflexivity|]. split; [|done].
    split; simpl; auto; rewrite ?client_LEN by lia; try lia. intros Hk. unfold far in *. lia.
  - destruct (k_sum k || k_small k) eqn:Eb; [|done]. simplify_eq.
    destruct (client_field_ok p r d k' Hok) as [d' He]; [lia|done|].
    exists r, d'. split; [exact He|]. done.
Qed.

(** [done] sets the body's start and leaves the positions. *)
Lemma client_done_ok k p r d : regs_ok k pe p r -> 0 <= p < pe ->
  exists d', do_action p a_done (r, d) = Ret true (set_body_start (p + 1) r, d').
Proof using ClientCallbackLaws0 Hpe Hnul Hroom.
  intros [] Hp. simpl. unfold regs, modify. unfold bind at 1; simpl.
  assert (u64 (pe - p - 1) = pe - p - 1) as ->
    by (apply wrapu_small; unfold HttpParserSpec.max_len in *; lia).
  unfold call at 1. unfold bind at 1; simpl.
  edestruct (el_safe (on_field := on_field) cb_header_done buf (p + 1) (pe - p - 1) d)
    as [d' ->]; [lia..|by right|]. by eexists.
Qed.

Lemma client_actions_ok l k k' p r d :
  regs_ok k pe p r -> 0 <= p < pe -> know_all l k = Some k' ->
  exists out r' d', do_actions p l (r, d) = Ret out (r', d') /\ regs_ok k' pe p r'
    /\ out = bool_decide (a_done ∈ l) /\ kept r (if out then set_body_start (body_start r) r' else r')
    /\ (out = true -> body_start r' = p + 1).
Proof using ClientCallbackLaws0 Hpe Hnul Hroom.
  intros Hok Hp. revert k r d Hok. induction l as [|a l IH]; intros k r d Hok Hk; simpl in Hk.
  - simplify_eq. by exists false, r, d.
  - destruct (know a k) as [k1|] eqn:Ea; [|done]. simpl.
    destruct (decide (a = a_done)) as [->|Ha].
    + destruct (client_done_ok k p r d Hok Hp) as (d' & He).
      simpl in Ea. simplify_eq. exists true, (set_body_start (p + 1) r), d'.
      split; [by erewrite bind_Ret by exact He|]. split; [by apply (marks_same_ok _ _ r)|].
      split; [|done]. symmetry. apply bool_decide_eq_true. left.
    + destruct (client_action_ok a k k1 p r d Hok Hp Ea Ha) as (r1 & d1 & He & Hok1 & Hk1).
      destruct (IH k1 r1 d1 Hok1 Hk) as (out & r' & d' & He' & Hok' & Hout & Hk' & Hbs').
      exists out, r', d'. split; [by erewrite bind_Ret by exact He|]. split; [done|].
      split; [|split; [|done]].
      * rewrite Hout. apply bool_decide_ext. rewrite elem_of_cons. naive_solver.
      * unfold kept in *. destruct out; simpl in *; intuition congruence.
Qed.

(** The three ways a run ends: at the end of the data in a state of the automaton, at
    a character with no transition, after [done]. *)
Definition run_end (bs p p' q' : Z) (r' : httpclient_parser) : Prop :=
  (p' = pe /\ 1 <= q' < httpclient_parser_first_final /\ body_start r' = bs)
  \/ (q' = 0 /\ p' < pe /\ body_start r' = bs)
  \/ (final q' = true /\ p < p' /\ body_start r' = p').

Definition regs_within (r : httpclient_parser) : Prop :=
  0 <= mark r < pe /\ 0 <= field_start r < pe /\ 0 <= field_len r <= pe.

Lemma client_regs_ok_within k p r : regs_ok k pe p r -> p <= pe -> regs_within r.
Proof. intros [] Hp. repeat split; lia. Qed.

Lemma client_regs_ok_next k q' p r : regs_ok k pe p r ->
  implb (k_sum (known_at q')) (k_sum k) && implb (k_small (known_at q')) (k_small k)
  && ((depth_at q' =? far) || (k_depth k + 1 <=? depth_at q')) = true ->
  regs_ok (known_at q') pe (p + 1) r.
Proof.
  intros [] [[H1 H2]%andb_true_iff H3]%andb_true_iff.
  split; try lia.
  - intros Hk. rewrite Hk in H1. specialize (ok_sum0 H1). lia.
  - intros Hk. rewrite Hk in H2. exact (ok_small0 H2).
  - cbn [k_depth known_at]. intros Hk. apply orb_true_iff in H3 as [H3|H3]; [lia|].
    assert (depth_at q' <= far) by
      (unfold depth_at, between, far; repeat case_match; rewrite ?andb_true_iff in *; lia).
    specialize (ok_depth0 ltac:(lia)). lia.
Qed.

Lemma client_run_ok rest p q r d :
  Forall is_byte buf -> regs_ok (known_at q) pe p r -> 0 <= p -> p + Z.of_nat (length rest) = pe ->
  slice buf (Z.to_nat p) (Z.to_nat (pe - p)) = rest ->
  1 <= q < httpclient_parser_first_final \/ final q = true /\ rest <> [] ->
  exists p' q' r' d', run p q rest (r, d) = Ret (p', q') (r', d')
    /\ p <= p' <= pe /\ cs r' = cs r /\ nread r' = nread r /\ regs_within r'
    /\ run_end (body_start r) p p' q' r'.
Proof using ClientCallbackLaws0 Hpe Hnul Hroom.
  intros Hby. revert p q r d. induction rest as [|b rest IH]; intros p q r d Hok Hp Hl Hd Hq.
  - simpl in *. exists p, q, r, d. split; [done|]. split; [lia|]. split; [done|]. split; [done|].
    split; [eapply client_regs_ok_within; [done|lia]|]. left. destruct Hq as [Hq|[_ Hq]]; [|done].
    split; [lia|done].
  - assert (is_byte b) as Hbb.
    { assert (Forall is_byte (slice buf (Z.to_nat p) (Z.to_nat (pe - p)))) as Hin
        by (by apply Forall_take, Forall_drop). rewrite Hd in Hin. by inversion Hin. }
    simpl length in Hl. simpl.
    destruct (step q) as [f|] eqn:Es.
    2: { destruct (client_step_some q) as [? ?]; [|congruence].
         unfold final, between, httpclient_parser_first_final in *.
         destruct Hq as [|[? _]]; lia. }
    pose proof (client_table_all_spec _ _ _ b client_table_acts_ok Es Hbb) as Hok2.
    destruct (f (s8 b)) as [l q1] eqn:Ef; simpl in *.
    unfold acts_ok in Hok2; cbn [acts dest] in Hok2.
    destruct (know_all l (known_at q)) as [k'|] eqn:Ek; [|done].
    rewrite !andb_true_iff in Hok2. destruct Hok2 as [[[H1 H3] H4] H5].
    apply Bool.eqb_prop in H3.
    destruct (client_actions_ok l _ k' p r d Hok) as
      (out & r1 & d1 & He & Hok1 & -> & Hk1 & Hbs1); [lia|done|].
    erewrite bind_Ret by exact He. rewrite H3 in *. destruct (final q1) eqn:Efin.
    + destruct Hk1 as (? & ? & ?); simpl in *.
      exists (p + 1), q1, r1, d1. split; [done|]. split; [lia|]. split; [done|]. split; [done|].
      split; [eapply client_regs_ok_within; [done|lia]|]. right; right. split; [done|]. split; [lia|auto].
    + destruct Hk1 as (? & ? & ?). destruct (Z.eqb_spec q1 0) as [->|Hq1].
      * exists p, 0, r1, d1. split; [done|]. split; [lia|]. split; [done|]. split; [done|].
        split; [eapply client_regs_ok_within; [done|lia]|]. right; left. split; [done|]. split; [lia|done].
      * rewrite orb_false_l in H1.
        assert (1 <= q1 < httpclient_parser_first_final) as Hq1'.
        { unfold final, between, httpclient_parser_first_final in *. lia. }
        destruct (IH (p + 1) q1 r1 d1) as (p' & q' & r' & d' & Hr & ? & ? & ? & ? & Hend);
          [by eapply client_regs_ok_next|lia|lia| |by left|].
        { apply (f_equal tail) in Hd. simpl in Hd. rewrite <- Hd. unfold slice.
          replace (Z.to_nat (p + 1)) with (Z.to_nat p + 1)%nat by lia. rewrite <- drop_drop.
          replace (Z.to_nat (pe - p)) with (S (Z.to_nat (pe - (p + 1)))) by lia.
          destruct (drop (Z.to_nat p) buf); simpl; [by rewrite take_nil|by rewrite drop_0]. }
        exists p', q', r', d'. split; [exact Hr|]. split; [lia|].
        split; [congruence|]. split; [congruence|]. split; [done|].
        unfold run_end in *. destruct Hend as [?|[?|(? & ? & ?)]];
          [left; intuition congruence|right; left; intuition congruence|].
        right; right. split; [done|]. split; [lia|done].
Qed.

(** A call around a run that stays within the data: no assertion fails. *)
Lemma client_execute_run r d p' q' r' d' :
  run 0 (cs r) (slice buf 0 (Z.to_nat pe)) (reset_marks r, d) = Ret (p', q') (r', d') ->
  0 <= p' <= pe -> nread r' = 0 -> regs_within r' -> body_start r' <= pe ->
  httpclient_parser_execute on_element on_field buf pe 0 (r, d)
  = Ret p' (set_nread p' (set_cs q' r'), d').
Proof using Hpe Hnul.
  intros Hrun Hp' Hn (Hm & Hf & Hl) Hb. unfold httpclient_parser_execute.
  unfold regs at 1, modify at 1. unfold bind at 1; simpl.
  unfold get at 1. unfold bind at 1; simpl.
  assert ((0 <=? pe) = true) as -> by lia. unfold assert_ at 1. rewrite bind_ret_l, Hnul.
  rewrite Z.eqb_refl. unfold assert_ at 1. rewrite bind_ret_l.
  assert (s32 pe = pe) as -> by (apply wraps_small; unfold in_s, HttpParserSpec.max_len in *; lia).
  change (s32 0) with 0. rewrite Z.sub_0_r, Z.eqb_refl. unfold assert_ at 1. rewrite bind_ret_l.
  change (Z.to_nat 0) with 0%nat. erewrite bind_Ret by exact Hrun. simpl.
  do 2 (unfold regs at 1, modify at 1; unfold bind at 1; simpl).
  assert ((p' <=? pe) = true) as -> by lia. unfold assert_ at 1. rewrite bind_ret_l.
  unfold get, bind at 1; simpl. rewrite Hn, Z.sub_0_r, Z.add_0_l.
  assert ((p' <=? pe) = true) as -> by lia. unfold assert_ at 1. rewrite bind_ret_l.
  assert ((body_start r' <=? pe) = true) as -> by lia. unfold assert_ at 1. rewrite bind_ret_l.
  assert ((mark r' <? pe) = true) as -> by lia.
  assert ((field_len r' <=? pe) = true) as -> by lia.
  assert ((field_start r' <? pe) = true) as -> by lia. simpl.
  assert (s32 p' = p') as -> by (apply wraps_small; unfold in_s, HttpParserSpec.max_len in *; lia).
  done.
Qed.

Lemma client_marks_ok q r : regs_ok (known_at q) pe 0 (reset_marks r).
Proof using Hpe Hnul Hroom.
  split; simpl; try lia. intros _. unfold depth_at, between, far. repeat case_match; lia.
Qed.

Lemma client_execute_ok r d : Forall is_byte buf -> 1 <= cs r <= 123 -> body_start r <= pe ->
  exists n r' d', httpclient_parser_execute on_element on_field buf pe 0 (r, d) = Ret n (r', d')
    /\ call_end pe n r' /\ (body_start r' = body_start r \/ body_start r' = n).
Proof using ClientCallbackLaws0 Hpe Hnul Hroom.
  intros Hby Hcs Hb.
  destruct (client_run_ok (slice buf 0 (Z.to_nat pe)) 0 (cs r) (reset_marks r) d Hby) as
    (p' & q' & r' & d' & Hrun & Hp' & Hcs' & Hn & Hw & Hend).
  - apply client_marks_ok.
  - lia.
  - rewrite length_slice by lia. lia.
  - by rewrite Z.sub_0_r.
  - unfold final, between, httpclient_parser_first_final. destruct (decide (cs r < 120)); [left; lia|].
    right. split; [lia|]. intros E%(f_equal length). rewrite length_slice in E by lia.
    simpl in E. lia.
  - simpl in Hn. exists p', (set_nread p' (set_cs q' r')), d'. split.
    + apply client_execute_run; try done; try lia. unfold run_end in Hend; simpl in Hend. lia.
    + unfold run_end, call_end, httpclient_parser_has_error in *; simpl in *.
      destruct Hend as [(? & ? & ?)|[(-> & ? & ?)|(? & ? & ?)]]; split; auto.
      * right; left. split; [lia|done].
      * right; right. split; [lia|]. auto.
Qed.

(** A call on a parser in the error state: the [switch] has no case 0, and the label it falls to
    is that of state 2. *)
Lemma client_execute_error r d : cs r = 0 -> body_start r <= pe ->
  httpclient_parser_execute on_element on_field buf pe 0 (r, d)
  = Ret 0 (set_cs 2 (reset_marks r), d).
Proof using Hpe Hnul Hroom.
  intros Hcs Hb.
  rewrite (client_execute_run r d 0 2 (reset_marks r) d); [done| |lia|done|split; simpl; lia|done].
  rewrite Hcs. destruct (slice buf 0 (Z.to_nat pe)) as [|b rest] eqn:E; [|done].
  apply (f_equal length) in E. rewrite length_slice in E by lia. simpl in E. lia.
Qed.
End Safety.

(** ** [HttpResponseParser] *)

Definition no_client : httpclient_parser := mkClient 0 0 0 0 0 0 0 0 0 0 0.

(** What is moved to the front of the buffer. *)
Definition moved (data : list Z) (len n : Z) : list Z :=
  splice data 0 (slice data (Z.to_nat n) (Z.to_nat (len - n))).

Lemma response_execute_machine data len s n r d :
  httpclient_parser_execute on_response_element on_response_http_field data len 0
    (m_parser s, mkParsed (m_data s) (m_error s)) = Ret n (r, d) -> 0 <= n ->
  execute data len s = Ret (n, moved data len n) (mkResponseParser r (p_data d) (p_error d)).
Proof.
  intros H Hn. unfold execute, machine.
  erewrite bind_Ret by (by rewrite H). simpl. assert ((n <? 0) = false) as -> by lia. done.
Qed.

(** C13: Memory safety and progress of a call of the response parser. Given any [len > 0] bytes with
    a NUL after them and 16 more readable characters, a parser in a state of the automaton
    other than the error state, whose body, if it has found one, does not start behind the data,
    returns: no assertion of
    [httpclient_parser_execute] fails, no callback and no [strtol] reads outside
    the buffer, and the [memmove] of what was not consumed stays in it. Either all bytes are
    consumed and the response is incomplete, or the parser stopped at a syntax error, or the
    response's headers are complete and the body starts at what was consumed. *)
Theorem response_execute_safe s data len :
  Forall is_byte data -> 0 < len < max_len -> len + 16 <= Z.of_nat (length data) ->
  data !! Z.to_nat len = Some 0 -> 1 <= cs (m_parser s) <= 123 -> body_start (m_parser s) <= len ->
  exists n s', execute data len s = Ret (n, moved data len n) s'
    /\ call_end len n (m_parser s')
    /\ body_start (m_parser s') <= len.
Proof.
  intros Hby Hlen Hroom Hnul Hcs Hb.
  destruct (client_execute_ok on_response_element on_response_http_field data len Hlen Hnul Hroom
    (m_parser s) (mkParsed (m_data s) (m_error s)) Hby Hcs Hb) as (n & r & d & He & Hend & Hbs).
  exists n, (mkResponseParser r (p_data d) (p_error d)).
  assert (0 <= n <= len) by (unfold call_end in Hend; lia).
  split; [apply response_execute_machine; [done|lia]|]. split; [done|]. simpl. lia.
Qed.

Lemma response_execute_safe_witness :
  let s := new_HttpResponseParser no_client 0 in
  let data := str "HTTP/1.1 200 OK" ++ repeat 0 16 in
  1 <= cs (m_parser s) <= 123
  /\ exists n s', execute data 15 s = Ret (n, moved data 15 n) s'.
Proof.
  intros s data. split; [split; discriminate|].
  destruct (response_execute_safe s data 15) as (n & s' & E & _).
  - apply (bool_decide_unpack _). vm_compute. exact I.
  - split; reflexivity.
  - discriminate.
  - reflexivity.
  - split; discriminate.
  - discriminate.
  - exists n, s'. exact E.
Defined.

(** What [HttpResponseParser] reports. [isFinished] is 1 exactly in the state a response ends
    in, -1 after a syntax error, which a caller that tests it as a condition takes for the end,
    and 0 otherwise, also in the three other states [done] leads to. And an error is not kept:
    the next call with any data takes the parser out of the error state, so [hasError] no longer
    reports it, with nothing consumed. *)
Theorem response_error_forgotten s data len :
  httpclient_parser_has_error (m_parser s) = true ->
  0 < len < max_len -> len + 16 <= Z.of_nat (length data) ->
  data !! Z.to_nat len = Some 0 -> body_start (m_parser s) <= len ->
  isFinished s = -1 /\ hasError s = true
  /\ exists s', execute data len s = Ret (0, moved data len 0) s'
    /\ cs (m_parser s') = 2 /\ isFinished s' = 0 /\ m_data s' = m_data s
    /\ hasError s' = negb (m_error s =? 0).
Proof.
  intros He Hlen Hroom Hnul Hb. unfold isFinished, httpclient_parser_finish, hasError.
  rewrite He. split; [done|]. split; [by rewrite orb_true_r|].
  pose proof (client_execute_error on_response_element on_response_http_field data len Hlen Hnul
    Hroom (m_parser s) (mkParsed (m_data s) (m_error s)) (proj1 (Z.eqb_eq _ _) He) Hb) as E.
  eexists. split; [by apply (response_execute_machine _ _ _ _ _ _ E)|]. simpl.
  repeat split. by rewrite orb_false_r.
Qed.

Lemma response_error_forgotten_witness :
  let s := mkResponseParser no_client (new_HttpResponse 17 true) 0 in
  let data := str "x" ++ repeat 0 17 in
  hasError s = true /\ exists s', execute data 1 s = Ret (0, moved data 1 0) s' /\ hasError s' = false.
Proof.
  intros s data. split; [reflexivity|].
  destruct (response_error_forgotten s data 1) as (_ & _ & s' & E & _ & _ & _ & H).
  - reflexivity.
  - split; reflexivity.
  - discriminate.
  - reflexivity.
  - discriminate.
  - exists s'. split; [exact E|exact H].
Defined.

(** The text of a response whose header Transfer-Encoding has an empty value, with the value on a
    line of its own: the machine takes "chunked" for the value, and hands the callback
    its start with the length of the header's name. *)
Definition folded_text : list Z :=
  str "HTTP/1.1 200 OK" ++ crlf ++ str "Transfer-Encoding:" ++ [10] ++ str "chunked" ++ [10].

(** The conditions of safety are needed. A call with no data makes the [memmove] start before
    the buffer; a call on data that is not followed by a NUL aborts; and a response that is
    followed by its NUL only makes the callback read behind the buffer, when the
    remembered length is that of another name. *)
Theorem response_execute_faults s data len memory error :
  (data !! 0%nat = Some 0 -> body_start (m_parser s) <= 0 -> execute data 0 s = UB OutOfBounds)
  /\ (forall b, 0 <= len -> data !! Z.to_nat len = Some b -> b <> 0 -> execute data len s = UB AssertFailed)
  /\ execute (folded_text ++ [0]) (Z.of_nat (length folded_text)) (new_HttpResponseParser memory error)
     = UB OutOfBounds.
Proof.
  split; [|split].
  - intros Hd Hb. destruct data as [|x data]; [done|]. simpl in Hd. simplify_eq.
    unfold execute, machine, bind at 1, httpclient_parser_execute.
    unfold regs, modify, get, bind, assert_, ret; simpl. change (slice (0 :: data) 0 0) with (@nil Z).
    simpl. assert ((body_start (m_parser s) <=? 0) = true) as -> by lia. done.
  - intros b Hl Hd Hb. unfold execute, machine, bind at 1, httpclient_parser_execute.
    unfold regs, modify, get, bind, assert_; simpl. assert ((0 <=? len) = true) as -> by lia. simpl.
    rewrite Hd. destruct (Z.eqb_spec b 0); done.
  - vm_compute. reflexivity.
Qed.

Lemma response_execute_faults_witness :
  let s := new_HttpResponseParser no_client 0 in
  execute [0] 0 s = UB OutOfBounds /\ execute [72; 84] 1 s = UB AssertFailed.
Proof.
  intros s. split.
  - refine (proj1 (response_execute_faults s [0] 0 no_client 0) _ _); [reflexivity|discriminate].
  - refine (proj1 (proj2 (response_execute_faults s [72; 84] 1 no_client 0)) 84 _ _ _);
      [discriminate|reflexivity|discriminate].
Defined.
