(* ===== verification/HttpClientRoundtrip.v ===== *)
(** * HttpClientRoundtrip: the text of a response is parsed back

    The text of a response is built by [response_text] from its version, status, reason and header
    lines. Parsing it in one call of [HttpResponseParser::execute] gives them back, and
    leaves in the machine what the headers Connection, Transfer-Encoding and Content-Length say.
    The automaton compares the names and the values while it reads them: its states are
    described by the part of a known word that has been read. *)

From S2P Require Import Prelude Std Http HttpClientTable HttpClientParser HttpClientFacts HttpClientSpec.
From S2P Require HttpParser HttpParserFacts HttpParserSpec HttpParserRoundtrip.
Import HttpParserRoundtrip (in_range, is_token, is_name, is_lws, line, mkLine, l_name, l_lws, l_value, line_text).

Definition fold (t : list Z) : list Z := map tolower t.

(** A character of a reason or a value, and one a value can start with. *)
Definition is_text_char (b : Z) : bool := negb (b =? 10) && negb (b =? 13).
Definition is_text_start (b : Z) : bool :=
  is_text_char b && negb (in_range 9 13 b) && negb (b =? 32).
Definition is_text (v : list Z) : bool :=
  match v with [] => false | b :: v' => is_text_start b && forallb is_text_char v' end.

(** ** Words read along the way *)

(** [t] begins the word [w]. *)
Definition begins (t w : list Z) : bool := bool_decide (take (length t) w = t).

Lemma begins_app t u w : begins t w = false -> begins (t ++ u) w = false.
Proof.
  unfold begins. rewrite !bool_decide_eq_false. intros H E. apply H.
  apply (f_equal (take (length t))) in E.
  by rewrite take_take, length_app, Nat.min_l, take_app_length in E by lia.
Qed.

Lemma begins_refl t : begins t t = true.
Proof. unfold begins. by rewrite take_ge, bool_decide_eq_true by lia. Qed.

Lemma fold_app t u : fold (t ++ u) = fold t ++ fold u.
Proof. apply map_app. Qed.

(** The names the grammar knows, with the state before the first character and the
    state after the colon. *)
Definition known_names : list (list Z * Z * Z) :=
  [(str "connection", 24, 35); (str "transfer-encoding", 43, 61); (str "content-length", 97, 112)].

(** The state after the colon that follows the name [t]. *)
Definition value_state (t : list Z) : Z :=
  if bool_decide (t = str "connection") then 35
  else if bool_decide (t = str "transfer-encoding") then 61
  else if bool_decide (t = str "content-length") then 112 else 22.

(** What has been read of a name in a state in which it may be a known one. *)
Definition name_read (q : Z) : option (list Z) :=
  if between 25 34 q then Some (take (Z.to_nat (q - 24)) (str "connection"))
  else if between 44 60 q then Some (take (Z.to_nat (q - 43)) (str "transfer-encoding"))
  else if between 101 111 q then Some (take (Z.to_nat (q - 97)) (str "content-length"))
  else None.

Definition no_name (t : list Z) : bool := forallb (fun w => negb (begins t w.1.1)) known_names.

Definition name_at (q : Z) (t : list Z) : bool :=
  ((q =? 21) && no_name t) || bool_decide (name_read q = Some t).

(** Reading the token [b] in state [q], where [t] has been read, with the actions [l]. *)
Definition name_step_ok (q b : Z) (l : list action) (t : list Z) : bool :=
  match step q with
  | None => false
  | Some f => let q' := dest (f (s8 b)) in
      goesb q b l q' && negb (q' =? 0) && name_at q' (t ++ [tolower b])
  end.

Definition tokens : list Z := List.filter is_token bytes.

Lemma token_in b : is_token b = true -> In b tokens.
Proof.
  intros H. unfold tokens. apply filter_In. split; [|done].
  assert (0 <= b < 256) as Hb by (unfold is_token, in_range in H; lia).
  unfold HttpParserFacts.bytes. apply in_map_iff. exists (Z.to_nat b). split; [lia|].
  apply in_seq. lia.
Qed.

Lemma tokens_all (P : Z -> bool) b : forallb P tokens = true -> is_token b = true -> P b = true.
Proof. rewrite forallb_forall. intros H Hb. by apply H, token_in. Qed.

Lemma name_steps :
  forallb (fun q => match name_read q with
    | Some t => forallb (fun b => name_step_ok q b [] t) tokens
    | None => true end) states
  && forallb (fun b => goesb 21 b [] 21) tokens
  && forallb (fun b => name_step_ok 20 b [a_start_field] []) tokens
  && forallb (fun b => name_step_ok 43 b [a_close; a_start_field] []) tokens = true.
Proof. vm_compute. reflexivity. Qed.

Lemma name_colons :
  forallb (fun q => match name_read q with
    | Some t => goesb q 58 [a_write_field] (value_state t)
    | None => true end) states && goesb 21 58 [a_write_field] 22 = true.
Proof. vm_compute. reflexivity. Qed.

Lemma name_read_state q t : name_read q = Some t -> In q states.
Proof.
  intros H. unfold states. apply in_map_iff. exists (Z.to_nat q).
  unfold name_read, between in H. split; [|apply in_seq]; repeat case_match; try done; lia.
Qed.

Lemma no_name_app t u : no_name t = true -> no_name (t ++ u) = true.
Proof.
  unfold no_name. rewrite !forallb_forall. intros H w Hw. specialize (H w Hw).
  rewrite negb_true_iff in *. by apply begins_app.
Qed.

Lemma no_name_value t : no_name t = true -> value_state t = 22.
Proof.
  unfold no_name, value_state. rewrite forallb_forall. intros H.
  repeat case_bool_decide; [..|done]; subst; exfalso.
  - by specialize (H (str "connection", 24, 35) ltac:(by left)).
  - by specialize (H (str "transfer-encoding", 43, 61) ltac:(by right; left)).
  - by specialize (H (str "content-length", 97, 112) ltac:(by do 2 right; left)).
Qed.

Lemma name_step_ok_inv q b l t : name_step_ok q b l t = true ->
  exists q', goesb q b l q' = true /\ q' <> 0 /\ name_at q' (t ++ [tolower b]) = true.
Proof.
  unfold name_step_ok. destruct (step q) as [f|]; [|done].
  intros [[H1 H2]%andb_true_iff H3]%andb_true_iff. exists (dest (f (s8 b))).
  split; [done|]. split; [|done]. intros E. by rewrite E in H2.
Qed.

Lemma name_at_step q t b : name_at q t = true -> is_token b = true ->
  exists q', goesb q b [] q' = true /\ q' <> 0 /\ name_at q' (t ++ [tolower b]) = true.
Proof.
  pose proof name_steps as [[[H1 H2]%andb_true_iff _]%andb_true_iff _]%andb_true_iff.
  unfold name_at at 1. rewrite orb_true_iff. intros [[->%Z.eqb_eq Hn]%andb_true_iff|Hr] Hb.
  - exists 21. split; [by apply (tokens_all _ _ H2)|]. split; [done|].
    unfold name_at. by rewrite (no_name_app _ _ Hn).
  - apply bool_decide_eq_true in Hr. rewrite forallb_forall in H1.
    specialize (H1 q (name_read_state _ _ Hr)). rewrite Hr in H1.
    apply name_step_ok_inv. by apply (tokens_all _ _ H1).
Qed.

Lemma name_at_colon q t : name_at q t = true -> goesb q 58 [a_write_field] (value_state t) = true.
Proof.
  pose proof name_colons as [H1 H2]%andb_true_iff.
  unfold name_at. rewrite orb_true_iff. intros [[->%Z.eqb_eq Hn]%andb_true_iff|Hr].
  - by rewrite no_name_value.
  - apply bool_decide_eq_true in Hr. rewrite forallb_forall in H1.
    specialize (H1 q (name_read_state _ _ Hr)). by rewrite Hr in H1.
Qed.

(** The word a value is compared with, by the state before the value: the state before its
    first character, the state a line that holds it goes to after CR. *)
Definition value_word (v0 : Z) : list Z * Z * Z :=
  if v0 =? 35 then (str "close", 95, 88)
  else if v0 =? 61 then (str "chunked", 80, 71) else ([], 0, 24).

Definition value_read (v0 q : Z) : option (list Z) :=
  let '(w, q0, _) := value_word v0 in
  if between (q0 + 1) (q0 + Z.of_nat (length w)) q then Some (take (Z.to_nat (q - q0)) w) else None.

(** In state [q] the part [t] of a value has been read after [v0]. *)
Definition value_at (v0 q : Z) (t : list Z) : bool :=
  if v0 =? 112 then if forallb is_digit t then q =? 119 else q =? 23
  else ((q =? 23) && negb (begins (fold t) (value_word v0).1.1))
       || bool_decide (value_read v0 q = Some (fold t)).

Definition is_value_state (v0 : Z) : bool := (v0 =? 22) || (v0 =? 35) || (v0 =? 61) || (v0 =? 112).

Notation text_chars := (List.filter is_text_char bytes).
Notation text_starts := (List.filter is_text_start bytes).

Definition value_step_ok (v0 q b : Z) (l : list action) (t : list Z) : bool :=
  match step q with
  | None => false
  | Some f => let q' := dest (f (s8 b)) in
      goesb q b l q' && negb (q' =? 0)
      && (((q' =? 23) && negb (begins (t ++ [tolower b]) (value_word v0).1.1))
          || bool_decide (value_read v0 q' = Some (t ++ [tolower b])))
  end.

Lemma value_steps :
  forallb (fun v0 =>
    forallb (fun b => goesb v0 b [a_mark] v0) [9; 32]
    && forallb (fun b => value_step_ok v0 v0 b [a_mark] []) text_starts
    && forallb (fun q => match value_read v0 q with
       | Some t => forallb (fun b => value_step_ok v0 q b [] t) text_chars
       | None => true end) states) [22; 35; 61] = true.
Proof. vm_compute. reflexivity. Qed.

Lemma value_steps_number :
  forallb (fun b => goesb 112 b [a_mark] 112) [9; 32]
  && forallb (fun b => goesb 112 b [a_mark] (if is_digit b then 119 else 23)) text_starts
  && forallb (fun b => goesb 119 b [] (if is_digit b then 119 else 23)) text_chars
  && forallb (fun b => goesb 23 b [] 23) text_chars = true.
Proof. vm_compute. reflexivity. Qed.

(** The end of a value: after CR in state [q]. *)
Lemma value_ends :
  goesb 23 13 [a_http_field] 24 && goesb 119 13 [a_content_len; a_http_field] 24
  && goesb 22 13 [a_mark; a_http_field] 24
  && forallb (fun v0 => let '(w, _, q') := value_word v0 in
       forallb (fun q => match value_read v0 q with
         | Some t => goesb q 13 [a_http_field] (if bool_decide (t = w) then q' else 24)
         | None => true end) states) [35; 61]
  && goesb 24 10 [] 20 && goesb 88 10 [] 43 && goesb 71 10 [a_chunked] 20 = true.
Proof. vm_compute. reflexivity. Qed.

Lemma char_in (P : Z -> bool) b : is_byte b -> P b = true -> In b (List.filter P bytes).
Proof.
  intros Hb HP. apply filter_In. split; [|done]. unfold HttpParserFacts.bytes. apply in_map_iff.
  exists (Z.to_nat b). unfold is_byte in Hb. split; [lia|]. apply in_seq. lia.
Qed.

Lemma chars_all (P Q : Z -> bool) b :
  forallb P (List.filter Q bytes) = true -> is_byte b -> Q b = true -> P b = true.
Proof. rewrite forallb_forall. intros H Hb HQ. by apply H, char_in. Qed.

Lemma value_read_state v0 q t : is_value_state v0 = true -> value_read v0 q = Some t -> In q states.
Proof.
  unfold is_value_state. rewrite !orb_true_iff, !Z.eqb_eq. intros Hv H. unfold states.
  apply in_map_iff. exists (Z.to_nat q).
  destruct Hv as [[[-> | ->] | ->] | ->]; unfold value_read, value_word, between in H; simpl in H;
    try change (length (str "close")) with 5%nat in H;
    try change (length (str "chunked")) with 7%nat in H;
    (case_match; [|done]); rewrite andb_true_iff, !Z.leb_le in *;
    (split; [|apply in_seq]); lia.
Qed.

Lemma value_step_ok_inv v0 q b l t : v0 <> 112 -> value_step_ok v0 q b l (fold t) = true ->
  exists q', goesb q b l q' = true /\ q' <> 0 /\ value_at v0 q' (t ++ [b]) = true.
Proof.
  intros Hv. unfold value_step_ok. destruct (step q) as [f|]; [|done].
  intros [[H1 H2]%andb_true_iff H3]%andb_true_iff. exists (dest (f (s8 b))).
  split; [done|]. split; [intros E; by rewrite E in H2|].
  unfold value_at. destruct (Z.eqb_spec v0 112); [done|]. by rewrite fold_app.
Qed.

Lemma not_number v0 : is_value_state v0 = true -> v0 <> 112 -> In v0 [22; 35; 61].
Proof. unfold is_value_state. simpl. lia. Qed.

Lemma value_lws v0 b : is_value_state v0 = true -> In b [9; 32] -> goesb v0 b [a_mark] v0 = true.
Proof.
  intros Hv Hb. destruct (decide (v0 = 112)) as [->|Hn].
  - pose proof value_steps_number as [[[H _]%andb_true_iff _]%andb_true_iff _]%andb_true_iff.
    rewrite forallb_forall in H. by apply H.
  - pose proof value_steps as H. rewrite forallb_forall in H.
    specialize (H v0 (not_number _ Hv Hn)). apply andb_true_iff in H as [[H _]%andb_true_iff _].
    rewrite forallb_forall in H. by apply H.
Qed.

Lemma value_first v0 b : is_value_state v0 = true -> is_byte b -> is_text_start b = true ->
  exists q', goesb v0 b [a_mark] q' = true /\ q' <> 0 /\ value_at v0 q' [b] = true.
Proof.
  intros Hv Hb Hs. destruct (decide (v0 = 112)) as [->|Hn].
  - pose proof value_steps_number as [[[_ H]%andb_true_iff _]%andb_true_iff _]%andb_true_iff.
    exists (if is_digit b then 119 else 23). split; [by apply (chars_all (fun b => goesb 112 b [a_mark] (if is_digit b then 119 else 23)) is_text_start)|].
    unfold value_at. simpl. destruct (is_digit b); done.
  - pose proof value_steps as H. rewrite forallb_forall in H.
    specialize (H v0 (not_number _ Hv Hn)). apply andb_true_iff in H as [[_ H]%andb_true_iff _].
    apply (value_step_ok_inv v0 v0 b [a_mark] []); [done|].
    by apply (chars_all (fun b => value_step_ok v0 v0 b [a_mark] []) is_text_start).
Qed.

Lemma value_next v0 q t b :
  is_value_state v0 = true -> is_byte b -> is_text_char b = true -> value_at v0 q t = true ->
  exists q', goesb q b [] q' = true /\ q' <> 0 /\ value_at v0 q' (t ++ [b]) = true.
Proof.
  pose proof value_steps_number as [[_ H1]%andb_true_iff H2]%andb_true_iff.
  intros Hv Hb Hc Hat. destruct (decide (v0 = 112)) as [->|Hn].
  - unfold value_at in *; simpl in *. rewrite forallb_app. simpl. rewrite andb_true_r.
    destruct (forallb is_digit t); apply Z.eqb_eq in Hat as ->; simpl.
    + exists (if is_digit b then 119 else 23). split; [by apply (chars_all (fun b => goesb 119 b [] (if is_digit b then 119 else 23)) is_text_char)|].
      by destruct (is_digit b).
    + exists 23. by split; [apply (chars_all (fun b => goesb 23 b [] 23) is_text_char)|].
  - unfold value_at in Hat. destruct (Z.eqb_spec v0 112); [done|].
    apply orb_true_iff in Hat as [[->%Z.eqb_eq Hf]%andb_true_iff|Hr%bool_decide_eq_true].
    + exists 23. split; [by apply (chars_all (fun b => goesb 23 b [] 23) is_text_char)|]. split; [done|].
      unfold value_at. destruct (Z.eqb_spec v0 112); [done|]. rewrite Z.eqb_refl, fold_app.
      apply negb_true_iff in Hf. by rewrite (begins_app _ _ _ Hf).
    + pose proof value_steps as H. rewrite forallb_forall in H.
      specialize (H v0 (not_number _ Hv Hn)). apply andb_true_iff in H as [_ H].
      rewrite forallb_forall in H. specialize (H q (value_read_state _ _ _ Hv Hr)). rewrite Hr in H.
      apply (value_step_ok_inv v0 q b [] t); [done|].
      by apply (chars_all (fun b => value_step_ok v0 q b [] (fold t)) is_text_char).
Qed.

(** Where the CR after a whole value leads, and whether the number is stored. *)
Definition value_end (v0 : Z) (t : list Z) : list action * Z :=
  if v0 =? 112 then (if forallb is_digit t then [a_content_len; a_http_field] else [a_http_field], 24)
  else ([a_http_field],
    if bool_decide (fold t = (value_word v0).1.1) then (value_word v0).2 else 24).

Lemma value_cr v0 q t : is_value_state v0 = true -> t <> [] -> value_at v0 q t = true ->
  goesb q 13 (value_end v0 t).1 (value_end v0 t).2 = true.
Proof.
  pose proof value_ends as [[[[[[H1 H2]%andb_true_iff _]%andb_true_iff H3]%andb_true_iff _]%andb_true_iff
    _]%andb_true_iff _]%andb_true_iff.
  intros Hv Ht Hat. unfold value_end, value_at in *. destruct (Z.eqb_spec v0 112).
  { destruct (forallb is_digit t); apply Z.eqb_eq in Hat as ->; done. }
  apply orb_true_iff in Hat as [[->%Z.eqb_eq Hf]%andb_true_iff|Hr%bool_decide_eq_true].
  - simpl. rewrite bool_decide_eq_false_2; [done|]. intros E. rewrite E, begins_refl in Hf. done.
  - destruct (decide (v0 = 22)) as [->|Hn].
    { exfalso. unfold value_read, value_word, between in Hr; simpl in Hr.
      destruct (Z.leb_spec (0 + 1) q), (Z.leb_spec q (0 + Z.of_nat 0)); simpl in Hr; (lia || done). }
    rewrite forallb_forall in H3. assert (In v0 [35; 61]) as Hin
      by (by destruct (not_number _ Hv n) as [E|E]).
    specialize (H3 v0 Hin). destruct (value_word v0) as [[w q0] q'] eqn:Ew. simpl.
    rewrite forallb_forall in H3. specialize (H3 q (value_read_state _ _ _ Hv Hr)).
    by rewrite Hr in H3.
Qed.

(** ** Responses *)

(** As an [int], by way of the [long] of [strtol]. *)
Definition int_value (ds : list Z) : Z := s32 (clamp_long (digits_value ds)).

(** A header whose name the grammar knows needs a value. *)
Definition line_ok (h : line) : bool :=
  is_name (l_name h) && is_lws (l_lws h)
  && (is_text (l_value h)
      || bool_decide (l_value h = []) && (value_state (fold (l_name h)) =? 22)).

(** What a header line leaves in the machine. *)
Definition line_effect (h : line) (r : httpclient_parser) : httpclient_parser :=
  let name := fold (l_name h) in let value := l_value h in
  if bool_decide (name = str "connection") then
    if bool_decide (fold value = str "close") then set_close r else r
  else if bool_decide (name = str "transfer-encoding") then
    if bool_decide (fold value = str "chunked") then set_chunked r else r
  else if bool_decide (name = str "content-length") then
    if forallb is_digit value then set_content_len (int_value value) r else r
  else r.

Definition add_header (x : HttpResponse) (h : line) : HttpResponse :=
  rsp_setHeader (l_name h) (l_value h) x.

Record version := mkVersion { major : list Z; minor : list Z }.
Definition version_ok (v : version) : bool :=
  negb (bool_decide (major v = [])) && negb (bool_decide (minor v = []))
  && forallb is_digit (major v) && forallb is_digit (minor v).
Definition version_text (v : version) : list Z := str "HTTP/" ++ major v ++ [46] ++ minor v.

Definition set_parsed_version (v : version) (d : parsed) : parsed :=
  if bool_decide (version_text v = str "HTTP/1.1") then mkParsed (rsp_setVersion 17 (p_data d)) (p_error d)
  else if bool_decide (version_text v = str "HTTP/1.0") then mkParsed (rsp_setVersion 16 (p_data d)) (p_error d)
  else mkParsed (p_data d) 1001.

Definition upd (f : HttpResponse -> HttpResponse) (d : parsed) : parsed :=
  mkParsed (f (p_data d)) (p_error d).

Definition status_ok (code : list Z) : bool := negb (bool_decide (code = [])) && forallb is_digit code.
Definition reason_ok (reason : list Z) : bool := forallb is_text_char reason.

(** An empty reason is read together with the CR after it. *)
Definition reason_read (reason : list Z) : list Z := if bool_decide (reason = []) then [13] else reason.

Definition response_text (v : version) (code reason : list Z) (hs : list line) : list Z :=
  (version_text v ++ [32]) ++ (code ++ [32]) ++ (reason ++ crlf) ++ concat (map line_text hs) ++ crlf.

Definition response_ok (v : version) (code reason : list Z) (hs : list line) : bool :=
  version_ok v && status_ok code && reason_ok reason && forallb line_ok hs.

(** The response the callbacks build, and what the machine holds next to it. *)
Definition response_of (v : version) (code reason : list Z) (hs : list line) (d : parsed) : parsed :=
  upd (fun x => foldl add_header (rsp_setReason (reason_read reason) (rsp_setStatus (int_value code) x)) hs)
    (set_parsed_version v d).

Definition machine_of (code : list Z) (hs : list line) (r : httpclient_parser) : httpclient_parser :=
  foldl (fun r h => line_effect h r) (set_status (int_value code) r) hs.

(** ** Numbers *)

Lemma digit_decimal b : is_digit b = true -> digit_value 10 b = Some (b - 48).
Proof.
  unfold is_digit, in_range, digit_value. intros H. rewrite H.
  destruct (Z.ltb_spec (b - 48) 10); [done|]. lia.
Qed.

Lemma strtol_digits_decimal acc ds c rest : forallb is_digit ds = true -> digit_value 10 c = None ->
  strtol_digits 10 acc (ds ++ c :: rest) = Some (digits_from acc ds).
Proof.
  intros H Hc. revert acc H. induction ds as [|d ds IH]; intros acc H; simpl; [by rewrite Hc|].
  simpl in H. apply andb_true_iff in H as [Hd H]. rewrite (digit_decimal _ Hd). by apply IH.
Qed.

Lemma strtol_decimal ds c rest :
  ds <> [] -> forallb is_digit ds = true -> digit_value 10 c = None ->
  strtol 10 (ds ++ c :: rest) = Some (clamp_long (digits_value ds)).
Proof.
  intros Hne H Hc. destruct ds as [|d ds]; [done|]. pose proof H as Hd. simpl in Hd.
  apply andb_true_iff in Hd as [Hd _]. unfold is_digit, in_range in Hd.
  rewrite <- app_comm_cons. cbn [strtol].
  assert (isspace d = false) as -> by (unfold isspace; lia).
  assert ((d =? 45) = false) as -> by lia. assert ((d =? 43) = false) as -> by lia.
  assert (forall t, strtol_prefix 10 t = t) as ->.
  { intros t. unfold strtol_prefix. by repeat case_match. }
  rewrite app_comm_cons, strtol_digits_decimal by done. done.
Qed.

(** ** Crossing the automaton *)

Section Cross.
Context (buf : list Z) (pe : Z).
Hypothesis Hmax : Z.of_nat (length buf) < max_len.
Notation run := (run on_response_element on_response_http_field buf pe).
Notation do_actions := (do_actions on_response_element on_response_http_field buf pe).
Notation do_action := (do_action on_response_element on_response_http_field buf pe).
Notation number := (number (D := parsed) buf).
Implicit Types (r : httpclient_parser) (d : parsed).

(** A transition whose actions return. *)
Lemma client_run_acts p q b rest l q' s s' : goesb q b l q' = true -> q' <> 0 ->
  do_actions p l s = Ret false s' -> run p q (b :: rest) s = run (p + 1) q' rest s'.
Proof using.
  intros H Hq Hl. rewrite (client_run_goes _ _ _ _ _ _ _ _ _ _ _ H). erewrite bind_Ret by exact Hl.
  destruct (Z.eqb_spec q' 0); done.
Qed.

Lemma client_run_name p q t u rest s : name_at q t = true -> forallb is_token u = true ->
  exists q', name_at q' (t ++ fold u) = true
  /\ run p q (u ++ rest) s = run (p + Z.of_nat (length u)) q' rest s.
Proof using.
  revert p q t. induction u as [|b u IH]; intros p q t Ht Hu; simpl in Hu.
  - exists q. rewrite app_nil_r. split; [done|]. simpl. f_equal. lia.
  - apply andb_true_iff in Hu as [Hb Hu].
    destruct (name_at_step q t b Ht Hb) as (q1 & Hg & Hq & Hn).
    destruct (IH (p + 1) q1 _ Hn Hu) as (q' & Hn' & Hr). exists q'. split.
    + by rewrite <- app_assoc in Hn'.
    + rewrite <- app_comm_cons, (client_run_silent _ _ _ _ _ _ _ _ q1) by done. rewrite Hr.
      f_equal. simpl length. lia.
Qed.

Lemma client_run_value v0 p q t u rest s : is_value_state v0 = true ->
  value_at v0 q t = true -> forallb is_text_char u = true -> Forall is_byte u ->
  exists q', value_at v0 q' (t ++ u) = true
  /\ run p q (u ++ rest) s = run (p + Z.of_nat (length u)) q' rest s.
Proof using.
  intros Hv. revert p q t. induction u as [|b u IH]; intros p q t Ht Hu Hby; simpl in Hu.
  - exists q. rewrite app_nil_r. split; [done|]. simpl. f_equal. lia.
  - apply andb_true_iff in Hu as [Hb Hu]. inversion_clear Hby.
    destruct (value_next v0 q t b) as (q1 & Hg & Hq & Hn); [done..|].
    destruct (IH (p + 1) q1 _ Hn Hu) as (q' & Hn' & Hr); [done|]. exists q'. split.
    + by rewrite <- app_assoc in Hn'.
    + rewrite <- app_comm_cons, (client_run_silent _ _ _ _ _ _ _ _ q1) by done. rewrite Hr.
      f_equal. simpl length. lia.
Qed.

(** White space after the colon moves [mark]. *)
Lemma client_run_lws v0 p w rest r d : is_value_state v0 = true -> is_lws w = true ->
  exists m, run p v0 (w ++ rest) (r, d) = run (p + Z.of_nat (length w)) v0 rest (set_mark m r, d).
Proof using.
  intros Hv. revert p r. induction w as [|b w IH]; intros p r Hw.
  - exists (mark r). simpl. rewrite Z.add_0_r. by destruct r.
  - unfold is_lws in Hw. simpl in Hw. apply andb_true_iff in Hw as [Hb Hw].
    destruct (IH (p + 1) (set_mark p r) Hw) as (m & Hm). exists m.
    rewrite <- app_comm_cons, (client_run_acts p v0 b _ [a_mark] v0 _ (set_mark p r, d));
      [|apply value_lws; [done|simpl; lia]|intros ->; done|done].
    rewrite Hm. f_equal. simpl length. lia.
Qed.

(** What the callback of a header does. *)
Lemma client_field pre n w v more r d :
  buf = pre ++ (n ++ [58]) ++ w ++ v ++ more -> n <> [] ->
  field_start r = Z.of_nat (length pre) -> field_len r = Z.of_nat (length n) ->
  mark r = Z.of_nat (length pre + length (n ++ [58]) + length w) ->
  do_action (mark r + Z.of_nat (length v)) a_http_field (r, d)
  = Ret false (r, upd (rsp_setHeader n v) d).
Proof using Hmax.
  intros Hbuf Hn Hs Hl Hm. simpl. unfold reg, gets, bind, call; simpl.
  assert (length buf = length pre + length (n ++ [58%Z]) + length w + length v + length more)%nat as Hb
    by (rewrite Hbuf, !length_app; lia).
  assert (length (n ++ [58%Z]) = length n + 1)%nat as Hn1 by (rewrite length_app; done).
  rewrite client_LEN by lia. rewrite Hs, Hl.
  rewrite on_response_field_run by lia.
  destruct (Z.eqb_spec (Z.of_nat (length n)) 0) as [E|_]; [destruct n; simpl in E; done || lia|].
  unfold upd. do 4 f_equal.
  - unfold slice. rewrite !Nat2Z.id, Hbuf, drop_app_length, <- app_assoc. by rewrite take_app_length.
  - unfold slice. rewrite Hm, Nat2Z.id.
    replace (Z.to_nat (_ + Z.of_nat (length v) - _)) with (length v) by lia.
    rewrite Hbuf, !app_assoc, <- (app_assoc _ v more).
    replace (length pre + length (n ++ [58%Z]) + length w)%nat with (length (((pre ++ n) ++ [58%Z]) ++ w))
      by (rewrite !length_app; simpl; lia).
    by rewrite drop_app_length, take_app_length.
Qed.

(** The number at [mark]. *)
Lemma client_number r d pre ds c more : buf = pre ++ ds ++ c :: more ->
  mark r = Z.of_nat (length pre) -> ds <> [] -> forallb is_digit ds = true ->
  digit_value 10 c = None -> number 10 (r, d) = Ret (int_value ds) (r, d).
Proof using.
  intros Hbuf Hm Hne Hds Hc. unfold HttpClientParser.number, reg, gets, bind; simpl.
  by rewrite Hm, Nat2Z.id, Hbuf, drop_app_length, strtol_decimal.
Qed.

(** What a value leaves behind, after its line's end. *)
Definition value_effect (v0 : Z) (v : list Z) (r : httpclient_parser) : httpclient_parser :=
  if (v0 =? 112) && forallb is_digit v then set_content_len (int_value v) r
  else if (v0 =? 61) && bool_decide (fold v = str "chunked") then set_chunked r else r.

Definition end_state (v0 : Z) (v : list Z) : Z :=
  if (v0 =? 35) && bool_decide (fold v = str "close") then 43 else 20.

(** From the CR to the next line. *)
Lemma client_value_end v0 q p v rest r d r1 d1 :
  is_value_state v0 = true -> v <> [] -> value_at v0 q v = true ->
  do_actions p (value_end v0 v).1 (r, d) = Ret false (r1, d1) ->
  run p q (crlf ++ rest) (r, d)
  = run (p + 2) (end_state v0 v) rest
      (if (v0 =? 61) && bool_decide (fold v = str "chunked") then set_chunked r1 else r1, d1).
Proof using.
  intros Hv Hne Hat Hdo. simpl app.
  rewrite (client_run_acts _ _ _ _ _ _ _ _ (value_cr v0 q v Hv Hne Hat)
    ltac:(unfold is_value_state in Hv; rewrite !orb_true_iff, !Z.eqb_eq in Hv;
      destruct Hv as [[[-> | ->] | ->] | ->]; unfold value_end; simpl;
      repeat case_match; simpl; congruence || done) Hdo).
  unfold is_value_state in Hv. rewrite !orb_true_iff, !Z.eqb_eq in Hv.
  replace (p + 2) with (p + 1 + 1) by lia.
  destruct Hv as [[[-> | ->] | ->] | ->].
  - assert ((value_end 22 v).2 = 24) as -> by (unfold value_end; simpl; by case_match).
    by rewrite (client_run_silent _ _ _ _ _ _ _ _ 20) by (done || by vm_compute).
  - assert ((value_end 35 v).2 = if bool_decide (fold v = str "close") then 88 else 24) as -> by done.
    unfold end_state. change (35 =? 35) with true. change (35 =? 61) with false. cbn [andb].
    destruct (bool_decide (fold v = str "close")).
    + by rewrite (client_run_silent _ _ _ _ _ _ _ _ 43) by (done || by vm_compute).
    + by rewrite (client_run_silent _ _ _ _ _ _ _ _ 20) by (done || by vm_compute).
  - assert ((value_end 61 v).2 = if bool_decide (fold v = str "chunked") then 71 else 24) as -> by done.
    change (61 =? 61) with true. cbn [andb].
    destruct (bool_decide (fold v = str "chunked")).
    + by rewrite (client_run_acts _ 71 10 _ [a_chunked] 20 _ (set_chunked r1, d1))
        by (done || by vm_compute).
    + by rewrite (client_run_silent _ _ _ _ _ _ _ _ 20) by (done || by vm_compute).
  - assert ((value_end 112 v).2 = 24) as -> by done.
    by rewrite (client_run_silent _ _ _ _ _ _ _ _ 20) by (done || by vm_compute).
Qed.

Lemma client_run_value_line v0 pre n w v more rest r d p :
  buf = pre ++ (n ++ [58]) ++ w ++ v ++ crlf ++ more -> n <> [] ->
  field_start r = Z.of_nat (length pre) -> field_len r = Z.of_nat (length n) ->
  p = Z.of_nat (length pre + length (n ++ [58]) + length w) ->
  is_value_state v0 = true -> is_text v || bool_decide (v = []) && (v0 =? 22) = true ->
  Forall is_byte v ->
  run p v0 (v ++ crlf ++ rest) (r, d)
  = run (p + Z.of_nat (length v) + 2) (end_state v0 v) rest
      (set_mark p (value_effect v0 v r), upd (rsp_setHeader n v) d).
Proof using Hmax.
  intros Hbuf Hn Hfs Hfl Hp Hv Hok Hby.
  assert (forall r', field_start r' = Z.of_nat (length pre) -> field_len r' = Z.of_nat (length n) ->
    do_action (p + Z.of_nat (length v)) a_http_field (set_mark p r', d)
    = Ret false (set_mark p r', upd (rsp_setHeader n v) d)) as Hfield.
  { intros r' Hs Hl. by apply (client_field pre n w v (crlf ++ more) (set_mark p r') d Hbuf). }
  apply orb_true_iff in Hok as [Hok|[Hok%bool_decide_eq_true ->%Z.eqb_eq]%andb_true_iff].
  - destruct v as [|b u]; [done|]. apply andb_true_iff in Hok as [Hb Hu]. inversion_clear Hby.
    destruct (value_first v0 b Hv) as (q1 & Hg & Hq & Hat); [done..|].
    rewrite <- app_comm_cons, (client_run_acts _ _ _ _ [a_mark] _ _ (set_mark p r, d) Hg) by done.
    destruct (client_run_value v0 (p + 1) q1 [b] u (crlf ++ rest) (set_mark p r, d))
      as (q' & Hat' & ->); [done..|].
    change ([b] ++ u) with (b :: u) in Hat'. set (v := b :: u) in *.
    replace (p + 1 + Z.of_nat (length u)) with (p + Z.of_nat (length v)) by (subst v; simpl; lia).
    assert (v <> []) as Hvne by done. assert (Forall is_byte v) as Hbv by (by constructor).
    clearbody v. clear Hat Hg Hb Hu.
    destruct ((v0 =? 112) && forallb is_digit v) eqn:Enum.
    + apply andb_true_iff in Enum as [->%Z.eqb_eq Hd].
      rewrite (client_value_end 112 q' _ v rest _ d
        (set_mark p (set_content_len (int_value v) r)) (upd (rsp_setHeader n v) d)); [|done|done|done|].
      { unfold value_effect. by rewrite Hd. }
      assert ((value_end 112 v).1 = [a_content_len; a_http_field]) as ->
        by (unfold value_end; simpl; by rewrite Hd).
      cbn [HttpClientParser.do_actions].
      rewrite (bind_Ret _ _ _ false (set_mark p (set_content_len (int_value v) r), d)).
      { by erewrite bind_Ret by (by apply Hfield). }
      cbn [HttpClientParser.do_action]. enough (number 10 (set_mark p r, d) = Ret (int_value v) (set_mark p r, d))
        as Hnum by (by rewrite (bind_Ret _ _ _ _ _ Hnum)).
      apply (client_number _ d (pre ++ (n ++ [58]) ++ w) v 13 (10 :: more)); try done.
      * by rewrite Hbuf, <- !app_assoc.
      * simpl. rewrite Hp, !length_app. lia.
    + rewrite (client_value_end v0 q' _ v rest _ d (set_mark p r) (upd (rsp_setHeader n v) d));
        [|done|done|done|].
      { unfold value_effect. rewrite Enum. by destruct ((v0 =? 61) && _). }
      assert ((value_end v0 v).1 = [a_http_field]) as ->.
      { unfold value_end. destruct (v0 =? 112); simpl in Enum; [by rewrite Enum|done]. }
      cbn [HttpClientParser.do_actions]. by erewrite bind_Ret by (by apply Hfield).
  - subst v. simpl app. change (Z.of_nat (length [])) with 0 in *. rewrite Z.add_0_r in *.
    rewrite (client_run_acts p 22 13 _ [a_mark; a_http_field] 24 _
      (set_mark p r, upd (rsp_setHeader n []) d)); [|by vm_compute|done|].
    2: { change (do_actions p [a_mark; a_http_field] (r, d))
           with (do_actions p [a_http_field] (set_mark p r, d)).
         cbn [HttpClientParser.do_actions]. by erewrite bind_Ret by (by apply Hfield). }
    rewrite (client_run_silent _ _ _ _ _ _ _ _ 20) by (done || by vm_compute).
    f_equal. lia.
Qed.

(** A line starts in state 20, or in 43 when the line before asked to close. *)
Definition pend (q : Z) (r : httpclient_parser) : httpclient_parser := if q =? 43 then set_close r else r.
Definition is_line_start (q : Z) : bool := (q =? 20) || (q =? 43).

(** The positions lie behind [p]. *)
Definition behind (p : Z) (r : httpclient_parser) : Prop :=
  0 <= mark r < p /\ 0 <= field_start r < p /\ 0 <= field_len r <= p /\ nread r = 0.

Lemma behind_effect p a v0 v r :
  behind p (set_mark a (value_effect v0 v r)) <-> behind p (set_mark a r).
Proof using. unfold value_effect. by repeat case_match. Qed.

Lemma behind_start p a m l s q r :
  nread r = 0 -> 0 <= a < p -> 0 <= l <= p -> 0 <= s < p ->
  behind p (set_mark a (set_mark m (set_field_len l (set_field_start s (pend q r))))).
Proof using. intros. unfold behind, pend. by case_match. Qed.

Lemma value_state_kind t : is_value_state (value_state t) = true.
Proof using. unfold value_state. by repeat case_bool_decide. Qed.

Lemma client_line_effect h r a m l s :
  let v0 := value_state (fold (l_name h)) in
  reset_marks (pend (end_state v0 (l_value h))
    (set_mark a (value_effect v0 (l_value h) (set_mark m (set_field_len l (set_field_start s r))))))
  = reset_marks (line_effect h r).
Proof using.
  unfold value_state, line_effect, end_state, value_effect, pend.
  repeat case_bool_decide; try done; simpl; by destruct (forallb is_digit (l_value h)).
Qed.

(** The first character of a name. *)
Lemma client_run_name_start p q0 b rest r d : is_line_start q0 = true -> is_token b = true ->
  exists q, name_at q (fold [b]) = true
  /\ run p q0 (b :: rest) (r, d) = run (p + 1) q rest (set_field_start p (pend q0 r), d).
Proof using.
  pose proof name_steps as [[_ H20]%andb_true_iff H43]%andb_true_iff.
  unfold is_line_start. rewrite orb_true_iff, !Z.eqb_eq. intros [-> | ->] Hb.
  - pose proof (tokens_all _ _ H20 Hb) as (q & Hg & Hq & Hn)%name_step_ok_inv.
    exists q. split; [done|]. by apply (client_run_acts _ _ _ _ _ _ _ _ Hg).
  - pose proof (tokens_all _ _ H43 Hb) as (q & Hg & Hq & Hn)%name_step_ok_inv.
    exists q. split; [done|]. by apply (client_run_acts _ _ _ _ _ _ _ _ Hg).
Qed.

Lemma client_run_line p pre h more rest r d q0 :
  buf = pre ++ line_text h ++ more -> p = Z.of_nat (length pre) -> line_ok h = true ->
  Forall is_byte (line_text h) -> is_line_start q0 = true -> nread r = 0 ->
  exists q' r', is_line_start q' = true /\ behind (p + Z.of_nat (length (line_text h))) r'
  /\ reset_marks (pend q' r') = reset_marks (line_effect h (pend q0 r))
  /\ run p q0 (line_text h ++ rest) (r, d)
     = run (p + Z.of_nat (length (line_text h))) q' rest (r', upd (fun x => add_header x h) d).
Proof using Hmax.
  destruct h as [n w v]. unfold line_ok, line_text; cbn [l_name l_lws l_value].
  intros Hbuf Hp [[Hn Hw]%andb_true_iff Hv]%andb_true_iff Hby Hq Hnr.
  rewrite !Forall_app in Hby. destruct Hby as (_ & _ & _ & Hbv & _).
  destruct n as [|b t]; [done|]. pose proof Hn as [Hb Ht]%andb_true_iff. set (n := b :: t) in *.
  assert (buf = pre ++ (n ++ [58]) ++ w ++ v ++ crlf ++ more) as Hbuf'
    by (by rewrite Hbuf, <- !app_assoc).
  assert (length (n ++ [58%Z] ++ w ++ v ++ crlf) = length n + 1 + length w + length v + 2)%nat as Hll
    by (rewrite !length_app; simpl; lia).
  assert (length buf = length pre + (length n + 1 + length w + length v + 2) + length more)%nat as Hlen
    by (rewrite Hbuf, !length_app in *; simpl in *; lia).
  assert ((n ++ [58] ++ w ++ v ++ crlf) ++ rest = b :: t ++ [58] ++ w ++ v ++ crlf ++ rest) as ->
    by (unfold n; by rewrite <- !app_assoc).
  destruct (client_run_name_start p q0 b (t ++ [58] ++ w ++ v ++ crlf ++ rest) r d Hq Hb)
    as (q1 & Hn1 & ->).
  destruct (client_run_name (p + 1) q1 (fold [b]) t ([58] ++ w ++ v ++ crlf ++ rest)
    (set_field_start p (pend q0 r), d) Hn1 Ht) as (q2 & Hn2 & ->).
  rewrite <- fold_app in Hn2. change ([b] ++ t) with n in Hn2.
  replace (p + 1 + Z.of_nat (length t)) with (p + Z.of_nat (length n)) by (unfold n; simpl; lia).
  set (v0 := value_state (fold n)) in *. assert (n <> []) as Hne by done.
  clearbody n. clear Ht Hn1.
  change ([58] ++ w ++ v ++ crlf ++ rest) with (58 :: w ++ v ++ crlf ++ rest).
  pose proof (value_state_kind (fold n)) as Hk. fold v0 in Hk.
  rewrite (client_run_acts _ _ _ _ _ v0 _
    (set_field_len (Z.of_nat (length n)) (set_field_start p (pend q0 r)), d)
    (name_at_colon _ _ Hn2)); [|intros E0; rewrite E0 in Hk; done|].
  2: { simpl. unfold bind, regs, modify, ret; simpl. rewrite client_LEN by lia.
       by replace (p + Z.of_nat (length n) - p) with (Z.of_nat (length n)) by lia. }
  destruct (client_run_lws v0 (p + Z.of_nat (length n) + 1) w (v ++ crlf ++ rest)
    (set_field_len (Z.of_nat (length n)) (set_field_start p (pend q0 r))) d Hk Hw) as (m & ->).
  rewrite (client_run_value_line v0 pre n w v more);
    [|done|done|done|done|rewrite length_app; simpl; lia|done|done|done].
  exists (end_state v0 v). eexists. split; [|split; [|split]]; cycle 3.
  - rewrite Hll. f_equal. lia.
  - unfold is_line_start, end_state. by destruct ((v0 =? 35) && bool_decide (fold v = str "close")).
  - rewrite Hll. apply behind_effect, behind_start; [done|lia..].
  - apply (client_line_effect (mkLine n w v)).
Qed.

Lemma line_effect_marks h r : reset_marks (line_effect h r) = line_effect h (reset_marks r).
Proof using. unfold line_effect. repeat case_match; done. Qed.

Lemma client_run_lines p pre hs more rest r d q0 :
  buf = pre ++ concat (map line_text hs) ++ more -> p = Z.of_nat (length pre) ->
  forallb line_ok hs = true -> Forall is_byte (concat (map line_text hs)) ->
  is_line_start q0 = true -> behind p r ->
  exists q' r', is_line_start q' = true
  /\ behind (p + Z.of_nat (length (concat (map line_text hs)))) r'
  /\ reset_marks (pend q' r') = foldl (fun r h => line_effect h r) (reset_marks (pend q0 r)) hs
  /\ run p q0 (concat (map line_text hs) ++ rest) (r, d)
     = run (p + Z.of_nat (length (concat (map line_text hs)))) q' rest
         (r', upd (fun x => foldl add_header x hs) d).
Proof using Hmax.
  revert p pre r d q0. induction hs as [|h hs IH]; intros p pre r d q0 Hbuf Hp Hok Hby Hq Hb;
    cbn [map concat foldl forallb] in *.
  - exists q0, r. rewrite Z.add_0_r. split; [done|]. split; [done|]. split; [done|].
    by destruct d.
  - apply andb_true_iff in Hok as [Hh Hok]. apply Forall_app in Hby as [Hb1 Hb2].
    rewrite <- app_assoc in *.
    destruct (client_run_line p pre h (concat (map line_text hs) ++ more)
      (concat (map line_text hs) ++ rest) r d q0) as (q1 & r1 & Hq1 & Hw1 & He1 & ->);
      [done..|apply Hb|].
    destruct (IH (p + Z.of_nat (length (line_text h))) (pre ++ line_text h) r1
      (upd (fun x => add_header x h) d) q1) as (q' & r' & Hq' & Hw' & He' & ->);
      [by rewrite Hbuf, <- app_assoc|rewrite length_app; lia|done..|].
    exists q', r'. rewrite length_app, Nat2Z.inj_add, Z.add_assoc.
    split; [done|]. split; [done|]. split; [|done].
    by rewrite He', He1, line_effect_marks.
Qed.

(** *** The status line *)

Lemma strncmp_exact s t rest : (length s <= length t)%nat -> 0 ∉ t ->
  strncmp_eq s (t ++ rest) (length t) = Some (bool_decide (t = s)).
Proof using Hmax.
  revert s. induction t as [|y t IH]; intros s Hl H0; simpl.
  - destruct s; [done|simpl in Hl; lia].
  - apply not_elem_of_cons in H0 as [Hy H0]. destruct s as [|x s].
    + destruct (Z.eqb_spec y 0); [done|]. done.
    + simpl in Hl. destruct (Z.eqb_spec x y) as [->|Hn].
      * rewrite IH by (lia || done). f_equal. apply bool_decide_ext.
        split; [by intros ->|by intros [= ->]].
      * f_equal. symmetry. apply bool_decide_eq_false. by intros [= ->].
Qed.

Lemma digits_no (b : Z) ds : forallb is_digit ds = true -> is_digit b = false -> b ∉ ds.
Proof using Hmax.
  rewrite forallb_forall. intros H Hb Hin. apply list_elem_of_In, H in Hin. by rewrite Hin in Hb.
Qed.

Lemma version_text_facts v : version_ok v = true ->
  (8 <= length (version_text v))%nat /\ 0 ∉ version_text v.
Proof using Hmax.
  unfold version_ok. rewrite !andb_true_iff, !negb_true_iff, !bool_decide_eq_false.
  intros [[[Hm Hn] Hdm] Hdn]. unfold version_text. split.
  - rewrite !length_app. destruct (major v), (minor v); try done. simpl. lia.
  - rewrite !not_elem_of_app. split; [|split; [by apply digits_no|split; [|by apply digits_no]]].
    + apply (bool_decide_unpack _). by vm_compute.
    + apply (bool_decide_unpack _). by vm_compute.
Qed.

Lemma on_version_read v more d : version_ok v = true -> buf = version_text v ++ more ->
  on_response_version buf 0 (Z.of_nat (length (version_text v))) d = Ret tt (set_parsed_version v d).
Proof using Hmax.
  intros Hv Hbuf. apply version_text_facts in Hv as [Hl H0].
  unfold on_response_version, set_parsed_version. change (Z.to_nat 0) with 0%nat. rewrite drop_0.
  rewrite Nat2Z.id, Hbuf. rewrite !strncmp_exact by done.
  destruct (bool_decide (version_text v = str "HTTP/1.1")); [done|].
  destruct (bool_decide (version_text v = str "HTTP/1.0")); [done|].
  rewrite Hbuf, length_app in Hmax.
  by erewrite bind_Ret by (apply std_string_ret; rewrite ?length_app; lia).
Qed.

(** A number: its first digit is marked. *)
Lemma client_run_digits p q q1 l ds rest s s' : ds <> [] -> forallb is_digit ds = true ->
  forallb (fun b => goesb q b l q1 && goesb q1 b [] q1) (List.filter is_digit bytes) = true ->
  q1 <> 0 -> do_actions p l s = Ret false s' ->
  run p q (ds ++ rest) s = run (p + Z.of_nat (length ds)) q1 rest s'.
Proof using Hmax.
  intros Hne Hds Hg Hq Hdo.
  assert (forall b, is_digit b = true -> goesb q b l q1 = true /\ goesb q1 b [] q1 = true) as Hg'.
  { intros b Hb. apply andb_true_iff.
    apply (chars_all (fun b => goesb q b l q1 && goesb q1 b [] q1) is_digit); try done.
    unfold is_digit, in_range, is_byte in *. lia. }
  destruct ds as [|b ds]; [done|]. simpl in Hds. apply andb_true_iff in Hds as [Hb Hds].
  rewrite <- app_comm_cons, (client_run_acts _ _ _ _ _ _ _ _ (proj1 (Hg' b Hb)) Hq Hdo).
  rewrite client_run_loop by (done || (rewrite forallb_forall in *; intros c Hc; apply Hg'; auto)).
  f_equal. simpl length. lia.
Qed.

Lemma client_run_version v more rest r d : version_ok v = true ->
  buf = (version_text v ++ [32]) ++ more ->
  run 0 1 ((version_text v ++ [32]) ++ rest) (r, d)
  = run (Z.of_nat (length (version_text v ++ [32]))) 16 rest (set_mark 0 r, set_parsed_version v d).
Proof using Hmax.
  intros Hv Hbuf. rewrite <- app_assoc in Hbuf. pose proof (on_version_read v _ d Hv Hbuf) as Hcb.
  assert (Z.of_nat (length (version_text v)) < max_len) as Hl
    by (rewrite Hbuf, length_app in Hmax; lia).
  unfold version_ok in Hv. rewrite !andb_true_iff, !negb_true_iff, !bool_decide_eq_false in Hv.
  destruct Hv as [[[Hm Hn] Hdm] Hdn].
  assert ((version_text v ++ [32]) ++ rest
    = 72 :: str "TTP/" ++ major v ++ 46 :: minor v ++ 32 :: rest) as ->.
  { unfold version_text. by rewrite <- !app_assoc. }
  assert (Z.of_nat (length (version_text v)) = 6 + Z.of_nat (length (major v) + length (minor v))) as E
    by (unfold version_text; rewrite !length_app; simpl length; lia).
  rewrite (client_run_acts 0 1 72 _ [a_mark] 8 _ (set_mark 0 r, d)) by (done || by vm_compute).
  change (str "TTP/" ++ ?l) with (84 :: 84 :: 80 :: 47 :: l).
  rewrite (client_run_silent _ _ _ _ _ 8 84 _ 9) by (done || by vm_compute).
  rewrite (client_run_silent _ _ _ _ _ 9 84 _ 10) by (done || by vm_compute).
  rewrite (client_run_silent _ _ _ _ _ 10 80 _ 11) by (done || by vm_compute).
  rewrite (client_run_silent _ _ _ _ _ 11 47 _ 12) by (done || by vm_compute).
  rewrite (client_run_digits _ 12 13 [] (major v) _ _ (set_mark 0 r, d)) by (done || by vm_compute).
  rewrite (client_run_silent _ _ _ _ _ 13 46 _ 14) by (done || by vm_compute).
  rewrite (client_run_digits _ 14 15 [] (minor v) _ _ (set_mark 0 r, d)) by (done || by vm_compute).
  rewrite (client_run_acts _ 15 32 _ [a_http_version] 16 _ (set_mark 0 r, set_parsed_version v d));
    [|by vm_compute|done|].
  - f_equal. rewrite length_app, Nat2Z.inj_add, E. change (length [32]) with 1%nat. lia.
  - cbn [HttpClientParser.do_actions HttpClientParser.do_action].
    unfold element, reg, gets, bind, call; cbn [fst snd mark set_mark on_response_element].
    replace (0 + 1 + 1 + 1 + 1 + 1 + _ + 1 + _) with (Z.of_nat (length (version_text v))) by lia.
    rewrite client_LEN, Z.sub_0_r by lia. by rewrite Hcb.
Qed.

Lemma client_run_code p pre code more rest r d : status_ok code = true ->
  buf = pre ++ (code ++ [32]) ++ more -> p = Z.of_nat (length pre) ->
  run p 16 ((code ++ [32]) ++ rest) (r, d)
  = run (p + Z.of_nat (length (code ++ [32]))) 18 rest
      (set_status (int_value code) (set_mark p r), upd (rsp_setStatus (int_value code)) d).
Proof using Hmax.
  unfold status_ok. rewrite andb_true_iff, negb_true_iff, bool_decide_eq_false.
  intros [Hne Hd] Hbuf Hp. rewrite <- app_assoc in *.
  rewrite (client_run_digits _ 16 17 [a_mark] code _ _ (set_mark p r, d)) by (done || by vm_compute).
  change ([32] ++ rest) with (32 :: rest).
  rewrite (client_run_acts _ 17 32 _ [a_status_code] 18 _
    (set_status (int_value code) (set_mark p r), upd (rsp_setStatus (int_value code)) d));
    [|by vm_compute|done|].
  - f_equal. rewrite length_app. simpl length. lia.
  - cbn [HttpClientParser.do_actions HttpClientParser.do_action].
    enough (number 10 (set_mark p r, d) = Ret (int_value code) (set_mark p r, d)) as Hnum.
    { rewrite bind_assoc, (bind_Ret _ _ _ _ _ Hnum). unfold element, regs, modify, reg, gets, call, bind.
      cbn [fst snd mark set_mark set_status on_response_element]. unfold on_response_status, atoi.
      rewrite Hp, Nat2Z.id, Hbuf, drop_app_length. change ([32] ++ more) with (32 :: more).
      by rewrite strtol_decimal. }
    by apply (client_number _ d pre code 32 more).
Qed.

Lemma client_run_reason p pre reason more rest r d : reason_ok reason = true -> Forall is_byte reason ->
  buf = pre ++ (reason ++ crlf) ++ more -> p = Z.of_nat (length pre) ->
  run p 18 ((reason ++ crlf) ++ rest) (r, d)
  = run (p + Z.of_nat (length (reason ++ crlf))) 20 rest
      (set_mark p r, upd (rsp_setReason (reason_read reason)) d).
Proof using Hmax.
  intros Hok Hby Hbuf Hp. rewrite <- app_assoc in *.
  assert (length buf = length pre + length reason + 2 + length more)%nat as Hlen
    by (rewrite Hbuf, !length_app; simpl; lia).
  assert (forall m, p + Z.of_nat m < Z.of_nat (length buf) ->
    element on_response_element cb_reason_phrase buf (p + Z.of_nat m) (set_mark p r, d)
    = Ret tt (set_mark p r, upd (rsp_setReason (slice buf (length pre) m)) d)) as Hel.
  { intros m Hb. unfold element, reg, gets, bind, call; simpl.
    rewrite client_LEN by lia. unfold on_response_reason.
    erewrite bind_Ret by (apply std_string_ret; lia). unfold on_data, modify, upd. do 4 f_equal.
    rewrite Hp, Nat2Z.id. f_equal. lia. }
  destruct reason as [|b u].
  - simpl app. rewrite (client_run_acts p 18 13 _ [a_mark] 19 _ (set_mark p r, d)) by (done || by vm_compute).
    rewrite (client_run_acts (p + 1) 19 10 _ [a_reason_phrase] 20 _
      (set_mark p r, upd (rsp_setReason [13]) d)); [|by vm_compute|done|].
    { f_equal. simpl. lia. }
    cbn [HttpClientParser.do_actions HttpClientParser.do_action].
    rewrite bind_assoc, (bind_Ret _ _ _ _ _ (Hel 1%nat ltac:(simpl in *; lia))).
    assert (slice buf (length pre) 1 = [13]) as -> by (unfold slice; by rewrite Hbuf, drop_app_length).
    done.
  - unfold reason_ok in Hok. pose proof Hok as [Hb Hu]%andb_true_iff.
    assert (Forall (fun c => goesb 18 c [a_mark] 19 = true /\ goesb 19 c [] 19 = true) (b :: u)) as Hg.
    { rewrite forallb_forall in Hok. apply list.Forall_forall. intros c Hc. apply andb_true_iff.
      rewrite list.Forall_forall in Hby.
      apply (chars_all (fun c => goesb 18 c [a_mark] 19 && goesb 19 c [] 19) is_text_char);
        [by vm_compute|by apply Hby|by apply Hok, list_elem_of_In]. }
    inversion_clear Hg as [|? ? [Hg1 _] Hg2].
    rewrite <- app_comm_cons, (client_run_acts _ _ _ _ _ _ _ (set_mark p r, d) Hg1) by done.
    rewrite client_run_loop; [|apply forallb_forall; intros c Hc|done].
    2: { rewrite list.Forall_forall in Hg2. by apply Hg2, list_elem_of_In. }
    replace (p + 1 + Z.of_nat (length u)) with (p + Z.of_nat (length (b :: u))) by (simpl; lia).
    change (crlf ++ rest) with (13 :: 10 :: rest).
    rewrite (client_run_acts _ 19 13 _ [a_reason_phrase] 24 _
      (set_mark p r, upd (rsp_setReason (b :: u)) d)); [|by vm_compute|done|].
    + rewrite (client_run_silent _ _ _ _ _ 24 10 _ 20) by (done || by vm_compute).
      f_equal. rewrite length_app. simpl length. lia.
    + cbn [HttpClientParser.do_actions HttpClientParser.do_action].
      rewrite bind_assoc, (bind_Ret _ _ _ _ _ (Hel (length (b :: u)) ltac:(lia))).
      assert (slice buf (length pre) (length (b :: u)) = b :: u) as ->; [|done].
      rewrite Hbuf. apply HttpParserRoundtrip.slice_mid.
Qed.

(** The empty line ends the headers. *)
Lemma client_run_last p q0 rest r d : is_line_start q0 = true ->
  run p q0 (crlf ++ rest) (r, d) = Ret (p + 2, 120) (set_body_start (p + 2) (pend q0 r), d).
Proof using.
  unfold is_line_start. rewrite orb_true_iff, !Z.eqb_eq. intros Hq. simpl app.
  assert (run p q0 (13 :: 10 :: rest) (r, d) = run (p + 1) 3 (10 :: rest) (pend q0 r, d)) as ->.
  { destruct Hq as [-> | ->].
    - by rewrite (client_run_silent _ _ _ _ _ 20 13 _ 3) by (done || by vm_compute).
    - by rewrite (client_run_acts _ 43 13 _ [a_close] 3 _ (set_close r, d)) by (done || by vm_compute). }
  rewrite (client_run_goes _ _ _ _ _ 3 10 _ [a_done] 120) by (by vm_compute).
  replace (p + 2) with (p + 1 + 1) by lia. done.
Qed.
End Cross.

(** ** Responses *)

Lemma client_run_response v code reason hs rest tail r d pe :
  let text := response_text v code reason hs in
  let buf := text ++ tail in
  response_ok v code reason hs = true -> Forall is_byte text -> Z.of_nat (length buf) < max_len ->
  nread r = 0 -> field_start r = 0 -> field_len r = 0 ->
  exists r', run on_response_element on_response_http_field buf pe 0 1 (text ++ rest) (r, d)
      = Ret (Z.of_nat (length text), 120) (r', response_of v code reason hs d)
    /\ reset_marks r' = set_body_start (Z.of_nat (length text)) (machine_of code hs (reset_marks r))
    /\ behind (Z.of_nat (length text)) r' /\ body_start r' = Z.of_nat (length text).
Proof.
  intros text buf Hok Hby Hmax Hn Hfs Hfl. unfold response_ok in Hok. rewrite !andb_true_iff in Hok.
  destruct Hok as [[[Hv Hc] Hr] Hhs].
  unfold buf, text, response_text in *. set (t1 := version_text v ++ [32]) in *.
  set (t2 := code ++ [32]) in *. set (t3 := reason ++ crlf) in *. set (t4 := concat (map line_text hs)) in *.
  rewrite !Forall_app in Hby. destruct Hby as (_ & _ & Hb3 & Hb4 & _).
  assert (Forall is_byte reason) as Hbr by (unfold t3 in Hb3; by apply Forall_app in Hb3 as [? _]).
  assert (((t1 ++ t2 ++ t3 ++ t4 ++ crlf) ++ tail) = t1 ++ t2 ++ t3 ++ t4 ++ crlf ++ tail) as E
    by (by rewrite <- !app_assoc).
  assert (1 <= length t1 /\ 1 <= length t3)%nat as [Hl1 Hl3]
    by (unfold t1, t3; rewrite !length_app; simpl; lia).
  assert (((t1 ++ t2 ++ t3 ++ t4 ++ crlf) ++ rest) = t1 ++ t2 ++ t3 ++ t4 ++ crlf ++ rest) as ->
    by (by rewrite <- !app_assoc).
  rewrite E in *.
  rewrite (client_run_version _ pe Hmax v (t2 ++ t3 ++ t4 ++ crlf ++ tail)) by done. fold t1.
  rewrite (client_run_code _ pe Hmax _ t1 code (t3 ++ t4 ++ crlf ++ tail)) by done. fold t2.
  rewrite (client_run_reason _ pe Hmax _ (t1 ++ t2) reason (t4 ++ crlf ++ tail));
    [|done|done|by rewrite <- app_assoc|rewrite length_app; lia]. fold t3.
  set (p3 := Z.of_nat (length t1) + Z.of_nat (length t2)).
  set (r3 := set_mark p3 _). set (d3 := upd _ _).
  destruct (client_run_lines _ pe Hmax (p3 + Z.of_nat (length t3)) (t1 ++ t2 ++ t3) hs (crlf ++ tail)
    (crlf ++ rest) r3 d3 20) as (q' & r' & Hq' & Hw & He & Hrun).
  - fold t4. by rewrite <- !app_assoc.
  - unfold p3. rewrite !length_app. lia.
  - done.
  - done.
  - done.
  - unfold behind, r3, p3; simpl. rewrite Hn, Hfs, Hfl. lia.
  - fold t4 in Hw, Hrun. rewrite Hrun, client_run_last by done.
    assert (p3 + Z.of_nat (length t3) + Z.of_nat (length t4) + 2
      = Z.of_nat (length (t1 ++ t2 ++ t3 ++ t4 ++ crlf))) as Hl
      by (unfold p3; rewrite !length_app; simpl; lia).
    rewrite Hl. eexists. split; [reflexivity|]. split; [|split; [|done]].
    + unfold machine_of. change (reset_marks (set_body_start ?b ?x)) with (set_body_start b (reset_marks x)).
      f_equal. by rewrite He.
    + unfold behind, pend in *.
      destruct (q' =? 43); cbn [mark field_start field_len nread set_body_start set_close]; lia.
Qed.

(** C12: The text of a response is parsed back in one call. Given the status line, the header lines
    and the empty line, followed by the body and a NUL, [HttpResponseParser::execute] consumes
    exactly the text and moves the body to the front; the response has the status, the reason
    and the headers of the text, and version 1.1 or 1.0, or error 1001 for any other; an empty
    reason is read as a CR. The machine reports the end of the response, where the body starts,
    the status, and what the headers Connection, Transfer-Encoding and Content-Length say. *)
Theorem parse_response_text v code reason hs body tail memory error :
  let text := response_text v code reason hs in
  let data := text ++ body ++ 0 :: tail in
  let n := Z.of_nat (length text) in
  let len := n + Z.of_nat (length body) in
  let start := mkParsed (new_HttpResponse 17 true) error in
  response_ok v code reason hs = true -> Forall is_byte text -> Z.of_nat (length data) < max_len ->
  exists data' s', execute data len (new_HttpResponseParser memory error) = Ret (n, data') s'
    /\ take (length body) data' = body
    /\ m_data s' = p_data (response_of v code reason hs start)
    /\ m_error s' = p_error (response_of v code reason hs start)
    /\ isFinished s' = 1
    /\ reset_marks (m_parser s')
       = set_cs 120 (set_body_start n (machine_of code hs (httpclient_parser_init memory))).
Proof.
  intros text data n len start Hok Hby Hmax. set (init := httpclient_parser_init memory).
  assert (length data = length text + length body + 1 + length tail)%nat as Hl
    by (unfold data; rewrite !length_app; simpl; lia).
  assert (slice data 0 (Z.to_nat len) = text ++ body) as Hs.
  { unfold data, slice. rewrite drop_0, app_assoc. apply take_app_length'.
    rewrite length_app. unfold len, n. lia. }
  destruct (client_run_response v code reason hs body (body ++ 0 :: tail) init start len Hok Hby)
    as (r' & Hrun & Hres & Hb & Hbs); [done..|]. fold text data n in Hrun, Hres, Hb, Hbs.
  unfold behind in Hb.
  assert (httpclient_parser_execute on_response_element on_response_http_field data len 0 (init, start)
    = Ret n (set_nread n (set_cs 120 r'), response_of v code reason hs start)) as He.
  { apply client_execute_run; unfold len, n in *; try lia.
    - unfold data. rewrite app_assoc. rewrite list_lookup_middle; [done|]. rewrite length_app. lia.
    - rewrite Hs. exact Hrun.
    - unfold regs_within. lia. }
  eexists _, _. split; [by apply response_execute_machine; [exact He|unfold n; lia]|].
  split; [|split; [|split; [|split]]]; try done.
  - unfold moved, splice, slice. rewrite take_0. simpl.
    replace (Z.to_nat (len - n)) with (length body) by (unfold len; lia).
    unfold n, data. rewrite Nat2Z.id, drop_app_length, take_app_length. apply take_app_length.
  - change (set_cs 120 (reset_marks r') = set_cs 120 (set_body_start n (machine_of code hs (reset_marks init)))).
    by rewrite Hres.
Qed.

Lemma parse_response_text_witness :
  let v := mkVersion (str "1") (str "1") in
  let hs := [mkLine (str "Content-Length") (str " ") (str "5");
             mkLine (str "Connection") (str " ") (str "close")] in
  response_ok v (str "200") (str "OK") hs = true
  /\ exists data' s',
    execute (response_text v (str "200") (str "OK") hs ++ str "hello" ++ [0]) 62
      (new_HttpResponseParser no_client 0) = Ret (57, data') s'
    /\ isFinished s' = 1 /\ content_len (m_parser s') = 5 /\ close (m_parser s') = 1.
Proof.
  intros v hs. split; [reflexivity|].
  destruct (parse_response_text v (str "200") (str "OK") hs (str "hello") [] no_client 0)
    as (data' & s' & E & _ & _ & _ & Hf & Hm).
  - reflexivity.
  - apply (bool_decide_unpack _). vm_compute. exact I.
  - reflexivity.
  - exists data', s'. split; [exact E|]. split; [exact Hf|].
    split; [exact (f_equal content_len Hm)|exact (f_equal close Hm)].
Defined.
