(* ===== verification/Address.v ===== *)
(** * Address: [sylar/address.h] and [sylar/address.cpp]

    Socket addresses as the C structures they wrap: the integers are the values the fields hold,
    the port and the IPv4 address in network order, so they depend on the [Host]. A
    pointer to a [sockaddr] is the memory it points to, [None] when it is null. The name
    resolution and interface list of the C library are a class of the model. *)

From S2P Require Import Prelude Std Endian.

(** ** The structures *)

Record sockaddr_in := mkIn { sin_family : Z; sin_port : Z; s_addr : Z; sin_zero : list Z }.
Record sockaddr_in6 := mkIn6 {
  sin6_family : Z; sin6_port : Z; sin6_flowinfo : Z; s6_addr : list Z; sin6_scope_id : Z }.
Record sockaddr_un := mkUn { sun_family : Z; sun_path : list Z }.
Record sockaddr := mkSockaddr { sa_family : Z; sa_data : list Z }.

Definition AF_UNSPEC : Z := 0.
Definition AF_UNIX : Z := 1.
Definition AF_INET : Z := 2.
Definition AF_INET6 : Z := 10.
Definition sizeof_in : Z := 16.
Definition sizeof_in6 : Z := 28.
Definition sizeof_sockaddr : Z := 16.
(** [offsetof(sockaddr_un, sun_path)] and [sizeof(sun_path)]. *)
Definition path_offset : Z := 2.
Definition path_size : nat := 108.

(** The classes of the hierarchy, each with its [m_addr]. *)
(* SRC sylar/address.h:80-161 IPv4Address, IPv6Address, UnixAddress, UnKnowAddress *)
Inductive Address :=
  | IPv4Address (m_addr : sockaddr_in)
  | IPv6Address (m_addr : sockaddr_in6)
  | UnixAddress (m_addr : sockaddr_un) (m_length : Z)
  | UnKnowAddress (m_addr : sockaddr).

(** ** Masks *)

(** [1 << (sizeof(T) * 8 - bits)] is computed in [int]; the shift count is a [size_t]. *)
(* SRC sylar/address.cpp:14-16 CreateMask *)
Definition CreateMask (T : ity) (nbits : Z) : fault + Z :=
  let count := u64 (bits T - nbits) in
  if 31 <? count then inl BadShift
  else if count =? 31 then inl SignedOverflow
  else inr (cast T (Z.shiftl 1 count - 1)).

(** One round of the loop clears the lowest bit that is set. *)
Fixpoint CountBytes_loop (T : ity) (fuel : nat) (value result : Z) : option Z :=
  if value =? 0 then Some result
  else match fuel with
       | O => None
       | S fuel => CountBytes_loop T fuel (Z.land value (cast T (value - 1))) (u32 (result + 1))
       end.

(* SRC sylar/address.cpp:20-26 CountBytes *)
Definition CountBytes (T : ity) (value : Z) : option Z :=
  CountBytes_loop T (8 * sizeof T) value 0.

Section Address.
Context `{Host}.

(** ** Memory images *)

Definition in_bytes (a : sockaddr_in) : list Z :=
  mem_of 2 (sin_family a) ++ mem_of 2 (sin_port a) ++ mem_of 4 (s_addr a) ++ sin_zero a.
Definition in6_bytes (a : sockaddr_in6) : list Z :=
  mem_of 2 (sin6_family a) ++ mem_of 2 (sin6_port a) ++ mem_of 4 (sin6_flowinfo a)
  ++ s6_addr a ++ mem_of 4 (sin6_scope_id a).
Definition un_bytes (a : sockaddr_un) : list Z := mem_of 2 (sun_family a) ++ sun_path a.
Definition sockaddr_bytes (a : sockaddr) : list Z := mem_of 2 (sa_family a) ++ sa_data a.

Definition in_of (m : list Z) : sockaddr_in :=
  mkIn (mem_value (slice m 0 2)) (mem_value (slice m 2 2)) (mem_value (slice m 4 4)) (slice m 8 8).
Definition in6_of (m : list Z) : sockaddr_in6 :=
  mkIn6 (mem_value (slice m 0 2)) (mem_value (slice m 2 2)) (mem_value (slice m 4 4))
    (slice m 8 16) (mem_value (slice m 24 4)).
Definition sockaddr_of (m : list Z) : sockaddr := mkSockaddr (mem_value (slice m 0 2)) (slice m 2 14).

(* SRC sylar/address.cpp:293-295 IPv4Address::getAddr *)
Definition getAddr (a : Address) : list Z :=
  match a with
  | IPv4Address m => in_bytes m
  | IPv6Address m => in6_bytes m
  | UnixAddress m _ => un_bytes m
  | UnKnowAddress m => sockaddr_bytes m
  end.

(* SRC sylar/address.cpp:301-303 IPv4Address::getAddrLen *)
Definition getAddrLen (a : Address) : Z :=
  match a with
  | IPv4Address _ => sizeof_in
  | IPv6Address _ => sizeof_in6
  | UnixAddress _ m_length => m_length
  | UnKnowAddress _ => sizeof_sockaddr
  end.

(* SRC sylar/address.cpp:188-190 Address::getFamily *)
Definition getFamily (a : Address) : Z := mem_value (slice (getAddr a) 0 2).

(** ** Construction *)

(* SRC sylar/address.cpp:282-284 IPv4Address::IPv4Address *)
Definition new_IPv4Address (address port : Z) : Address :=
  IPv4Address (mkIn AF_INET (byteswapOnLittleEndian uint16_t port)
    (byteswapOnLittleEndian uint32_t address) (repeat 0 8)).

(* SRC sylar/address.cpp:367-370 IPv6Address::IPv6Address *)
Definition new_IPv6Address : Address := IPv6Address (mkIn6 AF_INET6 0 0 (repeat 0 16) 0).

(* SRC sylar/address.cpp:376-381 IPv6Address::IPv6Address *)
Definition new_IPv6Address_of (address : list Z) (port : Z) : Address :=
  IPv6Address (mkIn6 AF_INET6 (byteswapOnLittleEndian uint16_t port) 0 (take 16 address) 0).

(* SRC sylar/address.cpp:462 MAX_PATH_LEN *)
Definition MAX_PATH_LEN : Z := Z.of_nat path_size - 1.

(* SRC sylar/address.cpp:464-468 UnixAddress::UnixAddress *)
Definition new_UnixAddress : Address :=
  UnixAddress (mkUn AF_UNIX (repeat 0 path_size)) (path_offset + MAX_PATH_LEN).

(** How much of a path is copied: an abstract one, which starts with a NUL, has none at its end. *)
(* SRC sylar/address.cpp:473-477 UnixAddress::UnixAddress *)
Definition path_length (path : list Z) : Z :=
  let m_length := u32 (Z.of_nat (length path) + 1) in
  match path with 0 :: _ => u32 (m_length - 1) | _ => m_length end.

(* SRC sylar/address.cpp:470-485 UnixAddress::UnixAddress *)
Definition new_UnixAddress_of (path : list Z) : exn + Address :=
  let m_length := path_length path in
  if Z.of_nat path_size <? m_length then inl logic_error
  else inr (UnixAddress
    (mkUn AF_UNIX (splice (repeat 0 path_size) 0 (take (Z.to_nat m_length) (path ++ [0]))))
    (u32 (m_length + path_offset))).

(* SRC sylar/address.cpp:499-501 UnixAddress::setAddrLen *)
Definition setAddrLen (addrlen : Z) (a : Address) : Address :=
  match a with UnixAddress m _ => UnixAddress m addrlen | _ => a end.

(* SRC sylar/address.cpp:513-516 UnKnowAddress::UnKnowAddress *)
Definition new_UnKnowAddress (family : Z) : Address := UnKnowAddress (mkSockaddr (u16 family) (repeat 0 14)).

(** [Address::Create]: the memory at the pointer is read as the structure its family names. *)
(* SRC sylar/address.cpp:198-216 Address::Create *)
Definition Create (address : option (list Z)) (port : Z) : fault + option Address :=
  match address with
  | None => inr None
  | Some m =>
      let family := mem_value (slice m 0 2) in
      let size := if family =? AF_INET then sizeof_in
                  else if family =? AF_INET6 then sizeof_in6 else sizeof_sockaddr in
      if Z.of_nat (length m) <? size then inl OutOfBounds
      else inr (Some
        (if family =? AF_INET then IPv4Address (in_of m)
         else if family =? AF_INET6 then IPv6Address (in6_of m)
         else UnKnowAddress (sockaddr_of m)))
  end.

(** ** Order and equality *)

(** [memcmp(getAddr(), rhs.getAddr(), n)], [None] when it reads behind one of them. *)
Definition memcmp (a b : Address) (n : Z) : option comparison :=
  if (n <=? Z.of_nat (length (getAddr a))) && (n <=? Z.of_nat (length (getAddr b)))
  then Some (cmp_bytes (take (Z.to_nat n) (getAddr a)) (take (Z.to_nat n) (getAddr b)))
  else None.

(* SRC sylar/address.cpp:218-229 Address::operator < *)
Definition operator_lt (a rhs : Address) : option bool :=
  match memcmp a rhs (Z.min (getAddrLen a) (getAddrLen rhs)) with
  | None => None
  | Some Lt => Some true
  | Some Gt => Some false
  | Some Eq => Some (getAddrLen a <? getAddrLen rhs)
  end.

(* SRC sylar/address.cpp:231-234 Address::operator == *)
Definition operator_eq (a rhs : Address) : option bool :=
  if getAddrLen a =? getAddrLen rhs
  then (fun c => match c with Eq => true | _ => false end) <$> memcmp a rhs (getAddrLen a)
  else Some false.

(* SRC sylar/address.cpp:236-238 Address::operator != *)
Definition operator_ne (a rhs : Address) : option bool := negb <$> operator_eq a rhs.

(** ** Subnets *)

Definition set_s_addr (v : Z) (a : sockaddr_in) : sockaddr_in :=
  mkIn (sin_family a) (sin_port a) v (sin_zero a).
Definition set_s6_addr (v : list Z) (a : sockaddr_in6) : sockaddr_in6 :=
  mkIn6 (sin6_family a) (sin6_port a) (sin6_flowinfo a) v (sin6_scope_id a).

(* SRC sylar/address.cpp:316-325 IPv4Address::broadcastAddress *)
Definition broadcastAddress4 (m_addr : sockaddr_in) (prefix_len : Z) : fault + option Address :=
  if 32 <? prefix_len then inr None
  else match CreateMask uint32_t prefix_len with
       | inl f => inl f
       | inr mask => inr (Some (IPv4Address
           (set_s_addr (Z.lor (s_addr m_addr) (byteswapOnLittleEndian uint32_t mask)) m_addr)))
       end.

(* SRC sylar/address.cpp:327-336 IPv4Address::networdAddress *)
Definition networdAddress4 (m_addr : sockaddr_in) (prefix_len : Z) : fault + option Address :=
  if 32 <? prefix_len then inr None
  else match CreateMask uint32_t prefix_len with
       | inl f => inl f
       | inr mask => inr (Some (IPv4Address
           (set_s_addr (Z.land (s_addr m_addr) (byteswapOnLittleEndian uint32_t mask)) m_addr)))
       end.

(* SRC sylar/address.cpp:338-344 IPv4Address::subnetMask *)
Definition subnetMask4 (prefix_len : Z) : fault + Address :=
  match CreateMask uint32_t prefix_len with
  | inl f => inl f
  | inr mask => inr (IPv4Address (mkIn AF_INET 0
      (u32 (Z.lnot (byteswapOnLittleEndian uint32_t mask))) (repeat 0 8)))
  end.

(** Change the byte at [i] of [s6_addr]. *)
Definition at_byte (i : Z) (f : Z -> Z) (bs : list Z) : fault + list Z :=
  match bs !! Z.to_nat i with
  | Some b => inr (<[Z.to_nat i := f b]> bs)
  | None => inl OutOfBounds
  end.

(* SRC sylar/address.cpp:421-429 IPv6Address::broadcastAddress *)
Definition broadcastAddress6 (m_addr : sockaddr_in6) (prefix_len : Z) : fault + Address :=
  match CreateMask uint8_t (prefix_len mod 8) with
  | inl f => inl f
  | inr mask =>
      match at_byte (prefix_len / 8) (fun b => Z.lor b mask) (s6_addr m_addr) with
      | inl f => inl f
      | inr bs =>
          let k := Z.to_nat (prefix_len / 8 + 1) in
          inr (IPv6Address (set_s6_addr (take k bs ++ repeat 255 (16 - k)) m_addr))
      end
  end.

(* SRC sylar/address.cpp:431-439 IPv6Address::networdAddress *)
Definition networdAddress6 (m_addr : sockaddr_in6) (prefix_len : Z) : fault + Address :=
  match CreateMask uint8_t (prefix_len mod 8) with
  | inl f => inl f
  | inr mask =>
      match at_byte (prefix_len / 8) (fun b => Z.land b mask) (s6_addr m_addr) with
      | inl f => inl f
      | inr bs => inr (IPv6Address (set_s6_addr bs m_addr))
      end
  end.

(* SRC sylar/address.cpp:441-452 IPv6Address::subnetMask *)
Definition subnetMask6 (prefix_len : Z) : fault + Address :=
  match CreateMask uint8_t (prefix_len mod 8) with
  | inl f => inl f
  | inr mask =>
      match at_byte (prefix_len / 8) (fun _ => u8 (Z.lnot mask)) (repeat 0 16) with
      | inl f => inl f
      | inr bs =>
          let k := Z.to_nat (prefix_len / 8) in
          inr (IPv6Address (mkIn6 AF_INET6 0 0 (repeat 255 k ++ drop k bs) 0))
      end
  end.

(** ** Ports *)

(* SRC sylar/address.cpp:346-348 IPv4Address::getPort *)
Definition getPort (a : Address) : option Z :=
  match a with
  | IPv4Address m => Some (byteswapOnLittleEndian uint16_t (sin_port m))
  | IPv6Address m => Some (byteswapOnLittleEndian uint16_t (sin6_port m))
  | _ => None
  end.

(* SRC sylar/address.cpp:350-352 IPv4Address::setPort *)
Definition setPort (v : Z) (a : Address) : Address :=
  match a with
  | IPv4Address m => IPv4Address
      (mkIn (sin_family m) (byteswapOnLittleEndian uint16_t v) (s_addr m) (sin_zero m))
  | IPv6Address m => IPv6Address
      (mkIn6 (sin6_family m) (byteswapOnLittleEndian uint16_t v) (sin6_flowinfo m) (s6_addr m)
         (sin6_scope_id m))
  | _ => a
  end.

(** ** Text *)

(* SRC sylar/address.cpp:306-314 IPv4Address::insert *)
Definition insert4 (m_addr : sockaddr_in) : list Z :=
  let addr := byteswapOnLittleEndian uint32_t (s_addr m_addr) in
  decimal (Z.land (Z.shiftr addr 24) 255) ++ [46]
  ++ decimal (Z.land (Z.shiftr addr 16) 255) ++ [46]
  ++ decimal (Z.land (Z.shiftr addr 8) 255) ++ [46]
  ++ decimal (Z.land addr 255)
  ++ [58] ++ decimal (byteswapOnLittleEndian uint16_t (sin_port m_addr)).

(** [((uint16_t* )s6_addr)[i]], as the number it is printed as. *)
Definition group (bs : list Z) (i : nat) : Z :=
  byteswapOnLittleEndian uint16_t (mem_value (slice bs (2 * i) 2)).

(** The loop over the groups that are left: [first] when [i] is 0, [prev] the group before. *)
Fixpoint insert6_loop (first : bool) (prev : Z) (used_zeros : bool) (gs : list Z) : list Z * bool :=
  match gs with
  | [] => ([], used_zeros)
  | g :: gs =>
      if (g =? 0) && negb used_zeros then insert6_loop false g used_zeros gs
      else
        let gap := negb first && (prev =? 0) && negb used_zeros in
        let '(text, used) := insert6_loop false g (used_zeros || gap) gs in
        ((if gap then [58] else []) ++ (if first then [] else [58]) ++ decimal g ++ text, used)
  end.

(* SRC sylar/address.cpp:397-415 IPv6Address::insert *)
Definition groups_text (gs : list Z) : list Z :=
  let '(text, used_zeros) := insert6_loop true 0 false gs in
  text ++ (if negb used_zeros && (List.last gs 0 =? 0) then [58; 58] else []).

(* SRC sylar/address.cpp:395-419 IPv6Address::insert *)
Definition insert6 (m_addr : sockaddr_in6) : list Z :=
  [91] ++ groups_text (map (group (s6_addr m_addr)) (seq 0 8)) ++ [93; 58]
  ++ decimal (byteswapOnLittleEndian uint16_t (sin6_port m_addr)).

(** The characters of an array up to a NUL, [None] when there is none. *)
Definition array_text (cs : list Z) : option (list Z) :=
  if existsb (Z.eqb 0) cs then Some (c_str cs) else None.

(* SRC sylar/address.cpp:503-510 UnixAddress::insert *)
Definition insert_un (m_addr : sockaddr_un) (m_length : Z) : fault + list Z :=
  if (path_offset <? m_length) && (nth 0 (sun_path m_addr) 0 =? 0) then
    let n := m_length - path_offset - 1 in
    if n <? Z.of_nat (length (sun_path m_addr))
    then inr ([92; 48] ++ slice (sun_path m_addr) 1 (Z.to_nat n)) else inl OutOfBounds
  else match array_text (sun_path m_addr) with
       | Some t => inr t
       | None => inl OutOfBounds
       end.

(* SRC sylar/address.cpp:535-538 UnKnowAddress::insert *)
Definition insert_unknow (m_addr : sockaddr) : list Z :=
  str "[UnknowAddress family=" ++ decimal (sa_family m_addr) ++ [93].

(* SRC sylar/address.cpp:192-196 Address::toString *)
Definition toString (a : Address) : fault + list Z :=
  match a with
  | IPv4Address m => inr (insert4 m)
  | IPv6Address m => inr (insert6 m)
  | UnixAddress m l => insert_un m l
  | UnKnowAddress m => inr (insert_unknow m)
  end.

(** ** Names and interfaces *)

Record addrinfo := mkHints { ai_flags : Z; ai_family : Z; ai_socktype : Z; ai_protocol : Z }.
Record ifaddrs := mkIf { ifa_name : list Z; ifa_addr : option (list Z); ifa_netmask : option (list Z) }.

(** [getaddrinfo] gives the addresses of a node and a service, [None] for an error; [inet_pton]
    the bytes of an address's text, [None] when it is none; [getifaddrs] the interfaces. *)
Class Netdb := {
  getaddrinfo : list Z -> option (list Z) -> addrinfo -> option (list (option (list Z)));
  inet_pton : Z -> list Z -> option (list Z);
  getifaddrs : option (list ifaddrs)
}.
Context `{Netdb}.

Definition AI_ALL : Z := 16.

Definition lift {S A} (r : fault + A) : M S A :=
  match r with inl f => fail_with f | inr a => ret a end.

(** Where the first [c] of a text is: [memchr]. *)
Fixpoint memchr (c : Z) (s : list Z) : option nat :=
  match s with
  | [] => None
  | b :: s => if b =? c then Some 0%nat else S <$> memchr c s
  end.

(** The text up to a pointer's NUL, the pointer an offset. *)
Definition text_at (host : list Z) (p : nat) : list Z := c_str (drop p host).

(** The node and the service of [host]. *)
(* SRC sylar/address.cpp:40-67 Address::Lookup *)
Definition node_service (host : list Z) : list Z * option (list Z) :=
  let '(node, service) :=
    match host with
    | 91 :: rest =>
        match memchr 93 rest with
        | Some endipv6 =>
            (take endipv6 rest,
             if nth (S endipv6) rest 0 =? 58 then Some (text_at rest (S (S endipv6))) else None)
        | None => ([], None)
        end
    | _ => ([], None)
    end in
  let '(node, service) :=
    match node with
    | _ :: _ => (node, service)
    | [] =>
        match memchr 58 host with
        | None => ([], None)
        | Some k =>
            match memchr 58 (drop (S k) host) with
            | None => (take k host, Some (text_at host (S k)))
            | Some _ => ([], Some (text_at host k))
            end
        end
    end in
  (match node with [] => host | _ => node end, service).

(** Append what the library's list holds. *)
Fixpoint push_results (l : list (option (list Z))) : M (list (option Address)) unit :=
  match l with
  | [] => ret tt
  | next :: l =>
      let! a := lift (Create next 0) in
      modify (fun result => result ++ [a]) ;; push_results l
  end.

(* SRC sylar/address.cpp:28-83 Address::Lookup *)
Definition Lookup (host : list Z) (family type protocol : Z) : M (list (option Address)) bool :=
  let '(node, service) := node_service host in
  match getaddrinfo (c_str node) service (mkHints 0 family type protocol) with
  | None => ret false
  | Some results => push_results results ;; ret true
  end.

(* SRC sylar/address.cpp:85-92 Address::LookupAny *)
Definition LookupAny (host : list Z) (family type protocol : Z) : fault + option Address :=
  match Lookup host family type protocol [] with
  | Ret true (a :: _) => inr a
  | Ret true [] => inl OutOfBounds
  | Ret false _ => inr None
  | Exn _ _ => inr None
  | UB f => inl f
  end.

(** [std::dynamic_pointer_cast<IPAddress>]. *)
Definition as_IPAddress (a : option Address) : option Address :=
  match a with Some (IPv4Address _) | Some (IPv6Address _) => a | _ => None end.

(* SRC sylar/address.cpp:94-107 Address::LookupAnyIPAddress *)
Definition LookupAnyIPAddress (host : list Z) (family type protocol : Z) : fault + option Address :=
  match Lookup host family type protocol [] with
  | Ret true result =>
      inr (match find_split (fun a => bool_decide (is_Some (as_IPAddress a))) result with
           | Some (_, a, _) => a
           | None => None
           end)
  | Ret false _ => inr None
  | Exn _ _ => inr None
  | UB f => inl f
  end.

(* SRC sylar/address.cpp:240-267 IPAddress::Create *)
Definition IPAddress_Create (address : list Z) (port : Z) : fault + option Address :=
  match getaddrinfo (c_str address) None (mkHints AI_ALL AF_UNSPEC 0 0) with
  | None => inr None
  | Some [] => inl NullDeref
  | Some (ai_addr :: _) =>
      match Create ai_addr 0 with
      | inl f => inl f
      | inr a => inr (setPort port <$> as_IPAddress a)
      end
  end.

(** Only a negative result is an error, and text that is no address gives 0: the address
    stays that of the default constructor. *)
(* SRC sylar/address.cpp:269-280 Create *)
Definition IPv4_Create (address : list Z) (port : Z) : Address :=
  IPv4Address (mkIn AF_INET (byteswapOnLittleEndian uint16_t port)
    (match inet_pton AF_INET (c_str address) with Some bs => mem_value bs | None => 0 end) (repeat 0 8)).

(* SRC sylar/address.cpp:354-365 IPv6Address::Create *)
Definition IPv6_Create (address : list Z) (port : Z) : option Address :=
  (fun bs => IPv6Address (mkIn6 AF_INET6 (byteswapOnLittleEndian uint16_t port) 0 bs 0))
    <$> inet_pton AF_INET6 (c_str address).

(** [std::multimap]: a key goes behind the keys that are not greater. *)
Definition ifmap : Type := list (list Z * (option Address * Z)).
Definition key_less (a b : list Z) : bool := match cmp_bytes a b with Lt => true | _ => false end.
Fixpoint multimap_insert (k : list Z) (v : option Address * Z) (m : ifmap) : ifmap :=
  match m with
  | [] => [(k, v)]
  | (k', v') :: m' => if key_less k k' then (k, v) :: m else (k', v') :: multimap_insert k v m'
  end.
Definition equal_range (k : list Z) (m : ifmap) : list (option Address * Z) :=
  snd <$> List.filter (fun p => same_key key_less k p.1) m.

Fixpoint sum_bits (bs : list Z) : option Z :=
  match bs with
  | [] => Some 0
  | b :: bs => match CountBytes uint8_t b, sum_bits bs with
               | Some x, Some y => Some (u32 (x + y)) | _, _ => None end
  end.

(** The length of the prefix a netmask marks: [CountBytes] of the bytes of its address. *)
Definition prefix_of (family : Z) (m : list Z) : fault + Z :=
  let r := if family =? AF_INET then CountBytes uint32_t (s_addr (in_of m)) else sum_bits (s6_addr (in6_of m)) in
  match r with Some n => inr n | None => inl OutOfFuel end.

(** One interface of the loop. *)
(* SRC sylar/address.cpp:121-151 Address::GetInterfaceAddresses *)
Definition add_interface (family : Z) (next : ifaddrs) : M ifmap unit :=
  match ifa_addr next with
  | None => fail_with NullDeref
  | Some addr =>
      let sa_family := mem_value (slice addr 0 2) in
      if negb (family =? AF_UNSPEC) && negb (family =? sa_family) then ret tt
      else if (sa_family =? AF_INET) || (sa_family =? AF_INET6) then
        let! a := lift (Create (Some addr) 0) in
        match ifa_netmask next with
        | None => fail_with NullDeref
        | Some mask =>
            let! prefix_len := lift (prefix_of sa_family mask) in
            match a with
            | Some _ => modify (multimap_insert (ifa_name next) (a, prefix_len))
            | None => ret tt
            end
        end
      else ret tt
  end.

Fixpoint add_interfaces (family : Z) (l : list ifaddrs) : M ifmap unit :=
  match l with
  | [] => ret tt
  | next :: l => add_interface family next ;; add_interfaces family l
  end.

(* SRC sylar/address.cpp:109-160 Address::GetInterfaceAddresses *)
Definition GetInterfaceAddresses (family : Z) : M ifmap bool :=
  match getifaddrs with
  | None => ret false
  | Some results =>
      add_interfaces family results ;;
      gets (fun m => match m with [] => false | _ => true end)
  end.

(* SRC sylar/address.cpp:162-186 Address::GetInterfaceAddresses *)
Definition GetInterfaceAddresses_of (iface : list Z) (family : Z) : M (list (option Address * Z)) bool :=
  if bool_decide (iface = []) || bool_decide (iface = [42]) then
    (if (family =? AF_INET) || (family =? AF_UNSPEC)
     then modify (fun r => r ++ [(Some (new_IPv4Address 0 0), 0)]) else ret tt) ;;
    (if (family =? AF_INET6) || (family =? AF_UNSPEC)
     then modify (fun r => r ++ [(Some new_IPv6Address, 0)]) else ret tt) ;;
    ret true
  else
    match GetInterfaceAddresses family [] with
    | Ret true results =>
        modify (fun r => r ++ equal_range iface results) ;;
        gets (fun r => match r with [] => false | _ => true end)
    | Ret false _ => ret false
    | Exn e _ => throw e
    | UB f => fail_with f
    end.
End Address.
