(* ===== verification/AddressSpec.v ===== *)
(** * AddressSpec: what the addresses of [sylar/address.cpp] promise

    The order is a strict weak order that agrees with equality, the memory of an address is read
    back as the address, the subnet operations are arithmetic on the number an address spells, the
    texts are those of the numbers, and a host is split into a node and a service. *)

From S2P Require Import Prelude Std Endian Address.

(** ** Bitwise operations through the byte order *)

Section Bitwise.
Context (op : Z -> Z -> Z) (f : bool -> bool -> bool).
Hypothesis op_spec : forall a b i, 0 <= i -> Z.testbit (op a b) i = f (Z.testbit a i) (Z.testbit b i).
Hypothesis f_false : f false false = false.

Lemma op_mod a b n : 0 <= n -> op a b mod 2 ^ n = op (a mod 2 ^ n) (b mod 2 ^ n).
Proof using op_spec f_false.
  intros Hn. apply Z.bits_inj'. intros i Hi. rewrite op_spec by done.
  destruct (decide (i < n)).
  - by rewrite !Z.mod_pow2_bits_low, op_spec by lia.
  - by rewrite !Z.mod_pow2_bits_high by lia.
Qed.

Lemma op_div a b n : 0 <= n -> op a b / 2 ^ n = op (a / 2 ^ n) (b / 2 ^ n).
Proof using op_spec.
  intros Hn. apply Z.bits_inj'. intros i Hi. rewrite op_spec by done.
  rewrite !Z.div_pow2_bits by lia. apply op_spec. lia.
Qed.

Lemma le_bytes_op n a b : le_bytes n (op a b) = zip_with op (le_bytes n a) (le_bytes n b).
Proof using op_spec f_false.
  revert a b. induction n as [|n IH]; intros a b; [done|]. simpl.
  change 256 with (2 ^ 8). by rewrite op_mod, op_div, IH by lia.
Qed.

Lemma le_value_op l1 l2 : length l1 = length l2 -> Forall is_byte l1 -> Forall is_byte l2 ->
  le_value (zip_with op l1 l2) = op (le_value l1) (le_value l2).
Proof using op_spec f_false.
  intros Hl H1. revert l2 Hl. induction H1 as [|a l1 Ha H1 IH]; intros [|b l2] Hl H2; try done.
  - simpl. apply Z.bits_inj'. intros i Hi. by rewrite op_spec, !Z.bits_0 by done.
  - inversion_clear H2 as [|? ? Hb H2']. injection Hl as Hl. simpl. rewrite (IH l2 Hl H2').
    unfold is_byte in *.
    assert (forall x v, 0 <= x < 256 -> (x + 256 * v) mod 2 ^ 8 = x /\ (x + 256 * v) / 2 ^ 8 = v) as Hdm.
    { intros x v Hx. change (2 ^ 8) with 256. split; [|].
      - rewrite Z.mul_comm, Z.mod_add by lia. by apply Z.mod_small.
      - rewrite Z.mul_comm, Z.div_add, Z.div_small by lia. done. }
    destruct (Hdm a (le_value l1) Ha) as [Ea1 Ea2], (Hdm b (le_value l2) Hb) as [Eb1 Eb2].
    rewrite (Z.div_mod (op (a + _) (b + _)) (2 ^ 8)) by lia.
    rewrite op_mod, op_div, Ea1, Ea2, Eb1, Eb2 by lia. change (2 ^ 8) with 256. lia.
Qed.

Lemma le_value_lt T z : (0 < sizeof T)%nat -> signed T = false ->
  in_ity T (le_value (rev (le_bytes (sizeof T) z))).
Proof using.
  intros Hn Hs. unfold in_ity, in_u, bits. rewrite Hs, <- pow256.
  pose proof (le_value_range (rev (le_bytes (sizeof T) z)) ltac:(auto using Forall_rev, le_bytes_is_byte)) as H.
  by rewrite length_rev, length_le_bytes in H.
Qed.

Lemma rev_zip_with l1 l2 : length l1 = length l2 ->
  rev (zip_with op l1 l2) = zip_with op (rev l1) (rev l2).
Proof using.
  revert l2. induction l1 as [|a l1 IH]; intros [|b l2] Hl; try done. injection Hl as Hl. simpl.
  rewrite (IH l2 Hl), zip_with_app by (by rewrite !length_rev). done.
Qed.

Lemma byteswap_op T a b : (0 < sizeof T)%nat -> signed T = false ->
  byteswap T (op a b) = op (byteswap T a) (byteswap T b).
Proof using op_spec f_false.
  intros Hn Hs. unfold byteswap, bswap, bits. rewrite !le_bytes_wrapu, le_bytes_op.
  rewrite rev_zip_with by (by rewrite !length_le_bytes).
  rewrite le_value_op by (rewrite ?length_rev, ?length_le_bytes; auto using Forall_rev, le_bytes_is_byte).
  pose proof (le_value_lt T a Hn Hs) as Ha. pose proof (le_value_lt T b Hn Hs) as Hb.
  rewrite (cast_small T _ Hn Ha), (cast_small T _ Hn Hb).
  unfold in_ity, in_u in Ha, Hb. rewrite Hs in Ha, Hb. unfold cast, wrapu. rewrite Hs.
  rewrite op_mod by (unfold bits; lia). by rewrite !Z.mod_small.
Qed.
End Bitwise.

Definition lor_op a b := byteswap_op Z.lor orb (fun a b i _ => Z.lor_spec a b i) eq_refl a b.
Definition land_op a b := byteswap_op Z.land andb (fun a b i _ => Z.land_spec a b i) eq_refl a b.

(** ** Subnets *)

(** The number an IPv4 address spells. *)
Definition number `{Host} (a : sockaddr_in) : Z := byteswapOnLittleEndian uint32_t (s_addr a).

(** The address of [m] with the number [n]. *)
Definition is_number `{Host} (m : sockaddr_in) (n : Z) (a : sockaddr_in) : Prop :=
  number a = n /\ sin_family a = sin_family m /\ sin_port a = sin_port m.

Lemma order_involutive `{Host} T v : (0 < sizeof T)%nat -> in_ity T v ->
  byteswapOnLittleEndian T (byteswapOnLittleEndian T v) = v.
Proof.
  unfold byteswapOnLittleEndian. destruct (_ =? _); [done|apply byteswap_involutive].
Qed.

Lemma order_in `{Host} T v : (0 < sizeof T)%nat -> in_ity T v -> in_ity T (byteswapOnLittleEndian T v).
Proof. unfold byteswapOnLittleEndian. destruct (_ =? _); [done|]. intros Hn _. by apply cast_in_ity. Qed.

Lemma order_lor `{Host} a b :
  byteswapOnLittleEndian uint32_t (Z.lor a b)
  = Z.lor (byteswapOnLittleEndian uint32_t a) (byteswapOnLittleEndian uint32_t b).
Proof. unfold byteswapOnLittleEndian. destruct (_ =? _); [done|]. apply lor_op; simpl; lia || done. Qed.

Lemma order_land `{Host} a b :
  byteswapOnLittleEndian uint32_t (Z.land a b)
  = Z.land (byteswapOnLittleEndian uint32_t a) (byteswapOnLittleEndian uint32_t b).
Proof. unfold byteswapOnLittleEndian. destruct (_ =? _); [done|]. apply land_op; simpl; lia || done. Qed.

Lemma CreateMask_ok T p : (sizeof T = 1 \/ sizeof T = 4)%nat -> signed T = false ->
  0 <= bits T - p <= 30 -> bits T - p <= bits T -> CreateMask T p = inr (2 ^ (bits T - p) - 1).
Proof.
  intros HT Hs Hp Hp'. unfold CreateMask. rewrite (wrapu_small 64 (bits T - p)) by lia.
  destruct (Z.ltb_spec 31 (bits T - p)); [lia|]. destruct (Z.eqb_spec (bits T - p) 31); [lia|].
  rewrite Z.shiftl_1_l, cast_small; [done|lia|]. unfold in_ity, in_u. rewrite Hs.
  pose proof (Z.pow_pos_nonneg 2 (bits T - p)). pose proof (Z.pow_le_mono_r 2 (bits T - p) (bits T)). lia.
Qed.

Lemma CreateMask_faults p : in_u 32 p ->
  (p = 0 \/ 32 < p -> CreateMask uint32_t p = inl BadShift)
  /\ (p = 1 -> CreateMask uint32_t p = inl SignedOverflow).
Proof.
  unfold CreateMask, in_u. intros Hp. change (bits uint32_t) with 32. split.
  - intros [->|Hg]; [done|]. assert (u64 (32 - p) = 32 - p + 2 ^ 64) as ->.
    { unfold wrapu. symmetry. apply Z.mod_unique_pos with (-1); lia. }
    destruct (Z.ltb_spec 31 (32 - p + 2 ^ 64)); [done|lia].
  - by intros ->.
Qed.

(** [lor] with the low bits sets them, [land] with the others clears them. *)
Lemma sub_mod_ldiff n k : 0 <= k -> n - n mod 2 ^ k = Z.ldiff n (Z.ones k).
Proof.
  intros Hk. rewrite <- Z.land_ones by done. rewrite Z.sub_nocarry_ldiff.
  - apply Z.bits_inj'. intros i Hi. rewrite !Z.ldiff_spec, Z.land_spec.
    by destruct (Z.testbit n i), (Z.testbit (Z.ones k) i).
  - apply Z.bits_inj'. intros i Hi. rewrite Z.ldiff_spec, Z.land_spec, Z.bits_0.
    by destruct (Z.testbit n i), (Z.testbit (Z.ones k) i).
Qed.

Lemma ones_pred k : 2 ^ k - 1 = Z.ones k.
Proof. by rewrite Z.ones_equiv, Z.sub_1_r. Qed.

Lemma lor_low n k : 0 <= k -> Z.lor n (2 ^ k - 1) = n - n mod 2 ^ k + (2 ^ k - 1).
Proof.
  intros Hk. rewrite sub_mod_ldiff, ones_pred by done. rewrite Z.add_nocarry_lxor.
  - apply Z.bits_inj'. intros i Hi. rewrite Z.lor_spec, Z.lxor_spec, Z.ldiff_spec.
    by destruct (Z.testbit n i), (Z.testbit (Z.ones k) i).
  - apply Z.bits_inj'. intros i Hi. rewrite Z.land_spec, Z.ldiff_spec, Z.bits_0.
    by destruct (Z.testbit n i), (Z.testbit (Z.ones k) i).
Qed.

Lemma land_high n w k : 0 <= k <= w -> 0 <= n < 2 ^ w -> Z.land n (2 ^ w - 2 ^ k) = n - n mod 2 ^ k.
Proof.
  intros Hk Hn. rewrite sub_mod_ldiff by lia.
  assert (2 ^ w - 2 ^ k = Z.ldiff (Z.ones w) (Z.ones k)) as ->.
  { rewrite <- sub_mod_ldiff, <- ones_pred by lia.
    assert ((2 ^ w - 1) mod 2 ^ k = 2 ^ k - 1) as ->; [|lia].
    symmetry. apply Z.mod_unique_pos with (2 ^ (w - k) - 1).
    - pose proof (Z.pow_pos_nonneg 2 k). lia.
    - replace (2 ^ w) with (2 ^ k * 2 ^ (w - k)) by (rewrite <- Z.pow_add_r by lia; f_equal; lia). lia. }
  apply Z.bits_inj'. intros i Hi. rewrite Z.land_spec, !Z.ldiff_spec.
  destruct (decide (i < w)).
  - by rewrite (Z.ones_spec_low w) by lia.
  - by rewrite (testbit_small n w) by lia.
Qed.

(** An address read back from its memory. *)
Lemma mem_value_mem_of `{Host} n v : 0 <= v < 256 ^ Z.of_nat n -> mem_value (mem_of n v) = v.
Proof.
  intros Hv. unfold mem_value, mem_of.
  destruct little_host; rewrite ?rev_involutive, le_value_bytes; by apply Z.mod_small.
Qed.

Section IPv4.
Context `{Host}.

Lemma mask_in p : 2 <= p <= 32 -> in_ity uint32_t (2 ^ (32 - p) - 1).
Proof.
  intros Hp. unfold in_ity, in_u; simpl. pose proof (Z.pow_pos_nonneg 2 (32 - p)).
  pose proof (Z.pow_le_mono_r 2 (32 - p) 32). change (bits uint32_t) with 32. lia.
Qed.

Lemma broadcast_ok m p : 2 <= p <= 32 -> exists a, broadcastAddress4 m p = inr (Some (IPv4Address a))
  /\ is_number m (Z.lor (number m) (2 ^ (32 - p) - 1)) a.
Proof.
  intros Hp. unfold broadcastAddress4. destruct (Z.ltb_spec 32 p); [lia|].
  rewrite CreateMask_ok by (simpl; auto; change (bits uint32_t) with 32; lia).
  change (bits uint32_t) with 32. eexists. split; [done|]. unfold is_number, number; simpl.
  by rewrite order_lor, (order_involutive uint32_t) by (simpl; lia || by apply mask_in).
Qed.

Lemma networdAddress_ok m p : 2 <= p <= 32 -> exists a, networdAddress4 m p = inr (Some (IPv4Address a))
  /\ is_number m (Z.land (number m) (2 ^ (32 - p) - 1)) a.
Proof.
  intros Hp. unfold networdAddress4. destruct (Z.ltb_spec 32 p); [lia|].
  rewrite CreateMask_ok by (simpl; auto; change (bits uint32_t) with 32; lia).
  change (bits uint32_t) with 32. eexists. split; [done|]. unfold is_number, number; simpl.
  by rewrite order_land, (order_involutive uint32_t) by (simpl; lia || by apply mask_in).
Qed.

(** The fields of an IPv4 address are of their types. *)
Record in_wf (a : sockaddr_in) : Prop := {
  in_family : 0 <= sin_family a < 2 ^ 16;
  in_port : 0 <= sin_port a < 2 ^ 16;
  in_addr : 0 <= s_addr a < 2 ^ 32;
  in_zero : length (sin_zero a) = 8%nat
}.

Lemma slice_part (pre t rest : list Z) k n : length pre = k -> length t = n ->
  slice (pre ++ t ++ rest) k n = t.
Proof. intros <- <-. unfold slice. by rewrite drop_app_length, take_app_length. Qed.

Lemma slice_head (t rest : list Z) n : length t = n -> slice (t ++ rest) 0 n = t.
Proof. exact (slice_part [] t rest 0 n eq_refl). Qed.

Lemma in_of_bytes a : in_wf a -> in_of (in_bytes a) = a.
Proof.
  intros []. unfold in_of, in_bytes.
  assert (slice (mem_of 2 (sin_family a) ++ mem_of 2 (sin_port a) ++ mem_of 4 (s_addr a) ++ sin_zero a) 8 8
    = sin_zero a) as ->.
  { rewrite !app_assoc, <- (app_nil_r (_ ++ sin_zero a)), <- app_assoc. by apply slice_part; len. }
  rewrite slice_head, (slice_part (mem_of 2 _)) by apply length_mem_of.
  rewrite (app_assoc (mem_of 2 _) (mem_of 2 _)), slice_part by len.
  rewrite !mem_value_mem_of by done. by destruct a.
Qed.

Lemma s_addr_of a : in_wf a -> s_addr (in_of (in_bytes a)) = s_addr a.
Proof. intros Ha. by rewrite in_of_bytes. Qed.

(** The mask of a prefix, and its length counted back. *)
Definition mask_ok (p : Z) : bool :=
  match subnetMask4 p with
  | inr (IPv4Address a) => (number a =? 2 ^ 32 - 2 ^ (32 - p)) && bool_decide (CountBytes uint32_t (s_addr a) = Some p)
  | _ => false
  end.
End IPv4.

Lemma masks_ok :
  forallb (fun p => @mask_ok x86_64 p && @mask_ok big_host p) (map Z.of_nat (seq 2 31)) = true.
Proof. vm_compute. reflexivity. Qed.

Lemma subnetMask_ok `{Host} p : 2 <= p <= 32 -> exists a, subnetMask4 p = inr (IPv4Address a)
  /\ number a = 2 ^ 32 - 2 ^ (32 - p) /\ CountBytes uint32_t (s_addr a) = Some p.
Proof.
  intros Hp. pose proof masks_ok as Hm. rewrite forallb_forall in Hm.
  assert (In p (map Z.of_nat (seq 2 31))) as Hin.
  { apply in_map_iff. exists (Z.to_nat p). split; [lia|]. apply in_seq. lia. }
  specialize (Hm p Hin). apply andb_true_iff in Hm as [Hx Hb].
  assert (mask_ok p = true) as Hok by (by destruct H as [[]]).
  unfold mask_ok in Hok. destruct (subnetMask4 p) as [|[a| | |]]; try done.
  apply andb_true_iff in Hok as [?%Z.eqb_eq ?%bool_decide_eq_true]. by exists a.
Qed.

(** C34: The subnet operations of an IPv4 address as arithmetic on its number. For a prefix of 2 to
    32 bits the broadcast address has the host part all ones, and the mask is that of the
    prefix, which [CountBytes] counts back to the prefix. [networdAddress] gives the
    host part instead of the network, which is what the mask leaves of the address. A prefix of 0
    bits shifts an [int] by 32, one of 1 overflows it; a longer one than 32 gives no address, and
    shifts by a negative number in [subnetMask], which does not check it. *)
Theorem ipv4_subnets `{Host} m p : in_u 32 (s_addr m) -> in_u 32 p ->
  let n := number m in
  (2 <= p <= 32 -> exists b h s,
     broadcastAddress4 m p = inr (Some (IPv4Address b))
     /\ is_number m (n - n mod 2 ^ (32 - p) + (2 ^ (32 - p) - 1)) b
     /\ networdAddress4 m p = inr (Some (IPv4Address h)) /\ is_number m (n mod 2 ^ (32 - p)) h
     /\ subnetMask4 p = inr (IPv4Address s) /\ number s = 2 ^ 32 - 2 ^ (32 - p)
     /\ Z.land n (number s) = n - n mod 2 ^ (32 - p)
     /\ prefix_of AF_INET (in_bytes s) = inr p)
  /\ (p = 0 -> broadcastAddress4 m p = inl BadShift /\ networdAddress4 m p = inl BadShift
      /\ subnetMask4 p = inl BadShift)
  /\ (p = 1 -> broadcastAddress4 m p = inl SignedOverflow /\ networdAddress4 m p = inl SignedOverflow
      /\ subnetMask4 p = inl SignedOverflow)
  /\ (32 < p -> broadcastAddress4 m p = inr None /\ networdAddress4 m p = inr None
      /\ subnetMask4 p = inl BadShift).
Proof.
  intros Hm Hp n. destruct (CreateMask_faults p Hp) as [Hf0 Hf1].
  assert (in_ity uint32_t n) as Hn by (by apply order_in; [simpl; lia|]).
  unfold in_ity, in_u in Hn; simpl in Hn. change (bits uint32_t) with 32 in Hn.
  split; [|split; [|split]].
  - intros Hr. destruct (broadcast_ok m p Hr) as (b & Eb & Hb), (networdAddress_ok m p Hr) as (h & Eh & Hh),
      (subnetMask_ok p Hr) as (s & Es & Hs & Hc).
    exists b, h, s. rewrite lor_low in Hb by lia. rewrite land_ones_mod in Hh by lia.
    repeat (split; [done|]). split; [rewrite Hs; apply land_high; lia|].
    unfold prefix_of. rewrite Z.eqb_refl, s_addr_of; [by rewrite Hc|].
    unfold subnetMask4 in Es. destruct (CreateMask uint32_t p) as [|mask]; [done|]. injection Es as <-.
    split; simpl; unfold AF_INET; try lia. apply wrapu_range. lia.
  - intros ->. unfold broadcastAddress4, networdAddress4, subnetMask4. by rewrite Hf0 by auto.
  - intros ->. unfold broadcastAddress4, networdAddress4, subnetMask4. by rewrite Hf1.
  - intros Hg. unfold broadcastAddress4, networdAddress4, subnetMask4. rewrite Hf0 by auto.
    by destruct (Z.ltb_spec 32 p); [|lia].
Qed.

Lemma ipv4_subnets_witness :
  let m := mkIn AF_INET 0 (byteswapOnLittleEndian (H := x86_64) uint32_t 3232235777) (repeat 0 8) in
  exists b, broadcastAddress4 (H := x86_64) m 24 = inr (Some (IPv4Address b))
    /\ number (H := x86_64) b = 3232236031.
Proof.
  intros m. destruct (ipv4_subnets (H := x86_64) m 24) as [Hs _].
  - split; [discriminate|reflexivity].
  - split; [discriminate|reflexivity].
  - destruct Hs as (b & _ & _ & Eb & [Hb _] & _); [split; discriminate|].
    exists b. split; [exact Eb|]. exact Hb.
Defined.

(** ** Order *)

(** What is compared: the memory up to the length. *)
Definition image `{Host} (a : Address) : list Z := take (Z.to_nat (getAddrLen a)) (getAddr a).
Definition len_ok `{Host} (a : Address) : Prop := 0 <= getAddrLen a <= Z.of_nat (length (getAddr a)).

(** The least prefix decides, and then the lengths. *)
Lemma cmp_bytes_take a b :
  cmp_bytes a b
  = match cmp_bytes (take (Nat.min (length a) (length b)) a) (take (Nat.min (length a) (length b)) b) with
    | Eq => Nat.compare (length a) (length b) | c => c end.
Proof.
  revert b. induction a as [|x a IH]; intros [|y b]; simpl; try done.
  destruct (x ?= y); [apply IH|done|done].
Qed.

Lemma memcmp_image `{Host} a b n : len_ok a -> len_ok b -> 0 <= n <= getAddrLen a -> n <= getAddrLen b ->
  memcmp a b n = Some (cmp_bytes (take (Z.to_nat n) (image a)) (take (Z.to_nat n) (image b))).
Proof.
  unfold len_ok, memcmp, image. intros Ha Hb Hna Hnb.
  destruct (Z.leb_spec n (Z.of_nat (length (getAddr a)))); [|lia].
  destruct (Z.leb_spec n (Z.of_nat (length (getAddr b)))); [|lia]. simpl.
  by rewrite !take_take, !Nat.min_l by lia.
Qed.

Lemma length_image `{Host} a : len_ok a -> Z.of_nat (length (image a)) = getAddrLen a.
Proof. unfold len_ok, image. intros. rewrite length_take. lia. Qed.

Definition address_less `{Host} (a b : Address) : bool :=
  match cmp_bytes (image a) (image b) with Lt => true | _ => false end.

Lemma operator_lt_ok `{Host} a b : len_ok a -> len_ok b -> operator_lt a b = Some (address_less a b).
Proof.
  intros Ha Hb. pose proof (length_image a Ha) as La. pose proof (length_image b Hb) as Lb.
  unfold operator_lt, address_less, len_ok in *. rewrite memcmp_image by (done || lia).
  rewrite (cmp_bytes_take (image a) (image b)).
  replace (Nat.min (length (image a)) (length (image b)))
    with (Z.to_nat (Z.min (getAddrLen a) (getAddrLen b))) by lia.
  destruct (cmp_bytes (take _ (image a)) _); try done. f_equal.
  destruct (Nat.compare_spec (length (image a)) (length (image b))); lia.
Qed.

Lemma operator_eq_ok `{Host} a b : len_ok a -> len_ok b ->
  operator_eq a b = Some (bool_decide (image a = image b)).
Proof.
  intros Ha Hb. pose proof (length_image a Ha) as La. pose proof (length_image b Hb) as Lb.
  unfold operator_eq. destruct (Z.eqb_spec (getAddrLen a) (getAddrLen b)) as [E|E].
  - unfold len_ok in *. rewrite memcmp_image by (done || lia). simpl.
    rewrite !take_ge by lia. f_equal. symmetry. destruct (cmp_bytes _ _) eqn:Ec.
    + apply bool_decide_eq_true. by apply cmp_bytes_eq.
    + apply bool_decide_eq_false. intros Ei. by rewrite Ei, cmp_bytes_refl in Ec.
    + apply bool_decide_eq_false. intros Ei. by rewrite Ei, cmp_bytes_refl in Ec.
  - f_equal. symmetry. apply bool_decide_eq_false. intros Ei. rewrite Ei in La. lia.
Qed.

#[global] Instance address_less_order `{Host} : StrictWeakOrder address_less.
Proof. apply (swo_of_bytes image). Qed.

(** [operator<] of addresses, whose length is not greater than their memory, is a strict weak
    order, as the ordered containers ask for, on addresses of different kinds too; two
    addresses are the same key for it exactly when [operator==] says so, and [operator!=] is the
    opposite of that. *)
Theorem address_order `{Host} :
  StrictWeakOrder address_less
  /\ forall a b, len_ok a -> len_ok b ->
       operator_lt a b = Some (address_less a b)
       /\ operator_eq a b = Some (same_key address_less a b)
       /\ operator_ne a b = Some (negb (same_key address_less a b)).
Proof.
  split; [apply address_less_order|]. intros a b Ha Hb.
  assert (bool_decide (image a = image b) = same_key address_less a b) as E.
  { unfold same_key, address_less. rewrite (cmp_bytes_antisym (image a)).
    destruct (cmp_bytes (image a) (image b)) eqn:Ec; simpl.
    - apply bool_decide_eq_true. by apply cmp_bytes_eq.
    - apply bool_decide_eq_false. intros Ei. by rewrite Ei, cmp_bytes_refl in Ec.
    - apply bool_decide_eq_false. intros Ei. by rewrite Ei, cmp_bytes_refl in Ec. }
  unfold operator_ne. rewrite operator_lt_ok, operator_eq_ok, E by done. done.
Qed.

Lemma address_order_witness :
  let a := new_IPv4Address (H := x86_64) 167772161 80 in
  let b := new_IPv6Address in
  operator_lt (H := x86_64) a b = Some (address_less (H := x86_64) a b).
Proof.
  intros a b. apply (proj2 (address_order (H := x86_64)) a b);
    (split; [discriminate|]); vm_compute; discriminate.
Defined.

(** ** Round trips *)

(** The memory of an address is made into the address again. *)
Lemma Create_IPv4 `{Host} a port : in_wf a -> sin_family a = AF_INET ->
  Create (Some (in_bytes a)) port = inr (Some (IPv4Address a)).
Proof.
  intros Ha Hf. unfold Create.
  assert (mem_value (slice (in_bytes a) 0 2) = AF_INET) as ->.
  { unfold in_bytes. rewrite slice_head by apply length_mem_of.
    rewrite mem_value_mem_of by apply Ha. done. }
  assert (length (in_bytes a) = 16%nat) as Hl.
  { unfold in_bytes. destruct Ha. len. }
  rewrite Hl. simpl. by rewrite in_of_bytes.
Qed.

(** *** The text of a path *)

Lemma c_str_app t rest : 0 ∉ t -> c_str (t ++ 0 :: rest) = t.
Proof.
  induction t as [|b t IH]; [done|]. intros [Hb Ht]%not_elem_of_cons. simpl.
  destruct (Z.eqb_spec b 0); [done|]. by rewrite IH.
Qed.

Lemma splice_front (t : list Z) n : (length t <= n)%nat ->
  splice (repeat 0 n) 0 t = t ++ repeat 0 (n - length t).
Proof.
  intros Hl. unfold splice. simpl. f_equal. rewrite <- (Nat.sub_add (length t) n) at 1 by done.
  rewrite Nat.add_comm, repeat_app. by rewrite drop_app_length' by (by rewrite repeat_length).
Qed.

Lemma path_length_plain (path : list Z) : 0 ∉ path -> Z.of_nat (length path) < 2 ^ 32 - 1 ->
  path_length path = Z.of_nat (length path) + 1.
Proof.
  intros H0 Hn. unfold path_length. rewrite wrapu_small by lia.
  destruct path as [|[]]; try done. by apply not_elem_of_cons in H0 as [? _].
Qed.

Lemma path_length_abstract t : Z.of_nat (length (0 :: t)) < 2 ^ 32 - 1 ->
  path_length (0 :: t) = Z.of_nat (length (0 :: t)).
Proof. intros Hn. unfold path_length. rewrite !wrapu_small; rewrite ?wrapu_small; lia. Qed.

(** The path of a Unix address is printed as it was given, an abstract one with the text
    "\0" for its NUL; a path with no room for its end is refused. *)
Theorem unix_path `{Host} (path : list Z) :
  let n := Z.of_nat (length path) in
  (path <> [] -> 0 ∉ path -> n < Z.of_nat path_size ->
     exists a, new_UnixAddress_of path = inr a /\ toString a = inr path /\ getAddrLen a = n + 3)
  /\ (forall t, path = 0 :: t -> n <= Z.of_nat path_size ->
     exists a, new_UnixAddress_of path = inr a /\ toString a = inr ([92; 48] ++ t) /\ getAddrLen a = n + 2)
  /\ (0 ∉ path -> Z.of_nat path_size <= n < 2 ^ 32 - 4 -> new_UnixAddress_of path = inl logic_error).
Proof.
  intros n. unfold new_UnixAddress_of. change (Z.of_nat path_size) with 108 in *. split; [|split].
  - intros Hne H0 Hn. rewrite path_length_plain by (done || (unfold n in *; lia)). fold n.
    destruct (Z.ltb_spec 108 (n + 1)); [lia|].
    eexists. split; [done|]. split.
    2: { simpl. unfold path_offset, n in *. rewrite wrapu_small; lia. }
    rewrite take_ge by (rewrite length_app; simpl; lia).
    rewrite splice_front by (rewrite length_app; unfold path_size; simpl; lia).
    simpl. unfold insert_un; cbn [sun_path].
    assert (nth 0 ((path ++ [0]) ++ repeat 0 (path_size - length (path ++ [0]))) 0 =? 0 = false) as ->.
    { destruct path as [|b t]; [done|]. apply not_elem_of_cons in H0 as [Hb _]. simpl. by apply Z.eqb_neq. }
    rewrite andb_false_r. unfold array_text. rewrite <- app_assoc. simpl.
    rewrite existsb_app. simpl. rewrite orb_true_r. by rewrite c_str_app.
  - intros t -> Hn. rewrite path_length_abstract by (unfold n in *; lia). fold n.
    destruct (Z.ltb_spec 108 n); [lia|]. eexists. split; [done|].
    assert (u32 (n + path_offset) = n + 2) as Hl by (unfold path_offset; apply wrapu_small; unfold n in *; lia).
    split; [|exact Hl]. rewrite Hl. rewrite take_app_length' by (unfold n; lia).
    rewrite splice_front by (unfold path_size; unfold n in Hn; lia).
    cbn [toString]. unfold insert_un; cbn [sun_path]. unfold path_offset.
    destruct (Z.ltb_spec 2 (n + 2)); [|unfold n in *; simpl in *; lia]. cbn [app nth].
    rewrite Z.eqb_refl. cbn [andb].
    assert (length (0%Z :: t ++ repeat 0%Z (path_size - length (0%Z :: t))) = 108)%nat as ->
      by (unfold n, path_size in *; simpl in *; rewrite length_app, repeat_length; lia).
    destruct (Z.ltb_spec (n + 2 - 2 - 1) (Z.of_nat 108)); [|lia]. do 2 f_equal.
    replace (Z.to_nat (n + 2 - 2 - 1)) with (length t) by (unfold n; simpl; lia).
    unfold slice. simpl. rewrite drop_0. by rewrite take_app_length.
  - intros H0 Hn. rewrite path_length_plain by (done || (unfold n in *; lia)). fold n.
    destruct (Z.ltb_spec 108 (n + 1)); [done|lia].
Qed.

(** ** The text of an IPv6 address *)

(** Numbers separated by colons. *)
Fixpoint join (gs : list Z) : list Z :=
  match gs with
  | [] => []
  | [g] => decimal g
  | g :: gs => decimal g ++ [58] ++ join gs
  end.

(** Each group after a colon. *)
Definition colons (gs : list Z) : list Z := concat (map (fun g => 58 :: decimal g) gs).

Lemma join_colons g gs : join (g :: gs) = decimal g ++ colons gs.
Proof.
  revert g. induction gs as [|h gs IH]; intros g; [by rewrite app_nil_r|].
  change (join (g :: h :: gs)) with (decimal g ++ [58] ++ join (h :: gs)). by rewrite IH.
Qed.

Lemma loop_used prev gs : insert6_loop false prev true gs = (colons gs, true).
Proof.
  revert prev. induction gs as [|g gs IH]; intros prev; [done|]. cbn [insert6_loop].
  rewrite !andb_false_r, IH. done.
Qed.

Lemma last_cons_default (g d : Z) l : List.last (g :: l) d = List.last l g.
Proof.
  revert g d. induction l as [|h l IH]; intros g d; [done|].
  change (List.last (g :: h :: l) d) with (List.last (h :: l) d). by rewrite (IH h d), (IH h g).
Qed.

Lemma loop_nonzero prev l gs : prev <> 0 -> 0 ∉ l ->
  insert6_loop false prev false (l ++ gs)
  = let '(t, u) := insert6_loop false (List.last l prev) false gs in (colons l ++ t, u).
Proof.
  revert prev. induction l as [|g l IH]; intros prev Hp H0.
  - simpl. by destruct (insert6_loop false prev false gs).
  - apply not_elem_of_cons in H0 as [Hg H0]. cbn [app insert6_loop].
    destruct (Z.eqb_spec g 0); [done|]. destruct (Z.eqb_spec prev 0); [done|]. simpl.
    rewrite IH by done.
    change (match l with [] => g | _ :: _ => List.last l prev end) with (List.last (g :: l) prev).
    rewrite last_cons_default. destruct (insert6_loop false (List.last l g) false gs).
    unfold colons. simpl. by rewrite <- app_assoc.
Qed.

Lemma loop_zeros first prev k r : head r <> Some 0 ->
  insert6_loop first prev false (repeat 0 (S k) ++ r)
  = match r with [] => ([], false) | g :: r => (58 :: 58 :: decimal g ++ colons r, true) end.
Proof.
  intros Hr. revert first prev. induction k as [|k IH]; intros first prev.
  - simpl. destruct r as [|g r]; [done|]. cbn [insert6_loop]. destruct (Z.eqb_spec g 0) as [->|]; [done|].
    simpl. by rewrite loop_used.
  - change (repeat 0 (S (S k)) ++ r) with (0 :: repeat 0 (S k) ++ r). cbn [insert6_loop].
    rewrite Z.eqb_refl. apply IH.
Qed.

Lemma loop_first g gs : g <> 0 ->
  insert6_loop true 0 false (g :: gs)
  = let '(t, u) := insert6_loop false g false gs in (decimal g ++ t, u).
Proof.
  intros Hg. cbn [insert6_loop]. destruct (Z.eqb_spec g 0); [done|]. simpl.
  by destruct (insert6_loop false g false gs).
Qed.

Lemma last_nonzero l d : d <> 0 -> 0 ∉ l -> List.last l d <> 0.
Proof.
  intros Hd. induction l as [|g l IH]; [done|]. intros [Hg Hl]%not_elem_of_cons.
  destruct l; [by simpl|]. by apply IH.
Qed.

Lemma last_zeros (l : list Z) k d : List.last (l ++ repeat 0 (S k)) d = 0.
Proof.
  assert (repeat 0 (S k) = repeat 0 k ++ [0]) as ->; [|by rewrite app_assoc, last_last].
  by rewrite <- repeat_cons.
Qed.

Lemma groups_plain gs : gs <> [] -> 0 ∉ gs -> groups_text gs = join gs.
Proof.
  intros Hne H0. destruct gs as [|g gs]; [done|]. pose proof H0 as [Hg Hgs]%not_elem_of_cons.
  unfold groups_text. rewrite loop_first by done. rewrite <- (app_nil_r gs) at 1.
  rewrite loop_nonzero by done. cbn [insert6_loop]. cbv beta iota.
  rewrite app_nil_r, <- join_colons.
  assert (List.last (g :: gs) 0 =? 0 = false) as ->; [|rewrite andb_false_r; cbv iota; by rewrite app_nil_r].
  apply Z.eqb_neq. rewrite last_cons_default. by apply last_nonzero.
Qed.

Lemma groups_gap l k r : 0 ∉ l -> head r <> Some 0 ->
  groups_text (l ++ repeat 0 (S k) ++ r) = join l ++ [58; 58] ++ join r.
Proof.
  intros Hl Hr. unfold groups_text.
  assert (insert6_loop true 0 false (l ++ repeat 0 (S k) ++ r)
    = (join l ++ match r with [] => [] | _ => [58; 58] ++ join r end,
       match r with [] => false | _ => true end)) as ->.
  { destruct l as [|g l].
    - rewrite app_nil_l, loop_zeros by done. destruct r; [done|]. by rewrite join_colons.
    - apply not_elem_of_cons in Hl as [Hg Hl].
      rewrite <- app_comm_cons, loop_first, loop_nonzero, loop_zeros by done.
      rewrite join_colons. destruct r; cbv beta iota; rewrite ?join_colons, <- !app_assoc; done. }
  destruct r as [|g r]; cbn [negb andb].
  - rewrite !app_nil_r, last_zeros. done.
  - by rewrite app_nil_r.
Qed.

Lemma groups_split gs : 0 ∉ gs \/ exists l k r, gs = l ++ repeat 0 (S k) ++ r /\ 0 ∉ l /\ head r <> Some 0.
Proof.
  induction gs as [|g gs IH]; [left; by apply not_elem_of_nil|].
  destruct (decide (g = 0)) as [->|Hg].
  - right. destruct IH as [H0|(l & k & r & -> & Hl & Hr)].
    + exists [], 0%nat, gs. split; [done|]. split; [by apply not_elem_of_nil|].
      destruct gs as [|h gs]; [done|]. intros [= ->]. apply H0. left.
    + destruct l as [|h l].
      * by exists [], (S k), r.
      * exists [], 0%nat, ((h :: l) ++ repeat 0 (S k) ++ r). split; [done|].
        split; [by apply not_elem_of_nil|]. intros [= ->]. apply Hl. left.
  - destruct IH as [H0|(l & k & r & -> & Hl & Hr)].
    + left. by apply not_elem_of_cons.
    + right. exists (g :: l), k, r. split; [done|]. split; [by apply not_elem_of_cons|done].
Qed.

(** The text of an address. An IPv4 address is its four bytes and its port in decimal. An IPv6
    address is its eight groups between brackets, separated by colons, the first run of zero
    groups replaced by two colons, wherever it is and however short; the groups are
    decimal numbers, where the notation asks for hexadecimal ones. *)
Theorem address_text `{Host} :
  (forall address port, in_u 32 address -> in_u 16 port ->
     exists b3 b2 b1 b0, address = b3 * 2 ^ 24 + b2 * 2 ^ 16 + b1 * 2 ^ 8 + b0
       /\ Forall is_byte [b3; b2; b1; b0]
       /\ toString (new_IPv4Address address port)
          = inr (decimal b3 ++ [46] ++ decimal b2 ++ [46] ++ decimal b1 ++ [46] ++ decimal b0
                 ++ [58] ++ decimal port))
  /\ forall m, exists text,
       toString (IPv6Address m)
       = inr ([91] ++ text ++ [93; 58] ++ decimal (byteswapOnLittleEndian uint16_t (sin6_port m)))
       /\ let gs := map (group (s6_addr m)) (seq 0 8) in
          (0 ∉ gs /\ text = join gs)
          \/ exists l k r, gs = l ++ repeat 0 (S k) ++ r /\ 0 ∉ l /\ head r <> Some 0
               /\ text = join l ++ [58; 58] ++ join r.
Proof.
  split.
  - intros a port Ha Hp.
    assert (in_ity uint32_t a) as Hia by exact Ha. assert (in_ity uint16_t port) as Hip by exact Hp.
    unfold in_u in Ha, Hp.
    exists (a / 2 ^ 24), (a / 2 ^ 16 mod 256), (a / 2 ^ 8 mod 256), (a mod 256).
    assert (forall k, 0 <= k -> Z.land (Z.shiftr a k) 255 = a / 2 ^ k mod 256) as Hb.
    { intros k Hk. rewrite Z.shiftr_div_pow2 by done. by apply (land_ones_mod _ 8). }
    assert (a / 2 ^ 24 mod 256 = a / 2 ^ 24) as H24
      by (apply Z.mod_small; split; [apply Z.div_pos; lia|apply Z.div_lt_upper_bound; lia]).
    assert (a / 2 ^ 16 = a / 2 ^ 8 / 256) as E16 by (by rewrite Z.div_div).
    assert (a / 2 ^ 24 = a / 2 ^ 16 / 256) as E24 by (by rewrite Z.div_div).
    split; [|split].
    + pose proof (Z.div_mod a 256). pose proof (Z.div_mod (a / 2 ^ 8) 256).
      pose proof (Z.div_mod (a / 2 ^ 16) 256). change (a / 256) with (a / 2 ^ 8) in *. lia.
    + repeat constructor; try (apply Z.mod_pos_bound; lia).
      * apply Z.div_pos; lia.
      * apply Z.div_lt_upper_bound; lia.
    + simpl. unfold insert4; cbn [s_addr sin_port]. rewrite (order_involutive uint32_t a ltac:(simpl; lia) Hia), (order_involutive uint16_t port ltac:(simpl; lia) Hip).
      rewrite !Hb by done. assert (Z.land a 255 = a mod 256) as -> by exact (land_ones_mod a 8 ltac:(done)). by rewrite H24.
  - intros m. exists (groups_text (map (group (s6_addr m)) (seq 0 8))). split; [done|]. cbv zeta.
    destruct (groups_split (map (group (s6_addr m)) (seq 0 8))) as [H0|(l & k & r & E & Hl & Hr)].
    + left. split; [done|]. by apply groups_plain.
    + right. exists l, k, r. repeat (split; [done|]). rewrite E. by apply groups_gap.
Qed.

Lemma address_text_witness :
  exists b3 b2 b1 b0, 3232235777 = b3 * 2 ^ 24 + b2 * 2 ^ 16 + b1 * 2 ^ 8 + b0
    /\ toString (H := x86_64) (new_IPv4Address (H := x86_64) 3232235777 80)
       = inr (decimal b3 ++ [46] ++ decimal b2 ++ [46] ++ decimal b1 ++ [46] ++ decimal b0
              ++ [58] ++ decimal 80).
Proof.
  destruct (proj1 (address_text (H := x86_64)) 3232235777 80) as (b3 & b2 & b1 & b0 & E & _ & T).
  - split; [discriminate|reflexivity].
  - split; [discriminate|reflexivity].
  - exists b3, b2, b1, b0. split; [exact E|exact T].
Defined.

(** ** Hosts *)

Lemma memchr_none c s : c ∉ s -> memchr c s = None.
Proof.
  induction s as [|b s IH]; [done|]. intros [Hb Hs]%not_elem_of_cons. simpl.
  destruct (Z.eqb_spec b c); [done|]. by rewrite IH.
Qed.

Lemma memchr_first c s t : c ∉ s -> memchr c (s ++ c :: t) = Some (length s).
Proof.
  induction s as [|b s IH]; [simpl; by rewrite Z.eqb_refl|]. intros [Hb Hs]%not_elem_of_cons. simpl.
  destruct (Z.eqb_spec b c); [done|]. by rewrite IH.
Qed.

Lemma memchr_some c s : c ∈ s -> is_Some (memchr c s).
Proof.
  induction s as [|b s IH]; [by intros ?%elem_of_nil|]. intros [<-|Hs]%elem_of_cons; simpl.
  - rewrite Z.eqb_refl. by eexists.
  - destruct (b =? c); [by eexists|]. destruct (IH Hs) as [k ->]. by eexists.
Qed.

(** Without a bracket, the node is what is before the only colon. *)
Lemma node_service_plain host : head host <> Some 91 ->
  node_service host
  = match memchr 58 host with
    | None => (host, None)
    | Some k =>
        match memchr 58 (drop (S k) host) with
        | None => (match take k host with [] => host | _ => take k host end, Some (text_at host (S k)))
        | Some _ => (host, Some (text_at host k))
        end
    end.
Proof.
  intros Hh. unfold node_service.
  assert (forall (A : Type) (x : A) (f : list Z -> A),
    match host with 91 :: rest => f rest | _ => x end = x) as E.
  { intros A x f. destruct host as [|b t]; [done|].
    destruct b as [|p|p]; try done. do 7 (destruct p as [p|p|]; try done). }
  rewrite E. destruct (memchr 58 host) as [k|]; [|done].
  by destruct (memchr 58 (drop (S k) host)).
Qed.

(** How [Lookup] splits a host. A name is the node, without a service; a name and a service
    are separated by a colon; an IPv6 address in brackets is the node, with the service
    after the bracket's colon, if there is one. But an IPv6 address without brackets, with two
    colons or more, is the node with its own text from the first colon on as the service, which is
    given to the resolver. *)
Theorem node_service_spec name v6 svc :
  (head name <> Some 91 -> 58 ∉ name -> node_service name = (name, None))
  /\ (name <> [] -> head name <> Some 91 -> 58 ∉ name -> 58 ∉ svc -> 0 ∉ svc ->
      node_service (name ++ 58 :: svc) = (name, Some svc))
  /\ (v6 <> [] -> 93 ∉ v6 -> 0 ∉ svc ->
      node_service (91 :: v6 ++ 93 :: 58 :: svc) = (v6, Some svc)
      /\ node_service (91 :: v6 ++ [93]) = (v6, None))
  /\ (head (name ++ [58]) <> Some 91 -> 58 ∉ name -> 58 ∈ svc -> 0 ∉ svc ->
      node_service (name ++ 58 :: svc) = (name ++ 58 :: svc, Some (58 :: svc))).
Proof.
  assert (forall t, 0 ∉ t -> c_str t = t) as Hc.
  { induction t as [|b t IH]; [done|]. intros [Hb Ht]%not_elem_of_cons. simpl.
    destruct (Z.eqb_spec b 0); [done|]. by rewrite IH. }
  split; [|split; [|split]].
  - intros Hh H58. rewrite node_service_plain by done. by rewrite memchr_none.
  - intros Hne Hh H58 Hs H0. rewrite node_service_plain by (by destruct name).
    rewrite memchr_first by done. unfold text_at.
    assert (drop (S (length name)) (name ++ 58 :: svc) = svc) as ->.
    { change (58 :: svc) with ([58] ++ svc). rewrite app_assoc. apply drop_app_length'.
      rewrite length_app. simpl. lia. }
    rewrite memchr_none, Hc, take_app_length by done. by destruct name.
  - intros Hne H93 H0. unfold node_service. rewrite !memchr_first, !take_app_length by done.
    assert (forall x t, nth (S (length v6)) (v6 ++ 93 :: x :: t) 0 = x) as Hn.
    { intros x t. rewrite app_nth2 by lia. by replace (S (length v6) - length v6)%nat with 1%nat by lia. }
    rewrite Hn. unfold text_at.
    assert (drop (S (S (length v6))) (v6 ++ 93 :: 58 :: svc) = svc) as ->.
    { change (93 :: 58 :: svc) with ([93; 58] ++ svc). rewrite app_assoc. apply drop_app_length'.
      rewrite length_app. simpl. lia. }
    assert (nth (S (length v6)) (v6 ++ [93]) 0 = 0) as ->
      by (apply nth_overflow; rewrite length_app; simpl; lia).
    rewrite Hc by done. by destruct v6.
  - intros Hh H58 Hs H0. rewrite node_service_plain by (by destruct name).
    rewrite memchr_first by done.
    assert (drop (S (length name)) (name ++ 58 :: svc) = svc) as ->.
    { change (58 :: svc) with ([58] ++ svc). rewrite app_assoc. apply drop_app_length'.
      rewrite length_app. simpl. lia. }
    destruct (memchr_some 58 svc Hs) as [k ->]. unfold text_at. rewrite drop_app_length. simpl.
    by rewrite Hc.
Qed.

Lemma node_service_spec_witness :
  node_service (str "www.sylar.top:80") = (str "www.sylar.top", Some (str "80"))
  /\ node_service (str "::1") = (str "::1", Some (str "::1")).
Proof.
  split.
  - apply (proj1 (proj2 (node_service_spec (str "www.sylar.top") [] (str "80"))));
      [discriminate|discriminate|apply (bool_decide_unpack _); exact I..].
  - apply (proj2 (proj2 (proj2 (node_service_spec [] [] (str ":1")))));
      [discriminate|apply (bool_decide_unpack _); exact I..].
Defined.
