(* ===== verification/Socket.v ===== *)
(** * Socket: [sylar/socket.h] and [sylar/socket.cpp]

    A [Socket] is a descriptor with what the object remembers of it. The system calls it makes are
    the hooked ones, as the fiber that makes them sees them: they return when the fiber goes on. They
    are the class [SocketCalls] over the rest of the world [K]; the descriptors'
    contexts are those of [FdManager]. *)

From S2P Require Import Prelude Std Endian Address.
From S2P Require FdManager.

(** [SOCK_STREAM], [SOCK_DGRAM] and the options used. *)
Definition SOCK_STREAM : Z := 1.
Definition SOCK_DGRAM : Z := 2.
Definition SOL_SOCKET : Z := 1.
Definition SO_REUSEADDR : Z := 2.
Definition SO_ERROR : Z := 4.
Definition SO_RCVTIMEO : Z := FdManager.SO_RCVTIMEO.
Definition SO_SNDTIMEO : Z := FdManager.SO_SNDTIMEO.
Definition IPPROTO_TCP : Z := 6.
Definition TCP_NODELAY : Z := 1.

(* SRC sylar/socket.h:17-20 Socket::Type *)
Definition TCP : Z := SOCK_STREAM.
Definition UDP : Z := SOCK_DGRAM.

(* SRC sylar/socket.h:112-119 Socket *)
Record Socket := mkSocket {
  m_sock : Z;
  m_family : Z;
  m_type : Z;
  m_protocol : Z;
  m_isConnected : bool;
  m_localAddress : option Address;
  m_remoteAddress : option Address
}.

Definition set_sock v s := mkSocket v (m_family s) (m_type s) (m_protocol s) (m_isConnected s) (m_localAddress s) (m_remoteAddress s).
Definition set_connected v s := mkSocket (m_sock s) (m_family s) (m_type s) (m_protocol s) v (m_localAddress s) (m_remoteAddress s).
Definition set_local v s := mkSocket (m_sock s) (m_family s) (m_type s) (m_protocol s) (m_isConnected s) v (m_remoteAddress s).
Definition set_remote v s := mkSocket (m_sock s) (m_family s) (m_type s) (m_protocol s) (m_isConnected s) (m_localAddress s) v.

(** The calls, with the descriptor first. A call gives its [int]; reads give the bytes they
    store as well, in the buffers one behind the other, and an address call what it writes to the
    address and its length. A message is its buffers. *)
Class SocketCalls (K : Type) := {
  sys_socket : Z -> Z -> Z -> K -> Z * K;
  sys_bind : Z -> list Z -> Z -> K -> Z * K;
  sys_connect : Z -> list Z -> Z -> K -> Z * K;
  sys_connect_with_timeout : Z -> list Z -> Z -> Z -> K -> Z * K;
  sys_listen : Z -> Z -> K -> Z * K;
  sys_accept : Z -> K -> Z * K;
  sys_close : Z -> K -> Z * K;
  sys_send : Z -> list Z -> Z -> K -> Z * K;
  sys_sendmsg : Z -> list (list Z) -> option (list Z * Z) -> Z -> K -> Z * K;
  sys_sendto : Z -> list Z -> Z -> list Z -> Z -> K -> Z * K;
  sys_recv : Z -> Z -> Z -> K -> (Z * list Z) * K;
  sys_recvmsg : Z -> list Z -> option Z -> Z -> K -> (Z * list Z * list Z) * K;
  sys_recvfrom : Z -> Z -> Z -> Z -> K -> (Z * list Z * list Z) * K;
  sys_getpeername : Z -> Z -> K -> option (list Z * Z);
  sys_getsockname : Z -> Z -> K -> option (list Z * Z);
  sys_getsockopt : Z -> Z -> Z -> Z -> K -> (Z * list Z * Z) * K;
  sys_setsockopt : Z -> Z -> Z -> list Z -> K -> Z * K;
  fd_ctx : Z -> K -> option FdManager.FdCtx;
  cancel_event : Z -> Z -> K -> bool * K;
  cancel_all : Z -> K -> bool * K
}.

(** [EPOLLIN] and [EPOLLOUT]: the events of the [IOManager]. *)
Definition READ : Z := 1.
Definition WRITE : Z := 4.

Section Socket.
Context `{Host} {K : Type} `{SocketCalls K}.

Notation MS := (M (Socket * K)).

Definition sys {A} (f : K -> A * K) : MS A := fun s => let '(a, k) := f s.2 in Ret a (s.1, k).
Definition this {A} (f : Socket -> A) : MS A := gets (fun s => f s.1).
Definition upd_this (f : Socket -> Socket) : MS unit := modify (fun s => (f s.1, s.2)).

(* SRC sylar/socket.cpp:13-19 Socket::Socket *)
Definition new_Socket (family type protocol : Z) : Socket :=
  mkSocket (-1) family type protocol false None None.

(* SRC sylar/socket.cpp:25-28 Socket::CreateTCP *)
Definition CreateTCP (address : Address) : Socket := new_Socket (getFamily address) TCP 0.
(* SRC sylar/socket.cpp:30-33 Socket::CreateUDP *)
Definition CreateUDP (address : Address) : Socket := new_Socket (getFamily address) UDP 0.
(* SRC sylar/socket.cpp:35-38 Socket::CreateTCPSocket *)
Definition CreateTCPSocket : Socket := new_Socket AF_INET TCP 0.
(* SRC sylar/socket.cpp:40-43 Socket::CreateUDPSocket *)
Definition CreateUDPSocket : Socket := new_Socket AF_INET UDP 0.
(* SRC sylar/socket.cpp:45-48 Socket::CreateTCPSocket6 *)
Definition CreateTCPSocket6 : Socket := new_Socket AF_INET6 TCP 0.
(* SRC sylar/socket.cpp:50-53 Socket::CreateUDPSocket6 *)
Definition CreateUDPSocket6 : Socket := new_Socket AF_INET6 UDP 0.
(* SRC sylar/socket.cpp:55-58 Socket::CreateUnixTCPSocket *)
Definition CreateUnixTCPSocket : Socket := new_Socket AF_UNIX TCP 0.
(* SRC sylar/socket.cpp:60-63 Socket::CreateUnixUDPSocket *)
Definition CreateUnixUDPSocket : Socket := new_Socket AF_UNIX UDP 0.

(* SRC sylar/socket.cpp:373-375 Socket::isValid *)
Definition isValid (s : Socket) : bool := negb (m_sock s =? -1).

(** ** Options *)

(* SRC sylar/socket.cpp:95-104 Socket::getOption *)
Definition getOption (level option len : Z) : MS (bool * list Z) :=
  let! fd := this m_sock in
  let! (rt, result, _) := sys (sys_getsockopt fd level option len) in
  ret (rt =? 0, result).

(* SRC sylar/socket.cpp:106-115 Socket::setOption *)
Definition setOption (level option : Z) (result : list Z) : MS bool :=
  let! fd := this m_sock in
  let! rt := sys (sys_setsockopt fd level option result) in
  ret (rt =? 0).

(** The template [setOption<int>]: the memory of the value. *)
(* SRC sylar/socket.h:57-59 Socket::setOption *)
Definition setOption_int (level option value : Z) : MS bool := setOption level option (mem_of 4 value).

(** [setOption(..., &tv)] has three arguments, so it is the template, for the pointer: what is
    passed on is the memory of a pointer to [tv], which is at the address [tv_addr]. *)
(* SRC sylar/socket.h:57-59 Socket::setOption *)
Definition setOption_ptr (level option tv_addr : Z) : MS bool := setOption level option (mem_of 8 tv_addr).

(* SRC sylar/socket.cpp:65-71 Socket::getSendTimeout *)
Definition getSendTimeout : MS Z :=
  let! fd := this m_sock in
  let! k := gets snd in
  match fd_ctx fd k with
  | Some ctx => ret (s64 (FdManager.getTimeout SO_SNDTIMEO ctx))
  | None => ret (-1)
  end.

(** The fields of [tv] are computed and not looked at. *)
(* SRC sylar/socket.cpp:73-78 Socket::setSendTimeout *)
Definition setSendTimeout (tv_addr v : Z) : MS unit :=
  setOption_ptr SOL_SOCKET SO_SNDTIMEO tv_addr ;; ret tt.

(* SRC sylar/socket.cpp:80-86 Socket::getRecvTimeout *)
Definition getRecvTimeout : MS Z :=
  let! fd := this m_sock in
  let! k := gets snd in
  match fd_ctx fd k with
  | Some ctx => ret (s64 (FdManager.getTimeout SO_RCVTIMEO ctx))
  | None => ret (-1)
  end.

(* SRC sylar/socket.cpp:88-93 Socket::setRecvTimeout *)
Definition setRecvTimeout (tv_addr v : Z) : MS unit :=
  setOption_ptr SOL_SOCKET SO_RCVTIMEO tv_addr ;; ret tt.

(* SRC sylar/socket.cpp:377-384 Socket::getError *)
Definition getError : MS Z :=
  let! (ok, result) := getOption SOL_SOCKET SO_ERROR 4 in
  if (ok : bool) then ret (s32 (mem_value result)) else ret (-1).

(** ** Addresses *)

(** The object the address calls fill, by the family. *)
(* SRC sylar/socket.cpp:310-324 Socket::getRemoteAddress *)
Definition empty_address (family : Z) : Address :=
  if family =? AF_INET then new_IPv4Address 0 0
  else if family =? AF_INET6 then new_IPv6Address
  else if family =? AF_UNIX then new_UnixAddress
  else new_UnKnowAddress family.

(** The memory [bytes] written to the address. *)
Definition fill (a : Address) (bytes : list Z) : Address :=
  let m := splice (getAddr a) 0 bytes in
  match a with
  | IPv4Address _ => IPv4Address (in_of m)
  | IPv6Address _ => IPv6Address (in6_of m)
  | UnixAddress _ l => UnixAddress (mkUn (mem_value (slice m 0 2)) (drop 2 m)) l
  | UnKnowAddress _ => UnKnowAddress (sockaddr_of m)
  end.

(** What [getpeername] or [getsockname] gives. *)
Definition name_of (call : Z -> Z -> K -> option (list Z * Z)) : MS (option Address) :=
  let! fd := this m_sock in
  let! family := this m_family in
  let! k := gets snd in
  let a := empty_address family in
  match call fd (getAddrLen a) k with
  | None => ret None
  | Some (bytes, addrlen) =>
      let a := fill a bytes in
      ret (Some (if family =? AF_UNIX then setAddrLen addrlen a else a))
  end.

(* SRC sylar/socket.cpp:305-337 Socket::getRemoteAddress *)
Definition getRemoteAddress : MS Address :=
  let! known := this m_remoteAddress in
  match known with
  | Some a => ret a
  | None =>
      let! r := name_of sys_getpeername in
      match r with
      | None => let! family := this m_family in ret (new_UnKnowAddress family)
      | Some a => upd_this (set_remote (Some a)) ;; ret a
      end
  end.

(* SRC sylar/socket.cpp:339-371 Socket::getLocalAddress *)
Definition getLocalAddress : MS Address :=
  let! known := this m_localAddress in
  match known with
  | Some a => ret a
  | None =>
      let! r := name_of sys_getsockname in
      match r with
      | None => let! family := this m_family in ret (new_UnKnowAddress family)
      | Some a => upd_this (set_local (Some a)) ;; ret a
      end
  end.

(** ** Life of the descriptor *)

(* SRC sylar/socket.cpp:428-434 Socket::initSock *)
Definition initSock : MS unit :=
  setOption_int SOL_SOCKET SO_REUSEADDR 1 ;;
  let! type := this m_type in
  if type =? SOCK_STREAM then setOption_int IPPROTO_TCP TCP_NODELAY 1 ;; ret tt else ret tt.

(* SRC sylar/socket.cpp:436-445 Socket::newSock *)
Definition newSock : MS unit :=
  let! s := this id in
  let! fd := sys (sys_socket (m_family s) (m_type s) (m_protocol s)) in
  upd_this (set_sock fd) ;;
  if negb (fd =? -1) then initSock else ret tt.

(* SRC sylar/socket.cpp:131-142 Socket::init *)
Definition init (sock : Z) : MS bool :=
  let! k := gets snd in
  match fd_ctx sock k with
  | Some ctx =>
      if FdManager.m_isSocket ctx && negb (FdManager.m_isClosed ctx) then
        upd_this (set_sock sock) ;;
        upd_this (set_connected true) ;;
        initSock ;; getLocalAddress ;; getRemoteAddress ;; ret true
      else ret false
  | None => ret false
  end.

(** The new object, whose destructor has no descriptor to close when [init] fails. *)
(* SRC sylar/socket.cpp:117-129 Socket::accept *)
Definition accept : MS (option Socket) := fun s =>
  let sock := new_Socket (m_family s.1) (m_type s.1) (m_protocol s.1) in
  let '(newsock, k) := sys_accept (m_sock s.1) s.2 in
  if newsock =? -1 then Ret None (s.1, k)
  else match init newsock (sock, k) with
       | Ret true (sock, k) => Ret (Some sock) (s.1, k)
       | Ret false (sock, k) => Ret None (s.1, k)
       | Exn e (sock, k) => Exn e (s.1, k)
       | UB f => UB f
       end.

(** The first lines of [bind] and [connect]. *)
(* SRC sylar/socket.cpp:145-150 Socket::bind *)
Definition ensure_valid : MS bool :=
  let! ok := this isValid in
  if ok then ret true else newSock ;; this isValid.

(* SRC sylar/socket.cpp:144-166 Socket::bind *)
Definition bind_to (addr : Address) : MS bool :=
  let! ok := ensure_valid in
  if negb ok then ret false
  else
    let! s := this id in
    if negb (getFamily addr =? m_family s) then ret false
    else
      let! rt := sys (sys_bind (m_sock s) (getAddr addr) (getAddrLen addr)) in
      if negb (rt =? 0) then ret false else getLocalAddress ;; ret true.

(** [false] in any case in which there was something to close. *)
(* SRC sylar/socket.cpp:217-226 Socket::close *)
Definition close : MS bool :=
  let! s := this id in
  if negb (m_isConnected s) && (m_sock s =? -1) then ret true
  else
    upd_this (set_connected false) ;;
    (if negb (m_sock s =? -1) then sys (sys_close (m_sock s)) ;; ret tt else ret tt) ;;
    ret false.

(* SRC sylar/socket.cpp:21-23 Socket::~Socket *)
Definition delete_Socket : MS unit := close ;; ret tt.

(* SRC sylar/socket.cpp:168-201 Socket::connect *)
Definition connect (addr : Address) (timeout_ms : Z) : MS bool :=
  let! ok := ensure_valid in
  if negb ok then ret false
  else
    let! s := this id in
    if negb (getFamily addr =? m_family s) then ret false
    else
      let! connected :=
        (if timeout_ms =? u64 (-1) then
           let! rt := sys (sys_connect (m_sock s) (getAddr addr) (getAddrLen addr)) in
           if rt =? 0 then ret true else close ;; ret false
         else
           let! rt := sys (sys_connect_with_timeout (m_sock s) (getAddr addr) (getAddrLen addr) timeout_ms) in
           ret (rt =? 0)) in
      if (connected : bool) then
        upd_this (set_connected true) ;; getRemoteAddress ;; getLocalAddress ;; ret true
      else ret false.

(* SRC sylar/socket.cpp:203-215 Socket::listen *)
Definition listen (backlog : Z) : MS bool :=
  let! s := this id in
  if negb (isValid s) then ret false
  else let! rt := sys (sys_listen (m_sock s) backlog) in ret (rt =? 0).

(** ** Transfer *)

(** A call on the descriptor of a connected socket. *)
Definition if_connected {A} (otherwise : A) (f : Z -> K -> A * K) : MS A :=
  let! s := this id in
  if m_isConnected s then sys (f (m_sock s)) else ret otherwise.

(* SRC sylar/socket.cpp:228-233 Socket::send *)
Definition send (buffer : list Z) (flags : Z) : MS Z :=
  if_connected (-1) (fun fd => sys_send fd buffer flags).
(* SRC sylar/socket.cpp:235-244 Socket::send *)
Definition send_iov (buffers : list (list Z)) (flags : Z) : MS Z :=
  if_connected (-1) (fun fd => sys_sendmsg fd buffers None flags).
(* SRC sylar/socket.cpp:246-251 Socket::sendTo *)
Definition sendTo (buffer : list Z) (to : Address) (flags : Z) : MS Z :=
  if_connected (-1) (fun fd => sys_sendto fd buffer flags (getAddr to) (getAddrLen to)).
(* SRC sylar/socket.cpp:253-264 Socket::sendTo *)
Definition sendTo_iov (buffers : list (list Z)) (to : Address) (flags : Z) : MS Z :=
  if_connected (-1) (fun fd => sys_sendmsg fd buffers (Some (getAddr to, getAddrLen to)) flags).

(** What is stored goes with the result. *)
(* SRC sylar/socket.cpp:266-271 Socket::recv *)
Definition recv (length flags : Z) : MS (Z * list Z) :=
  if_connected (-1, []) (fun fd => sys_recv fd length flags).
(* SRC sylar/socket.cpp:273-282 Socket::recv *)
Definition recv_iov (lengths : list Z) (flags : Z) : MS (Z * list Z) :=
  let! (r, _) := if_connected (-1, [], []) (fun fd => sys_recvmsg fd lengths None flags) in ret r.
(** The address is filled; its length is that of a local variable. *)
(* SRC sylar/socket.cpp:284-290 Socket::recvFrom *)
Definition recvFrom (length : Z) (from : Address) (flags : Z) : MS (Z * list Z * Address) :=
  let! (r, name) := if_connected (-1, [], []) (fun fd => sys_recvfrom fd length flags (getAddrLen from)) in
  ret (r, fill from name).
(* SRC sylar/socket.cpp:292-303 Socket::recvFrom *)
Definition recvFrom_iov (lengths : list Z) (from : Address) (flags : Z) : MS (Z * list Z * Address) :=
  let! (r, name) := if_connected (-1, [], []) (fun fd => sys_recvmsg fd lengths (Some (getAddrLen from)) flags) in
  ret (r, fill from name).

(** ** Text and events *)

(* SRC sylar/socket.cpp:386-400 Socket::dump *)
Definition dump (s : Socket) : fault + list Z :=
  let number z := if z <? 0 then 45 :: decimal (- z) else decimal z in
  let address (label : list Z) (a : option Address) :=
    match a with
    | None => inr []
    | Some a => match toString a with inl f => inl f | inr t => inr (label ++ t) end
    end in
  match address (str " local_address=") (m_localAddress s), address (str " remote_address=") (m_remoteAddress s) with
  | inl f, _ | _, inl f => inl f
  | inr l, inr r => inr (
      str "[Socket sock=" ++ number (m_sock s) ++ str " is_connected=" ++ number (if m_isConnected s then 1 else 0)
      ++ str " family=" ++ number (m_family s) ++ str " type=" ++ number (m_type s)
      ++ str " protocol=" ++ number (m_protocol s) ++ l ++ r ++ str "]")
  end.

(* SRC sylar/socket.cpp:412-414 Socket::cancelRead *)
Definition cancelRead : MS bool := let! fd := this m_sock in sys (cancel_event fd READ).
(* SRC sylar/socket.cpp:416-418 Socket::cancelWrite *)
Definition cancelWrite : MS bool := let! fd := this m_sock in sys (cancel_event fd WRITE).
(* SRC sylar/socket.cpp:420-422 Socket::cancelAccept *)
Definition cancelAccept : MS bool := let! fd := this m_sock in sys (cancel_event fd READ).
(* SRC sylar/socket.cpp:424-426 Socket::cancelAll *)
Definition cancelAll : MS bool := let! fd := this m_sock in sys (cancel_all fd).
End Socket.
