(* ===== verification/SocketSpec.v ===== *)
(** * SocketSpec: what a [Socket] remembers of its descriptor

    [socket_ops_ok]: over any run of operations a connected socket has a descriptor, and a
    socket gets a second one only from [init]. [close_leaves_descriptor]: closing does not forget the
    descriptor, which is closed again when the object goes. [timeout_option_memory]: what the timeout
    setters hand to [setsockopt]. [accept_init]: the sockets [accept] gives. *)

From S2P Require Import Prelude Std Endian Address Socket.
From S2P Require FdManager.

Lemma keeps_elim {S A} (R : S -> S -> Prop) (m : M S A) s a s' : m s = Ret a s' -> keeps R m -> R s s'.
Proof. intros E Hk. by apply (Hk _ _ _ E). Qed.

Section SocketSpec.
Context `{Host} {K : Type} `{SocketCalls K}.

Notation MS := (M (Socket * K)).

(** ** What every operation keeps *)

(** The kind of the socket, its descriptor once it has one, and that a connected socket has one. *)
Definition later (s s' : Socket * K) : Prop :=
  m_family s'.1 = m_family s.1 /\ m_type s'.1 = m_type s.1 /\ m_protocol s'.1 = m_protocol s.1
  /\ (isValid s.1 = true -> m_sock s'.1 = m_sock s.1)
  /\ ((m_isConnected s.1 = true -> isValid s.1 = true) -> m_isConnected s'.1 = true -> isValid s'.1 = true).

#[export] Instance later_preorder : PreOrder later.
Proof.
  split; [by intros s; repeat split; auto|].
  intros s1 s2 s3 (? & ? & ? & A1 & B1) (? & ? & ? & A2 & B2). repeat split; try congruence; [|auto].
  intros V. assert (isValid s2.1 = true). { unfold isValid. by rewrite (A1 V). }
  by rewrite A2, A1.
Qed.

Lemma later_sys {A} (f : K -> A * K) : keeps later (sys f).
Proof.
  intros [s k] a s' E. unfold sys in E. cbn in E. destruct (f k). injection E as _ <-. by repeat split; auto.
Qed.

Lemma later_this {A} (f : Socket -> A) : keeps later (this f).
Proof. apply keeps_gets. typeclasses eauto. Qed.

Lemma later_upd (f : Socket -> Socket) :
  (forall s, m_family (f s) = m_family s /\ m_type (f s) = m_type s /\ m_protocol (f s) = m_protocol s
     /\ m_sock (f s) = m_sock s /\ (m_isConnected (f s) = true -> m_isConnected s = true)) ->
  keeps later (upd_this f).
Proof.
  intros Hf. apply keeps_modify. intros [s k]. destruct (Hf s) as (? & ? & ? & Hs & Hc).
  unfold later, isValid. cbn. rewrite Hs. repeat split; auto.
Qed.
End SocketSpec.

#[export] Hint Resolve later_sys later_this : keeps.
#[export] Hint Extern 1 (keeps later (upd_this _)) => apply later_upd; by repeat split : keeps.

Section Operations.
Context `{Host} {K : Type} `{SocketCalls K}.

Notation MS := (M (Socket * K)).
Notation later := (@later K).

Lemma later_setOption level option result : keeps later (setOption level option result).
Proof. unfold setOption. keep. Qed.
Lemma later_getOption level option len : keeps later (getOption level option len).
Proof. unfold getOption. keep. Qed.
#[local] Hint Resolve later_setOption later_getOption : keeps.

Lemma later_initSock : keeps later initSock.
Proof. unfold initSock, setOption_int. keep. Qed.

Lemma later_name_of call : keeps later (name_of call).
Proof. unfold name_of. keep. Qed.
#[local] Hint Resolve later_initSock later_name_of : keeps.

Lemma later_getRemoteAddress : keeps later getRemoteAddress.
Proof. unfold getRemoteAddress. keep. Qed.
Lemma later_getLocalAddress : keeps later getLocalAddress.
Proof. unfold getLocalAddress. keep. Qed.
Lemma later_close : keeps later close.
Proof. unfold close. keep. Qed.
Lemma later_if_connected {A} (x : A) f : keeps later (if_connected x f).
Proof. unfold if_connected. keep. Qed.
Lemma later_getError : keeps later getError.
Proof. unfold getError. keep. Qed.
#[local] Hint Resolve later_getRemoteAddress later_getLocalAddress later_close later_if_connected later_getError : keeps.

(** [newSock] is run without a descriptor only; then a new one is no second one. *)
Lemma newSock_later (s s1 : Socket * K) : isValid s.1 = false -> newSock s = Ret tt s1 -> later s s1.
Proof.
  intros V N. unfold newSock in N. apply bind_inv_Ret in N as (s0 & s2 & E0 & N). injection E0 as <- <-.
  apply bind_inv_Ret in N as (fd & s3 & E1 & N). unfold sys in E1.
  destruct (sys_socket _ _ _ _) as [fd' k]. injection E1 as -> <-.
  transitivity (set_sock fd s.1, k).
  - repeat split; cbn; rewrite ?V; try done. intros Hc Ht. by apply Hc in Ht.
  - unfold upd_this, modify in N. unfold bind at 1 in N. cbn [fst snd] in N.
    destruct (negb (fd =? -1)); [by apply (later_initSock _ _ _ N)|by injection N as <-].
Qed.

Lemma later_ensure_valid : keeps later ensure_valid.
Proof.
  intros s ok s' E. unfold ensure_valid in E. apply bind_inv_Ret in E as (v & s1 & V & E).
  injection V as <- <-. destruct (isValid s.1) eqn:V; [by injection E as <- <-|].
  apply bind_inv_Ret in E as ([] & s1 & N & E). injection E as <- <-. by apply newSock_later.
Qed.

Lemma ensure_valid_value (s : Socket * K) ok s' : ensure_valid s = Ret ok s' -> ok = isValid s'.1.
Proof.
  intros E. unfold ensure_valid in E. apply bind_inv_Ret in E as (v & s1 & V & E).
  injection V as <- <-. destruct (isValid s.1) eqn:V; [by injection E as <- <-|].
  apply bind_inv_Ret in E as ([] & s1 & N & E). by injection E as <- <-.
Qed.
#[local] Hint Resolve later_ensure_valid : keeps.

Lemma later_bind_to addr : keeps later (bind_to addr).
Proof. unfold bind_to. keep. Qed.

Lemma later_listen n : keeps later (listen n).
Proof. unfold listen. keep. Qed.

(** The step that makes a socket connected, where it has a descriptor. *)
Lemma later_connected (s : Socket * K) : isValid s.1 = true -> later s (set_connected true s.1, s.2).
Proof. intros V. by repeat split. Qed.

Lemma later_connect addr t : keeps later (connect addr t).
Proof.
  intros s ok s' E. unfold connect in E. apply bind_inv_Ret in E as (v & s1 & V & E).
  transitivity s1; [by apply (later_ensure_valid _ _ _ V)|]. apply ensure_valid_value in V.
  destruct v; cbn [negb] in E; [|by injection E as _ <-]. apply bind_inv_Ret in E as (s0 & s2 & E0 & E).
  injection E0 as <- <-. destruct (negb (getFamily addr =? m_family s1.1)); [by injection E as _ <-|].
  apply bind_inv_Ret in E as (c & s3 & C & E).
  assert (later s1 s3) as L by (eapply keeps_elim; [exact C|keep]).
  transitivity s3; [done|]. destruct c; [|by injection E as _ <-].
  destruct L as (_ & _ & _ & Hs & _). unfold isValid in Hs, V.
  assert (isValid s3.1 = true). { unfold isValid. rewrite Hs; by rewrite <- V. }
  transitivity (set_connected true s3.1, s3.2); [by apply later_connected|].
  eapply keeps_elim; [exact E|keep].
Qed.
End Operations.

(** ** What asking about a descriptor keeps *)

Section SameFd.
Context `{Host} {K : Type} `{SocketCalls K}.

(** The calls that ask about a descriptor change neither it nor the state. *)
Definition same_fd (s s' : Socket * K) : Prop :=
  m_sock s'.1 = m_sock s.1 /\ m_isConnected s'.1 = m_isConnected s.1.

#[local] Instance same_fd_preorder : PreOrder same_fd.
Proof. split; [by split|]. intros s1 s2 s3 [A B] [C D]. split; congruence. Qed.

Lemma same_fd_sys {A} (f : K -> A * K) : keeps same_fd (sys f).
Proof. intros [s k] a s' E. unfold sys in E. cbn in E. destruct (f k). by injection E as _ <-. Qed.

Lemma same_fd_upd (f : Socket -> Socket) :
  (forall s, m_sock (f s) = m_sock s /\ m_isConnected (f s) = m_isConnected s) -> keeps same_fd (upd_this f).
Proof. intros Hf. apply keeps_modify. intros [s k]. apply Hf. Qed.
#[local] Hint Resolve same_fd_sys : keeps.
#[local] Hint Extern 1 (keeps same_fd (this _)) => apply keeps_gets; typeclasses eauto : keeps.
#[local] Hint Extern 1 (keeps same_fd (upd_this _)) => apply same_fd_upd; by split : keeps.

Lemma same_fd_init : keeps same_fd (initSock ;; getLocalAddress ;; getRemoteAddress ;; ret true).
Proof. unfold initSock, setOption_int, setOption, getLocalAddress, getRemoteAddress, name_of. keep. Qed.

End SameFd.

(** ** Runs of operations *)

(** The public operations of the class but those that only read a field. *)
Inductive SocketOp :=
  | OpInit (sock : Z) | OpBind (addr : Address) | OpConnect (addr : Address) (timeout_ms : Z)
  | OpListen (backlog : Z) | OpAccept | OpClose
  | OpLocal | OpRemote | OpError
  | OpSend (buffer : list Z) (flags : Z) | OpSendIov (buffers : list (list Z)) (flags : Z)
  | OpSendTo (buffer : list Z) (to : Address) (flags : Z)
  | OpSendToIov (buffers : list (list Z)) (to : Address) (flags : Z)
  | OpRecv (length flags : Z) | OpRecvIov (lengths : list Z) (flags : Z)
  | OpRecvFrom (length : Z) (from : Address) (flags : Z)
  | OpRecvFromIov (lengths : list Z) (from : Address) (flags : Z)
  | OpGetOption (level option len : Z) | OpSetOption (level option : Z) (value : list Z)
  | OpGetSendTimeout | OpSetSendTimeout (tv_addr v : Z) | OpGetRecvTimeout | OpSetRecvTimeout (tv_addr v : Z)
  | OpCancelRead | OpCancelWrite | OpCancelAccept | OpCancelAll.

(** [init] is called with a descriptor. *)
Definition op_ok (o : SocketOp) : Prop := match o with OpInit sock => 0 <= sock | _ => True end.

Section Runs.
Context `{Host} {K : Type} `{SocketCalls K}.

Notation MS := (M (Socket * K)).

Definition run_op (o : SocketOp) : MS unit :=
  match o with
  | OpInit sock => init sock ;; ret tt
  | OpBind a => bind_to a ;; ret tt
  | OpConnect a t => connect a t ;; ret tt
  | OpListen n => listen n ;; ret tt
  | OpAccept => accept ;; ret tt
  | OpClose => close ;; ret tt
  | OpLocal => getLocalAddress ;; ret tt
  | OpRemote => getRemoteAddress ;; ret tt
  | OpError => getError ;; ret tt
  | OpSend b f => send b f ;; ret tt
  | OpSendIov b f => send_iov b f ;; ret tt
  | OpSendTo b a f => sendTo b a f ;; ret tt
  | OpSendToIov b a f => sendTo_iov b a f ;; ret tt
  | OpRecv l f => recv l f ;; ret tt
  | OpRecvIov l f => recv_iov l f ;; ret tt
  | OpRecvFrom l a f => recvFrom l a f ;; ret tt
  | OpRecvFromIov l a f => recvFrom_iov l a f ;; ret tt
  | OpGetOption l o n => getOption l o n ;; ret tt
  | OpSetOption l o v => setOption l o v ;; ret tt
  | OpGetSendTimeout => getSendTimeout ;; ret tt
  | OpSetSendTimeout a v => setSendTimeout a v
  | OpGetRecvTimeout => getRecvTimeout ;; ret tt
  | OpSetRecvTimeout a v => setRecvTimeout a v
  | OpCancelRead => cancelRead ;; ret tt
  | OpCancelWrite => cancelWrite ;; ret tt
  | OpCancelAccept => cancelAccept ;; ret tt
  | OpCancelAll => cancelAll ;; ret tt
  end.

Fixpoint run_ops (ops : list SocketOp) : MS unit :=
  match ops with
  | [] => ret tt
  | o :: ops => run_op o ;; run_ops ops
  end.

(** [accept] changes the listening socket in nothing. *)
Lemma accept_this (s : Socket * K) r s' : accept s = Ret r s' -> s'.1 = s.1.
Proof.
  unfold accept. destruct (sys_accept (m_sock s.1) s.2) as [fd k]. destruct (fd =? -1).
  - by intros [= _ <-].
  - destruct (init fd _) as [[] [n k']|e [n k']|f]; try done; by intros [= _ <-].
Qed.

Lemma later_accept : keeps later (accept : MS (option Socket)).
Proof.
  intros s r s' E. apply accept_this in E. unfold later, isValid. rewrite E. by repeat split; auto.
Qed.

(** Every operation but [init]. *)
Lemma later_run_op o : (forall sock, o <> OpInit sock) -> keeps later (run_op o : MS unit).
Proof.
  intros Ho. pose proof later_accept. pose proof (@later_bind_to). pose proof (@later_connect). pose proof (@later_listen).
  pose proof (@later_close). pose proof (@later_getLocalAddress). pose proof (@later_getRemoteAddress).
  pose proof (@later_getError). pose proof (@later_setOption). pose proof (@later_getOption).
  destruct o; unfold run_op; [by destruct (Ho sock)|..]; unfold send, send_iov, sendTo, sendTo_iov, recv, recv_iov, recvFrom, recvFrom_iov,
    getSendTimeout, setSendTimeout, getRecvTimeout, setRecvTimeout, setOption_ptr,
    cancelRead, cancelWrite, cancelAccept, cancelAll; keep; unfold if_connected; keep.
Qed.

(** [init] changes nothing, or makes the socket connected with the descriptor it is given. *)
Lemma init_sets sock (s : Socket * K) ok s' : init sock s = Ret ok s' ->
  s' = s \/ m_family s'.1 = m_family s.1 /\ m_type s'.1 = m_type s.1 /\ m_protocol s'.1 = m_protocol s.1
    /\ m_sock s'.1 = sock /\ m_isConnected s'.1 = true.
Proof.
  intros I. unfold init in I. apply bind_inv_Ret in I as (kk & s0 & G & I). injection G as <- <-.
  destruct (fd_ctx sock s.2) as [ctx|]; [|injection I as _ <-; by left].
  destruct (FdManager.m_isSocket ctx && _); [|injection I as _ <-; by left]. right.
  apply bind_inv_Ret in I as ([] & s1 & G & I). injection G as <-.
  apply bind_inv_Ret in I as ([] & s1 & G & I). injection G as <-.
  assert (later (set_connected true (set_sock sock s.1), s.2) s') as (F & T & P & _).
  { eapply keeps_elim; [exact I|]. pose proof (@later_initSock _ K _). pose proof (@later_getLocalAddress _ K _).
    pose proof (@later_getRemoteAddress _ K _). keep. }
  apply (same_fd_init _ _ _) in I as [V C]. done.
Qed.

(** What a run keeps: the kind; that a connected socket has a descriptor; and the descriptor,
    unless [init] gave another. *)
Definition run_keeps (ops : list SocketOp) (s s' : Socket * K) : Prop :=
  (m_family s'.1 = m_family s.1 /\ m_type s'.1 = m_type s.1 /\ m_protocol s'.1 = m_protocol s.1)
  /\ ((m_isConnected s.1 = true -> isValid s.1 = true) -> m_isConnected s'.1 = true -> isValid s'.1 = true)
  /\ (isValid s.1 = true -> isValid s'.1 = true /\ (m_sock s'.1 = m_sock s.1 \/ OpInit (m_sock s'.1) ∈ ops)).

Lemma run_op_keeps o s s' : op_ok o -> run_op o s = Ret tt s' -> run_keeps [o] s s'.
Proof.
  intros Hok E. assert ((exists sock, o = OpInit sock) \/ forall sock, o <> OpInit sock) as [[sock ->]|Hn]
    by (destruct o; eauto; by right).
  - apply bind_inv_Ret in E as (ok & s1 & E & [= <-]). simpl in Hok.
    destruct (init_sets sock s ok s1 E) as [->|(F & T & P & V & C)]; [split_and!; auto|].
    assert (isValid s1.1 = true) as Hv by (unfold isValid; rewrite V; apply negb_true_iff, Z.eqb_neq; lia).
    split_and!; try done. intros _. split; [done|]. right. rewrite V. by left.
  - apply (later_run_op o Hn) in E as (F & T & P & V & C). split_and!; auto.
    intros Hv. specialize (V Hv). split; [|by left]. unfold isValid in *. by rewrite V.
Qed.

Lemma run_ops_keep ops s s' : Forall op_ok ops -> run_ops ops s = Ret tt s' -> run_keeps ops s s'.
Proof.
  intros Hok. revert s. induction Hok as [|o ops Ho _ IH]; intros s E; cbn [run_ops] in E.
  { injection E as <-. split_and!; auto. }
  apply bind_inv_Ret in E as ([] & s1 & E1 & E). destruct (IH s1 E) as ((F & T & P) & C & V).
  destruct (run_op_keeps o s s1 Ho E1) as ((F1 & T1 & P1) & C1 & V1). split_and!; try congruence; [auto|].
  intros Hv. destruct (V1 Hv) as [Hv1 D1]. destruct (V Hv1) as [Hv' D]. split; [done|].
  destruct D as [D|D]; [|right; by right]. rewrite D. destruct D1 as [D1|D1]; [by left|right].
  apply list_elem_of_singleton in D1. rewrite D1. by left.
Qed.

(** C33: whatever public operations a new socket of some family, type and protocol goes through, it
    keeps them, and it is connected only while it has a descriptor. The descriptor it has once is the
    one it has ever after, [close] included, unless [init] is called with another: what it
    has in the end is then the argument of one of those calls. *)
Theorem socket_ops_ok (family type protocol : Z) (ops more : list SocketOp) (k : K) s s' :
  Forall op_ok (ops ++ more) ->
  run_ops ops (new_Socket family type protocol, k) = Ret tt s -> run_ops more s = Ret tt s' ->
  (m_family s'.1 = family /\ m_type s'.1 = type /\ m_protocol s'.1 = protocol)
  /\ (m_isConnected s'.1 = true -> isValid s'.1 = true)
  /\ (isValid s.1 = true -> isValid s'.1 = true /\ (m_sock s'.1 = m_sock s.1 \/ OpInit (m_sock s'.1) ∈ more)).
Proof.
  intros [Hok1 Hok2]%Forall_app E1 E2. destruct (run_ops_keep _ _ _ Hok1 E1) as ((F1 & T1 & P1) & C1 & _).
  destruct (run_ops_keep _ _ _ Hok2 E2) as ((F2 & T2 & P2) & C2 & V2). cbn in *.
  split_and!; try congruence; [|done]. apply C2, C1. done.
Qed.
End Runs.

(** ** Closing, accepting, timeouts *)

Section Lifecycle.
Context `{Host} {K : Type} `{SocketCalls K}.

(** a socket with a descriptor, closed: the descriptor is closed and the socket is not connected, and
    the result is [false]; transfers fail without a call; but the descriptor is kept, so a
    destroyed socket closes it once more, whatever it stands for by then. *)
Theorem close_leaves_descriptor (s : Socket) (k : K) b f n :
  isValid s = true ->
  let k1 := (sys_close (m_sock s) k).2 in
  let s1 := set_connected false s in
  close (s, k) = Ret false (s1, k1)
  /\ send b f (s1, k1) = Ret (-1) (s1, k1) /\ recv n f (s1, k1) = Ret (-1, []) (s1, k1)
  /\ ensure_valid (s1, k1) = Ret true (s1, k1)
  /\ delete_Socket (s1, k1) = Ret tt (s1, (sys_close (m_sock s) k1).2).
Proof.
  intros V k1 s1.
  assert (m_sock s =? -1 = false) as E by (unfold isValid in V; by destruct (m_sock s =? -1)).
  assert (forall c k', close (set_connected c s, k') = Ret false (s1, (sys_close (m_sock s) k').2)) as C.
  { intros c k'. unfold close, this, gets, upd_this, modify, sys, bind, ret. cbn. rewrite E, andb_false_r. cbn.
    by destruct (sys_close (m_sock s) k'). }
  repeat split.
  - specialize (C (m_isConnected s) k). by destruct s.
  - unfold ensure_valid, this, gets, bind. cbn. unfold isValid. cbn. by rewrite E.
  - unfold delete_Socket, bind. unfold s1 at 1. by rewrite C.
Qed.

(** What [accept] gives is connected to the descriptor of the system call, which the table knows as an
    open socket; an accepted descriptor it does not know is left open. *)
Theorem accept_init (s : Socket) (k : K) n s' :
  accept (s, k) = Ret (Some n) s' ->
  let '(fd, k1) := sys_accept (m_sock s) k in
  m_sock n = fd /\ fd <> -1 /\ m_isConnected n = true
  /\ m_family n = m_family s /\ m_type n = m_type s /\ m_protocol n = m_protocol s
  /\ (exists ctx, fd_ctx fd k1 = Some ctx /\ FdManager.m_isSocket ctx = true /\ FdManager.m_isClosed ctx = false).
Proof.
  unfold accept. destruct (sys_accept (m_sock s) k) as [fd k1] eqn:A. cbn [fst snd]. rewrite A.
  destruct (fd =? -1) eqn:Efd; [by intros [= ]|].
  destruct (init fd _) as [[] [n' k']|e [n' k']|f] eqn:I; try done. intros [= -> _].
  unfold init in I. apply bind_inv_Ret in I as (kk & s0 & G & I). injection G as <- <-. cbn [snd] in I.
  destruct (fd_ctx fd k1) as [ctx|]; [|done]. destruct (FdManager.m_isSocket ctx && _) eqn:Ec; [|done].
  apply andb_true_iff in Ec as [Es Ec]. rewrite negb_true_iff in Ec.
  apply bind_inv_Ret in I as ([] & s1 & G & I). injection G as <-.
  apply bind_inv_Ret in I as ([] & s1 & G & I). injection G as <-.
  assert (later (set_connected true (set_sock fd (new_Socket (m_family s) (m_type s) (m_protocol s))), k1) (n, k'))
    as (F & T & P & _).
  { eapply keeps_elim; [exact I|]. pose proof (@later_initSock _ K _). pose proof (@later_getLocalAddress _ K _).
    pose proof (@later_getRemoteAddress _ K _). keep. }
  apply (same_fd_init _ _ _) in I as [V C]. cbn in *.
  repeat split; [done|by apply Z.eqb_neq in Efd|done|done|done|done|by exists ctx].
Qed.
End Lifecycle.

(** The setters of the timeouts give [setsockopt] the memory of a pointer, eight bytes that say where the
    [timeval] is and nothing of the time. *)
Theorem timeout_option_memory `{Host} {K} `{SocketCalls K} (s : Socket) (k : K) tv_addr v :
  setRecvTimeout tv_addr v (s, k)
    = Ret tt (s, (sys_setsockopt (m_sock s) SOL_SOCKET SO_RCVTIMEO (mem_of 8 tv_addr) k).2)
  /\ setSendTimeout tv_addr v (s, k)
    = Ret tt (s, (sys_setsockopt (m_sock s) SOL_SOCKET SO_SNDTIMEO (mem_of 8 tv_addr) k).2).
Proof.
  unfold setRecvTimeout, setSendTimeout, setOption_ptr, setOption, this, gets, sys, bind, ret. cbn.
  by destruct (sys_setsockopt _ _ SO_RCVTIMEO _ _), (sys_setsockopt _ _ SO_SNDTIMEO _ _).
Qed.

(** ** A world to try them in *)

(** Descriptors are handed out from the world's number, and closes are counted by descriptor. *)
Record DemoWorld := mkDemoWorld { next_fd : Z; closes : list Z }.

Definition demo_ctx (fd : Z) (k : DemoWorld) : option FdManager.FdCtx :=
  if fd <? next_fd k then Some (FdManager.mkFdCtx true true true false false fd 0 0) else None.
Definition demo_new (k : DemoWorld) : Z * DemoWorld := (next_fd k, mkDemoWorld (next_fd k + 1) (closes k)).

Definition demo_calls : SocketCalls DemoWorld := {|
  sys_socket _ _ _ k := demo_new k;
  sys_bind _ _ _ k := (0, k);
  sys_connect _ _ _ k := (0, k);
  sys_connect_with_timeout _ _ _ _ k := (-1, k);
  sys_listen _ _ k := (0, k);
  sys_accept _ k := demo_new k;
  sys_close fd k := (0, mkDemoWorld (next_fd k) (fd :: closes k));
  sys_send _ b _ k := (Z.of_nat (length b), k);
  sys_sendmsg _ b _ _ k := (Z.of_nat (length (concat b)), k);
  sys_sendto _ b _ _ _ k := (Z.of_nat (length b), k);
  sys_recv _ _ _ k := (0, [], k);
  sys_recvmsg _ _ _ _ k := (0, [], [], k);
  sys_recvfrom _ _ _ _ k := (0, [], [], k);
  sys_getpeername _ _ _ := None;
  sys_getsockname _ n _ := Some ([], n);
  sys_getsockopt _ _ _ _ k := (0, [], 0, k);
  sys_setsockopt _ _ _ _ k := (0, k);
  fd_ctx := demo_ctx;
  cancel_event _ _ k := (true, k);
  cancel_all _ k := (true, k)
|}.

Definition demo_ops : list SocketOp := [OpBind (IPv4Address (mkIn 2 0 0 [])); OpListen 10; OpAccept].

(** Server socket 3 gets a connection, 4, and is closed. *)
Lemma socket_ops_ok_witness :
  exists s s' : Socket * DemoWorld,
    @run_ops x86_64 _ demo_calls demo_ops (new_Socket AF_INET TCP 0, mkDemoWorld 3 []) = Ret tt s
    /\ @run_ops x86_64 _ demo_calls [OpClose; OpBind (IPv4Address (mkIn 2 0 0 []))] s = Ret tt s'
    /\ m_sock s'.1 = 3 /\ m_sock s'.1 = m_sock s.1.
Proof.
  eexists _, _. split; [vm_compute; reflexivity|]. split; [vm_compute; reflexivity|]. split; [reflexivity|].
  destruct (proj2 (proj2 (@socket_ops_ok x86_64 _ demo_calls AF_INET TCP 0 demo_ops
    [OpClose; OpBind (IPv4Address (mkIn 2 0 0 []))] (mkDemoWorld 3 []) _ _
    ltac:(by repeat constructor) ltac:(vm_compute; reflexivity) ltac:(vm_compute; reflexivity))) ltac:(vm_compute; reflexivity))
    as [_ [E|Hin]]; [exact E|exfalso].
  apply elem_of_cons in Hin as [Hin|Hin]; [discriminate|].
  apply elem_of_cons in Hin as [Hin|Hin]; [discriminate|by apply elem_of_nil in Hin].
Defined.

(** Between the two closes another socket can have got the number. *)
Lemma close_leaves_descriptor_witness :
  let s := mkSocket 3 AF_INET TCP 0 true None None in
  let s1 := set_connected false s in
  isValid s = true
  /\ @delete_Socket _ demo_calls (s1, mkDemoWorld 4 [3]) = Ret tt (s1, mkDemoWorld 4 [3; 3]).
Proof.
  intros s s1. split; [reflexivity|].
  exact (proj2 (proj2 (proj2 (proj2 (@close_leaves_descriptor x86_64 _ demo_calls s (mkDemoWorld 4 []) [] 0 0 eq_refl))))).
Defined.
