(* ===== verification/Stream.v ===== *)
(** * Stream: [sylar/stream.h], [stream.cpp], [socket_stream.h] and [socket_stream.cpp]

    The abstract [Stream] is the class of its pure virtual functions over the state [W] of the stream and of the
    world; the loops on top of them are defined for every stream. A [SocketStream] is the instance over a
    [Socket]. A read or write of a [ByteArray] acts on the array and the stream together. *)

From S2P Require Import Prelude Std Endian Address Socket.
From S2P Require Import ByteArray ByteArrayViews.

(** What a read gives: its [int], and the bytes it stores from the start of the buffer on. *)
(* SRC sylar/stream.h:9-103 Stream *)
Class Stream (W : Type) := {
  stream_read : Z -> M W (Z * list Z);
  stream_read_ba : Z -> M (ByteArray * W) Z;
  stream_write : list Z -> M W Z;
  stream_write_ba : Z -> M (ByteArray * W) Z;
  stream_close : M W unit
}.

Section Stream.
Context {W : Type} `{!Stream W}.

(** A call of the stream next to something else. *)
Definition on_stream {X A} (m : M W A) : M (X * W) A := fun s =>
  match m s.2 with
  | Ret a w => Ret a (s.1, w)
  | Exn e w => Exn e (s.1, w)
  | UB f => UB f
  end.

(** What a call stores at [buffer + offset]; the pointer wraps around with [offset]. *)
Definition store (offset : Z) (bytes : list Z) : M (list Z * W) unit := fun s =>
  if bool_decide (bytes = []) then Ret tt s
  else if offset + Z.of_nat (length bytes) <=? Z.of_nat (length s.1)
       then Ret tt (splice s.1 (Z.to_nat offset) bytes, s.2)
       else UB OutOfBounds.

(** The [int] of [read] is a [size_t] in the loops, which is never negative: no test fails. *)
(* SRC sylar/stream.cpp:12-20 Stream::readFixSize *)
Fixpoint readFixSize_loop (fuel : nat) (length offset left : Z) : M (list Z * W) Z :=
  if 0 <? left then
    match fuel with
    | O => fail_with OutOfFuel
    | S fuel =>
        let! (rt, bytes) := on_stream (stream_read left) in
        store offset bytes ;;
        let len := u64 rt in
        if len <? 0 then ret (s32 len)
        else readFixSize_loop fuel length (u64 (offset + len)) (u64 (left - len))
    end
  else ret (s32 length).

(** The state holds the memory [buffer] points to, up to its end. *)
(* SRC sylar/stream.cpp:9-21 Stream::readFixSize *)
Definition readFixSize (fuel : nat) (length : Z) : M (list Z * W) Z :=
  readFixSize_loop fuel length 0 length.

(* SRC sylar/stream.cpp:25-32 Stream::readFixSize *)
Fixpoint readFixSize_ba_loop (fuel : nat) (length left : Z) : M (ByteArray * W) Z :=
  if 0 <? left then
    match fuel with
    | O => fail_with OutOfFuel
    | S fuel =>
        let! rt := stream_read_ba left in
        let len := u64 rt in
        if 0 <? len then ret (s32 len) else readFixSize_ba_loop fuel length (u64 (left - len))
    end
  else ret (s32 length).

(* SRC sylar/stream.cpp:23-33 Stream::readFixSize *)
Definition readFixSize_ba (fuel : nat) (length : Z) : M (ByteArray * W) Z :=
  readFixSize_ba_loop fuel length length.

(** Every round writes the whole buffer. *)
(* SRC sylar/stream.cpp:38-46 Stream::writeFixSize *)
Fixpoint writeFixSize_loop (fuel : nat) (buffer : list Z) (length offset left : Z) : M W Z :=
  if 0 <? left then
    match fuel with
    | O => fail_with OutOfFuel
    | S fuel =>
        let! rt := stream_write buffer in
        let len := u64 rt in
        if len <? 0 then ret (s32 len)
        else writeFixSize_loop fuel buffer length (u64 (offset + len)) (u64 (left - len))
    end
  else ret (s32 length).

(* SRC sylar/stream.cpp:35-47 Stream::writeFixSize *)
Definition writeFixSize (fuel : nat) (buffer : list Z) : M W Z :=
  let n := Z.of_nat (length buffer) in
  writeFixSize_loop fuel buffer n 0 n.

(** [left] is decreased by what was asked for. *)
(* SRC sylar/stream.cpp:51-58 Stream::writeFixSize *)
Fixpoint writeFixSize_ba_loop (fuel : nat) (length left : Z) : M (ByteArray * W) Z :=
  if 0 <? left then
    match fuel with
    | O => fail_with OutOfFuel
    | S fuel =>
        let! rt := stream_write_ba length in
        let len := u64 rt in
        if len <? 0 then ret (s32 len) else writeFixSize_ba_loop fuel length (u64 (left - length))
    end
  else ret (s32 length).

(* SRC sylar/stream.cpp:49-59 Stream::writeFixSize *)
Definition writeFixSize_ba (fuel : nat) (length : Z) : M (ByteArray * W) Z :=
  writeFixSize_ba_loop fuel length length.
End Stream.

(** ** [SocketStream] *)

(* SRC sylar/socket_stream.h:25-26 SocketStream *)
Record SocketStream := mkSocketStream { m_socket : option Socket; m_owner : bool }.

Section SocketStream.
Context `{Host} {K : Type} `{SocketCalls K}.

Notation SS := (M (SocketStream * K)).

(* SRC sylar/socket_stream.cpp:6-9 SocketStream::SocketStream *)
Definition new_SocketStream (sock : Socket) (owner : bool) : SocketStream := mkSocketStream (Some sock) owner.

(** A call through [m_socket]. *)
Definition on_socket {A} (m : M (Socket * K) A) : SS A := fun s =>
  match m_socket s.1 with
  | None => UB NullDeref
  | Some sock =>
      match m (sock, s.2) with
      | Ret a (sock, k) => Ret a (mkSocketStream (Some sock) (m_owner s.1), k)
      | Exn e (sock, k) => Exn e (mkSocketStream (Some sock) (m_owner s.1), k)
      | UB f => UB f
      end
  end.

(* SRC sylar/socket_stream.cpp:17-19 SocketStream::isConnected *)
Definition isConnected (s : SocketStream) : bool :=
  match m_socket s with Some sock => m_isConnected sock | None => false end.

(* SRC sylar/socket_stream.cpp:61-65 SocketStream::close *)
Definition close_stream : SS unit :=
  let! s := gets fst in
  match m_socket s with Some _ => on_socket close ;; ret tt | None => ret tt end.

(* SRC sylar/socket_stream.cpp:11-15 SocketStream::~SocketStream *)
Definition delete_SocketStream : SS unit :=
  let! s := gets fst in
  if m_owner s then close_stream else ret tt.

(* SRC sylar/socket_stream.cpp:21-26 SocketStream::read *)
Definition read_buffer (length : Z) : SS (Z * list Z) :=
  let! s := gets fst in
  if negb (isConnected s) then ret (-1, []) else on_socket (recv length 0).

(* SRC sylar/socket_stream.cpp:41-46 SocketStream::write *)
Definition write_buffer (buffer : list Z) : SS Z :=
  let! s := gets fst in
  if negb (isConnected s) then ret (-1) else on_socket (send buffer 0).

(** A call of the array next to the stream. *)
Definition on_array {A} (m : M ByteArray A) : M (ByteArray * (SocketStream * K)) A := fun s =>
  match m s.1 with
  | Ret a b => Ret a (b, s.2)
  | Exn e b => Exn e (b, s.2)
  | UB f => UB f
  end.

(** What is received goes where the views point; of no views the address is not used. *)
(* SRC sylar/socket_stream.cpp:28-39 SocketStream::read *)
Definition read_array (length : Z) : M (ByteArray * (SocketStream * K)) Z :=
  let! s := gets snd in
  if negb (isConnected s.1) then ret (-1)
  else
    let! (_, iovs) := on_array (getWriteBuffers [] length) in
    let! (rt, bytes) := on_stream (on_socket (recv_iov (map iov_len iovs) 0)) in
    on_array (modify (fun b => with_root (scatter (m_root b) iovs (map Some bytes)) b)) ;;
    (if 0 <? rt then on_array (let! p := gets m_position in setPosition (u64 (p + rt))) else ret tt) ;;
    ret rt.

(** The bytes the views show, which are initialised up to the array's size. *)
(* SRC sylar/socket_stream.cpp:48-59 SocketStream::write *)
Definition write_array (length : Z) : M (ByteArray * (SocketStream * K)) Z :=
  let! s := gets snd in
  if negb (isConnected s.1) then ret (-1)
  else
    let! (_, iovs) := on_array (getReadBuffers [] length) in
    let! nodes := gets (fun s => m_root s.1) in
    match all_some (map (fun v => all_some (iov_bytes nodes v)) iovs) with
    | None => fail_with Indeterminate
    | Some buffers =>
        let! rt := on_stream (on_socket (send_iov buffers 0)) in
        (if 0 <? rt then on_array (let! p := gets m_position in setPosition (u64 (p + rt))) else ret tt) ;;
        ret rt
    end.

#[global] Instance SocketStream_Stream : Stream (SocketStream * K) := {|
  stream_read := read_buffer;
  stream_read_ba := read_array;
  stream_write := write_buffer;
  stream_write_ba := write_array;
  stream_close := close_stream
|}.
End SocketStream.
