(* ===== verification/StreamSpec.v ===== *)
(** * StreamSpec: what the loops of a [Stream] do on a stream with input

    [StreamInput] is what a reader relies on: input that arrives in segments. [readFixSize] collects it
    exactly, however it is cut; a stream that ends early keeps it reading for ever, and so does a failing
    write [writeFixSize]. A connected [SocketStream] is such a stream when its kernel is. *)

From S2P Require Import Prelude Std Endian Address Socket Stream.
From S2P Require Import ByteArray ByteArrayViews.

(** What a read of at most [n] bytes takes from the segments that have arrived. *)
Definition first_part (n : Z) (segs : list (list Z)) : list Z :=
  match segs with [] => [] | seg :: _ => take (Z.to_nat n) seg end.
Definition behind_first (n : Z) (segs : list (list Z)) : list (list Z) :=
  match segs with
  | [] => []
  | seg :: segs =>
      if bool_decide (drop (Z.to_nat n) seg = []) then segs else drop (Z.to_nat n) seg :: segs
  end.

(** Segments hold something, and no more than an [int] counts. *)
Definition segments (segs : list (list Z)) : Prop :=
  Forall (fun seg => seg <> [] /\ Z.of_nat (length seg) < 2 ^ 31) segs.

(** [pending w]: the segments that are still to be read, and nothing after them. A read gives the next one, or as
    much of it as was asked for, and 0 bytes at the end. *)
Class StreamInput (W : Type) `{!Stream W} := {
  pending : W -> list (list Z);
  readable : W -> Prop;
  read_input w n : readable w -> 0 < n ->
    exists w', stream_read n w
        = Ret (Z.of_nat (length (first_part n (pending w))), first_part n (pending w)) w'
      /\ pending w' = behind_first n (pending w) /\ readable w'
}.

Lemma first_behind n segs : first_part n segs ++ concat (behind_first n segs) = concat segs.
Proof.
  destruct segs as [|seg segs]; [done|]. unfold first_part, behind_first. case_bool_decide as E.
  - rewrite <- (take_drop (Z.to_nat n) seg) at 2. by rewrite E, app_nil_r.
  - cbn. by rewrite app_assoc, take_drop.
Qed.

Lemma segments_behind n segs : segments segs -> segments (behind_first n segs).
Proof.
  destruct segs as [|seg segs]; [done|]. intros [[H1 H2] H3]%Forall_cons_1. unfold behind_first. case_bool_decide; [done|].
  constructor; [|done]. split; [done|]. rewrite length_drop. lia.
Qed.

Lemma length_first n segs : 0 < n -> segments segs ->
  Z.of_nat (length (first_part n segs)) <= n /\ Z.of_nat (length (first_part n segs)) < 2 ^ 31
  /\ (concat segs <> [] -> (0 < length (first_part n segs))%nat).
Proof.
  intros Hn. destruct segs as [|seg segs]; [cbn; repeat split; (lia || done)|].
  intros [[H1 H2] H3]%Forall_cons_1. unfold first_part. rewrite length_take.
  repeat split; [lia..|]. destruct seg; [done|cbn [length]; lia].
Qed.

Section Loops.
Context {W : Type} `{StreamInput W}.

Lemma on_stream_Ret {X A} (m : M W A) (x : X) w a w' : m w = Ret a w' -> on_stream m (x, w) = Ret a (x, w').
Proof. intros E. unfold on_stream. cbn. by rewrite E. Qed.

Lemma store_bytes_ok offset bytes buf (w : W) : 0 <= offset ->
  offset + Z.of_nat (length bytes) <= Z.of_nat (length buf) ->
  store offset bytes (buf, w) = Ret tt (splice buf (Z.to_nat offset) bytes, w).
Proof.
  intros Ho Hl. unfold store. case_bool_decide as E; [by rewrite E, splice_nil|]. cbn [fst snd].
  by destruct (Z.leb_spec (offset + Z.of_nat (length bytes)) (Z.of_nat (length buf))); [|lia].
Qed.

(** One round with input left. *)
Lemma readFixSize_round fuel n offset left buf w :
  readable w -> segments (pending w) -> 0 < left -> 0 <= offset -> offset + left < 2 ^ 64 ->
  offset + left <= Z.of_nat (length buf) ->
  exists w', let part := first_part left (pending w) in
    readFixSize_loop (S fuel) n offset left (buf, w)
      = readFixSize_loop fuel n (offset + Z.of_nat (length part)) (left - Z.of_nat (length part))
          (splice buf (Z.to_nat offset) part, w')
    /\ pending w' = behind_first left (pending w) /\ readable w'.
Proof.
  intros Hr Hs Hl Ho Hb Hbuf. destruct (read_input w left Hr Hl) as (w' & E & Hp & Hr').
  destruct (length_first left (pending w) Hl Hs) as (L1 & L2 & _).
  exists w'. cbv zeta. split; [|done]. cbn [readFixSize_loop].
  destruct (Z.ltb_spec 0 left); [|lia]. erewrite bind_Ret by (by apply on_stream_Ret).
  cbn beta iota. erewrite bind_Ret by (apply store_bytes_ok; lia). cbv zeta.
  rewrite (wrapu_small 64 (Z.of_nat _)) by lia.
  destruct (Z.ltb_spec (Z.of_nat (length (first_part left (pending w)))) 0); [lia|].
  by rewrite !wrapu_small by lia.
Qed.

Lemma readFixSize_loop_ok fuel n : forall offset left buf w,
  readable w -> segments (pending w) -> (Z.to_nat left <= fuel)%nat -> 0 <= left -> 0 <= offset -> offset + left < 2 ^ 64 ->
  offset + left <= Z.of_nat (length buf) -> left <= Z.of_nat (length (concat (pending w))) ->
  exists w', readFixSize_loop fuel n offset left (buf, w)
      = Ret (s32 n) (splice buf (Z.to_nat offset) (take (Z.to_nat left) (concat (pending w))), w')
    /\ concat (pending w') = drop (Z.to_nat left) (concat (pending w))
    /\ readable w' /\ segments (pending w').
Proof.
  induction fuel as [|fuel IH]; intros offset left buf w Hr Hs Hf Hl Ho Hb Hbuf Ha.
  - assert (left = 0) as -> by lia. exists w. change (Z.to_nat 0) with 0%nat. by rewrite take_0, splice_nil.
  - destruct (decide (left = 0)) as [->|];
      [exists w; change (Z.to_nat 0) with 0%nat; by rewrite take_0, splice_nil|].
    destruct (readFixSize_round fuel n offset left buf w) as (w1 & E & Hp & Hr1); try (done || lia).
    rewrite E. clear E. set (part := first_part left (pending w)) in *.
    destruct (length_first left (pending w)) as (L1 & L2 & L3); [lia|done|]. fold part in L1, L2, L3.
    assert (0 < length part)%nat as L by (apply L3; intros C; rewrite C in Ha; cbn in Ha; lia).
    pose proof (first_behind left (pending w)) as Hc. rewrite <- Hp in Hc. fold part in Hc.
    assert (length (splice buf (Z.to_nat offset) part) = length buf) as Hls by (apply length_splice; lia).
    destruct (IH (offset + Z.of_nat (length part)) (left - Z.of_nat (length part))
      (splice buf (Z.to_nat offset) part) w1) as (w2 & E2 & Hp2 & Hr2 & Hs2); try (done || lia).
    { rewrite Hp. by apply segments_behind. }
    { rewrite <- Hc, length_app in Ha. lia. }
    exists w2. rewrite E2, Hp2, <- Hc. split; [|split; [|done]].
    + replace (Z.to_nat (offset + Z.of_nat (length part))) with (Z.to_nat offset + length part)%nat by lia.
      replace (Z.to_nat (left - Z.of_nat (length part))) with (Z.to_nat left - length part)%nat by lia.
      rewrite splice_splice by lia. by rewrite take_app, (take_ge part) by lia.
    + replace (Z.to_nat (left - Z.of_nat (length part))) with (Z.to_nat left - length part)%nat by lia.
      by rewrite drop_app, (drop_ge part) by lia.
Qed.

(** The stream ends before the buffer is full: every later read gives nothing and the loop goes on. *)
Lemma readFixSize_loop_short fuel n : forall offset left buf w,
  readable w -> segments (pending w) -> 0 <= offset -> offset + left < 2 ^ 64 ->
  offset + left <= Z.of_nat (length buf) -> Z.of_nat (length (concat (pending w))) < left ->
  readFixSize_loop fuel n offset left (buf, w) = UB OutOfFuel.
Proof.
  induction fuel as [|fuel IH]; intros offset left buf w Hr Hs Ho Hb Hbuf Ha.
  - cbn. by destruct (Z.ltb_spec 0 left); [|lia].
  - destruct (readFixSize_round fuel n offset left buf w) as (w1 & E & Hp & Hr1); try (done || lia).
    rewrite E. clear E. set (part := first_part left (pending w)) in *.
    destruct (length_first left (pending w)) as (L1 & L2 & L3); [lia|done|]. fold part in L1, L2, L3.
    pose proof (first_behind left (pending w)) as Hc. rewrite <- Hp in Hc. fold part in Hc.
    assert (length (splice buf (Z.to_nat offset) part) = length buf) as Hls by (apply length_splice; lia).
    apply IH; [done|rewrite Hp; by apply segments_behind|lia..|].
    rewrite <- Hc, length_app in Ha. lia.
Qed.
End Loops.

Section Theorems.
Context {W : Type} `{StreamInput W}.

(** Claims: what [readFixSize] makes of the input, however it is cut. *)
Lemma readFixSize_ok fuel n buf w : readable w -> segments (pending w) ->
  0 <= n < 2 ^ 64 -> n <= Z.of_nat (length buf) -> (Z.to_nat n <= fuel)%nat ->
  n <= Z.of_nat (length (concat (pending w))) ->
  exists w', readFixSize fuel n (buf, w)
      = Ret (s32 n) (take (Z.to_nat n) (concat (pending w)) ++ drop (Z.to_nat n) buf, w')
    /\ concat (pending w') = drop (Z.to_nat n) (concat (pending w)) /\ readable w' /\ segments (pending w').
Proof.
  intros Hr Hs Hn Hb Hf Ha. unfold readFixSize.
  destruct (readFixSize_loop_ok fuel n 0 n buf w) as (w' & E & R); try (done || lia).
  exists w'. rewrite E. split; [|done]. unfold splice.
  rewrite take_0, length_take, Nat.min_l by lia. done.
Qed.

(** C31: [readFixSize] of a buffer collects its [n] bytes in order, however the input is cut into segments, leaves the
    rest of the input and of the buffer, and needs at most [n] reads; when fewer than [n] bytes come before the
    end of the stream it reads for ever, since the test for an error is on an unsigned number. *)
Theorem readFixSize_spec fuel n buf w : readable w -> segments (pending w) ->
  0 <= n < 2 ^ 64 -> n <= Z.of_nat (length buf) ->
  (n <= Z.of_nat (length (concat (pending w))) -> (Z.to_nat n <= fuel)%nat ->
     exists w', readFixSize fuel n (buf, w)
         = Ret (s32 n) (take (Z.to_nat n) (concat (pending w)) ++ drop (Z.to_nat n) buf, w')
       /\ concat (pending w') = drop (Z.to_nat n) (concat (pending w)))
  /\ (Z.of_nat (length (concat (pending w))) < n -> readFixSize fuel n (buf, w) = UB OutOfFuel).
Proof.
  intros Hr Hs Hn Hb. split.
  - intros Ha Hf. destruct (readFixSize_ok fuel n buf w Hr Hs Hn Hb Hf Ha) as (w' & E & R & _).
    by exists w'.
  - intros Ha. apply readFixSize_loop_short; (done || lia).
Qed.
End Theorems.

(** ** Writes *)

Section Writes.
Context {W : Type} `{!Stream W}.

Lemma writeFixSize_step fuel buffer n offset left w rt w' :
  stream_write buffer w = Ret rt w' -> 0 < left ->
  writeFixSize_loop (S fuel) buffer n offset left w
    = writeFixSize_loop fuel buffer n (u64 (offset + u64 rt)) (u64 (left - u64 rt)) w'.
Proof.
  intros E Hl. cbn [writeFixSize_loop]. destruct (Z.ltb_spec 0 left); [|lia].
  erewrite bind_Ret by exact E. cbv zeta. pose proof (wrapu_range 64 rt).
  by destruct (Z.ltb_spec (u64 rt) 0); [lia|].
Qed.

(** A write that fails once and for all. *)
Lemma writeFixSize_fails (bad : W -> Prop) buffer n :
  (forall w, bad w -> exists w', stream_write buffer w = Ret (-1) w' /\ bad w') ->
  forall fuel offset left w, bad w -> 0 < left -> left + Z.of_nat fuel < 2 ^ 64 ->
    writeFixSize_loop fuel buffer n offset left w = UB OutOfFuel.
Proof.
  intros Hbad. induction fuel as [|fuel IH]; intros offset left w Hw Hl Hf.
  - cbn. by destruct (Z.ltb_spec 0 left); [|lia].
  - destruct (Hbad w Hw) as (w' & E & Hw'). rewrite (writeFixSize_step _ _ _ _ _ _ _ _ E) by lia.
    change (u64 (-1)) with (2 ^ 64 - 1).
    replace (u64 (left - (2 ^ 64 - 1))) with (left + 1).
    + apply IH; [done|lia..].
    + unfold wrapu. apply (Z.mod_unique_pos _ _ (-1)); lia.
Qed.

(** [writeFixSize] of a buffer the stream takes whole writes it once and returns its length. After a write that
    took only [k] bytes it starts again with the whole buffer: [k] bytes go out twice, and when the rest that is
    counted wraps around it goes on. On a stream whose writes fail it goes on for 2^64 rounds less the length,
    with the error never returned. *)
Theorem writeFixSize_spec buffer (w : W) : 0 < Z.of_nat (length buffer) < 2 ^ 31 ->
  (forall fuel w', stream_write buffer w = Ret (Z.of_nat (length buffer)) w' ->
     writeFixSize (S fuel) buffer w = Ret (Z.of_nat (length buffer)) w')
  /\ (forall fuel k w1 w2, 0 < k < Z.of_nat (length buffer) ->
       stream_write buffer w = Ret k w1 -> stream_write buffer w1 = Ret (Z.of_nat (length buffer)) w2 ->
       writeFixSize (S (S fuel)) buffer w
         = writeFixSize_loop fuel buffer (Z.of_nat (length buffer)) (Z.of_nat (length buffer) + k) (2 ^ 64 - k) w2)
  /\ (forall (bad : W -> Prop) fuel, bad w ->
       (forall w, bad w -> exists w', stream_write buffer w = Ret (-1) w' /\ bad w') ->
       Z.of_nat (length buffer) + Z.of_nat fuel < 2 ^ 64 -> writeFixSize fuel buffer w = UB OutOfFuel).
Proof.
  intros Hn. set (n := Z.of_nat (length buffer)) in *. unfold writeFixSize. fold n. split; [|split].
  - intros fuel w' E. rewrite (writeFixSize_step _ _ _ _ _ _ _ _ E) by lia.
    rewrite (wrapu_small 64 n), Z.sub_diag by lia. destruct fuel; cbn; unfold ret; f_equal;
      apply wraps_small; unfold in_s; lia.
  - intros fuel k w1 w2 Hk E1 E2. rewrite (writeFixSize_step _ _ _ _ _ _ _ _ E1) by lia.
    rewrite !(wrapu_small 64) by (rewrite ?wrapu_small; lia).
    rewrite (writeFixSize_step _ _ _ _ _ _ _ _ E2) by lia. f_equal.
    + rewrite !wrapu_small; rewrite ?wrapu_small; lia.
    + rewrite (wrapu_small 64 n) by lia. unfold wrapu. symmetry. apply (Z.mod_unique_pos _ _ (-1)); lia.
  - intros bad fuel Hw Hbad Hf. by apply (writeFixSize_fails bad); [..|lia|].
Qed.

(** [readFixSize] of an array gives what its first read that is not empty gave, however little, errors too. *)
Theorem readFixSize_ba_first fuel n b (w : W) rt s' : 0 < n -> rt <> 0 -> - 2 ^ 31 <= rt < 2 ^ 31 ->
  stream_read_ba n (b, w) = Ret rt s' -> readFixSize_ba (S fuel) n (b, w) = Ret rt s'.
Proof.
  intros Hn Hrt Hr E. unfold readFixSize_ba. cbn [readFixSize_ba_loop]. destruct (Z.ltb_spec 0 n); [|lia].
  erewrite bind_Ret by exact E. cbv zeta. assert (0 < u64 rt) as Hp.
  { unfold wrapu. destruct (decide (0 < rt)); [rewrite Z.mod_small by lia; lia|].
    rewrite <- (Z.mod_unique_pos rt (2 ^ 64) (-1) (rt + 2 ^ 64)); lia. }
  destruct (Z.ltb_spec 0 (u64 rt)); [|lia]. unfold ret. f_equal.
  transitivity (s32 rt); [|by apply wraps_small]. unfold wrapu, wraps.
  rewrite <- (Znumtheory.Zmod_div_mod (2 ^ 32) (2 ^ 64) rt); [done|lia|lia|by exists (2 ^ 32)].
Qed.

(** [writeFixSize] of an array counts what it asked for: it writes once and says that all went out. *)
Theorem writeFixSize_ba_once fuel n b (w : W) rt s' : 0 < n < 2 ^ 31 ->
  stream_write_ba n (b, w) = Ret rt s' -> writeFixSize_ba (S fuel) n (b, w) = Ret n s'.
Proof.
  intros Hn E. unfold writeFixSize_ba. cbn [writeFixSize_ba_loop]. destruct (Z.ltb_spec 0 n); [|lia].
  erewrite bind_Ret by exact E. cbv zeta. pose proof (wrapu_range 64 rt).
  destruct (Z.ltb_spec (u64 rt) 0); [lia|]. rewrite Z.sub_diag. destruct fuel; cbn; unfold ret; f_equal;
    apply wraps_small; unfold in_s; lia.
Qed.
End Writes.

(** ** A connected [SocketStream] *)

(** A kernel whose descriptors have input: [recv] and [recvmsg] take it from the front. *)
Class RecvInput (K : Type) `{!SocketCalls K} := {
  incoming : Z -> K -> list (list Z);
  recv_input fd n k : 0 < n -> exists k',
    sys_recv fd n 0 k = (Z.of_nat (length (first_part n (incoming fd k))), first_part n (incoming fd k), k')
    /\ incoming fd k' = behind_first n (incoming fd k);
  recvmsg_input fd lens k : 0 < foldr Z.add 0 lens -> exists k',
    sys_recvmsg fd lens None 0 k
      = (Z.of_nat (length (first_part (foldr Z.add 0 lens) (incoming fd k))),
         first_part (foldr Z.add 0 lens) (incoming fd k), [], k')
    /\ incoming fd k' = behind_first (foldr Z.add 0 lens) (incoming fd k)
}.

Lemma scatter_nil nodes iovs : scatter nodes iovs [] = nodes.
Proof.
  revert nodes. induction iovs as [|v iovs IH]; intros nodes; [done|]. cbn. rewrite Nat.min_0_r.
  destruct (nodes !! iov_node v) as [nd|] eqn:En; [|done]. cbn. rewrite splice_nil.
  assert (mkNode (ptr nd) (size nd) = nd) as -> by (by destruct nd). by rewrite list_insert_id.
Qed.

Section SocketInput.
Context `{Host} {K : Type} `{RecvInput K}.

Definition socket_pending (s : SocketStream * K) : list (list Z) :=
  match m_socket s.1 with Some sock => incoming (m_sock sock) s.2 | None => [] end.

Lemma read_buffer_input (s : SocketStream * K) n : isConnected s.1 = true -> 0 < n -> exists k',
  read_buffer n s = Ret (Z.of_nat (length (first_part n (socket_pending s))), first_part n (socket_pending s)) (s.1, k')
  /\ socket_pending (s.1, k') = behind_first n (socket_pending s).
Proof.
  destruct s as [[[sock|] owner] k]; cbn; [|done]. intros Hc Hn. unfold socket_pending. cbn.
  destruct (recv_input (m_sock sock) n k Hn) as (k' & E & Hp). exists k'. split; [|done].
  unfold read_buffer, gets, bind. cbn. rewrite Hc. cbn. unfold on_socket, recv, if_connected, this, gets, sys, bind.
  cbn. rewrite Hc. cbn. by rewrite E.
Qed.

#[global, program] Instance SocketStream_StreamInput : StreamInput (SocketStream * K) := {|
  pending := socket_pending;
  readable s := isConnected s.1 = true
|}.
Next Obligation.
  intros [s k] n Hc Hn. destruct (read_buffer_input (s, k) n Hc Hn) as (k' & E & Hp). by exists (s, k').
Qed.

Lemma tiles_lengths b i npos len iovs : tiles b i npos len iovs -> foldr Z.add 0 (map iov_len iovs) = len.
Proof. induction 1; cbn; lia. Qed.

(** A read of the views of an array. *)
Lemma read_array_run (sock : Socket) owner k ba b1 n m iovs k' rt bytes name : m_isConnected sock = true ->
  getWriteBuffers [] n ba = Ret (m, iovs) b1 ->
  sys_recvmsg (m_sock sock) (map iov_len iovs) None 0 k = (rt, bytes, name, k') ->
  let s := mkSocketStream (Some sock) owner in
  let b2 := with_root (scatter (m_root b1) iovs (map Some bytes)) b1 in
  read_array n (ba, (s, k))
    = (if 0 <? rt then
         match setPosition (u64 (m_position b1 + rt)) b2 with
         | Ret _ b => Ret rt (b, (s, k')) | Exn e b => Exn e (b, (s, k')) | UB f => UB f
         end
       else Ret rt (b2, (s, k'))).
Proof.
  intros Hc E1 Er s b2. subst s. unfold read_array.
  erewrite bind_Ret by done. cbn [isConnected fst snd m_socket]. rewrite Hc. cbn [negb].
  erewrite bind_Ret by (unfold on_array; cbn [fst snd]; by rewrite E1). cbn beta iota.
  erewrite bind_Ret by (unfold on_stream, on_socket, recv_iov, if_connected, this, gets, sys, bind; cbn;
    rewrite Hc; cbn; by rewrite Er).
  cbn beta iota. erewrite bind_Ret by done. cbn [fst snd]. fold b2.
  destruct (0 <? rt); [|done]. unfold bind at 1, on_array. cbn [fst snd].
  erewrite bind_Ret by done. change (m_position b2) with (m_position b1).
  by destruct (setPosition _ b2).
Qed.

(** C32: a read into an array of a connected stream: the array is what writing the received bytes to it gives, with the
    cursor behind them; the bytes are gone from the input and the result is their number, 0 at the end. *)
Theorem read_array_spec (s : SocketStream) (k : K) (ba : ByteArray) n :
  wf ba -> isConnected s = true -> segments (socket_pending (s, k)) ->
  0 < n -> m_position ba + n + m_baseSize ba < max_bytes ->
  let part := first_part n (socket_pending (s, k)) in
  exists ba' k', read_array n (ba, (s, k)) = Ret (Z.of_nat (length part)) (ba', (s, k'))
    /\ wf ba' /\ content ba' = splice (content ba) (cursor ba) (map Some part)
    /\ m_position ba' = m_position ba + Z.of_nat (length part)
    /\ socket_pending (s, k') = behind_first n (socket_pending (s, k)).
Proof.
  intros Hwf Hc Hs Hn Hmax part. destruct (length_first n (socket_pending (s, k)) Hn Hs) as (L1 & L2 & _).
  fold part in L1, L2.
  destruct (getWriteBuffers_tiles ba n Hwf Hn Hmax) as (b1 & iovs & ? & E1 & _ & _ & _ & _ & _ & _ & _ & i & Ht & _).
  destruct (getWriteBuffers_fill ba n (map Some part) Hwf Hn Hmax)
    as (b1' & iovs' & b2 & E1' & Hw1 & Hc1 & Hp1 & E2 & Hw2 & Hc2 & Hp2 & _); [by rewrite length_map|].
  rewrite E1 in E1'. injection E1' as <- <-. rewrite length_map in *.
  destruct s as [[sock|] owner]; [|done]. cbn [isConnected m_socket] in Hc.
  unfold socket_pending in *. cbn [fst snd m_socket] in *.
  destruct (recvmsg_input (m_sock sock) (map iov_len iovs) k) as (k' & Er & Hpk).
  { by rewrite (tiles_lengths _ _ _ _ _ Ht). }
  rewrite (tiles_lengths _ _ _ _ _ Ht) in Er, Hpk. fold part in Er.
  rewrite (read_array_run _ _ _ _ _ _ _ _ _ _ _ _ Hc E1 Er).
  pose proof (wf_pos _ Hwf). pose proof (wf_base _ (wf_is_mem _ Hwf)). unfold max_bytes in *.
  destruct (Z.ltb_spec 0 (Z.of_nat (length part))).
  - rewrite (wrapu_small 64) by lia. rewrite E2. by exists b2, k'.
  - assert (part = []) as Ep by (destruct part; [done|cbn [length] in *; lia]). rewrite Ep in *.
    cbn [map] in *. rewrite scatter_nil. rewrite splice_nil.
    assert (with_root (m_root b1) b1 = b1) as -> by (by destruct b1).
    exists b1, k'. split; [done|]. split; [done|]. split; [done|]. split; [cbn; lia|done].
Qed.
End SocketInput.

(** ** A kernel with a script *)

(** One connection: the segments that come in, and what was sent. *)
Record Feed := mkFeed { feed : list (list Z); sent : list Z }.

Definition feed_recv (n : Z) (k : Feed) : Z * list Z * Feed :=
  let part := first_part n (feed k) in
  (Z.of_nat (length part), part, mkFeed (behind_first n (feed k)) (sent k)).
Definition feed_send (bytes : list Z) (k : Feed) : Z * Feed :=
  (Z.of_nat (length bytes), mkFeed (feed k) (sent k ++ bytes)).

#[global] Instance feed_calls : SocketCalls Feed := {|
  sys_socket _ _ _ k := (3, k);
  sys_bind _ _ _ k := (0, k);
  sys_connect _ _ _ k := (0, k);
  sys_connect_with_timeout _ _ _ _ k := (0, k);
  sys_listen _ _ k := (0, k);
  sys_accept _ k := (-1, k);
  sys_close _ k := (0, mkFeed [] (sent k));
  sys_send _ b _ k := feed_send b k;
  sys_sendmsg _ b _ _ k := feed_send (concat b) k;
  sys_sendto _ b _ _ _ k := feed_send b k;
  sys_recv _ n _ k := feed_recv n k;
  sys_recvmsg _ lens _ _ k := let '(r, k) := feed_recv (foldr Z.add 0 lens) k in (r, [], k);
  sys_recvfrom _ n _ _ k := let '(r, k) := feed_recv n k in (r, [], k);
  sys_getpeername _ _ _ := None;
  sys_getsockname _ _ _ := None;
  sys_getsockopt _ _ _ _ k := (0, [], 0, k);
  sys_setsockopt _ _ _ _ k := (0, k);
  fd_ctx _ _ := None;
  cancel_event _ _ k := (true, k);
  cancel_all _ k := (true, k)
|}.

#[global, program] Instance feed_input : RecvInput Feed := {| incoming _ k := feed k |}.
Next Obligation. intros fd n k _. by eexists. Qed.
Next Obligation. intros fd lens k _. by eexists. Qed.

Definition feed_socket : Socket := mkSocket 3 AF_INET TCP 0 true None None.
Definition feed_stream : SocketStream := new_SocketStream feed_socket true.

(** Three of the four bytes that come in three segments. *)
Lemma readFixSize_spec_witness :
  let w := (feed_stream, mkFeed [[1]; [2; 3]; [4]] []) in
  exists w', @readFixSize _ (@SocketStream_Stream Feed _) 3 3 ([0; 0; 0], w) = Ret 3 ([1; 2; 3], w').
Proof.
  intros w.
  destruct (proj1 (@readFixSize_spec _ (@SocketStream_Stream Feed _)
    (@SocketStream_StreamInput Feed _ _) 3 3 [0; 0; 0] w eq_refl
    ltac:(unfold segments; apply (bool_decide_unpack _); vm_compute; exact I) ltac:(lia) ltac:(vm_compute; discriminate))
    ltac:(vm_compute; discriminate) (le_n 3)) as (w' & E & _).
  exists w'. exact E.
Defined.

Lemma writeFixSize_spec_witness :
  let w := (feed_stream, mkFeed [] [7]) in
  @writeFixSize _ (@SocketStream_Stream Feed _) 1 [8; 9] w = Ret 2 (feed_stream, mkFeed [] [7; 8; 9]).
Proof.
  intros w.
  exact (proj1 (@writeFixSize_spec _ (@SocketStream_Stream Feed _) [8; 9] w ltac:(cbn; lia))
    0%nat _ eq_refl).
Defined.

(** Two bytes arrive in an array with blocks of one byte. *)
Lemma read_array_spec_witness :
  exists ba' k', @read_array Feed _ 5 (new_ByteArray 1, (feed_stream, mkFeed [[1; 2]] []))
      = Ret 2 (ba', (feed_stream, k'))
    /\ content ba' = [Some 1; Some 2].
Proof.
  destruct (@read_array_spec Feed _ _ feed_stream (mkFeed [[1; 2]] []) (new_ByteArray 1) 5)
    as (ba' & k' & E & _ & C & _).
  - apply new_ByteArray_wf. by vm_compute.
  - reflexivity.
  - unfold segments. apply (bool_decide_unpack _). vm_compute. exact I.
  - reflexivity.
  - by vm_compute.
  - exists ba', k'. split; [exact E|]. rewrite C. reflexivity.
Defined.
