(* ===== verification/HttpSession.v ===== *)
(** * HttpSession: [sylar/http/http_session.h] and [http_session.cpp]

    The server's end of a connection: [recvRequest] reads into a buffer and feeds the
    parser until the request is complete, then gets the body; [sendResponse] prints the response. The session is
    any [Stream] ([HttpSession] adds no state to [SocketStream]). [lexical_cast] is
    [boost::lexical_cast<uint64_t>], [fresh] the memory [new char] returns, and [memory] that of the parser. *)

From S2P Require Import Prelude Std Http HttpParser Stream.

Section HttpSession.
Context {W : Type} `{!Stream W} (lexical_cast : list Z -> option Z).

(** One turn of the loop stores the bytes at [data + offset], runs the parser on what the buffer
    holds, and keeps the rest of it at the start. The result is the parser, the buffer and [offset]. *)
(* SRC sylar/http/http_session.cpp:109-129 HttpSession::recvRequest *)
Fixpoint recv_loop (fuel : nat) (buff_size : Z) (parser : HttpRequestParser) (data : list Z) (offset : Z)
    : M W (option (HttpRequestParser * list Z * Z)) :=
  match fuel with
  | O => fail_with OutOfFuel
  | S fuel =>
      let! (len, bytes) := stream_read (u64 (buff_size - offset)) in
      if len <=? 0 then stream_close ;; ret None
      else if Z.of_nat (length data) <? offset + Z.of_nat (length bytes) then fail_with OutOfBounds
      else
        let data := splice data (Z.to_nat offset) bytes in
        let len := len + offset in
        match execute data len parser with
        | UB f => fail_with f
        | Exn e _ => throw e
        | Ret (nparse, data) parser =>
            if hasError parser then stream_close ;; ret None
            else
              let offset := s32 (len - nparse) in
              if offset =? s32 buff_size then stream_close ;; ret None
              else if isFinished parser then ret (Some (parser, data, offset))
              else recv_loop fuel buff_size parser data offset
        end
  end.

(** The part of the body that is in the buffer goes to the start of the string, the rest behind it. *)
(* SRC sylar/http/http_session.cpp:131-151 HttpSession::recvRequest *)
Definition recv_body (fuel : nat) (length : Z) (data : list Z) (offset : Z) : M W (option (list Z)) :=
  if string_max_size <? length then throw length_error
  else
    let body := repeat 0 (Z.to_nat length) in
    let len := if offset <=? length then offset else s32 length in
    let body := splice body 0 (take (Z.to_nat (if offset <=? length then offset else length)) data) in
    let left := length - offset in
    if 0 <? left then fun w =>
      match readFixSize fuel (u64 left) (drop (Z.to_nat len) body, w) with
      | Ret r (rest, w) =>
          (if r <=? 0 then stream_close ;; ret None
           else ret (Some (take (Z.to_nat len) body ++ rest))) w
      | Exn e (_, w) => Exn e w
      | UB f => UB f
      end
    else ret (Some body).

(** [nullptr] is [None]. *)
(* SRC sylar/http/http_session.cpp:12-154 HttpSession::recvRequest *)
Definition recvRequest (fuel : nat) (buff_size : Z) (fresh : list Z) (memory : http_parser)
    : M W (option HttpRequest) :=
  let! r := recv_loop fuel buff_size (new_HttpRequestParser memory) fresh 0 in
  match r with
  | None => ret None
  | Some (parser, data, offset) =>
      let length := s64 (getContentLength lexical_cast parser) in
      if 0 <? length then
        let! body := recv_body fuel length data offset in
        match body with
        | None => ret None
        | Some body => ret (Some (setBody body (m_data parser)))
        end
      else ret (Some (m_data parser))
  end.

(* SRC sylar/http/http_session.cpp:156-161 HttpSession::sendResponse *)
Definition sendResponse (fuel : nat) (rsp : HttpResponse) : M W Z := writeFixSize fuel (HttpResponse_toString rsp).
End HttpSession.
