(* ===== verification/HttpSessionSpec.v ===== *)
(** * HttpSessionSpec: a request gets through the connection

    [recvRequest_complete] composes the parser, the stream and the session: a request and its body,
    however the body is cut, are what [recvRequest] returns. [recvRequest_fails]: what a session does with a
    connection that ends, a text that is no request, and a query that arrives in two parts. *)

From S2P Require Import Prelude Std Http HttpParserTable HttpParser HttpParserSpec HttpParserRoundtrip.
From S2P Require Import Stream StreamSpec HttpSession.

(** ** [execute] on a part of a buffer *)

Lemma execute_take data buf n dB s s' : take (length buf) data = buf ->
  execute buf (Z.of_nat (length buf)) s = Ret (n, dB) s' ->
  execute data (Z.of_nat (length buf)) s
    = Ret (n, splice data 0 (slice data (Z.to_nat n) (Z.to_nat (Z.of_nat (length buf) - n)))) s'.
Proof.
  intros Ht. unfold execute. rewrite Nat2Z.id, Ht, firstn_all.
  intros (off & s1 & E & R)%bind_inv_Ret. injection R as -> _ ->. by rewrite (bind_Ret _ _ _ _ _ E).
Qed.

Lemma execute_take_Exn data buf e s s' : take (length buf) data = buf ->
  execute buf (Z.of_nat (length buf)) s = Exn e s' -> execute data (Z.of_nat (length buf)) s = Exn e s'.
Proof.
  intros Ht. unfold execute. rewrite Nat2Z.id, Ht, firstn_all. unfold bind, ret.
  by destruct (machine _ s).
Qed.

Lemma take_splice_0 {A} (l bs : list A) : take (length bs) (splice l 0 bs) = bs.
Proof. unfold splice. rewrite take_0. cbn [app]. by rewrite take_app_length. Qed.

Lemma drop_repeat {A} (x : A) n k : drop k (repeat x n) = repeat x (n - k).
Proof. revert k. induction n as [|n IH]; intros [|k]; cbn; [done..|]. apply IH. Qed.

Lemma nonempty_length {A} (l : list A) : (0 < length l)%nat -> l <> [].
Proof. destruct l; cbn [length]; [lia|done]. Qed.

Lemma length_splice_0 {A} (l bs : list A) : (length bs <= length l)%nat -> length (splice l 0 bs) = length l.
Proof. intros. apply length_splice. lia. Qed.

(** What was behind the request is at the front of the buffer. *)
Lemma execute_front text b1 data s dB s' : take (length (text ++ b1)) data = text ++ b1 ->
  execute (text ++ b1) (Z.of_nat (length (text ++ b1))) s = Ret (Z.of_nat (length text), dB) s' ->
  exists data', execute data (Z.of_nat (length (text ++ b1))) s = Ret (Z.of_nat (length text), data') s'
    /\ take (length b1) data' = b1.
Proof.
  intros Ht E. eexists. split; [by apply (execute_take data _ _ _ _ _ Ht E)|].
  replace (Z.to_nat (Z.of_nat (length (text ++ b1)) - Z.of_nat (length text))) with (length b1)
    by (rewrite length_app; lia).
  rewrite Nat2Z.id. assert (slice data (length text) (length b1) = b1) as ->.
  { rewrite <- (slice_take data _ _ (length (text ++ b1))) by (rewrite length_app; lia). rewrite Ht.
    unfold slice. by rewrite drop_app_length, firstn_all. }
  apply take_splice_0.
Qed.

Section Session.
Context {W : Type} `{StreamInput W} (lexical_cast : list Z -> option Z).

(** A read of a segment that fits. *)
Lemma read_segment (w : W) seg more n : readable w -> pending w = seg :: more -> 0 < n ->
  Z.of_nat (length seg) <= n ->
  exists w', stream_read n w = Ret (Z.of_nat (length seg), seg) w' /\ pending w' = more /\ readable w'.
Proof.
  intros Hr Hp Hn Hl. destruct (read_input w n Hr Hn) as (w' & E & Hp' & Hr'). rewrite Hp in E, Hp'.
  unfold first_part in E. unfold behind_first in Hp'. rewrite take_ge in E by lia.
  rewrite drop_ge in Hp' by lia. rewrite bool_decide_eq_true_2 in Hp' by done. by exists w'.
Qed.

(** One turn of the loop on a segment at the start of the buffer. *)
Lemma recv_turn fuel B (p : HttpRequestParser) data (w : W) seg more :
  readable w -> pending w = seg :: more -> seg <> [] -> 0 < B < 2 ^ 31 -> Z.of_nat (length seg) <= B ->
  Z.of_nat (length data) = B ->
  exists w', pending w' = more /\ readable w' /\
    recv_loop (S fuel) B p data 0 w
    = match execute (splice data 0 seg) (Z.of_nat (length seg)) p with
      | UB f => UB f
      | Exn e _ => Exn e w'
      | Ret (nparse, data) parser =>
          if hasError parser then (stream_close ;; ret None) w'
          else
            let offset := s32 (Z.of_nat (length seg) - nparse) in
            if offset =? s32 B then (stream_close ;; ret None) w'
            else if isFinished parser then Ret (Some (parser, data, offset)) w'
            else recv_loop fuel B parser data offset w'
      end.
Proof.
  intros Hr Hp Hne HB Hl Hd. destruct (read_segment w seg more B Hr Hp) as (w' & E & Hp' & Hr'); [lia..|].
  exists w'. split; [done|]. split; [done|]. cbn [recv_loop].
  rewrite Z.sub_0_r, (wrapu_small 64 B) by lia. erewrite bind_Ret by exact E. cbn beta iota.
  assert (0 < length seg)%nat by (destruct seg; cbn [length]; [done|lia]).
  destruct (Z.leb_spec (Z.of_nat (length seg)) 0); [lia|].
  destruct (Z.ltb_spec (Z.of_nat (length data)) (0 + Z.of_nat (length seg))); [lia|].
  rewrite Z.add_0_r. cbv zeta. change (Z.to_nat 0) with 0%nat.
  destruct (execute (splice data 0 seg) (Z.of_nat (length seg)) p) as [[n d] p'|e p'|f]; try done.
  destruct (hasError p'); [done|]. destruct (s32 (Z.of_nat (length seg) - n) =? s32 B); [done|].
  by destruct (isFinished p').
Qed.

(** The head of the request and the part [b1] of the body that came with it. *)
Lemma recv_head fuel B fresh memory (w : W) m path query frag minor hs b1 more :
  let text := request_text m path query frag minor hs in
  request_ok m path query frag hs = true -> Forall is_byte (text ++ b1) -> 0 <= query_start memory ->
  readable w -> pending w = (text ++ b1) :: more -> 0 < B < 2 ^ 31 -> Z.of_nat (length (text ++ b1)) <= B ->
  Z.of_nat (length fresh) = B ->
  exists w' p data, recv_loop (S fuel) B (new_HttpRequestParser memory) fresh 0 w
      = Ret (Some (p, data, Z.of_nat (length b1))) w'
    /\ pending w' = more /\ readable w' /\ take (length b1) data = b1
    /\ m_data p = request_of m path query frag minor hs (new_HttpRequest 17 true).
Proof.
  intros text Hok Hby Hqs Hr Hp HB Hl Hf.
  assert (0 < length text)%nat as Ht by (unfold text, request_text; rewrite !length_app; simpl; lia).
  assert (text ++ b1 <> []) as Hne by (destruct text; [cbn in Ht; lia|done]).
  destruct (parse_request_ok m path query frag minor hs b1 memory Hok Hby) as (dB & p & E & Hfin & Herr & Hd & _);
    [fold text; unfold max_len; lia|done|]. fold text in E.
  destruct (recv_turn fuel B (new_HttpRequestParser memory) fresh w _ _ Hr Hp Hne HB Hl Hf) as (w' & Hp' & Hr' & R).
  assert (take (length (text ++ b1)) (splice fresh 0 (text ++ b1)) = text ++ b1) as Hts by apply take_splice_0.
  destruct (execute_front text b1 _ _ _ _ Hts E) as (data & Ed & Htd).
  exists w', p, data. split; [|done]. rewrite R, Ed, Herr, Hfin. cbv zeta.
  rewrite length_app in *. replace (Z.of_nat (length text + length b1) - Z.of_nat (length text))
    with (Z.of_nat (length b1)) by lia.
  rewrite !(wraps_small 32) by (unfold in_s; lia).
  by destruct (Z.eqb_spec (Z.of_nat (length b1)) B); [lia|].
Qed.

(** The body from the buffer and the stream. *)
Lemma recv_body_ok fuel n data b1 (w : W) : readable w -> segments (pending w) ->
  take (length b1) data = b1 -> 0 < n < 2 ^ 31 -> (Z.to_nat n <= fuel)%nat ->
  n <= Z.of_nat (length (b1 ++ concat (pending w))) ->
  exists w', recv_body fuel n data (Z.of_nat (length b1)) w
      = Ret (Some (take (Z.to_nat n) (b1 ++ concat (pending w)))) w'
    /\ concat (pending w') = drop (Z.to_nat n - length b1) (concat (pending w))
    /\ (n <= Z.of_nat (length b1) -> w' = w).
Proof.
  intros Hr Hs Ht Hn Hf Ha. unfold recv_body.
  destruct (Z.ltb_spec string_max_size n) as [L|_]; [unfold string_max_size in L; lia|]. cbv zeta.
  rewrite length_app in Ha.
  destruct (Z.leb_spec (Z.of_nat (length b1)) n) as [Hle|Hgt].
  - rewrite Nat2Z.id, Ht. set (body := splice (repeat 0 (Z.to_nat n)) 0 b1).
    assert (body = b1 ++ repeat 0 (Z.to_nat n - length b1)) as Eb.
    { unfold body, splice. rewrite take_0. cbn [app]. f_equal. rewrite Nat.add_0_l. apply drop_repeat. }
    destruct (Z.ltb_spec 0 (n - Z.of_nat (length b1))) as [Hlt|Hge].
    + rewrite (wrapu_small 64) by lia. rewrite Eb, drop_app_length, take_app_length.
      destruct (readFixSize_ok fuel (n - Z.of_nat (length b1)) (repeat 0 (Z.to_nat n - length b1)) w Hr Hs)
        as (w' & E & Hp & _ & _); [lia|rewrite repeat_length; lia|lia|lia|].
      exists w'. rewrite E. rewrite (wraps_small 32) by (unfold in_s; lia).
      destruct (Z.leb_spec (n - Z.of_nat (length b1)) 0); [lia|].
      replace (Z.to_nat (n - Z.of_nat (length b1))) with (Z.to_nat n - length b1)%nat in * by lia.
      split; [|split; [done|lia]]. unfold ret. do 2 f_equal. rewrite (drop_ge (repeat _ _)) by (rewrite repeat_length; lia).
      rewrite app_nil_r. rewrite take_app, (take_ge b1) by lia. done.
    + exists w. rewrite Eb. clear Eb. clearbody body. assert (Z.to_nat n = length b1) as -> by lia.
      rewrite Nat.sub_diag. cbn [repeat]. split; [|by split].
      unfold ret. rewrite app_nil_r. by rewrite take_app_length.
  - destruct (Z.ltb_spec 0 (n - Z.of_nat (length b1))); [lia|]. exists w.
    replace (Z.to_nat n - length b1)%nat with 0%nat by lia. split; [|by split]. unfold ret. do 2 f_equal.
    rewrite take_app_le by lia. assert (take (Z.to_nat n) data = take (Z.to_nat n) b1) as ->.
    { rewrite <- Ht, take_take. f_equal. lia. }
    unfold splice. rewrite take_0. cbn [app]. rewrite drop_ge, app_nil_r; [done|].
    rewrite repeat_length, length_take. lia.
Qed.

(** The connection ends within the body. *)
Lemma recv_body_short fuel n data b1 (w : W) : readable w -> segments (pending w) ->
  take (length b1) data = b1 -> 0 < n < 2 ^ 31 -> Z.of_nat (length (b1 ++ concat (pending w))) < n ->
  recv_body fuel n data (Z.of_nat (length b1)) w = UB OutOfFuel.
Proof.
  intros Hr Hs Ht Hn Ha. unfold recv_body. rewrite length_app in Ha.
  destruct (Z.ltb_spec string_max_size n) as [L|_]; [unfold string_max_size in L; lia|]. cbv zeta.
  destruct (Z.leb_spec (Z.of_nat (length b1)) n); [|lia].
  destruct (Z.ltb_spec 0 (n - Z.of_nat (length b1))); [|lia].
  unfold readFixSize. rewrite (wrapu_small 64) by lia. rewrite readFixSize_loop_short; try (done || lia).
  rewrite length_drop, length_splice; rewrite ?repeat_length, ?length_take; lia.
Qed.
End Session.

Section Requests.
Context {W : Type} `{StreamInput W} (lexical_cast : list Z -> option Z).

(** The length of the body, from the headers of the request. *)
Definition body_length (r : HttpRequest) : Z := s64 (getAs lexical_cast (m_headers r) (str "content-length") 0).

(** C5: a client sends the text of a request, with the first part [b1] of what follows it in the same segment, and more in any
    segments. [recvRequest] gives the request of the text, with a body of Content-Length bytes from what
    follows, however it is cut, and leaves the rest of the input; but of [b1] what is behind the body is lost.
    When the connection ends before the body does, it never returns. *)
Theorem recvRequest_complete fuel B fresh memory (w : W) m path query frag minor hs b1 more :
  let text := request_text m path query frag minor hs in
  let req := request_of m path query frag minor hs (new_HttpRequest 17 true) in
  let input := b1 ++ concat more in
  let n := body_length req in
  request_ok m path query frag hs = true -> Forall is_byte (text ++ b1) -> 0 <= query_start memory ->
  readable w -> pending w = (text ++ b1) :: more -> segments more ->
  0 < B < 2 ^ 31 -> Z.of_nat (length (text ++ b1)) <= B -> Z.of_nat (length fresh) = B ->
  n < 2 ^ 31 ->
  (n <= 0 -> exists w', recvRequest lexical_cast (S fuel) B fresh memory w = Ret (Some req) w' /\ pending w' = more)
  /\ (0 < n <= Z.of_nat (length input) -> (Z.to_nat n <= S fuel)%nat ->
      exists w', recvRequest lexical_cast (S fuel) B fresh memory w
          = Ret (Some (setBody (take (Z.to_nat n) input) req)) w'
        /\ concat (pending w') = drop (Z.to_nat n - length b1) (concat more)
        /\ (n <= Z.of_nat (length b1) -> pending w' = more))
  /\ (0 < n -> Z.of_nat (length input) < n -> recvRequest lexical_cast (S fuel) B fresh memory w = UB OutOfFuel).
Proof.
  intros text req input n Hok Hby Hqs Hr Hp Hs HB Hl Hf Hn.
  destruct (recv_head fuel B fresh memory w m path query frag minor hs b1 more)
    as (w1 & p & data & E & Hp1 & Hr1 & Ht & Hd); [done..|]. fold req in Hd.
  assert (s64 (getContentLength lexical_cast p) = n) as En by (unfold getContentLength; by rewrite Hd).
  unfold recvRequest. rewrite (bind_Ret _ _ _ _ _ E). cbv zeta. rewrite En, Hd.
  rewrite <- Hp1 in Hs. split; [|split].
  - intros Hle. exists w1. by destruct (Z.ltb_spec 0 n); [lia|].
  - intros [Hpos Ha] Hfu. destruct (Z.ltb_spec 0 n); [|lia]. unfold input in Ha |- *. rewrite <- Hp1 in Ha |- *.
    destruct (recv_body_ok (S fuel) n data b1 w1) as (w' & Eb & Hpb & Hw); [done..|lia|done|done|].
    exists w'. rewrite (bind_Ret _ _ _ _ _ Eb). split; [done|]. split; [done|]. intros Hle. by rewrite (Hw Hle).
  - intros Hpos Ha. destruct (Z.ltb_spec 0 n); [|lia]. unfold input in Ha. rewrite <- Hp1 in Ha.
    by rewrite (bind_UB _ _ _ _ (recv_body_short (S fuel) n data b1 w1 Hr1 Hs Ht ltac:(lia) Ha)).
Qed.

(** a session whose input is at its end is closed and gives no request; so is one whose first segment is rejected by
    the parser. A query that arrives in two segments makes the parser throw, and the
    exception leaves the session, which is not closed. *)
Theorem recvRequest_fails fuel B fresh memory (w : W) seg more :
  readable w -> 0 < B < 2 ^ 31 -> Z.of_nat (length fresh) = B -> 0 <= query_start memory ->
  (pending w = [] -> exists w', recvRequest lexical_cast (S fuel) B fresh memory w = (stream_close ;; ret None) w')
  /\ (pending w = seg :: more -> seg <> [] -> Z.of_nat (length seg) <= B ->
      (exists n d p, execute seg (Z.of_nat (length seg)) (new_HttpRequestParser memory) = Ret (n, d) p /\ hasError p = true) ->
      exists w', recvRequest lexical_cast (S fuel) B fresh memory w = (stream_close ;; ret None) w' /\ pending w' = more)
  /\ (forall u v, pending w = [str "GET /?" ++ u; v ++ str " HTTP/1.1" ++ crlf ++ crlf] ->
      Forall is_byte (u ++ v) -> u <> [] -> pct_text is_query_char u = true -> pct_text is_query_char v = true ->
      (length v < 6)%nat -> Z.of_nat (length u) + 64 <= B ->
      exists w', recvRequest lexical_cast (S (S fuel)) B fresh memory w = Exn length_error w' /\ pending w' = []).
Proof.
  intros Hr HB Hf Hqs. unfold recvRequest. split; [|split].
  - intros Hp. destruct (read_input w B Hr) as (w' & E & _); [lia|]. exists w'.
    unfold bind at 1. cbn [recv_loop]. rewrite Z.sub_0_r, (wrapu_small 64 B) by lia. rewrite (bind_Ret _ _ _ _ _ E).
    rewrite Hp. cbn [first_part length]. destruct (Z.leb_spec (Z.of_nat 0) 0); [|lia].
    unfold bind. by destruct (stream_close w').
  - intros Hp Hne Hl (n & d & p & E & He).
    destruct (recv_turn fuel B (new_HttpRequestParser memory) fresh w seg more) as (w' & Hp' & Hr' & R); try done.
    exists w'. split; [|done]. unfold bind at 1. rewrite R.
    rewrite (execute_take _ _ _ _ _ _ (take_splice_0 fresh seg) E), He. unfold bind. by destruct (stream_close w').
  - intros u v Hp Hby Hne Hu Hv Hlv Hlu. set (b1 := str "GET /?" ++ u) in *.
    set (b2 := v ++ str " HTTP/1.1" ++ crlf ++ crlf) in *.
    assert (length b1 = 6 + length u)%nat as L1 by (unfold b1; by rewrite length_app).
    assert (length b2 = length v + 13)%nat as L2 by (unfold b2; by rewrite length_app).
    destruct (query_split_throws u v memory Hby Hne Hu Hv Hlv) as (d1 & s1 & s2 & E1 & He1 & Hf1 & E2 & _);
      [fold b1 b2; rewrite length_app; unfold max_len; lia|done|]. fold b1 b2 in E1, E2.
    destruct (recv_turn (S fuel) B (new_HttpRequestParser memory) fresh w b1 [b2]) as (w1 & Hp1 & Hr1 & R1);
      try first [done|lia|apply nonempty_length; lia].
    apply (execute_take (splice fresh 0 b1)) in E1; [|apply take_splice_0].
    rewrite E1, He1, Hf1, Z.sub_diag in R1. cbv zeta in R1. rewrite (wraps_small 32 B) in R1 by (unfold in_s; lia).
    change (s32 0) with 0 in R1. destruct (Z.eqb_spec 0 B); [lia|].
    set (data := splice (splice fresh 0 b1) 0 _) in R1.
    assert (length data = length fresh) as Ld.
    { unfold data. change (Z.to_nat 0) with 0%nat. rewrite slice_0, splice_nil.
      apply length_splice_0. lia. }
    destruct (recv_turn fuel B s1 data w1 b2 []) as (w2 & Hp2 & Hr2 & R2);
      try first [done|lia|apply nonempty_length; lia].
    apply (execute_take_Exn (splice data 0 b2)) in E2; [|apply take_splice_0]. rewrite E2 in R2.
    exists w2. split; [|done]. unfold bind at 1. by rewrite R1, R2.
Qed.
End Requests.

(** ** A connection to try them on *)

Definition demo_cast (l : list Z) : option Z :=
  if forallb is_digit l && negb (bool_decide (l = [])) then Some (digits_value l) else None.
Definition demo_lines : list line := [mkLine (str "Content-Length") [32] (str "3")].
Definition demo_text : list Z := request_text POST (str "/up") None None true demo_lines.
Definition demo_request : HttpRequest := request_of POST (str "/up") None None true demo_lines (new_HttpRequest 17 true).
Definition demo_buffer : list Z := repeat 0 256.
Definition demo_world (segs : list (list Z)) : SocketStream * Feed := (feed_stream, mkFeed segs []).

(** The body "abc" comes half with the head and half with the start of something else. *)
Lemma recvRequest_complete_witness :
  exists w', @recvRequest _ (@SocketStream_Stream Feed _) demo_cast 3 256 demo_buffer no_memory
      (demo_world [demo_text ++ str "a"; str "b"; str "cxyz"])
    = Ret (Some (setBody (str "abc") demo_request)) w'.
Proof.
  destruct (proj1 (proj2 (@recvRequest_complete _ _ (@SocketStream_StreamInput Feed _ _) demo_cast 2 256 demo_buffer no_memory
    (demo_world [demo_text ++ str "a"; str "b"; str "cxyz"]) POST (str "/up") None None true demo_lines (str "a")
    [str "b"; str "cxyz"] ltac:(by vm_compute) ltac:(apply (bool_decide_unpack _); vm_compute; exact I) ltac:(discriminate)
    eq_refl eq_refl ltac:(unfold segments; apply (bool_decide_unpack _); vm_compute; exact I)
    ltac:(by vm_compute) ltac:(vm_compute; discriminate) ltac:(by vm_compute) ltac:(by vm_compute)))
    ltac:(by vm_compute)) as (w' & E & _); [vm_compute; apply le_n|].
  exists w'. rewrite E. vm_compute. reflexivity.
Defined.

(** "GET /?id=1" and "2 HTTP/1.1" in two segments. *)
Lemma recvRequest_fails_witness :
  exists w', @recvRequest _ (@SocketStream_Stream Feed _) demo_cast 2 256 demo_buffer no_memory
      (demo_world [str "GET /?" ++ str "id=1"; str "2" ++ str " HTTP/1.1" ++ crlf ++ crlf])
    = Exn length_error w'.
Proof.
  destruct (proj2 (proj2 (@recvRequest_fails _ _ (@SocketStream_StreamInput Feed _ _) demo_cast 0 256 demo_buffer no_memory
    (demo_world [str "GET /?" ++ str "id=1"; str "2" ++ str " HTTP/1.1" ++ crlf ++ crlf]) [] []
    eq_refl ltac:(by vm_compute) ltac:(by vm_compute) ltac:(discriminate)))
    (str "id=1") (str "2") eq_refl ltac:(apply (bool_decide_unpack _); vm_compute; exact I) ltac:(discriminate)
    ltac:(by vm_compute) ltac:(by vm_compute)) as (w' & E & _); [vm_compute; lia|vm_compute; discriminate|].
  exists w'. exact E.
Defined.
