(* ===== verification/Servlet.v ===== *)
(** * Servlet: [sylar/http/servlet.h] and [servlet.cpp]

    Servlets are objects behind shared pointers: the [World] has them in a heap, with the request and the response
    that are being handled. A dispatcher is a servlet that finds another for a path. What a function does is [call];
    [fnmatch] is the C library's, on texts up to their NUL. Each operation of a dispatcher is one step: it holds
    the lock from its first line to its end. *)

From S2P Require Import Prelude Std Http.

(** [Servlet::ptr]: an address, or [nullptr]. *)
Notation servlet_ptr := (option Z).

(* SRC sylar/http/servlet.h:88-96 ServletDispatch *)
Record Dispatch := mkDispatch {
  m_datas : gmap (list Z) servlet_ptr;
  m_globs : list (list Z * servlet_ptr);
  m_default : servlet_ptr
}.

(** The classes. [OtherServlet] is a subclass of a user, known by its function. *)
(* SRC sylar/http/servlet.h:16-31 Servlet *)
Inductive Servlet :=
  | FunctionServlet (m_cb : Z)
  | NotFoundServlet (m_name m_content : list Z)
  | ServletDispatch (d : Dispatch)
  | OtherServlet (name : list Z) (handle : Z).

(* SRC sylar/http/servlet.h:28-28 Servlet::getName *)
Definition getName (s : Servlet) : list Z :=
  match s with
  | FunctionServlet _ => str "FunctionServlet"
  | NotFoundServlet _ _ => str "NotFoundServlet"
  | ServletDispatch _ => str "ServletDispatch"
  | OtherServlet name _ => name
  end.

Record World (X : Type) := mkWorld {
  servlets : gmap Z Servlet;
  next_servlet : Z;
  request : HttpRequest;
  response : HttpResponse;
  user : X
}.
Arguments mkWorld {X}.
Arguments servlets {X}.
Arguments next_servlet {X}.
Arguments request {X}.
Arguments response {X}.
Arguments user {X}.

(** ** Operations on a dispatcher *)

Definition set_datas v d := mkDispatch v (m_globs d) (m_default d).
Definition set_globs v d := mkDispatch (m_datas d) v (m_default d).

(* SRC sylar/http/servlet.cpp:33-36 ServletDispatch::addServlet *)
Definition addServlet (uri : list Z) (slt : servlet_ptr) (d : Dispatch) : Dispatch :=
  set_datas (<[uri := slt]> (m_datas d)) d.

(** The first pair with the name is erased. *)
(* SRC sylar/http/servlet.cpp:65-70 ServletDispatch::delGlobServlet *)
Fixpoint erase_glob (uri : list Z) (globs : list (list Z * servlet_ptr)) : list (list Z * servlet_ptr) :=
  match globs with
  | [] => []
  | it :: globs => if bool_decide (it.1 = uri) then globs else it :: erase_glob uri globs
  end.

(* SRC sylar/http/servlet.cpp:43-52 ServletDispatch::addGlobServlet *)
Definition addGlobServlet (uri : list Z) (slt : servlet_ptr) (d : Dispatch) : Dispatch :=
  set_globs (erase_glob uri (m_globs d) ++ [(uri, slt)]) d.

(* SRC sylar/http/servlet.cpp:58-61 ServletDispatch::delServlet *)
Definition delServlet (uri : list Z) (d : Dispatch) : Dispatch := set_datas (delete uri (m_datas d)) d.

(* SRC sylar/http/servlet.cpp:63-71 ServletDispatch::delGlobServlet *)
Definition delGlobServlet (uri : list Z) (d : Dispatch) : Dispatch := set_globs (erase_glob uri (m_globs d)) d.

(* SRC sylar/http/servlet.h:77-77 ServletDispatch::setDefault *)
Definition setDefault (v : servlet_ptr) (d : Dispatch) : Dispatch := mkDispatch (m_datas d) (m_globs d) v.

(* SRC sylar/http/servlet.h:75-75 ServletDispatch::getDefault *)
Definition getDefault (d : Dispatch) : servlet_ptr := m_default d.

(* SRC sylar/http/servlet.cpp:73-77 ServletDispatch::getServlet *)
Definition getServlet (uri : list Z) (d : Dispatch) : servlet_ptr :=
  match m_datas d !! uri with None => None | Some slt => slt end.

(** The first pair of [m_globs] with a property. *)
Fixpoint find_glob (P : list Z -> bool) (globs : list (list Z * servlet_ptr)) : option servlet_ptr :=
  match globs with
  | [] => None
  | it :: globs => if P it.1 then Some it.2 else find_glob P globs
  end.

(* SRC sylar/http/servlet.cpp:79-87 ServletDispatch::getGlobServlet *)
Definition getGlobServlet (uri : list Z) (d : Dispatch) : servlet_ptr :=
  match find_glob (fun pattern => bool_decide (pattern = uri)) (m_globs d) with
  | Some slt => slt
  | None => None
  end.

Section Match.
(** [fnmatch(pattern, string, 0)], 0 where it matches. *)
Context (fnmatch : list Z -> list Z -> Z).

(* SRC sylar/http/servlet.cpp:89-101 ServletDispatch::getMatchedServlet *)
Definition getMatchedServlet (uri : list Z) (d : Dispatch) : servlet_ptr :=
  match m_datas d !! uri with
  | Some slt => slt
  | None =>
      match find_glob (fun pattern => fnmatch (c_str pattern) (c_str uri) =? 0) (m_globs d) with
      | Some slt => slt
      | None => m_default d
      end
  end.

(** ** The objects *)

Context {X : Type} (call : Z -> M (World X) Z).
Notation MW := (M (World X)).

Definition new_servlet (s : Servlet) : MW Z := fun w =>
  Ret (next_servlet w)
    (mkWorld (<[next_servlet w := s]> (servlets w)) (next_servlet w + 1) (request w) (response w) (user w)).
Definition upd_response (f : HttpResponse -> HttpResponse) : MW unit :=
  modify (fun w => mkWorld (servlets w) (next_servlet w) (request w) (f (response w)) (user w)).

(* SRC sylar/http/servlet.cpp:103-109 NotFoundServlet::NotFoundServlet *)
Definition new_NotFoundServlet (name : list Z) : Servlet :=
  NotFoundServlet name
    (str "<html><head><title>404 Not Found</title></head><body><center><h1>404 Not Found</h1></center><hr><center>"
     ++ name ++ str "</center></body></html>").

(* SRC sylar/http/servlet.cpp:18-21 ServletDispatch::ServletDispatch *)
Definition new_ServletDispatch : MW Z :=
  let! slt := new_servlet (new_NotFoundServlet (str "NotFoundServlet")) in
  new_servlet (ServletDispatch (mkDispatch ∅ [] (Some slt))).

(** A method of the dispatcher at an address. *)
Definition on_dispatch (this : Z) (f : Dispatch -> Dispatch) : MW unit := fun w =>
  match servlets w !! this with
  | Some (ServletDispatch d) =>
      Ret tt (mkWorld (<[this := ServletDispatch (f d)]> (servlets w)) (next_servlet w) (request w) (response w) (user w))
  | _ => UB NullDeref
  end.

(* SRC sylar/http/servlet.cpp:38-41 ServletDispatch::addServlet *)
Definition addServlet_cb (this : Z) (uri : list Z) (cb : Z) : MW unit :=
  let! slt := new_servlet (FunctionServlet cb) in on_dispatch this (addServlet uri (Some slt)).

(* SRC sylar/http/servlet.cpp:54-56 ServletDispatch::addGlobServlet *)
Definition addGlobServlet_cb (this : Z) (uri : list Z) (cb : Z) : MW unit :=
  let! slt := new_servlet (FunctionServlet cb) in on_dispatch this (addGlobServlet uri (Some slt)).

(* SRC sylar/http/servlet.cpp:12-16 FunctionServlet::handle *)
Definition FunctionServlet_handle (cb : Z) : MW Z := call cb.

(* SRC sylar/http/servlet.cpp:111-120 NotFoundServlet::handle *)
Definition NotFoundServlet_handle (content : list Z) : MW Z :=
  upd_response (rsp_setStatus 404) ;;
  upd_response (rsp_setHeader (str "Server") (str "sylar/1.0.0")) ;;
  upd_response (rsp_setHeader (str "Content-Type") (str "text/html")) ;;
  upd_response (rsp_setBody content) ;;
  ret 0.

(** The virtual [handle]. A dispatcher that finds itself, or one that leads back to it, recurses without end. *)
(* SRC sylar/http/servlet.cpp:23-31 ServletDispatch::handle *)
Fixpoint handle (fuel : nat) (slt : Z) : MW Z :=
  match fuel with
  | O => fail_with OutOfFuel
  | S fuel =>
      let! w := get in
      match servlets w !! slt with
      | None => fail_with NullDeref
      | Some (FunctionServlet cb) => FunctionServlet_handle cb
      | Some (OtherServlet _ h) => call h
      | Some (NotFoundServlet _ content) => NotFoundServlet_handle content
      | Some (ServletDispatch d) =>
          (match getMatchedServlet (m_path (request w)) d with
           | Some slt => handle fuel slt ;; ret tt
           | None => ret tt
           end) ;;
          ret 0
      end
  end.
End Match.
