(* ===== verification/ServletSpec.v ===== *)
(** * ServletSpec: where a dispatcher sends a path

    [dispatch_log]: what a dispatcher has registered is read off the log of its operations: the last
    one on a name counts, and the patterns are in the order of their last registrations.
    [dispatch_handle]: what handling a request with it does. *)

From S2P Require Import Prelude Std Http Servlet.

(** The operations of a dispatcher that change it. *)
Inductive DispatchOp :=
  | Add (uri : list Z) (slt : servlet_ptr) | Del (uri : list Z)
  | AddGlob (uri : list Z) (slt : servlet_ptr) | DelGlob (uri : list Z)
  | SetDefault (slt : servlet_ptr).

Definition apply_op (d : Dispatch) (o : DispatchOp) : Dispatch :=
  match o with
  | Add uri slt => addServlet uri slt d
  | Del uri => delServlet uri d
  | AddGlob uri slt => addGlobServlet uri slt d
  | DelGlob uri => delGlobServlet uri d
  | SetDefault slt => setDefault slt d
  end.

(** ** The log *)

(** What the log says of a name: [Some] when its last word registers it. *)
Fixpoint logged (uri : list Z) (ops : list DispatchOp) (so_far : option servlet_ptr) : option servlet_ptr :=
  match ops with
  | [] => so_far
  | Add u slt :: ops => logged uri ops (if bool_decide (u = uri) then Some slt else so_far)
  | Del u :: ops => logged uri ops (if bool_decide (u = uri) then None else so_far)
  | _ :: ops => logged uri ops so_far
  end.

Definition mentions (uri : list Z) (o : DispatchOp) : bool :=
  match o with AddGlob u _ | DelGlob u => bool_decide (u = uri) | _ => false end.

(** The registrations of patterns that nothing later in the log is about. *)
Fixpoint logged_globs (ops : list DispatchOp) : list (list Z * servlet_ptr) :=
  match ops with
  | [] => []
  | AddGlob u slt :: ops => (if existsb (mentions u) ops then [] else [(u, slt)]) ++ logged_globs ops
  | _ :: ops => logged_globs ops
  end.

Fixpoint logged_default (ops : list DispatchOp) (so_far : servlet_ptr) : servlet_ptr :=
  match ops with
  | [] => so_far
  | SetDefault slt :: ops => logged_default ops slt
  | _ :: ops => logged_default ops so_far
  end.

Lemma logged_datas ops d uri : m_datas (foldl apply_op d ops) !! uri = logged uri ops (m_datas d !! uri).
Proof.
  revert d. induction ops as [|o ops IH]; intros d; [done|]. cbn [foldl]. rewrite IH.
  destruct o as [u slt|u|u slt|u|slt]; cbn; try done.
  - case_bool_decide as E; [by rewrite E, lookup_insert_eq|by rewrite lookup_insert_ne].
  - case_bool_decide as E; [by rewrite E, lookup_delete_eq|by rewrite lookup_delete_ne].
Qed.

Lemma logged_m_default ops d : m_default (foldl apply_op d ops) = logged_default ops (m_default d).
Proof. revert d. induction ops as [|o ops IH]; intros d; [done|]. cbn [foldl]. rewrite IH. by destruct o. Qed.

(** What a later operation leaves of a list of patterns. *)
Definition others (uri : list Z) (l : list (list Z * servlet_ptr)) : list (list Z * servlet_ptr) :=
  List.filter (fun it => negb (bool_decide (it.1 = uri))) l.

Lemma others_absent uri l : uri ∉ map fst l -> others uri l = l.
Proof.
  induction l as [|[u s] l IH]; intros Hn; [done|]. cbn in *. apply not_elem_of_cons in Hn as [H1 H2].
  rewrite bool_decide_eq_false_2 by done. cbn. f_equal. by apply IH.
Qed.

Lemma erase_others uri l : NoDup (map fst l) -> erase_glob uri l = others uri l.
Proof.
  induction l as [|[u s] l IH]; intros Hd; [done|]. cbn in *. apply list.NoDup_cons in Hd as [H1 H2].
  case_bool_decide as E; cbn; [subst u; symmetry; by apply others_absent|f_equal; by apply IH].
Qed.

Lemma logged_globs_app ops o :
  logged_globs (ops ++ [o])
  = match o with
    | AddGlob u slt => others u (logged_globs ops) ++ [(u, slt)]
    | DelGlob u => others u (logged_globs ops)
    | _ => logged_globs ops
    end.
Proof.
  induction ops as [|p ops IH]; [by destruct o|]. cbn [app logged_globs].
  destruct p; try exact IH. rewrite existsb_app, IH. cbn [existsb].
  destruct (existsb (mentions uri) ops) eqn:E; cbn [orb app].
  - done.
  - destruct o as [u s|u|u s|u|s]; cbn [mentions]; try done; unfold others; cbn [List.filter fst];
      rewrite (bool_decide_ext (u = uri) (uri = u)) by done; by case_bool_decide.
Qed.

Lemma others_names uri l : map fst (others uri l) = List.filter (fun u => negb (bool_decide (u = uri))) (map fst l).
Proof. induction l as [|[u s] l IH]; [done|]. cbn. case_bool_decide; cbn; [done|by f_equal]. Qed.

Lemma others_elem uri l u : u ∈ map fst (others uri l) <-> u <> uri /\ u ∈ map fst l.
Proof.
  rewrite others_names. rewrite !list_elem_of_In, List.filter_In, negb_true_iff, bool_decide_eq_false. naive_solver.
Qed.

Lemma others_NoDup uri l : NoDup (map fst l) -> NoDup (map fst (others uri l)).
Proof. rewrite others_names, !NoDup_ListNoDup. apply List.NoDup_filter. Qed.

Lemma dispatch_globs ops slt : m_globs (foldl apply_op (mkDispatch ∅ [] slt) ops) = logged_globs ops
  /\ NoDup (map fst (logged_globs ops)).
Proof.
  induction ops as [|o ops [IH1 IH2]] using rev_ind; [by split; [|constructor]|].
  rewrite foldl_app, logged_globs_app. cbn [foldl]. set (d := foldl _ _ ops) in *.
  destruct o as [u s|u|u s|u|s]; cbn; rewrite ?IH1, ?erase_others by done; split; try done; [|by apply others_NoDup].
  rewrite map_app, list.NoDup_app. split; [by apply others_NoDup|]. cbn. split; [|by repeat constructor; set_solver].
  intros v Hv ->%list_elem_of_singleton. by apply others_elem in Hv as [? _].
Qed.

(** C28: after any operations on a new dispatcher, the servlet of an exact path is the one the last operation on that path
    registered, none if that was a removal; the patterns are those not removed since, each once, in the order
    of their last registration; and a path goes to its exact servlet, else to the first of those
    patterns that matches it, else to the last default set. *)
Theorem dispatch_log (fnmatch : list Z -> list Z -> Z) (ops : list DispatchOp) (slt : servlet_ptr) (uri : list Z) :
  let d := foldl apply_op (mkDispatch ∅ [] slt) ops in
  getServlet uri d = default None (logged uri ops None)
  /\ m_globs d = logged_globs ops /\ NoDup (map fst (m_globs d))
  /\ getMatchedServlet fnmatch uri d
     = match logged uri ops None with
       | Some s => s
       | None =>
           default (logged_default ops slt)
             ((fun found => found.2.2) <$> list_find (fun it => fnmatch (c_str it.1) (c_str uri) = 0) (logged_globs ops))
       end.
Proof.
  intros d. destruct (dispatch_globs ops slt) as [Hg Hn]. fold d in Hg.
  unfold getServlet, getMatchedServlet. unfold d at 1 4. rewrite logged_datas. cbn [m_datas]. rewrite lookup_empty.
  split; [by destruct (logged uri ops None)|]. split; [done|]. split; [by rewrite Hg|].
  destruct (logged uri ops None); [done|]. rewrite Hg. unfold d. rewrite logged_m_default. cbn [m_default].
  assert (forall l, find_glob (fun pattern => fnmatch (c_str pattern) (c_str uri) =? 0) l
    = (fun found => found.2.2) <$> list_find (fun it : list Z * servlet_ptr => fnmatch (c_str it.1) (c_str uri) = 0) l) as ->.
  { induction l as [|[u s] l IH]; [done|]. cbn. destruct (Z.eqb_spec (fnmatch (c_str u) (c_str uri)) 0).
    - by rewrite decide_True.
    - rewrite decide_False by done. rewrite IH.
      by destruct (list_find (fun it : list Z * servlet_ptr => fnmatch (c_str it.1) (c_str uri) = 0) l) as [[? ?]|]. }
  by destruct (list_find _ _) as [[? ?]|].
Qed.

Lemma dispatch_log_witness :
  let d := foldl apply_op (mkDispatch ∅ [] (Some 1))
    [AddGlob (str "/a/*") (Some 2); AddGlob (str "/*") (Some 3); AddGlob (str "/a/*") (Some 4); Add (str "/x") (Some 5)] in
  getMatchedServlet (fun _ _ => 0) (str "/a/b") d = Some 3 /\ getServlet (str "/x") d = Some 5.
Proof.
  intros d. destruct (dispatch_log (fun _ _ => 0)
    [AddGlob (str "/a/*") (Some 2); AddGlob (str "/*") (Some 3); AddGlob (str "/a/*") (Some 4); Add (str "/x") (Some 5)]
    (Some 1) (str "/a/b")) as (_ & _ & _ & E).
  destruct (dispatch_log (fun _ _ => 0)
    [AddGlob (str "/a/*") (Some 2); AddGlob (str "/*") (Some 3); AddGlob (str "/a/*") (Some 4); Add (str "/x") (Some 5)]
    (Some 1) (str "/x")) as (E2 & _).
  split; [exact E|exact E2].
Defined.

(** ** Handling a request *)

Section Handle.
Context (fnmatch : list Z -> list Z -> Z) {X : Type} (call : Z -> M (World X) Z).

Definition with_response (r : HttpResponse) (w : World X) : World X :=
  mkWorld (servlets w) (next_servlet w) (request w) r (user w).

(** The page of the default servlet. *)
Definition not_found (content : list Z) (r : HttpResponse) : HttpResponse :=
  rsp_setBody content (rsp_setHeader (str "Content-Type") (str "text/html")
    (rsp_setHeader (str "Server") (str "sylar/1.0.0") (rsp_setStatus 404 r))).

(** a dispatcher hands the request to the servlet of its path and answers 0 whatever that says: a function is
    called; without one, the not-found servlet sets status 404, the two headers and its page, and
    nothing else; a null servlet leaves the response as it is; an exception goes through; and a dispatcher that a path leads
    back to itself never ends. *)
Theorem dispatch_handle fuel this d (w : World X) : servlets w !! this = Some (ServletDispatch d) ->
  let path := m_path (request w) in
  (getMatchedServlet fnmatch path d = None -> handle fnmatch call (S fuel) this w = Ret 0 w)
  /\ (forall slt name content, getMatchedServlet fnmatch path d = Some slt ->
       servlets w !! slt = Some (NotFoundServlet name content) ->
       handle fnmatch call (S (S fuel)) this w = Ret 0 (with_response (not_found content (response w)) w))
  /\ (forall slt cb, getMatchedServlet fnmatch path d = Some slt -> servlets w !! slt = Some (FunctionServlet cb) ->
       handle fnmatch call (S (S fuel)) this w
       = match call cb w with Ret _ w' => Ret 0 w' | Exn e w' => Exn e w' | UB f => UB f end)
  /\ (getMatchedServlet fnmatch path d = Some this -> handle fnmatch call fuel this w = UB OutOfFuel).
Proof.
  intros Hd path. assert (forall n, handle fnmatch call (S n) this w
    = ((match getMatchedServlet fnmatch path d with
        | Some slt => handle fnmatch call n slt ;; ret tt
        | None => ret tt
        end) ;; ret 0) w) as R.
  { intros n. cbn [handle]. unfold bind at 1, get. by rewrite Hd. }
  split; [|split; [|split]].
  - intros E. by rewrite R, E.
  - intros slt name content E Es. rewrite R, E. unfold bind at 1 2. cbn [handle]. unfold bind at 1, get. by rewrite Es.
  - intros slt cb E Es. rewrite R, E. unfold bind at 1 2. cbn [handle]. unfold bind at 1, get. rewrite Es.
    unfold FunctionServlet_handle. by destruct (call cb w).
  - intros E. induction fuel as [|fuel IH]; [done|]. rewrite R, E. unfold bind at 1 2. by rewrite IH.
Qed.
End Handle.

(** A dispatcher with nothing registered. *)
Definition demo_servlets (X : Type) (x : X) : World X :=
  match new_ServletDispatch (mkWorld ∅ 1 (new_HttpRequest 17 true) (new_HttpResponse 17 true) x) with
  | Ret _ w => w
  | _ => mkWorld ∅ 1 (new_HttpRequest 17 true) (new_HttpResponse 17 true) x
  end.

Lemma dispatch_handle_witness :
  let w := demo_servlets unit tt in
  exists d c, servlets w !! 2 = Some (ServletDispatch d)
    /\ handle (fun _ _ => 1) (fun _ => ret 0) 2 2 w = Ret 0 (with_response (not_found c (response w)) w).
Proof.
  intros w. eexists _, _. split; [vm_compute; reflexivity|].
  refine (proj1 (proj2 (dispatch_handle (fun _ _ => 1) (fun _ => ret 0) 0 2 _ w _)) 1 _ _ _ _); vm_compute; reflexivity.
Defined.
