(* ===== verification/HttpServer.v ===== *)
(** * HttpServer: [sylar/tcp_server.h], [tcp_server.cpp], [http/http_server.h] and [http_server.cpp]

    A server's sockets are shared with the tasks it schedules, so they are in a heap; the two [IOManager]s are the
    queues of the tasks given to them, which [Scheduler] runs. A socket goes when the server drops it and no accept
    task has it. [others] is what other threads and fibers do to the world while an [accept] waits, and
    [tv_addr] the address of the local variable of [Socket::setRecvTimeout]. Handling a client acts on its session
    and on the servlets: the world of [Servlet] around the stream. *)

From S2P Require Import Prelude Std Endian Http HttpParser Address Socket Stream HttpSession Servlet.

(** ** [TcpServer] *)

(** What the servers schedule, by the handle of the socket it is about. *)
Inductive Task := TaskStartAccept (sock : Z) | TaskHandleClient (client : Z) | TaskStop.

(* SRC sylar/tcp_server.h:45-54 TcpServer *)
Record TcpServer := mkTcpServer {
  m_socks : list Z;
  m_recvTimeout : Z;
  m_name : list Z;
  m_isStop : bool
}.

Record ServerWorld (K : Type) := mkServerWorld {
  server : TcpServer;
  sockets : gmap Z Socket;
  next_socket : Z;
  worker : list Task;
  accept_worker : list Task;
  accepting : list Z;
  net : K
}.
Arguments mkServerWorld {K}.
Arguments server {K}.
Arguments sockets {K}.
Arguments next_socket {K}.
Arguments worker {K}.
Arguments accept_worker {K}.
Arguments accepting {K}.
Arguments net {K}.

(** The default value of "tcp_server.recv_timeout", which nothing reads. *)
(* SRC sylar/tcp_server.cpp:11-13 g_tcp_server_recv_timeout *)
Definition g_tcp_server_recv_timeout : Z := 60 * 1000 * 2.

(* SRC sylar/tcp_server.cpp:15-23 TcpServer::TcpServer *)
Definition new_TcpServer : TcpServer := mkTcpServer [] 0 (str "sylar/1.0.0") true.

(* SRC sylar/tcp_server.h:34-34 TcpServer::setRecvTimeout *)
Definition server_setRecvTimeout (v : Z) (s : TcpServer) : TcpServer :=
  mkTcpServer (m_socks s) (u64 v) (m_name s) (m_isStop s).
(* SRC sylar/tcp_server.h:35-35 TcpServer::setName *)
Definition server_setName (v : list Z) (s : TcpServer) : TcpServer :=
  mkTcpServer (m_socks s) (m_recvTimeout s) v (m_isStop s).

Section TcpServer.
Context `{Host} {K : Type} `{SocketCalls K} (others : ServerWorld K -> ServerWorld K) (tv_addr : Z).
Notation MS := (M (ServerWorld K)).

Definition upd_server (f : TcpServer -> TcpServer) : MS unit := modify (fun w =>
  mkServerWorld (f (server w)) (sockets w) (next_socket w) (worker w) (accept_worker w) (accepting w) (net w)).
Definition set_socks (v : list Z) (s : TcpServer) := mkTcpServer v (m_recvTimeout s) (m_name s) (m_isStop s).
Definition set_stop (v : bool) (s : TcpServer) := mkTcpServer (m_socks s) (m_recvTimeout s) (m_name s) v.

Definition new_socket (sock : Socket) : MS Z := fun w =>
  Ret (next_socket w) (mkServerWorld (server w) (<[next_socket w := sock]> (sockets w)) (next_socket w + 1)
    (worker w) (accept_worker w) (accepting w) (net w)).

(** A method of the socket behind a handle. *)
Definition on_sock {A} (h : Z) (m : M (Socket * K) A) : MS A := fun w =>
  let back s := mkServerWorld (server w) (<[h := s.1]> (sockets w)) (next_socket w) (worker w) (accept_worker w)
                  (accepting w) s.2 in
  match sockets w !! h with
  | None => UB NullDeref
  | Some sock =>
      match m (sock, net w) with
      | Ret a s => Ret a (back s)
      | Exn e s => Exn e (back s)
      | UB f => UB f
      end
  end.

(** A pointer to a socket has gone; the last one takes the socket with it. *)
Definition drop_socket (h : Z) : MS unit :=
  let! w := get in
  if bool_decide (h ∈ accepting w) || bool_decide (h ∈ m_socks (server w)) then ret tt
  else
    on_sock h delete_Socket ;;
    modify (fun w => mkServerWorld (server w) (delete h (sockets w)) (next_socket w) (worker w) (accept_worker w)
      (accepting w) (net w)).

Fixpoint each (f : Z -> MS unit) (l : list Z) : MS unit :=
  match l with
  | [] => ret tt
  | h :: l => f h ;; each f l
  end.

Definition clear_socks : MS unit :=
  let! socks := gets (fun w => m_socks (server w)) in
  upd_server (set_socks []) ;; each drop_socket socks.

(** The default of [listen]. *)
Definition SOMAXCONN : Z := 4096.

(** The addresses that could not be bound. *)
(* SRC sylar/tcp_server.cpp:41-59 TcpServer::bind *)
Fixpoint bind_loop (addrs : list Address) : MS (list Address) :=
  match addrs with
  | [] => ret []
  | addr :: addrs =>
      let! sock := new_socket (CreateTCP addr) in
      let! bound := on_sock sock (bind_to addr) in
      if negb bound then
        drop_socket sock ;; let! fails := bind_loop addrs in ret (addr :: fails)
      else
        let! listening := on_sock sock (listen SOMAXCONN) in
        if negb listening then
          drop_socket sock ;; let! fails := bind_loop addrs in ret (addr :: fails)
        else
          upd_server (fun s => set_socks (m_socks s ++ [sock]) s) ;;
          bind_loop addrs
  end.

(** The result and [fails]. *)
(* SRC sylar/tcp_server.cpp:39-73 TcpServer::bind *)
Definition server_bind (addrs fails : list Address) : MS (bool * list Address) :=
  let! more := bind_loop addrs in
  let fails := fails ++ more in
  if bool_decide (fails = []) then ret (true, fails) else clear_socks ;; ret (false, fails).

(* SRC sylar/tcp_server.cpp:32-37 TcpServer::bind *)
Definition server_bind_one (addr : Address) : MS bool :=
  let! (ok, _) := server_bind [addr] [] in ret ok.

Definition schedule_accept (t : Task) : MS unit := modify (fun w =>
  mkServerWorld (server w) (sockets w) (next_socket w) (worker w) (accept_worker w ++ [t]) (accepting w) (net w)).
Definition schedule_worker (t : Task) : MS unit := modify (fun w =>
  mkServerWorld (server w) (sockets w) (next_socket w) (worker w ++ [t]) (accept_worker w) (accepting w) (net w)).
Definition hold (h : Z) : MS unit := modify (fun w =>
  mkServerWorld (server w) (sockets w) (next_socket w) (worker w) (accept_worker w) (accepting w ++ [h]) (net w)).

(* SRC sylar/tcp_server.cpp:89-99 TcpServer::start *)
Definition start : MS bool :=
  let! s := gets server in
  if negb (m_isStop s) then ret true
  else
    upd_server (set_stop false) ;;
    each (fun sock => hold sock ;; schedule_accept (TaskStartAccept sock)) (m_socks s) ;;
    ret true.

(* SRC sylar/tcp_server.cpp:101-111 TcpServer::stop *)
Definition stop : MS unit := upd_server (set_stop true) ;; schedule_accept TaskStop.

(** The task [stop] schedules. *)
(* SRC sylar/tcp_server.cpp:104-110 TcpServer::stop *)
Definition run_stop : MS unit :=
  let! socks := gets (fun w => m_socks (server w)) in
  each (fun sock => on_sock sock cancelAll ;; on_sock sock close ;; ret tt) socks ;;
  clear_socks.

(** One round of the loop. *)
(* SRC sylar/tcp_server.cpp:76-86 TcpServer::startAccept *)
Definition accept_turn (sock : Z) : MS unit :=
  modify others ;;
  let! client := on_sock sock accept in
  match client with
  | Some client =>
      let! c := new_socket client in
      let! t := gets (fun w => m_recvTimeout (server w)) in
      on_sock c (setRecvTimeout tv_addr (s64 t)) ;;
      schedule_worker (TaskHandleClient c)
  | None => ret tt
  end.

(* SRC sylar/tcp_server.cpp:75-87 TcpServer::startAccept *)
Fixpoint startAccept (fuel : nat) (sock : Z) : MS unit :=
  let! stopped := gets (fun w => m_isStop (server w)) in
  if stopped then ret tt
  else
    match fuel with
    | O => fail_with OutOfFuel
    | S fuel => accept_turn sock ;; startAccept fuel sock
    end.

Fixpoint remove_one (h : Z) (l : list Z) : list Z :=
  match l with [] => [] | x :: l => if x =? h then l else x :: remove_one h l end.

(** The task [start] schedules, whose pointer goes at its end. *)
Definition run_accept (fuel : nat) (sock : Z) : MS unit :=
  startAccept fuel sock ;;
  modify (fun w => mkServerWorld (server w) (sockets w) (next_socket w) (worker w) (accept_worker w)
    (remove_one sock (accepting w)) (net w)) ;;
  drop_socket sock.

(* SRC sylar/tcp_server.cpp:25-30 TcpServer::~TcpServer *)
Definition delete_TcpServer : MS unit :=
  let! socks := gets (fun w => m_socks (server w)) in
  each (fun sock => on_sock sock close ;; ret tt) socks ;;
  clear_socks.
End TcpServer.

(** ** [HttpServer] *)

Section HttpServer.
Context {W : Type} `{!Stream W} (lexical_cast : list Z -> option Z) (fnmatch : list Z -> list Z -> Z).
Context (call : Z -> M (World W) Z) (io_fuel : nat) (buff_size : Z) (fresh : list Z) (memory : http_parser).
Notation MW := (M (World W)).

(** A call of the session. *)
Definition on_session {A} (m : M W A) : MW A := fun w =>
  let back s := mkWorld (servlets w) (next_servlet w) (request w) (response w) s in
  match m (user w) with
  | Ret a s => Ret a (back s)
  | Exn e s => Exn e (back s)
  | UB f => UB f
  end.

Definition set_exchange (req : HttpRequest) (rsp : HttpResponse) : MW unit :=
  modify (fun w => mkWorld (servlets w) (next_servlet w) req rsp (user w)).

(* SRC sylar/http/http_server.cpp:19-40 HttpServer::handleClient *)
Fixpoint handle_loop (fuel : nat) (m_isKeepalive : bool) (m_dispatch : Z) : MW unit :=
  match fuel with
  | O => fail_with OutOfFuel
  | S fuel =>
      let! req := on_session (recvRequest lexical_cast io_fuel buff_size fresh memory) in
      match req with
      | None => ret tt
      | Some req =>
          set_exchange req (new_HttpResponse (m_version req) (m_close req || negb m_isKeepalive)) ;;
          handle fnmatch call io_fuel m_dispatch ;;
          let! rsp := gets response in
          on_session (sendResponse io_fuel rsp) ;;
          if m_isKeepalive then handle_loop fuel m_isKeepalive m_dispatch else ret tt
      end
  end.

(* SRC sylar/http/http_server.cpp:17-42 HttpServer::handleClient *)
Definition handleClient (fuel : nat) (m_isKeepalive : bool) (m_dispatch : Z) : MW unit :=
  handle_loop fuel m_isKeepalive m_dispatch ;; on_session stream_close.
End HttpServer.

(** [HttpServer::HttpServer]: [m_dispatch] is a new dispatcher. *)
(* SRC sylar/http/http_server.cpp:9-15 HttpServer::HttpServer *)
Definition new_HttpServer {X} (keepalive : bool) : M (World X) (TcpServer * bool * Z) :=
  let! dispatch := new_ServletDispatch in ret (new_TcpServer, keepalive, dispatch).

Section Task.
Context `{Host} {K : Type} `{SocketCalls K}.

(** The end of [handleClient]'s scope, where [session] goes, and of its task, which held the last
    pointer to the client: the two destructors. *)
(* SRC sylar/http/http_server.cpp:41-42 HttpServer::handleClient *)
Definition end_of_client : M (SocketStream * K) unit := delete_SocketStream ;; on_socket delete_Socket.
End Task.
