(* ===== verification/HttpServerSpec.v ===== *)
(** * HttpServerSpec: requests go in, responses come out

    [handleClient_serves] composes the parser, the session, the dispatcher and the stream: a client that sends requests gets
    the responses of the servlets, in order. [client_closed]: how often the end of a client closes its
    descriptor. [server_bind_spec], [server_runs] and [server_start_stop]: the life of a server's sockets. *)

From S2P Require Import Prelude Std Endian Http HttpParserTable HttpParser HttpParserSpec HttpParserRoundtrip Address Socket SocketSpec.
From S2P Require Import Stream StreamSpec HttpSession HttpSessionSpec Servlet ServletSpec HttpServer.

(** A stream that takes what is written to it, and whose input and output do not disturb each other. *)
Class StreamOutput (W : Type) `{StreamInput W} := {
  outgoing : W -> list Z;
  write_output w bytes : readable w -> exists w', stream_write bytes w = Ret (Z.of_nat (length bytes)) w'
    /\ outgoing w' = outgoing w ++ bytes /\ pending w' = pending w /\ readable w';
  read_silent w n r w' : stream_read n w = Ret r w' -> outgoing w' = outgoing w;
  close_silent w : exists w', stream_close w = Ret tt w' /\ outgoing w' = outgoing w
}.

(** ** Receiving sends nothing *)

Section Silent.
Context {W : Type} `{StreamOutput W} (lexical_cast : list Z -> option Z).

Definition quiet (w w' : W) : Prop := outgoing w' = outgoing w.
#[local] Instance quiet_preorder : PreOrder quiet.
Proof. split; [done|]. intros w1 w2 w3 A B. unfold quiet in *. congruence. Qed.

Definition quiet2 {X} (s s' : X * W) : Prop := outgoing s'.2 = outgoing s.2.
#[local] Instance quiet2_preorder {X} : PreOrder (@quiet2 X).
Proof. split; [done|]. intros w1 w2 w3 A B. unfold quiet2 in *. congruence. Qed.

Lemma quiet_read n : keeps quiet (stream_read n).
Proof. intros w r w' E. by apply (read_silent w n r w'). Qed.
Lemma quiet_close : keeps quiet stream_close.
Proof. intros w [] w' E. destruct (close_silent w) as (w1 & E1 & R). rewrite E in E1. by injection E1 as <-. Qed.
#[local] Hint Resolve quiet_read quiet_close : keeps.

Lemma quiet_on_stream {X A} (m : M W A) : keeps quiet m -> keeps (@quiet2 X) (on_stream m).
Proof.
  intros Hm [x w] a s' E. unfold on_stream in E. cbn in E. destruct (m w) eqn:Em; try done. injection E as _ <-.
  by apply (Hm _ _ _ Em).
Qed.

Lemma quiet_store off bytes : keeps (@quiet2 (list Z)) (store off bytes).
Proof. intros s u s' E. unfold store in E. repeat case_match; by simplify_eq. Qed.
#[local] Hint Resolve quiet_store : keeps.
#[local] Hint Extern 1 (keeps quiet2 (on_stream _)) => apply quiet_on_stream : keeps.

Lemma quiet_readFixSize fuel n off left : keeps (@quiet2 (list Z)) (readFixSize_loop fuel n off left).
Proof. revert off left. induction fuel as [|fuel IH]; intros off left; cbn [readFixSize_loop]; keep. Qed.

Lemma quiet_recv_loop fuel B : forall p data off, keeps quiet (recv_loop fuel B p data off).
Proof.
  induction fuel as [|fuel IH]; intros p data off; cbn [recv_loop]; [keep|].
  apply keeps_bind; [typeclasses eauto|keep|]. intros [len bytes].
  destruct (len <=? 0); [keep|]. destruct (_ <? _); [keep|]. cbv zeta.
  destruct (execute _ _ p) as [[n d] p'|e p'|f]; [|by intros ? ? ?|keep].
  destruct (hasError p'); [keep|]. destruct (_ =? _); [keep|]. destruct (isFinished p'); [keep|apply IH].
Qed.

Lemma quiet_recv_body fuel n data off : keeps quiet (recv_body fuel n data off).
Proof.
  unfold recv_body. destruct (_ <? _); [by intros ? ? ?|]. cbv zeta. destruct (0 <? _); [|keep].
  intros w a w' E. destruct (readFixSize _ _ (_, w)) as [r [rest w1]|e [rest w1]|f] eqn:Er; try done.
  apply (quiet_readFixSize _ _ _ _ _) in Er. unfold quiet2 in Er. cbn in Er.
  transitivity w1; [done|]. eapply (fun m (Hk : keeps quiet m) => Hk w1 a w'); [|exact E].
  destruct (r <=? 0); keep.
Qed.

Lemma quiet_recvRequest fuel B fresh memory : keeps quiet (recvRequest lexical_cast fuel B fresh memory).
Proof.
  pose proof (quiet_recv_loop fuel B). pose proof (quiet_recv_body fuel). unfold recvRequest. keep.
Qed.
End Silent.

(** ** One exchange *)

(** A request as a client writes it, and as a server reads it. *)
Record message := mkMessage {
  x_method : HttpMethod;
  x_path : list Z;
  x_query : option (list Z);
  x_frag : option (list Z);
  x_minor : bool;
  x_lines : list line;
  x_body : list Z
}.

Definition x_text (x : message) : list Z :=
  request_text (x_method x) (x_path x) (x_query x) (x_frag x) (x_minor x) (x_lines x) ++ x_body x.
Definition x_head (x : message) : HttpRequest :=
  request_of (x_method x) (x_path x) (x_query x) (x_frag x) (x_minor x) (x_lines x) (new_HttpRequest 17 true).
Definition x_request (x : message) : HttpRequest :=
  if bool_decide (x_body x = []) then x_head x else setBody (x_body x) (x_head x).

(** It is of the grammar, fits the buffer, and says the length of its body. *)
Definition x_ok (lexical_cast : list Z -> option Z) (B : Z) (x : message) : Prop :=
  request_ok (x_method x) (x_path x) (x_query x) (x_frag x) (x_lines x) = true
  /\ Forall is_byte (x_text x) /\ Z.of_nat (length (x_text x)) <= B
  /\ body_length lexical_cast (x_head x) = Z.of_nat (length (x_body x)).

Lemma request_of_close m path query frag minor hs r : m_close (request_of m path query frag minor hs r) = m_close r.
Proof.
  unfold request_of. set (r1 := setVersion _ _). assert (m_close r1 = m_close r) as <-.
  { unfold r1. by destruct frag, query. }
  generalize r1. induction hs as [|h hs IH]; intros r2; [done|]. cbn [foldl]. by rewrite IH.
Qed.

(** No request the parser builds asks for the connection to be kept. *)
Lemma x_request_close x : m_close (x_request x) = true.
Proof. unfold x_request. case_bool_decide; cbn; unfold x_head; by rewrite request_of_close. Qed.

Section Exchange.
Context {W : Type} `{StreamOutput W} (lexical_cast : list Z -> option Z).
Context (fnmatch : list Z -> list Z -> Z) (call : Z -> M (World W) Z) (fuel : nat) (B : Z) (fresh : list Z) (memory : http_parser).
Hypothesis HB : 0 < B < 2 ^ 31.
Hypothesis Hfresh : Z.of_nat (length fresh) = B.
Hypothesis Hmem : 0 <= query_start memory.
Hypothesis Hfuel : (Z.to_nat B <= S fuel)%nat.

Lemma recv_message (w : W) x more : x_ok lexical_cast B x -> readable w -> pending w = x_text x :: more ->
  segments more ->
  exists w', recvRequest lexical_cast (S fuel) B fresh memory w = Ret (Some (x_request x)) w'
    /\ pending w' = more /\ readable w' /\ outgoing w' = outgoing w.
Proof using HB Hfresh Hmem Hfuel.
  intros (Hok & Hby & Hl & Hn) Hr Hp Hs. unfold x_text in *.
  assert (Z.of_nat (length (x_body x)) <= B) as Hb by (rewrite length_app in Hl; lia).
  destruct (recv_head fuel B fresh memory w _ _ _ _ _ _ (x_body x) more Hok Hby Hmem Hr Hp HB Hl Hfresh)
    as (w1 & p & data & E & Hp1 & Hr1 & Ht & Hd). fold (x_head x) in Hd.
  assert (s64 (getContentLength lexical_cast p) = Z.of_nat (length (x_body x))) as En
    by (unfold getContentLength; by rewrite Hd).
  assert (exists w', recvRequest lexical_cast (S fuel) B fresh memory w = Ret (Some (x_request x)) w'
    /\ pending w' = more /\ readable w') as (w' & R & Hp' & Hr').
  { unfold recvRequest. rewrite (bind_Ret _ _ _ _ _ E). cbv zeta. rewrite En, Hd. exists w1.
    split; [|done]. unfold x_request. destruct (Z.ltb_spec 0 (Z.of_nat (length (x_body x)))) as [L|L].
    - rewrite bool_decide_eq_false_2 by (by apply nonempty_length; lia). rewrite <- Hp1 in Hs.
      destruct (recv_body_ok (S fuel) (Z.of_nat (length (x_body x))) data (x_body x) w1 Hr1 Hs Ht)
        as (w2 & Eb & _ & Hw); [lia|lia|rewrite length_app; lia|].
      rewrite (Hw ltac:(lia)) in Eb. rewrite (bind_Ret _ _ _ _ _ Eb). by rewrite Nat2Z.id, take_app_length.
    - by rewrite bool_decide_eq_true_2 by (destruct (x_body x); [done|cbn [length] in L; lia]). }
  exists w'. split; [done|]. split; [done|]. split; [done|]. by apply quiet_recvRequest in R.
Qed.

Lemma send_response (w : W) rsp : readable w -> Z.of_nat (length (HttpResponse_toString rsp)) < 2 ^ 31 ->
  exists w', sendResponse (S fuel) rsp w = Ret (Z.of_nat (length (HttpResponse_toString rsp))) w'
    /\ outgoing w' = outgoing w ++ HttpResponse_toString rsp /\ pending w' = pending w /\ readable w'.
Proof.
  intros Hr Hl. destruct (write_output w (HttpResponse_toString rsp) Hr) as (w' & E & R). exists w'.
  split; [|done]. unfold sendResponse, writeFixSize.
  assert (0 < length (HttpResponse_toString rsp))%nat as L.
  { unfold HttpResponse_toString, HttpResponse_dump. rewrite !length_app. change (length (str "HTTP/")) with 5%nat. lia. }
  clear R. set (t := HttpResponse_toString rsp) in *. clearbody t.
  rewrite (writeFixSize_step _ _ _ _ _ _ _ _ E) by lia. rewrite (wrapu_small 64 (Z.of_nat _)), Z.sub_diag by lia.
  destruct fuel; cbn; unfold ret; f_equal; apply wraps_small; unfold in_s; lia.
Qed.

(** ** The loop *)

Context (this : Z) (sv : gmap Z Servlet) (serve : HttpRequest -> HttpResponse -> HttpResponse).

(** With the servlets [sv], the dispatcher [this] turns the response into what [serve] says and does nothing else. *)
Hypothesis Hserve : forall w : World W, servlets w = sv ->
  handle fnmatch call (S fuel) this w = Ret 0 (with_response (serve (request w) (response w)) w).

(** The answer to a request; a new response says whether the server keeps connections, or the request does not. *)
Definition answer (x : message) : list Z :=
  HttpResponse_toString (serve (x_request x) (new_HttpResponse (m_version (x_request x)) true)).

Notation loop := (handle_loop lexical_cast fnmatch call (S fuel) B fresh memory).

Lemma loop_turn n keep (w : World W) x more : servlets w = sv -> readable (user w) ->
  x_ok lexical_cast B x -> pending (user w) = x_text x :: more -> segments more ->
  Z.of_nat (length (answer x)) < 2 ^ 31 ->
  exists w', loop (S n) keep this w = (if keep then loop n keep this else ret tt) w'
    /\ servlets w' = sv /\ readable (user w') /\ pending (user w') = more
    /\ outgoing (user w') = outgoing (user w) ++ answer x.
Proof using HB Hfresh Hmem Hfuel Hserve.
  intros Hsv Hr Hx Hp Hs Hl. destruct (recv_message (user w) x more Hx Hr Hp Hs) as (s1 & E1 & Hp1 & Hr1 & Ho1).
  cbn [handle_loop]. rewrite (bind_Ret _ _ w (Some (x_request x))
    (mkWorld (servlets w) (next_servlet w) (request w) (response w) s1)) by (unfold on_session; by rewrite E1).
  rewrite x_request_close. cbn [orb].
  set (rsp := new_HttpResponse (m_version (x_request x)) true).
  rewrite (bind_Ret _ _ _ tt (mkWorld (servlets w) (next_servlet w) (x_request x) rsp s1)) by done.
  set (w1 := mkWorld _ _ (x_request x) rsp s1).
  rewrite (bind_Ret _ _ w1 0 (with_response (serve (x_request x) rsp) w1)) by (by apply (Hserve w1)).
  rewrite (bind_Ret _ _ _ (serve (x_request x) rsp) (with_response (serve (x_request x) rsp) w1)) by done.
  destruct (send_response s1 (serve (x_request x) rsp) Hr1 Hl) as (s2 & E2 & Ho2 & Hp2 & Hr2).
  exists (mkWorld (servlets w) (next_servlet w) (x_request x) (serve (x_request x) rsp) s2).
  erewrite bind_Ret by (unfold on_session; cbn [user with_response]; unfold w1; cbn [user]; by rewrite E2).
  split; [done|]. cbn. split; [done|]. split; [done|]. split; [congruence|]. rewrite Ho2, Ho1. done.
Qed.

Lemma loop_end n keep (w : World W) : readable (user w) -> pending (user w) = [] ->
  exists w', loop (S n) keep this w = Ret tt w' /\ outgoing (user w') = outgoing (user w).
Proof using HB Hfresh Hmem.
  intros Hr Hp.
  destruct (proj1 (recvRequest_fails lexical_cast fuel B fresh memory (user w) [] [] Hr HB Hfresh Hmem) Hp) as (s1 & E1).
  assert (exists s2, recvRequest lexical_cast (S fuel) B fresh memory (user w) = Ret None s2) as (s2 & E2).
  { destruct (close_silent s1) as (s2 & Ec & _). exists s2. rewrite E1. by rewrite (bind_Ret _ _ _ _ _ Ec). }
  pose proof (quiet_recvRequest _ _ _ _ _ _ _ _ E2) as Hq.
  exists (mkWorld (servlets w) (next_servlet w) (request w) (response w) s2). split; [|done].
  cbn [handle_loop]. erewrite bind_Ret by (unfold on_session; by rewrite E2). done.
Qed.

Lemma loop_all xs : forall n (w : World W), (length xs < n)%nat -> servlets w = sv -> readable (user w) ->
  pending (user w) = map x_text xs -> Forall (x_ok lexical_cast B) xs ->
  Forall (fun x => Z.of_nat (length (answer x)) < 2 ^ 31) xs -> segments (map x_text xs) ->
  exists w', loop n true this w = Ret tt w' /\ outgoing (user w') = outgoing (user w) ++ concat (map answer xs).
Proof using HB Hfresh Hmem Hfuel Hserve.
  induction xs as [|x xs IH]; intros n w Hn Hsv Hr Hp Hx Ha Hs; (destruct n as [|n]; [cbn in Hn; lia|]).
  - destruct (loop_end n true w Hr Hp) as (w' & E & Ho). exists w'. cbn. by rewrite app_nil_r.
  - apply Forall_cons_1 in Hx as [Hx Hxs]. apply Forall_cons_1 in Ha as [Ha Has].
    cbn [map] in Hs. apply Forall_cons_1 in Hs as [_ Hs].
    destruct (loop_turn n true w x (map x_text xs) Hsv Hr Hx Hp Hs Ha) as (w1 & E & Hsv1 & Hr1 & Hp1 & Ho1).
    destruct (IH n w1) as (w2 & E2 & Ho2); try done; [cbn in Hn; lia|].
    exists w2. rewrite E, E2. split; [done|]. by rewrite Ho2, Ho1, <- app_assoc.
Qed.
End Exchange.

(** C1: a server whose dispatcher turns the responses into what [serve] says, and a client that sends the requests [xs], each in a segment
    with its body, and closes. A server that keeps connections sends the responses of all of them in order, and
    returns when the client is gone; each response was made to say "connection: close", as no request asks to be
    kept. A server that does not keep connections answers the first request and leaves the others. *)
Theorem handleClient_serves {W} `{StreamOutput W} (lexical_cast : list Z -> option Z) (fnmatch : list Z -> list Z -> Z)
    (call : Z -> M (World W) Z) fuel B fresh memory this sv serve xs n (w : World W) :
  0 < B < 2 ^ 31 -> Z.of_nat (length fresh) = B -> 0 <= query_start memory -> (Z.to_nat B <= S fuel)%nat ->
  (forall w, servlets w = sv ->
     handle fnmatch call (S fuel) this w = Ret 0 (with_response (serve (request w) (response w)) w)) ->
  Forall (x_ok lexical_cast B) xs -> Forall (fun x => Z.of_nat (length (answer serve x)) < 2 ^ 31) xs ->
  segments (map x_text xs) ->
  servlets w = sv -> readable (user w) -> pending (user w) = map x_text xs -> (length xs < n)%nat ->
  (exists w', handleClient lexical_cast fnmatch call (S fuel) B fresh memory n true this w = Ret tt w'
     /\ outgoing (user w') = outgoing (user w) ++ concat (map (answer serve) xs))
  /\ (exists w', handleClient lexical_cast fnmatch call (S fuel) B fresh memory n false this w = Ret tt w'
     /\ outgoing (user w') = outgoing (user w) ++ concat (map (answer serve) (take 1 xs))).
Proof.
  intros HB Hf Hm Hfu Hserve Hx Ha Hs Hsv Hr Hp Hn.
  assert (forall w1 : World W, exists w2, on_session stream_close w1 = Ret tt w2
    /\ outgoing (user w2) = outgoing (user w1)) as Hclose.
  { intros w1. destruct (close_silent (user w1)) as (s & E & Ho). eexists. unfold on_session. by rewrite E. }
  unfold handleClient. split.
  - destruct (loop_all lexical_cast fnmatch call fuel B fresh memory HB Hf Hm Hfu this sv serve Hserve
      xs n w Hn Hsv Hr Hp Hx Ha Hs) as (w1 & E & Ho).
    destruct (Hclose w1) as (w2 & Ec & Hc). exists w2. rewrite (bind_Ret _ _ _ _ _ E), Ec, Hc. by split.
  - destruct n as [|n]; [lia|]. destruct xs as [|x xs].
    + destruct (loop_end lexical_cast fnmatch call fuel B fresh memory HB Hf Hm this n false w Hr Hp) as (w1 & E & Ho).
      destruct (Hclose w1) as (w2 & Ec & Hc). exists w2. rewrite (bind_Ret _ _ _ _ _ E), Ec, Hc, Ho.
      cbn. by rewrite app_nil_r.
    + apply Forall_cons_1 in Hx as [Hx _]. apply Forall_cons_1 in Ha as [Ha _]. apply Forall_cons_1 in Hs as [_ Hs].
      destruct (loop_turn lexical_cast fnmatch call fuel B fresh memory HB Hf Hm Hfu this sv serve Hserve
        n false w x _ Hsv Hr Hx Hp Hs Ha) as (w1 & E & _ & _ & _ & Ho).
      destruct (Hclose w1) as (w2 & Ec & Hc). exists w2.
      rewrite (bind_Ret _ _ w tt w1) by (by rewrite E). rewrite Ec, Hc, Ho. split; [done|].
      cbn [take map concat]. by rewrite app_nil_r.
Qed.

(** ** A [SocketStream] over a kernel that sends *)

Class SendOutput (K : Type) `{RecvInput K} := {
  outbox : Z -> K -> list Z;
  send_output fd bytes k : exists k', sys_send fd bytes 0 k = (Z.of_nat (length bytes), k')
    /\ outbox fd k' = outbox fd k ++ bytes /\ incoming fd k' = incoming fd k;
  recv_outbox fd g n k : outbox fd (sys_recv g n 0 k).2 = outbox fd k;
  close_outbox fd g k : outbox fd (sys_close g k).2 = outbox fd k
}.

Section SocketOutput.
Context {K : Type} `{SendOutput K}.

Definition socket_outgoing (s : SocketStream * K) : list Z :=
  match m_socket s.1 with Some sock => outbox (m_sock sock) s.2 | None => [] end.

#[global, program] Instance SocketStream_StreamOutput : StreamOutput (SocketStream * K) := {|
  outgoing := socket_outgoing
|}.
Next Obligation.
  intros [[[sock|] owner] k] bytes Hr; [|done]. cbn in Hr.
  destruct (send_output (m_sock sock) bytes k) as (k' & E & Ho & Hi).
  exists (mkSocketStream (Some sock) owner, k'). split; [|done]. cbn. unfold write_buffer, gets, bind. cbn. rewrite Hr.
  cbn. unfold on_socket, send, if_connected, this, gets, sys, bind. cbn. rewrite Hr. cbn. by rewrite E.
Qed.
Next Obligation.
  intros [[[sock|] owner] k] n r w'; cbn; unfold read_buffer, gets, bind; cbn; [|by intros [= _ <-]].
  destruct (m_isConnected sock) eqn:C; cbn; [|by intros [= _ <-]].
  unfold on_socket, recv, if_connected, this, gets, sys, bind. cbn. rewrite C. cbn.
  pose proof (recv_outbox (m_sock sock) (m_sock sock) n k) as Ho.
  destruct (sys_recv (m_sock sock) n 0 k) as [x k']. by intros [= _ <-].
Qed.
Next Obligation.
  intros [[[sock|] owner] k]; cbn; unfold close_stream, gets, bind; cbn; [|by eexists].
  unfold on_socket, close, this, gets, sys, upd_this, modify, bind, ret. cbn.
  destruct (negb (m_isConnected sock) && (m_sock sock =? -1)); cbn; [by eexists|].
  destruct (negb (m_sock sock =? -1)); cbn; [|by eexists].
  pose proof (close_outbox (m_sock sock) (m_sock sock) k) as Ho.
  destruct (sys_close (m_sock sock) k) as [x k']. by eexists.
Qed.
End SocketOutput.

#[global, program] Instance feed_output : SendOutput Feed := {| outbox _ k := sent k |}.
Next Obligation. intros fd bytes k. by eexists. Qed.
Next Obligation. by intros. Qed.
Next Obligation. by intros. Qed.

(** Two requests on a server that keeps connections and knows no path. *)
Definition demo_gets : list message :=
  [mkMessage GET (str "/a") None None true [] []; mkMessage POST (str "/b") None None true demo_lines (str "abc")].
Definition demo_server : World (SocketStream * Feed) :=
  demo_servlets _ (demo_world (map x_text demo_gets)).
Definition demo_page : list Z :=
  match servlets demo_server !! 1 with Some (NotFoundServlet _ content) => content | _ => [] end.

Lemma handleClient_serves_witness :
  exists w', handleClient demo_cast (fun _ _ => 1) (fun _ => ret 0) 256 256 demo_buffer no_memory 3 true 2 demo_server = Ret tt w'
    /\ outgoing (user w') = concat (map (answer (fun _ => not_found demo_page)) demo_gets).
Proof.
  destruct (proj1 (handleClient_serves demo_cast (fun _ _ => 1) (fun _ => ret 0) 255 256 demo_buffer no_memory 2
    (servlets demo_server) (fun _ => not_found demo_page) demo_gets 3 demo_server
    ltac:(by vm_compute) ltac:(by vm_compute) ltac:(discriminate) (le_n 256)
    ltac:(intros [] Hw; cbn in Hw; subst; vm_compute; reflexivity)
    ltac:(unfold x_ok; apply (bool_decide_unpack _); vm_compute; exact I)
    ltac:(apply (bool_decide_unpack _); vm_compute; exact I)
    ltac:(unfold segments; apply (bool_decide_unpack _); vm_compute; exact I)
    eq_refl eq_refl eq_refl ltac:(vm_compute; apply le_n))) as (w' & E & Ho).
  exists w'. split; [exact E|exact Ho].
Defined.

(** ** The end of a client *)

Section NoRequest.
Context {W : Type} `{!Stream W} (lexical_cast : list Z -> option Z).

(** The last thing a [recvRequest] that gives no request does is to close the session. *)
Definition closed_last (w' : W) : Prop := exists w0, stream_close w0 = Ret tt w'.

Lemma close_none {A} (w w' : W) : (stream_close ;; ret (@None A)) w = Ret None w' -> closed_last w'.
Proof. intros ([] & w1 & E & [= <-])%bind_inv_Ret. by exists w. Qed.

Lemma recv_loop_none fuel B : forall p data off (w w' : W),
  recv_loop fuel B p data off w = Ret None w' -> closed_last w'.
Proof.
  induction fuel as [|fuel IH]; intros p data off w w' E; cbn [recv_loop] in E; [done|].
  apply bind_inv_Ret in E as ([len bytes] & w1 & _ & E).
  destruct (len <=? 0); [by eapply close_none|]. destruct (_ <? _); [done|]. cbv zeta in E.
  destruct (execute _ _ p) as [[n d] p'|e p'|f]; [|done..].
  destruct (hasError p'); [by eapply close_none|]. destruct (_ =? _); [by eapply close_none|].
  destruct (isFinished p'); [done|]. by eapply IH.
Qed.

Lemma recv_body_none fuel n data off (w w' : W) : recv_body fuel n data off w = Ret None w' -> closed_last w'.
Proof.
  unfold recv_body. destruct (_ <? _); [done|]. cbv zeta. destruct (0 <? _); [|done].
  destruct (readFixSize _ _ (_, w)) as [r [rest w1]|e [rest w1]|f]; [|done..].
  destruct (r <=? 0); [by apply close_none|done].
Qed.

Lemma recvRequest_none fuel B fresh memory (w w' : W) :
  recvRequest lexical_cast fuel B fresh memory w = Ret None w' -> closed_last w'.
Proof.
  unfold recvRequest. intros (r & w1 & E & H)%bind_inv_Ret. destruct r as [[[p data] off]|].
  2: { injection H as <-. by eapply recv_loop_none. }
  cbv zeta in H. destruct (0 <? _); [|done]. apply bind_inv_Ret in H as (b & w2 & Eb & H).
  destruct b; [done|]. injection H as <-. by eapply recv_body_none.
Qed.

Context (fnmatch : list Z -> list Z -> Z) (call : Z -> M (World W) Z) (io_fuel : nat) (B : Z) (fresh : list Z) (memory : http_parser).
Notation recv := (on_session (recvRequest lexical_cast io_fuel B fresh memory)).

Lemma on_session_none (w w' : World W) : recv w = Ret None w' -> closed_last (user w').
Proof.
  unfold on_session. destruct (recvRequest _ _ _ _ _ (user w)) as [r s|e s|f] eqn:E; [|done..].
  intros [= -> <-]. by apply recvRequest_none in E.
Qed.

(** A loop that keeps the connection ends only so; one that does not, so when nothing was received. *)
Lemma handle_loop_none fuel keep this (w w1 : World W) :
  handle_loop lexical_cast fnmatch call io_fuel B fresh memory fuel keep this w = Ret tt w1 ->
  keep = true \/ (exists w0, recv w = Ret None w0) -> closed_last (user w1).
Proof.
  revert w. induction fuel as [|fuel IH]; intros w E Hk; cbn [handle_loop] in E; [done|].
  apply bind_inv_Ret in E as (req & w2 & Er & E). destruct req as [req|].
  - destruct Hk as [->|[w0 E0]]; [|congruence].
    apply bind_inv_Ret in E as (? & w3 & _ & E). apply bind_inv_Ret in E as (? & w4 & _ & E).
    apply bind_inv_Ret in E as (? & w5 & _ & E). apply bind_inv_Ret in E as (? & w6 & _ & E).
    apply (IH w6 E). by left.
  - injection E as <-. by eapply on_session_none.
Qed.
End NoRequest.

Section Closed.
Context {K : Type} `{SocketCalls K} (lexical_cast : list Z -> option Z) (fnmatch : list Z -> list Z -> Z).
Context (call : Z -> M (World (SocketStream * K)) Z) (io_fuel : nat) (B : Z) (fresh : list Z) (memory : http_parser).
Notation handle_loop := (handle_loop lexical_cast fnmatch call io_fuel B fresh memory).
Notation handleClient := (handleClient lexical_cast fnmatch call io_fuel B fresh memory).

Definition shut (sock : Socket) (k : K) : K := (sys_close (m_sock sock) k).2.

Lemma close_stream_valid c sock k : isValid sock = true ->
  close_stream (new_SocketStream (set_connected c sock) true, k)
  = Ret tt (new_SocketStream (set_connected false sock) true, shut sock k).
Proof.
  intros V. assert (m_sock sock =? -1 = false) as E by (unfold isValid in V; by destruct (m_sock sock =? -1)).
  unfold close_stream, on_socket, close, gets, this, upd_this, modify, sys, bind, ret, shut. cbn.
  rewrite E, andb_false_r. cbn. by destruct (sys_close (m_sock sock) k).
Qed.

Lemma end_of_client_valid c sock k : isValid sock = true ->
  end_of_client (new_SocketStream (set_connected c sock) true, k)
  = Ret tt (new_SocketStream (set_connected false sock) true, shut sock (shut sock k)).
Proof.
  intros V. unfold end_of_client, delete_SocketStream. unfold bind at 1 2, gets. cbn [fst m_owner new_SocketStream].
  rewrite close_stream_valid by done. unfold on_socket. cbn [fst snd m_socket new_SocketStream].
  assert (m_sock sock =? -1 = false) as E by (unfold isValid in V; by destruct (m_sock sock =? -1)).
  unfold delete_Socket, close, this, gets, upd_this, modify, sys, bind, ret, shut. cbn. rewrite E. cbn.
  by destruct (sys_close (m_sock sock) (sys_close (m_sock sock) k).2).
Qed.

(** The socket a close leaves is the one it found. *)
Lemma closed_last_shut sock k : isValid sock = true -> closed_last (new_SocketStream sock true, k) ->
  exists k0, k = shut sock k0.
Proof.
  intros V ([[[sock0|] owner] k0] & E); [|by unfold closed_last in E].
  exists k0. revert E. cbn.
  unfold close_stream, on_socket, close, gets, this, upd_this, modify, sys, bind, ret, shut, new_SocketStream. cbn.
  destruct (negb (m_isConnected sock0) && (m_sock sock0 =? -1)) eqn:E1; cbn.
  - intros [= <- _ _]. apply andb_true_iff in E1 as [_ E1]. unfold isValid in V. by rewrite E1 in V.
  - destruct (m_sock sock0 =? -1) eqn:E2; cbn.
    + intros [= <- _ _]. unfold isValid in V. cbn in V. by rewrite E2 in V.
    + destruct (sys_close (m_sock sock0) k0) eqn:Ec. intros [= <- _ <-]. cbn. by rewrite Ec.
Qed.

(** C30: what the end of a client does to its descriptor. When the loop of [handleClient] ends and its task goes, three
    calls of [close] follow, on a number that is free after the first: the one at the end of [handleClient], the
    session's destructor's and the socket's destructor's, as no close forgets the descriptor. When the loop ended
    because no request came, as it always does for a server that keeps connections, the last [recvRequest] has
    closed the descriptor already, and they are four. *)
Theorem client_closed fuel keep this (w w1 : World (SocketStream * K)) sock k :
  handle_loop fuel keep this w = Ret tt w1 -> user w1 = (new_SocketStream sock true, k) -> isValid sock = true ->
  (exists w2, (handleClient fuel keep this ;; on_session end_of_client) w = Ret tt w2
    /\ user w2 = (new_SocketStream (set_connected false sock) true, shut sock (shut sock (shut sock k))))
  /\ (keep = true \/ (exists w0, on_session (recvRequest lexical_cast io_fuel B fresh memory) w = Ret None w0) ->
     exists k0, k = shut sock k0).
Proof.
  intros E Eu V. split.
  - unfold handleClient. rewrite bind_assoc, (bind_Ret _ _ _ _ _ E). unfold on_session at 1, bind. rewrite Eu.
    assert (new_SocketStream sock true = new_SocketStream (set_connected (m_isConnected sock) sock) true) as ->
      by (by destruct sock).
    unfold stream_close, SocketStream_Stream. rewrite close_stream_valid by done. unfold on_session. cbn [user].
    rewrite end_of_client_valid by done. eexists. by split.
  - intros Hk. apply (closed_last_shut sock k V). rewrite <- Eu. by eapply handle_loop_none.
Qed.
End Closed.

(** A client that is gone before its first request: 7 is closed four times. *)
Definition demo_gone : World (SocketStream * DemoWorld) :=
  mkWorld ∅ 0 (new_HttpRequest 17 true) (new_HttpResponse 17 true)
    (new_SocketStream (mkSocket 7 AF_INET TCP 0 false None None) true, mkDemoWorld 8 []).

Lemma client_closed_witness :
  exists w2, (handleClient (Stream0 := @SocketStream_Stream _ demo_calls) demo_cast (fun _ _ => 1) (fun _ => ret 0) 256 256 demo_buffer no_memory 3 true 2 ;;
    on_session (@end_of_client _ demo_calls)) demo_gone = Ret tt w2
    /\ (user w2).2 = mkDemoWorld 8 [7; 7; 7; 7].
Proof.
  destruct (@client_closed _ demo_calls demo_cast (fun _ _ => 1) (fun _ => ret 0) 256 256 demo_buffer no_memory 3 true 2 demo_gone _
    (mkSocket 7 AF_INET TCP 0 false None None) (mkDemoWorld 8 [7]) ltac:(vm_compute; reflexivity) eq_refl eq_refl) as [(w2 & E & Eu) _].
  exists w2. split; [exact E|]. rewrite Eu. reflexivity.
Defined.

(** ** The sockets of a server *)

Section Sockets.
Context `{Host} {K : Type} `{SocketCalls K}.

Lemma total_sys {A} (f : K -> A * K) : total (sys f).
Proof. intros s. unfold sys. destruct (f s.2). by eexists _, _. Qed.
Lemma total_this {A} (f : Socket -> A) : total (this f : M (Socket * K) A).
Proof. apply total_gets. Qed.
Lemma total_upd_this (f : Socket -> Socket) : total (upd_this f : M (Socket * K) unit).
Proof. apply total_modify. Qed.
#[local] Hint Resolve total_sys total_this total_upd_this : total.

Lemma total_initSock : total (initSock : M (Socket * K) unit).
Proof. unfold initSock, setOption_int, setOption. total. Qed.
Lemma total_getLocalAddress : total (getLocalAddress : M (Socket * K) Address).
Proof. unfold getLocalAddress, name_of. total. Qed.
Lemma total_getRemoteAddress : total (getRemoteAddress : M (Socket * K) Address).
Proof. unfold getRemoteAddress, name_of. total. Qed.
#[local] Hint Resolve total_initSock total_getLocalAddress total_getRemoteAddress : total.
Lemma total_bind_to addr : total (bind_to addr : M (Socket * K) bool).
Proof. unfold bind_to, ensure_valid, newSock. total. Qed.
Lemma total_listen n : total (listen n : M (Socket * K) bool).
Proof. unfold listen. total. Qed.
Lemma total_close : total (close : M (Socket * K) bool).
Proof. unfold close. total. Qed.
#[local] Hint Resolve total_bind_to total_listen total_close : total.
Lemma total_delete : total (delete_Socket : M (Socket * K) unit).
Proof. unfold delete_Socket. total. Qed.
Lemma total_cancelAll : total (cancelAll : M (Socket * K) bool).
Proof. unfold cancelAll. total. Qed.
Lemma total_setRecvTimeout a v : total (setRecvTimeout a v : M (Socket * K) unit).
Proof. unfold setRecvTimeout, setOption_ptr, setOption. total. Qed.
Lemma total_accept : total (accept : M (Socket * K) (option Socket)).
Proof.
  intros s. unfold accept. destruct (sys_accept _ _) as [fd k]. destruct (fd =? -1); [by eexists _, _|].
  assert (total (init fd : M (Socket * K) bool)) as Ht by (unfold init; total).
  destruct (Ht (new_Socket (m_family s.1) (m_type s.1) (m_protocol s.1), k)) as ([] & [n k'] & ->); by eexists _, _.
Qed.
End Sockets.

(** What runs: the calls on the server, the task of [stop], a round of the accept task of a socket and its end. *)
Inductive ServerOp := OBind (addrs : list Address) | OStart | OStop | ORunStop | OAccept (sock : Z) | OAcceptEnds (sock : Z).

Section Life.
Context `{Host} {K : Type} `{SocketCalls K}.
Notation SW := (ServerWorld K).
Notation MS := (M SW).
Implicit Types (w : SW) (h : Z).

(** The server and the accept tasks point to sockets that are there, the server to each once. *)
Record srv_ok w : Prop := {
  ok_socks : NoDup (m_socks (server w));
  ok_live h : h ∈ m_socks (server w) \/ h ∈ accepting w -> is_Some (sockets w !! h);
  ok_next h : is_Some (sockets w !! h) -> h < next_socket w
}.

(** Nothing but the sockets and the network has changed, and no socket has gone. *)
Record same_server w w' : Prop := {
  ss_server : server w' = server w;
  ss_next : next_socket w' = next_socket w;
  ss_worker : worker w' = worker w;
  ss_accept : accept_worker w' = accept_worker w;
  ss_accepting : accepting w' = accepting w
}.

Lemma on_sock_runs {A} (m : M (Socket * K) A) h w : total m -> is_Some (sockets w !! h) ->
  exists a w', on_sock h m w = Ret a w' /\ same_server w w'
    /\ (forall h', is_Some (sockets w' !! h') <-> is_Some (sockets w !! h'))
    /\ exists sock sock', sockets w !! h = Some sock /\ m (sock, net w) = Ret a sock'
       /\ sockets w' = <[h := sock'.1]> (sockets w).
Proof.
  intros Hm [sock Es]. unfold on_sock. rewrite Es. destruct (Hm (sock, net w)) as (a & s' & E). rewrite E.
  eexists _, _. split; [done|]. split; [by split|]. split; [|by eexists _, _].
  intros h'. cbn. destruct (decide (h = h')) as [<-|]; [|by rewrite lookup_insert_ne].
  rewrite lookup_insert_eq, Es. split; by eexists.
Qed.

Lemma srv_ok_same w w' : same_server w w' ->
  (forall h', is_Some (sockets w' !! h') <-> is_Some (sockets w !! h')) -> srv_ok w -> srv_ok w'.
Proof.
  intros [E1 E2 E3 E4 E5] Hd [H1 H2 H3]. split; rewrite ?E1, ?E2, ?E5; try done.
  - intros h Hh. apply Hd. auto.
  - intros h Hh. apply Hd in Hh. auto.
Qed.

Lemma drop_runs h w : is_Some (sockets w !! h) -> exists w', drop_socket h w = Ret tt w' /\ same_server w w'
  /\ (forall h', is_Some (sockets w' !! h') <-> is_Some (sockets w !! h')
        /\ (h' <> h \/ h ∈ accepting w \/ h ∈ m_socks (server w)))
  /\ (forall h', h' <> h -> sockets w' !! h' = sockets w !! h').
Proof.
  intros Hs. unfold drop_socket. rewrite (bind_Ret get _ w w w) by done.
  destruct (bool_decide (h ∈ accepting w) || bool_decide (h ∈ m_socks (server w))) eqn:E.
  - exists w. split; [done|]. split; [by split|]. apply orb_true_iff in E. rewrite !bool_decide_eq_true in E.
    split; [intros h'; tauto|done].
  - apply orb_false_iff in E as [E1 E2]. apply bool_decide_eq_false in E1, E2.
    destruct (on_sock_runs delete_Socket h w total_delete Hs) as ([] & w1 & R & [] & Hd & s1 & s2 & _ & _ & Es).
    rewrite (bind_Ret _ _ _ _ _ R). eexists. split; [done|]. split; [by split|]. cbn.
    split; [|intros h' Hh'; rewrite lookup_delete_ne by done; by rewrite Es, lookup_insert_ne].
    intros h'. destruct (decide (h = h')) as [<-|Hne].
    + rewrite lookup_delete_eq. split; [by intros [? ?]|tauto].
    + rewrite lookup_delete_ne by done. rewrite Hd. split; [intros; split; [done|by left]|by intros [? _]].
Qed.

(** Something done with every socket of a list. *)
Lemma each_runs (f : Z -> MS unit) l w :
  (forall h w, is_Some (sockets w !! h) -> exists w', f h w = Ret tt w' /\ same_server w w'
     /\ (forall h', is_Some (sockets w' !! h') <-> is_Some (sockets w !! h'))) ->
  (forall h, h ∈ l -> is_Some (sockets w !! h)) ->
  exists w', each f l w = Ret tt w' /\ same_server w w'
    /\ (forall h', is_Some (sockets w' !! h') <-> is_Some (sockets w !! h')).
Proof.
  intros Hf. revert w. induction l as [|h l IH]; intros w Hl; [by exists w|]. cbn [each].
  destruct (Hf h w) as (w1 & E1 & [] & D1); [apply Hl; by left|]. rewrite (bind_Ret _ _ _ _ _ E1).
  destruct (IH w1) as (w2 & E2 & [] & D2); [intros h' Hh; apply D1, Hl; by right|].
  exists w2. split; [done|]. split; [by split; etrans|]. intros h'. by rewrite D2, D1.
Qed.

Lemma drops_run l w : NoDup l -> m_socks (server w) = [] -> (forall h, h ∈ l -> is_Some (sockets w !! h)) ->
  exists w', each drop_socket l w = Ret tt w' /\ same_server w w'
    /\ (forall h', is_Some (sockets w' !! h') <-> is_Some (sockets w !! h') /\ (h' ∉ l \/ h' ∈ accepting w)).
Proof.
  revert w. induction l as [|h l IH]; intros w Hn Hm Hl.
  - exists w. split; [done|]. split; [by split|]. intros h'. split; [|tauto]. split; [done|]. left. set_solver.
  - apply list.NoDup_cons in Hn as [Hh Hn]. cbn [each].
    destruct (drop_runs h w) as (w1 & E1 & S1 & D1 & _); [apply Hl; by left|]. rewrite (bind_Ret _ _ _ _ _ E1).
    pose proof S1 as []. destruct (IH w1) as (w2 & E2 & [] & D2); [done|congruence| |].
    { intros h' Hh'. apply D1. split; [apply Hl; by right|]. left. intros ->. done. }
    exists w2. split; [done|]. split; [by split; etrans|]. intros h'.
    rewrite D2, D1, Hm, ss_accepting0, not_elem_of_cons, elem_of_nil.
    destruct (decide (h' = h)) as [->|]; tauto.
Qed.

Lemma clear_runs w : srv_ok w -> exists w', clear_socks w = Ret tt w' /\ srv_ok w'
  /\ server w' = set_socks [] (server w) /\ accepting w' = accepting w /\ accept_worker w' = accept_worker w
  /\ worker w' = worker w /\ next_socket w' = next_socket w
  /\ (forall h, is_Some (sockets w' !! h) <-> is_Some (sockets w !! h) /\ (h ∉ m_socks (server w) \/ h ∈ accepting w)).
Proof.
  intros [H1 H2 H3]. unfold clear_socks. rewrite (bind_Ret _ _ w (m_socks (server w)) w) by done.
  rewrite (bind_Ret _ _ w tt (mkServerWorld (set_socks [] (server w)) (sockets w) (next_socket w) (worker w)
    (accept_worker w) (accepting w) (net w))) by done.
  destruct (drops_run (m_socks (server w)) (mkServerWorld (set_socks [] (server w)) (sockets w) (next_socket w)
    (worker w) (accept_worker w) (accepting w) (net w))) as (w' & E & [] & D); [done|done|cbn; auto|].
  cbn in *. exists w'. split; [done|]. split; [|done]. split.
  - rewrite ss_server0. constructor.
  - intros h. rewrite ss_server0, ss_accepting0. cbn. intros [Hh|Hh]; [set_solver|]. apply D. auto.
  - intros h Hh. rewrite ss_next0. apply D in Hh as [? _]. auto.
Qed.

(** ** [bind] *)

Lemma bind_valid addr (s : Socket * K) s' : bind_to addr s = Ret true s' -> isValid s'.1 = true.
Proof.
  intros E. unfold bind_to in E. apply bind_inv_Ret in E as (ok & s1 & V & E).
  apply ensure_valid_value in V. destruct ok; cbn [negb] in E; [|done].
  assert (later s1 s') as (_ & _ & _ & Hs & _) by (pose proof (@later_getLocalAddress _ K _); eapply keeps_elim; [exact E|keep]).
  unfold isValid in *. by rewrite Hs.
Qed.

(** What binding [addrs] gives: the addresses that failed, one more socket for each other, and nothing else. *)
Definition bind_done (addrs : list Address) (w : ServerWorld K) (r : res (ServerWorld K) (list Address)) : Prop :=
  exists fails new w', r = Ret fails w' /\ srv_ok w'
  /\ server w' = set_socks (m_socks (server w) ++ new) (server w)
  /\ (length fails + length new = length addrs)%nat /\ fails ⊆ addrs
  /\ accepting w' = accepting w /\ accept_worker w' = accept_worker w /\ worker w' = worker w
  /\ next_socket w <= next_socket w'
  /\ (forall h, h < next_socket w -> sockets w' !! h = sockets w !! h)
  /\ Forall (fun h => next_socket w <= h /\ exists sock, sockets w' !! h = Some sock /\ isValid sock = true) new.

(** The world with one more socket, which an operation on it has changed. *)
Definition with_socket (sock : Socket) (w : ServerWorld K) : ServerWorld K :=
  mkServerWorld (server w) (<[next_socket w := sock]> (sockets w)) (next_socket w + 1) (worker w) (accept_worker w) (accepting w) (net w).
Record worked (sock : Socket) (w w1 : ServerWorld K) : Prop := mkWorked {
  wk_same : same_server (with_socket sock w) w1;
  wk_dom : forall h, is_Some (sockets w1 !! h) <-> is_Some (sockets (with_socket sock w) !! h);
  wk_others : forall h, h <> next_socket w -> sockets w1 !! h = sockets w !! h
}.

Lemma srv_below (w : ServerWorld K) h : srv_ok w -> h ∈ accepting w \/ h ∈ m_socks (server w) -> h < next_socket w.
Proof. intros [H1 H2 H3] Hh. apply H3, H2. tauto. Qed.

Lemma worked_dom sock w w1 h : worked sock w w1 -> is_Some (sockets w1 !! h) <-> h = next_socket w \/ is_Some (sockets w !! h).
Proof.
  intros Hw. rewrite (wk_dom _ _ _ Hw). cbn. destruct (decide (h = next_socket w)) as [->|Hne].
  - rewrite lookup_insert_eq. split; [by left|by eexists].
  - rewrite lookup_insert_ne by done. tauto.
Qed.

(** An address whose socket cannot be bound: the socket goes, and the others are tried. *)
Lemma bind_failed addr addrs sock w w2 : (forall w, srv_ok w -> bind_done addrs w (bind_loop addrs w)) -> srv_ok w -> worked sock w w2 ->
  bind_done (addr :: addrs) w ((drop_socket (next_socket w) ;; let! fails := bind_loop addrs in ret (addr :: fails)) w2).
Proof.
  intros IH Hok Hw2. pose proof Hok as [H1 H2 H3]. pose proof (wk_same _ _ _ Hw2) as [R1 R2 R3 R4 R5]. cbn in R1, R2, R3, R4, R5.
  destruct (drop_runs (next_socket w) w2) as (w3 & E3 & [T1 T2 T3 T4 T5] & D3 & L3); [apply (worked_dom _ _ _ _ Hw2); by left|].
  rewrite (bind_Ret _ _ _ _ _ E3).
  assert (forall h, is_Some (sockets w3 !! h) <-> is_Some (sockets w !! h)) as D.
  { intros h. rewrite D3, (worked_dom _ _ _ _ Hw2), R1, R5. destruct (decide (h = next_socket w)) as [->|Hne]; [|tauto].
    split; [|intros Hs; apply H3 in Hs; lia]. intros [_ [?|Hh]]; [done|]. pose proof (srv_below w _ Hok Hh). lia. }
  destruct (IH w3) as (fails & new & w4 & E4 & Hok4 & A1 & A2 & A3 & A4 & A5 & A6 & A7 & A8 & A9).
  { split; rewrite ?T1, ?T2, ?T5, ?R1, ?R2, ?R5; [done|intros h Hh; apply D; auto|].
    intros h Hh. apply D in Hh. apply H3 in Hh. lia. }
  exists (addr :: fails), new, w4. rewrite (bind_Ret _ _ _ _ _ E4). rewrite T1, R1 in A1. rewrite T2, R2 in A7, A8, A9.
  split; [done|]. split; [done|]. split; [done|]. split; [cbn [length]; lia|]. split; [set_solver|].
  split; [congruence|]. split; [congruence|]. split; [congruence|]. split; [lia|]. split.
  - intros h Hh. rewrite A8 by lia. rewrite L3 by lia. apply (wk_others _ _ _ Hw2). lia.
  - eapply Forall_impl; [|exact A9]. cbn. intros h [? ?]. split; [lia|done].
Qed.

(** An address whose socket is bound and listens: the server has it, and the others are tried. *)
Lemma bind_succeeded addr addrs sock sock' w w2 : (forall w, srv_ok w -> bind_done addrs w (bind_loop addrs w)) -> srv_ok w ->
  worked sock w w2 -> sockets w2 !! next_socket w = Some sock' -> isValid sock' = true ->
  bind_done (addr :: addrs) w
    ((upd_server (fun t => set_socks (m_socks t ++ [next_socket w]) t) ;; bind_loop addrs) w2).
Proof.
  intros IH Hok Hw2 Es V. pose proof Hok as [H1 H2 H3]. pose proof (wk_same _ _ _ Hw2) as [R1 R2 R3 R4 R5]. cbn in R1, R2, R3, R4, R5.
  erewrite (bind_Ret (upd_server _)) by done. set (w3 := mkServerWorld _ _ _ _ _ _ _).
  assert (forall h, sockets w3 !! h = sockets w2 !! h) as E3 by done.
  destruct (IH w3) as (fails & new & w4 & E4 & Hok4 & A1 & A2 & A3 & A4 & A5 & A6 & A7 & A8 & A9).
  { split; unfold w3; cbn; rewrite ?R1, ?R2, ?R5.
    - apply list.NoDup_app. split; [done|]. split; [|by apply NoDup_singleton].
      intros h Hh ->%list_elem_of_singleton. pose proof (srv_below w _ Hok (or_intror Hh)). lia.
    - intros h Hh. apply (worked_dom _ _ _ _ Hw2). destruct (decide (h = next_socket w)) as [->|]; [by left|right].
      apply H2. set_solver.
    - intros h Hh. apply (worked_dom _ _ _ _ Hw2) in Hh as [->|Hh]; [lia|]. apply H3 in Hh. lia. }
  unfold w3 in A1, A4, A5, A6, A7, A8, A9. cbn in A1, A4, A5, A6, A7, A8, A9.
  exists fails, (next_socket w :: new), w4. split; [done|]. split; [done|]. rewrite R1 in A1. rewrite R2 in A7, A8, A9.
  split; [rewrite A1; cbn; by rewrite <- app_assoc|]. split; [cbn [length]; lia|]. split; [set_solver|].
  split; [congruence|]. split; [congruence|]. split; [congruence|]. split; [lia|]. split.
  - intros h Hh. rewrite A8 by lia. apply (wk_others _ _ _ Hw2). lia.
  - constructor; [|eapply Forall_impl; [|exact A9]; cbn; intros h [? ?]; split; [lia|done]].
    split; [lia|]. exists sock'. split; [|done]. rewrite A8 by lia. done.
Qed.

Lemma worked_on {A} (m : M (Socket * K) A) sock w w1 : total m -> worked sock w w1 ->
  exists a w2 a1 b2, on_sock (next_socket w) m w1 = Ret a w2 /\ worked sock w w2
    /\ sockets w1 !! next_socket w = Some a1 /\ m (a1, net w1) = Ret a b2 /\ sockets w2 !! next_socket w = Some b2.1.
Proof.
  intros Hm Hw1. destruct (on_sock_runs m (next_socket w) w1 Hm) as (a & w2 & E & S2 & D2 & a1 & b2 & La & B & L2);
    [apply (worked_dom _ _ _ _ Hw1); by left|].
  destruct Hw1 as [[Q1 Q2 Q3 Q4 Q5] D1 L1]. destruct S2 as [R1 R2 R3 R4 R5].
  exists a, w2, a1, b2. split; [done|]. split; [split; [split; congruence|intros h; by rewrite D2, D1|]|].
  - intros h Hh. rewrite L2, lookup_insert_ne by done. by apply L1.
  - split; [done|]. split; [done|]. rewrite L2. apply lookup_insert_eq.
Qed.

(** A socket is made for every address; those that cannot be bound go at once. *)
Lemma bind_loop_runs addrs : forall w, srv_ok w -> bind_done addrs w (bind_loop addrs w).
Proof.
  induction addrs as [|addr addrs IH]; intros w Hok.
  { exists [], [], w. split; [done|]. split; [done|]. rewrite app_nil_r. by destruct w as [[] ? ? ? ? ? ?]. }
  cbn [bind_loop]. rewrite (bind_Ret (new_socket _) _ w (next_socket w) (with_socket (CreateTCP addr) w) eq_refl).
  assert (worked (CreateTCP addr) w (with_socket (CreateTCP addr) w)) as W0
    by (split; [done|done|intros h Hh; cbn; by rewrite lookup_insert_ne]).
  destruct (worked_on (bind_to addr) _ w _ (total_bind_to addr) W0) as (bound & w1 & a1 & b1 & E1 & W1 & _ & B1 & L1).
  rewrite (bind_Ret _ _ _ _ _ E1). destruct bound; cbn [negb]; [|exact (bind_failed _ _ _ _ _ IH Hok W1)].
  destruct (worked_on (listen SOMAXCONN) _ w _ (total_listen _) W1) as (lis & w2 & a2 & b2 & E2 & W2 & La & B2 & L2).
  rewrite (bind_Ret _ _ _ _ _ E2). destruct lis; cbn [negb]; [|exact (bind_failed _ _ _ _ _ IH Hok W2)].
  eapply bind_succeeded; [done|done|exact W2|exact L2|].
  apply bind_valid in B1. rewrite L1 in La. injection La as La.
  apply (later_listen _ _ _ _) in B2 as (_ & _ & _ & Hs & _). unfold isValid in *. cbn in Hs. subst a2. by rewrite Hs.
Qed.

(** binding a server to addresses returns; it succeeds when no address failed. Then the server has one more socket for each
    address, bound and valid; otherwise the addresses that failed are returned, and the server has no socket left, those of
    earlier bindings included: they are closed and gone, unless an accept task has them. *)
Theorem server_bind_spec addrs w : srv_ok w -> exists ok fails w',
  server_bind addrs [] w = Ret (ok, fails) w' /\ srv_ok w' /\ (ok = true <-> fails = []) /\ fails ⊆ addrs
  /\ (ok = true -> exists new, m_socks (server w') = m_socks (server w) ++ new /\ length new = length addrs
       /\ Forall (fun h => exists sock, sockets w' !! h = Some sock /\ isValid sock = true) new)
  /\ (ok = false -> m_socks (server w') = []
       /\ forall h, h ∈ m_socks (server w) -> h ∉ accepting w -> sockets w' !! h = None).
Proof.
  intros Hok. unfold server_bind.
  destruct (bind_loop_runs addrs w Hok) as (fails & new & w1 & E & Hok1 & A1 & A2 & A3 & A4 & A5 & A6 & A7 & A8 & A9).
  rewrite (bind_Ret _ _ _ _ _ E). cbn [app]. case_bool_decide as Hf.
  - exists true, fails, w1. split; [done|]. split; [done|]. split; [done|]. split; [done|]. split; [|done].
    intros _. exists new. rewrite A1, Hf in *. split; [done|]. split; [cbn [length] in A2; lia|].
    eapply Forall_impl; [|exact A9]. by intros h [_ ?].
  - destruct (clear_runs w1 Hok1) as (w2 & E2 & Hok2 & B1 & B2 & _ & _ & _ & B3). exists false, fails, w2.
    rewrite (bind_Ret _ _ _ _ _ E2). split; [done|]. split; [done|]. split; [done|]. split; [done|]. split; [done|].
    intros _. split; [by rewrite B1|]. intros h Hh Ha. apply eq_None_not_Some. intros Hs. apply B3 in Hs as [_ Hs].
    rewrite A1, A4 in Hs. cbn in Hs. set_solver.
Qed.

(** ** Running a server *)

(** [start] for the sockets [l]. *)
Definition started (l : list Z) w : SW :=
  mkServerWorld (server w) (sockets w) (next_socket w) (worker w) (accept_worker w ++ map TaskStartAccept l)
    (accepting w ++ l) (net w).

Lemma start_each l w :
  each (fun sock => hold sock ;; schedule_accept (TaskStartAccept sock)) l w = Ret tt (started l w).
Proof.
  revert w. induction l as [|h l IH]; intros w.
  - unfold started. rewrite !app_nil_r. by destruct w.
  - cbn [each]. unfold bind at 1. unfold bind at 1. unfold hold, schedule_accept, modify. cbn.
    rewrite IH. unfold started. cbn. by rewrite <- !app_assoc.
Qed.

Lemma start_run w : start w
  = Ret true (if m_isStop (server w)
              then started (m_socks (server w)) (mkServerWorld (set_stop false (server w)) (sockets w) (next_socket w)
                     (worker w) (accept_worker w) (accepting w) (net w))
              else w).
Proof.
  unfold start. rewrite (bind_Ret _ _ w (server w) w) by done. destruct (m_isStop (server w)); cbn [negb]; [|done].
  erewrite (bind_Ret (upd_server _)) by done. erewrite bind_Ret by apply start_each. done.
Qed.

Lemma srv_ok_queues w w' : srv_ok w -> m_socks (server w') = m_socks (server w) -> sockets w' = sockets w ->
  next_socket w' = next_socket w -> (forall h, h ∈ accepting w' -> h ∈ accepting w \/ h ∈ m_socks (server w)) -> srv_ok w'.
Proof.
  intros [H1 H2 H3] E1 E2 E3 Ha. split; rewrite ?E1, ?E2, ?E3; [done| |done].
  intros h [?|Hh]; [auto|]. apply H2. destruct (Ha h Hh); auto.
Qed.

Lemma start_ok w : srv_ok w -> exists w', start w = Ret true w' /\ srv_ok w'.
Proof.
  intros Hok. rewrite start_run. eexists. split; [done|]. destruct (m_isStop (server w)); [|done].
  apply (srv_ok_queues w); try done. cbn. intros h [?|?]%elem_of_app; auto.
Qed.

Lemma run_stop_ok w : srv_ok w -> exists w', run_stop w = Ret tt w' /\ srv_ok w'
  /\ m_socks (server w') = [] /\ accepting w' = accepting w.
Proof.
  intros Hok. unfold run_stop. rewrite (bind_Ret _ _ w (m_socks (server w)) w) by done.
  destruct (each_runs (fun sock => on_sock sock cancelAll ;; on_sock sock close ;; ret tt) (m_socks (server w)) w)
    as (w1 & E & S1 & D1).
  - intros h w0 Hs. destruct (on_sock_runs cancelAll h w0 total_cancelAll Hs) as (b & w2 & E1 & [] & D1 & _).
    rewrite (bind_Ret _ _ _ _ _ E1).
    destruct (on_sock_runs close h w2 total_close) as (b2 & w3 & E2 & [] & D2 & _); [by apply D1|].
    rewrite (bind_Ret _ _ _ _ _ E2). exists w3. split; [done|]. split; [by split; etrans|]. intros h'. by rewrite D2, D1.
  - intros h Hh. apply Hok. by left.
  - rewrite (bind_Ret _ _ _ _ _ E).
    destruct (clear_runs w1) as (w2 & E2 & Hok2 & B1 & B2 & _); [by apply (srv_ok_same w)|].
    exists w2. split; [done|]. split; [done|]. split; [by rewrite B1|]. destruct S1. congruence.
Qed.

Definition accept_ends (sock : Z) : MS unit :=
  modify (fun w => mkServerWorld (server w) (sockets w) (next_socket w) (worker w) (accept_worker w)
    (remove_one sock (accepting w)) (net w)) ;;
  drop_socket sock.

Context (others : SW -> SW) (tv_addr : Z).

Definition run_server_op (o : ServerOp) : MS unit :=
  match o with
  | OBind addrs => server_bind addrs [] ;; ret tt
  | OStart => start ;; ret tt
  | OStop => stop
  | ORunStop => run_stop
  | OAccept h => let! w := get in if bool_decide (h ∈ accepting w) then accept_turn others tv_addr h else ret tt
  | OAcceptEnds h => let! w := get in if bool_decide (h ∈ accepting w) then accept_ends h else ret tt
  end.

Fixpoint run_server_ops (ops : list ServerOp) : MS unit :=
  match ops with
  | [] => ret tt
  | o :: ops => run_server_op o ;; run_server_ops ops
  end.

Context (Hothers : forall w, srv_ok w -> srv_ok (others w) /\ accepting w ⊆ accepting (others w)).

Lemma accept_turn_ok h w : srv_ok w -> h ∈ accepting w -> exists w', accept_turn others tv_addr h w = Ret tt w' /\ srv_ok w'.
Proof using Hothers.
  intros Hok0 Hh0. destruct (Hothers w Hok0) as [Hok Ha]. apply Ha in Hh0 as Hh.
  unfold accept_turn. erewrite (bind_Ret (modify others)) by done. set (v := others w) in *. clearbody v.
  destruct (on_sock_runs accept h v total_accept) as (c & w1 & E1 & S1 & D1 & _); [apply Hok; by right|].
  rewrite (bind_Ret _ _ _ _ _ E1). pose proof (srv_ok_same _ _ S1 D1 Hok) as [P1 P2 P3].
  destruct c as [client|]; [|by exists w1]. unfold new_socket at 1. unfold bind at 1. cbv beta iota.
  set (w2 := mkServerWorld _ _ _ _ _ _ _). rewrite (bind_Ret _ _ w2 (m_recvTimeout (server w2)) w2) by done.
  assert (srv_ok w2) as Hok2.
  { unfold w2. split; cbn; [done| |].
    - intros h' Hh'. destruct (decide (h' = next_socket w1)) as [->|]; [rewrite lookup_insert_eq; by eexists|].
      rewrite lookup_insert_ne by done. auto.
    - intros h' Hh'. destruct (decide (h' = next_socket w1)) as [->|]; [lia|].
      rewrite lookup_insert_ne in Hh' by done. apply P3 in Hh'. lia. }
  destruct (on_sock_runs (setRecvTimeout tv_addr (s64 (m_recvTimeout (server w2)))) (next_socket w1) w2
    (total_setRecvTimeout _ _)) as (u & w3 & E3 & S3 & D3 & _); [unfold w2; cbn; rewrite lookup_insert_eq; by eexists|].
  rewrite (bind_Ret _ _ _ _ _ E3). eexists. split; [done|].
  apply (srv_ok_queues w3); try done; [by apply (srv_ok_same w2)|]. cbn. auto.
Qed.

Lemma remove_one_sub h h' l : h' ∈ remove_one h l -> h' ∈ l.
Proof. induction l as [|x l IH]; [done|]. cbn. destruct (x =? h); set_solver. Qed.

Lemma accept_ends_ok h w : srv_ok w -> h ∈ accepting w -> exists w', accept_ends h w = Ret tt w' /\ srv_ok w'.
Proof.
  intros Hok Hh. unfold accept_ends. erewrite (bind_Ret (modify _)) by done. set (w1 := mkServerWorld _ _ _ _ _ _ _).
  assert (srv_ok w1) as Hok1 by (apply (srv_ok_queues w); try done; cbn; intros h' ?%remove_one_sub; auto).
  destruct (drop_runs h w1) as (w2 & E2 & [T1 T2 T3 T4 T5] & D2 & _).
  { unfold w1. cbn. apply Hok. by right. }
  exists w2. split; [done|]. destruct Hok1 as [H1 H2 H3]. split; rewrite ?T1, ?T2, ?T5; [done| |].
  - intros h' Hh'. apply D2. split; [auto|]. destruct (decide (h' = h)) as [->|]; [|by left]. tauto.
  - intros h' Hh'. apply H3. by apply D2 in Hh' as [? _].
Qed.

(** C29: whatever is called on a server and whatever its accept tasks do, in any order, nothing touches a socket that has
    gone: every run returns, and at its end the sockets of the server, each once, and those of the accept tasks are
    there. *)
Theorem server_runs ops w : srv_ok w -> exists w', run_server_ops ops w = Ret tt w' /\ srv_ok w'.
Proof using Hothers.
  revert w. induction ops as [|o ops IH]; intros w Hok; [by exists w|]. cbn [run_server_ops].
  assert (exists w1, run_server_op o w = Ret tt w1 /\ srv_ok w1) as (w1 & E & Hok1).
  { destruct o as [addrs| | | |h|h]; cbn [run_server_op].
    - destruct (bind_loop_runs addrs w Hok) as (fails & new & w1 & E & Hok1 & _). unfold server_bind.
      unfold bind at 1. rewrite (bind_Ret _ _ _ _ _ E). case_bool_decide; [by exists w1|].
      destruct (clear_runs w1 Hok1) as (w2 & E2 & Hok2 & _). rewrite (bind_Ret _ _ _ _ _ E2). by exists w2.
    - destruct (start_ok w Hok) as (w1 & E & Hok1). rewrite (bind_Ret _ _ _ _ _ E). by exists w1.
    - eexists. split; [done|]. apply (srv_ok_queues w); try done. cbn. auto.
    - destruct (run_stop_ok w Hok) as (w1 & E & Hok1 & _). by exists w1.
    - rewrite (bind_Ret get _ w w w) by done. case_bool_decide; [by apply accept_turn_ok|by exists w].
    - rewrite (bind_Ret get _ w w w) by done. case_bool_decide; [by apply accept_ends_ok|by exists w]. }
  rewrite (bind_Ret _ _ _ _ _ E). by apply IH.
Qed.
End Life.

(** [start] gives the accept worker a task for each socket, once: on a running server it does nothing. [stop] is seen at
    the next round of every accept task, which ends, and its own task closes the sockets and leaves the server with none. *)
Theorem server_start_stop `{Host} {K} `{SocketCalls K} others tv_addr (w : ServerWorld K) fuel h :
  srv_ok w -> m_isStop (server w) = true ->
  exists w1 w2 w3, start w = Ret true w1
  /\ accept_worker w1 = accept_worker w ++ map TaskStartAccept (m_socks (server w)) /\ m_isStop (server w1) = false
  /\ start w1 = Ret true w1
  /\ stop w1 = Ret tt w2 /\ accept_worker w2 = accept_worker w1 ++ [TaskStop]
  /\ startAccept others tv_addr fuel h w2 = Ret tt w2
  /\ run_stop w2 = Ret tt w3 /\ m_socks (server w3) = [] /\ srv_ok w3.
Proof.
  intros Hok Hs. destruct (start_ok w Hok) as (w1 & E1 & Hok1). rewrite start_run, Hs in E1. injection E1 as E1.
  set (w2 := mkServerWorld (set_stop true (server w1)) (sockets w1) (next_socket w1) (worker w1)
    (accept_worker w1 ++ [TaskStop]) (accepting w1) (net w1)).
  assert (srv_ok w2) as Hok2 by (apply (srv_ok_queues w1); try done; cbn; auto).
  destruct (run_stop_ok w2 Hok2) as (w3 & E3 & Hok3 & M3 & _).
  exists w1, w2, w3. rewrite start_run, Hs, <- E1. split; [done|]. split; [done|]. split; [done|].
  split; [rewrite start_run; done|]. rewrite E1. split; [done|]. split; [done|]. split; [|done].
  by destruct fuel.
Qed.

(** ** A server to try them on *)

Definition demo_tcp : ServerWorld DemoWorld := mkServerWorld new_TcpServer ∅ 1 [] [] [] (mkDemoWorld 3 []).
Definition demo_addr : Address := IPv4Address (mkIn 2 0 0 []).

Lemma demo_tcp_ok : srv_ok demo_tcp.
Proof.
  split; [constructor| |].
  - intros h [Hh|Hh]; by apply elem_of_nil in Hh.
  - intros h [? Hh]. done.
Qed.

(** One address and one of another family: nothing is left. *)
Lemma server_bind_spec_witness : exists ok fails w',
  @server_bind x86_64 _ demo_calls [demo_addr; UnKnowAddress (mkSockaddr 0 [])] [] demo_tcp = Ret (ok, fails) w'
  /\ srv_ok w' /\ (ok = true <-> fails = []).
Proof.
  destruct (@server_bind_spec x86_64 _ demo_calls [demo_addr; UnKnowAddress (mkSockaddr 0 [])] demo_tcp demo_tcp_ok)
    as (ok & fails & w' & E & Hok & Hf & _).
  exists ok, fails, w'. split; [exact E|]. split; [exact Hok|exact Hf].
Defined.

Lemma server_runs_witness : exists w',
  @run_server_ops x86_64 _ demo_calls id 0 [OBind [demo_addr]; OStart; OAccept 1; OStop; ORunStop; OAcceptEnds 1] demo_tcp
    = Ret tt w'
  /\ sockets w' !! 1 = None /\ map worker [w'] = [[TaskHandleClient 2]].
Proof.
  destruct (@server_runs x86_64 _ demo_calls id 0 (fun w H => conj H (fun h Hh => Hh))
    [OBind [demo_addr]; OStart; OAccept 1; OStop; ORunStop; OAcceptEnds 1] demo_tcp demo_tcp_ok) as (w' & E & _).
  exists w'. split; [exact E|]. vm_compute in E. injection E as <-. split; vm_compute; reflexivity.
Defined.

Lemma server_start_stop_witness : exists w1 w2 w3, @start DemoWorld demo_tcp = Ret true w1
  /\ @stop DemoWorld w1 = Ret tt w2 /\ @run_stop _ demo_calls w2 = Ret tt w3 /\ m_socks (server w3) = [].
Proof.
  destruct (@server_start_stop x86_64 _ demo_calls id 0 demo_tcp 0 1 demo_tcp_ok eq_refl)
    as (w1 & w2 & w3 & E1 & _ & _ & _ & E2 & _ & _ & E3 & E4 & _).
  exists w1, w2, w3. split; [exact E1|]. split; [exact E2|]. split; [exact E3|exact E4].
Defined.
