(* ===== verification/Config.v ===== *)
(** * Config: [sylar/config.h] and [config.cpp]

    The casts between texts and values, the configuration variables with their listeners, and the registry that is
    loaded from a YAML document. YAML is the class [Yaml]: what yaml-cpp does with texts and nodes.
    A cast gives [None] where it throws. A variable of any type is a [ConfigVar] over one type [V] of values,
    with the C++ type as a tag. *)

From S2P Require Import Prelude Std.

(** ** yaml-cpp *)

(** [y_load] is [YAML::Load], [None] where it throws; [y_emit] what [<<] prints; [y_at n i] is [n[i]], [y_get n k] is [n[k]] where it is
    defined, [y_entries] the pairs of a map in order; [y_seq] and [y_map] are nodes built by [push_back] and by assignments. *)
Class Yaml (Node : Type) := {
  y_load : list Z -> option Node;
  y_emit : Node -> list Z;
  y_is_map : Node -> bool;
  y_is_scalar : Node -> bool;
  y_scalar : Node -> list Z;
  y_size : Node -> nat;
  y_at : Node -> nat -> Node;
  y_entries : Node -> list (Node * Node);
  y_get : Node -> list Z -> option Node;
  y_string : Node -> option (list Z);
  y_null : Node;
  y_text : list Z -> Node;
  y_seq : list Node -> Node;
  y_map : list (list Z * Node) -> Node
}.

(** A cast between [F] and [T], generic or specialised. *)
(* SRC sylar/config.h:50-56 LexicalCast *)
Definition LexicalCast (F T : Type) : Type := F -> option T.
Notation text := (list Z).

Section Casts.
Context {Node : Type} `{!Yaml Node}.

(** The texts of the elements [node[0]], ..., and of the pairs, each printed by itself. *)
Definition element_texts (node : Node) : list text :=
  map (fun i => y_emit (y_at node i)) (seq 0 (y_size node)).
Definition entry_texts (node : Node) : list (text * text) :=
  map (fun it => (y_scalar it.1, y_emit it.2)) (y_entries node).

(** The node of one value: [YAML::Load(LexicalCast<T, std::string>()(i))]. *)
Definition load_value {T} (to_text : LexicalCast T text) (v : T) : option Node := to_text v ≫= y_load.

Definition emit_seq {T} (to_text : LexicalCast T text) (v : list T) : option text :=
  nodes ← mapM (load_value to_text) v; Some (y_emit (y_seq nodes)).
Definition emit_map {T} (to_text : LexicalCast T text) (v : list (text * T)) : option text :=
  nodes ← mapM (fun kv : text * T => node ← load_value to_text kv.2; Some (kv.1, node)) v;
  Some (y_emit (y_map nodes)).

(* SRC sylar/config.h:58-72 LexicalCast<std::string, std::vector<T>> *)
Definition text_to_vector {T} (of_text : LexicalCast text T) : LexicalCast text (list T) := fun v =>
  node ← y_load v; mapM of_text (element_texts node).
(* SRC sylar/config.h:74-86 LexicalCast<std::vector<T>, std::string> *)
Definition vector_to_text {T} (to_text : LexicalCast T text) : LexicalCast (list T) text := emit_seq to_text.

(* SRC sylar/config.h:88-102 LexicalCast<std::string, std::list<T>> *)
Definition text_to_list {T} (of_text : LexicalCast text T) : LexicalCast text (list T) := fun v =>
  node ← y_load v; mapM of_text (element_texts node).
(* SRC sylar/config.h:104-116 LexicalCast<std::list<T>, std::string> *)
Definition list_to_text {T} (to_text : LexicalCast T text) : LexicalCast (list T) text := emit_seq to_text.

(** [std::set]: the elements in the order [less]. *)
(* SRC sylar/config.h:118-133 LexicalCast<std::string, std::set<T>> *)
Definition text_to_set {T} (less : T -> T -> bool) (of_text : LexicalCast text T) : LexicalCast text (list T) := fun v =>
  node ← y_load v;
  elems ← mapM of_text (element_texts node);
  Some (foldl (fun t_set x => set_insert less x t_set) [] elems).
(* SRC sylar/config.h:135-147 LexicalCast<std::set<T>, std::string> *)
Definition set_to_text {T} (to_text : LexicalCast T text) : LexicalCast (list T) text := emit_seq to_text.

(* SRC sylar/config.h:149-163 LexicalCast<std::string, std::unordered_set<T>> *)
Definition text_to_unordered_set {T} `{Countable T} (of_text : LexicalCast text T) : LexicalCast text (gset T) := fun v =>
  node ← y_load v;
  elems ← mapM of_text (element_texts node);
  Some (foldl (fun t_u_set x => {[x]} ∪ t_u_set) ∅ elems).
(* SRC sylar/config.h:165-177 LexicalCast<std::unordered_set<T>, std::string> *)
Definition unordered_set_to_text {T} `{Countable T} (to_text : LexicalCast T text) : LexicalCast (gset T) text := fun v =>
  emit_seq to_text (elements v).

(** [std::map] with string keys: an [insert] of a key that is there does nothing. *)
Definition text_less (a b : text) : bool := match cmp_bytes a b with Lt => true | _ => false end.

(* SRC sylar/config.h:179-194 LexicalCast<std::string, std::map<std::string, T>> *)
Definition text_to_map {T} (of_text : LexicalCast text T) : LexicalCast text (list (text * T)) := fun v =>
  node ← y_load v;
  pairs ← mapM (fun kv : text * text => x ← of_text kv.2; Some (kv.1, x)) (entry_texts node);
  Some (foldl (fun t_map kv => map_insert text_less kv.1 kv.2 t_map) [] pairs).
(* SRC sylar/config.h:196-208 LexicalCast<std::map<std::string, T>, std::string> *)
Definition map_to_text {T} (to_text : LexicalCast T text) : LexicalCast (list (text * T)) text := emit_map to_text.

(* SRC sylar/config.h:210-225 LexicalCast<std::string, std::unordered_map<std::string, T>> *)
Definition text_to_unordered_map {T} (of_text : LexicalCast text T) : LexicalCast text (gmap text T) := fun v =>
  node ← y_load v;
  pairs ← mapM (fun kv : text * text => x ← of_text kv.2; Some (kv.1, x)) (entry_texts node);
  Some (foldl (fun t_umap kv => match t_umap !! kv.1 with Some _ => t_umap | None => <[kv.1 := kv.2]> t_umap end) ∅ pairs).
(* SRC sylar/config.h:227-239 LexicalCast<std::unordered_map<std::string, T>, std::string> *)
Definition unordered_map_to_text {T} (to_text : LexicalCast T text) : LexicalCast (gmap text T) text := fun v =>
  emit_map to_text (map_to_list v).
End Casts.

(** ** Locks *)

(** A [pthread_rwlock_t] as one thread sees it; a lock it waits for without end is [None]. The wrappers of
    [sylar/thread.h] ignore what the calls return. *)
Class RWLock (L : Type) := {
  rw_init : L;
  rdlock : L -> option L;
  wrlock : L -> option L;
  unlock : L -> L
}.

(** ** Variables *)

Definition lower (name : text) : text := map tolower name.

Section ConfigVar.
(** Values of all types, compared by [==]; [of_text] and [to_text] are the casts of a type. *)
Context {L : Type} `{!RWLock L} {V : Type} `{!EqDecision V} (of_text : Z -> LexicalCast text V) (to_text : Z -> LexicalCast V text).

(** [m_cbs] in the order of the keys; a listener is a number for what it does. *)
(* SRC sylar/config.h:328-332 ConfigVar *)
Record ConfigVar := mkConfigVar {
  m_name : text;
  m_description : text;
  m_type : Z;
  m_val : V;
  m_cbs : list (Z * Z);
  m_mutex : L
}.

(* SRC sylar/config.h:252-257 ConfigVar::ConfigVar *)
Definition new_ConfigVar (type : Z) (name : text) (default_value : V) (description : text) : ConfigVar :=
  mkConfigVar (lower name) description type default_value [] rw_init.

Definition set_val v c := mkConfigVar (m_name c) (m_description c) (m_type c) v (m_cbs c) (m_mutex c).
Definition set_cbs v c := mkConfigVar (m_name c) (m_description c) (m_type c) (m_val c) v (m_mutex c).
Definition set_mutex v c := mkConfigVar (m_name c) (m_description c) (m_type c) (m_val c) (m_cbs c) v.

(** The registry: variables behind pointers, by name; [s_fun_id] counts the listeners of a type. [user] is the rest of
    the world, which listeners act on. *)
(* SRC sylar/config.h:380-383 Config::GetDatas *)
Record Registry (X : Type) := mkRegistry {
  vars : gmap Z ConfigVar;
  next_var : Z;
  s_datas : gmap text Z;
  s_fun_id : gmap Z Z;
  s_mutex : L;
  user : X
}.
Arguments mkRegistry {X}.
Arguments vars {X}.
Arguments next_var {X}.
Arguments s_datas {X}.
Arguments s_fun_id {X}.
Arguments s_mutex {X}.
Arguments user {X}.

Context {X : Type} (call : Z -> V -> V -> M (Registry X) unit).
Notation MR := (M (Registry X)).

Definition load (a : Z) : MR ConfigVar := fun w =>
  match vars w !! a with Some c => Ret c w | None => UB NullDeref end.
Definition upd_var (a : Z) (f : ConfigVar -> ConfigVar) : MR unit := fun w =>
  match vars w !! a with
  | Some c => Ret tt (mkRegistry (<[a := f c]> (vars w)) (next_var w) (s_datas w) (s_fun_id w) (s_mutex w) (user w))
  | None => UB NullDeref
  end.

(** A scope with a lock: it is unlocked when the scope is left, by an exception too. *)
Definition guard {A} (lock unlock : MR unit) (m : MR A) : MR A := fun w =>
  match lock w with
  | Ret _ w =>
      match m w with
      | Ret a w => (unlock ;; ret a) w
      | Exn e w => (unlock ;; throw e) w
      | UB f => UB f
      end
  | Exn e w => Exn e w
  | UB f => UB f
  end.

Definition var_lock (this : Z) (f : L -> option L) : MR unit :=
  let! c := load this in
  match f (m_mutex c) with None => fail_with Deadlock | Some l => upd_var this (set_mutex l) end.
Definition var_unlock (this : Z) : MR unit := upd_var this (fun c => set_mutex (unlock (m_mutex c)) c).
Definition reading {A} (this : Z) : MR A -> MR A := guard (var_lock this rdlock) (var_unlock this).
Definition writing {A} (this : Z) : MR A -> MR A := guard (var_lock this wrlock) (var_unlock this).

Definition map_lock (f : L -> option L) : MR unit := fun w =>
  match f (s_mutex w) with
  | None => UB Deadlock
  | Some l => Ret tt (mkRegistry (vars w) (next_var w) (s_datas w) (s_fun_id w) l (user w))
  end.
Definition map_unlock : MR unit := modify (fun w =>
  mkRegistry (vars w) (next_var w) (s_datas w) (s_fun_id w) (unlock (s_mutex w)) (user w)).
Definition map_reading {A} : MR A -> MR A := guard (map_lock rdlock) map_unlock.
Definition map_writing {A} : MR A -> MR A := guard (map_lock wrlock) map_unlock.

Definition int_less (a b : Z) : bool := a <? b.

(** The listeners one after the other, in the order of their keys. *)
Fixpoint notify (cbs : list (Z * Z)) (old new : V) : MR unit :=
  match cbs with
  | [] => ret tt
  | i :: cbs => call i.2 old new ;; notify cbs old new
  end.

(* SRC sylar/config.h:283-286 ConfigVar::getValue *)
Definition getValue (this : Z) : MR V := reading this (let! c := load this in ret (m_val c)).

(** Listeners must leave this variable's listeners alone: the loop is over them. *)
(* SRC sylar/config.h:288-300 ConfigVar::setValue *)
Definition setValue (this : Z) (v : V) : MR unit :=
  let! changed :=
    reading this
      (let! c := load this in
       if bool_decide (v = m_val c) then ret false else notify (m_cbs c) (m_val c) v ;; ret true) in
  if (changed : bool) then writing this (upd_var this (set_val v)) else ret tt.

(** The cast and what [setValue] does, in a handler for every exception: the result is [false] in any case. *)
(* SRC sylar/config.h:271-281 ConfigVar::fromString *)
Definition fromString (this : Z) (val : text) : MR bool := fun w =>
  match
    writing this
      (let! c := load this in
       match of_text (m_type c) val with
       | None => throw bad_cast
       | Some v => setValue this v
       end) w
  with
  | Ret _ w => Ret false w
  | Exn _ w => Ret false w
  | UB f => UB f
  end.

(* SRC sylar/config.h:259-269 ConfigVar::toString *)
Definition toString (this : Z) : MR text :=
  reading this (let! c := load this in ret (default [] (to_text (m_type c) (m_val c)))).

(* SRC sylar/config.h:304-310 ConfigVar::addListener *)
Definition addListener (this cb : Z) : MR Z :=
  writing this
    (let! c := load this in
     let! ids := gets s_fun_id in
     let id := u64 (default 0 (ids !! m_type c) + 1) in
     modify (fun w => mkRegistry (vars w) (next_var w) (s_datas w) (<[m_type c := id]> (s_fun_id w)) (s_mutex w) (user w)) ;;
     upd_var this (fun c => set_cbs (map_assign int_less id cb (m_cbs c)) c) ;;
     ret id).

(* SRC sylar/config.h:312-315 ConfigVar::delListener *)
Definition delListener (this key : Z) : MR unit :=
  writing this (upd_var this (fun c => set_cbs (map_erase int_less key (m_cbs c)) c)).

(* SRC sylar/config.h:317-321 ConfigVar::getListener *)
Definition getListener (this key : Z) : MR (option Z) :=
  reading this (let! c := load this in ret (snd <$> map_find int_less key (m_cbs c))).

(* SRC sylar/config.h:323-326 ConfigVar::clearListener *)
Definition clearListener (this : Z) : MR unit := writing this (upd_var this (set_cbs [])).

(** ** The registry *)

(** The characters of names. *)
Definition name_char (b : Z) : bool :=
  ((97 <=? b) && (b <=? 122)) || (b =? 46) || (b =? 95) || ((48 <=? b) && (b <=? 57)).

(** [dynamic_pointer_cast] gives the null pointer for a variable of another type. *)
(* SRC sylar/config.h:363-371 Config::Lookup *)
Definition Lookup (type : Z) (name : text) : MR (option Z) := map_reading (fun w =>
  match s_datas w !! name with
  | None => Ret None w
  | Some a =>
      match vars w !! a with
      | Some c => Ret (if m_type c =? type then Some a else None) w
      | None => UB NullDeref
      end
  end).

(** The two parts are under two locks. *)
(* SRC sylar/config.h:339-361 Config::Lookup *)
Definition Lookup_default (type : Z) (name : text) (default_value : V) (description : text) : MR Z :=
  let! tmp := Lookup type name in
  map_writing
    match tmp with
    | Some a => ret a
    | None =>
        if negb (forallb name_char name) then throw invalid_argument
        else fun w =>
          let a := next_var w in
          Ret a (mkRegistry (<[a := new_ConfigVar type name default_value description]> (vars w)) (a + 1)
            (<[name := a]> (s_datas w)) (s_fun_id w) (s_mutex w) (user w))
    end.

(* SRC sylar/config.cpp:6-10 Config::LookupBase *)
Definition LookupBase (name : text) : MR (option Z) := map_reading (gets (fun w => s_datas w !! name)).

Section Load.
Context {Node : Type} `{!Yaml Node}.

(** The nodes with their paths; a path with other characters is left out with what is below it. The depth of the
    document bounds the recursion. *)
(* SRC sylar/config.cpp:15-31 ListAllMember *)
Fixpoint ListAllMember (fuel : nat) (prefix : text) (node : Node) : option (list (text * Node)) :=
  match fuel with
  | O => None
  | S fuel =>
      if negb (forallb name_char prefix) then Some []
      else
        below ← (if y_is_map node then
                   mapM (fun it : Node * Node =>
                     ListAllMember fuel
                       (if bool_decide (prefix = []) then y_scalar it.1 else prefix ++ [46] ++ y_scalar it.1) it.2)
                     (y_entries node)
                 else Some []);
        Some ((prefix, node) :: concat below)
  end.

(* SRC sylar/config.cpp:37-55 Config::LoadFromYaml *)
Fixpoint load_nodes (all_nodes : list (text * Node)) : MR unit :=
  match all_nodes with
  | [] => ret tt
  | i :: all_nodes =>
      let key := i.1 in
      (if bool_decide (key = []) then ret tt
       else
         let! var := LookupBase (lower key) in
         match var with
         | Some a => fromString a (if y_is_scalar i.2 then y_scalar i.2 else y_emit i.2) ;; ret tt
         | None => ret tt
         end) ;;
      load_nodes all_nodes
  end.

(* SRC sylar/config.cpp:33-56 Config::LoadFromYaml *)
Definition LoadFromYaml (fuel : nat) (root : Node) : MR unit :=
  match ListAllMember fuel [] root with
  | None => fail_with OutOfFuel
  | Some all_nodes => load_nodes all_nodes
  end.
End Load.

(** [cb] is called on the variables in the order of their names. *)
Definition registered (w : Registry X) : list Z :=
  map snd (foldl (fun m kv => map_insert text_less kv.1 kv.2 m) [] (map_to_list (s_datas w))).

(* SRC sylar/config.cpp:58-65 Config::Visit *)
Fixpoint visit_each (cb : Z -> MR unit) (l : list Z) : MR unit :=
  match l with
  | [] => ret tt
  | a :: l => cb a ;; visit_each cb l
  end.
(* SRC sylar/config.cpp:58-65 Config::Visit *)
Definition Visit (cb : Z -> MR unit) : MR unit :=
  map_reading (let! l := gets registered in visit_each cb l).
End ConfigVar.
