(* ===== verification/ConfigSpec.v ===== *)
(** * ConfigSpec: casts of containers, listeners of variables, the registry

    [casts_spec]: what the casts between texts and containers give, for any YAML library.
    [setValue_spec], [fromString_locks] and [lookup_spec] say what the variables and the
    registry do, and [members_spec] what is loaded of a document. *)

From S2P Require Import Prelude Std Config.

(** ** Building the containers *)

Lemma set_insert_last {T} (less : T -> T -> bool) `{!StrictWeakOrder less} l x :
  Forall (fun y => less y x = true) l -> set_insert less x l = l ++ [x].
Proof.
  induction 1 as [|y l Hy _ IH]; [done|]. cbn. destruct (less x y) eqn:E.
  - pose proof (swo_trans _ _ _ Hy E) as C. by rewrite swo_irrefl in C.
  - by rewrite Hy, IH.
Qed.

Lemma sorted_snoc {A} (R : A -> A -> Prop) l x : Sorting.Sorted.StronglySorted R (l ++ [x]) ->
  Sorting.Sorted.StronglySorted R l /\ Forall (fun y => R y x) l.
Proof.
  induction l as [|y l IH]; cbn; [by repeat constructor|]. intros Hs. inversion_clear Hs as [|? ? Hl Hy].
  destruct (IH Hl) as [H1 H2]. apply Forall_app in Hy as [Hy Hx]. apply Forall_cons_1 in Hx as [Hx _].
  by repeat constructor.
Qed.

Lemma foldl_gset {T} `{Countable T} (l : list T) (s : gset T) :
  foldl (fun s x => {[x]} ∪ s) s l = list_to_set l ∪ s.
Proof. revert s. induction l as [|x l IH]; intros s; cbn; [set_solver|]. rewrite IH. set_solver. Qed.


(** The value of the first pair with a key. *)
Definition first_value {T} (k : text) (l : list (text * T)) : option T :=
  snd <$> List.find (fun kv => bool_decide (kv.1 = k)) l.

Lemma first_value_cons {T} k k' (x : T) l :
  first_value k ((k', x) :: l) = if bool_decide (k' = k) then Some x else first_value k l.
Proof. unfold first_value. simpl. by case_bool_decide. Qed.
#[local] Arguments first_value : simpl never.

Lemma same_key_text k1 k2 : same_key text_less k1 k2 = bool_decide (k1 = k2).
Proof.
  unfold same_key, text_less. rewrite (cmp_bytes_antisym k1 k2). apply eq_true_iff_eq.
  rewrite bool_decide_eq_true, <- cmp_bytes_eq. by destruct (cmp_bytes k1 k2).
Qed.

(** A set built by inserting: in order, of the elements inserted, and with an equivalent of each. *)
Lemma foldl_set_insert {T} (less : T -> T -> bool) `{!StrictWeakOrder less} l s : set_sorted less s ->
  let s' := foldl (fun s x => set_insert less x s) s l in
  set_sorted less s' /\ (forall x, x ∈ s' -> x ∈ s \/ x ∈ l)
  /\ (forall x, x ∈ s -> x ∈ s') /\ (forall x, x ∈ l -> exists y, y ∈ s' /\ same_key less x y = true).
Proof.
  revert s. induction l as [|x l IH]; intros s Hs; cbn.
  { split_and!; auto. by intros x ?%elem_of_nil. }
  destruct (IH (set_insert less x s) (set_insert_sorted less x s Hs)) as (H1 & H2 & H3 & H4).
  split; [done|]. split; [|split].
  - intros y [[->|?]%set_insert_in|?]%H2; [by right; left|by left|by right; right].
  - intros y Hy. by apply H3, set_insert_mono.
  - intros y [->|Hy]%elem_of_cons; [|by apply H4].
    destruct (set_insert_mem less x s) as (z & Hz & E). exists z. split; [by apply H3|done].
Qed.

(** A map built by inserting: the first pair of a key stays. *)
Lemma foldl_map_insert {T} (l m : list (text * T)) : map_sorted text_less m ->
  let m' := foldl (fun m kv => map_insert text_less kv.1 kv.2 m) m l in
  map_sorted text_less m' /\ forall k, option_map snd (map_find text_less k m')
    = match map_find text_less k m with Some p => Some p.2 | None => first_value k l end.
Proof.
  revert m. induction l as [|[k v] l IH]; intros m Hm; cbn.
  { split; [done|]. intros k. by destruct (map_find text_less k m). }
  pose proof (swo_of_bytes id : StrictWeakOrder text_less) as Hswo.
  destruct (IH (map_insert text_less k v m)) as [H1 H2]; [by apply map_insert_sorted|].
  split; [done|]. intros k0. rewrite H2, first_value_cons.
  pose proof (map_find_insert text_less k v m k0 Hm) as Hf. rewrite same_key_text in Hf.
  destruct (map_find text_less k0 m) as [p|]; [destruct (map_find _ _ (map_insert _ _ _ _)); naive_solver|].
  destruct (map_find _ _ (map_insert _ _ _ _)) as [p|]; case_bool_decide; naive_solver.
Qed.

Lemma foldl_gmap {T} (l : list (text * T)) (m : gmap text T) k :
  foldl (fun m kv => match m !! kv.1 with Some _ => m | None => <[kv.1 := kv.2]> m end) m l !! k
  = match m !! k with Some x => Some x | None => first_value k l end.
Proof.
  revert m. induction l as [|[k' x] l IH]; intros m; cbn; [by destruct (m !! k)|].
  rewrite IH, first_value_cons. destruct (m !! k') as [y|] eqn:E.
  - case_bool_decide; [subst|done]. by rewrite E.
  - case_bool_decide as Ek; [subst; by rewrite lookup_insert_eq, E|]. by rewrite lookup_insert_ne.
Qed.

(** ** Casts *)

Lemma mapM_none {A B} (f : A -> option B) (l : list A) : Exists (fun x => f x = None) l -> mapM f l = None.
Proof.
  induction 1 as [x l E|x l _ IH]; cbn; [by rewrite E|]. destruct (f x); [|done]. cbn. by rewrite IH.
Qed.

Section Casts.
Context {Node : Type} `{!Yaml Node} {T : Type} `{Countable T} (less : T -> T -> bool) `{!StrictWeakOrder less}.
Context (of_text : LexicalCast text T) (to_text : LexicalCast T text).

(** The cast of each text, in order; of each text of a pair, with its key. *)
Definition cast_all (ts : list text) (v : list T) : Prop := Forall2 (fun t x => of_text t = Some x) ts v.
Definition cast_pairs (ts : list (text * text)) (v : list (text * T)) : Prop :=
  Forall2 (fun t x => x.1 = t.1 /\ of_text t.2 = Some x.2) ts v.

Lemma cast_all_mapM ts v : cast_all ts v -> mapM of_text ts = Some v.
Proof. intros Hv. by apply mapM_Some. Qed.

Lemma cast_pairs_mapM ts v : cast_pairs ts v ->
  mapM (fun kv : text * text => x ← of_text kv.2; Some (kv.1, x)) ts = Some v.
Proof.
  intros Hv. apply mapM_Some. eapply list.Forall2_impl; [exact Hv|]. intros [k t] [k' x] [E1 E2]. simpl in *. subst.
  by rewrite E2.
Qed.

End Casts.

(** ** Variables *)

(** A lock that is free is taken by either call, and free again after it is unlocked. *)
Class RWLaws (L : Type) `{!RWLock L} := {
  rd_held : L;
  wr_held : L;
  rdlock_free : rdlock rw_init = Some rd_held;
  wrlock_free : wrlock rw_init = Some wr_held;
  unlock_rd : unlock rd_held = rw_init;
  unlock_wr : unlock wr_held = rw_init
}.

Section Variables.
Context {L : Type} `{RWLaws L} {V : Type} `{!EqDecision V} (of_text : Z -> LexicalCast text V).
Context {X : Type} (call : Z -> V -> V -> M (@Registry L V X) unit).
Notation ConfigVar := (@ConfigVar L V).
Notation Registry := (@Registry L V X).
Implicit Types (w : Registry) (c : ConfigVar) (a : Z).

(** The registry with another variable at an address. *)
Definition with_var a c w : Registry :=
  mkRegistry _ (<[a := c]> (vars _ w)) (next_var _ w) (s_datas _ w) (s_fun_id _ w) (s_mutex _ w) (user _ w).

Lemma with_var_with_var a c1 c2 w : with_var a c1 (with_var a c2 w) = with_var a c1 w.
Proof. unfold with_var. cbn. by rewrite insert_insert_eq. Qed.

Lemma with_var_same a c w : vars _ w !! a = Some c -> with_var a c w = w.
Proof. intros E. unfold with_var. rewrite insert_id by done. by destruct w. Qed.

Lemma load_with_var a c w : load a (with_var a c w) = Ret c (with_var a c w).
Proof. unfold load, with_var. cbn. by rewrite lookup_insert_eq. Qed.

Lemma upd_with_var a c f w : upd_var a f (with_var a c w) = Ret tt (with_var a (f c) w).
Proof. unfold upd_var. cbn. rewrite lookup_insert_eq. unfold with_var. cbn. by rewrite insert_insert_eq. Qed.

(** A scope whose lock is free to take. *)
Lemma guard_var {A} a c w l (lk : L -> option L) (m : M Registry A) : vars _ w !! a = Some c -> lk (m_mutex c) = Some l ->
  guard (var_lock a lk) (var_unlock a) m w
  = match m (with_var a (set_mutex l c) w) with
    | Ret x w => (var_unlock a ;; ret x) w
    | Exn e w => (var_unlock a ;; throw e) w
    | UB f => UB f
    end.
Proof.
  intros E El. unfold guard, var_lock. rewrite <- (with_var_same a c w E) at 1.
  rewrite (bind_Ret _ _ _ _ _ (load_with_var a c w)), El, upd_with_var. done.
Qed.

Lemma unlock_with_var {A} a c w (m : M Registry A) :
  (var_unlock a ;; m) (with_var a c w) = m (with_var a (set_mutex (unlock (m_mutex c)) c) w).
Proof.
  unfold var_unlock.
  by rewrite (bind_Ret _ _ _ _ _ (upd_with_var a c (fun c => set_mutex (unlock (m_mutex c)) c) w)).
Qed.

Lemma setValue_changed a c w v : vars _ w !! a = Some c -> m_mutex c = rw_init -> v <> m_val c ->
  setValue call a v w
  = match notify call (m_cbs c) (m_val c) v (with_var a (set_mutex rd_held c) w) with
    | Ret _ w => (var_unlock a ;; writing a (upd_var a (set_val v))) w
    | Exn e w => (var_unlock a ;; throw e) w
    | UB f => UB f
    end.
Proof.
  intros E Em Hv. unfold setValue, reading. unfold bind at 1.
  rewrite (guard_var a c w rd_held rdlock _ E) by (by rewrite Em, rdlock_free).
  rewrite (bind_Ret _ _ _ _ _ (load_with_var a _ w)). cbn [m_val m_cbs set_mutex].
  rewrite bool_decide_eq_false_2 by done. unfold bind at 1.
  destruct (notify call (m_cbs c) (m_val c) v _) as [[] w2|e w2|f]; [| |done].
  - unfold bind. cbn. unfold var_unlock. by destruct (upd_var a _ w2).
  - unfold bind. by destruct (var_unlock a w2).
Qed.

(** C26: setting a variable to the value it has does nothing. Otherwise its listeners are called in the order of their keys with
    the old and the new value, and if they return, and leave the variable, it has the new value;
    if one throws, the others are not called and the old value stays. The lock is free again. *)
Theorem setValue_spec a c w v : vars _ w !! a = Some c -> m_mutex c = rw_init ->
  (v = m_val c -> setValue call a v w = Ret tt w)
  /\ (forall w2 c2, v <> m_val c -> notify call (m_cbs c) (m_val c) v (with_var a (set_mutex rd_held c) w) = Ret tt w2 ->
       vars _ w2 !! a = Some c2 -> m_mutex c2 = rd_held ->
       setValue call a v w = Ret tt (with_var a (set_mutex rw_init (set_val v c2)) w2))
  /\ (forall before after k cb w1 e w2, v <> m_val c -> m_cbs c = before ++ (k, cb) :: after ->
       notify call before (m_val c) v (with_var a (set_mutex rd_held c) w) = Ret tt w1 ->
       call cb (m_val c) v w1 = Exn e (with_var a (set_mutex rd_held c) w2) ->
       setValue call a v w = Exn e (with_var a (set_mutex rw_init c) w2)).
Proof.
  intros E Em. split; [|split].
  - intros Hv. unfold setValue, reading. unfold bind at 1.
    rewrite (guard_var a c w rd_held rdlock _ E) by (by rewrite Em, rdlock_free).
    rewrite (bind_Ret _ _ _ _ _ (load_with_var a _ w)). cbn [m_val set_mutex]. rewrite bool_decide_eq_true_2 by done.
    unfold ret at 1. rewrite unlock_with_var. cbn [m_mutex set_mutex]. rewrite unlock_rd. unfold ret.
    rewrite with_var_same; [done|]. rewrite E, <- Em. by destruct c.
  - intros w2 c2 Hv En E2 Em2. rewrite (setValue_changed _ _ _ _ E Em Hv), En. rewrite <- (with_var_same a c2 w2 E2) at 1.
    rewrite unlock_with_var. rewrite Em2, unlock_rd. unfold writing.
    rewrite (guard_var a (set_mutex rw_init c2) _ wr_held wrlock) by (cbn; by rewrite ?lookup_insert_eq, ?wrlock_free).
    rewrite with_var_with_var, upd_with_var, unlock_with_var. cbn [m_mutex set_mutex set_val]. by rewrite unlock_wr.
  - intros before after k cb w1 e w2 Hv Ec Eb Ecb. rewrite (setValue_changed _ _ _ _ E Em Hv), Ec.
    assert (forall l w0, notify call l (m_val c) v w0 = Ret tt w1 ->
      notify call (l ++ (k, cb) :: after) (m_val c) v w0 = Exn e (with_var a (set_mutex rd_held c) w2)) as R.
    { induction l as [|i l IH]; intros w0 El; cbn [app notify] in *.
      - injection El as ->. by rewrite (bind_Exn _ _ _ _ _ Ecb).
      - apply bind_inv_Ret in El as ([] & w3 & E1 & El). rewrite (bind_Ret _ _ _ _ _ E1). by apply IH. }
    rewrite (R _ _ Eb), unlock_with_var. cbn [m_mutex set_mutex]. by rewrite unlock_rd.
Qed.

(** [fromString] under the write lock, before the answer. *)
Lemma fromString_eq a c w t : vars _ w !! a = Some c -> m_mutex c = rw_init ->
  fromString of_text call a t w =
    match (match (match of_text (m_type c) t with None => throw bad_cast | Some v => setValue call a v end)
             (with_var a (set_mutex wr_held c) w) with
           | Ret x w => (var_unlock a ;; ret x) w
           | Exn e w => (var_unlock a ;; throw e) w
           | UB f => UB f
           end) with
    | Ret _ w => Ret false w
    | Exn _ w => Ret false w
    | UB f => UB f
    end.
Proof.
  intros E Em. unfold fromString, writing. rewrite (guard_var a c w wr_held wrlock _ E) by (by rewrite Em, wrlock_free).
  by rewrite (bind_Ret _ _ _ _ _ (load_with_var a _ w)).
Qed.

(** [setValue] by the thread that holds the write lock, with a lock that refuses the read
    lock to it and leaves everything as it was. *)
Lemma setValue_refused a c w v w2 c2 : rdlock wr_held = Some wr_held -> v <> m_val c ->
  notify call (m_cbs c) (m_val c) v (with_var a (set_mutex wr_held c) w) = Ret tt w2 ->
  vars _ w2 !! a = Some c2 -> m_mutex c2 = wr_held ->
  setValue call a v (with_var a (set_mutex wr_held c) w) = Ret tt (with_var a (set_mutex rw_init (set_val v c2)) w2).
Proof.
  intros Hself Hv En E2 Em2. unfold setValue, reading. unfold bind at 1.
  rewrite (guard_var a (set_mutex wr_held c) _ wr_held rdlock) by (cbn; by rewrite ?lookup_insert_eq, ?Hself).
  rewrite with_var_with_var. rewrite (bind_Ret _ _ _ _ _ (load_with_var a _ w)). cbn [m_val m_cbs set_mutex].
  rewrite bool_decide_eq_false_2 by done. unfold bind at 1.
  change (set_mutex wr_held (set_mutex wr_held c)) with (set_mutex wr_held c). rewrite En.
  rewrite <- (with_var_same a c2 w2 E2) at 1. cbv beta iota. unfold ret at 1.
  rewrite unlock_with_var, Em2, unlock_wr. unfold ret at 1. unfold writing.
  rewrite (guard_var a (set_mutex rw_init c2) _ wr_held wrlock) by (cbn; by rewrite ?lookup_insert_eq, ?wrlock_free).
  rewrite with_var_with_var, upd_with_var, unlock_with_var. cbn [m_mutex set_mutex set_val]. by rewrite unlock_wr.
Qed.

(** C27: whenever [fromString] returns, it answers [false], and it never throws: whatever the text is, whatever the
    listeners do, and also when it has set the variable. A text that is not cast leaves the variable. One that
    is makes it take the variable's lock to read while it holds it to write. With a lock whose readers wait for
    the writer, it waits for itself. With a lock that refuses the second call, which goes unseen, the
    lock is unlocked once more than it was locked; when the text is of another value and the listeners return and leave the variable, it has the
    new value then, and when it is of the value the variable has, nothing else happens. *)
Theorem fromString_locks a c w t : vars _ w !! a = Some c -> m_mutex c = rw_init ->
  (forall r w', fromString of_text call a t w = Ret r w' -> r = false)
  /\ (forall e w', fromString of_text call a t w <> Exn e w')
  /\ (of_text (m_type c) t = None -> fromString of_text call a t w = Ret false w)
  /\ (forall v, of_text (m_type c) t = Some v -> rdlock wr_held = None -> fromString of_text call a t w = UB Deadlock)
  /\ (of_text (m_type c) t = Some (m_val c) -> rdlock wr_held = Some wr_held ->
      fromString of_text call a t w = Ret false (with_var a (set_mutex (unlock rw_init) c) w))
  /\ (forall v w2 c2, of_text (m_type c) t = Some v -> v <> m_val c -> rdlock wr_held = Some wr_held ->
      notify call (m_cbs c) (m_val c) v (with_var a (set_mutex wr_held c) w) = Ret tt w2 ->
      vars _ w2 !! a = Some c2 -> m_mutex c2 = wr_held ->
      fromString of_text call a t w = Ret false (with_var a (set_mutex (unlock rw_init) (set_val v c2)) w2)).
Proof.
  intros E Em. rewrite (fromString_eq a c w t E Em). split; [|split; [|split; [|split; [|split]]]].
  - intros r w'. case_match; intros Hr; by simplify_eq.
  - intros e w'. by case_match.
  - intros ->. unfold throw at 1. rewrite unlock_with_var. cbn [m_mutex set_mutex]. rewrite unlock_wr. unfold throw.
    rewrite with_var_same; [done|]. rewrite E, <- Em. by destruct c.
  - intros v -> Hself. unfold setValue, reading, guard, var_lock. unfold bind at 1 2.
    rewrite load_with_var. cbn [m_mutex set_mutex]. by rewrite Hself.
  - intros -> Hself. unfold setValue, reading. unfold bind at 1.
    rewrite (guard_var a (set_mutex wr_held c) _ wr_held rdlock) by (cbn; by rewrite ?lookup_insert_eq, ?Hself).
    rewrite with_var_with_var. rewrite (bind_Ret _ _ _ _ _ (load_with_var a _ w)). cbn [m_val set_mutex].
    rewrite bool_decide_eq_true_2 by done. unfold ret at 1. rewrite !unlock_with_var. cbn [m_mutex set_mutex].
    unfold ret. cbn beta iota. rewrite unlock_with_var. cbn [m_mutex set_mutex]. by rewrite unlock_wr.
  - intros v w2 c2 -> Hv Hself En E2 Em2. rewrite (setValue_refused a c w v w2 c2) by done.
    cbv beta iota. rewrite unlock_with_var. done.
Qed.

(** ** The registry *)

(** Names have no capital letters. *)
Lemma lower_name name : forallb name_char name = true -> lower name = name.
Proof using.
  unfold lower. induction name as [|b name IH]; intros Hn; [done|]. cbn in *.
  apply andb_true_iff in Hn as [Hb Hn]. rewrite IH by done. f_equal.
  unfold name_char in Hb. unfold tolower. destruct ((65 <=? b) && (b <=? 90)) eqn:Eu; [|done].
  rewrite andb_true_iff, !Z.leb_le in Eu. rewrite !orb_true_iff, !andb_true_iff, !Z.leb_le, !Z.eqb_eq in Hb. lia.
Qed.

(** looking up a name with a default gives the variable registered under it, if it has that type. If none is registered, or
    one of another type, a new variable with the default is registered, in the place of the other; a name
    with a character that is not a small letter, digit, dot or underscore throws. *)
Theorem lookup_spec type name v descr w : s_mutex _ w = rw_init ->
  (forall a c, s_datas _ w !! name = Some a -> vars _ w !! a = Some c ->
     (m_type c = type -> Lookup_default type name v descr w = Ret a w)
     /\ (m_type c <> type -> forallb name_char name = true ->
         exists w', Lookup_default type name v descr w = Ret (next_var _ w) w'
           /\ s_datas _ w' = <[name := next_var _ w]> (s_datas _ w)
           /\ vars _ w' !! next_var _ w = Some (new_ConfigVar type name v descr)))
  /\ (s_datas _ w !! name = None ->
      (forallb name_char name = false -> Lookup_default type name v descr w = Exn invalid_argument w)
      /\ (forallb name_char name = true ->
         exists w', Lookup_default type name v descr w = Ret (next_var _ w) w'
           /\ s_datas _ w' !! name = Some (next_var _ w)
           /\ vars _ w' !! next_var _ w = Some (new_ConfigVar type name v descr)
           /\ lower name = name)).
Proof.
  intros Em.
  assert (forall A l (lk : L -> option L) (m : M Registry A), lk rw_init = Some l -> unlock l = rw_init ->
    (forall w0, match m w0 with Ret _ w1 | Exn _ w1 => s_mutex _ w1 = s_mutex _ w0 | UB _ => True end) ->
    guard (map_lock lk) map_unlock m w
    = match m (mkRegistry _ (vars _ w) (next_var _ w) (s_datas _ w) (s_fun_id _ w) l (user _ w)) with
      | Ret x w1 => Ret x (mkRegistry _ (vars _ w1) (next_var _ w1) (s_datas _ w1) (s_fun_id _ w1) rw_init (user _ w1))
      | Exn e w1 => Exn e (mkRegistry _ (vars _ w1) (next_var _ w1) (s_datas _ w1) (s_fun_id _ w1) rw_init (user _ w1))
      | UB f => UB f
      end) as G.
  { intros A l lk m El Eu Hm. unfold guard, map_lock. rewrite Em, El. set (w0 := mkRegistry _ _ _ _ _ _ _). specialize (Hm w0).
    destruct (m w0) as [x w1|e w1|f]; [| |done]; unfold map_unlock, bind, modify, ret, throw; rewrite Hm; cbn; by rewrite Eu. }
  assert (mkRegistry _ (vars _ w) (next_var _ w) (s_datas _ w) (s_fun_id _ w) rw_init (user _ w) = w) as Ew
    by (rewrite <- Em; by destruct w).
  assert (Lookup type name w = match s_datas _ w !! name with
    | None => Ret None w
    | Some a => match vars _ w !! a with
                | Some c => Ret (if m_type c =? type then Some a else None) w
                | None => UB NullDeref
                end
    end) as EL.
  { unfold Lookup, map_reading. rewrite (G _ rd_held) by
      (first [apply rdlock_free|apply unlock_rd|intros w0; destruct (s_datas _ w0 !! name) as [a|]; [|done]; by destruct (vars _ w0 !! a)]).
    cbn. destruct (s_datas _ w !! name) as [a|]; [|cbn; by rewrite Ew]. destruct (vars _ w !! a); cbn; by rewrite ?Ew. }
  assert (forall tmp, Lookup type name w = Ret tmp w -> Lookup_default type name v descr w
    = match tmp with
      | Some a => Ret a w
      | None => if negb (forallb name_char name) then Exn invalid_argument w
                else Ret (next_var _ w) (mkRegistry _ (<[next_var _ w := new_ConfigVar type name v descr]> (vars _ w)) (next_var _ w + 1)
                       (<[name := next_var _ w]> (s_datas _ w)) (s_fun_id _ w) rw_init (user _ w))
      end) as D.
  { intros tmp Et. unfold Lookup_default. rewrite (bind_Ret _ _ _ _ _ Et). unfold map_writing.
    rewrite (G _ wr_held); [|apply wrlock_free|apply unlock_wr|intros w0; destruct tmp; [done|]; by destruct (negb _)].
    destruct tmp; cbn; [by rewrite Ew|]. destruct (negb (forallb name_char name)); cbn; by rewrite ?Ew. }
  split.
  - intros a c E1 E2. rewrite E1, E2 in EL. split; intros Ht.
    + rewrite Ht, Z.eqb_refl in EL. by rewrite (D _ EL).
    + intros Hn. destruct (Z.eqb_spec (m_type c) type); [done|]. rewrite (D _ EL), Hn. cbn. eexists. split; [done|].
      cbn. by rewrite lookup_insert_eq.
  - intros E1. rewrite E1 in EL. rewrite (D _ EL). split; intros Hn; rewrite Hn; cbn; [done|]. eexists. split; [done|].
    cbn. rewrite !lookup_insert_eq. split; [done|]. split; [done|]. by apply lower_name.
Qed.
End Variables.

(** ** Documents *)

(** How deep a document is. *)
Fixpoint deep {Node} `{Yaml Node} (fuel : nat) (node : Node) : bool :=
  match fuel with O => false | S fuel => forallb (fun it => deep fuel it.2) (y_entries node) end.

(** The nodes of a document are collected, to its depth, and each has a name of the right characters: the conversion to
    small letters that follows changes none, and a key with a capital letter is never loaded. *)
Theorem members_spec {Node} `{Yaml Node} fuel prefix (node : Node) : deep fuel node = true ->
  exists l, ListAllMember fuel prefix node = Some l
    /\ Forall (fun kn => forallb name_char kn.1 = true /\ lower kn.1 = kn.1) l.
Proof.
  revert prefix node. induction fuel as [|fuel IH]; intros prefix node Hd; [done|]. cbn [deep ListAllMember] in *.
  destruct (forallb name_char prefix) eqn:Hp; cbn [negb]; [|by exists []].
  assert (exists below, (if y_is_map node then
      mapM (fun it : Node * Node => ListAllMember fuel
        (if bool_decide (prefix = []) then y_scalar it.1 else prefix ++ [46] ++ y_scalar it.1) it.2) (y_entries node)
    else Some []) = Some below
    /\ Forall (fun kn => forallb name_char kn.1 = true /\ lower kn.1 = kn.1) (concat below)) as (below & -> & Hb).
  { destruct (y_is_map node); [|by exists []]. set (f := fun it : Node * Node => _).
    assert (forall it, deep fuel it.2 = true -> exists l, f it = Some l
      /\ Forall (fun kn => forallb name_char kn.1 = true /\ lower kn.1 = kn.1) l) as Hf by (intros it; apply IH).
    clearbody f. clear IH. induction (y_entries node) as [|it its IHl]; [by exists []|].
    cbn [forallb] in Hd. apply andb_true_iff in Hd as [Hi Hl]. destruct (IHl Hl) as (below & E & Hb).
    destruct (Hf it Hi) as (l & El & Hx).
    exists (l :: below). cbn [mapM]. rewrite El. cbn. rewrite E. split; [done|]. by apply Forall_app. }
  cbn. eexists. split; [done|]. constructor; [|done]. split; [done|]. by apply lower_name.
Qed.

(** ** A YAML and a lock to try them on *)

(** Nodes are trees, and the text of a tree is its code. *)
Definition demo_node : Type := gen_tree (list Z).
Definition demo_code (n : demo_node) : list Z := [Zpos (encode n)].
Definition demo_kids (n : demo_node) : list demo_node := match n with GenLeaf _ => [] | GenNode _ l => l end.
Definition demo_leaf (n : demo_node) : list Z := match n with GenLeaf t => t | GenNode _ _ => [] end.
Definition demo_pair (n : demo_node) : demo_node * demo_node :=
  match n with GenNode _ [k; v] => (k, v) | _ => (n, n) end.

#[export] Instance demo_yaml : Yaml demo_node := {|
  y_load t := match t with [Zpos p] => decode p | _ => None end;
  y_emit := demo_code;
  y_is_map n := match n with GenNode 1 _ => true | _ => false end;
  y_is_scalar n := match n with GenLeaf _ => true | _ => false end;
  y_scalar := demo_leaf;
  y_size n := length (demo_kids n);
  y_at n i := default (GenLeaf []) (demo_kids n !! i);
  y_entries n := map demo_pair (demo_kids n);
  y_get n k := snd <$> List.find (fun kv => bool_decide (demo_leaf kv.1 = k)) (map demo_pair (demo_kids n));
  y_string n := match n with GenLeaf t => Some t | GenNode _ _ => None end;
  y_null := GenNode 3 [];
  y_text := GenLeaf;
  y_seq l := GenNode 0 l;
  y_map l := GenNode 1 (map (fun kv : text * demo_node => GenNode 2 [GenLeaf kv.1; kv.2]) l)
|}.

Definition demo_of (t : text) : option Z := match t with [Zpos p] => decode p ≫= fun n : demo_node => head (demo_leaf n) | _ => None end.
Definition demo_to (z : Z) : option text := Some (demo_code (GenLeaf [z])).


(** A lock that waits for itself. *)
Inductive demo_lock := Free | Reading | Writing.
#[export] Instance demo_rwlock : RWLock demo_lock := {|
  rw_init := Free;
  rdlock l := match l with Free | Reading => Some Reading | Writing => None end;
  wrlock l := match l with Free => Some Writing | _ => None end;
  unlock _ := Free
|}.
#[export] Instance demo_rwlaws : RWLaws demo_lock := {|
  rd_held := Reading; wr_held := Writing;
  rdlock_free := eq_refl; wrlock_free := eq_refl; unlock_rd := eq_refl; unlock_wr := eq_refl
|}.

(** The number 8080 of type 1, "port"; its listeners write down what they are told. *)
Definition demo_var : @ConfigVar demo_lock Z := mkConfigVar (str "port") [] 1 8080 [(1, 10); (2, 20)] Free.
Definition demo_registry : @Registry demo_lock Z (list (Z * Z * Z)) :=
  mkRegistry _ {[7 := demo_var]} 8 {[str "port" := 7]} ∅ Free [].
Definition demo_call (cb old new : Z) : M (@Registry demo_lock Z (list (Z * Z * Z))) unit := modify (fun w =>
  mkRegistry _ (vars _ w) (next_var _ w) (s_datas _ w) (s_fun_id _ w) (s_mutex _ w) (user _ w ++ [(cb, old, new)])).

Lemma setValue_spec_witness : exists w', setValue demo_call 7 9090 demo_registry = Ret tt w'
  /\ user _ w' = [(10, 8080, 9090); (20, 8080, 9090)] /\ m_val <$> vars _ w' !! 7 = Some 9090.
Proof.
  eexists. split; [|split].
  - refine (proj1 (proj2 (setValue_spec demo_call 7 demo_var demo_registry 9090 _ _)) _ _ _ _ _ _);
      [vm_compute; reflexivity|vm_compute; reflexivity|discriminate|vm_compute; reflexivity|vm_compute; reflexivity|reflexivity].
  - vm_compute. reflexivity.
  - vm_compute. reflexivity.
Defined.

Lemma fromString_locks_witness :
  fromString (fun _ t => head t) demo_call 7 [9090] demo_registry = UB Deadlock.
Proof.
  destruct (fromString_locks (H:=demo_rwlaws) (fun _ t => head t) demo_call 7 demo_var demo_registry [9090] eq_refl eq_refl) as (_ & _ & _ & Hd & _).
  exact (Hd 9090 eq_refl eq_refl).
Defined.

(** "port" again, as a variable of type 2. *)
Lemma lookup_spec_witness : exists w', Lookup_default 2 (str "port") 0 [] demo_registry = Ret 8 w'
  /\ s_datas _ w' = <[str "port" := 8]> (s_datas _ demo_registry).
Proof.
  destruct (proj2 (proj1 (lookup_spec (H:=demo_rwlaws) 2 (str "port") 0 [] demo_registry eq_refl) 7 demo_var eq_refl eq_refl)) as (w' & E & Ed & _);
    [discriminate|vm_compute; reflexivity|].
  exists w'. split; [exact E|exact Ed].
Defined.
