(* ===== verification/Log.v ===== *)
(** * Log: the formatters of [sylar/log.h] and [log.cpp]

    Levels, events, and the formatter: [LogFormatter::init] reads a pattern into items, and
    [format] prints an event with them. [strftime] is the C library's, of the local time of a number of seconds. *)

From S2P Require Import Prelude Std.

(** ** Levels *)

(* SRC sylar/log.h:50-57 LogLevel::Level *)
Definition UNKNOW : Z := 0.
Definition DEBUG : Z := 1.
Definition INFO : Z := 2.
Definition WARN : Z := 3.
Definition ERROR : Z := 4.
Definition FATAL : Z := 5.

(* SRC sylar/log.cpp:11-28 LogLevel::ToString *)
Definition ToString (level : Z) : list Z :=
  if level =? DEBUG then str "DEBUG"
  else if level =? INFO then str "INFO"
  else if level =? WARN then str "WARN"
  else if level =? ERROR then str "ERROR"
  else if level =? FATAL then str "FATAL"
  else str "UNKNOW".

(* SRC sylar/log.cpp:30-48 LogLevel::FromString *)
Definition FromString (s : list Z) : Z :=
  let named (name : list Z) := bool_decide (s = name) in
  if named (str "debug") then DEBUG
  else if named (str "info") then INFO
  else if named (str "warn") then WARN
  else if named (str "error") then ERROR
  else if named (str "fatal") then FATAL
  else if named (str "DEBUG") then DEBUG
  else if named (str "INFO") then INFO
  else if named (str "WARN") then WARN
  else if named (str "ERROR") then ERROR
  else if named (str "FATAL") then FATAL
  else UNKNOW.

(** ** Events *)

(** [m_logger] is an address, with the name of the logger there. *)
(* SRC sylar/log.h:87-97 LogEvent *)
Record LogEvent := mkLogEvent {
  ev_file : list Z;
  ev_line : Z;
  ev_elapse : Z;
  ev_threadId : Z;
  ev_fiberId : Z;
  ev_time : Z;
  ev_threadName : list Z;
  ev_ss : list Z;
  ev_logger : Z;
  ev_level : Z
}.

(* SRC sylar/log.cpp:217-230 LogEvent::LogEvent *)
Definition new_LogEvent (logger level : Z) (file : list Z) (line elapse thread_id fiber_id time : Z) (thread_name : list Z) : LogEvent :=
  mkLogEvent file line elapse thread_id fiber_id time thread_name [] logger level.

(** What is written to [getSS()]. *)
(* SRC sylar/log.cpp:58-60 LogEventWrap::getSS *)
Definition ev_write (text : list Z) (e : LogEvent) : LogEvent :=
  mkLogEvent (ev_file e) (ev_line e) (ev_elapse e) (ev_threadId e) (ev_fiberId e) (ev_time e) (ev_threadName e)
    (ev_ss e ++ text) (ev_logger e) (ev_level e).

(** [vasprintf] gives the text, or -1. *)
(* SRC sylar/log.cpp:69-76 LogEvent::format *)
Definition ev_format (printed : option (list Z)) (e : LogEvent) : LogEvent :=
  match printed with Some text => ev_write text e | None => e end.

(** A number as [<<] prints it. *)
Definition number (z : Z) : list Z := if z <? 0 then 45 :: decimal (- z) else decimal z.

(** ** Items *)

(** The subclasses of [FormatItem], with what they keep of their argument. *)
(* SRC sylar/log.cpp:93-214 FormatItem *)
Inductive FormatItem :=
  | MessageFormatItem | LevelFormatItem | ElapseFormatItem | NameFormatItem | ThreadIdFormatItem | FiberIdFormatItem
  | ThreadNameFormatItem | DateTimeFormatItem (m_format : list Z) | FilenameFormatItem | LineFormatItem
  | NewLineFormatItem | StringFormatItem (m_string : list Z) | TabFormatItem.

(* SRC sylar/log.cpp:151-156 DateTimeFormatItem::DateTimeFormatItem *)
Definition new_DateTimeFormatItem (format : list Z) : FormatItem :=
  DateTimeFormatItem (if bool_decide (format = []) then str "%Y-%m-%d %H:%M:%S" else format).

Section Format.
Context (strftime : list Z -> Z -> list Z).

(** The date goes through an array of 64, which holds nothing known when the text does not fit. *)
(* SRC sylar/log.cpp:158-165 DateTimeFormatItem::format *)
Definition format_date (m_format : list Z) (time : Z) : fault + list Z :=
  let buf := strftime (c_str m_format) time in
  if 63 <? Z.of_nat (length buf) then inl Indeterminate else inr buf.

(** [logger_name] is the name of the event's logger. *)
(* SRC sylar/log.cpp:93-214 FormatItem::format *)
Definition item_format (i : FormatItem) (logger_name : list Z) (level : Z) (e : LogEvent) : fault + list Z :=
  match i with
  | MessageFormatItem => inr (ev_ss e)
  | LevelFormatItem => inr (ToString level)
  | ElapseFormatItem => inr (decimal (ev_elapse e))
  | NameFormatItem => inr logger_name
  | ThreadIdFormatItem => inr (decimal (ev_threadId e))
  | FiberIdFormatItem => inr (decimal (ev_fiberId e))
  | ThreadNameFormatItem => inr (ev_threadName e)
  | DateTimeFormatItem f => format_date f (ev_time e)
  | FilenameFormatItem => inr (c_str (ev_file e))
  | LineFormatItem => inr (number (ev_line e))
  | NewLineFormatItem => inr [10]
  | StringFormatItem s => inr s
  | TabFormatItem => inr [9]
  end.

(** ** The formatter *)

(* SRC sylar/log.h:133-136 LogFormatter *)
Record LogFormatter := mkLogFormatter {
  m_pattern : list Z;
  m_items : list FormatItem;
  m_error : bool
}.

Fixpoint format_items (items : list FormatItem) (logger_name : list Z) (level : Z) (e : LogEvent) : fault + list Z :=
  match items with
  | [] => inr []
  | i :: items =>
      match item_format i logger_name level e with
      | inl f => inl f
      | inr text =>
          match format_items items logger_name level e with inl f => inl f | inr rest => inr (text ++ rest) end
      end
  end.

(* SRC sylar/log.cpp:422-428 LogFormatter::format *)
Definition format (f : LogFormatter) : list Z -> Z -> LogEvent -> fault + list Z := format_items (m_items f).

Definition isalpha (c : Z) : bool := ((65 <=? c) && (c <=? 90)) || ((97 <=? c) && (c <=? 122)).
Definition substr (s : list Z) (pos n : nat) : list Z := slice s pos n.

(** The scan behind the [%] at [i]: where it stops, [str], [fmt] and [fmt_status], 1 within braces. *)
(* SRC sylar/log.cpp:454-484 LogFormatter::init *)
Fixpoint scan (fuel : nat) (p : list Z) (i n : nat) (s fmt : list Z) (fmt_status fmt_begin : nat)
    : nat * list Z * list Z * nat :=
  match fuel, p !! n with
  | S fuel, Some c =>
      if (fmt_status =? 0)%nat && negb (isalpha c) && negb (c =? 123) && negb (c =? 125)
      then (n, substr p (i + 1) (n - i - 1), fmt, fmt_status)
      else if (fmt_status =? 0)%nat && (c =? 123)
      then scan fuel p i (n + 1) (substr p (i + 1) (n - i - 1)) fmt 1 n
      else if (fmt_status =? 1)%nat && (c =? 125)
      then (n + 1, s, substr p (fmt_begin + 1) (n - fmt_begin - 1), 0)%nat
      else
        let s := if (n + 1 =? length p)%nat && bool_decide (s = []) then drop (i + 1) p else s in
        scan fuel p i (n + 1) s fmt fmt_status fmt_begin
  | _, _ => (n, s, fmt, fmt_status)
  end.

Definition flush (nstr : list Z) (vec : list (list Z * list Z * Z)) : list (list Z * list Z * Z) :=
  if bool_decide (nstr = []) then vec else vec ++ [(nstr, [], 0)].

(** The pieces: text, format and 1 for an item, 0 for a text; and whether a brace was left open. *)
(* SRC sylar/log.cpp:435-502 LogFormatter::init *)
Fixpoint pieces (fuel : nat) (p : list Z) (i : nat) (nstr : list Z) (vec : list (list Z * list Z * Z)) (err : bool)
    : list (list Z * list Z * Z) * bool :=
  match fuel, p !! i with
  | S fuel, Some c =>
      if negb (c =? 37) then pieces fuel p (i + 1) (nstr ++ [c]) vec err
      else if bool_decide (p !! (i + 1)%nat = Some 37) then pieces fuel p (i + 1) (nstr ++ [37]) vec err
      else
        let '(n, s, fmt, fmt_status) := scan (length p) p i (i + 1) [] [] 0 0 in
        if (fmt_status =? 0)%nat then pieces fuel p n [] (flush nstr vec ++ [(s, fmt, 1)]) err
        else pieces fuel p (i + 1) nstr (vec ++ [(str "<<pattern_error>>", fmt, 0)]) true
  | _, _ => (flush nstr vec, err)
  end.

(** [s_format_items]. *)
(* SRC sylar/log.cpp:503-520 LogFormatter::init *)
Definition s_format_items (name fmt : list Z) : option FormatItem :=
  match name with
  | [c] =>
      if c =? 109 then Some MessageFormatItem
      else if c =? 112 then Some LevelFormatItem
      else if c =? 114 then Some ElapseFormatItem
      else if c =? 99 then Some NameFormatItem
      else if c =? 116 then Some ThreadIdFormatItem
      else if c =? 110 then Some NewLineFormatItem
      else if c =? 100 then Some (new_DateTimeFormatItem fmt)
      else if c =? 102 then Some FilenameFormatItem
      else if c =? 108 then Some LineFormatItem
      else if c =? 84 then Some TabFormatItem
      else if c =? 70 then Some FiberIdFormatItem
      else if c =? 78 then Some ThreadNameFormatItem
      else None
  | _ => None
  end.

(** The item of a piece, and whether it is an error. *)
(* SRC sylar/log.cpp:522-536 LogFormatter::init *)
Definition piece_item (i : list Z * list Z * Z) : FormatItem * bool :=
  let '(s, fmt, type) := i in
  if type =? 0 then (StringFormatItem s, false)
  else
    match s_format_items s fmt with
    | None => (StringFormatItem (str "<<error_format %" ++ s ++ str ">>"), true)
    | Some item => (item, false)
    end.

(* SRC sylar/log.cpp:431-538 LogFormatter::init *)
Definition init (pattern : list Z) : list FormatItem * bool :=
  let '(vec, err) := pieces (length pattern) pattern 0 [] [] false in
  (map (fun i => (piece_item i).1) vec, existsb (fun i => (piece_item i).2) vec || err).

(* SRC sylar/log.cpp:417-420 LogFormatter::LogFormatter *)
Definition new_LogFormatter (pattern : list Z) : LogFormatter :=
  let '(items, err) := init pattern in mkLogFormatter pattern items err.

(* SRC sylar/log.h:128-128 LogFormatter::isError *)
Definition isError (f : LogFormatter) : bool := m_error f.
End Format.
