(* ===== verification/LogSpec.v ===== *)
(** * LogSpec: what a pattern means

    [format_pattern]: a pattern of texts and items is read into those texts and items, and what is printed is their
    texts, one after the other. [pattern_faults]: what becomes of [%%] and of an open brace.
    [levels_roundtrip]: names of levels. *)

From S2P Require Import Prelude Std Log.

(** A part of a pattern: a text, or an item with its format. *)
Inductive part := Text (s : list Z) | Item (name : list Z) (fmt : option (list Z)).

Definition part_text (x : part) : list Z :=
  match x with
  | Text s => s
  | Item name None => 37 :: name
  | Item name (Some fmt) => 37 :: name ++ 123 :: fmt ++ [125]
  end.
Definition pattern_text (xs : list part) : list Z := concat (map part_text xs).

(** A character a name ends at. *)
Definition name_end (c : Z) : bool := negb (isalpha c) && negb (c =? 123) && negb (c =? 125).

(** Texts are without [%], names are letters, formats without a closing brace, and what is behind an item
    without a format does not go on with its name. *)
Fixpoint parts_ok (xs : list part) : bool :=
  match xs with
  | [] => true
  | Text s :: xs => forallb (fun c => negb (c =? 37)) s && parts_ok xs
  | Item name fmt :: xs =>
      negb (bool_decide (name = [])) && forallb isalpha name
      && match fmt with
         | Some f => forallb (fun c => negb (c =? 125)) f
         | None => match pattern_text xs with [] => true | c :: _ => name_end c end
         end
      && parts_ok xs
  end.

(** The pieces they are: texts next to each other are one. *)
Fixpoint parts_pieces (nstr : list Z) (xs : list part) : list (list Z * list Z * Z) :=
  match xs with
  | [] => flush nstr []
  | Text s :: xs => parts_pieces (nstr ++ s) xs
  | Item name fmt :: xs => flush nstr [] ++ (name, default [] fmt, 1) :: parts_pieces [] xs
  end.

(** ** The scan *)

Lemma isalpha_bounds c : isalpha c = true -> 65 <= c <= 122 /\ c <> 123 /\ c <> 125 /\ c <> 37.
Proof. unfold isalpha. rewrite orb_true_iff, !andb_true_iff, !Z.leb_le. lia. Qed.

Lemma scan_step fuel p i a c rest s fmt st begin : p = a ++ c :: rest ->
  scan (S fuel) p i (length a) s fmt st begin
  = (if (st =? 0)%nat && negb (isalpha c) && negb (c =? 123) && negb (c =? 125)
     then (length a, substr p (i + 1) (length a - i - 1), fmt, st)
     else if (st =? 0)%nat && (c =? 123)
     then scan fuel p i (length a + 1) (substr p (i + 1) (length a - i - 1)) fmt 1 (length a)
     else if (st =? 1)%nat && (c =? 125)
     then (length a + 1, s, substr p (begin + 1) (length a - begin - 1), 0)%nat
     else
       let s := if bool_decide (rest = []) && bool_decide (s = []) then drop (i + 1) p else s in
       scan fuel p i (length a + 1) s fmt st begin).
Proof.
  intros ->. cbn [scan]. rewrite list_lookup_middle by done.
  assert ((length a + 1 =? length (a ++ c :: rest))%nat = bool_decide (rest = [])) as ->; [|done].
  rewrite length_app. cbn [length]. destruct rest as [|x rest]; cbn [length].
  - rewrite bool_decide_eq_true_2 by done. apply Nat.eqb_eq. lia.
  - rewrite bool_decide_eq_false_2 by done. apply Nat.eqb_neq. lia.
Qed.

Lemma scan_end fuel p i n s fmt st begin : n = length p -> scan fuel p i n s fmt st begin = (n, s, fmt, st).
Proof. intros ->. destruct fuel; [done|]. cbn [scan]. by rewrite lookup_ge_None_2. Qed.

Lemma snoc_app {A} (a : list A) c b : a ++ c :: b = (a ++ [c]) ++ b.
Proof. by rewrite <- app_assoc. Qed.
Lemma length_snoc {A} (a : list A) c : length (a ++ [c]) = (length a + 1)%nat.
Proof. by rewrite length_app. Qed.

(** Letters with something behind them. *)
Lemma scan_name name : forall fuel p i a rest, p = a ++ name ++ rest -> rest <> [] -> forallb isalpha name = true ->
  scan (length name + fuel) p i (length a) [] [] 0 0 = scan fuel p i (length (a ++ name)) [] [] 0 0.
Proof.
  induction name as [|c name IH]; intros fuel p i a rest Hp Hr Hn; [by rewrite app_nil_r|].
  cbn [forallb] in Hn. apply andb_true_iff in Hn as [Hc Hn]. cbn [length app Nat.add] in *.
  rewrite (scan_step _ _ _ _ _ _ _ _ _ _ Hp), Hc. destruct (isalpha_bounds c Hc) as (_ & H1 & H2 & _).
  cbn [negb andb Nat.eqb]. destruct (Z.eqb_spec c 123); [done|]. cbn [andb].
  rewrite (bool_decide_eq_false_2 (name ++ rest = [])) by (by destruct name). cbn [andb]. cbv zeta.
  rewrite <- length_snoc with (c := c). rewrite (IH fuel p i (a ++ [c]) rest); [by rewrite <- app_assoc|by rewrite <- app_assoc|done|done].
Qed.

(** Letters up to the end. *)
Lemma scan_last name : forall fuel p i a, p = a ++ name -> name <> [] -> forallb isalpha name = true ->
  scan (length name + fuel) p i (length a) [] [] 0 0 = (length p, drop (i + 1) p, [], 0%nat).
Proof.
  intros fuel p i a Hp Hne Hn. destruct name as [|c0 name0]; [done|].
  destruct (exists_last (l := c0 :: name0)) as (init & c & E); [done|]. rewrite E in *. clear E Hne c0 name0.
  rewrite forallb_app in Hn. apply andb_true_iff in Hn as [Hi Hc]. cbn [forallb] in Hc. rewrite andb_true_r in Hc.
  replace (length (init ++ [c]) + fuel)%nat with (length init + S fuel)%nat by (rewrite length_app; cbn; lia).
  rewrite (scan_name init (S fuel) p i a [c] Hp ltac:(done) Hi).
  rewrite app_assoc in Hp. rewrite (scan_step _ _ _ _ _ _ _ _ _ _ Hp), Hc.
  destruct (isalpha_bounds c Hc) as (_ & H1 & H2 & _). cbn [negb andb Nat.eqb].
  destruct (Z.eqb_spec c 123); [done|]. cbn [andb]. rewrite !bool_decide_eq_true_2 by done. cbn [andb]. cbv zeta.
  rewrite scan_end by (rewrite Hp, length_snoc; done). by rewrite Hp, length_snoc.
Qed.

(** A format up to its brace. *)
Lemma scan_fmt f : forall fuel p i a s begin rest, p = a ++ f ++ 125 :: rest -> s <> [] ->
  forallb (fun c => negb (c =? 125)) f = true ->
  scan (length f + S fuel) p i (length a) s [] 1 begin
  = (length (a ++ f) + 1, s, substr p (begin + 1) (length (a ++ f) - begin - 1), 0)%nat.
Proof.
  induction f as [|c f IH]; intros fuel p i a s begin rest Hp Hs Hf.
  - rewrite app_nil_r. cbn [length Nat.add app] in *. by rewrite (scan_step _ _ _ _ _ _ _ _ _ _ Hp).
  - cbn [forallb] in Hf. apply andb_true_iff in Hf as [Hc Hf]. cbn [length app Nat.add] in *.
    rewrite (scan_step _ _ _ _ _ _ _ _ _ _ Hp). cbn [Nat.eqb andb]. rewrite negb_true_iff in Hc. rewrite Hc.
    rewrite (bool_decide_eq_false_2 (s = [])) by done. rewrite andb_false_r. cbv zeta.
    rewrite <- length_snoc with (c := c). rewrite (IH fuel p i (a ++ [c]) s begin rest);
      [by rewrite <- app_assoc|by rewrite <- app_assoc|done|done].
Qed.

(** What lies between two positions. *)
Lemma substr_between (a : list Z) x name rest : substr (a ++ x :: name ++ rest) (length a + 1) (length (a ++ x :: name) - length a - 1) = name.
Proof.
  unfold substr, slice. assert (a ++ x :: name ++ rest = (a ++ [x]) ++ name ++ rest) as -> by apply snoc_app.
  rewrite <- (length_snoc a x), drop_app_length.
  assert (length (a ++ x :: name) - length a - 1 = length name)%nat as -> by (rewrite length_app; cbn; lia).
  by rewrite take_app_length.
Qed.

(** One item. *)
Lemma scan_item pre name fmt xs : parts_ok (Item name fmt :: xs) = true ->
  let p := pre ++ pattern_text (Item name fmt :: xs) in
  scan (length p) p (length pre) (length pre + 1) [] [] 0 0
  = (length (pre ++ part_text (Item name fmt)), name, default [] fmt, 0%nat).
Proof.
  intros Hok p. cbn [parts_ok] in Hok. rewrite !andb_true_iff, negb_true_iff, bool_decide_eq_false in Hok.
  destruct Hok as [[[Hne Hn] Hf] _]. unfold p, pattern_text. cbn [map concat]. fold (pattern_text xs).
  destruct fmt as [f|]; cbn [part_text default].
  - set (q := pre ++ _). assert (q = (pre ++ [37]) ++ name ++ 123 :: f ++ 125 :: pattern_text xs) as Hq.
    { unfold q. by simplify_list_eq. }
    assert (exists fuel, length q = (length name + S (length f + S fuel))%nat) as [fuel El].
    { exists (length pre + 1 + length (pattern_text xs))%nat. rewrite Hq, !length_app. cbn [length]. rewrite length_app. cbn [length]. lia. }
    rewrite El, <- length_snoc with (c := 37). rewrite (scan_name name _ q _ (pre ++ [37]) (123 :: f ++ 125 :: pattern_text xs) Hq ltac:(done) Hn).
    assert (q = ((pre ++ [37]) ++ name) ++ 123 :: f ++ 125 :: pattern_text xs) as Hq2 by (rewrite Hq; by simplify_list_eq).
    rewrite (scan_step _ _ _ _ _ _ _ _ _ _ Hq2). cbn [Nat.eqb isalpha andb negb Z.eqb Z.leb Z.compare Pos.compare Pos.compare_cont orb Pos.eqb].
    assert (substr q (length pre + 1) (length ((pre ++ [37]) ++ name) - length pre - 1) = name) as ->.
    { rewrite Hq. rewrite <- !app_assoc. cbn [app]. apply substr_between. }
    rewrite <- length_snoc with (c := 123).
    assert (q = (((pre ++ [37]) ++ name) ++ [123]) ++ f ++ 125 :: pattern_text xs) as Hq3 by (rewrite Hq2, <- !app_assoc; done).
    rewrite (scan_fmt f _ q _ _ _ _ _ Hq3 Hne Hf).
    assert (substr q (length ((pre ++ [37]) ++ name) + 1)
      (length ((((pre ++ [37]) ++ name) ++ [123]) ++ f) - length ((pre ++ [37]) ++ name) - 1) = f) as ->.
    { rewrite Hq2. replace (((((pre ++ [37]) ++ name) ++ [123]) ++ f)) with (((pre ++ [37]) ++ name) ++ 123 :: f)
        by (by rewrite <- !app_assoc). apply substr_between. }
    f_equal. f_equal. f_equal. rewrite !length_app. cbn [length]. rewrite length_app. cbn [length]. rewrite length_app. cbn [length]. lia.
  - set (q := pre ++ _). assert (q = (pre ++ [37]) ++ name ++ pattern_text xs) as Hq
      by (unfold q; by simplify_list_eq).
    rewrite <- length_snoc with (c := 37). destruct (pattern_text xs) as [|c rest] eqn:Ex.
    + rewrite app_nil_r in Hq. assert (length q = length name + (length pre + 1))%nat as El
        by (rewrite Hq, !length_app; cbn [length]; lia).
      rewrite El. rewrite (scan_last name _ q _ _ Hq Hne Hn). rewrite <- length_snoc with (c := 37), Hq.
      rewrite drop_app_length. f_equal. f_equal. f_equal. by rewrite <- app_assoc.
    + assert (exists fuel, length q = (length name + S fuel)%nat) as [fuel El].
      { exists (length pre + 1 + length rest)%nat. rewrite Hq, !length_app. cbn [length]. lia. }
      rewrite El. rewrite (scan_name name _ q _ _ (c :: rest) Hq ltac:(done) Hn).
      assert (q = ((pre ++ [37]) ++ name) ++ c :: rest) as Hq2 by (rewrite Hq; by simplify_list_eq).
      rewrite (scan_step _ _ _ _ _ _ _ _ _ _ Hq2). unfold name_end in Hf. rewrite !andb_true_iff in Hf. destruct Hf as [[-> ->] ->].
      cbn [Nat.eqb andb]. f_equal. f_equal. f_equal.
      * by rewrite <- app_assoc.
      * rewrite Hq. rewrite <- !app_assoc. cbn [app]. apply substr_between.
Qed.

(** ** The pieces *)

Lemma flush_app nstr vec : flush nstr vec = vec ++ flush nstr [].
Proof. unfold flush. case_bool_decide; [by rewrite app_nil_r|done]. Qed.

(** Texts up to a [%]. *)
Lemma pieces_text s : forall fuel pre rest nstr vec err, forallb (fun c => negb (c =? 37)) s = true ->
  pieces (length s + fuel) (pre ++ s ++ rest) (length pre) nstr vec err
  = pieces fuel ((pre ++ s) ++ rest) (length (pre ++ s)) (nstr ++ s) vec err.
Proof.
  induction s as [|c s IH]; intros fuel pre rest nstr vec err Hs; [by rewrite !app_nil_r|].
  cbn [forallb] in Hs. apply andb_true_iff in Hs as [Hc Hs]. cbn [length Nat.add app]. cbn [pieces].
  rewrite list_lookup_middle by done. rewrite Hc. rewrite <- (length_snoc pre c), snoc_app, (IH fuel (pre ++ [c]) rest) by done.
  by simplify_list_eq.
Qed.

Lemma pieces_end fuel p i nstr vec err : i = length p -> pieces fuel p i nstr vec err = (flush nstr vec, err).
Proof. intros ->. destruct fuel; [done|]. cbn [pieces]. by rewrite lookup_ge_None_2. Qed.

(** A [%] with its item. *)
Lemma pieces_item fuel pre name fmt xs nstr vec err : parts_ok (Item name fmt :: xs) = true ->
  pieces (S fuel) (pre ++ pattern_text (Item name fmt :: xs)) (length pre) nstr vec err
  = pieces fuel ((pre ++ part_text (Item name fmt)) ++ pattern_text xs) (length (pre ++ part_text (Item name fmt))) []
      (flush nstr vec ++ [(name, default [] fmt, 1)]) err.
Proof.
  intros Hok. pose proof (scan_item pre name fmt xs Hok) as Hscan. cbv zeta in Hscan.
  assert (exists c tail, pattern_text (Item name fmt :: xs) = 37 :: c :: tail /\ isalpha c = true) as (c & tail & E & Hc).
  { cbn [parts_ok] in Hok. rewrite !andb_true_iff in Hok. destruct Hok as [[[Hne Hn] _] _].
    destruct name as [|c name]; [done|]. cbn [forallb] in Hn. apply andb_true_iff in Hn as [Hc _].
    exists c. unfold pattern_text. cbn [map concat part_text]. destruct fmt; cbn [app]; eauto. }
  cbn [pieces]. assert ((pre ++ pattern_text (Item name fmt :: xs)) !! length pre = Some 37) as ->
    by (rewrite E; by apply list_lookup_middle).
  cbn [Z.eqb Pos.eqb negb]. assert ((pre ++ pattern_text (Item name fmt :: xs)) !! (length pre + 1)%nat = Some c) as ->.
  { rewrite E, snoc_app, <- (length_snoc pre 37). by apply list_lookup_middle. }
  rewrite bool_decide_eq_false_2 by (intros [= ->]; done).
  rewrite Hscan. cbn [Nat.eqb]. unfold pattern_text at 1. cbn [map concat]. fold (pattern_text xs). by rewrite app_assoc.
Qed.

Lemma pieces_parts xs : forall fuel pre nstr vec err, parts_ok xs = true -> (length (pattern_text xs) <= fuel)%nat ->
  pieces fuel (pre ++ pattern_text xs) (length pre) nstr vec err = (vec ++ parts_pieces nstr xs, err).
Proof.
  induction xs as [|[s|name fmt] xs IH]; intros fuel pre nstr vec err Hok Hf.
  - rewrite pieces_end by (by rewrite app_nil_r). cbn [parts_pieces]. by rewrite flush_app.
  - cbn [parts_ok] in Hok. apply andb_true_iff in Hok as [Hs Hok]. revert Hf. unfold pattern_text. cbn [map concat part_text].
    fold (pattern_text xs). rewrite length_app. intros Hf. replace fuel with (length s + (fuel - length s))%nat by lia.
    rewrite pieces_text by done. rewrite IH by (done || lia). done.
  - destruct fuel as [|fuel]; [exfalso; unfold pattern_text in Hf; cbn [map concat part_text] in Hf; destruct fmt; cbn in Hf; lia|].
    rewrite pieces_item by done. rewrite IH.
    + cbn [parts_pieces]. rewrite (flush_app nstr vec). by rewrite <- !app_assoc.
    + cbn [parts_ok] in Hok. by apply andb_true_iff in Hok as [_ ?].
    + revert Hf. unfold pattern_text. cbn [map concat part_text]. rewrite length_app. destruct fmt; cbn [length]; lia.
Qed.

(** ** What is printed *)

Definition cat_out (a b : fault + list Z) : fault + list Z :=
  match a with
  | inl f => inl f
  | inr x => match b with inl f => inl f | inr y => inr (x ++ y) end
  end.

Lemma cat_out_nil b : cat_out (inr []) b = b.
Proof. by destruct b. Qed.
Lemma cat_out_assoc a b c : cat_out (cat_out a b) c = cat_out a (cat_out b c).
Proof. destruct a as [|x], b as [|y], c as [|z]; cbn; try done. by rewrite app_assoc. Qed.

(** The item a name stands for, or the text that tells of the error. *)
Definition item_meaning (name fmt : list Z) : FormatItem :=
  default (StringFormatItem (str "<<error_format %" ++ name ++ str ">>")) (s_format_items name fmt).
Definition unknown_item (x : part) : bool :=
  match x with Text _ => false | Item name fmt => bool_decide (s_format_items name (default [] fmt) = None) end.

Section Print.
Context (strftime : list Z -> Z -> list Z).

Definition part_format (x : part) (logger_name : list Z) (level : Z) (e : LogEvent) : fault + list Z :=
  match x with
  | Text s => inr s
  | Item name fmt => item_format strftime (item_meaning name (default [] fmt)) logger_name level e
  end.
Definition parts_format (xs : list part) (logger_name : list Z) (level : Z) (e : LogEvent) : fault + list Z :=
  foldr (fun x => cat_out (part_format x logger_name level e)) (inr []) xs.

Lemma format_items_cons i items ln lv e :
  format_items strftime (i :: items) ln lv e = cat_out (item_format strftime i ln lv e) (format_items strftime items ln lv e).
Proof. cbn. by destruct (item_format _ _ _ _ _), (format_items _ _ _ _ _). Qed.

Lemma format_items_app a b ln lv e :
  format_items strftime (a ++ b) ln lv e = cat_out (format_items strftime a ln lv e) (format_items strftime b ln lv e).
Proof.
  induction a as [|i a IH]; [by rewrite cat_out_nil|].
  cbn [app]. rewrite !format_items_cons, IH. by rewrite cat_out_assoc.
Qed.

Lemma format_flush nstr ln lv e : format_items strftime (map (fun i => (piece_item i).1) (flush nstr [])) ln lv e = inr nstr.
Proof. unfold flush. case_bool_decide; [by subst|]. cbn. by rewrite app_nil_r. Qed.
Lemma flush_no_error nstr : existsb (fun i => (piece_item i).2) (flush nstr []) = false.
Proof. unfold flush. by case_bool_decide. Qed.

Lemma piece_item_known name fmt : piece_item (name, fmt, 1) = (item_meaning name fmt, bool_decide (s_format_items name fmt = None)).
Proof. unfold piece_item, item_meaning. cbn [Z.eqb]. by destruct (s_format_items name fmt). Qed.

Lemma parts_pieces_format xs ln lv e : forall nstr,
  format_items strftime (map (fun i => (piece_item i).1) (parts_pieces nstr xs)) ln lv e
  = cat_out (inr nstr) (parts_format xs ln lv e).
Proof.
  induction xs as [|[s|name fmt] xs IH]; intros nstr; cbn [parts_pieces].
  - rewrite format_flush. cbn. by rewrite app_nil_r.
  - rewrite IH. unfold parts_format. cbn [foldr part_format]. by rewrite <- cat_out_assoc.
  - rewrite map_app, format_items_app, format_flush. f_equal. cbn [map]. rewrite format_items_cons, piece_item_known, IH, cat_out_nil. done.
Qed.

Lemma parts_pieces_error xs : forall nstr, existsb (fun i => (piece_item i).2) (parts_pieces nstr xs) = existsb unknown_item xs.
Proof.
  induction xs as [|[s|name fmt] xs IH]; intros nstr; cbn [parts_pieces].
  - apply flush_no_error.
  - apply IH.
  - rewrite existsb_app, flush_no_error. cbn [orb existsb]. by rewrite piece_item_known, IH.
Qed.

Lemma init_parts xs : parts_ok xs = true ->
  init (pattern_text xs) = (map (fun i => (piece_item i).1) (parts_pieces [] xs), existsb unknown_item xs).
Proof.
  intros Hok. unfold init. rewrite (pieces_parts xs _ [] [] [] false Hok) by lia. cbn [app].
  by rewrite parts_pieces_error, orb_false_r.
Qed.

(** C24: A formatter prints its pattern. The pattern is a sequence of texts without [%], of items [%name] and of
    items [%name{format}], where a name is of letters and what is behind an item without a format does not go on
    with its name. Then what [format] gives is the parts' meanings in order, one after the other: a text is itself,
    an item is what the event has for it, an item of an unknown name is the text [<<error_format %name>>]; the fault
    is that of the first date that does not fit into 63 characters. The formatter is in error exactly when a name
    is unknown. *)
Theorem format_pattern xs ln lv e : parts_ok xs = true ->
  format strftime (new_LogFormatter (pattern_text xs)) ln lv e = parts_format xs ln lv e
  /\ isError (new_LogFormatter (pattern_text xs)) = existsb unknown_item xs.
Proof.
  intros Hok. unfold new_LogFormatter. rewrite (init_parts xs Hok). split; [|done].
  unfold format. cbn [m_items]. rewrite parts_pieces_format. apply cat_out_nil.
Qed.
End Print.

(** [[%p] %c{x}%q]: a level, a name with a format it does not use, and an unknown item. *)
Definition demo_parts : list part :=
  [Text (str "["); Item (str "p") None; Text (str "] "); Item (str "c") (Some (str "x")); Item (str "q") None; Text (str "!")].
Definition demo_event : LogEvent := ev_write (str "hello") (new_LogEvent 1 ERROR (str "a.cpp") 7 1 2 3 4 (str "main")).

Lemma format_pattern_witness :
  parts_ok demo_parts = true
  /\ format (fun _ _ => []) (new_LogFormatter (str "[%p] %c{x}%q!")) (str "root") ERROR demo_event
     = inr (str "[ERROR] root<<error_format %q>>!")
  /\ isError (new_LogFormatter (str "[%p] %c{x}%q!")) = true.
Proof.
  split; [reflexivity|].
  destruct (format_pattern (fun _ _ => []) demo_parts (str "root") ERROR demo_event ltac:(vm_compute; reflexivity)) as [H1 H2].
  split; [exact H1|exact H2].
Defined.

(** The pattern of a new logger is such a sequence, without an error. *)
Definition default_parts : list part :=
  [Item (str "d") (Some (str "%Y-%m-%d %H:%M:%S")); Item (str "T") None; Item (str "t") None; Item (str "T") None;
   Item (str "N") None; Item (str "T") None; Item (str "F") None; Item (str "T") None; Text (str "["); Item (str "p") None;
   Text (str "]"); Item (str "T") None; Text (str "["); Item (str "c") None; Text (str "]"); Item (str "T") None;
   Item (str "f") None; Text (str ":"); Item (str "l") None; Item (str "T") None; Item (str "m") None; Item (str "n") None].

Example default_parts_ok :
  parts_ok default_parts = true /\ existsb unknown_item default_parts = false
  /\ pattern_text default_parts = str "%d{%Y-%m-%d %H:%M:%S}%T%t%T%N%T%F%T[%p]%T[%c]%T%f:%l%T%m%n".
Proof. vm_compute. done. Qed.

(** ** Where a pattern goes wrong *)

(** Text in an open brace, up to the end. *)
Lemma scan_open f : forall fuel p i a s begin, p = a ++ f -> forallb (fun c => negb (c =? 125)) f = true ->
  exists n s', scan (length f + fuel) p i (length a) s [] 1 begin = (n, s', [], 1%nat).
Proof.
  induction f as [|c f IH]; intros fuel p i a s begin Hp Hf.
  - rewrite scan_end; [by eauto|]. by rewrite Hp, app_nil_r.
  - cbn [forallb] in Hf. apply andb_true_iff in Hf as [Hc Hf]. cbn [length Nat.add].
    rewrite (scan_step _ _ _ _ _ _ _ _ _ _ Hp). cbn [Nat.eqb andb]. rewrite negb_true_iff in Hc. rewrite Hc.
    rewrite <- length_snoc with (c := c). apply IH; [by rewrite <- app_assoc|done].
Qed.

(** A pattern of one text. *)
Lemma pieces_literal s : forall fuel pre nstr vec err, forallb (fun c => negb (c =? 37)) s = true -> (length s <= fuel)%nat ->
  pieces fuel (pre ++ s) (length pre) nstr vec err = (flush (nstr ++ s) vec, err).
Proof.
  intros fuel pre nstr vec err Hs Hf. pose proof (pieces_text s (fuel - length s) pre [] nstr vec err Hs) as H.
  rewrite !app_nil_r in H. replace (length s + (fuel - length s))%nat with fuel in H by lia. rewrite H. by apply pieces_end.
Qed.

(** A [%%] puts one [%] into the text and goes on at the other. *)
Lemma pieces_percents fuel pre rest nstr vec err :
  pieces (S fuel) (pre ++ 37 :: 37 :: rest) (length pre) nstr vec err
  = pieces fuel ((pre ++ [37]) ++ 37 :: rest) (length (pre ++ [37])) (nstr ++ [37]) vec err.
Proof.
  cbn [pieces]. rewrite list_lookup_middle by done. cbn [Z.eqb Pos.eqb negb].
  assert ((pre ++ 37 :: 37 :: rest) !! (length pre + 1)%nat = Some 37) as ->
    by (rewrite snoc_app, <- (length_snoc pre 37); by apply list_lookup_middle).
  rewrite bool_decide_eq_true_2 by done. by rewrite <- snoc_app, length_snoc.
Qed.

Lemma pieces_escape s name xs : forallb (fun c => negb (c =? 37)) s = true -> parts_ok (Item name None :: xs) = true ->
  let p := s ++ str "%%" ++ name ++ pattern_text xs in
  pieces (length p) p 0 [] [] false = (parts_pieces (s ++ str "%") (Item name None :: xs), false).
Proof.
  intros Hs Hok p.
  assert (p = s ++ 37 :: pattern_text (Item name None :: xs)) as Hp by done.
  set (q := pattern_text (Item name None :: xs)) in *.
  assert (exists rest, q = 37 :: rest) as [rest Hq] by (unfold q, pattern_text; cbn; eauto).
  assert (length p = length s + S (length q))%nat as El by (rewrite Hp, length_app; done).
  rewrite El, Hp. pose proof (pieces_text s (S (length q)) [] (37 :: q) [] [] false Hs) as Ht. cbn [app length] in Ht. rewrite Ht.
  rewrite Hq at 2. rewrite pieces_percents, <- Hq. unfold q at 2. rewrite pieces_parts by (done || unfold q; lia). done.
Qed.

Lemma pieces_open s name f : forallb (fun c => negb (c =? 37)) s = true -> name <> [] -> forallb isalpha name = true ->
  forallb (fun c => negb (c =? 125)) f = true -> forallb (fun c => negb (c =? 37)) f = true ->
  let p := s ++ 37 :: name ++ 123 :: f in
  pieces (length p) p 0 [] [] false = ([(str "<<pattern_error>>", [], 0); (s ++ name ++ 123 :: f, [], 0)], true).
Proof.
  intros Hs Hne Hn Hb Hf p. set (tail := name ++ 123 :: f).
  assert (length p = length s + S (length tail))%nat as El by (unfold p; by rewrite length_app).
  assert (p = s ++ 37 :: tail) as Hp by done.
  rewrite El, Hp at 1. pose proof (pieces_text s (S (length tail)) [] (37 :: tail) [] [] false Hs) as Ht.
  cbn [app length] in Ht. rewrite Ht. clear Ht. cbn [pieces]. rewrite list_lookup_middle by done. cbn [Z.eqb Pos.eqb negb].
  destruct name as [|c name]; [done|]. assert (isalpha c = true) as Hc by (cbn [forallb] in Hn; by apply andb_true_iff in Hn as [? _]).
  assert ((s ++ 37 :: tail) !! (length s + 1)%nat = Some c) as ->
    by (rewrite snoc_app, <- (length_snoc s 37); by apply list_lookup_middle).
  rewrite bool_decide_eq_false_2 by (intros [= ->]; done).
  assert (s ++ 37 :: tail = (s ++ [37]) ++ (c :: name) ++ 123 :: f) as Hq by (unfold tail; by simplify_list_eq).
  assert (length (s ++ 37%Z :: tail) = length (c :: name) + S (length f + (length s + 1)))%nat as El2
    by (unfold tail; rewrite length_app; cbn [length]; rewrite length_app; cbn [length]; lia).
  rewrite El2, <- (length_snoc s 37).
  rewrite (scan_name (c :: name) _ _ _ (s ++ [37]) (123 :: f) Hq ltac:(done) Hn).
  assert (s ++ 37 :: tail = ((s ++ [37]) ++ c :: name) ++ 123 :: f) as Hq2 by (rewrite Hq; by simplify_list_eq).
  rewrite (scan_step _ _ _ _ _ _ _ _ _ _ Hq2).
  cbn [Nat.eqb isalpha andb negb Z.eqb Z.leb Z.compare Pos.compare Pos.compare_cont orb Pos.eqb].
  rewrite <- length_snoc with (c := 123).
  match goal with |- context [scan (_ + ?fu) ?p ?i (length ?a) ?s0 [] 1 ?b] =>
    destruct (scan_open f fu p i a s0 b ltac:(rewrite Hq2; by simplify_list_eq) Hb) as (n & s' & Hscan) end.
  rewrite Hscan. cbn [Nat.eqb]. rewrite (snoc_app s 37 tail). rewrite pieces_literal; [|unfold tail|done].
  - unfold flush. rewrite bool_decide_eq_false_2; [done|]. unfold tail. by destruct s.
  - rewrite forallb_app. cbn [forallb Z.eqb Pos.eqb negb andb] in *. rewrite Hf, andb_true_r. apply andb_true_iff.
    apply andb_true_iff in Hn as [_ Hn]. split; [apply negb_true_iff, Z.eqb_neq; intros ->; done|].
    apply forallb_forall. intros x Hx. apply negb_true_iff, Z.eqb_neq. intros ->. rewrite forallb_forall in Hn. by specialize (Hn _ Hx).
Qed.

(** [%%] at the end: an item without a name. *)
Lemma pieces_escape_end s : forallb (fun c => negb (c =? 37)) s = true ->
  pieces (length (s ++ str "%%")) (s ++ str "%%") 0 [] [] false = ([(s ++ str "%", [], 0); ([], [], 1)], false).
Proof.
  intros Hs. change (str "%%") with [37; 37]. change (str "%") with [37].
  assert (length (s ++ [37; 37]) = (length s + 2)%nat) as -> by (by rewrite length_app).
  pose proof (pieces_text s 2 [] [37; 37] [] [] false Hs) as Ht. cbn [app length] in Ht. rewrite Ht. clear Ht.
  rewrite pieces_percents. cbn [pieces]. rewrite list_lookup_middle by done. cbn [Z.eqb Pos.eqb negb].
  rewrite (lookup_ge_None_2 _ (length (s ++ [37%Z]) + 1)%nat) by (rewrite length_app; cbn [length]; lia).
  rewrite bool_decide_eq_false_2 by done.
  rewrite scan_end by (rewrite !length_app; cbn [length]; lia). cbn [Nat.eqb].
  unfold flush at 2. rewrite bool_decide_eq_false_2 by (by destruct s). done.
Qed.

Section Faults.
Context (strftime : list Z -> Z -> list Z).

(** Where a pattern is not read as it is meant. A [%%] before letters is one [%] in the text, and still the
    start of the item the letters name; at the end of the pattern it is one [%] and an item without a name, which
    is an error. A brace that is not closed puts the text [<<pattern_error>>] before the text that stands in front
    of the item, leaves the item's name, its brace and what is behind as text, and is an error. *)
Theorem pattern_faults s name xs f ln lv e :
  forallb (fun c => negb (c =? 37)) s = true -> parts_ok (Item name None :: xs) = true ->
  forallb (fun c => negb (c =? 125)) f = true -> forallb (fun c => negb (c =? 37)) f = true ->
  let escape := new_LogFormatter (s ++ str "%%" ++ name ++ pattern_text xs) in
  let escape_end := new_LogFormatter (s ++ str "%%") in
  let brace := new_LogFormatter (s ++ str "%" ++ name ++ str "{" ++ f) in
  (format strftime escape ln lv e = parts_format strftime (Text (s ++ str "%") :: Item name None :: xs) ln lv e
   /\ isError escape = existsb unknown_item (Item name None :: xs))
  /\ (format strftime escape_end ln lv e = inr (s ++ str "%<<error_format %>>") /\ isError escape_end = true)
  /\ (format strftime brace ln lv e = inr (str "<<pattern_error>>" ++ s ++ name ++ str "{" ++ f) /\ isError brace = true).
Proof.
  intros Hs Hok Hb Hf escape escape_end brace. split; [|split].
  - unfold escape, new_LogFormatter, init. rewrite (pieces_escape s name xs Hs Hok). cbn [isError m_error].
    rewrite parts_pieces_error, orb_false_r. split; [|done]. unfold format. cbn [m_items].
    rewrite parts_pieces_format. done.
  - unfold escape_end, new_LogFormatter, init. rewrite (pieces_escape_end s Hs). split; [|done].
    unfold format. cbn. by rewrite <- app_assoc.
  - cbn [parts_ok] in Hok. rewrite !andb_true_iff, negb_true_iff, bool_decide_eq_false in Hok. destruct Hok as [[[Hne Hn] _] _].
    unfold brace, new_LogFormatter, init. pose proof (pieces_open s name f Hs Hne Hn Hb Hf) as Hp. cbv zeta in Hp.
    change (str "%" ++ name ++ str "{" ++ f) with (37 :: name ++ 123 :: f). rewrite Hp.
    unfold format. cbn. rewrite app_nil_r. done.
Qed.
End Faults.

(** [100%%m], [100%%] and [t%d{%Y]. *)
Lemma pattern_faults_witness :
  let out p := format (fun _ _ => []) (new_LogFormatter (str p)) (str "root") ERROR demo_event in
  out "100%%m" = inr (str "100%hello") /\ out "100%%" = inr (str "100%<<error_format %>>")
  /\ out "100%m{Y" = inr (str "<<pattern_error>>100m{Y").
Proof.
  assert (forallb (fun c => negb (c =? 37)) (str "100") = true) as Hs by reflexivity.
  assert (parts_ok [Item (str "m") None] = true) as Hok by reflexivity.
  assert (forallb (fun c => negb (c =? 125)) (str "Y") = true) as Hb by reflexivity.
  assert (forallb (fun c => negb (c =? 37)) (str "Y") = true) as Hf by reflexivity.
  destruct (pattern_faults (fun _ _ => []) (str "100") (str "m") [] (str "Y") (str "root") ERROR demo_event Hs Hok Hb Hf) as ([H1 _] & [H2 _] & [H3 _]).
  split; [exact H1|split; [exact H2|exact H3]].
Defined.

(** ** Levels *)

(** [FromString] reads what [ToString] prints, and nothing else but small letters; other levels print as unknown. *)
Lemma levels_roundtrip l : 1 <= l <= 5 -> FromString (ToString l) = l /\ FromString (str "UNKNOWN") = UNKNOW.
Proof.
  intros H. split; [|reflexivity].
  assert (l = 1 \/ l = 2 \/ l = 3 \/ l = 4 \/ l = 5) as [-> | [-> | [-> | [-> | ->]]]] by lia; reflexivity.
Qed.
