(* ===== verification/Logger.v ===== *)
(** * Logger: appenders, loggers and their manager, of [sylar/log.h] and [log.cpp]

    Loggers and appenders are behind pointers; the formatters they share never change, so they are values. A lock of
    this file is held within one operation only, so an operation is one step: the lock a thread can wait for
    without end is that of a logger it is already logging with. The definitions of loggers in the configuration, with their casts
    and the listener that applies them, are at the end. *)

From S2P Require Import Prelude Std Config Log.

(** ** State *)

(** [m_filename], whether [m_filestream] is good, and [m_lastTime]. *)
(* SRC sylar/log.h:221-223 FileLogAppender *)
Record FileStream := mkFileStream { m_filename : text; m_filestream : bool; m_lastTime : Z }.

(** A [FileLogAppender] has a file, a [StdoutLogAppender] none. *)
(* SRC sylar/log.h:157-160 LogAppender *)
Record LogAppender := mkLogAppender {
  ap_level : Z;
  ap_hasFormatter : bool;
  ap_formatter : option LogFormatter;
  ap_file : option FileStream
}.

(* SRC sylar/log.h:192-197 Logger *)
Record Logger := mkLogger {
  lg_name : text;
  lg_level : Z;
  lg_appenders : list Z;
  lg_formatter : option LogFormatter;
  lg_root : option Z
}.

(** The heap, the members of the [LoggerManager], and what has been written: to [std::cout], and to each file, what is
    still in the stream's buffer included. [openable] says which files can be opened to append. *)
(* SRC sylar/log.h:238-240 LoggerManager *)
Record World := mkWorld {
  loggers : gmap Z Logger;
  appenders : gmap Z LogAppender;
  next : Z;
  m_loggers : list (text * Z);
  m_root : Z;
  cout : text;
  files : gmap text text;
  openable : text -> bool
}.
Notation MW := (M World).

(** Files are opened by C strings. *)
Definition path (f : FileStream) : text := c_str (m_filename f).

Definition set_loggers v w := mkWorld v (appenders w) (next w) (m_loggers w) (m_root w) (cout w) (files w) (openable w).
Definition set_appenders v w := mkWorld (loggers w) v (next w) (m_loggers w) (m_root w) (cout w) (files w) (openable w).
Definition set_next v w := mkWorld (loggers w) (appenders w) v (m_loggers w) (m_root w) (cout w) (files w) (openable w).
Definition set_manager m r w := mkWorld (loggers w) (appenders w) (next w) m r (cout w) (files w) (openable w).
Definition set_out c f w := mkWorld (loggers w) (appenders w) (next w) (m_loggers w) (m_root w) c f (openable w).

Definition put (t : text) : MW unit := modify (fun w => set_out (cout w ++ t) (files w) w).
Definition append (name t : text) : MW unit := modify (fun w =>
  set_out (cout w) (<[name := default [] (files w !! name) ++ t]> (files w)) w).

Definition the_logger (a : Z) : MW Logger := fun w =>
  match loggers w !! a with Some l => Ret l w | None => UB NullDeref end.
Definition the_appender (a : Z) : MW LogAppender := fun w =>
  match appenders w !! a with Some p => Ret p w | None => UB NullDeref end.
Definition upd_logger (a : Z) (f : Logger -> Logger) : MW unit :=
  let! l := the_logger a in modify (fun w => set_loggers (<[a := f l]> (loggers w)) w).
Definition upd_appender (a : Z) (f : LogAppender -> LogAppender) : MW unit :=
  let! p := the_appender a in modify (fun w => set_appenders (<[a := f p]> (appenders w)) w).
Definition fresh : MW Z := fun w => Ret (next w) (set_next (next w + 1) w).

(** ** Appenders *)

(* SRC sylar/log.cpp:78-86 LogAppender::setFormatter *)
Definition appender_setFormatter (this : Z) (val : option LogFormatter) : MW unit :=
  upd_appender this (fun p => mkLogAppender (ap_level p) (match val with Some _ => true | None => false end) val (ap_file p)).

(* SRC sylar/log.cpp:88-91 LogAppender::getFormatter *)
Definition appender_getFormatter (this : Z) : MW (option LogFormatter) := let! p := the_appender this in ret (ap_formatter p).

(* SRC sylar/log.h:155-155 LogAppender::setLevel *)
Definition appender_setLevel (this val : Z) : MW unit :=
  upd_appender this (fun p => mkLogAppender val (ap_hasFormatter p) (ap_formatter p) (ap_file p)).

Definition set_formatter (fmt : option LogFormatter) (p : LogAppender) : LogAppender :=
  mkLogAppender (ap_level p) (ap_hasFormatter p) fmt (ap_file p).
Definition set_file (f : option FileStream) (p : LogAppender) : LogAppender :=
  mkLogAppender (ap_level p) (ap_hasFormatter p) (ap_formatter p) f.

Definition new_appender (f : option FileStream) : MW Z :=
  let! a := fresh in
  modify (fun w => set_appenders (<[a := mkLogAppender DEBUG false None f]> (appenders w)) w) ;;
  ret a.

(* SRC sylar/log.h:201-206 StdoutLogAppender *)
Definition new_StdoutLogAppender : MW Z := new_appender None.

(** A good stream is closed, which writes its buffer; opening creates the file. *)
(* SRC sylar/log.cpp:385-392 FileLogAppender::reopen *)
Definition reopen (this : Z) : MW bool :=
  let! p := the_appender this in
  match ap_file p with
  | None => ret false
  | Some f =>
      let! ok := gets (fun w => openable w (path f)) in
      (if (ok : bool) then append (path f) [] else ret tt) ;;
      upd_appender this (set_file (Some (mkFileStream (m_filename f) ok (m_lastTime f)))) ;;
      ret ok
  end.

(* SRC sylar/log.cpp:352-355 FileLogAppender::FileLogAppender *)
Definition new_FileLogAppender (filename : text) : MW Z :=
  let! a := new_appender (Some (mkFileStream filename true 0)) in
  reopen a ;;
  ret a.

Section Log.
Context (strftime : list Z -> Z -> list Z).

(** [m_formatter->format(logger, level, event)]: the name of the event's logger is read by the items that print it. *)
Definition is_name (i : FormatItem) : bool := match i with NameFormatItem => true | _ => false end.
Definition run_format (fmt : option LogFormatter) (level : Z) (event : LogEvent) : MW text := fun w =>
  match fmt with
  | None => UB NullDeref
  | Some fmt =>
      match loggers w !! ev_logger event with
      | None => if existsb is_name (m_items fmt) then UB NullDeref
                else match format strftime fmt [] level event with inl f => UB f | inr t => Ret t w end
      | Some l => match format strftime fmt (lg_name l) level event with inl f => UB f | inr t => Ret t w end
      end
  end.

(* SRC sylar/log.cpp:394-399 StdoutLogAppender::log *)
Definition stdout_log (this level : Z) (event : LogEvent) : MW unit :=
  let! p := the_appender this in
  if ap_level p <=? level then let! t := run_format (ap_formatter p) level event in put t else ret tt.

(** What is written to a stream that is not good is lost. *)
(* SRC sylar/log.cpp:357-367 FileLogAppender::log *)
Definition file_log (this level : Z) (event : LogEvent) : MW unit :=
  let! p := the_appender this in
  match ap_file p with
  | None => ret tt
  | Some f =>
      if ap_level p <=? level then
        let now := ev_time event in
        (if u64 (3 + m_lastTime f) <=? now then
           reopen this ;;
           upd_appender this (fun p =>
             set_file ((fun f => mkFileStream (m_filename f) (m_filestream f) now) <$> ap_file p) p)
         else ret tt) ;;
        let! p := the_appender this in
        let! t := run_format (ap_formatter p) level event in
        match ap_file p with
        | Some f => if m_filestream f then append (path f) t else ret tt
        | None => ret tt
        end
      else ret tt
  end.

(* SRC sylar/log.h:149-149 LogAppender::log *)
Definition appender_log (this level : Z) (event : LogEvent) : MW unit :=
  let! p := the_appender this in
  match ap_file p with Some _ => file_log this level event | None => stdout_log this level event end.

(** ** Loggers *)

Fixpoint each (op : Z -> MW unit) (l : list Z) : MW unit :=
  match l with
  | [] => ret tt
  | i :: l => op i ;; each op l
  end.

(** A logger hands over to its root under its own lock: a logger that comes up again waits for itself. [fuel] is how
    many loggers there are. *)
(* SRC sylar/log.cpp:263-275 Logger::log *)
Fixpoint log_from (fuel : nat) (this level : Z) (event : LogEvent) : MW unit :=
  match fuel with
  | O => fail_with Deadlock
  | S fuel =>
      let! l := the_logger this in
      if lg_level l <=? level then
        match lg_appenders l with
        | [] => match lg_root l with Some r => log_from fuel r level event | None => ret tt end
        | l => each (fun i => appender_log i level event) l
        end
      else ret tt
  end.
(* SRC sylar/log.cpp:263-275 Logger::log *)
Definition log (this level : Z) (event : LogEvent) : MW unit := fun w =>
  log_from (S (size (loggers w))) this level event w.

(* SRC sylar/log.cpp:277-279 Logger::debug *)
Definition debug (this : Z) : LogEvent -> MW unit := log this DEBUG.
(* SRC sylar/log.cpp:281-283 Logger::info *)
Definition info (this : Z) : LogEvent -> MW unit := log this INFO.
(* SRC sylar/log.cpp:285-287 Logger::warn *)
Definition warn (this : Z) : LogEvent -> MW unit := log this WARN.
(* SRC sylar/log.cpp:289-291 Logger::error *)
Definition error (this : Z) : LogEvent -> MW unit := log this ERROR.
(* SRC sylar/log.cpp:293-295 Logger::fatal *)
Definition fatal (this : Z) : LogEvent -> MW unit := log this FATAL.

(** The event of the macro has the place of the call, the thread and the time; its destructor logs it, with what was written to it. *)
(* SRC sylar/log.cpp:54-56 LogEventWrap::~LogEventWrap *)
Definition delete_LogEventWrap (event : LogEvent) : MW unit := log (ev_logger event) (ev_level event) event.

(** Where the macro is: [__FILE__], [__LINE__], the thread and fiber ids, [time(0)] and the thread's name. *)
Record Here := mkHere { h_file : text; h_line : Z; h_thread : Z; h_fiber : Z; h_time : Z; h_name : text }.
(* SRC sylar/log.h:17-20 SYLAR_LOG_LEVEL *)
Definition log_level (h : Here) (logger level : Z) (message : text) : MW unit :=
  let! l := the_logger logger in
  if lg_level l <=? level then
    delete_LogEventWrap (ev_write message
      (new_LogEvent logger level (h_file h) (h_line h) 0 (h_thread h) (h_fiber h) (h_time h) (h_name h)))
  else ret tt.

Definition default_pattern : text := str "%d{%Y-%m-%d %H:%M:%S}%T%t%T%N%T%F%T[%p]%T[%c]%T%f:%l%T%m%n".

(* SRC sylar/log.cpp:232-236 Logger::Logger *)
Definition new_Logger (name : text) : MW Z :=
  let! a := fresh in
  modify (fun w => set_loggers (<[a := mkLogger name DEBUG [] (Some (new_LogFormatter default_pattern)) None]> (loggers w)) w) ;;
  ret a.

Definition set_appenders_of v l := mkLogger (lg_name l) (lg_level l) v (lg_formatter l) (lg_root l).
Definition set_root v l := mkLogger (lg_name l) (lg_level l) (lg_appenders l) (lg_formatter l) v.

(* SRC sylar/log.cpp:238-245 Logger::addAppender *)
Definition addAppender (this appender : Z) : MW unit :=
  let! l := the_logger this in
  let! f := appender_getFormatter appender in
  (match f with None => upd_appender appender (set_formatter (lg_formatter l)) | Some _ => ret tt end) ;;
  upd_logger this (fun l => set_appenders_of (lg_appenders l ++ [appender]) l).

(** Only the first one that is equal. *)
Fixpoint erase_first (x : Z) (l : list Z) : list Z :=
  match l with
  | [] => []
  | y :: l => if y =? x then l else y :: erase_first x l
  end.
(* SRC sylar/log.cpp:247-256 Logger::delAppender *)
Definition delAppender (this appender : Z) : MW unit :=
  upd_logger this (fun l => set_appenders_of (erase_first appender (lg_appenders l)) l).

(* SRC sylar/log.cpp:258-261 Logger::clearAppenders *)
Definition clearAppenders (this : Z) : MW unit := upd_logger this (set_appenders_of []).

(* SRC sylar/log.h:183-183 Logger::setLevel *)
Definition logger_setLevel (this val : Z) : MW unit :=
  upd_logger this (fun l => mkLogger (lg_name l) val (lg_appenders l) (lg_formatter l) (lg_root l)).

(* SRC sylar/log.cpp:297-314 Logger::setFormatter *)
Definition setFormatter (this : Z) (val : option LogFormatter) : MW unit :=
  match val with
  | None => fail_with NullDeref
  | Some fmt =>
      if negb (isError fmt) then
        upd_logger this (fun l => mkLogger (lg_name l) (lg_level l) (lg_appenders l) (Some fmt) (lg_root l)) ;;
        let! l := the_logger this in
        each (fun i =>
          let! p := the_appender i in
          if ap_hasFormatter p then ret tt else upd_appender i (set_formatter (Some fmt))) (lg_appenders l)
      else ret tt
  end.

(* SRC sylar/log.cpp:316-326 Logger::setFormatter *)
Definition setFormatter_pattern (this : Z) (val : text) : MW unit :=
  let new_val := new_LogFormatter val in
  if isError new_val then
    let! l := the_logger this in
    put (str "Logger setFormatter name = " ++ lg_name l ++ str " value = " ++ val ++ str " invalid formatter" ++ [10])
  else setFormatter this (Some new_val).

(* SRC sylar/log.cpp:328-331 Logger::getFormatter *)
Definition getFormatter (this : Z) : MW (option LogFormatter) := let! l := the_logger this in ret (lg_formatter l).

(** ** The manager *)

(* SRC sylar/log.cpp:540-547 LoggerManager::LoggerManager *)
Definition new_LoggerManager : MW unit :=
  let! root := new_Logger (str "root") in
  let! ap := new_StdoutLogAppender in
  addAppender root ap ;;
  let! l := the_logger root in
  modify (set_manager (map_assign text_less (lg_name l) root []) root).

(* SRC sylar/log.cpp:549-561 LoggerManager::getLogger *)
Definition getLogger (name : text) : MW Z :=
  let! it := gets (fun w => map_find text_less name (m_loggers w)) in
  match it with
  | Some kv => ret kv.2
  | None =>
      let! logger := new_Logger name in
      let! root := gets m_root in
      upd_logger logger (set_root (Some root)) ;;
      modify (fun w => set_manager (map_assign text_less name logger (m_loggers w)) (m_root w) w) ;;
      ret logger
  end.

(** ** YAML *)

Section Yaml.
Context {Node : Type} `{!Yaml Node}.

(** A level and a formatter, where they are set. *)
Definition level_entry (level : Z) : list (text * Node) :=
  if level =? UNKNOW then [] else [(str "level", y_text (ToString level))].
Definition formatter_entry (fmt : option LogFormatter) : list (text * Node) :=
  match fmt with Some fmt => [(str "formatter", y_text (m_pattern fmt))] | None => [] end.

(* SRC sylar/log.cpp:369-383 FileLogAppender::toYamlString *)
Definition file_toYamlString (p : LogAppender) (f : FileStream) : text :=
  y_emit (y_map ([(str "type", y_text (str "FileLogAppender")); (str "file", y_text (m_filename f))]
    ++ level_entry (ap_level p) ++ (if ap_hasFormatter p then formatter_entry (ap_formatter p) else []))).
(* SRC sylar/log.cpp:401-414 StdoutLogAppender::toYamlString *)
Definition stdout_toYamlString (p : LogAppender) : text :=
  y_emit (y_map ([(str "type", y_text (str "StdoutLogAppender"))]
    ++ level_entry (ap_level p) ++ (if ap_hasFormatter p then formatter_entry (ap_formatter p) else []))).
Definition appender_toYamlString (this : Z) : MW text :=
  let! p := the_appender this in
  ret (match ap_file p with Some f => file_toYamlString p f | None => stdout_toYamlString p end).

(** The nodes of texts, loaded one after the other. *)
Fixpoint load_each (to_yaml : Z -> MW text) (l : list Z) : MW (list Node) :=
  match l with
  | [] => ret []
  | i :: l =>
      let! t := to_yaml i in
      match y_load t with
      | None => throw logic_error
      | Some n => let! rest := load_each to_yaml l in ret (n :: rest)
      end
  end.

(* SRC sylar/log.cpp:333-350 Logger::toYamlString *)
Definition logger_toYamlString (this : Z) : MW text :=
  let! l := the_logger this in
  let! nodes := load_each appender_toYamlString (lg_appenders l) in
  ret (y_emit (y_map ([(str "name", y_text (lg_name l))] ++ level_entry (lg_level l) ++ formatter_entry (lg_formatter l)
    ++ match nodes with [] => [] | _ => [(str "appenders", y_seq nodes)] end))).

(* SRC sylar/log.cpp:563-572 LoggerManager::toYamlString *)
Definition manager_toYamlString : MW text :=
  let! l := gets (fun w => map snd (m_loggers w)) in
  let! nodes := load_each logger_toYamlString l in
  ret (y_emit (match nodes with [] => y_null | _ => y_seq nodes end)).
End Yaml.

(** ** Definitions of loggers *)

(* SRC sylar/log.cpp:574-578 LogAppenderDefine *)
Record LogAppenderDefine := mkLogAppenderDefine { ad_type : Z; ad_level : Z; ad_formatter : text; ad_file : text }.
(* SRC sylar/log.cpp:588-592 LogDefine *)
Record LogDefine := mkLogDefine { ld_name : text; ld_level : Z; ld_formatter : text; ld_appenders : list LogAppenderDefine }.

(* SRC sylar/log.cpp:580-585 LogAppenderDefine::operator== *)
Definition appender_define_eq (this oth : LogAppenderDefine) : bool :=
  (ad_type this =? ad_type oth) && (ad_level this =? ad_level oth)
  && bool_decide (ad_formatter this = ad_formatter oth) && bool_decide (ad_file this = ad_file oth).

(** [==] of vectors. *)
Fixpoint vector_eq {T} (eq : T -> T -> bool) (a b : list T) : bool :=
  match a, b with
  | [], [] => true
  | x :: a, y :: b => eq x y && vector_eq eq a b
  | _, _ => false
  end.

(** The last comparison is of [appenders] with itself. *)
(* SRC sylar/log.cpp:594-599 LogDefine::operator== *)
Definition define_eq (this oth : LogDefine) : bool :=
  bool_decide (ld_name this = ld_name oth) && (ld_level this =? ld_level oth)
  && bool_decide (ld_formatter this = ld_formatter oth)
  && vector_eq appender_define_eq (ld_appenders this) (ld_appenders this).

(* SRC sylar/log.cpp:601-603 LogDefine::operator< *)
Definition define_less (this oth : LogDefine) : bool := text_less (ld_name this) (ld_name oth).

Section Casts.
Context {Node : Type} `{!Yaml Node}.

(** [n[key]] throws on a scalar; [as<std::string>] on what has no text. *)
Definition field (n : Node) (key : text) : option (option Node) :=
  if y_is_scalar n then None else Some (y_get n key).
Definition text_field (n : Node) (key : text) (absent : text) : option text :=
  v ← field n key;
  match v with None => Some absent | Some v => y_string v end.
Definition items_of (n : Node) : list Node := map (y_at n) (seq 0 (y_size n)).

(** [Some None] for one that is left out with a message. *)
(* SRC sylar/log.cpp:629-655 LexicalCast<std::string, std::set<LogDefine>> *)
Definition appender_define (a : Node) : option (option LogAppenderDefine) :=
  type ← field a (str "type");
  match type with
  | None => Some None
  | Some type =>
      type ← y_string type;
      if bool_decide (type = str "FileLogAppender") then
        file ← field a (str "file");
        match file with
        | None => Some None
        | Some file =>
            file ← y_string file;
            formatter ← text_field a (str "formatter") [];
            Some (Some (mkLogAppenderDefine 1 UNKNOW formatter file))
        end
      else if bool_decide (type = str "StdoutLogAppender") then Some (Some (mkLogAppenderDefine 2 UNKNOW [] []))
      else Some None
  end.

(* SRC sylar/log.cpp:615-657 LexicalCast<std::string, std::set<LogDefine>> *)
Definition log_define (n : Node) : option (option LogDefine) :=
  name ← field n (str "name");
  match name with
  | None => Some None
  | Some name =>
      name ← y_string name;
      level ← text_field n (str "level") [];
      formatter ← text_field n (str "formatter") [];
      appenders ← field n (str "appenders");
      defs ← mapM appender_define (match appenders with None => [] | Some a => items_of a end);
      Some (Some (mkLogDefine name (FromString level) formatter (omap id defs)))
  end.

(* SRC sylar/log.cpp:610-663 LexicalCast<std::string, std::set<LogDefine>> *)
Definition text_to_defines : LexicalCast text (list LogDefine) := fun v =>
  node ← y_load v;
  vec ← mapM log_define (items_of node);
  Some (foldl (fun vec ld => set_insert define_less ld vec) [] (omap id vec)).

Definition map_node (l : list (text * Node)) : Node := match l with [] => y_null | _ => y_map l end.
Definition seq_node (l : list Node) : Node := match l with [] => y_null | _ => y_seq l end.

(* SRC sylar/log.cpp:682-698 LexicalCast<std::set<LogDefine>, std::string> *)
Definition appender_define_node (a : LogAppenderDefine) : Node :=
  map_node
    ((if ad_type a =? 1 then [(str "type", y_text (str "FileLogAppender")); (str "file", y_text (ad_file a))]
      else if ad_type a =? 2 then [(str "type", y_text (str "StdoutLogAppender"))]
      else [])
     ++ level_entry (ad_level a)
     ++ (if bool_decide (ad_formatter a = []) then [] else [(str "formatter", y_text (ad_formatter a))])).

(* SRC sylar/log.cpp:673-701 LexicalCast<std::set<LogDefine>, std::string> *)
Definition define_node (i : LogDefine) : Node :=
  y_map ([(str "name", y_text (ld_name i))] ++ level_entry (ld_level i)
    ++ (if bool_decide (ld_formatter i = []) then [] else [(str "formatter", y_text (ld_formatter i))])
    ++ match ld_appenders i with [] => [] | l => [(str "appenders", y_seq (map appender_define_node l))] end).

(* SRC sylar/log.cpp:670-705 LexicalCast<std::set<LogDefine>, std::string> *)
Definition defines_to_text : LexicalCast (list LogDefine) text := fun v =>
  Some (y_emit (seq_node (map define_node v))).
End Casts.

(** ** Applying a configuration *)

Definition find_define (i : LogDefine) (l : list LogDefine) : option LogDefine :=
  List.find (fun x => same_key define_less i x) l.

(** An appender of another type stays a null pointer. *)
(* SRC sylar/log.cpp:735-754 LogIniter::LogIniter *)
Definition apply_appender (logger : Z) (i : LogDefine) (a : LogAppenderDefine) : MW unit :=
  let! ap :=
    if ad_type a =? 1 then new_FileLogAppender (ad_file a)
    else if ad_type a =? 2 then new_StdoutLogAppender
    else fail_with NullDeref in
  appender_setLevel ap (ad_level a) ;;
  (if bool_decide (ad_formatter a = []) then ret tt
   else
     let fmt := new_LogFormatter (ad_formatter a) in
     if negb (isError fmt) then appender_setFormatter ap (Some fmt)
     else put (str "log.name=" ++ ld_name i ++ str "appender type=" ++ decimal (ad_type a) ++ str " formatter="
               ++ ad_formatter a ++ str " is invalid" ++ [10])) ;;
  addAppender logger ap.

Fixpoint apply_appenders (logger : Z) (i : LogDefine) (l : list LogAppenderDefine) : MW unit :=
  match l with
  | [] => ret tt
  | a :: l => apply_appender logger i a ;; apply_appenders logger i l
  end.

(** The pointer [logger] is null when the definition is the same as before. *)
(* SRC sylar/log.cpp:717-756 LogIniter::LogIniter *)
Definition apply_new (old_value : list LogDefine) (i : LogDefine) : MW unit :=
  let same := match find_define i old_value with None => false | Some it => define_eq i it end in
  if same then fail_with NullDeref
  else
    let! logger := getLogger (ld_name i) in
    logger_setLevel logger (ld_level i) ;;
    (if bool_decide (ld_formatter i = []) then ret tt else setFormatter_pattern logger (ld_formatter i)) ;;
    clearAppenders logger ;;
    apply_appenders logger i (ld_appenders i).

(* SRC sylar/log.cpp:758-766 LogIniter::LogIniter *)
Definition apply_gone (new_value : list LogDefine) (i : LogDefine) : MW unit :=
  match find_define i new_value with
  | Some _ => ret tt
  | None =>
      let! logger := getLogger (ld_name i) in
      logger_setLevel logger 100 ;;
      clearAppenders logger
  end.

Fixpoint each_define (op : LogDefine -> MW unit) (l : list LogDefine) : MW unit :=
  match l with
  | [] => ret tt
  | i :: l => op i ;; each_define op l
  end.

(* SRC sylar/log.cpp:713-767 LogIniter::LogIniter *)
Definition on_logger_conf_changed (h : Here) (old_value new_value : list LogDefine) : MW unit :=
  let! root := gets m_root in
  log_level h root INFO (str "on_logger_conf_changed") ;;
  each_define (apply_new old_value) new_value ;;
  each_define (apply_gone new_value) old_value.
End Log.
