(* ===== verification/LoggerSpec.v ===== *)
(** * LoggerSpec: where events go

    The well-formedness of the heap of loggers and appenders, the relation of the changes an event makes to it, and
    [log_routes]: which appenders an event reaches, and what each place gets. *)

From S2P Require Import Prelude Std Config Log Logger.

(** ** The shape of the heap *)

(** What an event does not change of an appender. *)
Definition shape (p : LogAppender) := (ap_level p, ap_hasFormatter p, ap_formatter p, m_filename <$> ap_file p).

(** Only streams and what is written have changed. *)
Record quiet (w w' : World) : Prop := mkQuiet {
  q_loggers : loggers w' = loggers w;
  q_next : next w' = next w;
  q_names : m_loggers w' = m_loggers w;
  q_root : m_root w' = m_root w;
  q_openable : openable w' = openable w;
  q_appenders : forall b, shape <$> appenders w' !! b = shape <$> appenders w !! b
}.

#[export] Instance quiet_preorder : PreOrder quiet.
Proof.
  split; [by intros w; split|].
  intros w1 w2 w3 [] []. split; congruence.
Qed.

(** Every logger is known by its name; its appenders exist and have formatters; its root, if it has one, is the manager's, which has none. *)
Record wf (w : World) : Prop := mkWf {
  wf_appenders : forall a l p, loggers w !! a = Some l -> p ∈ lg_appenders l ->
    exists ap, appenders w !! p = Some ap /\ ap_formatter ap <> None;
  wf_formatter : forall a l, loggers w !! a = Some l -> lg_formatter l <> None;
  wf_root : exists l, loggers w !! m_root w = Some l /\ lg_root l = None;
  wf_roots : forall a l r, loggers w !! a = Some l -> lg_root l = Some r -> r = m_root w;
  wf_sorted : map_sorted text_less (m_loggers w);
  wf_named : forall name a, (name, a) ∈ m_loggers w <-> exists l, loggers w !! a = Some l /\ lg_name l = name;
  wf_next : forall a, is_Some (loggers w !! a) \/ is_Some (appenders w !! a) -> a < next w
}.

Lemma shape_lookup w w' b p : quiet w w' -> appenders w !! b = Some p ->
  exists p', appenders w' !! b = Some p' /\ shape p' = shape p.
Proof.
  intros Q E. pose proof (q_appenders _ _ Q b) as H. rewrite E in H. cbn in H.
  destruct (appenders w' !! b) as [p'|]; [|done]. exists p'. split; [done|]. cbn in H. congruence.
Qed.

Lemma shape_is_Some w w' b : quiet w w' -> is_Some (appenders w' !! b) <-> is_Some (appenders w !! b).
Proof.
  intros Q. pose proof (q_appenders _ _ Q b) as H.
  destruct (appenders w' !! b), (appenders w !! b); try done; rewrite !is_Some_alt; done.
Qed.

Lemma quiet_wf w w' : quiet w w' -> wf w -> wf w'.
Proof.
  intros Q []. pose proof Q as []. split.
  - intros a l p Hl Hp. rewrite q_loggers0 in Hl. destruct (wf_appenders0 a l p Hl Hp) as (ap & E & Hf).
    destruct (shape_lookup w w' p ap Q E) as (p' & E' & Hs). exists p'. split; [done|].
    injection Hs as _ _ -> _. done.
  - rewrite q_loggers0. done.
  - by rewrite q_loggers0, q_root0.
  - rewrite q_loggers0, q_root0. done.
  - by rewrite q_names0.
  - rewrite q_loggers0, q_names0. done.
  - intros a. rewrite q_loggers0, q_next0, (shape_is_Some w w' a Q). apply wf_next0.
Qed.

Section Routes.
Context (strftime : list Z -> Z -> list Z).

(** ** Where an event goes *)

Definition formatted (w : World) (fmt : option LogFormatter) (level : Z) (ev : LogEvent) : fault + text :=
  match run_format strftime fmt level ev w with Ret t _ => inr t | UB f => inl f | Exn _ _ => inl NullDeref end.

Lemma run_format_spec fmt level ev w :
  run_format strftime fmt level ev w = match formatted w fmt level ev with inl f => UB f | inr t => Ret t w end.
Proof. unfold formatted, run_format. repeat case_match; congruence. Qed.

Lemma formatted_quiet w w' fmt level ev : loggers w' = loggers w -> formatted w' fmt level ev = formatted w fmt level ev.
Proof. intros E. unfold formatted, run_format. rewrite E. repeat case_match; congruence. Qed.

(** The stream takes the text: it is good, after it was opened again where three seconds have gone by. *)
Definition accepts (w : World) (f : FileStream) (now : Z) : bool :=
  if u64 (3 + m_lastTime f) <=? now then openable w (path f) else m_filestream f.

(** What an appender writes of an event, and to which file, none for [std::cout]. *)
Definition delivery (w : World) (level : Z) (ev : LogEvent) (a : Z) : fault + option (option text * text) :=
  match appenders w !! a with
  | None => inl NullDeref
  | Some p =>
      if negb (ap_level p <=? level) then inr None
      else
        match formatted w (ap_formatter p) level ev with
        | inl f => inl f
        | inr t =>
            match ap_file p with
            | None => inr (Some (None, t))
            | Some f => if accepts w f (ev_time ev) then inr (Some (Some (path f), t)) else inr None
            end
        end
  end.

(** The appenders an event of a level reaches at a logger: its own, or else those of its root. *)
Definition own_sinks (l : Logger) (level : Z) : list Z := if lg_level l <=? level then lg_appenders l else [].
Definition sinks (w : World) (this level : Z) : list Z :=
  match loggers w !! this with
  | None => []
  | Some l =>
      match lg_appenders l, lg_root l with
      | [], Some r => if lg_level l <=? level then from_option (fun r => own_sinks r level) [] (loggers w !! r) else []
      | _, _ => own_sinks l level
      end
  end.

Fixpoint collect {X} (l : list (fault + option X)) : fault + list X :=
  match l with
  | [] => inr []
  | inl f :: _ => inl f
  | inr o :: l => match collect l with inl f => inl f | inr xs => inr (option_list o ++ xs) end
  end.

Definition contents (w : World) (d : option text) : text :=
  match d with None => cout w | Some name => default [] (files w !! name) end.
Definition to_place {X} (d : option text) (outs : list (option text * X)) : list X :=
  map snd (List.filter (fun o => bool_decide (o.1 = d)) outs).

Lemma log_from_sinks fuel w this level ev : wf w -> is_Some (loggers w !! this) ->
  log_from strftime (S (S fuel)) this level ev w = each (fun i => appender_log strftime i level ev) (sinks w this level) w.
Proof.
  intros Hw [l Hl]. cbn [log_from]. unfold the_logger, bind at 1. rewrite Hl. unfold sinks, own_sinks. rewrite Hl.
  destruct (lg_level l <=? level) eqn:E; [|by destruct (lg_appenders l), (lg_root l)].
  destruct (lg_appenders l) as [|p ps] eqn:Ep; [|done].
  destruct (lg_root l) as [r|] eqn:Er; [|done].
  pose proof (wf_roots w Hw _ _ _ Hl Er) as ->. destruct (wf_root w Hw) as (rl & Hr & Hn).
  unfold bind at 1. rewrite Hr. cbn [from_option]. destruct (lg_level rl <=? level); [|done].
  rewrite Hn. by destruct (lg_appenders rl).
Qed.

Lemma log_sinks w this level ev : wf w -> is_Some (loggers w !! this) ->
  log strftime this level ev w = each (fun i => appender_log strftime i level ev) (sinks w this level) w.
Proof.
  intros Hw Hl. unfold log. assert (exists n, size (loggers w) = S n) as [n ->].
  { destruct (size (loggers w)) eqn:E; [|eauto]. apply map_size_empty_inv in E. rewrite E in Hl. by destruct Hl. }
  by apply log_from_sinks.
Qed.

(** ** One appender *)

Definition appended (name t : text) (w : World) : World :=
  set_out (cout w) (<[name := default [] (files w !! name) ++ t]> (files w)) w.

Lemma contents_appended name t w d :
  contents (appended name t w) d = contents w d ++ (if bool_decide (d = Some name) then t else []).
Proof.
  unfold contents, appended. destruct d as [n|]; cbn; [|by rewrite app_nil_r].
  destruct (decide (n = name)) as [->|Hn].
  - by rewrite lookup_insert_eq, bool_decide_eq_true_2.
  - rewrite lookup_insert_ne by congruence. rewrite bool_decide_eq_false_2 by congruence. by rewrite app_nil_r.
Qed.

Lemma the_appender_ok a p w : appenders w !! a = Some p -> the_appender a w = Ret p w.
Proof. unfold the_appender. by intros ->. Qed.
Lemma the_logger_ok a l w : loggers w !! a = Some l -> the_logger a w = Ret l w.
Proof. unfold the_logger. by intros ->. Qed.
Lemma upd_appender_ok a f p w : appenders w !! a = Some p ->
  upd_appender a f w = Ret tt (set_appenders (<[a := f p]> (appenders w)) w).
Proof. intros E. unfold upd_appender. by rewrite (bind_Ret _ _ _ _ _ (the_appender_ok a p w E)). Qed.
Lemma upd_logger_ok a f l w : loggers w !! a = Some l ->
  upd_logger a f w = Ret tt (set_loggers (<[a := f l]> (loggers w)) w).
Proof. intros E. unfold upd_logger. by rewrite (bind_Ret _ _ _ _ _ (the_logger_ok a l w E)). Qed.

(** The world with the stream of a file opened again. *)
Definition reopened (a : Z) (p : LogAppender) (f : FileStream) (last : Z) (w : World) : World :=
  set_appenders (<[a := set_file (Some (mkFileStream (m_filename f) (openable w (path f)) last)) p]> (appenders w))
    (if openable w (path f) then appended (path f) [] w else w).

Lemma reopen_ok a p f w : appenders w !! a = Some p -> ap_file p = Some f ->
  reopen a w = Ret (openable w (path f)) (reopened a p f (m_lastTime f) w).
Proof.
  intros E Ef. unfold reopen. rewrite (bind_Ret _ _ _ _ _ (the_appender_ok a p w E)), Ef.
  unfold bind at 1. cbn [gets]. unfold reopened.
  destruct (openable w (path f)) eqn:Eo.
  - rewrite (bind_Ret (append (path f) []) _ w tt (appended (path f) [] w) eq_refl).
    rewrite (bind_Ret _ _ _ _ _ (upd_appender_ok a _ p (appended (path f) [] w) E)). done.
  - rewrite bind_ret_l. rewrite (bind_Ret _ _ _ _ _ (upd_appender_ok a _ p w E)). done.
Qed.

Lemma reopened_quiet a p f last w : appenders w !! a = Some p -> ap_file p = Some f -> quiet w (reopened a p f last w).
Proof.
  intros E Ef. unfold reopened. destruct (openable w (path f)); (split; [done..|]); intros b; cbn;
    (destruct (decide (b = a)) as [->|Hb]; [rewrite lookup_insert_eq, E; unfold shape; cbn; by rewrite Ef|by rewrite lookup_insert_ne]).
Qed.

Lemma contents_reopened a p f last w d : contents (reopened a p f last w) d = contents w d.
Proof.
  unfold reopened. destruct (openable w (path f)) eqn:Eo; [|done].
  change (contents (appended (path f) [] w) d = contents w d). rewrite contents_appended. case_bool_decide; by rewrite app_nil_r.
Qed.

Lemma appended_quiet name t w : quiet w (appended name t w).
Proof. by split. Qed.

(** Deliveries depend on streams only by what they accept. *)
Lemma delivery_same w w' level ev : loggers w' = loggers w ->
  (forall b, match appenders w !! b, appenders w' !! b with
             | Some p, Some p' => shape p' = shape p
                 /\ (forall f f', ap_file p = Some f -> ap_file p' = Some f' -> accepts w' f' (ev_time ev) = accepts w f (ev_time ev))
             | None, None => True
             | _, _ => False
             end) ->
  forall b, delivery w' level ev b = delivery w level ev b.
Proof.
  intros El Ha b. specialize (Ha b). unfold delivery. destruct (appenders w !! b) as [p|], (appenders w' !! b) as [p'|]; try done.
  destruct Ha as [Hs Hf]. injection Hs as -> _ -> Hn. destruct (ap_level p <=? level); [|done]. cbn [negb].
  rewrite (formatted_quiet w w' _ _ _ El). destruct (formatted w (ap_formatter p) level ev) as [fl|t]; [done|].
  destruct (ap_file p) as [f|], (ap_file p') as [f'|]; try done.
  rewrite (Hf f f' eq_refl eq_refl). unfold path. injection Hn as ->. done.
Qed.

Lemma delivery_quiet_same w w' level ev a p f : loggers w' = loggers w -> openable w' = openable w ->
  appenders w !! a = Some p -> ap_file p = Some f -> u64 (3 + m_lastTime f) <=? ev_time ev = true ->
  appenders w' = <[a := set_file (Some (mkFileStream (m_filename f) (openable w (path f)) (ev_time ev))) p]> (appenders w) ->
  forall b, delivery w' level ev b = delivery w level ev b.
Proof.
  intros El Eo E Ef Hd Ea. apply delivery_same; [done|]. intros b. rewrite Ea.
  destruct (decide (b = a)) as [->|Hb].
  - rewrite E, lookup_insert_eq. split; [unfold shape; cbn; by rewrite Ef|].
    intros g g' Eg Eg'. cbn in Eg'. injection Eg' as <-. rewrite Ef in Eg. injection Eg as <-.
    unfold accepts, path in *. cbn. rewrite Hd, Eo. by case_match.
  - rewrite lookup_insert_ne by done. destruct (appenders w !! b) as [q|]; [|done]. split; [done|].
    intros g g' Eg Eg'. rewrite Eg in Eg'. injection Eg' as <-. unfold accepts. by rewrite Eo.
Qed.

Lemma delivery_same_appenders w w' level ev : loggers w' = loggers w -> openable w' = openable w -> appenders w' = appenders w ->
  forall b, delivery w' level ev b = delivery w level ev b.
Proof.
  intros El Eo Ea. apply delivery_same; [done|]. intros b. rewrite Ea. destruct (appenders w !! b) as [q|]; [|done].
  split; [done|]. intros g g' Eg Eg'. rewrite Eg in Eg'. injection Eg' as <-. unfold accepts. by rewrite Eo.
Qed.

(** Appending a text keeps all of that. *)
Definition delivered (level : Z) (ev : LogEvent) (outs : list (option text * text)) (w w' : World) : Prop :=
  quiet w w' /\ (forall b, delivery w' level ev b = delivery w level ev b)
  /\ forall d, contents w' d = contents w d ++ concat (to_place d outs).

Lemma delivered_nil level ev w : delivered level ev [] w w.
Proof. split; [done|]. split; [done|]. intros d. by rewrite app_nil_r. Qed.

Lemma delivered_trans level ev outs outs' w1 w2 w3 :
  delivered level ev outs w1 w2 -> delivered level ev outs' w2 w3 -> delivered level ev (outs ++ outs') w1 w3.
Proof.
  intros (Q1 & D1 & C1) (Q2 & D2 & C2). split; [by etrans|]. split; [intros b; by rewrite D2|].
  intros d. unfold to_place. rewrite filter_app, map_app, concat_app, C2, C1. by rewrite <- app_assoc.
Qed.

Lemma delivered_append level ev name t w : delivered level ev [(Some name, t)] w (appended name t w).
Proof.
  split; [apply appended_quiet|]. split; [by apply delivery_same_appenders|].
  intros d. rewrite contents_appended. unfold to_place. cbn. rewrite (bool_decide_ext _ (Some name = d)) by (split; congruence).
  case_bool_decide; cbn; by rewrite ?app_nil_r.
Qed.

Lemma delivered_put level ev t w : delivered level ev [(None, t)] w (set_out (cout w ++ t) (files w) w).
Proof.
  split; [by split|]. split; [by apply delivery_same_appenders|].
  intros d. unfold to_place. cbn. case_bool_decide as Hd; cbn; rewrite app_nil_r; [by rewrite <- Hd|by destruct d].
Qed.

Lemma delivered_reopened level ev a p f w : appenders w !! a = Some p -> ap_file p = Some f ->
  u64 (3 + m_lastTime f) <=? ev_time ev = true -> delivered level ev [] w (reopened a p f (ev_time ev) w).
Proof.
  intros E Ef Hd. split; [by apply reopened_quiet|]. split.
  - apply (delivery_quiet_same _ _ _ _ a p f); try done; unfold reopened;
      destruct (openable w (path f)) eqn:Eo; cbn; by rewrite ?Eo.
  - intros d. rewrite contents_reopened. by rewrite app_nil_r.
Qed.

Definition outcome {X} (r : fault + list X) (m : res World unit) (post : list X -> World -> Prop) : Prop :=
  match r with
  | inl f => m = UB f
  | inr outs => exists w', m = Ret tt w' /\ post outs w'
  end.
Definition one (r : fault + option (option text * text)) : fault + list (option text * text) :=
  match r with inl f => inl f | inr o => inr (option_list o) end.

(** The part of [FileLogAppender::log] behind the opening. *)
Lemma file_write_ok a p f level ev w : appenders w !! a = Some p -> ap_file p = Some f ->
  outcome (match formatted w (ap_formatter p) level ev with
           | inl fl => inl fl
           | inr t => inr (if m_filestream f then [(Some (path f), t)] else [])
           end)
    ((let! p := the_appender a in
      let! t := run_format strftime (ap_formatter p) level ev in
      match ap_file p with
      | Some f => if m_filestream f then append (path f) t else ret tt
      | None => ret tt
      end) w) (fun outs => delivered level ev outs w).
Proof.
  intros E Ef. rewrite (bind_Ret _ _ _ _ _ (the_appender_ok a p w E)). unfold bind at 1. rewrite run_format_spec.
  destruct (formatted w (ap_formatter p) level ev) as [fl|t]; cbn [outcome]; [done|].
  rewrite Ef. destruct (m_filestream f); eexists; (split; [reflexivity|]); [apply delivered_append|apply delivered_nil].
Qed.

Lemma file_log_ok a p f level ev w : appenders w !! a = Some p -> ap_file p = Some f ->
  outcome (one (delivery w level ev a)) (file_log strftime a level ev w) (fun outs => delivered level ev outs w).
Proof.
  intros E Ef. unfold delivery. rewrite E. unfold file_log. rewrite (bind_Ret _ _ _ _ _ (the_appender_ok a p w E)), Ef.
  destruct (ap_level p <=? level); cbn [negb]; [|exists w; split; [done|apply delivered_nil]].
  unfold accepts. destruct (u64 (3 + m_lastTime f) <=? ev_time ev) eqn:Hd.
  - rewrite bind_assoc, (bind_Ret _ _ _ _ _ (reopen_ok a p f w E Ef)).
    set (p1 := set_file (Some (mkFileStream (m_filename f) (openable w (path f)) (m_lastTime f))) p).
    set (w1 := reopened a p f (m_lastTime f) w).
    assert (appenders w1 !! a = Some p1) as E1 by (unfold w1, reopened; cbn; apply lookup_insert_eq).
    rewrite (bind_Ret _ _ _ _ _ (upd_appender_ok a _ p1 w1 E1)).
    match goal with |- context [bind _ _ ?x] => assert (x = reopened a p f (ev_time ev) w) as -> end.
    { unfold w1, reopened. cbn. unfold set_appenders. cbn. rewrite insert_insert_eq. by destruct (openable w (path f)). }
    pose proof (delivered_reopened level ev a p f w E Ef Hd) as D. set (w2 := reopened a p f (ev_time ev) w) in *.
    pose proof (file_write_ok a (set_file (Some (mkFileStream (m_filename f) (openable w (path f)) (ev_time ev))) p)
      (mkFileStream (m_filename f) (openable w (path f)) (ev_time ev)) level ev w2) as H.
    specialize (H ltac:(unfold w2, reopened; cbn; apply lookup_insert_eq) eq_refl).
    cbn [ap_formatter set_file m_filestream] in H. rewrite (formatted_quiet w w2) in H by apply D.
    destruct (formatted w (ap_formatter p) level ev) as [fl|t]; [exact H|].
    destruct H as (w' & H1 & H2). pose proof (delivered_trans _ _ _ _ _ _ _ D H2) as H3.
    change (path (mkFileStream _ _ _)) with (path f) in H3.
    destruct (openable w (path f)); exists w'; by split.
  - rewrite bind_ret_l. pose proof (file_write_ok a p f level ev w E Ef) as H.
    destruct (formatted w (ap_formatter p) level ev) as [fl|t]; [exact H|].
    destruct H as (w' & H1 & H2). destruct (m_filestream f); exists w'; by split.
Qed.

Lemma appender_log_ok a level ev w :
  outcome (one (delivery w level ev a)) (appender_log strftime a level ev w) (fun outs => delivered level ev outs w).
Proof.
  destruct (appenders w !! a) as [p|] eqn:E; [|unfold delivery, appender_log, the_appender, bind; by rewrite E].
  unfold appender_log. rewrite (bind_Ret _ _ _ _ _ (the_appender_ok a p w E)).
  destruct (ap_file p) as [f|] eqn:Ef; [by apply (file_log_ok a p f)|].
  unfold delivery, stdout_log. rewrite (bind_Ret _ _ _ _ _ (the_appender_ok a p w E)), E.
  destruct (ap_level p <=? level); cbn [negb]; [|exists w; split; [done|apply delivered_nil]].
  unfold bind at 1. rewrite run_format_spec. destruct (formatted w (ap_formatter p) level ev) as [fl|t]; [done|].
  rewrite Ef. eexists. split; [reflexivity|apply delivered_put].
Qed.

Lemma each_log_ok level ev l : forall w,
  outcome (collect (map (delivery w level ev) l)) (each (fun i => appender_log strftime i level ev) l w)
    (fun outs => delivered level ev outs w).
Proof.
  induction l as [|a l IH]; intros w; cbn [map collect each]; [exists w; split; [done|apply delivered_nil]|].
  pose proof (appender_log_ok a level ev w) as Ha. destruct (delivery w level ev a) as [fl|o].
  - cbn in Ha. by apply bind_UB.
  - destruct Ha as (w1 & E1 & D1). rewrite (bind_Ret _ _ _ _ _ E1). specialize (IH w1).
    rewrite (map_ext _ (delivery w level ev)) in IH by apply D1.
    destruct (collect (map (delivery w level ev) l)) as [fl|outs]; [exact IH|].
    destruct IH as (w2 & E2 & D2). exists w2. split; [exact E2|]. by eapply delivered_trans.
Qed.

(** C23: Where an event goes. It reaches a logger's appenders when its level is at least the logger's, or, at a
    logger without appenders, the appenders of the root when the level is at least the root's too. Each of them that takes the
    level writes the event as its formatter prints it: to [std::cout], or to its file if the stream is good, where it was
    opened again when three seconds have gone by. Every place has then, behind what it had, the texts of its appenders in their
    order, and nothing else has changed but streams; or the result is the fault of the first text that cannot be printed. *)
Theorem log_routes w this level ev : wf w -> is_Some (loggers w !! this) ->
  match collect (map (delivery w level ev) (sinks w this level)) with
  | inl f => log strftime this level ev w = UB f
  | inr outs => exists w', log strftime this level ev w = Ret tt w' /\ quiet w w'
      /\ forall d, contents w' d = contents w d ++ concat (to_place d outs)
  end.
Proof.
  intros Hw Hl. rewrite (log_sinks w this level ev Hw Hl). pose proof (each_log_ok level ev (sinks w this level) w) as H.
  destruct (collect _) as [fl|outs]; [exact H|]. destruct H as (w' & E & Q & _ & C). eauto.
Qed.
End Routes.

(** ** The first world *)

(** Before the manager: no objects. *)
Definition start (opens : text -> bool) : World := mkWorld ∅ ∅ 1 [] 0 [] ∅ opens.
Definition root_appender : LogAppender := mkLogAppender DEBUG false (Some (new_LogFormatter default_pattern)) None.
Definition root_logger : Logger := mkLogger (str "root") DEBUG [2] (Some (new_LogFormatter default_pattern)) None.
Definition first_world (opens : text -> bool) : World :=
  mkWorld {[ 1 := root_logger ]} {[ 2 := root_appender ]} 3 [(str "root", 1)] 1 [] ∅ opens.

Lemma new_LoggerManager_ok opens : new_LoggerManager (start opens) = Ret tt (first_world opens).
Proof. reflexivity. Qed.

Lemma first_wf opens : wf (first_world opens).
Proof.
  split; cbn.
  - intros a l p [<- <-]%lookup_singleton_Some. cbn. intros ->%list_elem_of_singleton. by exists root_appender.
  - by intros a l [<- <-]%lookup_singleton_Some.
  - by exists root_logger.
  - by intros a l r [<- <-]%lookup_singleton_Some.
  - repeat constructor.
  - intros name a. rewrite list_elem_of_singleton. split.
    + intros [= -> ->]. by exists root_logger.
    + by intros (l & [<- <-]%lookup_singleton_Some & <-).
  - intros a [[l [<- _]%lookup_singleton_Some]|[l [<- _]%lookup_singleton_Some]]; lia.
Qed.

(** ** A run *)

Lemma log_routes_witness :
  let w := first_world (fun _ => true) in
  let ev := ev_write (str "hi") (new_LogEvent 1 ERROR (str "a.cpp") 7 0 2 3 4 (str "main")) in
  wf w /\ is_Some (loggers w !! 1)
  /\ exists w', log (fun _ _ => str "now") 1 ERROR ev w = Ret tt w' /\ quiet w w'
     /\ cout w' = str "now" ++ [9; 50; 9] ++ str "main" ++ [9; 51; 9] ++ str "[ERROR]" ++ [9] ++ str "[root]" ++ [9]
                  ++ str "a.cpp:7" ++ [9] ++ str "hi" ++ [10].
Proof.
  intros w ev. assert (wf w) as Hw by apply first_wf. assert (is_Some (loggers w !! 1)) as Hl by (by eexists).
  split; [exact Hw|]. split; [exact Hl|].
  pose proof (log_routes (fun _ _ => str "now") w 1 ERROR ev Hw Hl) as H.
  match type of H with match ?c with _ => _ end => let v := eval vm_compute in c in
    assert (c = v) as E by (vm_compute; reflexivity) end.
  rewrite E in H. destruct H as (w' & E' & Q & C). exists w'. split; [exact E'|]. split; [exact Q|].
  specialize (C None). cbn [contents] in C. rewrite C. vm_compute. reflexivity.
Defined.
