(* ===== verification/LoggerSafe.v ===== *)
(** * LoggerSafe: the manager and its loggers stay well formed

    [manager_safe]: from its constructor, every sequence of operations on the loggers and appenders of the manager returns and keeps
    it well formed. *)

From S2P Require Import Prelude Std Config Log Logger LoggerSpec.

#[local] Arguments default_pattern : simpl never.
#[local] Arguments new_LogFormatter : simpl never.

(** ** Names *)

#[export] Instance text_less_order : StrictWeakOrder text_less := swo_of_bytes id.

Lemma same_text a b : same_key text_less a b = bool_decide (a = b).
Proof.
  unfold same_key, text_less. destruct (cmp_bytes a b) eqn:E.
  - apply cmp_bytes_eq in E as ->. rewrite cmp_bytes_refl. by rewrite bool_decide_eq_true_2.
  - rewrite bool_decide_eq_false_2; [done|]. intros ->. by rewrite cmp_bytes_refl in E.
  - rewrite cmp_bytes_antisym, E. rewrite bool_decide_eq_false_2; [done|]. intros ->. by rewrite cmp_bytes_refl in E.
Qed.

Lemma find_name {V} name (m : list (text * V)) kv : map_find text_less name m = Some kv -> kv ∈ m /\ kv.1 = name.
Proof.
  induction m as [|[k v] m IH]; [done|]. cbn. rewrite same_text. case_bool_decide as E.
  - intros [= <-]. split; [apply list_elem_of_here|done].
  - intros [H ?]%IH. split; [by apply list_elem_of_further|done].
Qed.

Lemma find_no_name {V} name (m : list (text * V)) : map_find text_less name m = None -> forall v, (name, v) ∉ m.
Proof.
  induction m as [|[k v] m IH]; [by intros _ v ?%elem_of_nil|]. cbn. rewrite same_text. case_bool_decide as E; [done|].
  intros H v' [[= -> ->]|?]%elem_of_cons; [done|by apply (IH H v')].
Qed.

Lemma assign_new {V} name (v : V) m : (forall v, (name, v) ∉ m) -> forall kv, kv ∈ map_assign text_less name v m <-> kv = (name, v) \/ kv ∈ m.
Proof.
  induction m as [|[k x] m IH]; intros Hn kv; cbn; [rewrite list_elem_of_singleton; split; [auto|]; intros [|?%elem_of_nil]; done|].
  assert (same_key text_less name k = false) as E
    by (rewrite same_text; apply bool_decide_eq_false_2; intros ->; apply (Hn x), list_elem_of_here).
  unfold same_key in E. destruct (text_less name k); [by rewrite elem_of_cons|].
  destruct (text_less k name); [|done]. rewrite !elem_of_cons, IH; [tauto|]. intros v' Hv. apply (Hn v'). by apply list_elem_of_further.
Qed.

Lemma sorted_name_unique {V} (m : list (text * V)) name a b : map_sorted text_less m -> (name, a) ∈ m -> (name, b) ∈ m -> a = b.
Proof.
  induction 1 as [|[k v] m Hs IH HF]; [by intros ?%elem_of_nil|].
  assert (forall x, (k, x) ∉ m) as Hk.
  { intros x Hx. rewrite list.Forall_forall in HF. specialize (HF _ Hx). unfold key_lt in HF. cbn in HF. by rewrite swo_irrefl in HF. }
  intros [[= -> ->]|Ha]%elem_of_cons [Hb|Hb]%elem_of_cons.
  - by injection Hb.
  - by destruct (Hk b).
  - injection Hb as -> ->. by destruct (Hk a).
  - by apply IH.
Qed.

(** ** Steps that keep the manager well formed *)

Lemma wf_upd_appender w a p p' : wf w -> appenders w !! a = Some p -> (ap_formatter p <> None -> ap_formatter p' <> None) ->
  wf (set_appenders (<[a := p']> (appenders w)) w).
Proof.
  intros [wf_appenders0 wf_formatter0 wf_root0 wf_roots0 wf_sorted0 wf_named0 wf_next0] E Hf. split; cbn; try done.
  - intros b l q Hl Hq. destruct (wf_appenders0 b l q Hl Hq) as (ap & Ea & Hn).
    destruct (decide (q = a)) as [->|Hqa]; [|exists ap; by rewrite lookup_insert_ne].
    rewrite lookup_insert_eq. exists p'. split; [done|]. apply Hf. congruence.
  - intros b [Hb|Hb]; apply wf_next0; [by left|right]. destruct (decide (b = a)) as [->|Hba]; [by rewrite E|].
    by rewrite lookup_insert_ne in Hb.
Qed.

Lemma wf_upd_logger w a l l' : wf w -> loggers w !! a = Some l -> lg_name l' = lg_name l -> lg_root l' = lg_root l ->
  lg_formatter l' <> None ->
  (forall p, p ∈ lg_appenders l' -> exists ap, appenders w !! p = Some ap /\ ap_formatter ap <> None) ->
  wf (set_loggers (<[a := l']> (loggers w)) w).
Proof.
  intros [wf_appenders0 wf_formatter0 wf_root0 wf_roots0 wf_sorted0 wf_named0 wf_next0] E En Er Hf Hp.
  assert (forall b k, <[a := l']> (loggers w) !! b = Some k -> exists k0, loggers w !! b = Some k0 /\ lg_name k = lg_name k0
    /\ lg_root k = lg_root k0 /\ lg_formatter k <> None
    /\ forall p, p ∈ lg_appenders k -> exists ap, appenders w !! p = Some ap /\ ap_formatter ap <> None) as Hback.
  { intros b k Hb. destruct (decide (b = a)) as [->|Hba].
    - rewrite lookup_insert_eq in Hb. injection Hb as <-. by exists l.
    - rewrite lookup_insert_ne in Hb by done. exists k. split_and!; try done; [by eapply wf_formatter0|]. intros p. by apply wf_appenders0 with b. }
  split; cbn; try done.
  - intros b k p Hk. destruct (Hback b k Hk) as (_ & _ & _ & _ & _ & H). apply H.
  - intros b k Hk. destruct (Hback b k Hk) as (_ & _ & _ & _ & H & _). done.
  - destruct wf_root0 as (r & Hr & Hn). destruct (decide (m_root w = a)) as [Hra|Hra]; [subst a|].
    + exists l'. rewrite lookup_insert_eq. split; [done|]. congruence.
    + exists r. by rewrite lookup_insert_ne.
  - intros b k r Hk Hkr. destruct (Hback b k Hk) as (k0 & E0 & _ & R0 & _). apply (wf_roots0 b k0); [done|by rewrite <- R0].
  - intros name b. rewrite wf_named0. destruct (decide (b = a)) as [->|Hba]; [|by rewrite lookup_insert_ne].
    rewrite lookup_insert_eq, E. split; intros (k & [= <-] & <-); eexists; done.
  - intros b [Hb|Hb]; apply wf_next0; [left|by right]. destruct (decide (b = a)) as [->|Hba]; [by rewrite E|].
    by rewrite lookup_insert_ne in Hb.
Qed.

Definition with_appender (p : LogAppender) (w : World) : World :=
  set_appenders (<[next w := p]> (appenders w)) (set_next (next w + 1) w).

Lemma wf_with_appender w p : wf w -> wf (with_appender p w).
Proof.
  intros [wf_appenders0 wf_formatter0 wf_root0 wf_roots0 wf_sorted0 wf_named0 wf_next0]. assert (appenders w !! next w = None) as E.
  { destruct (appenders w !! next w) eqn:E; [|done]. exfalso. specialize (wf_next0 (next w)). rewrite E in wf_next0.
    specialize (wf_next0 (or_intror (ex_intro _ _ eq_refl))). lia. }
  split; cbn; try done.
  - intros a l q Hl Hq. destruct (wf_appenders0 a l q Hl Hq) as (ap & Ea & Hn). exists ap. split; [|done].
    rewrite lookup_insert_ne; congruence.
  - intros a [Ha|Ha]; [specialize (wf_next0 a (or_introl Ha)); lia|].
    destruct (decide (a = next w)) as [->|Hn]; [lia|]. rewrite lookup_insert_ne in Ha by done.
    specialize (wf_next0 a (or_intror Ha)). lia.
Qed.

(** The logger a new name gets. *)
Definition added (name : text) (w : World) : World :=
  set_manager (map_assign text_less name (next w) (m_loggers w)) (m_root w)
    (set_loggers (<[next w := mkLogger name DEBUG [] (Some (new_LogFormatter default_pattern)) (Some (m_root w))]> (loggers w))
       (set_next (next w + 1) w)).

Lemma next_free w : wf w -> loggers w !! next w = None.
Proof.
  intros [wf_appenders0 wf_formatter0 wf_root0 wf_roots0 wf_sorted0 wf_named0 wf_next0]. destruct (loggers w !! next w) eqn:E; [|done]. exfalso. specialize (wf_next0 (next w)). rewrite E in wf_next0.
  specialize (wf_next0 (or_introl (ex_intro _ _ eq_refl))). lia.
Qed.

Lemma wf_added name w : wf w -> (forall a, (name, a) ∉ m_loggers w) -> wf (added name w).
Proof.
  intros Hw Hn. pose proof (next_free w Hw) as Hfree. destruct Hw as [wf_appenders0 wf_formatter0 wf_root0 wf_roots0 wf_sorted0 wf_named0 wf_next0]. split; cbn.
  - intros a l p. destruct (decide (a = next w)) as [->|Ha].
    + rewrite lookup_insert_eq. intros [= <-]. cbn. by intros ?%elem_of_nil.
    + rewrite lookup_insert_ne by done. apply wf_appenders0.
  - intros a l. destruct (decide (a = next w)) as [->|Ha].
    + rewrite lookup_insert_eq. by intros [= <-].
    + rewrite lookup_insert_ne by done. apply wf_formatter0.
  - destruct wf_root0 as (l & Hl & Hr). exists l. rewrite lookup_insert_ne; [done|congruence].
  - intros a l r. destruct (decide (a = next w)) as [->|Ha].
    + rewrite lookup_insert_eq. intros [= <-]. cbn. congruence.
    + rewrite lookup_insert_ne by done. apply wf_roots0.
  - by apply map_assign_sorted; [apply _|].
  - intros name' a. rewrite (assign_new name (next w) _ Hn). destruct (decide (a = next w)) as [->|Ha].
    + rewrite lookup_insert_eq. split.
      * intros [[= ->]|H]; [by eexists|]. apply wf_named0 in H as (l & Hl & _). congruence.
      * intros (l & [= <-] & <-). by left.
    + rewrite lookup_insert_ne by done. rewrite wf_named0. split; [intros [[= -> ->]|H]; done|by right].
  - intros a. destruct (decide (a = next w)) as [->|Ha]; [lia|]. rewrite lookup_insert_ne by done. intros H%wf_next0. lia.
Qed.

(** ** Operations *)

(** What is known stays: names, loggers, appenders, the root. *)
Record ext (w w' : World) : Prop := mkExt {
  x_names : forall name a, (name, a) ∈ m_loggers w -> (name, a) ∈ m_loggers w';
  x_loggers : forall a, is_Some (loggers w !! a) -> is_Some (loggers w' !! a);
  x_appenders : forall a, is_Some (appenders w !! a) -> is_Some (appenders w' !! a);
  x_root : m_root w' = m_root w
}.

#[export] Instance ext_preorder : PreOrder ext.
Proof. split; [by intros w; split|]. intros w1 w2 w3 [A1 B1 C1 D1] [A2 B2 C2 D2]. split; eauto; congruence. Qed.

Lemma log_quiet_ext w w' : quiet w w' -> ext w w'.
Proof.
  intros Q. split; rewrite ?(q_names _ _ Q), ?(q_loggers _ _ Q); try done; [|apply Q].
  intros a. by rewrite (shape_is_Some w w' a Q).
Qed.

(** A run that returns a well formed world, or prints a date that is too long. *)
Definition good {A} (w : World) (r : res World A) : Prop :=
  match r with
  | Ret _ w' => wf w' /\ ext w w'
  | Exn _ _ => False
  | UB f => f = Indeterminate
  end.

Lemma good_bind {A B} w (m : MW A) (k : A -> MW B) : good w (m w) ->
  (forall a w', m w = Ret a w' -> wf w' -> ext w w' -> good w' (k a w')) -> good w (bind m k w).
Proof.
  intros Hm Hk. unfold bind. destruct (m w) as [a w'|e w'|f] eqn:E; [|done..]. destruct Hm as [Hw Hx].
  specialize (Hk a w' eq_refl Hw Hx). destruct (k a w') as [b w2|e2 w2|f2]; [|done..]. destruct Hk as [Hw2 Hx2].
  split; [done|by etrans].
Qed.

Lemma good_ret {A} (a : A) w : wf w -> good w (ret a w).
Proof. by split. Qed.

Lemma getLogger_known name a w : wf w -> (name, a) ∈ m_loggers w -> getLogger name w = Ret a w.
Proof.
  intros Hw Ha. unfold getLogger. unfold bind at 1. cbn [gets].
  destruct (map_find text_less name (m_loggers w)) as [[k v]|] eqn:E.
  - apply find_name in E as [E Ek]. cbn in Ek. subst k.
    by rewrite (sorted_name_unique _ name v a (wf_sorted w Hw) E Ha).
  - by destruct (find_no_name name _ E a).
Qed.

Lemma getLogger_new name w : wf w -> (forall a, (name, a) ∉ m_loggers w) -> getLogger name w = Ret (next w) (added name w).
Proof.
  intros Hw Hn. unfold getLogger. unfold bind at 1. cbn [gets].
  destruct (map_find text_less name (m_loggers w)) as [[k v]|] eqn:E.
  { apply find_name in E as [E Ek]. cbn in Ek. subst k. by destruct (Hn v). }
  unfold new_Logger. unfold bind at 1 2 3. cbn [fresh modify ret]. unfold bind at 1. cbn [gets].
  set (w1 := set_loggers _ _). rewrite (bind_Ret _ _ _ _ _ (upd_logger_ok (next w) (set_root (Some (m_root w1)))
    (mkLogger name DEBUG [] (Some (new_LogFormatter default_pattern)) None) w1 ltac:(apply lookup_insert_eq))).
  unfold added, w1. cbn. unfold set_loggers, set_manager. cbn. by rewrite insert_insert_eq.
Qed.

(** Either way, a name has then its logger. *)
Lemma getLogger_cases name w : wf w -> exists a w', getLogger name w = Ret a w' /\ (name, a) ∈ m_loggers w'
  /\ wf w' /\ ext w w' /\ ((name, a) ∈ m_loggers w /\ w' = w \/ (forall a, (name, a) ∉ m_loggers w) /\ a = next w /\ w' = added name w).
Proof.
  intros Hw. destruct (map_find text_less name (m_loggers w)) as [[k a]|] eqn:E.
  - apply find_name in E as [E Ek]. cbn in Ek. subst k. exists a, w. split; [by apply getLogger_known|].
    split; [done|]. split; [done|]. split; [done|]. by left.
  - pose proof (find_no_name name _ E) as Hn. exists (next w), (added name w). split; [by apply getLogger_new|].
    assert ((name, next w) ∈ m_loggers (added name w)) as Hin by (cbn; rewrite (assign_new name _ _ Hn); by left).
    split; [done|]. split; [by apply wf_added|]. split; [|by right].
    split; cbn; try done.
    + intros n b Hb. rewrite (assign_new name _ _ Hn). by right.
    + intros b Hb. destruct (decide (b = next w)) as [->|]; [by rewrite lookup_insert_eq|by rewrite lookup_insert_ne].
Qed.

Lemma ext_set_loggers w a l l' : loggers w !! a = Some l -> ext w (set_loggers (<[a := l']> (loggers w)) w).
Proof.
  intros E. split; cbn; try done. intros b Hb.
  destruct (decide (b = a)) as [->|]; [by rewrite lookup_insert_eq|by rewrite lookup_insert_ne].
Qed.
Lemma ext_set_appenders w a p : ext w (set_appenders (<[a := p]> (appenders w)) w).
Proof.
  split; cbn; try done. intros b Hb.
  destruct (decide (b = a)) as [->|]; [by rewrite lookup_insert_eq|by rewrite lookup_insert_ne].
Qed.

Lemma good_upd_logger w a f : wf w -> is_Some (loggers w !! a) ->
  (forall l, loggers w !! a = Some l -> lg_name (f l) = lg_name l /\ lg_root (f l) = lg_root l /\ lg_formatter (f l) <> None
     /\ forall p, p ∈ lg_appenders (f l) -> exists ap, appenders w !! p = Some ap /\ ap_formatter ap <> None) ->
  good w (upd_logger a f w).
Proof.
  intros Hw [l E] Hf. rewrite (upd_logger_ok a f l w E). destruct (Hf l E) as (H1 & H2 & H3 & H4).
  split; [by apply (wf_upd_logger w a l)|by apply (ext_set_loggers w a l)].
Qed.

Lemma good_upd_appender w a f : wf w -> is_Some (appenders w !! a) ->
  (forall p, appenders w !! a = Some p -> ap_formatter p <> None -> ap_formatter (f p) <> None) ->
  good w (upd_appender a f w).
Proof.
  intros Hw [p E] Hf. rewrite (upd_appender_ok a f p w E).
  split; [apply (wf_upd_appender w a p); auto|apply ext_set_appenders].
Qed.

Lemma good_put t w : wf w -> good w (put t w).
Proof. intros Hw. assert (quiet w (set_out (cout w ++ t) (files w) w)) as Q by done. split; [by apply (quiet_wf w)|by apply log_quiet_ext]. Qed.

Lemma good_the_logger w a : wf w -> is_Some (loggers w !! a) -> good w (the_logger a w).
Proof. intros Hw [l E]. rewrite (the_logger_ok a l w E). by apply good_ret. Qed.
Lemma good_the_appender w a : wf w -> is_Some (appenders w !! a) -> good w (the_appender a w).
Proof. intros Hw [p E]. rewrite (the_appender_ok a p w E). by apply good_ret. Qed.

(** What is read is there. *)
Lemma the_logger_inv a w l w' : the_logger a w = Ret l w' -> w' = w /\ loggers w !! a = Some l.
Proof. unfold the_logger. by destruct (loggers w !! a); intros [= -> ->]. Qed.
Lemma the_appender_inv a w p w' : the_appender a w = Ret p w' -> w' = w /\ appenders w !! a = Some p.
Proof. unfold the_appender. by destruct (appenders w !! a); intros [= -> ->]. Qed.

Lemma good_each (op : Z -> MW unit) l : forall w, wf w -> (forall a, a ∈ l -> is_Some (appenders w !! a)) ->
  (forall a w, wf w -> is_Some (appenders w !! a) -> good w (op a w)) -> good w (each op l w).
Proof.
  induction l as [|a l IH]; intros w Hw Hl Hop; [by apply good_ret|]. cbn [each]. apply good_bind.
  - apply Hop; [done|]. apply Hl, list_elem_of_here.
  - intros [] w1 _ Hw1 Hx1. apply IH; [done| |done]. intros b Hb. apply (x_appenders _ _ Hx1), Hl. by apply list_elem_of_further.
Qed.

Lemma logger_appenders w a l p : wf w -> loggers w !! a = Some l -> p ∈ lg_appenders l -> is_Some (appenders w !! p).
Proof. intros Hw Hl Hp. destruct (wf_appenders w Hw a l p Hl Hp) as (ap & E & _). by exists ap. Qed.

Lemma good_setFormatter w a fmt : wf w -> is_Some (loggers w !! a) -> good w (setFormatter a (Some fmt) w).
Proof.
  intros Hw Ha. unfold setFormatter. destruct (isError fmt); cbn [negb]; [by apply good_ret|]. apply good_bind.
  - apply good_upd_logger; [done..|]. intros l Hl. cbn. split_and!; [done..|]. intros p Hp. by apply (wf_appenders w Hw a l).
  - intros [] w1 _ Hw1 Hx1. apply good_bind; [apply good_the_logger; [done|by apply Hx1]|].
    intros l w2 E2 Hw2 Hx2. apply the_logger_inv in E2 as [-> El]. apply good_each; [done| |].
    + intros p Hp. by eapply logger_appenders.
    + intros p w3 Hw3 Hp. apply good_bind; [by apply good_the_appender|]. intros ap w4 _ Hw4 Hx4.
      destruct (ap_hasFormatter ap); [by apply good_ret|]. apply good_upd_appender; [done|by apply Hx4|done].
Qed.

Lemma good_setFormatter_pattern w a v : wf w -> is_Some (loggers w !! a) -> good w (setFormatter_pattern a v w).
Proof.
  intros Hw Ha. unfold setFormatter_pattern. destruct (isError _); [|by apply good_setFormatter].
  apply good_bind; [by apply good_the_logger|]. intros l w1 _ Hw1 _. by apply good_put.
Qed.

Lemma good_addAppender w a p : wf w -> is_Some (loggers w !! a) -> is_Some (appenders w !! p) -> good w (addAppender a p w).
Proof.
  intros Hw Ha Hp. unfold addAppender. apply good_bind; [by apply good_the_logger|]. intros l w1 E1 _ _.
  apply the_logger_inv in E1 as [-> El]. apply good_bind.
  { unfold appender_getFormatter. apply good_bind; [by apply good_the_appender|]. intros; by apply good_ret. }
  intros f w1 E1 _ _. unfold appender_getFormatter in E1. apply bind_inv_Ret in E1 as (q & w2 & E1 & E2).
  apply the_appender_inv in E1 as [-> Eq]. injection E2 as <- <-.
  assert (forall w1 q1, wf w1 -> is_Some (loggers w1 !! a) -> appenders w1 !! p = Some q1 -> ap_formatter q1 <> None ->
    good w1 (upd_logger a (fun l => set_appenders_of (lg_appenders l ++ [p]) l) w1)) as Hlast.
  { intros w1 q1 Hw1 Ha1 Hp1 Hf1. apply good_upd_logger; [done..|]. intros l1 Hl1. cbn. split_and!; try done; [by apply (wf_formatter w1 Hw1 a)|].
    intros x [Hx|Hx%list_elem_of_singleton]%elem_of_app; [by apply (wf_appenders w1 Hw1 a l1)|subst x; by exists q1]. }
  destruct (ap_formatter q) as [fq|] eqn:Efq.
  - rewrite bind_ret_l. by apply (Hlast w q); rewrite ?Efq.
  - rewrite (bind_Ret _ _ _ _ _ (upd_appender_ok p _ q w Eq)).
    pose proof (wf_formatter w Hw a l El) as Hlf.
    assert (wf (set_appenders (<[p := set_formatter (lg_formatter l) q]> (appenders w)) w)) as Hw1 by (by apply (wf_upd_appender w p q)).
    pose proof (Hlast _ (set_formatter (lg_formatter l) q) Hw1 Ha ltac:(apply lookup_insert_eq) Hlf) as H.
    destruct (upd_logger _ _ _) as [u w2|e w2|fl]; cbn in *; [|done..]. destruct H as [H1 H2].
    split; [done|]. etrans; [|exact H2]. apply ext_set_appenders.
Qed.

Lemma erase_first_sub x l p : p ∈ erase_first x l -> p ∈ l.
Proof.
  induction l as [|y l IH]; [done|]. cbn. destruct (y =? x); rewrite !elem_of_cons; [auto|]. intros [|]; auto.
Qed.

Lemma good_delAppender w a p : wf w -> is_Some (loggers w !! a) -> good w (delAppender a p w).
Proof.
  intros Hw Ha. apply good_upd_logger; [done..|]. intros l El. cbn. split_and!; try done; [by apply (wf_formatter w Hw a)|].
  intros x Hx%erase_first_sub. by apply (wf_appenders w Hw a l).
Qed.

Lemma good_clearAppenders w a : wf w -> is_Some (loggers w !! a) -> good w (clearAppenders a w).
Proof.
  intros Hw Ha. apply good_upd_logger; [done..|]. intros l El. cbn. split_and!; try done; [by apply (wf_formatter w Hw a)|].
  by intros x Hx%elem_of_nil.
Qed.

Lemma good_logger_setLevel w a v : wf w -> is_Some (loggers w !! a) -> good w (logger_setLevel a v w).
Proof.
  intros Hw Ha. apply good_upd_logger; [done..|]. intros l El. cbn. split_and!; try done; [by apply (wf_formatter w Hw a)|].
  intros x. by apply (wf_appenders w Hw a l).
Qed.

(** A new appender is at the next address. *)
Lemma ext_with_appender p w : ext w (with_appender p w).
Proof.
  split; cbn; try done. intros b Hb.
  destruct (decide (b = next w)) as [->|]; [by rewrite lookup_insert_eq|by rewrite lookup_insert_ne].
Qed.

Definition the_new (file : option text) : LogAppender := mkLogAppender DEBUG false None ((fun f => mkFileStream f true 0) <$> file).

Lemma new_StdoutLogAppender_ok w : new_StdoutLogAppender w = Ret (next w) (with_appender (the_new None) w).
Proof. done. Qed.

Lemma new_FileLogAppender_ok file w : exists w', new_FileLogAppender file w = Ret (next w) w'
  /\ quiet (with_appender (the_new (Some file)) w) w'.
Proof.
  unfold new_FileLogAppender. rewrite (bind_Ret _ _ w (next w) (with_appender (the_new (Some file)) w) eq_refl).
  rewrite (bind_Ret _ _ _ _ _ (reopen_ok (next w) (the_new (Some file)) (mkFileStream file true 0) (with_appender (the_new (Some file)) w)
    ltac:(apply lookup_insert_eq) eq_refl)).
  eexists. split; [reflexivity|]. apply reopened_quiet; [apply lookup_insert_eq|done].
Qed.

Lemma new_appender_good (m : MW Z) f w : wf w ->
  (exists w', m w = Ret (next w) w' /\ quiet (with_appender (the_new f) w) w') -> good w (m w).
Proof.
  intros Hw (w' & E & Q). rewrite E. split; [apply (quiet_wf _ _ Q); by apply wf_with_appender|].
  etrans; [apply ext_with_appender|by apply log_quiet_ext].
Qed.

Lemma good_new_Stdout w : wf w -> good w (new_StdoutLogAppender w).
Proof. intros Hw. apply (new_appender_good _ None); [done|]. eexists. split; [reflexivity|]. done. Qed.
Lemma good_new_File w file : wf w -> good w (new_FileLogAppender file w).
Proof. intros Hw. apply (new_appender_good _ (Some file)); [done|]. apply new_FileLogAppender_ok. Qed.

Section Events.
Context (strftime : list Z -> Z -> list Z).

(** ** Events *)

Lemma format_items_fault items ln lv ev fl : format_items strftime items ln lv ev = inl fl -> fl = Indeterminate.
Proof.
  induction items as [|i items IH]; [done|]. cbn [format_items].
  destruct (item_format strftime i ln lv ev) as [f|t] eqn:E.
  - intros [= <-]. destruct i; cbn in E; try done. unfold format_date in E. case_match; congruence.
  - destruct (format_items strftime items ln lv ev); [|done]. intros [= <-]. by apply IH.
Qed.

Lemma formatted_fault w fmt level ev fl : is_Some (loggers w !! ev_logger ev) ->
  formatted strftime w (Some fmt) level ev = inl fl -> fl = Indeterminate.
Proof.
  intros [l E]. unfold formatted, run_format. rewrite E. destruct (format strftime fmt (lg_name l) level ev) eqn:Ef; [|done].
  intros [= <-]. by eapply format_items_fault.
Qed.

Lemma delivery_fault w level ev a p fl : appenders w !! a = Some p -> ap_formatter p <> None -> is_Some (loggers w !! ev_logger ev) ->
  delivery strftime w level ev a = inl fl -> fl = Indeterminate.
Proof.
  intros E Hf Hl. unfold delivery. rewrite E. destruct (ap_level p <=? level); cbn [negb]; [|done].
  destruct (ap_formatter p) as [fmt|]; [|done]. destruct (formatted strftime w (Some fmt) level ev) as [f|t] eqn:Ef.
  - intros [= <-]. by eapply formatted_fault.
  - repeat case_match; done.
Qed.

Lemma collect_fault {X} (l : list (fault + option X)) f : collect l = inl f -> inl f ∈ l.
Proof.
  induction l as [|[g|o] l IH]; [done| |].
  - intros [= <-]. apply list_elem_of_here.
  - cbn. destruct (collect l); [|done]. intros [= <-]. apply list_elem_of_further, IH. done.
Qed.

Lemma sinks_ok w this level p : wf w -> p ∈ sinks w this level -> exists ap, appenders w !! p = Some ap /\ ap_formatter ap <> None.
Proof.
  intros Hw. unfold sinks, own_sinks. destruct (loggers w !! this) as [l|] eqn:El; [|by intros ?%elem_of_nil].
  assert (forall b k, loggers w !! b = Some k -> p ∈ (if lg_level k <=? level then lg_appenders k else []) ->
    exists ap, appenders w !! p = Some ap /\ ap_formatter ap <> None) as Hown.
  { intros b k Ek. destruct (lg_level k <=? level); [by apply (wf_appenders w Hw b k)|by intros ?%elem_of_nil]. }
  specialize (Hown this l El) as H0. destruct (lg_appenders l) as [|q qs] eqn:Eq; [|by destruct (lg_root l)].
  destruct (lg_root l) as [r|]; [|by destruct (lg_level l <=? level)].
  destruct (lg_level l <=? level); [|by intros ?%elem_of_nil]. destruct (loggers w !! r) as [k|] eqn:Ek; [|by intros ?%elem_of_nil].
  by apply (Hown r k).
Qed.

Lemma log_good w this level ev : wf w -> is_Some (loggers w !! this) -> is_Some (loggers w !! ev_logger ev) ->
  match log strftime this level ev w with
  | Ret _ w' => quiet w w'
  | Exn _ _ => False
  | UB f => f = Indeterminate
  end.
Proof.
  intros Hw Ht Hl. rewrite (log_sinks strftime w this level ev Hw Ht).
  pose proof (each_log_ok strftime level ev (sinks w this level) w) as H.
  destruct (collect _) as [fl|outs] eqn:Ec; [|destruct H as (w' & -> & Q & _); done].
  cbn [outcome] in H. rewrite H. apply collect_fault, list_elem_of_In, in_map_iff in Ec as (p & Ep & Hp%list_elem_of_In).
  destruct (sinks_ok w this level p Hw Hp) as (ap & E & Hf). by eapply delivery_fault.
Qed.

Lemma log_level_quiet h w this level msg : wf w -> is_Some (loggers w !! this) ->
  match log_level strftime h this level msg w with
  | Ret _ w' => quiet w w'
  | Exn _ _ => False
  | UB f => f = Indeterminate
  end.
Proof.
  intros Hw Ht. unfold log_level. pose proof Ht as [l E]. rewrite (bind_Ret _ _ _ _ _ (the_logger_ok this l w E)).
  destruct (lg_level l <=? level); [|done]. by apply log_good.
Qed.

Lemma good_log_level h w this level msg : wf w -> is_Some (loggers w !! this) -> good w (log_level strftime h this level msg w).
Proof.
  intros Hw Ht. pose proof (log_level_quiet h w this level msg Hw Ht) as H.
  destruct (log_level _ _ _ _ _ _); cbn; [|done..]. split; [by apply (quiet_wf w)|by apply log_quiet_ext].
Qed.

(** ** Every sequence of operations *)

(** What a program does with the manager: loggers by name, events, appenders and their files, levels, formatters by
    pattern and by pointer. A handle is an address a program was given: an operation on one that does not exist is
    none. A pointer to a formatter is not null: a logger's [setFormatter] looks into it, and an appender with a null formatter
    looks into it at its next event. *)
Inductive op :=
  | GetLogger (name : text) | Event (h : Here) (logger level : Z) (message : text)
  | NewStdout | NewFile (file : text)
  | AddAppender (logger appender : Z) | DelAppender (logger appender : Z) | ClearAppenders (logger : Z)
  | LoggerLevel (logger level : Z) | LoggerPattern (logger : Z) (pattern : text)
  | LoggerFormatter (logger : Z) (fmt : LogFormatter)
  | AppenderLevel (appender level : Z) | AppenderFormatter (appender : Z) (fmt : LogFormatter)
  | Reopen (appender : Z).

Definition on_logger (a : Z) (m : MW unit) : MW unit := fun w => match loggers w !! a with Some _ => m w | None => Ret tt w end.
Definition on_appender (a : Z) (m : MW unit) : MW unit := fun w => match appenders w !! a with Some _ => m w | None => Ret tt w end.

Definition on_file (a : Z) (m : MW unit) : MW unit := fun w =>
  match appenders w !! a ≫= ap_file with Some _ => m w | None => Ret tt w end.

Definition run_op (o : op) : MW unit :=
  match o with
  | GetLogger name => getLogger name ;; ret tt
  | Event h l level m => on_logger l (log_level strftime h l level m)
  | NewStdout => new_StdoutLogAppender ;; ret tt
  | NewFile f => new_FileLogAppender f ;; ret tt
  | AddAppender l a => on_logger l (on_appender a (addAppender l a))
  | DelAppender l a => on_logger l (delAppender l a)
  | ClearAppenders l => on_logger l (clearAppenders l)
  | LoggerLevel l v => on_logger l (logger_setLevel l v)
  | LoggerPattern l p => on_logger l (setFormatter_pattern l p)
  | AppenderLevel a v => on_appender a (appender_setLevel a v)
  | LoggerFormatter l fmt => on_logger l (setFormatter l (Some fmt))
  | AppenderFormatter a fmt => on_appender a (appender_setFormatter a (Some fmt))
  | Reopen a => on_file a (reopen a ;; ret tt)
  end.

Fixpoint run_ops (l : list op) : MW unit :=
  match l with
  | [] => ret tt
  | o :: l => run_op o ;; run_ops l
  end.

Lemma good_on_logger w a m : wf w -> (is_Some (loggers w !! a) -> good w (m w)) -> good w (on_logger a m w).
Proof. intros Hw H. unfold on_logger. destruct (loggers w !! a) eqn:E; [apply H; by eexists|by apply good_ret]. Qed.
Lemma good_on_appender w a m : wf w -> (is_Some (appenders w !! a) -> good w (m w)) -> good w (on_appender a m w).
Proof. intros Hw H. unfold on_appender. destruct (appenders w !! a) eqn:E; [apply H; by eexists|by apply good_ret]. Qed.

Lemma good_reopen w a : wf w -> good w (on_file a (reopen a ;; ret tt) w).
Proof.
  intros Hw. unfold on_file. destruct (appenders w !! a ≫= ap_file) as [f|] eqn:E; [|by apply good_ret].
  apply bind_Some in E as (p & Ep & Ef). rewrite (bind_Ret _ _ _ _ _ (reopen_ok a p f w Ep Ef)).
  assert (quiet w (reopened a p f (m_lastTime f) w)) as Q by (by apply reopened_quiet).
  split; [by apply (quiet_wf w)|by apply log_quiet_ext].
Qed.

Lemma good_run_op w o : wf w -> good w (run_op o w).
Proof.
  intros Hw. destruct o; cbn [run_op]; try (apply good_on_logger; [done|]; intros Hl); try (apply good_on_appender; [done|]; intros Ha).
  - apply good_bind; [|intros; by apply good_ret]. destruct (getLogger_cases name w Hw) as (a & w' & -> & _ & Hw' & Hx & _). done.
  - by apply good_log_level.
  - apply good_bind; [by apply good_new_Stdout|]. intros; by apply good_ret.
  - apply good_bind; [by apply good_new_File|]. intros; by apply good_ret.
  - by apply good_addAppender.
  - by apply good_delAppender.
  - by apply good_clearAppenders.
  - by apply good_logger_setLevel.
  - by apply good_setFormatter_pattern.
  - by apply good_setFormatter.
  - apply good_upd_appender; done.
  - apply good_upd_appender; done.
  - by apply good_reopen.
Qed.

Lemma good_run_ops l : forall w, wf w -> good w (run_ops l w).
Proof.
  induction l as [|o l IH]; intros w Hw; [by apply good_ret|]. cbn [run_ops]. apply good_bind; [by apply good_run_op|].
  intros [] w' _ Hw' _. by apply IH.
Qed.
End Events.

(** ** The manager *)

(** C22: From its constructor, every sequence of operations on the manager's loggers and appenders (with formatters that are not null) returns, unless
    a date is printed that is longer than its buffer; no pointer is null and no lock is taken twice. Each logger has a formatter, and so has every
    appender it has; the root has no root. A name has one logger: [getLogger] gives it again after any further operations. *)
Theorem manager_safe strftime opens ops :
  match (new_LoggerManager ;; run_ops strftime ops) (start opens) with
  | Ret _ w => wf w /\ forall name more, exists a w1, getLogger name w = Ret a w1
      /\ match run_ops strftime more w1 with
         | Ret _ w2 => getLogger name w2 = Ret a w2
         | Exn _ _ => False
         | UB f => f = Indeterminate
         end
  | Exn _ _ => False
  | UB f => f = Indeterminate
  end.
Proof.
  rewrite (bind_Ret _ _ _ _ _ (new_LoggerManager_ok opens)).
  pose proof (good_run_ops strftime ops _ (first_wf opens)) as H. destruct (run_ops strftime ops _) as [u w|e w|f]; [|done..].
  destruct H as [Hw Hx]. split; [done|]. intros name more. destruct (getLogger_cases name w Hw) as (a & w1 & E & Hin & Hw1 & Hx1 & _).
  exists a, w1. split; [done|]. pose proof (good_run_ops strftime more w1 Hw1) as H.
  destruct (run_ops strftime more w1) as [u2 w2|e w2|f]; [|done..]. destruct H as [Hw2 Hx2].
  apply getLogger_known; [done|]. by apply (x_names _ _ Hx2).
Qed.
