(* ===== verification/LoggerConf.v ===== *)
(** * LoggerConf: what a configuration makes of the loggers

    [conf_changed_spec]: the listener of the configuration applies every definition that is new or changed and silences the loggers of those that are gone;
    at one that has not changed it dereferences a null pointer. [defines_roundtrip]: what of the definitions survives their text. *)

From S2P Require Import Prelude Std Config ConfigSpec Log LogSpec Logger LoggerSpec LoggerSafe.

#[local] Arguments default_pattern : simpl never.
#[local] Arguments new_LogFormatter : simpl never.

(** ** What is configured *)

(** A pattern that is set and has no error. *)
Definition usable (p : text) : bool := negb (bool_decide (p = [])) && negb (isError (new_LogFormatter p)).

(** The appender of a definition, in a logger [l]. *)
Definition configured_appender (w : World) (l : Logger) (a : Z) (d : LogAppenderDefine) : Prop :=
  exists p, appenders w !! a = Some p /\ ap_level p = ad_level d
    /\ m_filename <$> ap_file p = (if ad_type d =? 1 then Some (ad_file d) else None)
    /\ ap_formatter p = (if usable (ad_formatter d) then Some (new_LogFormatter (ad_formatter d)) else lg_formatter l).

Definition configured_logger (w : World) (l : Logger) (i : LogDefine) : Prop :=
  lg_level l = ld_level i
  /\ (usable (ld_formatter i) = true -> lg_formatter l = Some (new_LogFormatter (ld_formatter i)))
  /\ Forall2 (configured_appender w l) (lg_appenders l) (ld_appenders i).

Definition configured (w : World) (i : LogDefine) : Prop :=
  exists a l, (ld_name i, a) ∈ m_loggers w /\ loggers w !! a = Some l /\ configured_logger w l i.
Definition silenced (w : World) (name : text) : Prop :=
  exists a l, (name, a) ∈ m_loggers w /\ loggers w !! a = Some l /\ lg_level l = 100 /\ lg_appenders l = [].

(** The definition was there with this level and formatter: the appenders do not count. *)
Definition unchanged (old : list LogDefine) (i : LogDefine) : Prop :=
  exists o, o ∈ old /\ ld_name o = ld_name i /\ ld_level o = ld_level i /\ ld_formatter o = ld_formatter i.

Definition types_ok (l : list LogDefine) : Prop := Forall (fun i => Forall (fun a => ad_type a = 1 \/ ad_type a = 2) (ld_appenders i)) l.

Lemma configured_shape w w' l a d : configured_appender w l a d -> shape <$> appenders w' !! a = shape <$> appenders w !! a ->
  configured_appender w' l a d.
Proof.
  intros (p & E & H1 & H2 & H3) Hs. rewrite E in Hs. cbn in Hs. destruct (appenders w' !! a) as [p'|] eqn:E'; [|done].
  cbn in Hs. unfold shape in Hs. injection Hs as S1 _ S2 S3. exists p'. split; [done|]. by rewrite S1, S2, S3.
Qed.

(** ** One appender *)

(** Of the appenders below [n], nothing that matters has changed; the loggers and names neither. *)
Record touched (n : Z) (w w' : World) : Prop := mkTouched {
  t_loggers : loggers w' = loggers w;
  t_names : m_loggers w' = m_loggers w;
  t_root : m_root w' = m_root w;
  t_next : next w' = next w;
  t_shape : forall b, b <> n -> shape <$> appenders w' !! b = shape <$> appenders w !! b
}.
#[export] Instance touched_preorder n : PreOrder (touched n).
Proof.
  split; [by intros w; split|]. intros w1 w2 w3 [A1 B1 C1 D1 E1] [A2 B2 C2 D2 E2].
  split; try congruence. intros b Hb. by rewrite E2, E1.
Qed.
Lemma quiet_touched n w w' : quiet w w' -> touched n w w'.
Proof. intros Q. split; try apply Q. intros b _. apply Q. Qed.
Lemma insert_touched n p w : touched n w (set_appenders (<[n := p]> (appenders w)) w).
Proof. split; try done. intros b Hb. cbn. by rewrite lookup_insert_ne. Qed.

Lemma addAppender_ok w a l n p : loggers w !! a = Some l -> appenders w !! n = Some p ->
  exists w', addAppender a n w = Ret tt (set_loggers (<[a := set_appenders_of (lg_appenders l ++ [n]) l]> (loggers w)) w')
    /\ touched n w w'
    /\ exists p', appenders w' !! n = Some p' /\ ap_level p' = ap_level p /\ ap_file p' = ap_file p
       /\ ap_formatter p' = match ap_formatter p with Some f => Some f | None => lg_formatter l end.
Proof.
  intros El Ep. unfold addAppender, appender_getFormatter.
  rewrite (bind_Ret _ _ _ _ _ (the_logger_ok a l w El)), bind_assoc, (bind_Ret _ _ _ _ _ (the_appender_ok n p w Ep)), bind_ret_l.
  cbv beta. destruct (ap_formatter p) as [f|] eqn:Ef.
  - rewrite bind_ret_l. cbv beta. exists w. rewrite (upd_logger_ok a _ l w El). split; [done|]. split; [done|]. exists p. by rewrite Ef.
  - rewrite (bind_Ret _ _ _ _ _ (upd_appender_ok n _ p w Ep)).
    eexists. rewrite (upd_logger_ok a _ l (set_appenders _ w) El). split; [reflexivity|]. split; [apply insert_touched|].
    exists (set_formatter (lg_formatter l) p). split; [apply lookup_insert_eq|done].
Qed.

Lemma apply_appender_ok w a l i d : loggers w !! a = Some l -> (ad_type d = 1 \/ ad_type d = 2) ->
  exists w', apply_appender a i d w = Ret tt (set_loggers (<[a := set_appenders_of (lg_appenders l ++ [next w]) l]> (loggers w)) w')
    /\ touched (next w) (set_next (next w + 1) w) w' /\ configured_appender w' l (next w) d.
Proof.
  intros El Ht. set (file := if ad_type d =? 1 then Some (ad_file d) else None).
  assert (exists w1, (if ad_type d =? 1 then new_FileLogAppender (ad_file d)
     else if ad_type d =? 2 then new_StdoutLogAppender else fail_with NullDeref) w = Ret (next w) w1
    /\ quiet (with_appender (the_new file) w) w1) as (w1 & E1 & Q1).
  { unfold file. destruct Ht as [-> | ->]; cbn [Z.eqb Pos.eqb]; [apply new_FileLogAppender_ok|]. by eexists. }
  unfold apply_appender. rewrite (bind_Ret _ _ _ _ _ E1).
  destruct (shape_lookup _ _ (next w) (the_new file) Q1 ltac:(apply lookup_insert_eq)) as (p1 & Ep1 & S1).
  unfold shape in S1. injection S1 as _ _ Hf1 Hn1. unfold appender_setLevel.
  rewrite (bind_Ret _ _ _ _ _ (upd_appender_ok (next w) _ p1 w1 Ep1)).
  set (w2 := set_appenders _ w1). set (p2 := mkLogAppender (ad_level d) (ap_hasFormatter p1) (ap_formatter p1) (ap_file p1)) in *.
  assert (appenders w2 !! next w = Some p2) as Ep2 by apply lookup_insert_eq.
  assert (touched (next w) (set_next (next w + 1) w) w2) as T2.
  { transitivity (with_appender (the_new file) w); [split; try done; intros b Hb; cbn; by rewrite lookup_insert_ne|].
    transitivity w1; [by apply quiet_touched|apply insert_touched]. }
  assert (exists w3 p3, (if bool_decide (ad_formatter d = []) then ret tt
     else if negb (isError (new_LogFormatter (ad_formatter d))) then appender_setFormatter (next w) (Some (new_LogFormatter (ad_formatter d)))
     else put (str "log.name=" ++ ld_name i ++ str "appender type=" ++ decimal (ad_type d) ++ str " formatter="
               ++ ad_formatter d ++ str " is invalid" ++ [10])) w2 = Ret tt w3
    /\ touched (next w) w2 w3 /\ appenders w3 !! next w = Some p3 /\ ap_level p3 = ad_level d /\ ap_file p3 = ap_file p1
    /\ ap_formatter p3 = (if usable (ad_formatter d) then Some (new_LogFormatter (ad_formatter d)) else None))
    as (w3 & p3 & E3 & T3 & Ep3 & L3 & F3 & Fm3).
  { unfold usable. destruct (bool_decide (ad_formatter d = [])); cbn [negb andb].
    - exists w2, p2. done.
    - destruct (isError _); cbn [negb].
      + eexists _, p2. split; [reflexivity|]. split; [by split|]. done.
      + unfold appender_setFormatter. rewrite (upd_appender_ok _ _ p2 w2 Ep2). eexists _, _. split; [reflexivity|].
        split; [apply insert_touched|]. split; [apply lookup_insert_eq|]. done. }
  cbv zeta. rewrite (bind_Ret _ _ _ _ _ E3).
  assert (touched (next w) (set_next (next w + 1) w) w3) as T by (by etrans).
  assert (loggers w3 !! a = Some l) as El3 by (by rewrite (t_loggers _ _ _ T)).
  destruct (addAppender_ok w3 a l (next w) p3 El3 Ep3) as (w4 & E4 & T4 & p4 & Ep4 & L4 & F4 & Fm4).
  exists w4. rewrite E4, (t_loggers _ _ _ T). split; [done|]. split; [by etrans|].
  exists p4. split; [done|]. rewrite L4, L3, F4, F3, Fm4, Fm3. split; [done|]. split; [by rewrite Hn1; unfold file; destruct (ad_type d =? 1)|].
  by destruct (usable (ad_formatter d)).
Qed.

(** ** The appenders of a definition *)

Lemma apply_appenders_ok a i ds : forall w l, loggers w !! a = Some l -> (forall x, x ∈ lg_appenders l -> x < next w) ->
  Forall (fun d => ad_type d = 1 \/ ad_type d = 2) ds ->
  exists w' xs, apply_appenders a i ds w = Ret tt w'
    /\ loggers w' = <[a := set_appenders_of (lg_appenders l ++ xs) l]> (loggers w)
    /\ m_loggers w' = m_loggers w /\ m_root w' = m_root w /\ next w <= next w'
    /\ (forall b, b < next w -> shape <$> appenders w' !! b = shape <$> appenders w !! b)
    /\ Forall2 (configured_appender w' l) xs ds /\ Forall (fun x => next w <= x < next w') xs.
Proof.
  induction ds as [|d ds IH]; intros w l El Hl Ht.
  - exists w, []. rewrite app_nil_r. split_and!; try done; try lia. symmetry. apply insert_id. rewrite El. by destruct l.
  - apply Forall_cons_1 in Ht as [Ht Hts]. destruct (apply_appender_ok w a l i d El Ht) as (w1 & E1 & T & C1).
    cbn [apply_appenders]. rewrite (bind_Ret _ _ _ _ _ E1).
    set (l1 := set_appenders_of (lg_appenders l ++ [next w]) l) in *. set (w2 := set_loggers _ w1).
    assert (next w2 = next w + 1) as En by apply T.
    destruct (IH w2 l1) as (w' & xs & E' & El' & Enm & Er & Hn & Hs & Hc & Hx); [apply lookup_insert_eq| |done|].
    { intros x [Hx|Hx%list_elem_of_singleton]%elem_of_app; rewrite En; [specialize (Hl x Hx); lia|subst x; lia]. }
    exists w', (next w :: xs). split; [done|]. split.
    { rewrite El'. unfold w2. cbn. rewrite insert_insert_eq. unfold l1, set_appenders_of. cbn. by rewrite <- app_assoc. }
    split; [rewrite Enm; apply T|]. split; [rewrite Er; apply T|]. split; [lia|]. split.
    { intros b Hb. rewrite Hs by lia. apply (t_shape _ _ _ T). lia. }
    split; [constructor; [|exact Hc]|constructor; [lia|]].
    + apply (configured_shape w1); [exact C1|]. apply Hs. lia.
    + rewrite En in Hx. eapply Forall_impl; [|exact Hx]. intros x Hb. cbv beta in Hb. lia.
Qed.

Lemma good_apply_appender w a i d : wf w -> is_Some (loggers w !! a) -> (ad_type d = 1 \/ ad_type d = 2) ->
  good w (apply_appender a i d w).
Proof.
  intros Hw Ha Ht.
  assert (exists f w1, (if ad_type d =? 1 then new_FileLogAppender (ad_file d)
     else if ad_type d =? 2 then new_StdoutLogAppender else fail_with NullDeref) w = Ret (next w) w1
    /\ quiet (with_appender (the_new f) w) w1) as (f & w1 & E1 & Q1).
  { destruct Ht as [-> | ->]; cbn [Z.eqb Pos.eqb]; [exists (Some (ad_file d)); apply new_FileLogAppender_ok|].
    exists None. by eexists. }
  assert (is_Some (appenders w1 !! next w)) as Hp by (apply (shape_is_Some _ _ _ Q1); eexists; apply lookup_insert_eq).
  unfold apply_appender. apply good_bind; [apply (new_appender_good _ f); [done|]; by exists w1|].
  intros ap w' E' Hw1 Hx1. rewrite E1 in E'. injection E' as <- <-.
  apply good_bind; [by apply good_upd_appender|]. intros [] w2 _ Hw2 Hx2.
  apply good_bind; [|intros [] w3 _ Hw3 Hx3; apply good_addAppender; [done|by apply Hx3, Hx2, Hx1|by apply Hx3, Hx2]].
  case_bool_decide; [by apply good_ret|]. cbv zeta. destruct (isError _); cbn [negb]; [by apply good_put|].
  apply good_upd_appender; [done|by apply Hx2|done].
Qed.

Lemma good_apply_appenders a i ds : forall w, wf w -> is_Some (loggers w !! a) ->
  Forall (fun d => ad_type d = 1 \/ ad_type d = 2) ds -> good w (apply_appenders a i ds w).
Proof.
  induction ds as [|d ds IH]; intros w Hw Ha Ht; [by apply good_ret|]. apply Forall_cons_1 in Ht as [Ht Hts].
  cbn [apply_appenders]. apply good_bind; [by apply good_apply_appender|]. intros [] w1 _ Hw1 Hx1. apply IH; [done|by apply Hx1|done].
Qed.

(** ** One definition *)

(** The pointer of [apply_new] is not null. *)
Definition is_same (old : list LogDefine) (i : LogDefine) : bool :=
  match find_define i old with None => false | Some it => define_eq i it end.

(** A logger of another name stays as it is, and none comes up. *)
Definition others_same (name : text) (w w' : World) : Prop :=
  forall a l, lg_name l <> name -> loggers w !! a = Some l <-> loggers w' !! a = Some l.

Lemma others_insert w w' a l l' : loggers w !! a = Some l -> lg_name l' = lg_name l -> loggers w' = <[a := l']> (loggers w) ->
  others_same (lg_name l) w w'.
Proof.
  intros El En E b k Hk. rewrite E. destruct (decide (b = a)) as [->|Hb]; [|by rewrite lookup_insert_ne].
  rewrite lookup_insert_eq, El. split; intros [= <-]; congruence.
Qed.

Lemma others_trans name w1 w2 w3 : others_same name w1 w2 -> others_same name w2 w3 -> others_same name w1 w3.
Proof. intros H1 H2 a l Hl. rewrite (H1 a l Hl). by apply H2. Qed.

(** A logger's appenders with the appenders of the manager as they were. *)
Definition owned (w : World) (name : text) (b : Z) : Prop := exists a l, loggers w !! a = Some l /\ lg_name l = name /\ b ∈ lg_appenders l.

Lemma each_set_ok fmt ps : forall w, (forall p, p ∈ ps -> is_Some (appenders w !! p)) ->
  exists w', each (fun i =>
      let! p := the_appender i in
      if ap_hasFormatter p then ret tt else upd_appender i (set_formatter (Some fmt))) ps w = Ret tt w'
    /\ loggers w' = loggers w /\ m_loggers w' = m_loggers w /\ m_root w' = m_root w /\ next w' = next w
    /\ forall b, b ∉ ps -> appenders w' !! b = appenders w !! b.
Proof.
  induction ps as [|p ps IH]; intros w Hp; [by exists w|].
  destruct (Hp p) as [ap E]; [apply list_elem_of_here|]. cbn [each].
  assert (exists q, (let! q := the_appender p in
      if ap_hasFormatter q then ret tt else upd_appender p (set_formatter (Some fmt))) w
    = Ret tt (set_appenders (<[p := q]> (appenders w)) w)) as [q Eq].
  { rewrite (bind_Ret _ _ _ _ _ (the_appender_ok p ap w E)). destruct (ap_hasFormatter ap).
    - exists ap. unfold ret. f_equal. unfold set_appenders. rewrite insert_id by done. by destruct w.
    - exists (set_formatter (Some fmt) ap). by rewrite (upd_appender_ok p _ ap w E). }
  rewrite (bind_Ret _ _ _ _ _ Eq). destruct (IH (set_appenders (<[p := q]> (appenders w)) w)) as (w' & E' & H1 & H2 & H3 & H4 & H5).
  { intros b Hb. cbn. destruct (decide (b = p)) as [->|]; [by rewrite lookup_insert_eq|].
    rewrite lookup_insert_ne by done. apply Hp. by apply list_elem_of_further. }
  exists w'. split; [done|]. split; [done|]. split; [done|]. split; [done|]. split; [done|].
  intros b Hb. rewrite not_elem_of_cons in Hb. destruct Hb as [Hbp Hb]. rewrite H5 by done. cbn. by rewrite lookup_insert_ne.
Qed.

Definition with_pattern (v : text) (l : Logger) : Logger :=
  if isError (new_LogFormatter v) then l
  else mkLogger (lg_name l) (lg_level l) (lg_appenders l) (Some (new_LogFormatter v)) (lg_root l).

Lemma setFormatter_pattern_ok w a l v : loggers w !! a = Some l -> (forall p, p ∈ lg_appenders l -> is_Some (appenders w !! p)) ->
  exists w', setFormatter_pattern a v w = Ret tt w' /\ loggers w' = <[a := with_pattern v l]> (loggers w)
    /\ m_loggers w' = m_loggers w /\ m_root w' = m_root w /\ next w' = next w
    /\ forall b, b ∉ lg_appenders l -> appenders w' !! b = appenders w !! b.
Proof.
  intros El Hp. unfold setFormatter_pattern, with_pattern. cbv zeta. destruct (isError (new_LogFormatter v)) eqn:Ee.
  - rewrite (bind_Ret _ _ _ _ _ (the_logger_ok a l w El)). eexists. split; [reflexivity|]. cbn. rewrite insert_id by done. done.
  - unfold setFormatter. rewrite Ee. cbn [negb]. rewrite (bind_Ret _ _ _ _ _ (upd_logger_ok a _ l w El)).
    set (w1 := set_loggers _ w). set (l1 := mkLogger _ _ _ _ _) in *.
    assert (loggers w1 !! a = Some l1) as El1 by apply lookup_insert_eq.
    rewrite (bind_Ret _ _ _ _ _ (the_logger_ok a l1 w1 El1)).
    destruct (each_set_ok (new_LogFormatter v) (lg_appenders l1) w1 Hp) as (w' & E' & H1 & H2 & H3 & H4 & H5).
    exists w'. by rewrite E', H1, H2, H3, H4.
Qed.

Lemma apply_new_ok old i w : wf w -> is_same old i = false -> Forall (fun d => ad_type d = 1 \/ ad_type d = 2) (ld_appenders i) ->
  exists w', apply_new old i w = Ret tt w' /\ next w <= next w' /\ others_same (ld_name i) w w'
    /\ (forall b, b < next w -> ~ owned w (ld_name i) b -> shape <$> appenders w' !! b = shape <$> appenders w !! b)
    /\ exists a l, (ld_name i, a) ∈ m_loggers w' /\ loggers w' !! a = Some l /\ configured_logger w' l i
         /\ Forall (fun x => next w <= x < next w') (lg_appenders l).
Proof.
  intros Hw Hs Ht. unfold apply_new. fold (is_same old i). rewrite Hs.
  destruct (getLogger_cases (ld_name i) w Hw) as (a & w1 & E1 & Hin & Hw1 & Hx1 & Hc). rewrite (bind_Ret _ _ _ _ _ E1).
  pose proof Hin as (l1 & El1 & En1)%(wf_named w1 Hw1).
  assert (next w <= next w1 /\ others_same (ld_name i) w w1 /\ appenders w1 = appenders w
    /\ forall b, b ∈ lg_appenders l1 -> owned w (ld_name i) b) as (Hnx & Ho & Ha & Hown).
  { destruct Hc as [[_ ->]|(Hn & -> & ->)].
    - split; [lia|]. split; [done|]. split; [done|]. intros b Hb. by exists a, l1.
    - split; [cbn; lia|]. split; [|split; [done|]].
      + intros b k Hk. cbn. destruct (decide (b = next w)) as [->|]; [|by rewrite lookup_insert_ne].
        rewrite lookup_insert_eq, (next_free w Hw). split; [done|]. by intros [= <-].
      + cbn in El1. rewrite lookup_insert_eq in El1. injection El1 as <-. cbn. by intros b ?%elem_of_nil. }
  unfold logger_setLevel. rewrite (bind_Ret _ _ _ _ _ (upd_logger_ok a _ l1 w1 El1)).
  set (w2 := set_loggers _ w1). set (l2 := mkLogger (lg_name l1) (ld_level i) (lg_appenders l1) (lg_formatter l1) (lg_root l1)) in *.
  assert (loggers w2 !! a = Some l2) as El2 by apply lookup_insert_eq.
  assert (exists w3 l3, (if bool_decide (ld_formatter i = []) then ret tt else setFormatter_pattern a (ld_formatter i)) w2 = Ret tt w3
    /\ loggers w3 = <[a := l3]> (loggers w1) /\ m_loggers w3 = m_loggers w1 /\ next w3 = next w1
    /\ (forall b, b ∉ lg_appenders l1 -> appenders w3 !! b = appenders w1 !! b)
    /\ lg_name l3 = ld_name i /\ lg_level l3 = ld_level i
    /\ (usable (ld_formatter i) = true -> lg_formatter l3 = Some (new_LogFormatter (ld_formatter i))))
    as (w3 & l3 & E3 & El3 & Enm3 & En3 & Ha3 & Hn3 & Hl3 & Hf3).
  { unfold usable. destruct (bool_decide (ld_formatter i = [])); cbn [negb andb].
    - exists w2, l2. done.
    - destruct (setFormatter_pattern_ok w2 a l2 (ld_formatter i) El2) as (w3 & E3 & H1 & H2 & H3 & H4 & H5).
      { intros p Hp. cbn. by apply (logger_appenders w1 a l1). }
      exists w3, (with_pattern (ld_formatter i) l2). split; [done|]. split; [rewrite H1; cbn; apply insert_insert_eq|].
      split; [done|]. split; [done|]. split; [done|]. unfold with_pattern. by destruct (isError _). }
  rewrite (bind_Ret _ _ _ _ _ E3). unfold clearAppenders.
  assert (loggers w3 !! a = Some l3) as El3a by (rewrite El3; apply lookup_insert_eq).
  rewrite (bind_Ret _ _ _ _ _ (upd_logger_ok a _ l3 w3 El3a)).
  set (w4 := set_loggers _ w3). set (l4 := set_appenders_of [] l3) in *.
  assert (loggers w4 !! a = Some l4) as El4 by apply lookup_insert_eq.
  destruct (apply_appenders_ok a i (ld_appenders i) w4 l4 El4) as (w' & xs & E' & El' & Enm' & Er' & Hn' & Hsh & Hcf & Hxs);
    [by intros x ?%elem_of_nil|done|].
  exists w'. split; [done|]. assert (next w4 = next w1) as En4 by done. rewrite En4 in *.
  split; [lia|]. split; [|split].
  - eapply others_trans; [exact Ho|]. rewrite <- En1. apply (others_insert w1 w' a l1 (set_appenders_of ([] ++ xs) l4) El1); [cbn; congruence|].
    rewrite El'. unfold w4. cbn. by rewrite insert_insert_eq, El3, insert_insert_eq.
  - intros b Hb Hnb. rewrite Hsh by lia. unfold w4. cbn. rewrite Ha3 by (intros Hb1; by apply Hnb, Hown). by rewrite Ha.
  - exists a, (set_appenders_of ([] ++ xs) l4). split; [rewrite Enm'; unfold w4; cbn; by rewrite Enm3|].
    split; [rewrite El'; apply lookup_insert_eq|]. split; [|eapply Forall_impl; [|exact Hxs]; intros x Hx; cbv beta in Hx; lia].
    split; [done|]. split; [done|]. cbn. exact Hcf.
Qed.

Lemma getLogger_good name w : wf w -> good w (getLogger name w).
Proof. intros Hw. destruct (getLogger_cases name w Hw) as (a & w' & -> & _ & H1 & H2 & _). done. Qed.
Lemma getLogger_there name w a w' : wf w -> getLogger name w = Ret a w' -> (name, a) ∈ m_loggers w' /\ is_Some (loggers w' !! a).
Proof.
  intros Hw E. destruct (getLogger_cases name w Hw) as (b & w1 & E1 & Hin & Hw1 & _). rewrite E in E1. injection E1 as <- <-.
  split; [done|]. apply (wf_named w' Hw1) in Hin as (l & El & _). by eexists.
Qed.

Lemma good_apply_new old i w : wf w -> is_same old i = false -> Forall (fun d => ad_type d = 1 \/ ad_type d = 2) (ld_appenders i) ->
  good w (apply_new old i w).
Proof.
  intros Hw Hs Ht. unfold apply_new. fold (is_same old i). rewrite Hs.
  apply good_bind; [by apply getLogger_good|]. intros a w1 E1 Hw1 _. destruct (getLogger_there _ _ _ _ Hw E1) as [_ Ha].
  apply good_bind; [by apply good_logger_setLevel|]. intros [] w2 _ Hw2 Hx2. assert (is_Some (loggers w2 !! a)) as Ha2 by (by apply Hx2).
  apply good_bind; [case_bool_decide; [by apply good_ret|by apply good_setFormatter_pattern]|].
  intros [] w3 _ Hw3 Hx3. assert (is_Some (loggers w3 !! a)) as Ha3 by (by apply Hx3).
  apply good_bind; [by apply good_clearAppenders|]. intros [] w4 _ Hw4 Hx4. apply good_apply_appenders; [done|by apply Hx4|done].
Qed.

(** ** All definitions *)

Lemma others_configured w w' i a l : (ld_name i, a) ∈ m_loggers w' -> loggers w !! a = Some l -> configured_logger w l i ->
  loggers w' !! a = Some l -> (forall x, x ∈ lg_appenders l -> shape <$> appenders w' !! x = shape <$> appenders w !! x) ->
  configured w' i.
Proof.
  intros Hin El (H1 & H2 & H3) El' Hs. exists a, l. split; [done|]. split; [done|]. split; [done|]. split; [done|].
  clear -H3 Hs. induction H3 as [|x d xs ds Hx H3 IH]; [done|]. constructor.
  - eapply configured_shape; [exact Hx|]. apply Hs, list_elem_of_here.
  - apply IH. intros y Hy. apply Hs. by apply list_elem_of_further.
Qed.

(** Definitions applied one after the other, over appenders that are all older than [n]. *)
Lemma each_new_ok n old todo : forall w, wf w -> n <= next w -> NoDup (map ld_name todo) ->
  types_ok todo -> Forall (fun i => is_same old i = false) todo ->
  (forall a l x, loggers w !! a = Some l -> lg_name l ∈ map ld_name todo -> x ∈ lg_appenders l -> x < n) ->
  exists w', each_define (apply_new old) todo w = Ret tt w' /\ wf w' /\ ext w w' /\ Forall (configured w') todo
    /\ (forall a l, lg_name l ∉ map ld_name todo -> loggers w !! a = Some l <-> loggers w' !! a = Some l)
    /\ (forall b, n <= b < next w -> shape <$> appenders w' !! b = shape <$> appenders w !! b).
Proof.
  induction todo as [|i todo IH]; intros w Hw Hn Hd Ht Hs Hold.
  { exists w. split; [done|]. split; [done|]. split; [done|]. split; [constructor|]. done. }
  apply Forall_cons_1 in Ht as [Ht Hts]. apply Forall_cons_1 in Hs as [Hsi Hss]. cbn [map] in Hd. apply list.NoDup_cons in Hd as [Hdi Hd].
  destruct (apply_new_ok old i w Hw Hsi Ht) as (w1 & E1 & Hnx & Ho & Hsh & a & l & Hin & El & Hc & Hx).
  pose proof (good_apply_new old i w Hw Hsi Ht) as G. rewrite E1 in G. destruct G as [Hw1 Hx1].
  cbn [each_define]. rewrite (bind_Ret _ _ _ _ _ E1).
  pose proof Hin as (l' & El' & Hnl)%(wf_named w1 Hw1). rewrite El in El'. injection El' as <-.
  destruct (IH w1 Hw1) as (w' & E' & Hw' & Hx' & Hcs & Hos & Hss'); [lia|done|done|done| |].
  { intros b k x Hk Hkn Hxk. apply (Hold b k x); [|by apply list_elem_of_further|done]. apply Ho; [|done]. congruence. }
  exists w'. split; [done|]. split; [done|]. split; [by etrans|]. split; [constructor; [|done]|].
  { apply (others_configured w1 w' i a l); [by apply Hx'|done|done|apply Hos; [congruence|done]|].
    intros x Hxl. apply Hss'. rewrite list.Forall_forall in Hx. specialize (Hx x Hxl). lia. }
  split.
  - intros b k Hk. cbn [map] in Hk. rewrite not_elem_of_cons in Hk. destruct Hk as [Hk1 Hk2].
    rewrite (Ho b k Hk1). by apply Hos.
  - intros b Hb. rewrite Hss' by lia. apply Hsh; [lia|]. intros (c & k & Ek & Ekn & Hbk).
    specialize (Hold c k b Ek). rewrite Ekn in Hold. specialize (Hold (list_elem_of_here _ _) Hbk). lia.
Qed.

Lemma each_new_null old todo : forall w, wf w -> types_ok todo -> Exists (fun i => is_same old i = true) todo ->
  each_define (apply_new old) todo w = UB NullDeref.
Proof.
  induction todo as [|i todo IH]; intros w Hw Ht Hs; [by apply Exists_nil in Hs|].
  apply Forall_cons_1 in Ht as [Ht Hts]. cbn [each_define]. destruct (is_same old i) eqn:Ei.
  - apply bind_UB. unfold apply_new. fold (is_same old i). by rewrite Ei.
  - destruct (apply_new_ok old i w Hw Ei Ht) as (w1 & E1 & _). pose proof (good_apply_new old i w Hw Ei Ht) as G. rewrite E1 in G.
    rewrite (bind_Ret _ _ _ _ _ E1). apply IH; [apply G|done|]. apply Exists_cons in Hs as [Hs|Hs]; [congruence|done].
Qed.

Lemma apply_gone_ok new i w : wf w -> exists w', apply_gone new i w = Ret tt w' /\ wf w' /\ ext w w'
  /\ others_same (ld_name i) w w' /\ appenders w' = appenders w
  /\ (if bool_decide (find_define i new = None) then silenced w' (ld_name i) else w' = w).
Proof.
  intros Hw. unfold apply_gone. destruct (find_define i new) as [o|]; [rewrite bool_decide_eq_false_2 by done; by exists w|].
  rewrite bool_decide_eq_true_2 by done.
  assert (good w ((let! logger := getLogger (ld_name i) in logger_setLevel logger 100 ;; clearAppenders logger) w)) as G.
  { apply good_bind; [by apply getLogger_good|]. intros a w1 E1 Hw1 _. destruct (getLogger_there _ _ _ _ Hw E1) as [_ Ha].
    apply good_bind; [by apply good_logger_setLevel|]. intros [] w2 _ Hw2 Hx2. apply good_clearAppenders; [done|by apply Hx2]. }
  destruct (getLogger_cases (ld_name i) w Hw) as (a & w1 & E1 & Hin & Hw1 & Hx1 & Hc).
  rewrite (bind_Ret _ _ _ _ _ E1) in G |- *. pose proof Hin as (l1 & El1 & En1)%(wf_named w1 Hw1).
  unfold logger_setLevel in *. rewrite (bind_Ret _ _ _ _ _ (upd_logger_ok a _ l1 w1 El1)) in G |- *.
  unfold clearAppenders in *. rewrite (upd_logger_ok a _ _ _ (lookup_insert_eq _ _ _)) in G |- *.
  eexists. split; [reflexivity|]. split; [apply G|]. split; [apply G|]. split; [|split].
  - assert (others_same (ld_name i) w w1) as Ho.
    { destruct Hc as [[_ ->]|(Hn & -> & ->)]; [done|]. intros b k Hk. cbn.
      destruct (decide (b = next w)) as [->|]; [|by rewrite lookup_insert_ne].
      rewrite lookup_insert_eq, (next_free w Hw). split; [done|]. by intros [= <-]. }
    eapply others_trans; [exact Ho|]. rewrite <- En1.
    eapply (others_insert w1 _ a l1 (set_appenders_of [] (mkLogger (lg_name l1) 100 (lg_appenders l1) (lg_formatter l1) (lg_root l1))) El1); [done|].
    cbn. by rewrite insert_insert_eq.
  - cbn. destruct Hc as [[_ ->]|(Hn & -> & ->)]; done.
  - eexists a, _. cbn. split; [done|]. split; [apply lookup_insert_eq|]. done.
Qed.

Lemma each_gone_ok new old : forall w, wf w -> exists w', each_define (apply_gone new) old w = Ret tt w' /\ wf w' /\ ext w w'
  /\ (forall a l, (forall i, i ∈ old -> find_define i new = None -> ld_name i <> lg_name l) ->
        loggers w !! a = Some l <-> loggers w' !! a = Some l)
  /\ appenders w' = appenders w
  /\ (forall i, i ∈ old -> find_define i new = None -> silenced w' (ld_name i))
  /\ forall name, silenced w name -> silenced w' name.
Proof.
  induction old as [|i old IH]; intros w Hw.
  { exists w. split; [done|]. split; [done|]. split; [done|]. split; [done|]. split; [done|]. split; [by intros i ?%elem_of_nil|done]. }
  destruct (apply_gone_ok new i w Hw) as (w1 & E1 & Hw1 & Hx1 & Ho1 & Ha1 & Hs1).
  destruct (IH w1 Hw1) as (w' & E' & Hw' & Hx' & Ho' & Ha' & Hs' & Hk'). exists w'. cbn [each_define]. rewrite (bind_Ret _ _ _ _ _ E1).
  split; [done|]. split; [done|]. split; [by etrans|]. split; [|split; [congruence|]].
  - intros a l Hl. assert (loggers w !! a = Some l <-> loggers w1 !! a = Some l) as ->.
    { case_bool_decide as Hf; [|by subst w1]. apply Ho1. intros El. apply (Hl i); [apply list_elem_of_here|done|done]. }
    apply Ho'. intros j Hj. apply Hl. by apply list_elem_of_further.
  - assert (forall name, silenced w name -> silenced w1 name) as Hk1.
    { intros name (a & l & Hin & El & Hl1 & Hl2). case_bool_decide as Hf; [|by subst w1; exists a, l].
      destruct (decide (name = ld_name i)) as [->|Hne]; [done|]. exists a, l. split; [by apply Hx1|]. split; [|done].
      apply Ho1; [|done]. pose proof Hin as (k & Ek & Enk)%(wf_named w Hw). rewrite El in Ek. injection Ek as <-. congruence. }
    split; [|intros name Hn; by apply Hk', Hk1].
    intros j [->|Hj]%elem_of_cons Hf; [|by apply Hs'].
    apply Hk'. by rewrite bool_decide_eq_true_2 in Hs1.
Qed.

(** ** Looking definitions up *)

Lemma same_define i o : same_key define_less i o = bool_decide (ld_name i = ld_name o).
Proof. apply same_text. Qed.

Lemma find_define_some i l o : find_define i l = Some o -> o ∈ l /\ ld_name i = ld_name o.
Proof.
  intros H. apply find_some in H as [Hin H]. rewrite list_elem_of_In. split; [done|].
  rewrite same_define in H. by apply bool_decide_eq_true in H.
Qed.

Lemma find_define_none i l : find_define i l = None <-> ld_name i ∉ map ld_name l.
Proof.
  unfold find_define. induction l as [|o l IH]; cbn; [split; [intros _; apply not_elem_of_nil|done]|].
  rewrite same_define, not_elem_of_cons. case_bool_decide; [|rewrite IH]; naive_solver.
Qed.

Lemma sorted_names l : set_sorted define_less l -> NoDup (map ld_name l).
Proof.
  induction 1 as [|x l Hs IH HF]; [constructor|]. cbn. constructor; [|done].
  intros Hx. apply list_elem_of_In, in_map_iff in Hx as (y & E & Hy%list_elem_of_In).
  rewrite list.Forall_forall in HF. specialize (HF y Hy). unfold define_less in HF. rewrite E in HF.
  by rewrite (swo_irrefl (less := text_less)) in HF.
Qed.

Lemma vector_eq_refl {T} (eq : T -> T -> bool) l : (forall x, eq x x = true) -> vector_eq eq l l = true.
Proof. intros H. induction l as [|x l IH]; [done|]. cbn. by rewrite H, IH. Qed.

Lemma define_eq_iff a b : define_eq a b = true <-> ld_name a = ld_name b /\ ld_level a = ld_level b /\ ld_formatter a = ld_formatter b.
Proof.
  unfold define_eq. rewrite vector_eq_refl, andb_true_r, !andb_true_iff, !bool_decide_eq_true, Z.eqb_eq; [tauto|].
  intros d. unfold appender_define_eq. by rewrite !Z.eqb_refl, !bool_decide_eq_true_2.
Qed.

Lemma is_same_iff old i : set_sorted define_less old -> is_same old i = true <-> unchanged old i.
Proof.
  intros Hs%sorted_names. unfold is_same, unchanged. destruct (find_define i old) as [o|] eqn:E.
  - apply find_define_some in E as [Hin En]. rewrite define_eq_iff. split; [intros (_ & H1 & H2); exists o; naive_solver|].
    intros (o' & Hin' & En' & H1 & H2). assert (o' = o) as ->; [|done].
    clear -Hs Hin Hin' En En'. induction old as [|x old IH]; [by apply elem_of_nil in Hin|].
    cbn in Hs. apply list.NoDup_cons in Hs as [Hx Hs].
    assert (forall y, y ∈ old -> ld_name y <> ld_name x) as Hne.
    { intros y Hy Ey. apply Hx. rewrite <- Ey. apply list_elem_of_In, in_map, list_elem_of_In. done. }
    apply elem_of_cons in Hin as [->|Hin], Hin' as [->|Hin']; [done| | |by apply IH].
    + destruct (Hne o' Hin'). congruence.
    + destruct (Hne o Hin). congruence.
  - split; [done|]. intros (o & Hin & En & _). apply find_define_none in E. destruct E. rewrite <- En.
    apply list_elem_of_In, in_map, list_elem_of_In. done.
Qed.

(** ** The listener *)

(** C21: What a change of the configuration does to the loggers, behind the message the root logs of it. When every definition is new or has
    another level or formatter than before, each one's logger has then its level, its formatter where that is without error, and in order the
    appenders it lists, with their levels and files, and with their formatters or else the logger's; each logger whose definition is gone has no appender
    and the level 100; loggers without definitions are as they were, and all is well formed. When there is a definition with the level and
    formatter it had before, whatever its appenders, the null pointer is dereferenced. *)
Theorem conf_changed_spec strftime h old new w :
  wf w -> set_sorted define_less old -> set_sorted define_less new -> types_ok new ->
  match log_level strftime h (m_root w) INFO (str "on_logger_conf_changed") w with
  | Ret _ _ =>
      ((forall i, i ∈ new -> ~ unchanged old i) ->
         exists w', on_logger_conf_changed strftime h old new w = Ret tt w' /\ wf w' /\ ext w w' /\ Forall (configured w') new
           /\ (forall i, i ∈ old -> ld_name i ∉ map ld_name new -> silenced w' (ld_name i))
           /\ (forall a l, lg_name l ∉ map ld_name new -> lg_name l ∉ map ld_name old ->
                 loggers w !! a = Some l <-> loggers w' !! a = Some l))
      /\ ((exists i, i ∈ new /\ unchanged old i) -> on_logger_conf_changed strftime h old new w = UB NullDeref)
  | Exn _ _ => False
  | UB f => f = Indeterminate /\ on_logger_conf_changed strftime h old new w = UB f
  end.
Proof.
  intros Hw Hso Hsn Ht.
  pose proof (log_level_quiet strftime h w (m_root w) INFO (str "on_logger_conf_changed") Hw) as Hq.
  assert (is_Some (loggers w !! m_root w)) as Hr by (destruct (wf_root w Hw) as (l & E & _); by eexists). specialize (Hq Hr).
  unfold on_logger_conf_changed. rewrite (bind_Ret (gets m_root) _ w (m_root w) w eq_refl).
  destruct (log_level _ _ _ _ _ _) as [[] w1|e w1|f] eqn:E1; [|done|split; [done|by apply bind_UB]].
  rewrite (bind_Ret _ _ _ _ _ E1). pose proof (quiet_wf _ _ Hq Hw) as Hw1. split.
  - intros Hc.
    destruct (each_new_ok (next w1) old new w1 Hw1 (Z.le_refl _) (sorted_names _ Hsn) Ht) as (w2 & E2 & Hw2 & Hx2 & Hcf & Ho2 & _).
    { apply list.Forall_forall. intros i Hi. apply not_true_is_false. rewrite is_same_iff by done. by apply Hc. }
    { intros a l x El _ Hx. apply (wf_next w1 Hw1). right. by apply (logger_appenders w1 a l). }
    rewrite (bind_Ret _ _ _ _ _ E2).
    destruct (each_gone_ok new old w2 Hw2) as (w3 & E3 & Hw3 & Hx3 & Ho3 & Ha3 & Hs3 & _).
    exists w3. split; [done|]. split; [done|]. split; [etrans; [apply log_quiet_ext, Hq|]; by etrans|]. split; [|split].
    + apply list.Forall_forall. intros i Hi. rewrite list.Forall_forall in Hcf. destruct (Hcf i Hi) as (a & l & Hin & El & Hcl).
      apply (others_configured w2 w3 i a l); [by apply Hx3|done|done| |by rewrite Ha3].
      apply Ho3; [|done]. intros j _ Hj%find_define_none Hjl. apply Hj. pose proof Hin as (k & Ek & Enk)%(wf_named w2 Hw2).
      rewrite El in Ek. injection Ek as <-. rewrite Hjl, Enk. apply list_elem_of_In, in_map, list_elem_of_In. done.
    + intros i Hi Hn. apply Hs3; [done|]. by apply find_define_none.
    + intros a l Hl1 Hl2. rewrite <- (q_loggers _ _ Hq), (Ho2 a l Hl1). apply Ho3. intros j Hj _ Ej. apply Hl2. rewrite <- Ej.
      apply list_elem_of_In, in_map, list_elem_of_In. done.
  - intros (i & Hi & Hu). apply bind_UB, each_new_null; [done..|]. apply list.Exists_exists. exists i.
    split; [done|]. by apply is_same_iff.
Qed.

(** ** A change *)

Definition demo_define (level : Z) (apps : list LogAppenderDefine) : LogDefine := mkLogDefine (str "system") level (str "%m%n") apps.
Definition demo_here : Here := mkHere (str "log.cpp") 715 2 0 4 (str "main").

(** A new definition is applied; one whose appenders only have changed is the null pointer. *)
Lemma conf_changed_spec_witness :
  let w := first_world (fun _ => true) in
  let new := [demo_define WARN [mkLogAppenderDefine 1 ERROR [] (str "a.log"); mkLogAppenderDefine 2 UNKNOW (str "%p") []]] in
  (exists w', on_logger_conf_changed (fun _ _ => str "now") demo_here [] new w = Ret tt w' /\ Forall (configured w') new)
  /\ on_logger_conf_changed (fun _ _ => str "now") demo_here new [demo_define WARN []] w = UB NullDeref.
Proof.
  intros w new. assert (wf w) as Hw by apply first_wf.
  assert (set_sorted define_less new) as Hs by repeat constructor.
  assert (types_ok new) as Ht by (repeat constructor; cbn; lia).
  pose proof (conf_changed_spec (fun _ _ => str "now") demo_here [] new w Hw ltac:(constructor) Hs Ht) as H1.
  pose proof (conf_changed_spec (fun _ _ => str "now") demo_here new [demo_define WARN []] w Hw Hs
    ltac:(repeat constructor) ltac:(repeat constructor)) as H2.
  assert (is_ret (log_level (fun _ _ => str "now") demo_here (m_root w) INFO (str "on_logger_conf_changed") w) = true) as Hr
    by (vm_compute; reflexivity).
  destruct (log_level _ _ _ _ _ w) as [[] w1|e w1|f]; [|done|done]. split.
  - destruct (proj1 H1) as (w' & E & _ & _ & C & _); [intros i _ (o & Ho & _); by apply elem_of_nil in Ho|].
    exists w'. split; [exact E|exact C].
  - apply (proj2 H2). eexists. split; [apply list_elem_of_here|]. eexists. split; [apply list_elem_of_here|].
    split; [reflexivity|]. split; reflexivity.
Defined.

(** ** The text of definitions *)

(** What yaml-cpp is used to build: texts, maps and sequences. *)
Inductive tree := Leaf (s : text) | Map (l : list (text * tree)) | Seq (l : list tree).
Definition first {T} (k : text) (l : list (text * T)) : option T := snd <$> List.find (fun kv => bool_decide (kv.1 = k)) l.

Section Text.
Context {Node : Type} `{!Yaml Node}.

Fixpoint build (t : tree) : Node :=
  match t with
  | Leaf s => y_text s
  | Map l => y_map (map (fun kv => match kv with (k, v) => (k, build v) end) l)
  | Seq l => y_seq (map build l)
  end.

(** Keys are distinct, and nothing is empty. *)
Inductive tree_ok : tree -> Prop :=
  | ok_leaf s : tree_ok (Leaf s)
  | ok_map l : l <> [] -> NoDup (map fst l) -> (forall k t, (k, t) ∈ l -> tree_ok t) -> tree_ok (Map l)
  | ok_seq l : l <> [] -> (forall t, t ∈ l -> tree_ok t) -> tree_ok (Seq l).

(** A node that is read as a tree. *)
Inductive views : Node -> tree -> Prop :=
  | views_leaf n s : y_string n = Some s -> views n (Leaf s)
  | views_map n l : y_is_scalar n = false -> (forall k, is_Some (y_get n k) <-> is_Some (first k l)) ->
      (forall k t c, first k l = Some t -> y_get n k = Some c -> views c t) -> views n (Map l)
  | views_seq n l : y_is_scalar n = false -> y_size n = length l -> (forall i t, l !! i = Some t -> views (y_at n i) t) ->
      views n (Seq l).
End Text.

(** What is printed and loaded is read as it was built; the null node has no elements. *)
Class YamlTree (Node : Type) `{Yaml Node} : Prop := {
  load_build t : tree_ok t -> exists n, y_load (y_emit (build t)) = Some n /\ views n t;
  load_null : exists n, y_load (y_emit y_null) = Some n /\ y_size n = 0%nat
}.

(** A definition as its text says it. *)
Definition told_appender (a : LogAppenderDefine) : LogAppenderDefine :=
  if ad_type a =? 1 then mkLogAppenderDefine 1 UNKNOW (ad_formatter a) (ad_file a) else mkLogAppenderDefine 2 UNKNOW [] [].
Definition told (i : LogDefine) : LogDefine :=
  mkLogDefine (ld_name i) (ld_level i) (ld_formatter i) (map told_appender (ld_appenders i)).

Section Defines.
Context {Node : Type} `{YamlTree Node}.

Definition level_tree (level : Z) : list (text * tree) := if level =? UNKNOW then [] else [(str "level", Leaf (ToString level))].
Definition formatter_tree (f : text) : list (text * tree) := if bool_decide (f = []) then [] else [(str "formatter", Leaf f)].
Definition appender_tree (a : LogAppenderDefine) : tree :=
  Map ((if ad_type a =? 1 then [(str "type", Leaf (str "FileLogAppender")); (str "file", Leaf (ad_file a))]
        else [(str "type", Leaf (str "StdoutLogAppender"))])
       ++ level_tree (ad_level a) ++ formatter_tree (ad_formatter a)).
Definition define_tree (i : LogDefine) : tree :=
  Map ([(str "name", Leaf (ld_name i))] ++ level_tree (ld_level i) ++ formatter_tree (ld_formatter i)
       ++ match ld_appenders i with [] => [] | l => [(str "appenders", Seq (map appender_tree l))] end).

Lemma build_appender a : ad_type a = 1 \/ ad_type a = 2 -> build (appender_tree a) = appender_define_node a.
Proof.
  intros Ht. unfold appender_tree, appender_define_node, map_node, level_tree, level_entry, formatter_tree.
  destruct Ht as [-> | ->]; cbn [Z.eqb Pos.eqb app]; destruct (ad_level a =? UNKNOW), (bool_decide (ad_formatter a = [])); done.
Qed.

Lemma build_define i : Forall (fun a => ad_type a = 1 \/ ad_type a = 2) (ld_appenders i) -> build (define_tree i) = define_node i.
Proof.
  intros Ht. unfold define_tree, define_node, level_tree, level_entry, formatter_tree.
  assert (map build (map appender_tree (ld_appenders i)) = map appender_define_node (ld_appenders i)) as E.
  { rewrite map_map. apply map_ext_in. intros a Ha%list_elem_of_In. apply build_appender. rewrite list.Forall_forall in Ht. by apply Ht. }
  destruct (ld_level i =? UNKNOW), (bool_decide (ld_formatter i = [])), (ld_appenders i); cbn -[str] in *; by rewrite ?E.
Qed.


Lemma appender_tree_ok a : tree_ok (appender_tree a).
Proof.
  unfold appender_tree, level_tree, formatter_tree.
  assert (forall l, Forall (fun kv : text * tree => exists s, kv.2 = Leaf s) l -> forall k t, (k, t) ∈ l -> tree_ok t) as Hl.
  { intros l Hf k t Hin. rewrite list.Forall_forall in Hf. destruct (Hf _ Hin) as [s E]. cbn in E. subst t. constructor. }
  apply ok_map; destruct (ad_type a =? 1), (ad_level a =? UNKNOW), (bool_decide (ad_formatter a = [])); cbn [app]; try done;
    try (apply (bool_decide_unpack _); vm_compute; exact I); apply Hl; repeat constructor; eauto.
Qed.

Lemma define_tree_ok i : tree_ok (define_tree i).
Proof.
  unfold define_tree, level_tree, formatter_tree.
  assert (forall l, Forall (fun kv : text * tree => tree_ok kv.2) l -> forall k t, (k, t) ∈ l -> tree_ok t) as Hl.
  { intros l Hf k t Hin. rewrite list.Forall_forall in Hf. apply (Hf _ Hin). }
  assert (forall a l, tree_ok (Seq (map appender_tree (a :: l)))) as Hs.
  { intros a l. apply ok_seq; [done|]. intros t Ht. apply list_elem_of_In, in_map_iff in Ht as (x & <- & _). apply appender_tree_ok. }
  apply ok_map; destruct (ld_level i =? UNKNOW), (bool_decide (ld_formatter i = [])), (ld_appenders i); cbn [app]; try done;
    try (apply (bool_decide_unpack _); vm_compute; exact I);
    apply Hl; repeat (apply Forall_cons_2; [first [apply ok_leaf | apply Hs]|]); apply Forall_nil_2.
Qed.

(** ** Reading what was printed *)

Lemma views_field n l key : views n (Map l) ->
  exists v, field n key = Some v /\ match v, first key l with Some c, Some t => views c t | None, None => True | _, _ => False end.
Proof.
  intros Hv. inversion Hv as [|n' l' Hsc Hk Hc|]; subst. unfold field. rewrite Hsc. eexists. split; [reflexivity|].
  specialize (Hk key). destruct (y_get n key) as [c|] eqn:Ec, (first key l) as [t|] eqn:Et; [by apply (Hc key)| | |done].
  - by destruct (proj1 Hk (ex_intro _ _ eq_refl)).
  - by destruct (proj2 Hk (ex_intro _ _ eq_refl)).
Qed.

Lemma views_text n s : views n (Leaf s) -> y_string n = Some s.
Proof. by inversion 1. Qed.

Lemma views_text_field n l key absent s : views n (Map l) ->
  match first key l with Some t => t = Leaf s | None => absent = s end -> text_field n key absent = Some s.
Proof.
  intros Hv Hf. destruct (views_field n l key Hv) as (v & E & Hc). unfold text_field. rewrite E. cbn.
  destruct v as [c|], (first key l) as [t|]; try done; [|by subst]. subst t. by apply views_text.
Qed.

Lemma views_items n l : views n (Seq l) -> Forall2 views (items_of n) l.
Proof.
  intros Hv. inversion Hv as [| |n' l' Hsc Hn Hi]; subst. unfold items_of. rewrite Hn. clear Hv Hn.
  assert (forall k (m : list tree), (forall i t, m !! i = Some t -> views (y_at n (k + i)) t) ->
    Forall2 views (map (y_at n) (seq k (length m))) m) as R.
  { intros k m. revert k. induction m as [|t m IH]; intros k Hm; [constructor|]. cbn. constructor.
    - specialize (Hm 0%nat t eq_refl). by rewrite Nat.add_0_r in Hm.
    - apply IH. intros i u Hu. specialize (Hm (S i) u Hu). by replace (S k + i)%nat with (k + S i)%nat by lia. }
  by apply R.
Qed.

Lemma appender_told n a : ad_type a = 1 \/ ad_type a = 2 -> views n (appender_tree a) ->
  appender_define n = Some (Some (told_appender a)).
Proof.
  intros Ht Hv. unfold appender_tree in Hv. pose proof (views_field _ _ (str "type") Hv) as (v & E & Hc).
  unfold appender_define. rewrite E. unfold told_appender. cbn -[str].
  destruct Ht as [Ht|Ht]; rewrite Ht in *; cbn [Z.eqb Pos.eqb app] in *;
    (destruct v as [c|]; [|by destruct Hc]); apply views_text in Hc; rewrite Hc; cbn -[str].
  - rewrite bool_decide_eq_true_2 by done. pose proof (views_field _ _ (str "file") Hv) as (v2 & E2 & Hc2). rewrite E2. cbn -[str].
    destruct v2 as [c2|]; [|by destruct Hc2]. apply views_text in Hc2. rewrite Hc2. cbn -[str].
    rewrite (views_text_field _ _ (str "formatter") [] (ad_formatter a) Hv); [done|].
    unfold level_tree, formatter_tree. by destruct (ad_level a =? UNKNOW); case_bool_decide.
  - done.
Qed.

Lemma omap_somes {X Y} (f : X -> Y) l : omap id (map (fun a => Some (f a)) l) = map f l.
Proof. induction l as [|a l IH]; [done|]. cbn. by rewrite <- IH. Qed.

Lemma define_told n i : Forall (fun a => ad_type a = 1 \/ ad_type a = 2) (ld_appenders i) -> 0 <= ld_level i <= 5 ->
  views n (define_tree i) -> log_define n = Some (Some (told i)).
Proof.
  intros Ht Hl Hv. unfold define_tree in Hv. unfold log_define.
  pose proof (views_field _ _ (str "name") Hv) as (v & E & Hc). rewrite E. destruct v as [c|]; [|by destruct Hc].
  apply views_text in Hc. cbn -[str]. rewrite Hc. cbn -[str].
  rewrite (views_text_field _ _ (str "level") [] (if ld_level i =? UNKNOW then [] else ToString (ld_level i)) Hv)
    by (unfold level_tree, formatter_tree; destruct (ld_level i =? UNKNOW), (bool_decide (ld_formatter i = [])), (ld_appenders i); done).
  rewrite (views_text_field _ _ (str "formatter") [] (ld_formatter i) Hv)
    by (unfold level_tree, formatter_tree; destruct (ld_level i =? UNKNOW), (ld_appenders i); by case_bool_decide).
  cbn -[str]. pose proof (views_field _ _ (str "appenders") Hv) as (v2 & E2 & Hc2). rewrite E2. cbn -[str].
  assert (mapM appender_define (match v2 with None => [] | Some a => items_of a end) = Some (map (fun a => Some (told_appender a)) (ld_appenders i))) as ->.
  { destruct (ld_appenders i) as [|a l] eqn:Ea.
    - assert (v2 = None) as ->; [|done]. destruct v2; [|done].
      unfold level_tree, formatter_tree in Hc2. destruct (ld_level i =? UNKNOW), (bool_decide (ld_formatter i = [])); by destruct Hc2.
    - assert (exists c2, v2 = Some c2 /\ views c2 (Seq (map appender_tree (a :: l)))) as (c2 & -> & Hs).
      { unfold level_tree, formatter_tree in Hc2. destruct (ld_level i =? UNKNOW), (bool_decide (ld_formatter i = [])), v2 as [c2|];
          try (by exists c2); by destruct Hc2. }
      apply views_items in Hs. clear -Ht Hs. revert Ht Hs. generalize (items_of c2). generalize (a :: l). clear.
      intros l. induction l as [|a l IH]; intros ns Ht Hs; inversion Hs as [|n ? ns' ? Hn Hns]; subst; [done|].
      apply Forall_cons_1 in Ht as [Ht Hts]. cbn [mapM]. rewrite (appender_told n a Ht Hn). cbn. by rewrite (IH ns' Hts Hns). }
  cbn -[str]. unfold told. do 3 f_equal.
  - destruct (Z.eqb_spec (ld_level i) UNKNOW) as [->|Hu]; [done|]. apply (levels_roundtrip (ld_level i)). unfold UNKNOW in Hu. lia.
  - apply omap_somes.
Qed.

Lemma defines_told ns l : Forall2 views ns (map define_tree l) -> types_ok l -> Forall (fun i => 0 <= ld_level i <= 5) l ->
  mapM log_define ns = Some (map (fun i => Some (told i)) l).
Proof.
  revert ns. induction l as [|i l IH]; intros ns Hv Ht Hl; inversion Hv as [|n ? ns' ? Hn Hns]; subst; [done|].
  apply Forall_cons_1 in Ht as [Ht Hts]. apply Forall_cons_1 in Hl as [Hl Hls].
  cbn [mapM]. rewrite (define_told n i Ht Hl Hn). cbn. by rewrite (IH ns' Hns Hts Hls).
Qed.

Lemma insert_told l : forall acc, set_sorted define_less (acc ++ l) ->
  foldl (fun vec ld => set_insert define_less ld vec) (map told acc) (map told l) = map told (acc ++ l).
Proof.
  induction l as [|i l IH]; intros acc Hs; [by rewrite app_nil_r|]. cbn [map foldl].
  assert (set_insert define_less (told i) (map told acc) = map told (acc ++ [i])) as ->.
  { rewrite map_app. cbn [map]. apply (set_insert_last define_less (StrictWeakOrder0 := swo_of_bytes ld_name)).
    apply list.Forall_forall. intros x Hx. apply list_elem_of_In, in_map_iff in Hx as (y & <- & Hy%list_elem_of_In).
    change (define_less y i = true). clear -Hs Hy. induction acc as [|z acc IH]; [by apply elem_of_nil in Hy|].
    cbn in Hs. inversion Hs as [|? ? Hs2 HF]; subst. clear Hs; rename Hs2 into Hs. apply elem_of_cons in Hy as [->|Hy]; [|by apply IH].
    rewrite list.Forall_forall in HF. apply HF. rewrite elem_of_app. right. apply list_elem_of_here. }
  rewrite IH; rewrite <- app_assoc; done.
Qed.

(** What of a set of logger definitions survives its text: the names, the levels, the formatters, and of the appenders, in their order, the type, and
    the file and formatter of those that write to files. An appender's level is printed and not read, and so is the formatter of one that
    writes to the console. *)
Theorem defines_roundtrip v : set_sorted define_less v -> types_ok v -> Forall (fun i => 0 <= ld_level i <= 5) v ->
  exists t, defines_to_text v = Some t /\ text_to_defines t = Some (map told v).
Proof.
  intros Hs Ht Hl. unfold defines_to_text. eexists. split; [reflexivity|]. unfold text_to_defines, seq_node.
  assert (map define_node v = map build (map define_tree v)) as E.
  { rewrite map_map. apply map_ext_in. intros i Hi%list_elem_of_In. symmetry. apply build_define.
    unfold types_ok in Ht. rewrite list.Forall_forall in Ht. by apply Ht. }
  destruct v as [|i v].
  - destruct load_null as (n & En & Hn). cbn [map]. rewrite En. cbn. unfold items_of. by rewrite Hn.
  - destruct (load_build (Seq (map define_tree (i :: v)))) as (n & En & Hn).
    { apply ok_seq; [done|]. intros t Hin. apply list_elem_of_In, in_map_iff in Hin as (x & <- & _). apply define_tree_ok. }
    cbn [build] in En. rewrite <- E in En. cbn [map] in En |- *. rewrite En. cbn [mbind option_bind].
    apply views_items in Hn. rewrite (defines_told _ _ Hn Ht Hl). cbn [mbind option_bind]. rewrite omap_somes.
    f_equal. apply (insert_told (i :: v) []). done.
Qed.
End Defines.

(** ** A text *)

#[export] Instance demo_yaml_tree : YamlTree demo_node.
Proof.
  split; [|by exists (GenNode 3 [])].
  intros t Ht. exists (build t). split; [cbn; apply decode_encode|].
  induction Ht as [s|l Hne Hd _ IH|l Hne _ IH]; [by constructor| |].
  - assert (forall k, y_get (build (Map l)) k = build <$> first k l) as Hget.
    { intros k. cbn. clear. unfold first. induction l as [|[k' t] l IHl]; [done|]. cbn. case_bool_decide; [done|]. apply IHl. }
    constructor; [done| |].
    + intros k. rewrite Hget. by rewrite fmap_is_Some.
    + intros k t c Hf Hc. rewrite Hget, Hf in Hc. injection Hc as <-. unfold first in Hf.
      destruct (List.find _ l) as [[k' t']|] eqn:Ef; [|done]. injection Hf as <-. apply find_some in Ef as [Hin Hk]. apply (IH k').
      by apply list_elem_of_In.
  - constructor; [done|cbn; by rewrite length_map|]. intros i t Hi. cbn. rewrite list_lookup_fmap, Hi. cbn. apply IH.
    by apply list_elem_of_lookup_2 in Hi.
Qed.

Lemma defines_roundtrip_witness :
  let v := [demo_define WARN [mkLogAppenderDefine 1 ERROR [] (str "a.log"); mkLogAppenderDefine 2 INFO (str "%p") []]] in
  exists t, @defines_to_text demo_node _ v = Some t
    /\ text_to_defines t = Some [demo_define WARN [mkLogAppenderDefine 1 UNKNOW [] (str "a.log"); mkLogAppenderDefine 2 UNKNOW [] []]].
Proof.
  intros v. apply (defines_roundtrip v); unfold v; repeat constructor; cbn; try lia; by unfold WARN.
Defined.
