(* ===== verification/Thread.v ===== *)
(** * Thread: locks, semaphores and threads of [sylar/thread.h] and [thread.cpp], and the clock and backtraces of [util.cpp]

    The guards over any mutex; the spin lock of an atomic flag under interleaving; and the start and end of a [Thread], whose constructor and
    whose [run] are executed by two threads, statement by statement. *)

From S2P Require Import Prelude Std.

(** ** Scoped locks *)

(** A guard is its [m_locked]; [acquire] and [release] are what it calls on the mutex. *)
Section Guards.
Context {S : Type} (acquire release : M S unit).

(* SRC sylar/thread.h:38-42 ScopeLockImpl::ScopeLockImpl *)
Definition new_ScopeLockImpl : M S bool := acquire ;; ret true.
(* SRC sylar/thread.h:48-53 ScopeLockImpl::lock *)
Definition guard_lock (m_locked : bool) : M S bool := if negb m_locked then acquire ;; ret true else ret m_locked.
(* SRC sylar/thread.h:55-60 ScopeLockImpl::unlock *)
Definition guard_unlock (m_locked : bool) : M S bool := if m_locked then release ;; ret false else ret m_locked.
(* SRC sylar/thread.h:44-46 ScopeLockImpl::~ScopeLockImpl *)
Definition delete_ScopeLockImpl (m_locked : bool) : M S unit := guard_unlock m_locked ;; ret tt.
End Guards.

(** The guards of read and write locks are the same over [rdlock] and [wrlock]. *)
Section ReadWriteGuards.
Context {S : Type} (rdlock wrlock unlock : M S unit).
(* SRC sylar/thread.h:70-74 ReadScopeLockImpl::ReadScopeLockImpl *)
Definition new_ReadScopeLockImpl : M S bool := new_ScopeLockImpl rdlock.
(* SRC sylar/thread.h:80-85 ReadScopeLockImpl::lock *)
Definition read_lock : bool -> M S bool := guard_lock rdlock.
(* SRC sylar/thread.h:87-92 ReadScopeLockImpl::unlock *)
Definition read_unlock : bool -> M S bool := guard_unlock unlock.
(* SRC sylar/thread.h:76-78 ReadScopeLockImpl::~ReadScopeLockImpl *)
Definition delete_ReadScopeLockImpl : bool -> M S unit := delete_ScopeLockImpl unlock.
(* SRC sylar/thread.h:101-105 WriteScopeLockImpl::WriteScopeLockImpl *)
Definition new_WriteScopeLockImpl : M S bool := new_ScopeLockImpl wrlock.
(* SRC sylar/thread.h:111-116 WriteScopeLockImpl::lock *)
Definition write_lock : bool -> M S bool := guard_lock wrlock.
(* SRC sylar/thread.h:118-123 WriteScopeLockImpl::unlock *)
Definition write_unlock : bool -> M S bool := guard_unlock unlock.
(* SRC sylar/thread.h:107-109 WriteScopeLockImpl::~WriteScopeLockImpl *)
Definition delete_WriteScopeLockImpl : bool -> M S unit := delete_ScopeLockImpl unlock.
End ReadWriteGuards.

(** ** The spin lock *)

(** Where a thread is: outside, in the loop of [lock], or between [lock] and [unlock]. *)
Inductive Where := Outside | Spinning | Inside.
#[global] Instance Where_eq_dec : EqDecision Where.
Proof. solve_decision. Defined.

(** The flag and the threads. *)
(* SRC sylar/thread.h:243-243 CASLock *)
Record Spin := mkSpin { m_mutex : bool; threads : list Where }.

(* SRC sylar/thread.h:228-230 CASLock::CASLock *)
Definition new_CASLock (n : nat) : Spin := mkSpin false (replicate n Outside).

(** [std::atomic_flag_test_and_set]: what the flag was, and the flag set. *)
Definition test_and_set (flag : bool) : bool * bool := (flag, true).

(** One round of the loop. *)
(* SRC sylar/thread.h:235-237 CASLock::lock *)
Definition cas_lock (t : nat) (s : Spin) : option Spin :=
  match threads s !! t with
  | Some Spinning =>
      let '(was, flag) := test_and_set (m_mutex s) in
      Some (mkSpin flag (if was then threads s else <[t := Inside]> (threads s)))
  | _ => None
  end.

(* SRC sylar/thread.h:239-241 CASLock::unlock *)
Definition cas_unlock (t : nat) (s : Spin) : option Spin :=
  match threads s !! t with
  | Some Inside => Some (mkSpin false (<[t := Outside]> (threads s)))
  | _ => None
  end.

(** A thread that is outside may call [lock]. *)
Definition cas_call (t : nat) (s : Spin) : option Spin :=
  match threads s !! t with
  | Some Outside => Some (mkSpin (m_mutex s) (<[t := Spinning]> (threads s)))
  | _ => None
  end.

Inductive spin_step (s s' : Spin) : Prop :=
  | step_call t : cas_call t s = Some s' -> spin_step s s'
  | step_lock t : cas_lock t s = Some s' -> spin_step s s'
  | step_unlock t : cas_unlock t s = Some s' -> spin_step s s'.

(** ** Semaphores *)

Definition SEM_VALUE_MAX : Z := 2 ^ 31 - 1.

(** The count, or the exception where the call fails. *)
(* SRC sylar/thread.cpp:12-16 Semaphore::Semaphore *)
Definition new_Semaphore (count : Z) : exn + Z := if SEM_VALUE_MAX <? count then inl logic_error else inr count.

(** [None] while the thread waits; a signal may end the wait. *)
(* SRC sylar/thread.cpp:22-26 Semaphore::wait *)
Definition sem_wait (interrupted : bool) (count : Z) : option (exn + Z) :=
  if 0 <? count then Some (inr (count - 1))
  else if interrupted then Some (inl logic_error)
  else None.

(* SRC sylar/thread.cpp:28-32 Semaphore::notify *)
Definition sem_notify (count : Z) : exn + Z := if count =? SEM_VALUE_MAX then inl logic_error else inr (count + 1).

(** ** Threads *)

(** [m_cb] is a number for what it does, none when it is empty. *)
(* SRC sylar/thread.h:269-274 Thread *)
Record Thread := mkThread {
  m_id : Z;
  m_thread : Z;
  m_cb : option Z;
  m_name : list Z;
  m_semaphore : Z
}.

(** The constructor's thread: before [pthread_create], in [m_semaphore.wait()], behind the constructor, or thrown out of it. *)
Inductive Creator := Creating | Waiting | Returned | Thrown.
(** The statement of [run] that is next. *)
Inductive Runner :=
  | RNone | RThread | RName | RId | RSetName | RSwap | RNotify (cb : option Z) | RCall (cb : option Z) | RReturn.
(** What [pthread_join] and [pthread_detach] see. *)
Inductive Pthread := NoThread | Joinable | Detached | Joined.

(** The object, none when it is destroyed; the two threads; the thread locals [t_thread] and [t_thread_name] of the new one; the name the kernel has for it;
    the callbacks that were called. *)
Record Life := mkLife {
  object : option Thread;
  creator : Creator;
  runner : Runner;
  pthread : Pthread;
  t_thread : bool;
  t_thread_name : list Z;
  kernel_name : list Z;
  called : list Z
}.

Definition set_object v l := mkLife v (creator l) (runner l) (pthread l) (t_thread l) (t_thread_name l) (kernel_name l) (called l).
Definition set_creator v l := mkLife (object l) v (runner l) (pthread l) (t_thread l) (t_thread_name l) (kernel_name l) (called l).
Definition set_runner v l := mkLife (object l) (creator l) v (pthread l) (t_thread l) (t_thread_name l) (kernel_name l) (called l).
Definition set_pthread v l := mkLife (object l) (creator l) (runner l) v (t_thread l) (t_thread_name l) (kernel_name l) (called l).
Definition set_locals t n l := mkLife (object l) (creator l) (runner l) (pthread l) t n (kernel_name l) (called l).
Definition set_kernel_name v l := mkLife (object l) (creator l) (runner l) (pthread l) (t_thread l) (t_thread_name l) v (called l).
Definition set_called v l := mkLife (object l) (creator l) (runner l) (pthread l) (t_thread l) (t_thread_name l) (kernel_name l) v.

Definition upd_object (f : Thread -> Thread) (l : Life) : Life := set_object (f <$> object l) l.
Definition with_id v th := mkThread v (m_thread th) (m_cb th) (m_name th) (m_semaphore th).
Definition with_thread v th := mkThread (m_id th) v (m_cb th) (m_name th) (m_semaphore th).
Definition with_cb v th := mkThread (m_id th) (m_thread th) v (m_name th) (m_semaphore th).
Definition with_name v th := mkThread (m_id th) (m_thread th) (m_cb th) v (m_semaphore th).
Definition with_semaphore v th := mkThread (m_id th) (m_thread th) (m_cb th) (m_name th) v.

Definition UNKNOW_NAME : list Z := str "UNKNOW".

(** The members' initialisation. *)
(* SRC sylar/thread.cpp:34-39 Thread::Thread *)
Definition new_Thread (cb : option Z) (name : list Z) : Life :=
  mkLife (Some (mkThread (-1) 0 cb (if bool_decide (name = []) then UNKNOW_NAME else name) 0))
    Creating RNone NoThread false UNKNOW_NAME [] [].

(** An access to an object that is gone. *)
Definition access {A} (l : Life) (f : Thread -> A) : fault + A := match object l with Some th => inr (f th) | None => inl NullDeref end.

(** What the threads may do next. *)
Inductive Action :=
  | Create (rt handle : Z)
  | Wait (interrupted : bool)
  | Run (tid : Z)
  | RunSetName (name : list Z)
  | Join (rt : Z)
  | Destroy (in_thread : bool).

(** [pthread_create] gives [rt], and the thread's handle. An exception of the constructor ends the object. *)
(* SRC sylar/thread.cpp:40-45 Thread::Thread *)
Definition create (rt handle : Z) (l : Life) : option (res Life unit) :=
  match creator l with
  | Creating =>
      if negb (rt =? 0) then Some (Exn logic_error (set_object None (set_creator Thrown l)))
      else Some (Ret tt (set_pthread Joinable (set_runner RThread (set_creator Waiting (upd_object (with_thread handle) l)))))
  | _ => None
  end.

(* SRC sylar/thread.cpp:46-46 Thread::Thread *)
Definition wait (interrupted : bool) (l : Life) : option (res Life unit) :=
  match creator l with
  | Waiting =>
      match object l with
      | None => Some (UB NullDeref)
      | Some th =>
          match sem_wait interrupted (m_semaphore th) with
          | None => None
          | Some (inl _) => Some (Exn logic_error (set_object None (set_creator Thrown l)))
          | Some (inr count) => Some (Ret tt (set_creator Returned (upd_object (with_semaphore count) l)))
          end
      end
  | _ => None
  end.

(** One statement; [tid] is what [GetThreadId] gives. An exception of [notify] would leave the thread's function. *)
(* SRC sylar/thread.cpp:49-63 Thread::run *)
Definition run (tid : Z) (l : Life) : option (res Life unit) :=
  match runner l with
  | RNone | RReturn => None
  | RThread => Some (Ret tt (set_runner RName (set_locals true (t_thread_name l) l)))
  | RName =>
      Some (match access l m_name with
            | inl f => UB f
            | inr name => Ret tt (set_runner RId (set_locals (t_thread l) name l))
            end)
  | RId => Some (match access l (fun _ => tt) with inl f => UB f | inr _ => Ret tt (set_runner RSetName (upd_object (with_id tid) l)) end)
  | RSetName =>
      Some (match access l m_name with
            | inl f => UB f
            | inr name => Ret tt (set_runner RSwap (set_kernel_name (c_str (take 15 name)) l))
            end)
  | RSwap =>
      Some (match access l m_cb with
            | inl f => UB f
            | inr cb => Ret tt (set_runner (RNotify cb) (upd_object (with_cb None) l))
            end)
  | RNotify cb =>
      Some (match access l m_semaphore with
            | inl f => UB f
            | inr count =>
                match sem_notify count with
                | inl _ => UB AssertFailed
                | inr count => Ret tt (set_runner (RCall cb) (upd_object (with_semaphore count) l))
                end
            end)
  | RCall None => Some (UB AssertFailed)
  | RCall (Some cb) => Some (Ret tt (set_runner RReturn (set_called (called l ++ [cb]) l)))
  end.

(** In the callback, of the thread itself. *)
(* SRC sylar/thread.cpp:91-96 Thread::SetName *)
Definition set_name (name : list Z) (l : Life) : option (res Life unit) :=
  match runner l with
  | RCall _ =>
      Some (if t_thread l then
              match access l (fun _ => tt) with
              | inl f => UB f
              | inr _ => Ret tt (set_locals (t_thread l) name (upd_object (with_name name) l))
              end
            else Ret tt (set_locals (t_thread l) name l))
  | _ => None
  end.

(* SRC sylar/thread.cpp:83-85 Thread::GetThis *)
Definition get_this (l : Life) : bool := t_thread l.
(* SRC sylar/thread.cpp:87-89 Thread::GetName *)
Definition get_name (l : Life) : list Z := t_thread_name l.

(** By the owner of the object: it waits for [run] to return, and throws when the call fails. *)
(* SRC sylar/thread.cpp:65-75 Thread::join *)
Definition join (rt : Z) (l : Life) : option (res Life unit) :=
  match creator l, object l with
  | Returned, Some th =>
      if m_thread th =? 0 then Some (Ret tt l)
      else if negb (rt =? 0) then Some (Exn logic_error l)
      else
        match runner l with
        | RReturn => Some (Ret tt (set_pthread Joined (upd_object (with_thread 0) l)))
        | _ => None
        end
  | _, _ => None
  end.

(** [pthread_detach] of no thread, or of one that is joined or detached, is undefined. *)
Definition pthread_detach (handle : Z) (l : Life) : fault + Life :=
  if handle =? 0 then inl NullDeref
  else match pthread l with Joinable => inr (set_pthread Detached l) | _ => inl Indeterminate end.

(** It looks at the [t_thread] of the thread that destroys the object. *)
(* SRC sylar/thread.cpp:77-81 Thread::~Thread *)
Definition delete_Thread (in_thread : bool) (l : Life) : option (res Life unit) :=
  match creator l, object l with
  | Returned, Some th =>
      Some (if in_thread then
              match pthread_detach (m_thread th) l with inl f => UB f | inr l => Ret tt (set_object None l) end
            else Ret tt (set_object None l))
  | _, _ => None
  end.

Definition act (a : Action) : Life -> option (res Life unit) :=
  match a with
  | Create rt handle => create rt handle
  | Wait i => wait i
  | Run tid => run tid
  | RunSetName name => set_name name
  | Join rt => join rt
  | Destroy t => delete_Thread t
  end.

(** A sequence of actions that can be taken; an exception is caught. *)
Fixpoint acts (l : list Action) (s : Life) : option (res Life unit) :=
  match l with
  | [] => Some (Ret tt s)
  | a :: l =>
      match act a s with
      | None => None
      | Some (UB f) => Some (UB f)
      | Some (Ret _ s) | Some (Exn _ s) => acts l s
      end
  end.

(** ** [util.cpp] *)

(** The symbols [backtrace_symbols] gives for the frames, or none when it fails; [i] starts at [skip] as a [size_t]. *)
(* SRC sylar/util.cpp:17-34 Backtrace *)
Definition Backtrace (frames : option (list (list Z))) (skip : Z) (bt : list (list Z)) : list (list Z) :=
  match frames with
  | None => bt
  | Some strings => bt ++ drop (Z.to_nat (Z.min (u64 skip) (Z.of_nat (length strings)))) strings
  end.

(** [prefix] is not used. *)
(* SRC sylar/util.cpp:36-44 BacktraceToString *)
Definition BacktraceToString (frames : option (list (list Z))) (skip : Z) (prefix : list Z) : list Z :=
  concat (map (fun line => line ++ [10]) (Backtrace frames skip [])).

(** Of [gettimeofday]. *)
(* SRC sylar/util.cpp:46-50 GetCurrentMS *)
Definition GetCurrentMS (tv_sec tv_usec : Z) : Z := u64 (u64 (u64 tv_sec * 1000) + u64 (tv_usec / 1000)).
(* SRC sylar/util.cpp:52-56 GetCurrentUS *)
Definition GetCurrentUS (tv_sec tv_usec : Z) : Z := u64 (u64 (tv_sec * 1000 * 1000) + u64 tv_usec).
