(* ===== verification/ThreadSpec.v ===== *)
(** * ThreadSpec: guards pair their calls, the spin lock excludes, a thread is there when its constructor returns

    [guard_pairs]: what a guard does to its mutex. [spin_excludes]: mutual exclusion under every interleaving. [thread_starts]: the hand-shake of the
    constructor and [run]. [thread_ends]: what becomes of a thread whose object goes. *)

From S2P Require Import Prelude Std Thread.

(** ** Guards *)

Section Guards.
Context {S : Type} (acquire release : M S unit).

(** Calls on a guard, then its destruction. *)
Inductive guard_call := CallLock | CallUnlock.
Fixpoint guard_calls (l : list guard_call) (m_locked : bool) : M S bool :=
  match l with
  | [] => ret m_locked
  | CallLock :: l => let! b := guard_lock acquire m_locked in guard_calls l b
  | CallUnlock :: l => let! b := guard_unlock release m_locked in guard_calls l b
  end.
Definition guard_scope (l : list guard_call) : M S unit :=
  let! b := new_ScopeLockImpl acquire in
  let! b := guard_calls l b in
  delete_ScopeLockImpl release b.

(** [n] times locked and unlocked. *)
Fixpoint pairs (n : nat) : M S unit :=
  match n with
  | O => ret tt
  | Datatypes.S n => acquire ;; release ;; pairs n
  end.

(** How often a guard locks again. *)
Fixpoint relocks (m_locked : bool) (l : list guard_call) : nat :=
  match l with
  | [] => 0
  | CallLock :: l => (if m_locked then 0 else 1) + relocks true l
  | CallUnlock :: l => relocks false l
  end.

Lemma bind_ext {A B} (m : M S A) (k1 k2 : A -> M S B) s : (forall a s, k1 a s = k2 a s) -> bind m k1 s = bind m k2 s.
Proof. intros H. unfold bind. destruct (m s); auto. Qed.

Lemma guard_rest l : forall s,
  (let! b := guard_calls l true in delete_ScopeLockImpl release b) s = (release ;; pairs (relocks true l)) s
  /\ (let! b := guard_calls l false in delete_ScopeLockImpl release b) s = pairs (relocks false l) s.
Proof.
  induction l as [|[] l IH]; intros s; cbn [guard_calls relocks pairs].
  - split; [|done]. rewrite bind_ret_l. unfold delete_ScopeLockImpl. cbn [guard_unlock]. rewrite bind_assoc.
    apply bind_ext. by intros [] s1.
  - split.
    + cbn [guard_lock negb]. rewrite bind_assoc, bind_ret_l. apply IH.
    + cbn [guard_lock negb Nat.add pairs]. rewrite !bind_assoc. apply bind_ext. intros [] s1. rewrite bind_ret_l. apply IH.
  - split.
    + cbn [guard_unlock]. rewrite !bind_assoc. apply bind_ext. intros [] s1. rewrite bind_ret_l. apply IH.
    + cbn [guard_unlock]. rewrite bind_assoc, bind_ret_l. apply IH.
Qed.

(** Whatever is called on a guard from its construction to its destruction, what it does to the mutex is to lock and
    unlock it in turns, once and once again for every [lock] after an [unlock]: no lock is left, none is taken twice, and none is given up twice. *)
Theorem guard_pairs l s : guard_scope l s = pairs (1 + relocks true l) s.
Proof.
  unfold guard_scope, new_ScopeLockImpl. rewrite bind_assoc. cbn [Nat.add pairs]. apply bind_ext. intros [] s1.
  rewrite bind_ret_l. apply guard_rest.
Qed.
End Guards.

(** ** The spin lock *)

Definition inside (s : Spin) : nat := length (filter (fun p => p = Inside) (threads s)).

Definition spin_ok (n : nat) (s : Spin) : Prop := length (threads s) = n /\ inside s = if m_mutex s then 1%nat else 0%nat.

Lemma inside_insert l t p q : l !! t = Some p ->
  (length (filter (fun x => x = Inside) (<[t := q]> l)) + (if decide (p = Inside) then 1 else 0)
   = length (filter (fun x => x = Inside) l) + (if decide (q = Inside) then 1 else 0))%nat.
Proof.
  revert t. induction l as [|x l IH]; intros [|t] E; try done.
  - injection E as ->. cbn [insert list_insert]. rewrite !filter_cons. repeat case_decide; cbn [length]; try done; lia.
  - change (<[S t := q]> (x :: l)) with (x :: <[t := q]> l). specialize (IH t E). rewrite !filter_cons. repeat case_decide; cbn [length]; try done; lia.
Qed.

Ltac decided H := repeat match type of H with context [decide ?P] => destruct (decide P); try done end.

Lemma spin_ok_step n s s' : spin_step s s' -> spin_ok n s -> spin_ok n s'.
Proof.
  intros Hs [Hl Hi]. unfold spin_ok, inside in *. destruct Hs as [t E|t E|t E].
  - unfold cas_call in E. destruct (threads s !! t) as [[]|] eqn:Et; try done. injection E as <-. cbn [m_mutex threads].
    rewrite length_insert. pose proof (inside_insert _ _ _ Spinning Et) as H. decided H. rewrite !Nat.add_0_r in H. by rewrite H.
  - unfold cas_lock in E. destruct (threads s !! t) as [[]|] eqn:Et; try done. cbn in E. injection E as <-. cbn [m_mutex threads].
    destruct (m_mutex s); [done|]. rewrite length_insert. pose proof (inside_insert _ _ _ Inside Et) as H. decided H. split; [done|]. cbv iota in *. lia.
  - unfold cas_unlock in E. destruct (threads s !! t) as [[]|] eqn:Et; try done. injection E as <-. cbn [m_mutex threads].
    rewrite length_insert. pose proof (inside_insert _ _ _ Outside Et) as H. decided H. split; [done|].
    destruct (m_mutex s); cbv iota in *; lia.
Qed.

Lemma inside_two l t u : t <> u -> l !! t = Some Inside -> l !! u = Some Inside -> (2 <= length (filter (fun x => x = Inside) l))%nat.
Proof.
  intros Hn Ht Hu. pose proof (inside_insert l t Inside Outside Ht) as H.
  pose proof (inside_insert (<[t := Outside]> l) u Inside Outside) as H2. rewrite list_lookup_insert_ne in H2 by done.
  specialize (H2 Hu). decided H. decided H2. lia.
Qed.

(** C19: The spin lock under every interleaving of any number of threads: two threads are never inside together; the flag is set exactly while a thread is
    inside; when none is inside, the round of any thread that spins lets it in, and while one is inside every other's round leaves all as it is;
    and the thread inside can always leave. *)
Theorem spin_excludes n s : rtc spin_step (new_CASLock n) s ->
  (forall t u, threads s !! t = Some Inside -> threads s !! u = Some Inside -> t = u)
  /\ (m_mutex s = true <-> exists t, threads s !! t = Some Inside)
  /\ (forall t, threads s !! t = Some Spinning ->
       cas_lock t s = Some (if m_mutex s then s else mkSpin true (<[t := Inside]> (threads s))))
  /\ (forall t, threads s !! t = Some Inside -> cas_unlock t s = Some (mkSpin false (<[t := Outside]> (threads s)))).
Proof.
  intros Hr. assert (spin_ok n s) as [Hl Hi].
  { remember (new_CASLock n) as s0 eqn:E0. assert (spin_ok n s0) as H0.
    { subst s0. split; cbn; [apply length_replicate|]. unfold inside. cbn [threads new_CASLock].
      clear. induction n as [|n IH]; [done|]. cbn [replicate]. by rewrite filter_cons_False. }
    clear E0. induction Hr as [s|s1 s2 s3 H12 _ IH]; [done|]. apply IH. by apply (spin_ok_step n s1). }
  unfold inside in Hi. split; [|split; [|split]].
  - intros t u Ht Hu. destruct (decide (t = u)); [done|]. pose proof (inside_two _ t u n0 Ht Hu). destruct (m_mutex s); cbv iota in *; lia.
  - split.
    + intros Hm. rewrite Hm in Hi. destruct (filter _ (threads s)) as [|x l] eqn:E; [done|].
      assert (x ∈ filter (fun p => p = Inside) (threads s)) as Hx by (rewrite E; apply list_elem_of_here).
      apply list_elem_of_filter in Hx as [-> Hx]. by apply list_elem_of_lookup_1 in Hx.
    + intros [t Ht]. destruct (m_mutex s); [done|]. pose proof (inside_insert _ t Inside Outside Ht) as H. decided H. cbv iota in *. lia.
  - intros t Ht. unfold cas_lock. rewrite Ht. cbn. destruct (m_mutex s) eqn:Em; [|done]. destruct s; cbn in *. by subst.
  - intros t Ht. unfold cas_unlock. by rewrite Ht.
Qed.

(** ** The start of a thread *)

Section Start.
Context (cb : Z) (name : list Z) (handle tid : Z).
Notation start := (new_Thread (Some cb) name).

(** What the two threads do while no call fails and the object is there. *)
Definition plain (a : Action) : Prop :=
  match a with
  | Create rt h => rt = 0 /\ h = handle
  | Wait interrupted => interrupted = false
  | Run t => t = tid
  | RunSetName _ => True
  | Join _ | Destroy _ => False
  end.

(** The statement [run] is at says what of the object is set, and whether the constructor can have returned. *)
Definition at_statement (th : Thread) (s : Life) : Prop :=
  match runner s with
  | RNone => False
  | RThread | RName =>
      creator s = Waiting /\ m_cb th = Some cb /\ m_semaphore th = 0 /\ called s = [] /\ (runner s = RName -> t_thread s = true)
  | RId =>
      creator s = Waiting /\ m_cb th = Some cb /\ m_semaphore th = 0 /\ called s = [] /\ t_thread s = true /\ t_thread_name s = m_name th
  | RSetName | RSwap =>
      creator s = Waiting /\ m_cb th = Some cb /\ m_semaphore th = 0 /\ called s = [] /\ t_thread s = true /\ t_thread_name s = m_name th
      /\ m_id th = tid
  | RNotify c =>
      creator s = Waiting /\ c = Some cb /\ m_cb th = None /\ m_semaphore th = 0 /\ called s = [] /\ t_thread s = true
      /\ t_thread_name s = m_name th /\ m_id th = tid
  | RCall _ | RReturn =>
      (creator s = Waiting /\ m_semaphore th = 1 \/ creator s = Returned /\ m_semaphore th = 0)
      /\ m_cb th = None /\ t_thread s = true /\ t_thread_name s = m_name th /\ m_id th = tid
      /\ match runner s with RCall c => c = Some cb /\ called s = [] | _ => called s = [cb] end
  end.
Definition started (s : Life) : Prop :=
  exists th, object s = Some th /\ m_thread th = handle /\ pthread s = Joinable /\ at_statement th s.

Lemma act_started a s r : plain a -> started s -> act a s = Some r -> exists s', r = Ret tt s' /\ started s'.
Proof.
  intros Hp (th & Eo & Eh & Ep & Hs) E. destruct s as [o c rn pt tt' nm kn cl]. cbn in *. subst o pt.
  unfold at_statement in Hs. cbn [runner creator called t_thread t_thread_name] in Hs.
  destruct a as [rt h|i|t|n|rt|t]; cbn [act plain] in *; try done.
  - unfold create in E. cbn in E. destruct c; try done. destruct rn; try done; naive_solver.
  - subst i. unfold wait in E. cbn in E. destruct c; try done. unfold sem_wait in E.
    destruct (0 <? m_semaphore th) eqn:Em; [|done]. apply Z.ltb_lt in Em. injection E as <-. eexists. split; [reflexivity|].
    destruct rn; try done; try (exfalso; lia); (eexists; split; [reflexivity|]; cbn; split; [done|]; split; [done|]; unfold at_statement; cbn;
      destruct Hs as ([[_ Hm]|[? _]] & Hs); [|done]; split; [right; split; [done|]; lia|done]).
  - subst t. unfold run, access in E. cbn in E.
    destruct rn; try done; try (injection E as <-; eexists; split; [reflexivity|]; eexists; split; [reflexivity|]; cbn; split; [done|]; split; [done|];
      unfold at_statement; cbn; naive_solver).
    + destruct Hs as (Hc & -> & H1 & H2 & H3 & H4 & H5 & H6). unfold sem_notify in E. rewrite H2 in E. cbn in E. injection E as <-.
      eexists. split; [reflexivity|]. eexists. split; [reflexivity|]. cbn. split; [done|]. split; [done|]. unfold at_statement; cbn.
      split; [by left|]. done.
    + destruct Hs as (H1 & H2 & H3 & H4 & H5 & -> & ->). injection E as <-.
      eexists. split; [reflexivity|]. eexists. split; [reflexivity|]. cbn. split; [done|]. split; [done|]. unfold at_statement; cbn. done.
  - unfold set_name, access in E. cbn in E. destruct rn; try done. destruct Hs as (H1 & H2 & -> & H4 & H5 & H6 & H7). injection E as <-.
    eexists. split; [reflexivity|]. eexists. split; [reflexivity|]. cbn. split; [done|]. split; [done|]. unfold at_statement; cbn. done.
Qed.

Lemma acts_started l : forall s r, Forall plain l -> s = start \/ started s -> acts l s = Some r ->
  exists s', r = Ret tt s' /\ (s' = start \/ started s').
Proof.
  induction l as [|a l IH]; intros s r Hp Hs E; cbn in E; [injection E as <-; eauto|].
  apply Forall_cons_1 in Hp as [Ha Hp].
  destruct (act a s) as [ra|] eqn:Ea; [|done].
  assert (exists s1, ra = Ret tt s1 /\ started s1) as (s1 & -> & H1).
  { destruct Hs as [->|Hs]; [|by eapply act_started].
    destruct a as [rt h|i|t|n|rt|t]; cbn [act plain] in *; try done. destruct Ha as [-> ->].
    injection Ea as <-. eexists. split; [reflexivity|]. eexists. split; [reflexivity|]. cbn. split; [done|]. split; [done|].
    unfold at_statement. cbn. done. }
  eapply IH; [done|right; exact H1|exact E].
Qed.

(** How many statements are before the call. *)
Definition statements (r : Runner) : nat :=
  match r with
  | RThread => 6 | RName => 5 | RId => 4 | RSetName => 3 | RSwap => 2 | RNotify _ => 1 | _ => 0
  end.

Lemma runs_to_return s : started s -> creator s = Waiting ->
  exists s', acts (replicate (statements (runner s)) (Run tid) ++ [Wait false]) s = Some (Ret tt s') /\ creator s' = Returned.
Proof.
  intros Hs Hc. remember (statements (runner s)) as k eqn:Ek. revert s Hs Hc Ek.
  induction k as [|k IH]; intros s Hs Hc Ek.
  - destruct Hs as (th & Eo & Eh & Ep & Hs). destruct s as [o c rn pt tt' nm kn cl]. cbn in *. subst o c. unfold at_statement in Hs. cbn in Hs.
    destruct rn; try done; destruct Hs as ([[_ Hm]|[? _]] & _); try done; unfold wait; cbn; unfold sem_wait; rewrite Hm; cbn; eauto.
  - cbn [replicate app acts act]. destruct (run tid s) as [r|] eqn:Er.
    + destruct (act_started (Run tid) s r eq_refl Hs Er) as (s1 & -> & H1). apply IH; [done| |].
      * destruct s as [o c rn pt tt' nm kn cl]. cbn in *. subst c. destruct Hs as (th & Eo & _). cbn in Eo. subst o.
        unfold run, access in Er. cbn in Er. destruct rn; try done; try (by injection Er as <-).
        unfold sem_notify in Er. destruct (_ =? _); [done|]. by injection Er as <-.
      * destruct s as [o c rn pt tt' nm kn cl]. cbn in *. destruct Hs as (th & Eo & _). cbn in Eo. subst o.
        unfold run, access in Er. cbn in Er. destruct rn; try done; try (injection Er as <-; cbn in *; lia).
        unfold sem_notify in Er. destruct (_ =? _); [done|]. injection Er as <-; cbn in *; lia.
    + destruct s as [o c rn pt tt' nm kn cl]. cbn in *. unfold run in Er. cbn in Er. destruct rn; try done.
Qed.

(** C20: The start of a thread, whatever the order in which the constructor and the new thread take their statements, when no call
    fails and the object is there: nothing goes wrong; when the constructor has returned, the object has the thread's id and handle, its callback was taken out of it,
    the new thread has its locals [t_thread] and [t_thread_name], the name of the object,
    and the callback is called once. As long as the constructor waits, the new thread gets it to return by its next statements, six at most. *)
Theorem thread_starts l r : Forall plain l -> acts l start = Some r ->
  exists s, r = Ret tt s
    /\ (creator s = Returned ->
          exists th, object s = Some th /\ m_id th = tid /\ m_thread th = handle /\ m_cb th = None
            /\ get_this s = true /\ get_name s = m_name th
            /\ ((runner s = RCall (Some cb) /\ called s = []) \/ (runner s = RReturn /\ called s = [cb])))
    /\ (creator s = Waiting ->
          exists k s', (k <= 6)%nat /\ acts (replicate k (Run tid) ++ [Wait false]) s = Some (Ret tt s') /\ creator s' = Returned).
Proof.
  intros Hp E. destruct (acts_started l start r Hp (or_introl eq_refl) E) as (s & -> & Hs). exists s. split; [done|].
  destruct Hs as [->|Hs]; [done|]. split.
  - intros Hc. destruct Hs as (th & Eo & Eh & _ & Hs). exists th. split; [done|]. unfold at_statement, get_this, get_name in *.
    destruct (runner s) as [| | | | | |c|c|]; try (by destruct Hs as (? & _); congruence); [done| |].
    + destruct Hs as (_ & H1 & H2 & H3 & H4 & -> & H6). auto 10.
    + destruct Hs as (_ & H1 & H2 & H3 & H4 & H5). auto 10.
  - intros Hc. destruct (runs_to_return s Hs Hc) as (s' & E' & Hr). exists (statements (runner s)), s'. split; [|done].
    destruct (runner s); cbn; lia.
Qed.
End Start.

(** ** The end of a thread *)

(** A thread whose object is gone and that nobody detached or joined. *)
Definition left_alone (s : Life) : Prop :=
  object s = None /\ creator s = Returned /\ pthread s = Joinable /\ match runner s with RCall _ | RReturn => True | _ => False end.

Lemma left_alone_acts l : forall s, left_alone s ->
  match acts l s with Some (Ret _ s') => pthread s' = Joinable | Some (Exn _ _) => False | Some (UB _) | None => True end.
Proof.
  induction l as [|a l IH]; intros s Hs; [apply Hs|]. destruct Hs as (Ho & Hc & Hp & Hr).
  destruct s as [o c rn pt tt' nm kn cl]. cbn in Ho, Hc, Hp, Hr. subst o c pt. cbn [acts].
  destruct a as [rt h|i|t|n|rt|t]; cbn [act]; try done.
  - unfold run. cbn. destruct rn as [| | | | | |cc|[cc|]|]; try done. by apply IH.
  - unfold set_name. cbn. destruct rn; try done. destruct tt'; [done|]. by apply IH.
Qed.

(** The end of a thread's object. Joined, its handle is 0: the destructor is fine in a thread that is not one of [Thread], and in one that is
    it detaches no thread, which is undefined. Not joined, the thread is detached when it is destroyed in a thread of [Thread], and
    goes on without its object, so that [SetName] of its callback uses what is gone; destroyed elsewhere, it is never joined nor detached. And when a
    signal interrupts the constructor before the new thread has notified it, the object goes, and the new thread uses what is gone. *)
Theorem thread_ends cb handle tid s : handle <> 0 -> started cb handle tid s ->
  (creator s = Returned ->
     (runner s = RReturn -> exists s1, join 0 s = Some (Ret tt s1) /\ pthread s1 = Joined
        /\ (exists s2, delete_Thread false s1 = Some (Ret tt s2) /\ object s2 = None /\ pthread s2 = Joined)
        /\ delete_Thread true s1 = Some (UB NullDeref))
     /\ (exists s1, delete_Thread true s = Some (Ret tt s1) /\ pthread s1 = Detached
        /\ (runner s = RCall (Some cb) -> (exists s2, run tid s1 = Some (Ret tt s2) /\ called s2 = [cb])
              /\ forall name, set_name name s1 = Some (UB NullDeref)))
     /\ (exists s1, delete_Thread false s = Some (Ret tt s1) /\ object s1 = None
        /\ forall l s2, acts l s1 = Some (Ret tt s2) -> pthread s2 = Joinable))
  /\ (creator s = Waiting -> statements (runner s) <> 0%nat ->
        exists s1, wait true s = Some (Exn logic_error s1) /\ object s1 = None
          /\ acts [Run tid; Run tid] s1 = Some (UB NullDeref)).
Proof.
  intros Hh (th & Eo & Eh & Ep & Hs). destruct s as [o c rn pt tt' nm kn cl]. cbn in Eo, Ep |- *. subst o pt.
  unfold at_statement in Hs. cbn in Hs. split.
  - intros ->. split; [|split].
    + intros ->. unfold join. cbn. destruct (Z.eqb_spec (m_thread th) 0); [congruence|].
      eexists. split; [reflexivity|]. split; [done|]. split; [|done]. eexists. split; [reflexivity|]. done.
    + unfold delete_Thread, pthread_detach. cbn. destruct (Z.eqb_spec (m_thread th) 0); [congruence|].
      eexists. split; [reflexivity|]. split; [done|]. intros ->. destruct Hs as (_ & _ & Ht & _ & _ & _ & Hcl). split.
      * eexists. split; [reflexivity|]. cbn. by rewrite Hcl.
      * intros name. unfold set_name. cbn. by rewrite Ht.
    + eexists. split; [reflexivity|]. split; [done|]. intros l s2 E.
      match type of E with acts l ?x = _ => pose proof (left_alone_acts l x) as H end. rewrite E in H. apply H.
      split; [done|]. split; [done|]. split; [done|]. cbn. destruct rn; try done; by destruct Hs as (? & _).
  - intros -> Hst. unfold wait. cbn. unfold sem_wait.
    assert (m_semaphore th = 0) as -> by (destruct rn; try done; naive_solver). cbn.
    eexists. split; [reflexivity|]. split; [done|]. destruct rn; try done.
Qed.

(** ** Examples *)

Definition demo_actions : list Action :=
  [Create 0 77; Run 12; Run 12; Run 12; Run 12; Run 12; Run 12; Wait false; RunSetName (str "io"); Run 12].

Lemma thread_starts_witness : exists s, acts demo_actions (new_Thread (Some 5) []) = Some (Ret tt s)
  /\ creator s = Returned /\ called s = [5] /\ get_name s = str "io".
Proof.
  assert (Forall (plain 77 12) demo_actions) as Hp by (repeat constructor).
  assert (exists r, acts demo_actions (new_Thread (Some 5) []) = Some r) as [r E] by (eexists; vm_compute; reflexivity).
  destruct (thread_starts 5 [] 77 12 demo_actions r Hp E) as (s & -> & _). exists s. split; [exact E|].
  vm_compute in E. injection E as <-. split; [reflexivity|]. split; reflexivity.
Defined.

Definition demo_life : Life :=
  mkLife (Some (mkThread 12 77 None (str "io") 0)) Returned RReturn Joinable true (str "io") (str "io") [5].

Lemma thread_ends_witness : exists s1, join 0 demo_life = Some (Ret tt s1) /\ delete_Thread true s1 = Some (UB NullDeref).
Proof.
  assert (started 5 77 12 demo_life) as Hs.
  { eexists. split; [reflexivity|]. split; [reflexivity|]. split; [reflexivity|]. cbn. split; [right; done|]. done. }
  destruct (proj1 (proj1 (thread_ends 5 77 12 demo_life ltac:(discriminate) Hs) eq_refl) eq_refl) as (s1 & E & _ & _ & Hd).
  exists s1. split; [exact E|exact Hd].
Defined.

Lemma spin_excludes_witness : exists s, rtc spin_step (new_CASLock 2) s /\ threads s !! 1%nat = Some Inside
  /\ cas_lock 0 s = Some s.
Proof.
  assert (rtc spin_step (new_CASLock 2) (mkSpin true [Spinning; Inside])) as Hr.
  { apply rtc_l with (mkSpin false [Spinning; Outside]); [by apply (step_call _ _ 0)|].
    apply rtc_l with (mkSpin false [Spinning; Spinning]); [by apply (step_call _ _ 1)|].
    apply rtc_l with (mkSpin true [Spinning; Inside]); [by apply (step_lock _ _ 1)|]. apply rtc_refl. }
  exists (mkSpin true [Spinning; Inside]). split; [exact Hr|]. split; [reflexivity|].
  exact (proj1 (proj2 (proj2 (spin_excludes 2 _ Hr))) 0%nat eq_refl).
Defined.
